(* ===== verification/_CoqProject ===== *)
-Q . S2P
Prelude.v
PyInt.v
SignificantBits.v
PyFloat.v
PyDecimal.v
Consensus.v
ChainView.v
Difficulty.v
Errors.v
Coins.v
CoinStore.v
Mempool.v
MempoolManager.v
Admission.v
Sha256.v
MerkleSet.v
MerkleProof.v
Streamable.v
BlockTypes.v
BlockToRecord.v
BlockStore.v
RecordTypes.v
HeaderValidation.v
HeaderSound.v
Generator.v
CachedBls.v
RootValidation.v
Ledger.v
BodyValidation.v
BodySound.v
Chain.v
Staking.v
Blockchain.v
BlockchainFrame.v
BlockchainSound.v
PreValidation.v
FullNodeStore.v
FullNodeStoreSound.v
BlockCreation.v
WeightProof.v
WeightProofSound.v
WeightProofCreate.v
Bech32m.v
LockQueue.v
RateLimits.v
SyncStore.v
PeerInfo.v
AddressManager.v
AddressInv.v
AddressManagerSound.v
