(* ===== verification/Prelude.v ===== *)
(** * Gold blockchain: a verification library of the full node's core

    The repository is a Python full node of a proof of space and time chain (a fork of
    Chia with staking).  This library models the part of it that decides which blocks
    are valid, what the peak is, which coins exist and which transactions wait to be
    included, and proves what makes that part correct.  Paths below are under [src/].

    ** The program

    A block reaches [Blockchain.receive_block] (chia/consensus/blockchain.py).  Its
    header is checked against the chain in memory (block_header_validation.py, with
    the difficulty, deficit, sub-epoch and challenge computations of the files next to
    it, and the staking coefficient of blockchain.py), its body against the coins of
    its parent (block_body_validation.py, with merkle roots, generators, conditions,
    and signatures through a cache of pairings).  An accepted block is written to the
    block store and becomes the peak: the coin store is rolled back to the fork and the
    blocks of the new branch are applied to it, in one database transaction; then the
    dictionaries in memory follow.  The mempool manager validates spend bundles against
    the coin store at the peak and keeps the mempool valid from peak to peak.

    Around this core: during a sync the headers of a batch of blocks are validated ahead
    of time (multiprocess_validation.py) and the store of sync peers picks the heaviest
    peak, checked by a weight proof (weight_proof.py); blocks and signage points not yet in the chain wait in the store of unfinished
    blocks (full_node_store.py), from which the node connects sub slots; a farmer's
    proof and the mempool's bundle become a block (block_creation.py).  Peers are found
    through tables of addresses (address_manager.py), their messages pass rate limits
    and wait for a lock with priorities.

    ** The files

    - [Prelude]: Python results and exceptions ([res]), methods on a state ([ST]),
      loops with fuel ([loop], [st_loop]), ordered dictionaries ([dict]), and the
      shared lemmas and tactics: [res_inv] inverts results, [returns] relates a method
      to the pure function it computes, [keeps] and the tactic [keep] prove what a
      method leaves alone.  [PyInt], [PyFloat], [PyDecimal]: sized integers of
      chia/util/ints.py and struct_stream.py, IEEE doubles, decimals of 28 digits.
    - [SignificantBits], [Consensus]: chia/util/significant_bits.py, the constants,
      rewards, proof of time iterations, block records and deficits of chia/consensus.
    - [ChainView]: the [BlockchainInterface] as a record with the class [ChainLaws] of
      what its clients rely on, [BlockCache], and find_fork_point.py.
    - [Difficulty]: difficulty_adjustment.py.  [Errors]: chia/util/errors.py.
    - [Coins], [CoinStore]: coins, conditions and costs; chia/full_node/coin_store.py
      with its LRU cache.
    - [Mempool], [MempoolManager], [Admission]: chia/full_node/mempool.py,
      pending_tx_cache.py, mempool_manager.py.
    - [Sha256], [MerkleSet], [MerkleProof]: chia/util/merkle_set.py over an executable
      SHA-256.
    - [Streamable], [BlockTypes]: chia/util/streamable.py and the classes of
      chia/types/ a block is made of.
    - [BlockToRecord], [RecordTypes], [BlockStore]: sub-epoch summaries, challenges,
      block records; chia/full_node/block_store.py and hint_store.py.
    - [HeaderValidation], [HeaderSound]: block_header_validation.py,
      vdf_info_computation.py, and the checks of vdf.py and proof_of_space.py.
    - [Generator], [CachedBls], [RootValidation], [BodyValidation], [Ledger],
      [BodySound]: generators and their conditions, chia/util/cached_bls.py,
      block_root_validation.py, block_body_validation.py; [Ledger] is the abstract
      specification, the coins a chain of blocks leaves.
    - [Chain], [Staking], [Blockchain], [BlockchainFrame], [BlockchainSound]:
      blockchain.py: the dictionaries in memory, the difficulty coefficient of a
      farmer, receiving blocks, what reading leaves alone, and the theorems.
    - [PreValidation]: multiprocess_validation.py on full blocks.  [BlockCreation]:
      block_creation.py and prev_transaction_block.py.
    - [WeightProof], [WeightProofSound], [WeightProofCreate]: chia/types/weight_proof.py
      and chia/full_node/weight_proof.py: the data and their validation, what it
      guarantees, and how proofs are made.
    - [FullNodeStore], [FullNodeStoreSound]: chia/full_node/full_node_store.py and
      signage_point.py.  [SyncStore]: chia/full_node/sync_store.py.  [LockQueue]:
      chia/full_node/lock_queue.py.
    - [Bech32m]: chia/util/bech32m.py.  [RateLimits]: chia/server/rate_limits.py.
    - [PeerInfo], [AddressManager], [AddressInv], [AddressManagerSound]:
      chia/types/peer_info.py and chia/server/address_manager.py: the operations, the
      invariant of the tables, and the theorems.

    A Python object with state is a record, a method a function of type [ST]; the
    state reached when a method raises is kept, as in Python.  A database table is a
    [gmap]; a rolled back transaction restores tables and not caches, as the code does.
    Code outside the repository is a parameter, given as a type class with what the
    code relies on: hashing ([StdHash], [Sha256]), the blspy group operations ([Bls]),
    the key and program formats ([Packages]), the CLVM runner and casts ([ClvmRunner],
    [ClvmCasts]), the order a Python set iterates in ([SetIter]), the VDF verifier
    ([Vdf]), the proof of space tools ([PlotTools]), the clock and the random numbers
    ([World]), the parsing of IP addresses ([IpRegistry]), the logarithm and power of
    the C library ([PyMath]) and the generator of [random.Random] ([Rng]).  The callbacks a block is
    created with (signatures of the farmer, the random number of its extension data)
    are arguments.  Each has a toy instance on which the witnesses evaluate the
    definitions.

    ** What is proved

    - Ledger: the coin store and the block store, caches included, answer like finite
      maps ([coin_store_refines], [block_store_refines]); a new, heavier peak leaves in
      the coin store exactly the ledger of its chain, also after a reorganization, and,
      when it is no lower than the old one, in memory exactly the path of its ancestors
      ([new_peak_keeps_ledger]); rolling back undoes a block
      ([rollback_undoes_new_block]).
    - Blocks: what is added spends only coins unspent in the ledger of its parent and
      creates no value ([added_block_spends_unspent]); an accepted header extends its
      parent and keeps the laws of the chain ([accepted_header_extends],
      [accepted_slots_linked], [accepted_block_keeps_laws]); the record of a block is
      of the right type ([record_well_formed]); a refused block changes nothing and a
      failing one is rolled back ([rejected_block_keeps_state],
      [failed_block_rolls_back]); a pre-validation that returns results leaves the
      memory as it was and passes only accepted headers ([prevalidation_sound]); a block
      the node creates from a generator that runs passes the checks of the body up to
      the lookups of coins: rewards, roots, hashes, cost and fees
      ([created_block_accepted]).
    - Consensus arithmetic: bounds and invariants of difficulty, iterations, deficits,
      rewards and the staking coefficient; ends of sub-epochs; the fork point.
    - Mempool: an admitted transaction keeps the pool valid and bounded, evicts the
      cheapest, re-adding at a new peak keeps what is untouched, a block made from the
      pool is maximal.
    - Node: what the store of unfinished blocks holds stays consistent along every
      sequence of its operations ([reachable_store_ok]), signage points and sub slots
      are found and connect ([signage_point_found], [finished_sub_slots_connect]), an
      early end of slot waits for its block ([early_end_of_slot_tried]); the
      sync store refines a map from peers to peaks ([sync_store_refines]); the lock is
      exclusive and its queue drains ([lock_exclusive], [lock_queue_drains]).
    - Weight proofs: the summaries of a proof are bound by the hash its recent chain
      commits to ([weight_proof_binding]), sampled sub-epochs have segments
      ([sampled_sub_epochs_have_segments]), accepted segments prove work
      ([accepted_segments_prove_work]), the fork point lies below summaries both sides
      share ([fork_point_agrees]), prover and verifier agree on summaries and seed
      ([honest_sub_epochs_recovered]).
    - Peers: the tables of addresses agree with each other after every operation
      ([address_tables_consistent]) and selecting a peer returns
      ([select_peer_returns]); outgoing messages respect the limits
      ([outgoing_respects_limits]).
    - Data: serialization round-trips and is canonical, merkle roots do not depend on
      the history of a set, merkle proofs are sound up to collisions and complete,
      cached signature checks equal uncached ones; addresses round-trip and an error in
      one character is detected ([address_roundtrip], [single_error_detected]).

    Some lemmas show what the code does where a comment, a test or its intent says
    otherwise: any valid block becomes the peak whatever its weight
    ([added_block_is_peak]), the proofs of time of unfinished blocks are not checked
    ([unfinished_vdfs_unchecked]), a batch that fails half-way leaves records of blocks
    that were never added ([failed_batch_leaves_record]), a weight proof with a recent
    chain of the usual length is not accepted ([weight_proof_never_accepted]), an end of
    slot that waits can make [new_peak] raise ([unfit_eos_raises]).

    ** Fuel

    A loop without a structural bound takes fuel; running out is the result
    [OutOfFuel], different from every Python outcome.  Where a theorem states that a
    loop returns it gives the fuel that suffices: the height plus one for walks along
    parents (heights decrease), the number of items for loops over collections, the
    depth 256 of a merkle tree, 45 rounds of the selection of a peer, twice the number of slots for the
    walk back through the slots of a segment.  Theorems about accepted blocks assume the outcome and
    hold for every fuel; the witnesses run with the fuel of their samples.

    ** Not modelled, and the plan

    Logging, metrics and asyncio scheduling are left out: methods run under the
    blockchain lock one at a time.  Not modelled: the batches of header blocks of a
    wallet, the database of peer addresses, and the handlers of protocol
    messages that compose these parts (full_node.py, full_node_api.py).  The services
    around the full node (wallet, farmer, harvester, timelord, daemon, RPC, transport,
    command line, plotting, keyrings) are I/O or drive external programs. *)

From stdpp Require Export base list list_numbers gmap sorting.
From Stdlib Require Export ZArith Lia.

#[global] Open Scope Z_scope.

(** ** Python exceptions and results

    [res A] is the outcome of a Python expression: a value, a raised
    exception, or no outcome within the fuel given to a loop.  [OutOfFuel] is
    no Python behaviour: a theorem that concludes [Ok _] rules it out. *)
Inductive exn :=
  | AssertionError
  | ValueError
  | IndexError
  | KeyError
  | TypeError
  | AttributeError
  | ZeroDivisionError
  | OverflowError
  | StructError
  | SetError
  | UnicodeError
  | NotImplementedError
  | IntegrityError.

Inductive res (A : Type) :=
  | Ok (a : A)
  | Raise (e : exn)
  | OutOfFuel.
Arguments Ok {A} a.
Arguments Raise {A} e.
Arguments OutOfFuel {A}.

#[global] Instance exn_eq_dec : EqDecision exn.
Proof. solve_decision. Defined.

#[global] Instance res_ret : MRet res := @Ok.
#[global] Instance res_bind : MBind res := fun A B f m =>
  match m with
  | Ok a => f a
  | Raise e => Raise e
  | OutOfFuel => OutOfFuel
  end.

Definition is_Ok {A} (m : res A) : bool :=
  match m with Ok _ => true | _ => false end.

(** [assert b] and [if not b: raise e] *)
Definition check (b : bool) (e : exn) : res unit :=
  if b then Ok tt else Raise e.
Definition assert_ (b : bool) : res unit := check b AssertionError.

(** An option read where Python would raise [e] on a missing value. *)
Definition of_opt {A} (e : exn) (o : option A) : res A :=
  match o with Some a => Ok a | None => Raise e end.

(** Floor division and modulo of Python integers: [Z.div] and [Z.modulo]
    agree with Python on every nonzero divisor. *)
Definition pydiv (a b : Z) : res Z :=
  if b =? 0 then Raise ZeroDivisionError else Ok (a / b).
Definition pymod (a b : Z) : res Z :=
  if b =? 0 then Raise ZeroDivisionError else Ok (a mod b).

Lemma Ok_inj {A} (x y : A) : Ok x = Ok y → x = y.
Proof. by intros [= ->]. Qed.
Lemma Some_inj {A} (x y : A) : Some x = Some y → x = y.
Proof. by intros [= ->]. Qed.

Lemma bind_Ok {A B} (f : A → res B) (m : res A) y :
  (x ← m; f x) = Ok y ↔ ∃ x, m = Ok x ∧ f x = Ok y.
Proof. destruct m; cbn; naive_solver. Qed.

Lemma and_iff_compat_l_weak (P Q R : Prop) : (P → (Q ↔ R)) → (P ∧ Q) ↔ (P ∧ R).
Proof. tauto. Qed.

Lemma check_Ok b e u : check b e = Ok u ↔ b = true.
Proof. destruct b, u; cbn; naive_solver. Qed.

Lemma assert_Ok b u : assert_ b = Ok u ↔ b = true.
Proof. apply check_Ok. Qed.

Lemma of_opt_Ok {A} e (o : option A) a : of_opt e o = Ok a ↔ o = Some a.
Proof. destruct o; cbn; naive_solver. Qed.

Lemma pydiv_Ok a b q : pydiv a b = Ok q ↔ b ≠ 0 ∧ q = a / b.
Proof. unfold pydiv. destruct (Z.eqb_spec b 0); naive_solver. Qed.

Lemma pymod_Ok a b q : pymod a b = Ok q ↔ b ≠ 0 ∧ q = a mod b.
Proof. unfold pymod. destruct (Z.eqb_spec b 0); naive_solver. Qed.

(** Inversion of successful computations: splits binds, assertions and
    conditionals of a hypothesis [_ = Ok _]. *)
Ltac res_step :=
  match goal with
  | H : mbind _ _ = Ok _ |- _ => apply bind_Ok in H as (?&?&?)
  | H : assert_ _ = Ok ?u |- _ => apply assert_Ok in H; try clear u
  | H : check _ _ = Ok ?u |- _ => apply check_Ok in H; try clear u
  | H : of_opt _ _ = Ok _ |- _ => apply of_opt_Ok in H
  | H : pydiv _ _ = Ok _ |- _ => apply pydiv_Ok in H as [??]
  | H : pymod _ _ = Ok _ |- _ => apply pymod_Ok in H as [??]
  | H : Ok _ = Ok _ |- _ => injection H as H
  | H : mret _ = Ok _ |- _ => injection H as H
  | H : Raise _ = Ok _ |- _ => discriminate H
  | H : OutOfFuel = Ok _ |- _ => discriminate H
  | H : (if ?b then _ else _) = Ok _ |- _ => destruct b eqn:?
  | H : match ?o with Some _ => _ | None => _ end = Ok _ |- _ => destruct o eqn:?
  | H : (let '(_, _) := ?p in _) = Ok _ |- _ => destruct p eqn:?
  end.
Ltac res_inv := repeat (res_step; cbn [mret res_ret] in *); subst.

(** Boolean comparisons of integers, turned into propositions. *)
Ltac zbool :=
  repeat match goal with
  | H : (_ && _)%bool = true |- _ => apply andb_prop in H as [??]
  | H : (_ || _)%bool = false |- _ => apply orb_false_elim in H as [??]
  | H : negb _ = true |- _ => apply negb_true_iff in H
  | H : negb _ = false |- _ => apply negb_false_iff in H
  | H : (_ =? _) = true |- _ => apply Z.eqb_eq in H
  | H : (_ =? _) = false |- _ => apply Z.eqb_neq in H
  | H : (_ <? _) = true |- _ => apply Z.ltb_lt in H
  | H : (_ <? _) = false |- _ => apply Z.ltb_ge in H
  | H : (_ <=? _) = true |- _ => apply Z.leb_le in H
  | H : (_ <=? _) = false |- _ => apply Z.leb_gt in H
  | H : bool_decide _ = true |- _ => apply bool_decide_eq_true in H
  | H : bool_decide _ = false |- _ => apply bool_decide_eq_false in H
  end.

(** ** Loops

    [loop fuel body s] is [while] with its body returning the next state
    ([inl]) or the value the loop leaves with ([inr]). *)
Fixpoint loop {S R} (fuel : nat) (body : S → res (S + R)) (s : S) : res R :=
  match fuel with
  | O => OutOfFuel
  | Datatypes.S fuel =>
      r ← body s;
      match r with
      | inl s' => loop fuel body s'
      | inr v => Ok v
      end
  end.

Section Loop.
Context {S R : Type} (body : S → res (S + R)).

(** Fuel is only an upper bound: more of it never changes an outcome. *)
Lemma loop_mono fuel fuel' s r :
  (fuel ≤ fuel')%nat → loop fuel body s = r → r ≠ OutOfFuel → loop fuel' body s = r.
Proof.
  revert fuel' s. induction fuel as [|n IH]; intros [|n'] s Hle Hr Hne; cbn in *;
    [congruence | congruence | lia | ].
  destruct (body s) as [[s'|v]|e|]; cbn in *; try congruence.
  apply IH; [lia | done | done].
Qed.

(** Partial correctness: an invariant preserved by the body holds when the
    loop leaves. *)
Lemma loop_inv (P : S → Prop) (Q : R → Prop) :
  (∀ s s', P s → body s = Ok (inl s') → P s') →
  (∀ s v, P s → body s = Ok (inr v) → Q v) →
  ∀ fuel s v, P s → loop fuel body s = Ok v → Q v.
Proof.
  intros Hstep Hexit. induction fuel as [|n IH]; intros s v HP Hl; cbn in *; [done|].
  destruct (body s) as [[s'|w]|e|] eqn:Hb; cbn in *; simplify_eq; eauto.
Qed.

(** Total correctness: when every pass from [P] decreases [m] and neither
    raises nor runs out of fuel, the loop returns. *)
Lemma loop_total (P : S → Prop) (Q : R → Prop) (m : S → nat) :
  (∀ s, P s → (∃ s', body s = Ok (inl s') ∧ P s' ∧ (m s' < m s)%nat)
              ∨ (∃ v, body s = Ok (inr v) ∧ Q v)) →
  ∀ fuel s, P s → (m s < fuel)%nat → ∃ v, loop fuel body s = Ok v ∧ Q v.
Proof.
  intros Hb. induction fuel as [|n IH]; intros s HP Hm; [lia|]; cbn.
  destruct (Hb s HP) as [(s'&->&HP'&Hlt)|(v&->&HQ)]; cbn; eauto.
  apply IH; [done|lia].
Qed.
End Loop.

(** ** Python dictionaries

    A dict keeps its keys in insertion order: an association list without
    duplicate keys.  Assigning an existing key keeps its place. *)
Notation dict K V := (list (K * V)) (only parsing).

Section DictOps.
Context {K V : Type} `{EqDecision K}.
Implicit Types (d : list (K * V)) (k : K) (v : V).

Fixpoint dget (k : K) (d : list (K * V)) : option V :=
  match d with
  | [] => None
  | (k', v) :: d' => if decide (k = k') then Some v else dget k d'
  end.

Definition dmem (k : K) (d : list (K * V)) : bool :=
  match dget k d with Some _ => true | None => false end.

(** [d[k] = v] *)
Fixpoint dset (k : K) (v : V) (d : list (K * V)) : list (K * V) :=
  match d with
  | [] => [(k, v)]
  | (k', v') :: d' => if decide (k = k') then (k', v) :: d' else (k', v') :: dset k v d'
  end.

Fixpoint dremove (k : K) (d : list (K * V)) : list (K * V) :=
  match d with
  | [] => []
  | (k', v') :: d' => if decide (k = k') then d' else (k', v') :: dremove k d'
  end.

(** [del d[k]], [d.pop(k)]: a missing key raises [KeyError] *)
Definition ddel (k : K) (d : list (K * V)) : res (list (K * V)) :=
  if dmem k d then Ok (dremove k d) else Raise KeyError.

(** [d[k]] *)
Definition dindex (k : K) (d : list (K * V)) : res V := of_opt KeyError (dget k d).

Definition dict_wf (d : list (K * V)) : Prop := NoDup d.*1.
End DictOps.

Section DictFacts.
Context {K V : Type} `{EqDecision K}.
Implicit Types (d : list (K * V)) (k : K) (v : V).

Lemma dget_dset d k k' v :
  dget k' (dset k v d) = if decide (k' = k) then Some v else dget k' d.
Proof.
  induction d as [|[j w] d IH]; cbn; [done|].
  repeat case_decide; cbn; repeat case_decide; simplify_eq; done.
Qed.

Lemma dget_dset_eq d k v : dget k (dset k v d) = Some v.
Proof. rewrite dget_dset. by rewrite decide_True. Qed.

Lemma dget_dset_ne d k k' v : k' ≠ k → dget k' (dset k v d) = dget k' d.
Proof. intros. rewrite dget_dset. by rewrite decide_False. Qed.

Lemma dget_None d k : dget k d = None ↔ k ∉ d.*1.
Proof.
  induction d as [|[j w] d IH]; cbn; [set_solver|]. case_decide; set_solver.
Qed.

Lemma dget_Some_in d k v : dget k d = Some v → (k, v) ∈ d.
Proof.
  induction d as [|[j w] d IH]; cbn; [done|].
  case_decide; intros; simplify_eq; set_solver.
Qed.

Lemma dget_in_wf d k v : dict_wf d → (k, v) ∈ d → dget k d = Some v.
Proof.
  unfold dict_wf. induction d as [|[j w] d IH]; cbn; [set_solver|].
  rewrite NoDup_cons. intros [Hj Hd] Hin. case_decide as Hk.
  - subst j. set_unfold in Hin. destruct Hin as [Hin|Hin]; [by simplify_eq|].
    exfalso. apply Hj. apply list_elem_of_fmap. by exists (k, v).
  - apply IH; [done|]. set_solver.
Qed.

Lemma dmem_true d k : dmem k d = true ↔ k ∈ d.*1.
Proof.
  unfold dmem. pose proof (dget_None d k). destruct (dget k d) eqn:?; [|naive_solver].
  split; [intros _|done]. destruct (decide (k ∈ d.*1)); [done|naive_solver].
Qed.

Lemma dmem_false d k : dmem k d = false ↔ dget k d = None.
Proof. unfold dmem. destruct (dget k d); naive_solver. Qed.

Lemma dset_keys d k v : (dset k v d).*1 = if dmem k d then d.*1 else d.*1 ++ [k].
Proof.
  unfold dmem. induction d as [|[j w] d IH]; cbn; [done|].
  case_decide; cbn; [done|]. rewrite IH. by destruct (dget k d).
Qed.

Lemma dset_wf d k v : dict_wf d → dict_wf (dset k v d).
Proof.
  unfold dict_wf. intros Hd. rewrite dset_keys. destruct (dmem k d) eqn:Hm; [done|].
  apply dmem_false, dget_None in Hm. apply NoDup_app. set_solver by (apply NoDup_singleton || done).
Qed.

Lemma dset_fresh d k v : dget k d = None → dset k v d = d ++ [(k, v)].
Proof.
  induction d as [|[j w] d IH]; cbn; [done|]. case_decide; [done|].
  intros; f_equal; auto.
Qed.

Lemma dremove_keys_sub d k : dremove k d `sublist_of` d.
Proof. induction d as [|[j w] d IH]; cbn; [constructor|]. case_decide; repeat constructor; done. Qed.

Lemma dremove_wf d k : dict_wf d → dict_wf (dremove k d).
Proof.
  unfold dict_wf. intros Hd. apply (sublist_NoDup _ d.*1); [exact Hd|].
  apply fmap_sublist, dremove_keys_sub.
Qed.

Lemma dget_dremove d k k' :
  dict_wf d → dget k' (dremove k d) = if decide (k' = k) then None else dget k' d.
Proof.
  unfold dict_wf. induction d as [|[j w] d IH]; cbn; [by case_decide|].
  rewrite NoDup_cons. intros [Hj Hd].
  specialize (IH Hd). apply dget_None in Hj.
  repeat case_decide; cbn; repeat case_decide; simplify_eq; auto.
Qed.

Lemma dremove_absent d k : dget k d = None → dremove k d = d.
Proof.
  induction d as [|[j w] d IH]; cbn; [done|]. case_decide; [done|].
  intros; f_equal; auto.
Qed.

Lemma dremove_perm d k v : dget k d = Some v → d ≡ₚ (k, v) :: dremove k d.
Proof.
  induction d as [|[j w] d IH]; cbn; [done|]. case_decide; intros; simplify_eq; [done|].
  rewrite (IH ltac:(done)) at 1. constructor.
Qed.

Lemma ddel_Ok d d' k : ddel k d = Ok d' ↔ is_Some (dget k d) ∧ d' = dremove k d.
Proof. unfold ddel, dmem. destruct (dget k d); naive_solver. Qed.

Lemma dget_app d d' k :
  dget k (d ++ d') = match dget k d with Some v => Some v | None => dget k d' end.
Proof. induction d as [|[j w] d IH]; cbn; [done|]. by case_decide. Qed.

Lemma dremove_length d k : is_Some (dget k d) → S (length (dremove k d)) = length d.
Proof.
  intros [v Hv]. rewrite (Permutation_length (dremove_perm _ _ _ Hv)). done.
Qed.

Lemma dremove_length_le d k : (length (dremove k d) <= length d)%nat.
Proof. apply sublist_length, dremove_keys_sub. Qed.

Lemma dict_wf_perm (d d' : list (K * V)) : d ≡ₚ d' → dict_wf d → dict_wf d'.
Proof. unfold dict_wf. intros E. by rewrite E. Qed.

Lemma dict_wf_app_l (d d' : list (K * V)) : dict_wf (d ++ d') → dict_wf d ∧ dict_wf d'.
Proof. unfold dict_wf. rewrite fmap_app, NoDup_app. tauto. Qed.

Lemma dremove_app_r (k : K) (d d' : list (K * V)) :
  dget k d = None → dremove k (d ++ d') = d ++ dremove k d'.
Proof.
  induction d as [|[k1 v1] d IH]; cbn; [done|]. case_decide; [done|]. intros. by rewrite IH.
Qed.

Lemma dremove_app_l (k : K) (d d' : list (K * V)) :
  is_Some (dget k d) → dremove k (d ++ d') = dremove k d ++ d'.
Proof.
  induction d as [|[k1 v1] d IH]; cbn; [by intros []|]. case_decide; [done|]. intros. cbn. by rewrite IH.
Qed.

Lemma dremove_perm_inv (k : K) (v : V) d d' :
  dict_wf d → d ≡ₚ (k, v) :: d' → dremove k d ≡ₚ d'.
Proof.
  intros Hwf E. apply (Permutation_cons_inv (a := (k, v))). rewrite <- E. symmetry.
  apply dremove_perm, dget_in_wf; [done|]. rewrite E. set_solver.
Qed.

Lemma dget_None_sub (k : K) (d d' : list (K * V)) :
  (∀ x, x ∈ d' → x ∈ d) → dget k d = None → dget k d' = None.
Proof.
  rewrite !dget_None. intros Hs Hk Hin. apply Hk. apply list_elem_of_fmap in Hin as (x&->&Hx).
  apply list_elem_of_fmap. eauto.
Qed.
End DictFacts.

Lemma dict_wf_nil {K V} : dict_wf ([] : list (K * V)).
Proof. constructor. Qed.

Create HintDb gold.
#[export] Hint Resolve dset_wf dremove_wf dict_wf_nil : gold.

(** ** Python lists *)

(** [l[i]], negative indices counting from the end *)
Definition py_index {A} (l : list A) (i : Z) : res A :=
  let j := if i <? 0 then i + Z.of_nat (length l) else i in
  if j <? 0 then Raise IndexError else of_opt IndexError (l !! Z.to_nat j).

(** A [for] loop whose body may raise, collecting one result per element. *)
Fixpoint for_each {A B} (f : A → res B) (l : list A) : res (list B) :=
  match l with
  | [] => Ok []
  | x :: l => y ← f x; ys ← for_each f l; Ok (y :: ys)
  end.

(** A [for] loop over a state, whose body may raise. *)
Fixpoint for_fold {A S} (f : S → A → res S) (s : S) (l : list A) : res S :=
  match l with
  | [] => Ok s
  | x :: l => s' ← f s x; for_fold f s' l
  end.

(** A [for] loop over a state that may also leave the function early ([inr]). *)
Fixpoint for_early {A S R} (f : S → A → res (S + R)) (s : S) (l : list A) : res (S + R) :=
  match l with
  | [] => Ok (inl s)
  | x :: l =>
      r ← f s x;
      match r with inl s' => for_early f s' l | inr v => Ok (inr v) end
  end.

Lemma for_early_ext {A S R} (f g : S → A → res (S + R)) s l :
  (∀ s x, f s x = g s x) → for_early f s l = for_early g s l.
Proof.
  intros E. revert s; induction l as [|x l IH]; intros s; [done|]. cbn [for_early]. rewrite E.
  destruct (g s x) as [[]| |]; cbn [mbind res_bind]; [apply IH|done..].
Qed.

(** A loop inside a loop is a loop over the concatenation. *)
Lemma for_early_app {A S R} (f : S → A → res (S + R)) s l l' :
  for_early f s (l ++ l')
  = (r ← for_early f s l; match r with inl s' => for_early f s' l' | inr v => Ok (inr v) end).
Proof.
  revert s; induction l as [|x l IH]; intros s; cbn [for_early app]; [done|].
  destruct (f s x) as [[s'|v]| |]; cbn [mbind res_bind]; [apply IH|done..].
Qed.

Lemma for_early_bind {A B S R} (f : S → A → res (S + R)) (g : B → list A) s l :
  for_early (λ s x, for_early f s (g x)) s l = for_early f s (l ≫= g).
Proof.
  revert s; induction l as [|x l IH]; intros s; [done|]. cbn [for_early mbind list_bind].
  rewrite for_early_app. destruct (for_early f s (g x)) as [[]| |]; cbn [mbind res_bind]; [apply IH|done..].
Qed.

Lemma py_index_Ok {A} (l : list A) i x :
  0 <= i → py_index l i = Ok x ↔ l !! Z.to_nat i = Some x.
Proof.
  intros. unfold py_index. rewrite (proj2 (Z.ltb_ge i 0)) by lia. rewrite (proj2 (Z.ltb_ge i 0)) by lia.
  apply of_opt_Ok.
Qed.

Lemma py_index_head {A} (x : A) l : py_index (x :: l) 0 = Ok x.
Proof. done. Qed.

Lemma py_index_last {A} (l : list A) x : py_index l (-1) = Ok x → last l = Some x.
Proof.
  unfold py_index. rewrite last_lookup. cbn [Z.ltb Z.compare]. destruct l as [|a l]; [done|].
  cbn [length]. destruct (Z.ltb_spec (-1 + Z.of_nat (S (length l))) 0); [lia|].
  intros E%of_opt_Ok. rewrite <- E. f_equal. cbn. lia.
Qed.

Lemma for_each_Ok {A B} (f : A → res B) l r :
  for_each f l = Ok r ↔ Forall2 (λ x y, f x = Ok y) l r.
Proof.
  revert r; induction l as [|x l IH]; intros r; cbn.
  - split; [intros [= <-]; constructor|]. by inversion 1.
  - split.
    + intros H. res_inv. constructor; [done|]. by apply IH.
    + inversion 1 as [|? y ? ys Hf HF]; subst. rewrite Hf. cbn. by rewrite (proj2 (IH ys)).
Qed.

Lemma for_fold_app {A S} (f : S → A → res S) s l l' :
  for_fold f s (l ++ l') = (s' ← for_fold f s l; for_fold f s' l').
Proof. revert s; induction l as [|x l IH]; intros s; cbn; [done|]. destruct (f s x); cbn; auto. Qed.

(** A body that always succeeds as the pure function [g] makes the loop a fold. *)
Lemma for_fold_pure {A S} (f : S → A → res S) (g : S → A → S) s l :
  (∀ s x, x ∈ l → f s x = Ok (g s x)) → for_fold f s l = Ok (foldl g s l).
Proof.
  revert s; induction l as [|x l IH]; intros s Hf; cbn; [done|].
  rewrite Hf by set_solver. cbn. apply IH. set_solver.
Qed.

(** ** State and exceptions

    [ST S A] is a method on an object of state [S].  The state a method has
    reached when it raises is kept: Python does not undo assignments. *)
Definition ST (S A : Type) : Type := S → res A * S.

#[global] Instance st_ret {S} : MRet (ST S) := fun A a s => (Ok a, s).
#[global] Instance st_bind {S} : MBind (ST S) := fun A B f m s =>
  match m s with
  | (Ok a, s') => f a s'
  | (Raise e, s') => (Raise e, s')
  | (OutOfFuel, s') => (OutOfFuel, s')
  end.

Definition st_get {S} : ST S S := fun s => (Ok s, s).
Definition st_put {S} (s : S) : ST S unit := fun _ => (Ok tt, s).
Definition st_modify {S} (f : S → S) : ST S unit := fun s => (Ok tt, f s).
Definition st_res {S A} (m : res A) : ST S A := fun s => (m, s).
Definition st_raise {S A} (e : exn) : ST S A := fun s => (Raise e, s).

(** [for x in l: body] *)
Fixpoint st_for {A S} (body : A → ST S unit) (l : list A) : ST S unit :=
  match l with
  | [] => mret tt
  | x :: l => body x ;; st_for body l
  end.

(** The same, collecting the results *)
Fixpoint st_each {A B S} (body : A → ST S B) (l : list A) : ST S (list B) :=
  match l with
  | [] => mret []
  | x :: l => y ← body x; ys ← st_each body l; mret (y :: ys)
  end.

(** A loop with its own accumulator that may leave the method early ([inr]) *)
Fixpoint st_early {A S T R} (body : T → A → ST S (T + R)) (t : T) (l : list A) : ST S (T + R) :=
  match l with
  | [] => mret (inl t)
  | x :: l =>
      r ← body t x;
      match r with inl t' => st_early body t' l | inr v => mret (inr v) end
  end.

(** A loop over an accumulator *)
Fixpoint st_fold {A S T} (body : T → A → ST S T) (t : T) (l : list A) : ST S T :=
  match l with [] => mret t | x :: l => t' ← body t x; st_fold body t' l end.

Lemma st_bind_Ok {S A B} (f : A → ST S B) (m : ST S A) s a s' :
  m s = (Ok a, s') → (x ← m; f x) s = f a s'.
Proof. intros E. unfold mbind, st_bind. by rewrite E. Qed.

Lemma st_bind_inv {S A B} (f : A → ST S B) (m : ST S A) s b s'' :
  (x ← m; f x) s = (Ok b, s'') → ∃ a s', m s = (Ok a, s') ∧ f a s' = (Ok b, s'').
Proof. unfold mbind, st_bind. destruct (m s) as [[]]; naive_solver. Qed.

Lemma st_get_eq {S} (s : S) : st_get s = (Ok s, s).
Proof. done. Qed.
Lemma st_modify_eq {S} (f : S → S) s : st_modify f s = (Ok tt, f s).
Proof. done. Qed.
Lemma st_res_Ok {S A} (m : res A) a (s : S) : m = Ok a → st_res m s = (Ok a, s).
Proof. by intros ->. Qed.

(** A run whose outcome is [r] *)
Lemma run_outcome {A B} (p : A * B) r : p.1 = r → p = (r, p.2).
Proof. destruct p. by intros <-. Qed.

(** A loop over a state: total correctness by an invariant indexed by the
    elements already visited. *)
Lemma st_for_total {A S} (body : A → ST S unit) (P : list A → S → Prop) l s :
  (∀ l1 x l2 s, l = l1 ++ x :: l2 → P l1 s → ∃ s', body x s = (Ok tt, s') ∧ P (l1 ++ [x]) s') →
  P [] s → ∃ s', st_for body l s = (Ok tt, s') ∧ P l s'.
Proof.
  intros Hb Hs. enough (∀ l2 l1 s, l = l1 ++ l2 → P l1 s →
    ∃ s', st_for body l2 s = (Ok tt, s') ∧ P l s') as H by by apply (H l []).
  clear s Hs. induction l2 as [|x l2 IH]; intros l1 s Hl HP; cbn.
  - rewrite app_nil_r in Hl. subst. by eexists.
  - destruct (Hb l1 x l2 s Hl HP) as (s'&E&HP').
    rewrite (st_bind_Ok _ _ _ _ _ E). apply (IH (l1 ++ [x])); [|done].
    by rewrite <- app_assoc.
Qed.

(** A loop of plain updates cannot raise. *)
Lemma st_for_modify {A S} (f : A → S → S) l s :
  st_for (λ x, st_modify (f x)) l s = (Ok tt, foldl (λ s x, f x s) s l).
Proof. revert s. induction l as [|x l IH]; intros s; [done|]. apply IH. Qed.

(** [while] on an object: as [loop], in a method. *)
Fixpoint st_loop {S T R} (fuel : nat) (body : T → ST S (T + R)) (t : T) : ST S R :=
  match fuel with
  | O => fun s => (OutOfFuel, s)
  | Datatypes.S fuel =>
      r ← body t;
      match r with inl t' => st_loop fuel body t' | inr v => mret v end
  end.

Lemma st_loop_step {S T R} fuel (body : T → ST S (T + R)) t s t' s' :
  body t s = (Ok (inl t'), s') → st_loop (Datatypes.S fuel) body t s = st_loop fuel body t' s'.
Proof. intros E. cbn [st_loop]. by rewrite (st_bind_Ok _ _ _ _ _ E). Qed.

Lemma st_loop_exit {S T R} fuel (body : T → ST S (T + R)) t s v s' :
  body t s = (Ok (inr v), s') → st_loop (Datatypes.S fuel) body t s = (Ok v, s').
Proof. intros E. cbn [st_loop]. by rewrite (st_bind_Ok _ _ _ _ _ E). Qed.

(** A method of a part of an object: [get] reads the part, [put] replaces it. *)
Definition st_part {S P A} (get : S → P) (put : P → S → S) (m : ST P A) : ST S A :=
  fun s => let '(r, p) := m (get s) in (r, put p s).

Lemma st_part_eq {S P A} (get : S → P) (put : P → S → S) (m : ST P A) s r p :
  m (get s) = (r, p) → st_part get put m s = (r, put p s).
Proof. intros E. unfold st_part. by rewrite E. Qed.

(** The failing step of a [with]-less method leaves it: inversion of a
    successful run. *)
Lemma st_res_inv {S A} (m : res A) (s : S) a s' : st_res m s = (Ok a, s') → m = Ok a ∧ s' = s.
Proof. unfold st_res. naive_solver. Qed.

Lemma st_ret_inv {S A} (a : A) (s : S) b s' : (mret a : ST S A) s = (Ok b, s') → b = a ∧ s' = s.
Proof. unfold mret, st_ret. naive_solver. Qed.

Ltac st_step :=
  match goal with
  | H : mbind _ _ _ = (Ok _, _) |- _ => apply st_bind_inv in H as (?&?&?&?)
  | H : st_res _ _ = (Ok _, _) |- _ => apply st_res_inv in H as [? ?]
  | H : @mret (ST _) _ _ _ _ = (Ok _, _) |- _ => apply st_ret_inv in H as [? ?]
  | H : st_raise _ _ = (Ok _, _) |- _ => discriminate H
  | H : (Raise _, _) = (Ok _, _) |- _ => discriminate H
  | H : (if ?b then _ else _) _ = (Ok _, _) |- _ => destruct b eqn:?
  | H : (match ?o with Some _ => _ | None => _ end) _ = (Ok _, _) |- _ => destruct o eqn:?
  end.

(** ** Methods that only read

    [returns P m r]: from every state of [P], [m] has the outcome [r] and stays in
    [P].  It is closed under the constructs of methods, so that a method written on
    stores with caches is shown to compute what a pure definition says. *)
Definition returns {S A} (P : S → Prop) (m : ST S A) (r : res A) : Prop :=
  ∀ s, P s → ∃ s', m s = (r, s') ∧ P s'.

Section Returns.
Context {S : Type} (P : S → Prop).

Lemma returns_res {A} (r : res A) : returns P (st_res r) r.
Proof. intros s Hs. by exists s. Qed.

Lemma returns_ret {A} (a : A) : returns P (mret a : ST S A) (Ok a).
Proof. intros s Hs. by exists s. Qed.

Lemma returns_bind {A B} (m : ST S A) (r : res A) (f : A → ST S B) (g : A → res B) :
  returns P m r → (∀ a, r = Ok a → returns P (f a) (g a)) → returns P (x ← m; f x) (x ← r; g x).
Proof.
  intros Hm Hf s Hs. destruct (Hm s Hs) as (s'&E&Hs'). unfold mbind at 1, st_bind. rewrite E.
  destruct r as [a|e|]; cbn; [by apply Hf|by exists s'|by exists s'].
Qed.

Lemma returns_loop {T R} (body : T → ST S (T + R)) (body' : T → res (T + R)) :
  (∀ t, returns P (body t) (body' t)) → ∀ fuel t, returns P (st_loop fuel body t) (loop fuel body' t).
Proof.
  intros Hb. induction fuel as [|fuel IH]; intros t; cbn [st_loop loop]; [intros s Hs; by exists s|].
  apply returns_bind; [apply Hb|]. intros [t'|v] _; [apply IH|apply returns_ret].
Qed.

Lemma returns_each {A B} (f : A → ST S B) (g : A → res B) (l : list A) :
  (∀ x, returns P (f x) (g x)) → returns P (st_each f l) (for_each g l).
Proof.
  intros Hf. induction l as [|x l IH]; cbn [st_each for_each]; [apply returns_ret|].
  apply returns_bind; [apply Hf|]. intros y _. apply returns_bind; [apply IH|]. intros ys _. apply returns_ret.
Qed.

Lemma returns_inv {A} (m : ST S A) (r r' : res A) s s' : returns P m r → P s → m s = (r', s') → r' = r ∧ P s'.
Proof. intros Hm Hs E. destruct (Hm s Hs) as (s1&E1&Hs1). rewrite E1 in E. by simplify_eq. Qed.
End Returns.

(** ** What a method keeps

    [keeps R m]: however [m] ends, the state it leaves is related by [R] to the one it
    started from.  For a preorder [R] this is closed under the constructs of methods;
    [keep] works through a method with the hints of the database [keeps]. *)
Definition keeps {S A} (R : S → S → Prop) (m : ST S A) : Prop := ∀ s, R s (m s).2.

Section Keeps.
Context {S : Type} (R : S → S → Prop) `{!PreOrder R}.

Lemma keeps_still {A} (m : ST S A) : (∀ s, (m s).2 = s) → keeps R m.
Proof. intros Hm s. by rewrite Hm. Qed.
Lemma keeps_res {A} (r : res A) : keeps R (st_res r).
Proof. by apply keeps_still. Qed.
Lemma keeps_ret {A} (a : A) : keeps R (mret a : ST S A).
Proof. by apply keeps_still. Qed.
Lemma keeps_raise {A} e : keeps R (st_raise e : ST S A).
Proof. by apply keeps_still. Qed.
Lemma keeps_get : keeps R (st_get : ST S S).
Proof. by apply keeps_still. Qed.

Lemma keeps_bind {A B} (m : ST S A) (f : A → ST S B) :
  keeps R m → (∀ a, keeps R (f a)) → keeps R (x ← m; f x).
Proof.
  intros Hm Hf s. specialize (Hm s). unfold mbind, st_bind. destruct (m s) as [[a|e|] s']; cbn in *; [|done|done].
  etrans; [exact Hm|apply Hf].
Qed.

Lemma keeps_loop {T V} (body : T → ST S (T + V)) : (∀ t, keeps R (body t)) → ∀ fuel t, keeps R (st_loop fuel body t).
Proof.
  intros Hb. induction fuel as [|fuel IH]; intros t; cbn [st_loop]; [by apply keeps_still|].
  apply keeps_bind; [apply Hb|]. intros [t'|v]; [apply IH|apply keeps_ret].
Qed.
Lemma keeps_each {A B} (f : A → ST S B) (l : list A) : (∀ x, keeps R (f x)) → keeps R (st_each f l).
Proof.
  intros Hf. induction l as [|x l IH]; cbn [st_each]; [apply keeps_ret|].
  apply keeps_bind; [apply Hf|]. intros y. apply keeps_bind; [apply IH|]. intros ys. apply keeps_ret.
Qed.
Lemma keeps_early {A T V} (f : T → A → ST S (T + V)) (l : list A) :
  (∀ t x, keeps R (f t x)) → ∀ t, keeps R (st_early f t l).
Proof.
  intros Hf. induction l as [|x l IH]; intros t; cbn [st_early]; [apply keeps_ret|].
  apply keeps_bind; [apply Hf|]. intros [t'|v]; [apply IH|apply keeps_ret].
Qed.
Lemma keeps_for {A} (f : A → ST S unit) (l : list A) : (∀ x, keeps R (f x)) → keeps R (st_for f l).
Proof.
  intros Hf. induction l as [|x l IH]; cbn [st_for]; [apply keeps_ret|]. apply keeps_bind; [apply Hf|]. by intros _.
Qed.
Lemma st_fold_keeps {A T} (body : T → A → ST S T) (l : list A) :
  (∀ t x, keeps R (body t x)) → ∀ t, keeps R (st_fold body t l).
Proof. intros Hb. induction l as [|x l IH]; intros t; cbn [st_fold]; [apply keeps_ret|]. by apply keeps_bind. Qed.
Lemma keeps_step {A B} (m : ST S A) (f : A → ST S B) s o s' :
  keeps R m → (x ← m; f x) s = (o, s') →
  (∃ a s1, m s = (Ok a, s1) ∧ R s s1 ∧ f a s1 = (o, s')) ∨ (R s s' ∧ ∀ b, o ≠ Ok b).
Proof.
  intros Hm. specialize (Hm s). unfold mbind, st_bind. destruct (m s) as [[a|e|] s1]; cbn in Hm; intros E; [left|right..].
  - by exists a, s1.
  - injection E as <- <-. done.
  - injection E as <- <-. done.
Qed.
Lemma keeps_at {A} (m : ST S A) s r s' : keeps R m → m s = (r, s') → R s s'.
Proof. intros Hm E. specialize (Hm s). by rewrite E in Hm. Qed.
End Keeps.

(** A method of a part of the state *)
Lemma keeps_part {S P A} (R : S → S → Prop) (RP : P → P → Prop) get put (m : ST P A) :
  (∀ s p, RP (get s) p → R s (put p s)) → keeps RP m → keeps R (st_part get put m).
Proof. intros HR Hm s. unfold st_part. specialize (Hm (get s)). destruct (m (get s)) as [r p]. by apply HR. Qed.

Create HintDb keeps.
#[export] Hint Resolve keeps_res keeps_ret keeps_raise keeps_get : keeps.
#[export] Hint Extern 1 (PreOrder _) => typeclasses eauto : keeps.

(** Works through the constructs of a method down to the calls the hints know. *)
Ltac keep_step :=
  lazymatch goal with
  | |- PreOrder _ => typeclasses eauto
  | |- ∀ _, _ => intros
  | |- keeps _ (mbind _ _) => apply keeps_bind; [typeclasses eauto| |]
  | |- keeps _ (st_loop _ _ _) => apply keeps_loop; [typeclasses eauto|]
  | |- keeps _ (st_each _ _) => apply keeps_each; [typeclasses eauto|]
  | |- keeps _ (st_early _ _ _) => apply keeps_early; [typeclasses eauto|]
  | |- keeps _ (let _ := _ in _) => cbv zeta
  | |- keeps _ (match ?x with _ => _ end) => destruct x
  | |- keeps _ _ => solve [eauto with keeps]
  end.
Ltac keep := repeat keep_step.
