(* ===== verification/PyInt.v ===== *)
(** * Fixed-width integers and sized byte strings

    Models [chia/util/struct_stream.py], [chia/util/ints.py] and
    [chia/util/byte_types.py]: the integer classes [uint8] .. [uint128],
    [int512], the byte classes [bytes4] .. [bytes480], their constructors (which
    raise on a value that does not fit) and their [parse]/[stream] methods on a
    byte stream.  The first part models what the classes use of Python:
    [int.to_bytes], [int.from_bytes], [struct.pack], [struct.unpack] and
    [BinaryIO.read]. *)
From S2P Require Import Prelude.

(** A byte string is a list of integers; [is_bytes] says each is a byte. *)
Definition bytes : Type := list Z.
Definition is_byte (b : Z) : Prop := 0 <= b < 256.
Definition is_bytes (l : bytes) : Prop := Forall is_byte l.

#[global] Instance is_byte_dec b : Decision (is_byte b).
Proof. unfold is_byte. apply _. Defined.
#[global] Instance is_bytes_dec l : Decision (is_bytes l).
Proof. unfold is_bytes. apply _. Defined.

Fixpoint le_bytes (n : nat) (v : Z) : bytes :=
  match n with
  | O => []
  | S n => v mod 256 :: le_bytes n (v / 256)
  end.

Fixpoint from_le (l : bytes) : Z :=
  match l with
  | [] => 0
  | b :: l => b + 256 * from_le l
  end.

(** Big-endian two's complement: the [n] low bytes of [v]. *)
Definition encode_be (n : nat) (v : Z) : bytes := rev (le_bytes n v).

(** [int.from_bytes(bs, "big", signed=sg)] *)
Definition decode_be (sg : bool) (bs : bytes) : Z :=
  let u := from_le (rev bs) in
  let w := 8 * Z.of_nat (length bs) in
  match bs with
  | [] => 0
  | _ => if sg && (2 ^ (w - 1) <=? u) then u - 2 ^ w else u
  end.

Definition fits (n : nat) (sg : bool) (v : Z) : bool :=
  let w := 8 * Z.of_nat n in
  if sg then (- 2 ^ (w - 1) <=? v) && (v <? 2 ^ (w - 1))
  else (0 <=? v) && (v <? 2 ^ w).

(** [v.to_bytes(n, "big", signed=sg)] *)
Definition py_to_bytes (n : nat) (sg : bool) (v : Z) : res bytes :=
  if fits n sg v then Ok (encode_be n v) else Raise OverflowError.

(** [f.read(n)] on an in-memory stream: at most [n] bytes. *)
Definition read (n : nat) (f : bytes) : bytes * bytes := (take n f, drop n f).

(** ** Encoding lemmas *)

Lemma le_bytes_length n v : length (le_bytes n v) = n.
Proof. revert v; induction n; cbn; auto. Qed.

Lemma le_bytes_are_bytes n v : is_bytes (le_bytes n v).
Proof.
  revert v; induction n as [|n IH]; intros v; constructor; [|apply IH].
  apply Z.mod_pos_bound; lia.
Qed.

Lemma pow256_S n : 256 ^ Z.of_nat (S n) = 256 * 256 ^ Z.of_nat n.
Proof. rewrite Nat2Z.inj_succ, Z.pow_succ_r by lia. done. Qed.

Lemma pow2_256 n : 2 ^ (8 * Z.of_nat n) = 256 ^ Z.of_nat n.
Proof. rewrite Z.pow_mul_r by lia. done. Qed.

Lemma pow2_half n : (0 < n)%nat → 2 * 2 ^ (8 * Z.of_nat n - 1) = 256 ^ Z.of_nat n.
Proof.
  intros. rewrite <- Z.pow_succ_r by lia. rewrite <- pow2_256. f_equal. lia.
Qed.

Lemma from_le_le_bytes n v : from_le (le_bytes n v) = v mod 256 ^ Z.of_nat n.
Proof.
  revert v; induction n as [|n IH]; intros v; cbn [le_bytes from_le].
  - by rewrite Z.mod_1_r.
  - rewrite IH, pow256_S, Z.rem_mul_r by lia. lia.
Qed.

Lemma from_le_bound l : is_bytes l → 0 <= from_le l < 256 ^ Z.of_nat (length l).
Proof.
  induction 1 as [|b l Hb Hl IH]; cbn [from_le length]; [lia|].
  rewrite pow256_S. unfold is_byte in Hb. lia.
Qed.

Lemma le_bytes_from_le l k :
  is_bytes l → le_bytes (length l) (from_le l + 256 ^ Z.of_nat (length l) * k) = l.
Proof.
  intros Hl. revert k. induction Hl as [|b l Hb Hl IH]; intros k; [done|].
  cbn [length le_bytes from_le]. rewrite pow256_S. unfold is_byte in Hb.
  replace (b + 256 * from_le l + 256 * 256 ^ Z.of_nat (length l) * k)
    with (b + (from_le l + 256 ^ Z.of_nat (length l) * k) * 256) by ring.
  rewrite Z.mod_add, Z.mod_small, Z.div_add, Z.div_small by lia. by rewrite Z.add_0_l, IH.
Qed.

Lemma encode_be_length n v : length (encode_be n v) = n.
Proof. unfold encode_be. by rewrite length_rev, le_bytes_length. Qed.

Lemma encode_be_are_bytes n v : is_bytes (encode_be n v).
Proof. apply Forall_rev, le_bytes_are_bytes. Qed.

Lemma decode_encode_be n sg v :
  (0 < n)%nat → fits n sg v = true → decode_be sg (encode_be n v) = v.
Proof.
  intros Hn Hf. unfold decode_be. pose proof (encode_be_length n v) as Hl.
  destruct (encode_be n v) as [|b l] eqn:E; [cbn in Hl; lia|]. rewrite <- E, encode_be_length.
  unfold encode_be. rewrite rev_involutive, from_le_le_bytes.
  pose proof (pow2_half n Hn) as Hh. pose proof (pow2_256 n) as H2. unfold fits in Hf.
  destruct sg; cbn [andb]; zbool.
  - destruct (decide (v < 0)).
    + rewrite <- (Z.mod_unique v (256 ^ Z.of_nat n) (-1) (v + 256 ^ Z.of_nat n)) by lia.
      rewrite (proj2 (Z.leb_le _ _)) by lia. lia.
    + rewrite Z.mod_small by lia. rewrite (proj2 (Z.leb_gt _ _)) by lia. done.
  - rewrite Z.mod_small by lia. done.
Qed.

Lemma encode_decode_be sg bs :
  is_bytes bs → encode_be (length bs) (decode_be sg bs) = bs.
Proof.
  intros Hb. assert (Hr : is_bytes (rev bs)) by by apply Forall_rev.
  enough (∃ k, le_bytes (length bs) (from_le (rev bs) + 256 ^ Z.of_nat (length bs) * k)
               = le_bytes (length bs) (decode_be sg bs)) as [k Hk].
  { unfold encode_be. rewrite <- (rev_involutive bs) at 3. f_equal.
    rewrite <- Hk, <- (length_rev bs). by apply le_bytes_from_le. }
  unfold decode_be. destruct bs as [|b l] eqn:E; [by exists 0|]. rewrite <- E in *. clear E b l.
  rewrite pow2_256.
  destruct (sg && _); [exists (-1)|exists 0]; f_equal; lia.
Qed.

Lemma decode_be_fits sg bs :
  is_bytes bs → (0 < length bs)%nat → fits (length bs) sg (decode_be sg bs) = true.
Proof.
  intros Hb Hl. unfold decode_be, fits. destruct bs as [|b l] eqn:E; [cbn in *; lia|].
  rewrite <- E in *. clear E b l.
  pose proof (from_le_bound (rev bs) ltac:(by apply Forall_rev)) as Hr.
  rewrite length_rev in Hr. pose proof (pow2_half _ Hl). pose proof (pow2_256 (length bs)).
  destruct sg; cbn [andb]; [destruct (Z.leb_spec (2 ^ (8 * Z.of_nat (length bs) - 1)) (from_le (rev bs)))|];
    apply andb_true_intro; rewrite Z.leb_le, Z.ltb_lt; lia.
Qed.

(** ** [StructStream] and its subclasses *)

(** The [PACK] strings of [ints.py]. *)
Inductive pack := Pb | PB | Ph | PH | Pl | PL | Pq | PQ.

Definition calcsize (p : pack) : nat :=
  match p with Pb | PB => 1 | Ph | PH => 2 | Pl | PL => 4 | Pq | PQ => 8 end.
Definition pack_signed (p : pack) : bool :=
  match p with Pb | Ph | Pl | Pq => true | _ => false end.

Definition struct_pack (p : pack) (v : Z) : res bytes :=
  if fits (calcsize p) (pack_signed p) v then Ok (encode_be (calcsize p) v) else Raise StructError.
Definition struct_unpack (p : pack) (bs : bytes) : res Z :=
  if decide (length bs = calcsize p) then Ok (decode_be (pack_signed p) bs) else Raise StructError.

Definition StructStream_new (p : pack) (value : Z) : res Z :=
  match (bs ← struct_pack p value; v1 ← struct_unpack p bs;
         if value =? v1 then Ok tt else Raise ValueError) with
  | Ok _ => Ok value
  | Raise _ => Raise ValueError
  | OutOfFuel => OutOfFuel
  end.

Definition StructStream_parse (p : pack) (f : bytes) : res (Z * bytes) :=
  let '(read_bytes, f) := read (calcsize p) f in
  assert_ (bool_decide (length read_bytes = calcsize p)) ;;
  u ← struct_unpack p read_bytes;
  v ← StructStream_new p u;
  Ok (v, f).

Definition StructStream_stream (p : pack) (v : Z) : res bytes := struct_pack p v.

Definition StructStream_from_bytes (p : pack) (blob : bytes) : res Z :=
  '(result, f) ← StructStream_parse p blob;
  assert_ (bool_decide (f = [])) ;;
  Ok result.

Definition int8 := StructStream_new Pb.
Definition uint8 := StructStream_new PB.
Definition int16 := StructStream_new Ph.
Definition uint16 := StructStream_new PH.
Definition int32 := StructStream_new Pl.
Definition uint32 := StructStream_new PL.
Definition int64 := StructStream_new Pq.
Definition uint64 := StructStream_new PQ.

Definition uint128 (value : Z) : res Z :=
  if (2 ^ 128 - 1 <? value) || (value <? 0) then Raise ValueError else Ok value.
Definition uint128_parse (f : bytes) : res (Z * bytes) :=
  let '(read_bytes, f) := read 16 f in
  assert_ (bool_decide (length read_bytes = 16%nat)) ;;
  let n := decode_be false read_bytes in
  assert_ ((n <=? 2 ^ 128 - 1) && (0 <=? n)) ;;
  v ← uint128 n;
  Ok (v, f).
Definition uint128_stream (v : Z) : res bytes :=
  assert_ ((v <=? 2 ^ 128 - 1) && (0 <=? v)) ;;
  py_to_bytes 16 false v.

Definition int512 (value : Z) : res Z :=
  if (2 ^ 512 <=? value) || (value <=? - 2 ^ 512) then Raise ValueError else Ok value.
Definition int512_parse (f : bytes) : res (Z * bytes) :=
  let '(read_bytes, f) := read 65 f in
  assert_ (bool_decide (length read_bytes = 65%nat)) ;;
  let n := decode_be true read_bytes in
  assert_ ((n <? 2 ^ 512) && (- 2 ^ 512 <? n)) ;;
  v ← int512 n;
  Ok (v, f).
Definition int512_stream (v : Z) : res bytes :=
  assert_ ((v <? 2 ^ 512) && (- 2 ^ 512 <? v)) ;;
  py_to_bytes 65 true v.

(** ** [make_sized_bytes] *)

Definition sized_bytes_new (size : nat) (v : bytes) : res bytes :=
  if negb (bool_decide (length v = size)) then Raise ValueError else Ok v.
Definition sized_bytes_parse (size : nat) (f : bytes) : res (bytes * bytes) :=
  let '(b, f) := read size f in
  assert_ (bool_decide (length b = size)) ;;
  v ← sized_bytes_new size b;
  Ok (v, f).
Definition sized_bytes_stream (v : bytes) : bytes := v.
Definition sized_bytes_from_bytes (size : nat) (blob : bytes) : res bytes :=
  '(result, f) ← sized_bytes_parse size blob;
  assert_ (bool_decide (f = [])) ;;
  Ok result.

(** ** What a serializable class promises

    [Codec valid parse stream]: every valid object is streamed to bytes that
    [parse] reads back, leaving the rest of the stream alone, and [parse] accepts
    nothing but what [stream] writes for the object it returns (the format is
    canonical, so no two byte strings parse to one object). *)
Class Codec {A : Type} (valid : A → Prop)
    (parse : bytes → res (A * bytes)) (stream : A → res bytes) : Prop := {
  codec_complete : ∀ v rest, valid v →
    ∃ bs, stream v = Ok bs ∧ is_bytes bs ∧ parse (bs ++ rest) = Ok (v, rest);
  codec_canonical : ∀ f v rest, is_bytes f → parse f = Ok (v, rest) →
    valid v ∧ ∃ bs, stream v = Ok bs ∧ f = bs ++ rest;
}.

Lemma take_length_app {A} n (l r : list A) : length l = n → take n (l ++ r) = l.
Proof. intros <-. apply take_app_length. Qed.
Lemma drop_length_app {A} n (l r : list A) : length l = n → drop n (l ++ r) = r.
Proof. intros <-. apply drop_app_length. Qed.

Lemma is_bytes_app l r : is_bytes (l ++ r) ↔ is_bytes l ∧ is_bytes r.
Proof. apply Forall_app. Qed.
Lemma is_bytes_take n l : is_bytes l → is_bytes (take n l).
Proof. apply Forall_take. Qed.
Lemma is_bytes_drop n l : is_bytes l → is_bytes (drop n l).
Proof. apply Forall_drop. Qed.
#[export] Hint Resolve is_bytes_take is_bytes_drop encode_be_are_bytes : gold.

Lemma calcsize_pos p : (0 < calcsize p)%nat.
Proof. destruct p; cbn; lia. Qed.

Lemma struct_unpack_pack p v bs : struct_pack p v = Ok bs → struct_unpack p bs = Ok v.
Proof.
  unfold struct_pack, struct_unpack. intros H. res_inv.
  rewrite encode_be_length, decide_True by done. f_equal.
  apply decode_encode_be; [apply calcsize_pos|done].
Qed.

(** The constructor accepts exactly the integers of the class's width. *)
Lemma StructStream_new_spec p v :
  StructStream_new p v = if fits (calcsize p) (pack_signed p) v then Ok v else Raise ValueError.
Proof.
  unfold StructStream_new. destruct (struct_pack p v) as [bs|e|] eqn:E; cbn.
  - rewrite (struct_unpack_pack _ _ _ E). cbn. rewrite Z.eqb_refl. unfold struct_pack in E.
    by destruct (fits _ _ v).
  - unfold struct_pack in E. by destruct (fits _ _ v).
  - unfold struct_pack in E. by destruct (fits _ _ v).
Qed.

Lemma StructStream_new_Ok p v w :
  StructStream_new p v = Ok w ↔ w = v ∧ fits (calcsize p) (pack_signed p) v = true.
Proof. rewrite StructStream_new_spec. destruct (fits _ _ v); naive_solver. Qed.

#[export] Instance StructStream_codec p :
  Codec (λ v, fits (calcsize p) (pack_signed p) v = true) (StructStream_parse p) (StructStream_stream p).
Proof.
  split.
  - intros v rest Hv. exists (encode_be (calcsize p) v).
    unfold StructStream_stream, struct_pack. rewrite Hv. split_and!; [done|auto with gold|].
    unfold StructStream_parse, read.
    rewrite take_length_app, drop_length_app by apply encode_be_length.
    rewrite encode_be_length, bool_decide_true by done. cbn.
    rewrite (struct_unpack_pack p v) by (unfold struct_pack; by rewrite Hv). cbn.
    by rewrite StructStream_new_spec, Hv.
  - intros f v rest Hf H. unfold StructStream_parse, read in H. res_inv. zbool.
    match goal with H : StructStream_new _ _ = _ |- _ => apply StructStream_new_Ok in H as [-> Hv] end.
    split; [done|]. exists (take (calcsize p) f). rewrite take_drop.
    match goal with H : struct_unpack _ _ = _ |- _ => unfold struct_unpack in H end.
    case_decide as Hlen; res_inv.
    unfold StructStream_stream, struct_pack. rewrite Hv. split; [|done]. f_equal.
    rewrite <- Hlen at 1. by apply encode_decode_be; auto with gold.
Qed.

(** [cls.from_bytes(bytes(v)) == v] *)
Lemma StructStream_from_bytes_stream p v bs :
  StructStream_stream p v = Ok bs → StructStream_from_bytes p bs = Ok v.
Proof.
  intros E. assert (Hv : fits (calcsize p) (pack_signed p) v = true).
  { unfold StructStream_stream, struct_pack in E. by destruct (fits _ _ v). }
  destruct (codec_complete (Codec := StructStream_codec p) v [] Hv) as (bs'&E'&_&Hp).
  rewrite E in E'. injection E' as <-. rewrite app_nil_r in Hp.
  unfold StructStream_from_bytes. by rewrite Hp.
Qed.

Lemma py_to_bytes_decode sg bs n :
  is_bytes bs → length bs = n → (0 < n)%nat → py_to_bytes n sg (decode_be sg bs) = Ok bs.
Proof.
  intros Hb <- Hn. unfold py_to_bytes. by rewrite decode_be_fits, encode_decode_be.
Qed.

#[export] Instance uint128_codec :
  Codec (λ v, 0 <= v < 2 ^ 128) uint128_parse uint128_stream.
Proof.
  split.
  - intros v rest Hv. exists (encode_be 16 v). unfold uint128_stream, uint128_parse, py_to_bytes, read.
    assert (fits 16 false v = true) as Hf by (apply andb_true_intro; rewrite Z.leb_le, Z.ltb_lt; cbn; lia).
    assert ((v <=? 2 ^ 128 - 1) && (0 <=? v) = true) as Hr
      by (apply andb_true_intro; rewrite !Z.leb_le; lia).
    rewrite take_length_app, drop_length_app by apply encode_be_length.
    rewrite encode_be_length, bool_decide_true, decode_encode_be by (done || lia).
    rewrite Hf, Hr. split_and!; [done|auto with gold|]. cbn. unfold uint128.
    rewrite (proj2 (Z.ltb_ge _ _)), (proj2 (Z.ltb_ge v 0)) by lia. done.
  - intros f v rest Hf H. unfold uint128_parse, read, uint128 in H. res_inv. zbool.
    split; [lia|]. exists (take 16 f). rewrite take_drop. split; [|done].
    unfold uint128_stream.
    rewrite (proj2 (Z.leb_le _ _)), (proj2 (Z.leb_le _ _)) by lia.
    apply py_to_bytes_decode; [auto with gold|done|lia].
Qed.

#[export] Instance int512_codec :
  Codec (λ v, - 2 ^ 512 < v < 2 ^ 512) int512_parse int512_stream.
Proof.
  assert (2 ^ 512 <= 2 ^ 519) by (apply Z.pow_le_mono_r; lia).
  split.
  - intros v rest Hv. exists (encode_be 65 v). unfold int512_stream, int512_parse, py_to_bytes, read.
    assert (fits 65 true v = true) as Hf
      by (apply andb_true_intro; rewrite Z.leb_le, Z.ltb_lt;
          change (8 * Z.of_nat 65 - 1) with 519; lia).
    assert ((v <? 2 ^ 512) && (- 2 ^ 512 <? v) = true) as Hr
      by (apply andb_true_intro; rewrite !Z.ltb_lt; lia).
    rewrite take_length_app, drop_length_app by apply encode_be_length.
    rewrite encode_be_length, bool_decide_true, decode_encode_be by (done || lia).
    rewrite Hf, Hr. split_and!; [done|auto with gold|].
    cbn -[Z.pow Z.opp]. unfold int512.
    rewrite (proj2 (Z.leb_gt _ _)), (proj2 (Z.leb_gt v _)) by lia. done.
  - intros f v rest Hf H'. unfold int512_parse, read, int512 in H'. res_inv. zbool.
    split; [lia|]. exists (take 65 f). rewrite take_drop. split; [|done].
    unfold int512_stream.
    rewrite (proj2 (Z.ltb_lt _ _)), (proj2 (Z.ltb_lt _ _)) by lia.
    apply py_to_bytes_decode; [auto with gold|done|lia].
Qed.

#[export] Instance sized_bytes_codec n :
  Codec (λ v, is_bytes v ∧ length v = n) (sized_bytes_parse n) (λ v, Ok (sized_bytes_stream v)).
Proof.
  split.
  - intros v rest [Hb Hl]. exists v. split_and!; [done|done|].
    unfold sized_bytes_parse, read. rewrite take_length_app, drop_length_app by done.
    rewrite bool_decide_true by done. cbn. unfold sized_bytes_new.
    by rewrite bool_decide_true.
  - intros f v rest Hf H. unfold sized_bytes_parse, read, sized_bytes_new in H. res_inv. zbool.
    split; [auto with gold|]. exists (take n f). by rewrite take_drop.
Qed.

(** Width lemmas in the form the other components use. *)
Lemma uint8_Ok v w : uint8 v = Ok w ↔ w = v ∧ 0 <= v < 2 ^ 8.
Proof. unfold uint8. rewrite StructStream_new_Ok. cbn. rewrite andb_true_iff, Z.leb_le, Z.ltb_lt. done. Qed.
Lemma uint32_Ok v w : uint32 v = Ok w ↔ w = v ∧ 0 <= v < 2 ^ 32.
Proof. unfold uint32. rewrite StructStream_new_Ok. cbn. rewrite andb_true_iff, Z.leb_le, Z.ltb_lt. done. Qed.
Lemma uint64_Ok v w : uint64 v = Ok w ↔ w = v ∧ 0 <= v < 2 ^ 64.
Proof. unfold uint64. rewrite StructStream_new_Ok. cbn. rewrite andb_true_iff, Z.leb_le, Z.ltb_lt. done. Qed.
Lemma uint128_Ok v w : uint128 v = Ok w ↔ w = v ∧ 0 <= v < 2 ^ 128.
Proof.
  unfold uint128. destruct (_ || _) eqn:E; split; intros H; res_inv.
  - destruct H as [_ H]. apply orb_true_iff in E as [E|E]; zbool; lia.
  - zbool. lia.
  - by destruct H as [-> _].
Qed.
Lemma uint8_in v : 0 <= v < 2 ^ 8 → uint8 v = Ok v.
Proof. intros. by apply uint8_Ok. Qed.
Lemma uint32_in v : 0 <= v < 2 ^ 32 → uint32 v = Ok v.
Proof. intros. by apply uint32_Ok. Qed.
Lemma uint64_in v : 0 <= v < 2 ^ 64 → uint64 v = Ok v.
Proof. intros. by apply uint64_Ok. Qed.
Lemma uint128_in v : 0 <= v < 2 ^ 128 → uint128 v = Ok v.
Proof. intros. by apply uint128_Ok. Qed.

(** [res_inv] that also inverts the integer constructors. *)
Ltac uint_inv :=
  repeat (res_inv;
    match goal with
    | H : uint8 _ = Ok _ |- _ => apply uint8_Ok in H as [??]
    | H : uint32 _ = Ok _ |- _ => apply uint32_Ok in H as [??]
    | H : uint64 _ = Ok _ |- _ => apply uint64_Ok in H as [??]
    | H : uint128 _ = Ok _ |- _ => apply uint128_Ok in H as [??]
    end); res_inv.
