(* ===== verification/SignificantBits.v ===== *)
(** * Truncation of integers to their top bits

    Models [chia/util/significant_bits.py], which keeps difficulties and
    sub-slot iterations to [SIGNIFICANT_BITS] binary digits. *)
From S2P Require Import Prelude.

(** [int.bit_length()] *)
Definition bit_length (x : Z) : Z := if x =? 0 then 0 else Z.log2 (Z.abs x) + 1.

Definition truncate_to_significant_bits (input_x num_significant_bits : Z) : Z :=
  let x := Z.abs input_x in
  if bit_length x <? num_significant_bits then input_x
  else
    let lower := bit_length x - num_significant_bits in
    let mask := Z.shiftl 1 (bit_length x) - 1 - (Z.shiftl 1 lower - 1) in
    if input_x <? 0 then - Z.land x mask else Z.land x mask.

Definition count_significant_bits (input_x : Z) : Z :=
  let x := input_x in
  match List.find (λ i, 0 <? Z.land x (Z.shiftl 1 i)) (seqZ 0 (bit_length x)) with
  | Some i => bit_length x - i
  | None => 0
  end.

Lemma bit_length_pos x : 0 < x → bit_length x = Z.log2 x + 1.
Proof. intros. unfold bit_length. destruct (Z.eqb_spec x 0); [lia|]. by rewrite Z.abs_eq by lia. Qed.

Lemma bit_length_nonneg x : 0 <= bit_length x.
Proof. unfold bit_length. destruct (x =? 0); [lia|]. pose proof (Z.log2_nonneg (Z.abs x)). lia. Qed.

Lemma bit_length_bound x : 0 <= x → x < 2 ^ bit_length x.
Proof.
  intros. destruct (decide (x = 0)) as [->|]; [done|].
  rewrite bit_length_pos by lia. apply Z.log2_spec; lia.
Qed.

(** The mask clears exactly the [lower] low bits. *)
Lemma mask_low_bits x lower :
  0 <= x → 0 <= lower <= bit_length x →
  Z.land x (Z.shiftl 1 (bit_length x) - 1 - (Z.shiftl 1 lower - 1)) = x / 2 ^ lower * 2 ^ lower.
Proof.
  intros Hx Hl. set (b := bit_length x) in *.
  rewrite <- Z.shiftr_div_pow2, <- Z.shiftl_mul_pow2 by lia.
  replace (Z.shiftl 1 b - 1 - (Z.shiftl 1 lower - 1)) with (Z.shiftl (Z.ones (b - lower)) lower).
  - apply Z.bits_inj'. intros i Hi. rewrite Z.land_spec, !Z.shiftl_spec by lia.
    destruct (decide (i < lower)).
    + by rewrite !(Z.testbit_neg_r _ (i - lower)), andb_false_r by lia.
    + rewrite Z.shiftr_spec by lia. replace (i - lower + lower) with i by lia.
      destruct (decide (i < b)).
      * by rewrite Z.ones_spec_low, andb_true_r by lia.
      * rewrite Z.ones_spec_high, andb_false_r by lia. symmetry.
        destruct (decide (x = 0)) as [->|]; [by rewrite Z.bits_0|].
        apply Z.bits_above_log2; [done|]. unfold b in *. rewrite bit_length_pos in * by lia. lia.
  - rewrite !Z.shiftl_mul_pow2 by lia. rewrite Z.ones_equiv.
    replace (2 ^ b) with (2 ^ (b - lower) * 2 ^ lower); [lia|].
    rewrite <- Z.pow_add_r by lia. f_equal. lia.
Qed.

(** On nonnegative input: the low bits below the top [n] are cleared. *)
Lemma truncate_nonneg x n :
  0 <= x → 0 <= n →
  truncate_to_significant_bits x n =
    if bit_length x <? n then x else x / 2 ^ (bit_length x - n) * 2 ^ (bit_length x - n).
Proof.
  intros Hx Hn. unfold truncate_to_significant_bits. rewrite Z.abs_eq by lia.
  destruct (Z.ltb_spec (bit_length x) n); [done|].
  rewrite (proj2 (Z.ltb_ge x 0)) by lia. apply mask_low_bits; lia.
Qed.

Lemma truncate_bounds x n :
  0 <= x → 0 < n →
  0 <= truncate_to_significant_bits x n <= x ∧ (0 < x → 0 < truncate_to_significant_bits x n).
Proof.
  intros Hx Hn. rewrite truncate_nonneg by lia.
  destruct (Z.ltb_spec (bit_length x) n); [lia|].
  set (l := bit_length x - n) in *. assert (0 < 2 ^ l) by (apply Z.pow_pos_nonneg; lia).
  pose proof (Z.mul_div_le x (2 ^ l) ltac:(lia)). pose proof (Z.div_pos x (2 ^ l) Hx ltac:(lia)).
  split; [lia|]. intros. assert (2 ^ l <= x).
  { transitivity (2 ^ Z.log2 x); [|apply Z.log2_spec; lia].
    apply Z.pow_le_mono_r; [lia|]. unfold l in *. rewrite bit_length_pos in * by lia. lia. }
  assert (1 <= x / 2 ^ l) by (apply Z.div_le_lower_bound; lia). nia.
Qed.

Lemma bit_length_le_pow x n : 0 <= x → bit_length x <= n ↔ x < 2 ^ n ∧ 0 <= n.
Proof.
  intros Hx. destruct (decide (x = 0)) as [->|Hne].
  - change (bit_length 0) with 0. split; [|lia]. intros. split; [apply Z.pow_pos_nonneg|]; lia.
  - rewrite bit_length_pos by lia. pose proof (Z.log2_nonneg x). split.
    + intros. split; [|lia]. apply Z.log2_lt_pow2; lia.
    + intros [Hp ?]. apply Z.log2_lt_pow2 in Hp; lia.
Qed.

Lemma bit_length_mono x y : 0 <= x <= y → bit_length x <= bit_length y.
Proof.
  intros. apply bit_length_le_pow; [lia|]. split; [|apply bit_length_nonneg].
  pose proof (bit_length_bound y). lia.
Qed.

(** A multiple of [2^k] has at most [bit_length - k] significant bits. *)
Lemma count_multiple x k :
  0 < x → 0 <= k → (2 ^ k | x) → count_significant_bits x <= bit_length x - k.
Proof.
  intros Hx Hk [q ->]. unfold count_significant_bits.
  destruct (List.find _ _) as [i|] eqn:E.
  - apply List.find_some in E as [Hin Hb]. apply list_elem_of_In, elem_of_seqZ in Hin.
    destruct (decide (k <= i)); [lia|]. exfalso. zbool.
    rewrite Z.land_comm, Z.shiftl_1_l in Hb.
    enough (Z.land (2 ^ i) (q * 2 ^ k) = 0) by lia.
    apply Z.bits_inj'. intros j Hj. rewrite Z.land_spec, Z.bits_0, Z.pow2_bits_eqb by lia.
    destruct (Z.eqb_spec i j); [|done]. subst j. cbn. apply Z.mul_pow2_bits_low. lia.
  - assert (k < bit_length (q * 2 ^ k)); [|lia].
    assert (0 < 2 ^ k) by (apply Z.pow_pos_nonneg; lia).
    assert (1 <= q) by (destruct (decide (q <= 0)); [|lia]; nia).
    assert (Hle : 2 ^ k <= q * 2 ^ k) by nia.
    rewrite bit_length_pos by lia. apply Z.log2_le_mono in Hle. rewrite Z.log2_pow2 in Hle; lia.
Qed.

Lemma count_le_bit_length x : 0 <= x → count_significant_bits x <= bit_length x.
Proof.
  intros. destruct (decide (x = 0)) as [->|]; [done|].
  pose proof (count_multiple x 0 ltac:(lia) ltac:(lia) ltac:(exists x; lia)). lia.
Qed.

(** Subtracting the remainder modulo a power of two keeps the count: the number
    of significant bits of a number truncated to [n] of them and then rounded
    down to a multiple of [2^j] is still at most [n]. *)
Lemma count_truncate_round x n j :
  0 <= x → 0 < n → 0 <= j →
  let t := truncate_to_significant_bits x n in
  count_significant_bits (t - t mod 2 ^ j) <= n.
Proof.
  intros Hx Hn Hj t. pose proof (truncate_bounds x n Hx Hn) as [Ht _]. fold t in Ht.
  assert (0 < 2 ^ j) by (apply Z.pow_pos_nonneg; lia).
  assert (Hr : t - t mod 2 ^ j = t / 2 ^ j * 2 ^ j).
  { pose proof (Z.div_mod t (2 ^ j)). lia. }
  pose proof (Z.mod_pos_bound t (2 ^ j)). set (r := t - t mod 2 ^ j) in *.
  pose proof (Z.mod_le t (2 ^ j)).
  destruct (decide (r = 0)) as [->|Hr0]; [by change (count_significant_bits 0) with 0; lia|].
  assert (0 < r) by lia.
  pose proof (bit_length_mono r x ltac:(lia)) as Hmono.
  unfold t in Hr. rewrite truncate_nonneg in Hr by lia. fold t in Hr.
  destruct (Z.ltb_spec (bit_length x) n).
  - pose proof (count_le_bit_length r). lia.
  - set (l := bit_length x - n) in *.
    enough (count_significant_bits r <= bit_length r - l) by lia.
    apply count_multiple; [lia|lia|].
    destruct (decide (j <= l)).
    + assert (E : t = x / 2 ^ l * 2 ^ l).
      { unfold t. rewrite truncate_nonneg by lia. by rewrite (proj2 (Z.ltb_ge _ _)) by lia. }
      exists (x / 2 ^ l). subst r. rewrite <- E. rewrite (proj2 (Z.mod_divide t (2 ^ j) ltac:(lia))); [lia|].
      rewrite E. exists (x / 2 ^ l * 2 ^ (l - j)). rewrite <- Z.mul_assoc, <- Z.pow_add_r by lia.
      do 2 f_equal. lia.
    + exists (t / 2 ^ j * 2 ^ (j - l)). transitivity (t / 2 ^ j * 2 ^ j).
      { subst r. pose proof (Z.div_mod t (2 ^ j)). lia. }
      rewrite <- Z.mul_assoc, <- Z.pow_add_r by lia. do 2 f_equal. lia.
Qed.

Lemma count_truncate x n :
  0 <= x → 0 < n → count_significant_bits (truncate_to_significant_bits x n) <= n.
Proof.
  intros Hx Hn. pose proof (count_truncate_round x n 0 Hx Hn ltac:(lia)) as H. cbn zeta in H.
  by rewrite Z.pow_0_r, Z.mod_1_r, Z.sub_0_r in H.
Qed.

Example truncate_doc : truncate_to_significant_bits (-245) 2 = -192.
Proof. reflexivity. Qed.
Example count_doc : count_significant_bits (-400) = 5.
Proof. reflexivity. Qed.

(** The top bit survives, and truncation is monotone. *)
Lemma truncate_top_bit x n :
  0 < x → 0 < n → 2 ^ (bit_length x - 1) <= truncate_to_significant_bits x n.
Proof.
  intros Hx Hn. rewrite truncate_nonneg by lia. rewrite (bit_length_pos x) by lia.
  pose proof (Z.log2_spec x Hx) as [Hlo _]. pose proof (Z.log2_nonneg x).
  destruct (Z.ltb_spec (Z.log2 x + 1) n); [by replace (Z.log2 x + 1 - 1) with (Z.log2 x) by lia|].
  set (l := Z.log2 x + 1 - n) in *. replace (Z.log2 x + 1 - 1) with ((n - 1) + l) by lia.
  rewrite Z.pow_add_r by lia. assert (0 < 2 ^ l) by (apply Z.pow_pos_nonneg; lia).
  apply Z.mul_le_mono_nonneg_r; [lia|]. apply Z.div_le_lower_bound; [lia|].
  rewrite <- Z.pow_add_r by lia. by replace (l + (n - 1)) with (Z.log2 x) by lia.
Qed.

Lemma truncate_mono x y n :
  0 <= x <= y → 0 < n → truncate_to_significant_bits x n <= truncate_to_significant_bits y n.
Proof.
  intros Hxy Hn. destruct (decide (x = 0)) as [->|].
  { pose proof (truncate_bounds y n). pose proof (truncate_bounds 0 n). lia. }
  pose proof (bit_length_mono x y Hxy) as Hb.
  destruct (decide (bit_length x = bit_length y)) as [E|].
  - rewrite !truncate_nonneg, E by lia. destruct (_ <? _) eqn:?; [lia|]. zbool.
    apply Z.mul_le_mono_nonneg_r; [apply Z.pow_nonneg; lia|].
    apply Z.div_le_mono; [apply Z.pow_pos_nonneg|]; lia.
  - pose proof (truncate_bounds x n ltac:(lia) Hn). pose proof (bit_length_bound x ltac:(lia)).
    pose proof (truncate_top_bit y n ltac:(lia) Hn).
    assert (2 ^ bit_length x <= 2 ^ (bit_length y - 1)) by (apply Z.pow_le_mono_r; lia). lia.
Qed.
