(* ===== verification/PyFloat.v ===== *)
(** * Python floats

    What the node uses of Python's [float] (IEEE 754 binary64, rounding to
    nearest even), on Rocq's reference semantics of floating point
    ([SpecFloat]): conversion from [int], true division of integers, products,
    truncation back to [int], and comparisons. *)
From S2P Require Import Prelude.
From Stdlib Require Import SpecFloat.
#[local] Open Scope Z_scope.

Definition float : Type := spec_float.
Definition prec : Z := 53.
Definition emax : Z := 1024.

Definition is_inf (f : float) : bool := match f with S754_infinity _ => true | _ => false end.

(** An integer operand of a float operation; too large an integer raises. *)
Definition float_of_int (z : Z) : res float :=
  let f := binary_normalize prec emax z 0 false in
  if is_inf f then Raise OverflowError else Ok f.

Definition float_mul (x y : float) : float := SFmul prec emax x y.
Definition float_add (x y : float) : float := SFadd prec emax x y.

(** [a / b] on integers: the quotient correctly rounded. *)
Definition int_truediv (a b : Z) : res float :=
  match a, b with
  | _, 0 => Raise ZeroDivisionError
  | 0, _ => Ok (S754_zero false)
  | Zpos m, Zpos n =>
      let f := SFdiv prec emax (S754_finite false m 0) (S754_finite false n 0) in
      if is_inf f then Raise OverflowError else Ok f
  | Zpos m, Zneg n | Zneg m, Zpos n =>
      let f := SFdiv prec emax (S754_finite true m 0) (S754_finite false n 0) in
      if is_inf f then Raise OverflowError else Ok f
  | Zneg m, Zneg n =>
      let f := SFdiv prec emax (S754_finite false m 0) (S754_finite false n 0) in
      if is_inf f then Raise OverflowError else Ok f
  end.

(** [int(f)]: truncation towards zero. *)
Definition int_of_float (f : float) : res Z :=
  match f with
  | S754_zero _ => Ok 0
  | S754_finite s m e =>
      let a := if 0 <=? e then Zpos m * 2 ^ e else Zpos m / 2 ^ (- e) in
      Ok (if s then - a else a)
  | S754_infinity _ => Raise OverflowError
  | S754_nan => Raise ValueError
  end.

Definition float_lt (x y : float) : bool := SFltb x y.
Definition float_le (x y : float) : bool := SFleb x y.
Definition float_eq (x y : float) : bool := SFeqb x y.

(** Python compares an [int] with a [float] by their exact values; here for a
    finite nonnegative float. *)
Definition int_le_float (z : Z) (f : float) : bool :=
  match f with
  | S754_zero _ => z <=? 0
  | S754_finite s m e =>
      let v := if s then Zneg m else Zpos m in
      if 0 <=? e then z <=? v * 2 ^ e else z * 2 ^ (- e) <=? v
  | S754_infinity s => negb s
  | S754_nan => false
  end.

Definition float_lt_int (f : float) (z : Z) : bool :=
  match f with
  | S754_zero _ => 0 <? z
  | S754_finite s m e =>
      let v := if s then Zneg m else Zpos m in
      if 0 <=? e then v * 2 ^ e <? z else v <? z * 2 ^ (- e)
  | S754_infinity s => s
  | S754_nan => false
  end.

(** ** Rates

    Quotients of nonnegative integers by positive ones: positive zero or a
    positive finite float.  On them Python's comparisons are a strict total
    order whose equality is identity. *)
Definition is_rate (f : float) : bool :=
  match f with S754_zero false | S754_finite false _ _ => true | _ => false end.

Lemma shr_1_nonneg r : 0 <= shr_m r → 0 <= shr_m (shr_1 r).
Proof. destruct r as [[|[]|[]] ? ?]; cbn; lia. Qed.

Lemma iter_shr_1_nonneg p r : 0 <= shr_m r → 0 <= shr_m (iter_pos shr_1 p r).
Proof.
  revert r. induction p as [p IH|p IH|]; intros r Hr; cbn; [| |by apply shr_1_nonneg].
  - by apply IH, IH, shr_1_nonneg.
  - by apply IH, IH.
Qed.

Lemma shr_fexp_nonneg m e l : 0 <= m → 0 <= shr_m (shr_fexp prec emax m e l).1.
Proof.
  intros Hm. unfold shr_fexp, shr. set (n := Z.sub _ _). clearbody n.
  assert (0 <= shr_m (shr_record_of_loc m l)) by (destruct l as [|[]]; done).
  destruct n; cbn; [done| |done]. by apply iter_shr_1_nonneg.
Qed.

Lemma binary_round_aux_rate m e l : 0 <= m →
  let f := binary_round_aux prec emax false m e l in is_inf f = true ∨ is_rate f = true.
Proof.
  intros Hm. unfold binary_round_aux. pose proof (shr_fexp_nonneg m e l Hm) as H1.
  destruct (shr_fexp prec emax m e l) as [r1 e1]. cbn [fst] in H1.
  assert (0 <= round_nearest_even (shr_m r1) (loc_of_shr_record r1)) as H2.
  { unfold round_nearest_even. destruct (loc_of_shr_record r1) as [|[]]; [lia| |lia|lia].
    destruct (Z.even _); lia. }
  pose proof (shr_fexp_nonneg _ e1 loc_Exact H2) as H3.
  destruct (shr_fexp prec emax _ e1 loc_Exact) as [r2 e2]. cbn [fst] in H3.
  destruct (shr_m r2); [by right| |lia]. destruct (e2 <=? _); [by right|by left].
Qed.

Lemma int_truediv_rate a b f : 0 <= a → 0 < b → int_truediv a b = Ok f → is_rate f = true.
Proof.
  intros Ha Hb. unfold int_truediv. destruct b as [|b|b]; [lia| |lia]. destruct a as [|a|a]; [|  |lia].
  - by intros [= <-].
  - unfold SFdiv. destruct (SFdiv_core_binary _ _ _ _ _ _) as [[q e] l] eqn:E.
    assert (0 <= q).
    { unfold SFdiv_core_binary in E. set (m' := match _ with Z0 => _ | Zpos _ => _ | Zneg _ => _ end) in E.
      assert (0 <= m') by (unfold m'; destruct (_ - _); [lia|apply Z.shiftl_nonneg; lia|lia]).
      clearbody m'. pose proof (Z_div_mod m' (Zpos b) ltac:(lia)) as Hd.
      destruct (Z.div_eucl m' (Zpos b)) as [q' r']. injection E as <- _ _. nia. }
    destruct (binary_round_aux_rate q e l ltac:(done)) as [Hi|Hi]; cbn [xorb] in *.
    + by rewrite Hi.
    + destruct (is_inf _); [done|]. by intros [= <-].
Qed.

Section RateOrder.
Implicit Types x y z : float.

Lemma rate_compare x y : is_rate x = true → is_rate y = true →
  (float_lt x y = true ∧ float_eq x y = false ∧ x ≠ y ∧ float_lt y x = false)
  ∨ (float_lt x y = false ∧ float_eq x y = true ∧ x = y)
  ∨ (float_lt y x = true ∧ float_eq x y = false ∧ x ≠ y ∧ float_lt x y = false).
Proof.
  unfold float_lt, float_eq, SFltb, SFeqb.
  destruct x as [[]|[]| |[] m e], y as [[]|[]| |[] m' e']; try done; intros _ _; cbn.
  - naive_solver.
  - naive_solver.
  - naive_solver.
  - rewrite (Z.compare_antisym e e'). destruct (Z.compare_spec e e') as [->|He|He]; cbn.
    + change (Pos.compare_cont Eq m m') with (Pos.compare m m').
      change (Pos.compare_cont Eq m' m) with (Pos.compare m' m).
      rewrite (Pos.compare_antisym m m'). destruct (Pos.compare_spec m m') as [->|Hm|Hm]; cbn.
      * naive_solver.
      * left. split_and!; [done|done| |done]. intros [= ->]. lia.
      * right; right. split_and!; [done|done| |done]. intros [= ->]. lia.
    + left. split_and!; [done|done| |done]. intros [= -> ->]. lia.
    + right; right. split_and!; [done|done| |done]. intros [= -> ->]. lia.
Qed.

Lemma float_eq_true x y : is_rate x = true → is_rate y = true → float_eq x y = true ↔ x = y.
Proof.
  intros Hx Hy. destruct (rate_compare x y Hx Hy) as [(_&?&?&_)|[(_&?&?)|(_&?&?&_)]]; split; congruence.
Qed.

Lemma float_lt_ne x y : is_rate x = true → is_rate y = true → float_lt x y = true → float_eq y x = false ∧ float_lt y x = false ∧ x ≠ y.
Proof.
  intros Hx Hy Hlt. destruct (rate_compare x y Hx Hy) as [(_&?&?&?)|[(?&?&?)|(?&?&?&?)]]; [|congruence..].
  split_and!; [|done|done]. destruct (float_eq y x) eqn:E; [|done].
  apply float_eq_true in E; [congruence|done|done].
Qed.

Lemma float_lt_trans x y z :
  is_rate x = true → is_rate y = true → is_rate z = true →
  float_lt x y = true → float_lt y z = true → float_lt x z = true.
Proof.
  unfold float_lt, SFltb.
  destruct x as [[]|[]| |[] m e], y as [[]|[]| |[] m' e'], z as [[]|[]| |[] m'' e''];
    try done; intros _ _ _; cbn.
  change (Pos.compare_cont Eq m m') with (Pos.compare m m').
  change (Pos.compare_cont Eq m' m'') with (Pos.compare m' m'').
  change (Pos.compare_cont Eq m m'') with (Pos.compare m m'').
  destruct (Z.compare_spec e e') as [->|He|He]; [| |done];
    destruct (Z.compare_spec e' e'') as [->|He'|He']; try done.
  - destruct (Pos.compare_spec m m'), (Pos.compare_spec m' m''); try done.
    destruct (Pos.compare_spec m m''); [lia|done|lia].
  - destruct (Z.compare_spec e e''); [lia|done|lia].
  - destruct (Z.compare_spec e e''); [lia|done|lia].
Qed.
End RateOrder.
