(* ===== verification/PyDecimal.v ===== *)
(** * Python decimals

    What the node uses of Python's [decimal.Decimal] in the default context:
    28 significant digits, rounding half to even.  A decimal is [dcoef * 10 ^ dexp];
    results are kept up to trailing zeros, which do not change their value.  The
    exponents that occur are far from the limits of the context.

    The theorems of this file are about rounding: a result is never on the other
    side of a number that is itself representable. *)
From S2P Require Import Prelude.
From Stdlib Require Import QArith Qpower Lqa.
#[local] Open Scope Z_scope.

Record decimal := { dcoef : Z; dexp : Z }.

Definition dec_of_int (z : Z) : decimal := {| dcoef := z; dexp := 0 |}.

(** The number of decimal digits of a nonnegative integer *)
Fixpoint ndigits_aux (fuel : nat) (n : Z) : Z :=
  match fuel with
  | O => 1
  | S fuel => if n <? 10 then 1 else 1 + ndigits_aux fuel (n / 10)
  end.
Definition ndigits (n : Z) : Z := ndigits_aux (Z.to_nat (Z.log2 n)) n.

Definition dprec : Z := 28.

(** [num / den] rounded half to even to an integer, for [0 <= num], [0 < den] *)
Definition half_even (num den : Z) : Z :=
  let q := num / den in
  let r := num mod den in
  if 2 * r <? den then q
  else if den <? 2 * r then q + 1
  else if Z.even q then q else q + 1.

(** [num / den * 10 ^ s] as a fraction *)
Definition scale (num den s : Z) : Z * Z :=
  if 0 <=? s then (num * 10 ^ s, den) else (num, den * 10 ^ (- s)).

Definition round_at (num den s : Z) : decimal :=
  let '(n, d) := scale num den s in {| dcoef := half_even n d; dexp := - s |}.

(** The quotient of two positive integers with [dprec] significant digits *)
Definition round_ratio (num den : Z) : decimal :=
  let s := dprec + ndigits den - ndigits num in
  let '(n, d) := scale num den s in
  if n / d <? 10 ^ dprec then round_at num den s else round_at num den (s - 1).

Definition dec_fix (c e : Z) : decimal :=
  if ndigits (Z.abs c) <=? dprec then {| dcoef := c; dexp := e |}
  else let d := round_ratio (Z.abs c) 1 in {| dcoef := Z.sgn c * dcoef d; dexp := e + dexp d |}.

Definition dec_mul (a b : decimal) : decimal := dec_fix (dcoef a * dcoef b) (dexp a + dexp b).
Definition dec_add (a b : decimal) : decimal :=
  let e := Z.min (dexp a) (dexp b) in
  dec_fix (dcoef a * 10 ^ (dexp a - e) + dcoef b * 10 ^ (dexp b - e)) e.

(** [a / b]; dividing by zero raises *)
Definition dec_div (a b : decimal) : res decimal :=
  if dcoef b =? 0 then Raise ZeroDivisionError
  else if dcoef a =? 0 then Ok {| dcoef := 0; dexp := dexp a - dexp b |}
  else
    let d := round_ratio (Z.abs (dcoef a)) (Z.abs (dcoef b)) in
    Ok {| dcoef := Z.sgn (dcoef a) * Z.sgn (dcoef b) * dcoef d; dexp := dexp a - dexp b + dexp d |}.

(** Comparison of an integer with a decimal, by their exact values *)
Definition int_lt_dec (z : Z) (d : decimal) : bool :=
  if 0 <=? dexp d then z <? dcoef d * 10 ^ dexp d else z * 10 ^ (- dexp d) <? dcoef d.

(** [int(d)]: truncation towards zero *)
Definition int_of_dec (d : decimal) : Z :=
  if 0 <=? dexp d then dcoef d * 10 ^ dexp d else Z.quot (dcoef d) (10 ^ (- dexp d)).

(** ** Values *)
#[local] Open Scope Q_scope.

Definition p10 (e : Z) : Q := Qpower (inject_Z 10) e.
Definition dval (d : decimal) : Q := inject_Z (dcoef d) * p10 (dexp d).

Lemma p10_pos e : 0 < p10 e.
Proof. apply Qpower_0_lt. reflexivity. Qed.

Lemma p10_add a b : p10 (a + b) == p10 a * p10 b.
Proof. apply Qpower_plus. discriminate. Qed.

Lemma p10_nonneg e : (0 <= e)%Z → p10 e == inject_Z (10 ^ e).
Proof. intros He. symmetry. by apply Zpower_Qpower. Qed.

Lemma p10_mono a b : (a <= b)%Z → p10 a <= p10 b.
Proof. intros. apply Qpower_le_compat_l; [done|discriminate]. Qed.

Lemma p10_lt_inv a b : p10 a < p10 b → (a < b)%Z.
Proof. intros Hlt. destruct (Z.lt_ge_cases a b) as [|Hge]; [done|]. pose proof (p10_mono b a Hge). lra. Qed.

Lemma inject_le a b : inject_Z a <= inject_Z b ↔ (a <= b)%Z.
Proof. by rewrite <- Zle_Qle. Qed.

(** ** Digits *)
#[local] Open Scope Z_scope.

Lemma ndigits_aux_spec fuel n : 0 < n → n < 2 ^ (Z.of_nat fuel + 1) →
  1 <= ndigits_aux fuel n ∧ 10 ^ (ndigits_aux fuel n - 1) <= n < 10 ^ ndigits_aux fuel n.
Proof.
  revert n. induction fuel as [|fuel IH]; intros n Hn Hf; cbn [ndigits_aux].
  - change (Z.of_nat 0 + 1) with 1 in Hf. change (10 ^ (1 - 1)) with 1. change (10 ^ 1) with 10. lia.
  - destruct (n <? 10) eqn:E; zbool; [change (10 ^ (1 - 1)) with 1; change (10 ^ 1) with 10; lia|].
    destruct (IH (n / 10)) as (H1&H2&H3).
    { apply Z.div_str_pos. lia. }
    { apply Z.div_lt_upper_bound; [lia|]. replace (Z.of_nat (S fuel) + 1) with (Z.of_nat fuel + 1 + 1) in Hf by lia.
      rewrite Z.pow_add_r in Hf by lia. lia. }
    set (d := ndigits_aux fuel (n / 10)) in *. split; [lia|].
    replace (1 + d - 1) with (d - 1 + 1) by lia. rewrite (Z.add_comm 1 d), !Z.pow_add_r by lia. change (10 ^ 1) with 10.
    pose proof (Z.div_mod n 10 ltac:(lia)). pose proof (Z.mod_pos_bound n 10 ltac:(lia)). lia.
Qed.

Lemma ndigits_spec n : 0 < n → 10 ^ (ndigits n - 1) <= n < 10 ^ ndigits n ∧ 1 <= ndigits n.
Proof.
  intros Hn. unfold ndigits. destruct (ndigits_aux_spec (Z.to_nat (Z.log2 n)) n Hn) as (H1&H2&H3); [|lia].
  rewrite Z2Nat.id by apply Z.log2_nonneg. apply (Z.log2_spec n Hn).
Qed.

(** ** Rounding to an integer *)
Lemma half_even_le n d k : 0 < d → n <= k * d → half_even n d <= k.
Proof.
  intros Hd Hn. unfold half_even. pose proof (Z.div_mod n d ltac:(lia)) as E.
  pose proof (Z.mod_pos_bound n d Hd) as Hr. set (q := n / d) in *. set (r := n mod d) in *. clearbody q r.
  assert (q <= k) by nia. assert (q = k → r = 0) by nia.
  destruct (2 * r <? d) eqn:?; [lia|]. destruct (d <? 2 * r) eqn:?; [zbool; nia|]. destruct (Z.even q); zbool; nia.
Qed.

Lemma half_even_ge n d k : 0 < d → k * d <= n → k <= half_even n d.
Proof.
  intros Hd Hn. unfold half_even. assert (k <= n / d) by (apply Z.div_le_lower_bound; lia).
  repeat case_match; lia.
Qed.

#[local] Open Scope Q_scope.

Lemma p10_cancel s : p10 s * p10 (- s) == 1.
Proof. rewrite <- p10_add. by replace (s + - s)%Z with 0%Z by lia. Qed.

Lemma inject_nonneg z : (0 <= z)%Z → 0 <= inject_Z z.
Proof. intros. by apply (inject_le 0). Qed.

Lemma inject_pos z : (0 < z)%Z → 0 < inject_Z z.
Proof. intros Hz. by rewrite Zlt_Qlt in Hz. Qed.

Lemma scale_spec num den s n d : (0 <= num)%Z → (0 < den)%Z → scale num den s = (n, d) →
  (0 <= n)%Z ∧ (0 < d)%Z ∧ inject_Z n * inject_Z den == inject_Z num * p10 s * inject_Z d.
Proof.
  intros Hn Hd. unfold scale. destruct (0 <=? s)%Z eqn:Hs; intros [= <- <-]; zbool.
  - split_and!; [by apply Z.mul_nonneg_nonneg; [|apply Z.pow_nonneg]|done|].
    rewrite inject_Z_mult, p10_nonneg by done. ring.
  - assert (0 < 10 ^ (- s))%Z by (apply Z.pow_pos_nonneg; lia). split_and!; [done|lia|].
    rewrite inject_Z_mult, <- p10_nonneg by lia.
    transitivity (inject_Z num * inject_Z den * (p10 s * p10 (- s))); [|ring]. rewrite p10_cancel. ring.
Qed.

(** Comparing the scaled fraction with an integer is comparing the fraction with
    that integer scaled back. *)
Lemma scale_le num den s n d k : (0 <= num)%Z → (0 < den)%Z → scale num den s = (n, d) →
  (n <= k * d)%Z ↔ inject_Z num <= inject_Z k * p10 (- s) * inject_Z den.
Proof.
  intros Hn Hd E. destruct (scale_spec _ _ _ _ _ Hn Hd E) as (Hn'&Hd'&Eq).
  rewrite <- inject_le, inject_Z_mult, <- (Qmult_le_r _ _ _ (inject_pos _ Hd)), Eq.
  pose proof (inject_pos _ Hd') as Hdq. pose proof (p10_pos s) as Hp.
  assert (0 < p10 s * inject_Z d) as Hpd by (apply Qmult_lt_0_compat; done).
  rewrite <- (Qmult_le_r (inject_Z num) _ _ Hpd).
  assert (inject_Z k * p10 (- s) * inject_Z den * (p10 s * inject_Z d) == inject_Z k * inject_Z d * inject_Z den) as ->.
  { transitivity (inject_Z k * inject_Z d * inject_Z den * (p10 s * p10 (- s))); [ring|]. rewrite p10_cancel. ring. }
  by rewrite Qmult_assoc.
Qed.

Lemma scale_ge num den s n d k : (0 <= num)%Z → (0 < den)%Z → scale num den s = (n, d) →
  (k * d <= n)%Z ↔ inject_Z k * p10 (- s) * inject_Z den <= inject_Z num.
Proof.
  intros Hn Hd E. destruct (scale_spec _ _ _ _ _ Hn Hd E) as (Hn'&Hd'&Eq).
  rewrite <- inject_le, inject_Z_mult, <- (Qmult_le_r _ _ _ (inject_pos _ Hd)), Eq.
  pose proof (inject_pos _ Hd') as Hdq. pose proof (p10_pos s) as Hp.
  assert (0 < p10 s * inject_Z d) as Hpd by (apply Qmult_lt_0_compat; done).
  rewrite <- (Qmult_le_r _ (inject_Z num) _ Hpd).
  assert (inject_Z k * p10 (- s) * inject_Z den * (p10 s * inject_Z d) == inject_Z k * inject_Z d * inject_Z den) as ->.
  { transitivity (inject_Z k * inject_Z d * inject_Z den * (p10 s * p10 (- s))); [ring|]. rewrite p10_cancel. ring. }
  by rewrite Qmult_assoc.
Qed.

Lemma shift_unit k j s : (- s <= j)%Z → inject_Z k * p10 j == inject_Z (k * 10 ^ (j + s)) * p10 (- s).
Proof.
  intros Hj. rewrite inject_Z_mult, <- p10_nonneg, p10_add by lia.
  transitivity (inject_Z k * p10 j * (p10 s * p10 (- s))); [|ring]. rewrite p10_cancel. ring.
Qed.

Lemma round_at_le num den s k j : (0 <= num)%Z → (0 < den)%Z → (- s <= j)%Z →
  inject_Z num <= inject_Z k * p10 j * inject_Z den → dval (round_at num den s) <= inject_Z k * p10 j.
Proof.
  intros Hn Hd Hj Hle. unfold round_at. destruct (scale num den s) as [n d] eqn:E.
  destruct (scale_spec _ _ _ _ _ Hn Hd E) as (_&Hd'&_). unfold dval. cbn [dcoef dexp].
  rewrite (shift_unit k j s) in Hle |- * by done.
  apply Qmult_le_compat_r; [|apply Qlt_le_weak, p10_pos]. apply inject_le, half_even_le; [done|].
  by apply (scale_le num den s n d).
Qed.

Lemma round_at_ge num den s k j : (0 <= num)%Z → (0 < den)%Z → (- s <= j)%Z →
  inject_Z k * p10 j * inject_Z den <= inject_Z num → inject_Z k * p10 j <= dval (round_at num den s).
Proof.
  intros Hn Hd Hj Hle. unfold round_at. destruct (scale num den s) as [n d] eqn:E.
  destruct (scale_spec _ _ _ _ _ Hn Hd E) as (_&Hd'&_). unfold dval. cbn [dcoef dexp].
  rewrite (shift_unit k j s) in Hle |- * by done.
  apply Qmult_le_compat_r; [|apply Qlt_le_weak, p10_pos]. apply inject_le, half_even_ge; [done|].
  by apply (scale_ge num den s n d).
Qed.

(** ** Rounding to [dprec] digits *)
Lemma ndigits_p10 n : (0 < n)%Z → p10 (ndigits n - 1) <= inject_Z n ∧ inject_Z n < p10 (ndigits n).
Proof.
  intros Hn. destruct (ndigits_spec n Hn) as ((H1&H2)&H3). rewrite !p10_nonneg by lia.
  split; [by apply inject_le|by rewrite <- Zlt_Qlt].
Qed.

Lemma ratio_lower num den : (0 < num)%Z → (0 < den)%Z →
  p10 (dprec - 1 - (dprec + ndigits den - ndigits num)) * inject_Z den <= inject_Z num.
Proof.
  intros Hn Hd. destruct (ndigits_p10 num Hn) as [H1 _]. destruct (ndigits_p10 den Hd) as [_ H2].
  eapply Qle_trans; [|exact H1]. replace (ndigits num - 1)%Z
    with (dprec - 1 - (dprec + ndigits den - ndigits num) + ndigits den)%Z by lia.
  rewrite p10_add. apply Qmult_le_l; [apply p10_pos|]. by apply Qlt_le_weak.
Qed.

Lemma round_ratio_shape num den : (0 < num)%Z → (0 < den)%Z →
  ∃ s, round_ratio num den = round_at num den s ∧ p10 (dprec - 1 - s) * inject_Z den <= inject_Z num.
Proof.
  intros Hn Hd. unfold round_ratio. cbv zeta. set (s := (dprec + ndigits den - ndigits num)%Z).
  destruct (scale num den s) as [n d] eqn:E. destruct (scale_spec num den s n d ltac:(lia) Hd E) as (_&Hd'&_).
  destruct (_ <? _)%Z eqn:Hlt; zbool; [exists s; split; [done|by apply ratio_lower]|].
  exists (s - 1)%Z. split; [done|].
  assert (inject_Z (10 ^ dprec) * p10 (- s) * inject_Z den <= inject_Z num) as Hge.
  { apply (scale_ge num den s n d); [lia|done|done|]. pose proof (Z.mul_div_le n d Hd'). nia. }
  rewrite <- p10_nonneg, <- p10_add in Hge by done. by replace (dprec - 1 - (s - 1))%Z with (dprec + - s)%Z by lia.
Qed.

Lemma coarse_unit k j s : (k < 10 ^ dprec)%Z → p10 (dprec - 1 - s) <= inject_Z k * p10 j → (- s <= j)%Z.
Proof.
  intros Hk Hle. assert (p10 (dprec - 1 - s) < p10 (dprec + j)) as Hlt.
  { eapply Qle_lt_trans; [exact Hle|]. rewrite p10_add, (p10_nonneg dprec) by done.
    apply Qmult_lt_compat_r; [apply p10_pos|]. by rewrite <- Zlt_Qlt. }
  apply p10_lt_inv in Hlt. unfold dprec in *. lia.
Qed.

(** Rounding never crosses a number of at most [dprec] digits. *)
Lemma round_ratio_le num den k j : (0 < num)%Z → (0 < den)%Z → (k < 10 ^ dprec)%Z →
  inject_Z num <= inject_Z k * p10 j * inject_Z den → dval (round_ratio num den) <= inject_Z k * p10 j.
Proof.
  intros Hn Hd Hk Hle. destruct (round_ratio_shape num den Hn Hd) as (s&->&Hs).
  apply round_at_le; [lia|done| |done]. apply (coarse_unit k); [done|].
  apply (Qmult_le_r _ _ _ (inject_pos _ Hd)). by eapply Qle_trans.
Qed.

Lemma round_ratio_ge num den k j : (0 < num)%Z → (0 < den)%Z → (k < 10 ^ dprec)%Z →
  inject_Z k * p10 j * inject_Z den <= inject_Z num → inject_Z k * p10 j <= dval (round_ratio num den).
Proof.
  intros Hn Hd Hk Hle. destruct (round_ratio_shape num den Hn Hd) as (s&->&Hs).
  destruct (Qlt_le_dec (inject_Z k * p10 j) (p10 (dprec - 1 - s))) as [Hlt|Hge].
  - apply Qlt_le_weak, (Qlt_le_trans _ _ _ Hlt). replace (dprec - 1 - s)%Z with (dprec - 1 + - s)%Z in * by lia.
    rewrite p10_add, (p10_nonneg (dprec - 1)) in * by done. by apply round_at_ge; [lia| | |].
  - apply round_at_ge; [lia|done| |done]. by apply (coarse_unit k).
Qed.

(** ** The operations on nonnegative decimals *)
Definition dnonneg (d : decimal) : Prop := (0 <= dcoef d)%Z.

(** A bound of at most [dprec] digits *)
Definition short (q : Q) : Prop := ∃ k j, (k < 10 ^ dprec)%Z ∧ q == inject_Z k * p10 j.

Lemma short_dec k j : (k <? 10 ^ dprec)%Z = true → short (inject_Z k * p10 j).
Proof. intros. exists k, j. by zbool. Qed.

Lemma dval_nonneg d : dnonneg d → 0 <= dval d.
Proof. intros Hd. apply Qmult_le_0_compat; [by apply inject_nonneg|apply Qlt_le_weak, p10_pos]. Qed.

Lemma round_ratio_nonneg num den : (0 < num)%Z → (0 < den)%Z → dnonneg (round_ratio num den).
Proof.
  intros Hn Hd. destruct (round_ratio_shape num den Hn Hd) as (s&->&_). unfold round_at.
  destruct (scale num den s) as [n d] eqn:E. destruct (scale_spec num den s n d ltac:(lia) Hd E) as (Hn'&Hd'&_).
  unfold dnonneg. cbn [dcoef]. apply half_even_ge; lia.
Qed.

Lemma dec_fix_nonneg c e : (0 <= c)%Z → dnonneg (dec_fix c e).
Proof.
  intros Hc. unfold dec_fix. rewrite Z.abs_eq by done. destruct (_ <=? _)%Z eqn:E; [done|].
  destruct (decide (c = 0%Z)) as [->|Hz]; [done|]. cbv zeta. unfold dnonneg. cbn [dcoef]. rewrite Z.sgn_pos by lia.
  pose proof (round_ratio_nonneg c 1 ltac:(lia) ltac:(lia)) as Hr. unfold dnonneg in Hr. lia.
Qed.

Lemma dec_fix_bounds c e q : (0 <= c)%Z → short q →
  (inject_Z c * p10 e <= q → dval (dec_fix c e) <= q) ∧ (q <= inject_Z c * p10 e → q <= dval (dec_fix c e)).
Proof.
  intros Hc (k&j&Hk&Eq). rewrite Eq. unfold dec_fix. rewrite Z.abs_eq by done. destruct (_ <=? _)%Z eqn:E; [done|].
  destruct (decide (c = 0%Z)) as [->|Hz]; [done|]. cbv zeta.
  set (d := round_ratio c 1). rewrite Z.sgn_pos, Z.mul_1_l by lia.
  assert (dval {| dcoef := dcoef d; dexp := e + dexp d |} == dval d * p10 e) as ->.
  { unfold dval. cbn [dcoef dexp]. rewrite p10_add. ring. }
  assert (inject_Z k * p10 j == inject_Z k * p10 (j - e) * p10 e) as ->.
  { replace j with (j - e + e)%Z at 1 by lia. rewrite p10_add. ring. }
  pose proof (p10_pos e) as Hp. rewrite !(Qmult_le_r _ _ _ Hp). split; intros Hle.
  - apply round_ratio_le; [lia|done|done|]. change (inject_Z 1) with 1. lra.
  - apply round_ratio_ge; [lia|done|done|]. change (inject_Z 1) with 1. lra.
Qed.

Lemma dec_add_exact a b : let e := Z.min (dexp a) (dexp b) in
  inject_Z (dcoef a * 10 ^ (dexp a - e) + dcoef b * 10 ^ (dexp b - e)) * p10 e == dval a + dval b.
Proof.
  cbv zeta. set (e := Z.min _ _). rewrite inject_Z_plus, !inject_Z_mult, <- !p10_nonneg by lia. unfold dval.
  assert (∀ x, p10 (x - e) * p10 e == p10 x) as Hx.
  { intros x. rewrite <- p10_add. by replace (x - e + e)%Z with x by lia. }
  rewrite <- (Hx (dexp a)), <- (Hx (dexp b)). ring.
Qed.

Lemma dec_add_nonneg a b : dnonneg a → dnonneg b → dnonneg (dec_add a b).
Proof.
  intros Ha Hb. apply dec_fix_nonneg. unfold dnonneg in *.
  apply Z.add_nonneg_nonneg; apply Z.mul_nonneg_nonneg; first [done|by apply Z.pow_nonneg].
Qed.

Lemma dec_add_bounds a b q : dnonneg a → dnonneg b → short q →
  (dval a + dval b <= q → dval (dec_add a b) <= q) ∧ (q <= dval a + dval b → q <= dval (dec_add a b)).
Proof.
  intros Ha Hb Hq. pose proof (dec_add_exact a b) as Ex. cbv zeta in Ex. rewrite <- Ex.
  apply dec_fix_bounds; [|done]. unfold dnonneg in *.
  apply Z.add_nonneg_nonneg; apply Z.mul_nonneg_nonneg; first [done|by apply Z.pow_nonneg].
Qed.

Lemma dec_div_bounds a b : dnonneg a → (0 < dcoef b)%Z →
  ∃ d, dec_div a b = Ok d ∧ dnonneg d ∧
    ∀ q, short q → (dval a <= q * dval b → dval d <= q) ∧ (q * dval b <= dval a → q <= dval d).
Proof.
  intros Ha Hb. unfold dec_div, dnonneg in *. rewrite (proj2 (Z.eqb_neq _ _)) by lia.
  assert (0 < dval b) as Hvb by (apply Qmult_lt_0_compat; [by apply inject_pos|apply p10_pos]).
  destruct (dcoef a =? 0)%Z eqn:Ez; zbool.
  { eexists. split_and!; [done|done|]. intros q Hq.
    assert (dval {| dcoef := 0; dexp := dexp a - dexp b |} == 0) as -> by (unfold dval; cbn [dcoef]; ring).
    assert (dval a == 0) as -> by (unfold dval; rewrite Ez; ring).
    rewrite <- (Qmult_0_l (dval b)) at 1 3. by rewrite !(Qmult_le_r _ _ _ Hvb). }
  rewrite !Z.abs_eq by lia. rewrite !Z.sgn_pos by lia. set (d := round_ratio _ _).
  pose proof (round_ratio_nonneg (dcoef a) (dcoef b) ltac:(lia) Hb) as Hd.
  eexists. split_and!; [done|rewrite !Z.mul_1_l; exact Hd|]. intros q (k&j&Hk&Eq). rewrite Eq, !Z.mul_1_l.
  set (e := (dexp a - dexp b)%Z).
  assert (dval {| dcoef := dcoef d; dexp := e + dexp d |} == dval d * p10 e) as ->.
  { unfold dval. cbn [dcoef dexp]. rewrite p10_add. ring. }
  assert (inject_Z k * p10 j == inject_Z k * p10 (j - e) * p10 e) as ->.
  { replace j with (j - e + e)%Z at 1 by lia. rewrite p10_add. ring. }
  assert (dval a == inject_Z (dcoef a) * (p10 e * p10 (dexp b))) as ->.
  { unfold dval. rewrite <- p10_add. by replace (e + dexp b)%Z with (dexp a) by lia. }
  set (t := inject_Z k * p10 (j - e)).
  assert (0 < p10 e * p10 (dexp b)) as Hpp by (apply Qmult_lt_0_compat; apply p10_pos).
  assert (t * p10 e * dval b == t * inject_Z (dcoef b) * (p10 e * p10 (dexp b))) as -> by (unfold dval; ring).
  rewrite !(Qmult_le_r _ _ _ Hpp), !(Qmult_le_r _ _ _ (p10_pos e)). unfold t. split; intros Hle.
  - by apply round_ratio_le; [lia| | |].
  - by apply round_ratio_ge; [lia| | |].
Qed.
