(* ===== verification/Consensus.v ===== *)
(** * Consensus parameters and per-block arithmetic

    Models [chia/consensus/constants.py], [default_constants.py],
    [block_rewards.py], [pos_quality.py], [pot_iterations.py], [deficit.py] and
    [block_record.py]: the reward schedule, the iterations of signage and
    infusion points, the deficit of a block, and the record kept per block. *)
From S2P Require Import Prelude PyInt PyFloat.

(** ** [ConsensusConstants] *)
Record ConsensusConstants := {
  SLOT_BLOCKS_TARGET : Z;
  MIN_BLOCKS_PER_CHALLENGE_BLOCK : Z;
  MAX_SUB_SLOT_BLOCKS : Z;
  NUM_SPS_SUB_SLOT : Z;
  SUB_SLOT_ITERS_STARTING : Z;
  DIFFICULTY_CONSTANT_FACTOR : Z;
  DIFFICULTY_STARTING : Z;
  DIFFICULTY_CHANGE_MAX_FACTOR : Z;
  SUB_EPOCH_BLOCKS : Z;
  EPOCH_BLOCKS : Z;
  SIGNIFICANT_BITS : Z;
  DISCRIMINANT_SIZE_BITS : Z;
  NUMBER_ZERO_BITS_PLOT_FILTER : Z;
  MIN_PLOT_SIZE : Z;
  MAX_PLOT_SIZE : Z;
  SUB_SLOT_TIME_TARGET : Z;
  NUM_SP_INTERVALS_EXTRA : Z;
  MAX_FUTURE_TIME : Z;
  NUMBER_OF_TIMESTAMPS : Z;
  GENESIS_CHALLENGE : bytes;
  AGG_SIG_ME_ADDITIONAL_DATA : bytes;
  GENESIS_PRE_FARM_POOL_PUZZLE_HASH : bytes;
  GENESIS_PRE_FARM_FARMER_PUZZLE_HASH : bytes;
  MAX_VDF_WITNESS_SIZE : Z;
  MEMPOOL_BLOCK_BUFFER : Z;
  MAX_COIN_AMOUNT : Z;
  MAX_BLOCK_COST_CLVM : Z;
  COST_PER_BYTE : Z;
  WEIGHT_PROOF_THRESHOLD : Z;
  WEIGHT_PROOF_RECENT_BLOCKS : Z;
  MAX_BLOCK_COUNT_PER_REQUESTS : Z;
  STAKING_ESTIMATE_BLOCK_RANGE : Z;
  BLOCKS_CACHE_SIZE : Z;
  NETWORK_TYPE : Z;
  MAX_GENERATOR_SIZE : Z;
  MAX_GENERATOR_REF_LIST_SIZE : Z;
  POOL_SUB_SLOT_ITERS : Z;
  HF_BLOCK_REWARD : Z;
  HF_BLOCK_STAKING : Z;
}.

Definition const_reward_hardfork_activated (self : ConsensusConstants) (height : Z) : bool :=
  (0 <=? HF_BLOCK_REWARD self) && (HF_BLOCK_REWARD self <=? height).
Definition staking_hardfork_activated (self : ConsensusConstants) (_height : Z) : bool := true.

(** [bytes.fromhex] of a 64-digit constant. *)
Definition hex32 (z : Z) : bytes := encode_be 32 z.

Definition DEFAULT_CONSTANTS : ConsensusConstants := {|
  SLOT_BLOCKS_TARGET := 32;
  MIN_BLOCKS_PER_CHALLENGE_BLOCK := 16;
  MAX_SUB_SLOT_BLOCKS := 128;
  NUM_SPS_SUB_SLOT := 64;
  SUB_SLOT_ITERS_STARTING := 2 ^ 27;
  DIFFICULTY_CONSTANT_FACTOR := 2 ^ 57;
  DIFFICULTY_STARTING := 7;
  DIFFICULTY_CHANGE_MAX_FACTOR := 3;
  SUB_EPOCH_BLOCKS := 384;
  EPOCH_BLOCKS := 4608;
  SIGNIFICANT_BITS := 8;
  DISCRIMINANT_SIZE_BITS := 1024;
  NUMBER_ZERO_BITS_PLOT_FILTER := 9;
  MIN_PLOT_SIZE := 31;
  MAX_PLOT_SIZE := 50;
  SUB_SLOT_TIME_TARGET := 600;
  NUM_SP_INTERVALS_EXTRA := 3;
  MAX_FUTURE_TIME := 5 * 60;
  NUMBER_OF_TIMESTAMPS := 11;
  GENESIS_CHALLENGE := hex32 0xa863ac9871ebeaf1fdc7ed6acd3d5c8c39441d53187a936868c87e1e233a3819;
  AGG_SIG_ME_ADDITIONAL_DATA := hex32 0xecbf4458b47e39c60afec66e245fccb042871417ffc5200cb0140346c2e044d0;
  GENESIS_PRE_FARM_POOL_PUZZLE_HASH := hex32 0x1154e73194bc5479dd029fef922b2aa1a0cc1bbc383c756f5ff8040dadcac4bb;
  GENESIS_PRE_FARM_FARMER_PUZZLE_HASH := hex32 0xdf62080c2648f32317da68a4dfa82b8ee09280278598366864475989d6a9a12e;
  MAX_VDF_WITNESS_SIZE := 64;
  MEMPOOL_BLOCK_BUFFER := 10;
  MAX_COIN_AMOUNT := 2 ^ 64 - 1;
  MAX_BLOCK_COST_CLVM := 11000000000;
  COST_PER_BYTE := 12000;
  WEIGHT_PROOF_THRESHOLD := 2;
  STAKING_ESTIMATE_BLOCK_RANGE := 4608 * 3;
  BLOCKS_CACHE_SIZE := 4608 * 3 + (128 * 4);
  WEIGHT_PROOF_RECENT_BLOCKS := 1000;
  MAX_BLOCK_COUNT_PER_REQUESTS := 32;
  NETWORK_TYPE := 0;
  MAX_GENERATOR_SIZE := 1000000;
  MAX_GENERATOR_REF_LIST_SIZE := 512;
  POOL_SUB_SLOT_ITERS := 37600000000;
  HF_BLOCK_REWARD := -1;
  HF_BLOCK_STAKING := -1;
|}.

(** What [default_constants.py] asks of the constants in its comments. *)
Record constants_ok (c : ConsensusConstants) : Prop := {
  cok_sps : 0 < NUM_SPS_SUB_SLOT c < 2 ^ 8;
  cok_extra : 0 <= NUM_SP_INTERVALS_EXTRA c < NUM_SPS_SUB_SLOT c;
  cok_min_blocks : 1 <= MIN_BLOCKS_PER_CHALLENGE_BLOCK c < 2 ^ 8;
}.

(** ** Block rewards *)
Definition mojo_per_chia : Z := 1000000000000.
Definition blocks_per_year : Z := 1681920.
Definition PREFARM : Z := 1000000.
Definition REWARD_HARDFORK_HEIGHT : Z := 2 ^ 32 - 1.

Definition reward_hardfork_activated (height : Z) : bool := REWARD_HARDFORK_HEIGHT <=? height.

(** [int(coefficient * part * _mojo_per_chia)] in floats, [part] an integer or
    one of the halving factors 0.5, 0.25, 0.125. *)
Definition reward_amount (coefficient part : res float) : res Z :=
  c ← coefficient; p ← part; m ← float_of_int mojo_per_chia;
  v ← int_of_float (float_mul (float_mul c p) m);
  uint64 v.

Definition calculate_pool_reward (height : Z) : res Z :=
  if reward_hardfork_activated height then Ok 0
  else if height =? 0 then reward_amount (int_truediv 7 8) (float_of_int PREFARM)
  else if height <? 3 * blocks_per_year then reward_amount (int_truediv 7 8) (float_of_int 1)
  else if height <? 6 * blocks_per_year then reward_amount (int_truediv 7 8) (int_truediv 1 2)
  else if height <? 9 * blocks_per_year then reward_amount (int_truediv 7 8) (int_truediv 1 4)
  else reward_amount (int_truediv 7 8) (int_truediv 1 8).

Definition calculate_base_farmer_reward (height : Z) : res Z :=
  let coefficient :=
    if reward_hardfork_activated height then float_of_int 1 else int_truediv 1 8 in
  if height =? 0 then reward_amount coefficient (float_of_int PREFARM)
  else if height <? 3 * blocks_per_year then reward_amount coefficient (float_of_int 1)
  else if height <? 6 * blocks_per_year then reward_amount coefficient (int_truediv 1 2)
  else if height <? 9 * blocks_per_year then reward_amount coefficient (int_truediv 1 4)
  else reward_amount coefficient (int_truediv 1 8).

(** The schedule the two functions are meant to share out, in mojos. *)
Definition block_subsidy (height : Z) : Z :=
  if height =? 0 then PREFARM * mojo_per_chia
  else if height <? 3 * blocks_per_year then mojo_per_chia
  else if height <? 6 * blocks_per_year then mojo_per_chia / 2
  else if height <? 9 * blocks_per_year then mojo_per_chia / 4
  else mojo_per_chia / 8.

(** ** Proof of time iterations *)
Definition expected_plot_size (k : Z) : Z := (2 * k + 1) * 2 ^ (k - 1).

Definition is_overflow_block (constants : ConsensusConstants) (signage_point_index : Z) : res bool :=
  if NUM_SPS_SUB_SLOT constants <=? signage_point_index then Raise ValueError
  else Ok (NUM_SPS_SUB_SLOT constants - NUM_SP_INTERVALS_EXTRA constants <=? signage_point_index).

Definition calculate_sp_interval_iters (constants : ConsensusConstants) (sub_slot_iters : Z) : res Z :=
  r ← pymod sub_slot_iters (NUM_SPS_SUB_SLOT constants);
  assert_ (r =? 0) ;;
  q ← pydiv sub_slot_iters (NUM_SPS_SUB_SLOT constants);
  uint64 q.

Definition calculate_sp_iters (constants : ConsensusConstants) (sub_slot_iters signage_point_index : Z) : res Z :=
  if NUM_SPS_SUB_SLOT constants <=? signage_point_index then Raise ValueError
  else
    i ← calculate_sp_interval_iters constants sub_slot_iters;
    uint64 (i * signage_point_index).

Definition calculate_ip_iters (constants : ConsensusConstants)
    (sub_slot_iters signage_point_index required_iters : Z) : res Z :=
  sp_iters ← calculate_sp_iters constants sub_slot_iters signage_point_index;
  sp_interval_iters ← calculate_sp_interval_iters constants sub_slot_iters;
  r ← pymod sp_iters sp_interval_iters;
  if negb (r =? 0) || (sub_slot_iters <=? sp_iters) then Raise ValueError
  else if (sp_interval_iters <=? required_iters) || (required_iters =? 0) then Raise ValueError
  else
    m ← pymod (sp_iters + NUM_SP_INTERVALS_EXTRA constants * sp_interval_iters + required_iters)
              sub_slot_iters;
    uint64 m.

(** The hash of the node: [std_hash] calls the external [blspy]; it returns 32
    bytes. *)
Class StdHash := {
  std_hash : bytes → bytes;
  std_hash_bytes : ∀ b, is_bytes (std_hash b);
  std_hash_length : ∀ b, length (std_hash b) = 32%nat;
}.

Definition calculate_iterations_quality `{StdHash} (difficulty_constant_factor : Z)
    (quality_string : bytes) (size difficulty : Z) (cc_sp_output_hash : bytes) : res Z :=
  let sp_quality_string := std_hash (quality_string ++ cc_sp_output_hash) in
  q ← pydiv (difficulty * difficulty_constant_factor * decode_be false sp_quality_string)
            (2 ^ 256 * expected_plot_size size);
  iters ← uint64 q;
  one ← uint64 1;
  Ok (Z.max iters one).

(** ** Coins and block records *)

(** [chia/types/blockchain_format/coin.py] *)
Record Coin := {
  parent_coin_info : bytes;
  puzzle_hash : bytes;
  amount : Z;
}.
#[global] Instance Coin_eq_dec : EqDecision Coin.
Proof. solve_decision. Defined.

(** [chia/types/blockchain_format/sub_epoch_summary.py] *)
Record SubEpochSummary := {
  prev_subepoch_summary_hash : bytes;
  reward_chain_hash : bytes;
  num_blocks_overflow : Z;
  ses_new_difficulty : option Z;
  ses_new_sub_slot_iters : option Z;
}.
#[global] Instance SubEpochSummary_eq_dec : EqDecision SubEpochSummary.
Proof. solve_decision. Defined.

(** [chia/consensus/block_record.py]; classgroup elements and public keys are
    their byte encodings. *)
Record BlockRecord := {
  header_hash : bytes;
  prev_hash : bytes;
  height : Z;
  weight : Z;
  total_iters : Z;
  signage_point_index : Z;
  challenge_vdf_output : bytes;
  infused_challenge_vdf_output : option bytes;
  reward_infusion_new_challenge : bytes;
  challenge_block_info_hash : bytes;
  sub_slot_iters : Z;
  pool_puzzle_hash : bytes;
  farmer_puzzle_hash : bytes;
  required_iters : Z;
  deficit : Z;
  overflow : bool;
  prev_transaction_block_height : Z;
  timestamp : option Z;
  prev_transaction_block_hash : option bytes;
  fees : option Z;
  reward_claims_incorporated : option (list Coin);
  finished_challenge_slot_hashes : option (list bytes);
  finished_infused_challenge_slot_hashes : option (list bytes);
  finished_reward_slot_hashes : option (list bytes);
  sub_epoch_summary_included : option SubEpochSummary;
  farmer_public_key : bytes;
}.
#[global] Instance BlockRecord_eq_dec : EqDecision BlockRecord.
Proof. solve_decision. Defined.

Definition is_transaction_block (b : BlockRecord) : bool :=
  match timestamp b with Some _ => true | None => false end.
Definition first_in_sub_slot (b : BlockRecord) : bool :=
  match finished_challenge_slot_hashes b with Some _ => true | None => false end.
Definition is_challenge_block (constants : ConsensusConstants) (b : BlockRecord) : bool :=
  deficit b =? MIN_BLOCKS_PER_CHALLENGE_BLOCK constants - 1.
Definition br_sp_iters (constants : ConsensusConstants) (b : BlockRecord) : res Z :=
  calculate_sp_iters constants (sub_slot_iters b) (signage_point_index b).
Definition br_ip_iters (constants : ConsensusConstants) (b : BlockRecord) : res Z :=
  calculate_ip_iters constants (sub_slot_iters b) (signage_point_index b) (required_iters b).
Definition sp_sub_slot_total_iters (constants : ConsensusConstants) (b : BlockRecord) : res Z :=
  if overflow b then ip ← br_ip_iters constants b; uint128 (total_iters b - ip - sub_slot_iters b)
  else ip ← br_ip_iters constants b; uint128 (total_iters b - ip).
Definition ip_sub_slot_total_iters (constants : ConsensusConstants) (b : BlockRecord) : res Z :=
  ip ← br_ip_iters constants b; uint128 (total_iters b - ip).
Definition sp_total_iters (constants : ConsensusConstants) (b : BlockRecord) : res Z :=
  s ← sp_sub_slot_total_iters constants b; i ← br_sp_iters constants b; Ok (s + i).

(** ** Deficit *)
Definition calculate_deficit (constants : ConsensusConstants) (height : Z)
    (prev_b : option BlockRecord) (overflow : bool) (num_finished_sub_slots : Z) : res Z :=
  let min_blocks := MIN_BLOCKS_PER_CHALLENGE_BLOCK constants in
  if height =? 0 then uint8 (min_blocks - 1)
  else
    match prev_b with
    | None => Raise AssertionError
    | Some prev_b =>
        let prev_deficit := deficit prev_b in
        if prev_deficit =? min_blocks then
          if overflow then
            if 0 <? num_finished_sub_slots then uint8 (prev_deficit - 1)
            else uint8 prev_deficit
          else uint8 (prev_deficit - 1)
        else if prev_deficit =? 0 then
          if num_finished_sub_slots =? 0 then uint8 0
          else if num_finished_sub_slots =? 1 then
            if overflow then uint8 min_blocks else uint8 (min_blocks - 1)
          else uint8 (min_blocks - 1)
        else uint8 (prev_deficit - 1)
    end.

(** ** Theorems *)

Lemma default_constants_ok : constants_ok DEFAULT_CONSTANTS.
Proof. split; cbn; lia. Qed.

(** Every float product of the schedule is exact. *)
Lemma reward_amounts :
  reward_amount (int_truediv 7 8) (float_of_int PREFARM) = Ok 875000000000000000
  ∧ reward_amount (int_truediv 7 8) (float_of_int 1) = Ok 875000000000
  ∧ reward_amount (int_truediv 7 8) (int_truediv 1 2) = Ok 437500000000
  ∧ reward_amount (int_truediv 7 8) (int_truediv 1 4) = Ok 218750000000
  ∧ reward_amount (int_truediv 7 8) (int_truediv 1 8) = Ok 109375000000
  ∧ reward_amount (int_truediv 1 8) (float_of_int PREFARM) = Ok 125000000000000000
  ∧ reward_amount (int_truediv 1 8) (float_of_int 1) = Ok 125000000000
  ∧ reward_amount (int_truediv 1 8) (int_truediv 1 2) = Ok 62500000000
  ∧ reward_amount (int_truediv 1 8) (int_truediv 1 4) = Ok 31250000000
  ∧ reward_amount (int_truediv 1 8) (int_truediv 1 8) = Ok 15625000000
  ∧ reward_amount (float_of_int 1) (int_truediv 1 8) = Ok 125000000000.
Proof. vm_compute. split_and!; reflexivity. Qed.

(** The two rewards share the subsidy of the height exactly, seven eighths to
    the pool before the hardfork height and nothing after it. *)
Theorem rewards_share_subsidy (h : Z) :
  ∃ p f, calculate_pool_reward h = Ok p ∧ calculate_base_farmer_reward h = Ok f
         ∧ p + f = block_subsidy h
         ∧ 8 * p = (if reward_hardfork_activated h then 0 else 7 * block_subsidy h).
Proof.
  pose proof reward_amounts as (A1&A2&A3&A4&A5&B1&B2&B3&B4&B5&B6).
  unfold calculate_pool_reward, calculate_base_farmer_reward, block_subsidy,
    reward_hardfork_activated.
  destruct (Z.leb_spec REWARD_HARDFORK_HEIGHT h) as [Hh|Hh].
  - unfold REWARD_HARDFORK_HEIGHT, blocks_per_year in *.
    rewrite (proj2 (Z.eqb_neq _ _)), !(proj2 (Z.ltb_ge _ _)) by lia. rewrite B6.
    do 2 eexists; split_and!; reflexivity.
  - rewrite A1, A2, A3, A4, A5, B1, B2, B3, B4, B5.
    repeat match goal with |- context [if ?b then _ else _] => destruct b end;
      do 2 eexists; split_and!; reflexivity.
Qed.

(** The subsidy never grows after the first block. *)
Lemma block_subsidy_mono h h' : 0 < h <= h' → 0 < block_subsidy h' <= block_subsidy h.
Proof.
  intros. unfold block_subsidy, blocks_per_year, mojo_per_chia.
  change (1000000000000 / 2) with 500000000000. change (1000000000000 / 4) with 250000000000.
  change (1000000000000 / 8) with 125000000000.
  repeat match goal with
  | |- context [?a =? 0] => destruct (Z.eqb_spec a 0); [lia|]
  | |- context [?a <? ?b] => destruct (Z.ltb_spec a b)
  end; lia.
Qed.

(** What a valid block satisfies: its sub-slot is cut into equal signage point
    intervals, its index is one of them and its required iterations fit in one. *)
Record iters_ok (c : ConsensusConstants) (ssi idx req : Z) : Prop := {
  iok_width : 0 < ssi < 2 ^ 64;
  iok_div : ssi mod NUM_SPS_SUB_SLOT c = 0;
  iok_idx : 0 <= idx < NUM_SPS_SUB_SLOT c;
  iok_req : 0 < req < ssi / NUM_SPS_SUB_SLOT c;
}.

Section Iterations.
Context (c : ConsensusConstants) (Hc : constants_ok c) (ssi idx req : Z).
Context (Hi : iters_ok c ssi idx req).

Let n := NUM_SPS_SUB_SLOT c.
Let interval := ssi / n.

Lemma interval_exact : ssi = n * interval ∧ 0 < interval < 2 ^ 64 ∧ 0 < n.
Proof using Hc Hi.
  destruct Hc as [Hn _ _], Hi as [Hw Hd _ Hr]. fold n in Hn, Hd, Hr. fold interval in Hr.
  pose proof (Z.div_mod ssi n ltac:(lia)) as E. fold interval in E.
  split; [lia|]. nia.
Qed.

Lemma sp_interval_iters_eq : calculate_sp_interval_iters c ssi = Ok interval.
Proof using Hc Hi.
  pose proof interval_exact as (E & Hb & Hn). destruct Hi as [_ Hd _ _]. fold n in Hd.
  unfold calculate_sp_interval_iters, pymod, pydiv. fold n.
  rewrite (proj2 (Z.eqb_neq n 0)), Hd by lia. cbn. apply uint64_in. fold interval. lia.
Qed.

Lemma sp_iters_eq : calculate_sp_iters c ssi idx = Ok (interval * idx).
Proof using Hc Hi.
  pose proof interval_exact as (E & Hb & Hn). destruct Hi as [Hw _ Hx _]. fold n in Hx.
  unfold calculate_sp_iters. fold n. rewrite (proj2 (Z.leb_gt _ _)) by lia.
  rewrite sp_interval_iters_eq. cbn. apply uint64_in. nia.
Qed.

(** The infusion point lies [NUM_SP_INTERVALS_EXTRA] intervals and the required
    iterations after the signage point, wrapping at the end of the sub-slot
    exactly when the block is an overflow block. *)
Lemma ip_iters_eq :
  ∃ ov, is_overflow_block c idx = Ok ov
  ∧ calculate_ip_iters c ssi idx req
    = Ok (interval * idx + (NUM_SP_INTERVALS_EXTRA c * interval + req) - (if ov then ssi else 0))
  ∧ 0 <= interval * idx + (NUM_SP_INTERVALS_EXTRA c * interval + req) - (if ov then ssi else 0) < ssi.
Proof using Hc Hi.
  pose proof interval_exact as (E & Hb & Hn).
  pose proof (cok_extra _ Hc) as He. destruct Hi as [Hw Hd Hx Hr]. fold n in Hd, Hx, Hr, He. fold interval in Hr.
  set (x := NUM_SP_INTERVALS_EXTRA c) in *.
  unfold is_overflow_block. fold n x. rewrite (proj2 (Z.leb_gt n idx)) by lia.
  eexists. split; [done|].
  set (off := x * interval + req).
  assert (Hoff : 0 < off < ssi) by (unfold off; nia).
  assert (Hrange : 0 <= interval * idx + off - (if n - x <=? idx then ssi else 0) < ssi).
  { unfold off. destruct (Z.leb_spec (n - x) idx); nia. }
  split; [|done]. unfold calculate_ip_iters.
  rewrite sp_iters_eq. cbn. rewrite sp_interval_iters_eq. cbn. fold x.
  unfold pymod. rewrite (proj2 (Z.eqb_neq interval 0)) by lia. cbn.
  rewrite (Z.mul_comm interval idx), Z.mod_mul by lia. cbn.
  rewrite (proj2 (Z.leb_gt _ _)) by nia. rewrite (proj2 (Z.leb_gt interval req)) by lia.
  rewrite (proj2 (Z.eqb_neq req 0)) by lia. cbn.
  rewrite (proj2 (Z.eqb_neq ssi 0)) by lia. cbn.
  rewrite <- Z.add_assoc. fold off. rewrite (Z.mul_comm idx interval).
  rewrite <- (Z.mod_unique (interval * idx + off) ssi (if n - x <=? idx then 1 else 0)
             (interval * idx + off - (if n - x <=? idx then ssi else 0))).
  - apply uint64_in. lia.
  - by left.
  - destruct (n - x <=? idx); lia.
Qed.
End Iterations.

(** The infusion point of a valid block, its position relative to its signage
    point, and what [is_overflow_block] says about it. *)
Theorem ip_iters_spec (c : ConsensusConstants) (ssi idx req : Z) :
  constants_ok c → iters_ok c ssi idx req →
  ∃ sp ip ov, calculate_sp_iters c ssi idx = Ok sp
    ∧ calculate_ip_iters c ssi idx req = Ok ip
    ∧ is_overflow_block c idx = Ok ov
    ∧ 0 <= ip < ssi
    ∧ (ov = true ↔ ip < sp)
    ∧ ip + (if ov then ssi else 0) - sp = NUM_SP_INTERVALS_EXTRA c * (ssi / NUM_SPS_SUB_SLOT c) + req.
Proof.
  intros Hc Hi. pose proof (ip_iters_eq c Hc ssi idx req Hi) as (ov & Hov & Hip & Hr).
  pose proof (sp_iters_eq c Hc ssi idx req Hi) as Hsp.
  pose proof (interval_exact c Hc ssi idx req Hi) as (E & Hb & Hn).
  pose proof (cok_extra _ Hc) as He. destruct Hi as [Hw Hd Hx Hq].
  do 3 eexists. split_and!; [exact Hsp|exact Hip|exact Hov|lia|lia| |lia].
  destruct ov; split; intros; try done; nia.
Qed.

Lemma ip_iters_spec_witness :
  constants_ok DEFAULT_CONSTANTS ∧ iters_ok DEFAULT_CONSTANTS (2 ^ 27) 62 1000
  ∧ ∃ sp ip ov, calculate_sp_iters DEFAULT_CONSTANTS (2 ^ 27) 62 = Ok sp
    ∧ calculate_ip_iters DEFAULT_CONSTANTS (2 ^ 27) 62 1000 = Ok ip
    ∧ is_overflow_block DEFAULT_CONSTANTS 62 = Ok ov
    ∧ 0 <= ip < 2 ^ 27 ∧ (ov = true ↔ ip < sp)
    ∧ ip + (if ov then 2 ^ 27 else 0) - sp
      = NUM_SP_INTERVALS_EXTRA DEFAULT_CONSTANTS * (2 ^ 27 / NUM_SPS_SUB_SLOT DEFAULT_CONSTANTS) + 1000.
Proof.
  assert (H : iters_ok DEFAULT_CONSTANTS (2 ^ 27) 62 1000) by (split; vm_compute; intuition congruence).
  split_and!; [exact default_constants_ok|exact H|].
  exact (ip_iters_spec DEFAULT_CONSTANTS (2 ^ 27) 62 1000 default_constants_ok H).
Defined.

(** A record whose fields agree with one another: valid iterations, the overflow
    flag of its index, and enough total iterations for the sub-slot of its
    signage point to start after genesis. *)
Record record_iters_ok (c : ConsensusConstants) (b : BlockRecord) : Prop := {
  rio_iters : iters_ok c (sub_slot_iters b) (signage_point_index b) (required_iters b);
  rio_overflow : is_overflow_block c (signage_point_index b) = Ok (overflow b);
  rio_total : ∀ ip, br_ip_iters c b = Ok ip →
    0 <= total_iters b - ip - (if overflow b then sub_slot_iters b else 0);
  rio_width : total_iters b < 2 ^ 128;
}.

(** The signage point of a block precedes its infusion point by the same number
    of iterations whether or not the block overflows into the next sub-slot. *)
Theorem sp_total_iters_spec (c : ConsensusConstants) (b : BlockRecord) :
  constants_ok c → record_iters_ok c b →
  ∃ sp, sp_total_iters c b = Ok sp
    ∧ total_iters b - sp
      = NUM_SP_INTERVALS_EXTRA c * (sub_slot_iters b / NUM_SPS_SUB_SLOT c) + required_iters b.
Proof.
  intros Hc [Hi Hov Ht Hw].
  pose proof (ip_iters_eq c Hc _ _ _ Hi) as (ov & Hov' & Hip & Hr).
  assert (ov = overflow b) as -> by congruence. specialize (Ht _ Hip).
  unfold sp_total_iters, sp_sub_slot_total_iters, br_ip_iters, br_sp_iters.
  rewrite Hip, (sp_iters_eq c Hc _ _ _ Hi). cbn.
  destruct (overflow b); rewrite uint128_in by lia; cbn; eexists; (split; [done|lia]).
Qed.

(** ** The deficit as a state machine *)

(** One block: from the deficit of the previous block to its own. *)
Inductive deficit_step (c : ConsensusConstants) : Z → Z → Prop :=
  | deficit_step_intro height prev_b overflow num_finished_sub_slots d :
      0 < height → 0 <= num_finished_sub_slots →
      calculate_deficit c height (Some prev_b) overflow num_finished_sub_slots = Ok d →
      deficit_step c (deficit prev_b) d.

Inductive deficit_path (c : ConsensusConstants) : Z → nat → Z → Prop :=
  | deficit_path_nil d : deficit_path c d 0 d
  | deficit_path_cons d n d' d'' :
      deficit_step c d d' → deficit_path c d' n d'' → deficit_path c d (S n) d''.

(** Every deficit stays in range, goes down by at most one per block, and goes
    up only from zero when a sub-slot finished. *)
Lemma calculate_deficit_spec_aux (c : ConsensusConstants) (h : Z) (p : BlockRecord) (ov : bool) (nfs : Z) :
  constants_ok c → 0 < h → 0 <= nfs →
  0 <= deficit p <= MIN_BLOCKS_PER_CHALLENGE_BLOCK c →
  ∃ d, calculate_deficit c h (Some p) ov nfs = Ok d
    ∧ 0 <= d <= MIN_BLOCKS_PER_CHALLENGE_BLOCK c
    ∧ deficit p - 1 <= d
    ∧ (deficit p < d → deficit p = 0 ∧ 0 < nfs ∧ MIN_BLOCKS_PER_CHALLENGE_BLOCK c - 1 <= d)
    ∧ (d = MIN_BLOCKS_PER_CHALLENGE_BLOCK c → ov = true).
Proof.
  intros Hc Hh Hn Hd. pose proof (cok_min_blocks _ Hc) as Hm. unfold calculate_deficit.
  rewrite (proj2 (Z.eqb_neq h 0)) by lia.
  repeat match goal with
  | |- context [?a =? ?b] => destruct (Z.eqb_spec a b)
  | |- context [?a <? ?b] => destruct (Z.ltb_spec a b)
  | |- context [if ov then _ else _] => destruct ov
  end; rewrite uint8_in by lia; eexists; (split; [reflexivity|]); split_and!; try lia; try done.
Qed.

Lemma deficit_path_bound c d n d' :
  constants_ok c → 0 <= d <= MIN_BLOCKS_PER_CHALLENGE_BLOCK c →
  deficit_path c d n d' → d - Z.of_nat n <= d'.
Proof.
  intros Hc Hd Hp. induction Hp as [d|d n d' d'' Hs Hp IH]; [lia|].
  destruct Hs as [h p ov nfs d' Hh Hn Hd'].
  destruct (calculate_deficit_spec_aux c h p ov nfs Hc Hh Hn Hd) as (e & He & Hr & Hlo & _).
  assert (e = d') as -> by congruence. specialize (IH Hr). lia.
Qed.

(** After a challenge block the deficit is zero again only
    [MIN_BLOCKS_PER_CHALLENGE_BLOCK - 1] blocks later at the earliest, which is
    what the end of a slot waits for. *)
Theorem challenge_block_spacing (c : ConsensusConstants) (p : BlockRecord) (n : nat) :
  constants_ok c → is_challenge_block c p = true → deficit_path c (deficit p) n 0 →
  MIN_BLOCKS_PER_CHALLENGE_BLOCK c - 1 <= Z.of_nat n.
Proof.
  unfold is_challenge_block. intros Hc Hp Hn. zbool. pose proof (cok_min_blocks _ Hc).
  apply deficit_path_bound in Hn; [lia|done|lia].
Qed.

(** A record to instantiate statements on, with the fields the arithmetic of
    this file looks at. *)
Definition sample_record (h idx total d : Z) (ov : bool) : BlockRecord := {|
  header_hash := []; prev_hash := []; height := h; weight := 7 * (h + 1);
  total_iters := total; signage_point_index := idx; challenge_vdf_output := [];
  infused_challenge_vdf_output := None; reward_infusion_new_challenge := [];
  challenge_block_info_hash := []; sub_slot_iters := 2 ^ 27; pool_puzzle_hash := [];
  farmer_puzzle_hash := []; required_iters := 1000; deficit := d; overflow := ov;
  prev_transaction_block_height := 0; timestamp := None; prev_transaction_block_hash := None;
  fees := None; reward_claims_incorporated := None; finished_challenge_slot_hashes := None;
  finished_infused_challenge_slot_hashes := None; finished_reward_slot_hashes := None;
  sub_epoch_summary_included := None; farmer_public_key := [] |}.

Lemma sp_total_iters_spec_witness :
  let b := sample_record 10 62 (2 ^ 28) 15 true in
  constants_ok DEFAULT_CONSTANTS ∧ record_iters_ok DEFAULT_CONSTANTS b
  ∧ ∃ sp, sp_total_iters DEFAULT_CONSTANTS b = Ok sp
    ∧ total_iters b - sp
      = NUM_SP_INTERVALS_EXTRA DEFAULT_CONSTANTS
        * (sub_slot_iters b / NUM_SPS_SUB_SLOT DEFAULT_CONSTANTS) + required_iters b.
Proof.
  intros b.
  assert (H : record_iters_ok DEFAULT_CONSTANTS b).
  { split; [split; vm_compute; intuition congruence|reflexivity| |reflexivity].
    intros ip Hip. vm_compute in Hip. injection Hip as <-. vm_compute. congruence. }
  split_and!; [exact default_constants_ok|exact H|].
  exact (sp_total_iters_spec DEFAULT_CONSTANTS b default_constants_ok H).
Defined.

Lemma challenge_block_spacing_witness :
  let p := sample_record 1 0 1 15 false in
  constants_ok DEFAULT_CONSTANTS ∧ is_challenge_block DEFAULT_CONSTANTS p = true
  ∧ deficit_path DEFAULT_CONSTANTS (deficit p) 15 0
  ∧ MIN_BLOCKS_PER_CHALLENGE_BLOCK DEFAULT_CONSTANTS - 1 <= Z.of_nat 15.
Proof.
  intros p.
  assert (H : deficit_path DEFAULT_CONSTANTS (deficit p) 15 0).
  { assert (Hs : ∀ d, 0 < d <= 15 → deficit_step DEFAULT_CONSTANTS d (d - 1)).
    { intros d Hd. apply (deficit_step_intro _ 2 (sample_record 1 0 1 d false) false 0);
        [lia|lia|]. unfold calculate_deficit. cbn -[uint8].
      rewrite !(proj2 (Z.eqb_neq d _)) by lia. apply uint8_in. lia. }
    cbn. do 15 (eapply deficit_path_cons; [apply Hs; lia|cbn]). constructor. }
  split_and!; [exact default_constants_ok|reflexivity|exact H|].
  exact (challenge_block_spacing DEFAULT_CONSTANTS p 15 default_constants_ok eq_refl H).
Defined.

(** A hash to evaluate definitions with *)
#[export] Program Instance sample_std_hash : StdHash :=
  {| std_hash b := encode_be 32 (foldl (λ acc x, Z.land (acc * 7 + x + 1) 2305843009213693951) 0 b) |}.
Next Obligation. intros. apply encode_be_are_bytes. Qed.
Next Obligation. intros. apply encode_be_length. Qed.
