(* ===== verification/ChainView.v ===== *)
(** * The block records a validator sees

    Models [chia/consensus/blockchain_interface.py] (the interface the consensus
    functions take as [blocks]), its in-memory implementations
    ([chia/util/block_cache.py] and the lookups of
    [chia/consensus/blockchain.py]) and [chia/consensus/find_fork_point.py].

    Loops that follow [prev_hash] pointers take fuel; [ChainLaws] makes heights go
    down along them, so that fuel above the height of the first block is
    enough. *)
From S2P Require Import Prelude PyInt PyFloat Consensus.

(** ** Interface *)
Record BlockchainInterface := {
  block_record : bytes → res BlockRecord;
  contains_block : bytes → bool;
  contains_height : Z → bool;
  height_to_hash : Z → res (option bytes);
  height_to_block_record : Z → res BlockRecord;
}.

Definition try_block_record (blocks : BlockchainInterface) (header_hash : bytes) : res (option BlockRecord) :=
  if contains_block blocks header_hash then
    b ← block_record blocks header_hash; Ok (Some b)
  else Ok None.

(** What every implementation promises its clients about the records of one
    tree of blocks: lookups agree with one another, a record is stored under its
    own hash, and the parent of a block is one height below it. *)
Class ChainLaws (blocks : BlockchainInterface) : Prop := {
  cl_hash : ∀ h b, block_record blocks h = Ok b → header_hash b = h;
  cl_fuel : ∀ h, block_record blocks h ≠ OutOfFuel;
  cl_contains : ∀ h, contains_block blocks h = is_Ok (block_record blocks h);
  cl_height : ∀ h b, block_record blocks h = Ok b → 0 <= height b < 2 ^ 32;
  cl_parent : ∀ h b p, block_record blocks h = Ok b →
    block_record blocks (prev_hash b) = Ok p → height p = height b - 1;
}.

(** The index from height to hash is the path of ancestors of its top block. *)
Class PeakPath (blocks : BlockchainInterface) : Prop := {
  pp_contains : ∀ h, contains_height blocks h = true ↔ ∃ hh, height_to_hash blocks h = Ok (Some hh);
  pp_record : ∀ h hh, height_to_hash blocks h = Ok (Some hh) →
    ∃ b, block_record blocks hh = Ok b ∧ height b = h ∧ height_to_block_record blocks h = Ok b;
  pp_parent : ∀ h hh b, height_to_hash blocks h = Ok (Some hh) →
    block_record blocks hh = Ok b → 0 < h → height_to_hash blocks (h - 1) = Ok (Some (prev_hash b));
}.

(** ** [BlockCache] *)
Record BlockCache := {
  bc_block_records : gmap bytes BlockRecord;
  bc_height_to_hash : gmap Z bytes;
}.

Definition bc_block_record (c : BlockCache) (h : bytes) : res BlockRecord :=
  of_opt KeyError (bc_block_records c !! h).
Definition bc_height_to_hash_of (c : BlockCache) (h : Z) : res (option bytes) :=
  Ok (bc_height_to_hash c !! h).
Definition bc_height_to_block_record (c : BlockCache) (h : Z) : res BlockRecord :=
  hh ← bc_height_to_hash_of c h;
  match hh with Some hh => bc_block_record c hh | None => Raise KeyError end.
Definition bc_contains_block (c : BlockCache) (h : bytes) : bool :=
  bool_decide (is_Some (bc_block_records c !! h)).
Definition bc_contains_height (c : BlockCache) (h : Z) : bool :=
  bool_decide (is_Some (bc_height_to_hash c !! h)).
Definition bc_add_block_record (c : BlockCache) (b : BlockRecord) : BlockCache :=
  {| bc_block_records := <[header_hash b := b]> (bc_block_records c);
     bc_height_to_hash := bc_height_to_hash c |}.
Definition bc_remove_block_record (c : BlockCache) (h : bytes) : res BlockCache :=
  if bc_contains_block c h then
    Ok {| bc_block_records := delete h (bc_block_records c);
          bc_height_to_hash := bc_height_to_hash c |}
  else Raise KeyError.

Definition BlockCache_interface (c : BlockCache) : BlockchainInterface := {|
  block_record := bc_block_record c;
  contains_block := bc_contains_block c;
  contains_height := bc_contains_height c;
  height_to_hash := bc_height_to_hash_of c;
  height_to_block_record := bc_height_to_block_record c;
|}.

(** A cache built from validated records satisfies the interface; the conditions
    are decidable, so a concrete cache is checked by evaluation. *)
Definition parent_ok (c : BlockCache) (b : BlockRecord) : bool :=
  match bc_block_records c !! prev_hash b with
  | Some p => height p =? height b - 1
  | None => true
  end.
Definition parent_loaded (c : BlockCache) (b : BlockRecord) : bool :=
  (height b <=? 0) || bc_contains_block c (prev_hash b).
Definition path_ok (c : BlockCache) (h : Z) (hh : bytes) : bool :=
  match bc_block_records c !! hh with
  | Some b => (height b =? h)
              && ((h <=? 0) || bool_decide (bc_height_to_hash c !! (h - 1) = Some (prev_hash b)))
  | None => false
  end.

Definition cache_ok (c : BlockCache) : Prop :=
  map_Forall (λ h b, header_hash b = h ∧ 0 <= height b < 2 ^ 32 ∧ parent_ok c b = true) (bc_block_records c)
  ∧ map_Forall (λ h hh, path_ok c h hh = true) (bc_height_to_hash c).
Definition cache_complete (c : BlockCache) : Prop :=
  map_Forall (λ _ b, parent_loaded c b = true) (bc_block_records c).

#[global] Instance cache_ok_dec c : Decision (cache_ok c).
Proof. unfold cache_ok. apply _. Defined.
#[global] Instance cache_complete_dec c : Decision (cache_complete c).
Proof. unfold cache_complete. apply _. Defined.

#[export] Instance BlockCache_laws c (Hc : cache_ok c) : ChainLaws (BlockCache_interface c).
Proof.
  destruct Hc as [Hh _]. split; cbn; unfold bc_block_record.
  - intros h b H. res_inv. by destruct (Hh _ _ H).
  - intros h. by destruct (_ !! h).
  - intros h. unfold bc_contains_block. by destruct (_ !! h).
  - intros h b H. res_inv. by destruct (Hh _ _ H) as (?&?&?).
  - intros h b p Hb Hpb. res_inv. destruct (Hh _ _ Hb) as (_ & _ & Hp).
    unfold parent_ok in Hp. rewrite Hpb in Hp. by zbool.
Qed.

#[export] Instance BlockCache_path c (Hc : cache_ok c) : PeakPath (BlockCache_interface c).
Proof.
  destruct Hc as [_ Hq].
  split; cbn; unfold bc_block_record, bc_height_to_block_record, bc_height_to_hash_of.
  - intros h. unfold bc_contains_height. rewrite bool_decide_eq_true.
    split; intros [x Hx]; exists x; congruence.
  - intros h hh H. injection H as H. pose proof (Hq _ _ H) as Hp. unfold path_ok in Hp.
    destruct (bc_block_records c !! hh) as [b|] eqn:Hb; [|done]. zbool. exists b.
    rewrite H. cbn. unfold bc_block_record. by rewrite Hb.
  - intros h hh b H Hb Hpos. injection H as H. res_inv. pose proof (Hq _ _ H) as Hp.
    unfold path_ok in Hp. rewrite Hb in Hp. zbool.
    rewrite (proj2 (Z.leb_gt h 0)) in * by lia. cbn in *. zbool. congruence.
Qed.

(** ** Ancestors *)

Section Ancestors.
Context (blocks : BlockchainInterface) `{!ChainLaws blocks}.

(** [b'] is reached from [b] in [n] steps of [prev_hash]. *)
Inductive ancestor : nat → BlockRecord → BlockRecord → Prop :=
  | ancestor_refl b : ancestor 0 b b
  | ancestor_step n b p b' :
      block_record blocks (prev_hash b) = Ok p → ancestor n p b' → ancestor (S n) b b'.

Definition known (b : BlockRecord) : Prop := block_record blocks (header_hash b) = Ok b.

Lemma known_of_lookup h b : block_record blocks h = Ok b → known b.
Proof. intros H. unfold known. by rewrite (cl_hash _ _ H). Qed.

Lemma known_height b : known b → 0 <= height b < 2 ^ 32.
Proof. apply cl_height. Qed.

Lemma known_parent b p :
  known b → block_record blocks (prev_hash b) = Ok p → known p ∧ height p = height b - 1.
Proof.
  intros Hb Hp. split; [by eapply known_of_lookup|]. by eapply cl_parent.
Qed.

Lemma ancestor_height n b b' :
  known b → ancestor n b b' → known b' ∧ height b' = height b - Z.of_nat n.
Proof.
  intros Hk Ha. induction Ha as [b|n b p b' Hp Ha IH]; [split; [done|lia]|].
  destruct (known_parent _ _ Hk Hp) as [Hkp Hh]. destruct (IH Hkp). split; [done|lia].
Qed.

Lemma ancestor_fun n b b1 b2 : ancestor n b b1 → ancestor n b b2 → b1 = b2.
Proof.
  intros H. revert b2. induction H as [b|n b p b' Hp Ha IH]; intros b2 H2; inversion H2; subst; [done|].
  apply IH. congruence.
Qed.

Lemma ancestor_app n m b b' b'' : ancestor n b b' → ancestor m b' b'' → ancestor (n + m) b b''.
Proof. induction 1; cbn; [done|]. econstructor; eauto. Qed.

Lemma ancestor_snoc n b b' p :
  ancestor n b b' → block_record blocks (prev_hash b') = Ok p → ancestor (S n) b p.
Proof.
  intros Ha Hp. replace (S n) with (n + 1)%nat by lia.
  eapply ancestor_app; [done|]. econstructor; [done|constructor].
Qed.
End Ancestors.

(** ** [find_fork_point_in_chain] *)

Section ForkPoint.
Context (blocks : BlockchainInterface).

Definition fork_point_body (s : BlockRecord * BlockRecord) : res (BlockRecord * BlockRecord + Z) :=
  let '(block_1, block_2) := s in
  if (0 <? height block_2) || (0 <? height block_1) then
    if height block_1 <? height block_2 then
      b2 ← block_record blocks (prev_hash block_2); Ok (inl (block_1, b2))
    else if height block_2 <? height block_1 then
      b1 ← block_record blocks (prev_hash block_1); Ok (inl (b1, block_2))
    else if bool_decide (header_hash block_2 = header_hash block_1) then
      Ok (inr (height block_2))
    else
      b2 ← block_record blocks (prev_hash block_2);
      b1 ← block_record blocks (prev_hash block_1);
      Ok (inl (b1, b2))
  else if bool_decide (block_2 ≠ block_1) then Ok (inr (-1))
  else Ok (inr 0).

Definition find_fork_point_in_chain (fuel : nat) (block_1 block_2 : BlockRecord) : res Z :=
  loop fuel fork_point_body (block_1, block_2).
End ForkPoint.

(** Every block above genesis has its parent loaded. *)
Class ChainComplete (blocks : BlockchainInterface) : Prop :=
  cc_parent : ∀ h b, block_record blocks h = Ok b → 0 < height b →
    ∃ p, block_record blocks (prev_hash b) = Ok p.

#[export] Instance BlockCache_complete c (Hc : cache_complete c) : ChainComplete (BlockCache_interface c).
Proof.
  intros h b Hb Hpos. cbn in *. unfold bc_block_record in *. res_inv.
  pose proof (Hc _ _ Hb) as Hp. unfold parent_loaded, bc_contains_block in Hp.
  rewrite (proj2 (Z.leb_gt _ _)) in Hp by lia. cbn in Hp. zbool.
  destruct Hp as [p Hp]. exists p. by rewrite Hp.
Qed.

Definition common_ancestor (blocks : BlockchainInterface) (b1 b2 a : BlockRecord) : Prop :=
  (∃ n, ancestor blocks n b1 a) ∧ (∃ n, ancestor blocks n b2 a).

Section ForkPointSpec.
Context (blocks : BlockchainInterface) `{!ChainLaws blocks} `{!ChainComplete blocks}.
Context (b1 b2 : BlockRecord) (Hk1 : known blocks b1) (Hk2 : known blocks b2).

(** The loop keeps two ancestors at or above every common one. *)
Definition fork_inv (s : BlockRecord * BlockRecord) : Prop :=
  (∃ n, ancestor blocks n b1 s.1) ∧ (∃ n, ancestor blocks n b2 s.2)
  ∧ (∀ a, common_ancestor blocks b1 b2 a → height a <= height s.1 ∧ height a <= height s.2).

Definition fork_result (r : Z) : Prop :=
  -1 <= r
  ∧ (0 <= r → ∃ a, common_ancestor blocks b1 b2 a ∧ height a = r)
  ∧ (∀ a, common_ancestor blocks b1 b2 a → height a <= r).

Definition fork_measure (s : BlockRecord * BlockRecord) : nat :=
  Z.to_nat (height s.1 + height s.2).

Lemma fork_inv_known s : fork_inv s → known blocks s.1 ∧ known blocks s.2.
Proof using All.
  intros ((n1 & H1) & (n2 & H2) & _).
  by apply ancestor_height in H1 as [? _], H2 as [? _].
Qed.

Lemma ancestor_same_height b n a m c :
  known blocks b → ancestor blocks n b a → ancestor blocks m b c → height a = height c → a = c.
Proof using ChainLaws0.
  intros Hk Ha Hc E.
  pose proof (ancestor_height _ _ _ _ Hk Ha) as [_ ?]. pose proof (ancestor_height _ _ _ _ Hk Hc) as [_ ?].
  assert (n = m) as -> by lia. by eapply ancestor_fun.
Qed.

(** At equal heights a common ancestor that high is both blocks. *)
Lemma fork_inv_distinct s a :
  fork_inv s → height s.1 = height s.2 → s.1 ≠ s.2 →
  common_ancestor blocks b1 b2 a → height a < height s.1.
Proof using Hk1 Hk2 ChainLaws0.
  intros ((n1 & H1) & (n2 & H2) & Hmax) Heq Hne Hca. destruct (Hmax a Hca) as [Hle _].
  destruct (decide (height a = height s.1)) as [E|]; [|lia]. exfalso. apply Hne.
  destruct Hca as [[m1 Ha1] [m2 Ha2]].
  rewrite <- (ancestor_same_height _ _ _ _ _ Hk1 Ha1 H1 E).
  apply (ancestor_same_height _ _ _ _ _ Hk2 Ha2 H2). congruence.
Qed.

Lemma fork_body_total s :
  fork_inv s →
  (∃ s', fork_point_body blocks s = Ok (inl s') ∧ fork_inv s' ∧ (fork_measure s' < fork_measure s)%nat)
  ∨ (∃ v, fork_point_body blocks s = Ok (inr v) ∧ fork_result v).
Proof using All.
  intros Hs. destruct (fork_inv_known _ Hs) as [K1 K2]. destruct s as [c1 c2]. cbn in K1, K2.
  pose proof (known_height _ _ K1) as R1. pose proof (known_height _ _ K2) as R2.
  pose proof Hs as ((n1 & H1) & (n2 & H2) & Hmax). cbn in H1, H2, Hmax.
  unfold fork_point_body.
  destruct ((0 <? height c2) || (0 <? height c1)) eqn:E0.
  - assert (0 < height c1 ∨ 0 < height c2) as Hpos
      by (apply orb_true_iff in E0 as [E0|E0]; zbool; lia).
    destruct (Z.ltb_spec (height c1) (height c2)) as [Hlt|Hge].
    { destruct (cc_parent _ _ K2 ltac:(lia)) as [p Hp]. rewrite Hp. cbn. left. eexists. split; [done|].
      destruct (known_parent _ _ _ K2 Hp) as [_ Hh]. split; [|unfold fork_measure; cbn; lia].
      split_and!; cbn; [by eauto|by eauto using ancestor_snoc|]. intros a Ha. specialize (Hmax a Ha). lia. }
    destruct (Z.ltb_spec (height c2) (height c1)) as [Hgt|Hle].
    { destruct (cc_parent _ _ K1 ltac:(lia)) as [p Hp]. rewrite Hp. cbn. left. eexists. split; [done|].
      destruct (known_parent _ _ _ K1 Hp) as [_ Hh]. split; [|unfold fork_measure; cbn; lia].
      split_and!; cbn; [by eauto using ancestor_snoc|by eauto|]. intros a Ha. specialize (Hmax a Ha). lia. }
    case_bool_decide as Hhash.
    { assert (c2 = c1) as -> by (unfold known in *; congruence).
      right. eexists. split; [done|]. split_and!; [lia| |].
      - intros _. exists c1. split; [split; eauto|done].
      - intros a Ha. apply (Hmax a Ha). }
    destruct (cc_parent _ _ K2 ltac:(lia)) as [p2 Hp2]. destruct (cc_parent _ _ K1 ltac:(lia)) as [p1 Hp1].
    rewrite Hp2, Hp1. cbn. left. eexists. split; [done|].
    destruct (known_parent _ _ _ K1 Hp1) as [_ Hh1]. destruct (known_parent _ _ _ K2 Hp2) as [_ Hh2].
    split; [|unfold fork_measure; cbn; lia].
    split_and!; cbn; [by eauto using ancestor_snoc|by eauto using ancestor_snoc|].
    intros a Ha. assert (c1 ≠ c2) by congruence.
    pose proof (fork_inv_distinct (c1, c2) a Hs ltac:(cbn; lia) ltac:(done) Ha). cbn in *. lia.
  - zbool. right. case_bool_decide as Hne.
    + eexists. split; [done|]. split_and!; [lia|lia|]. intros a Ha.
      pose proof (fork_inv_distinct (c1, c2) a Hs ltac:(cbn; lia) ltac:(cbn; congruence) Ha). cbn in *. lia.
    + assert (c2 = c1) as -> by (destruct (decide (c2 = c1)); [done|by destruct Hne]).
      eexists. split; [done|]. split_and!; [lia| |].
      * intros _. exists c1. split; [split; eauto|lia].
      * intros a Ha. specialize (Hmax a Ha). lia.
Qed.
End ForkPointSpec.

(** C15. [find_fork_point_in_chain] returns the height of the highest block both
    chains contain, and -1 exactly when they share none. *)
Theorem find_fork_point_spec (blocks : BlockchainInterface) (fuel : nat) (b1 b2 : BlockRecord) :
  ChainLaws blocks → ChainComplete blocks → known blocks b1 → known blocks b2 →
  (Z.to_nat (height b1 + height b2) < fuel)%nat →
  ∃ r, find_fork_point_in_chain blocks fuel b1 b2 = Ok r
    ∧ (0 <= r → ∃ a, common_ancestor blocks b1 b2 a ∧ height a = r)
    ∧ (r = -1 ∨ 0 <= r)
    ∧ (∀ a, common_ancestor blocks b1 b2 a → height a <= r).
Proof.
  intros ?? Hk1 Hk2 Hf.
  destruct (loop_total (fork_point_body blocks) (fork_inv blocks b1 b2) (fork_result blocks b1 b2)
    fork_measure) with (fuel := fuel) (s := (b1, b2)) as (v & Hv & Hlo & H1 & H2).
  - intros s Hs. by apply fork_body_total.
  - split_and!; cbn; [exists 0%nat; constructor|exists 0%nat; constructor|].
    intros a [[n Ha] [m Hb]].
    apply ancestor_height in Ha as [_ ?], Hb as [_ ?]; try done. lia.
  - done.
  - exists v. split_and!; try done. lia.
Qed.

(** ** A small chain to evaluate definitions on

    [sample_block salt h] has hash [[salt; h]] and parent [[salt; h - 1]], except
    that every chain starts from the common block 0; every third block is a
    transaction block. *)
Definition sample_hash (salt h : Z) : bytes := if h <=? 1 then [0; h] else [salt; h].
Definition sample_block (salt h : Z) : BlockRecord := {|
  header_hash := sample_hash salt h; prev_hash := sample_hash salt (h - 1); height := h;
  weight := 7 * (h + 1); total_iters := 1000000 * (h + 1); signage_point_index := 1;
  challenge_vdf_output := []; infused_challenge_vdf_output := None;
  reward_infusion_new_challenge := []; challenge_block_info_hash := [];
  sub_slot_iters := 2 ^ 27; pool_puzzle_hash := [1]; farmer_puzzle_hash := [2];
  required_iters := 1000; deficit := 0; overflow := false; prev_transaction_block_height := 0;
  timestamp := (if h mod 3 =? 0 then Some (100 * (h + 1)) else None);
  prev_transaction_block_hash := None; fees := (if h mod 3 =? 0 then Some 0 else None);
  reward_claims_incorporated := None;
  finished_challenge_slot_hashes := (if h mod 4 =? 0 then Some [[5; h]] else None);
  finished_infused_challenge_slot_hashes := None;
  finished_reward_slot_hashes := (if h mod 4 =? 0 then Some [[6; h]] else None);
  sub_epoch_summary_included := None; farmer_public_key := [] |}.

(** Heights 0 .. n on the peak path, and a fork of the same length leaving it at
    height 1. *)
Definition sample_cache (n : Z) : BlockCache := {|
  bc_block_records := list_to_map
    ((λ h, (sample_hash 0 h, sample_block 0 h)) <$> seqZ 0 (n + 1))
    ∪ list_to_map ((λ h, (sample_hash 1 h, sample_block 1 h)) <$> seqZ 2 (n - 1));
  bc_height_to_hash := list_to_map ((λ h, (h, sample_hash 0 h)) <$> seqZ 0 (n + 1));
|}.

Lemma sample_cache_ok : cache_ok (sample_cache 6) ∧ cache_complete (sample_cache 6).
Proof. apply (bool_decide_eq_true_1 (_ ∧ _)). vm_compute. reflexivity. Qed.

Lemma find_fork_point_spec_witness :
  let blocks := BlockCache_interface (sample_cache 6) in
  let b1 := sample_block 0 6 in let b2 := sample_block 1 4 in
  known blocks b1 ∧ known blocks b2
  ∧ ∃ r, find_fork_point_in_chain blocks 20 b1 b2 = Ok r
    ∧ (0 <= r → ∃ a, common_ancestor blocks b1 b2 a ∧ height a = r)
    ∧ (r = -1 ∨ 0 <= r)
    ∧ (∀ a, common_ancestor blocks b1 b2 a → height a <= r).
Proof.
  intros blocks b1 b2. destruct sample_cache_ok as [Ho Hc].
  assert (known blocks b1) as H1 by (vm_compute; reflexivity).
  assert (known blocks b2) as H2 by (vm_compute; reflexivity).
  split_and!; [exact H1|exact H2|].
  exact (find_fork_point_spec blocks 20 b1 b2 (BlockCache_laws _ Ho) (BlockCache_complete _ Hc)
           H1 H2 ltac:(vm_compute; lia)).
Defined.

Example sample_fork :
  find_fork_point_in_chain (BlockCache_interface (sample_cache 6)) 20 (sample_block 0 6) (sample_block 1 4) = Ok 1.
Proof. vm_compute. reflexivity. Qed.
