(* ===== verification/Difficulty.v ===== *)
(** * Difficulty and sub-slot iterations

    Models [chia/consensus/difficulty_adjustment.py]: fetching ancestors by
    height, the end of sub-epochs and epochs, and the adjustment of the
    difficulty and of [sub_slot_iters] at the end of an epoch. *)
From S2P Require Import Prelude PyInt PyFloat SignificantBits Consensus ChainView.

Definition is_None {A} (o : option A) : bool := match o with None => true | Some _ => false end.

Section Difficulty.
Context (constants : ConsensusConstants) (blocks : BlockchainInterface) (fuel : nat).

(** The walk of [_get_blocks_at_height] outside of the peak path. *)
Definition slow_fetch_body (target_height max_num_blocks : Z)
    (s : BlockRecord * list BlockRecord) : res (BlockRecord * list BlockRecord + list BlockRecord) :=
  let '(curr_b, target_blocks) := s in
  if target_height <=? height curr_b then
    let target_blocks :=
      if height curr_b <? target_height + max_num_blocks then target_blocks ++ [curr_b]
      else target_blocks in
    if height curr_b =? 0 then Ok (inr target_blocks)
    else
      p ← block_record blocks (prev_hash curr_b);
      Ok (inl (p, target_blocks))
  else Ok (inr target_blocks).

Definition slow_fetch (prev_b : BlockRecord) (target_height max_num_blocks : Z) : res (list BlockRecord) :=
  r ← loop fuel (slow_fetch_body target_height max_num_blocks) (prev_b, []);
  Ok (rev r).

Definition fast_fetch (target_height max_num_blocks : Z) : res (list BlockRecord) :=
  for_each (λ h,
    u ← uint32 h;
    assert_ (contains_height blocks u) ;;
    height_to_block_record blocks u)
    (seqZ target_height max_num_blocks).

Definition get_blocks_at_height (prev_b : BlockRecord) (target_height max_num_blocks : Z) : res (list BlockRecord) :=
  if contains_height blocks (height prev_b) then
    hh ← height_to_hash blocks (height prev_b);
    if bool_decide (hh = Some (header_hash prev_b)) then fast_fetch target_height max_num_blocks
    else slow_fetch prev_b target_height max_num_blocks
  else slow_fetch prev_b target_height max_num_blocks.

(** [while next_b.sub_epoch_summary_included is None] *)
Definition epoch_start_body (fetched_blocks : list BlockRecord)
    (s : BlockRecord * BlockRecord * Z) : res (BlockRecord * BlockRecord * Z + BlockRecord) :=
  let '(curr_b, next_b, fetched_index) := s in
  if is_None (sub_epoch_summary_included next_b) then
    n ← py_index fetched_blocks fetched_index;
    Ok (inl (next_b, n, fetched_index + 1))
  else Ok (inr curr_b).

(** [while found_tx_block < 2] *)
Definition backtrack_tx_body (s : BlockRecord * Z) : res (BlockRecord * Z + BlockRecord) :=
  let '(curr_b, found_tx_block) := s in
  if found_tx_block <? 2 then
    p ← block_record blocks (prev_hash curr_b);
    Ok (inl (p, if is_transaction_block p then found_tx_block + 1 else found_tx_block))
  else Ok (inr curr_b).

Definition get_second_to_last_transaction_block_in_previous_epoch (last_b : BlockRecord) : res BlockRecord :=
  let height_in_next_epoch :=
    height last_b + 2 * MAX_SUB_SLOT_BLOCKS constants + MIN_BLOCKS_PER_CHALLENGE_BLOCK constants + 5 in
  r ← pymod height_in_next_epoch (EPOCH_BLOCKS constants);
  height_epoch_surpass ← uint32 (height_in_next_epoch - r);
  height_prev_epoch_surpass ← uint32 (height_epoch_surpass - EPOCH_BLOCKS constants);
  r' ← pymod height_prev_epoch_surpass (EPOCH_BLOCKS constants);
  assert_ (r' =? 0) ;;
  assert_ (height_in_next_epoch - height_epoch_surpass <? 5 * MAX_SUB_SLOT_BLOCKS constants) ;;
  if height_prev_epoch_surpass =? 0 then
    t ← uint32 0;
    l ← get_blocks_at_height last_b t 1;
    py_index l 0
  else
    t ← uint32 (height_prev_epoch_surpass - MAX_SUB_SLOT_BLOCKS constants - 1);
    m ← uint32 (3 * MAX_SUB_SLOT_BLOCKS constants + MIN_BLOCKS_PER_CHALLENGE_BLOCK constants + 3);
    fetched_blocks ← get_blocks_at_height last_b t m;
    let fetched_index := MAX_SUB_SLOT_BLOCKS constants in
    curr_b ← py_index fetched_blocks fetched_index;
    let fetched_index := fetched_index + 1 in
    assert_ (height curr_b =? height_prev_epoch_surpass - 1) ;;
    next_b ← py_index fetched_blocks fetched_index;
    assert_ (height next_b =? height_prev_epoch_surpass) ;;
    curr_b ← loop (S (S (length fetched_blocks))) (epoch_start_body fetched_blocks)
               (curr_b, next_b, fetched_index);
    let found_tx_block := if is_transaction_block curr_b then 1 else 0 in
    loop fuel backtrack_tx_body (curr_b, found_tx_block).

Definition height_can_be_first_in_epoch (h : Z) : res bool :=
  a ← pymod h (SUB_EPOCH_BLOCKS constants);
  b ← pymod (h - a) (EPOCH_BLOCKS constants);
  Ok (b =? 0).

(** [while curr.height % SUB_EPOCH_BLOCKS > 0]: [inr false] when a block of the
    sub-epoch already included a summary *)
Definition sub_epoch_scan_body (curr : BlockRecord) : res (BlockRecord + bool) :=
  m ← pymod (height curr) (SUB_EPOCH_BLOCKS constants);
  if 0 <? m then
    if negb (is_None (sub_epoch_summary_included curr)) then Ok (inr false)
    else p ← block_record blocks (prev_hash curr); Ok (inl p)
  else Ok (inr (is_None (sub_epoch_summary_included curr))).

Definition can_finish_sub_and_full_epoch (h : Z) (prev_header_hash : option bytes) (deficit : Z)
    (block_at_height_included_ses : bool) : res (bool * bool) :=
  if h <? SUB_EPOCH_BLOCKS constants - 1 then Ok (false, false)
  else
    match prev_header_hash with
    | None => Raise AssertionError
    | Some prev_header_hash =>
        if 0 <? deficit then Ok (false, false)
        else if block_at_height_included_ses then Ok (false, false)
        else
          m ← pymod (h + 1) (SUB_EPOCH_BLOCKS constants);
          none_included ←
            (if 1 <? m then
               curr ← block_record blocks prev_header_hash;
               loop fuel sub_epoch_scan_body curr
             else Ok true);
          if none_included : bool then
            u ← uint32 (h + 1);
            full ← height_can_be_first_in_epoch u;
            Ok (true, full)
          else Ok (false, false)
    end.

(** [while last_block_curr.total_iters > signage_point_total_iters or not tx] *)
Definition last_tx_before_sp_body (signage_point_total_iters : Z)
    (b : BlockRecord) : res (BlockRecord + BlockRecord) :=
  if (signage_point_total_iters <? total_iters b) || negb (is_transaction_block b) then
    p ← block_record blocks (prev_hash b); Ok (inl p)
  else Ok (inr b).

(** The common shape of the two adjustments: the check that an epoch ends, then
    the two blocks the measurement is taken between. *)
Definition epoch_interval (prev_b : BlockRecord) (signage_point_total_iters : Z) : res (BlockRecord * BlockRecord) :=
  last_block_prev ← get_second_to_last_transaction_block_in_previous_epoch prev_b;
  last_block_curr ← loop fuel (last_tx_before_sp_body signage_point_total_iters) prev_b;
  Ok (last_block_prev, last_block_curr).

Definition get_next_sub_slot_iters (prev_header_hash : bytes) (h curr_sub_slot_iters deficit : Z)
    (block_at_height_included_ses new_slot : bool) (signage_point_total_iters : Z)
    (skip_epoch_check : bool) : res Z :=
  next_height ← uint32 (h + 1);
  if next_height <? EPOCH_BLOCKS constants then uint64 (SUB_SLOT_ITERS_STARTING constants)
  else if negb (contains_block blocks prev_header_hash) then Raise ValueError
  else
    prev_b ← block_record blocks prev_header_hash;
    finishes ←
      (if negb skip_epoch_check then
         '(_, can_finish_epoch) ← can_finish_sub_and_full_epoch h (Some prev_header_hash) deficit
                                    block_at_height_included_ses;
         Ok (negb (negb new_slot || negb can_finish_epoch))
       else Ok true);
    if negb finishes then Ok curr_sub_slot_iters
    else
      '(last_block_prev, last_block_curr) ← epoch_interval prev_b signage_point_total_iters;
      t_curr ← of_opt AssertionError (timestamp last_block_curr);
      t_prev ← of_opt AssertionError (timestamp last_block_prev);
      q ← pydiv (SUB_SLOT_TIME_TARGET constants * (total_iters last_block_curr - total_iters last_block_prev))
                (t_curr - t_prev);
      new_ssi_precise ← uint64 q;
      max_ssi ← uint64 (DIFFICULTY_CHANGE_MAX_FACTOR constants * sub_slot_iters last_block_curr);
      d ← pydiv (sub_slot_iters last_block_curr) (DIFFICULTY_CHANGE_MAX_FACTOR constants);
      min_ssi ← uint64 d;
      new_ssi_precise ←
        (if sub_slot_iters last_block_curr <=? new_ssi_precise then uint64 (Z.min new_ssi_precise max_ssi)
         else uint64 (Z.max (NUM_SPS_SUB_SLOT constants) (Z.max new_ssi_precise min_ssi)));
      let new_ssi := truncate_to_significant_bits new_ssi_precise (SIGNIFICANT_BITS constants) in
      m ← pymod new_ssi (NUM_SPS_SUB_SLOT constants);
      new_ssi ← uint64 (new_ssi - m);
      assert_ (count_significant_bits new_ssi <=? SIGNIFICANT_BITS constants) ;;
      Ok new_ssi.

Definition get_next_difficulty (prev_header_hash : bytes) (h current_difficulty deficit : Z)
    (block_at_height_included_ses new_slot : bool) (signage_point_total_iters : Z)
    (skip_epoch_check : bool) : res Z :=
  next_height ← uint32 (h + 1);
  if next_height <? EPOCH_BLOCKS constants - 3 * MAX_SUB_SLOT_BLOCKS constants then
    uint64 (DIFFICULTY_STARTING constants)
  else if negb (contains_block blocks prev_header_hash) then Raise ValueError
  else
    prev_b ← block_record blocks prev_header_hash;
    finishes ←
      (if negb skip_epoch_check then
         '(_, can_finish_epoch) ← can_finish_sub_and_full_epoch h (Some prev_header_hash) deficit
                                    block_at_height_included_ses;
         Ok (negb (negb new_slot || negb can_finish_epoch))
       else Ok true);
    if negb finishes then Ok current_difficulty
    else
      '(last_block_prev, last_block_curr) ← epoch_interval prev_b signage_point_total_iters;
      t_curr ← of_opt AssertionError (timestamp last_block_curr);
      t_prev ← of_opt AssertionError (timestamp last_block_prev);
      actual_epoch_time ← uint64 (t_curr - t_prev);
      pp ← block_record blocks (prev_hash prev_b);
      old_difficulty ← uint64 (weight prev_b - weight pp);
      q ← pydiv ((weight last_block_curr - weight last_block_prev) * SUB_SLOT_TIME_TARGET constants)
                (SLOT_BLOCKS_TARGET constants * actual_epoch_time);
      new_difficulty_precise ← uint64 q;
      max_diff ← uint64 (DIFFICULTY_CHANGE_MAX_FACTOR constants * old_difficulty);
      d ← pydiv old_difficulty (DIFFICULTY_CHANGE_MAX_FACTOR constants);
      min_diff ← uint64 d;
      new_difficulty_precise ←
        (if old_difficulty <=? new_difficulty_precise then uint64 (Z.min new_difficulty_precise max_diff)
         else one ← uint64 1; uint64 (Z.max one (Z.max new_difficulty_precise min_diff)));
      let new_difficulty := truncate_to_significant_bits new_difficulty_precise (SIGNIFICANT_BITS constants) in
      assert_ (count_significant_bits new_difficulty <=? SIGNIFICANT_BITS constants) ;;
      uint64 new_difficulty.

Definition get_next_sub_slot_iters_and_difficulty (is_first_in_sub_slot : bool)
    (prev_b : option BlockRecord) : res (Z * Z) :=
  match prev_b with
  | None => Ok (SUB_SLOT_ITERS_STARTING constants, DIFFICULTY_STARTING constants)
  | Some prev_b =>
      prev_difficulty ←
        (if negb (height prev_b =? 0) then
           p ← block_record blocks (prev_hash prev_b); uint64 (weight prev_b - weight p)
         else uint64 (weight prev_b));
      if negb (is_None (sub_epoch_summary_included prev_b)) then
        Ok (sub_slot_iters prev_b, prev_difficulty)
      else
        sp_total ← sp_total_iters constants prev_b;
        difficulty ← get_next_difficulty (prev_hash prev_b) (height prev_b) prev_difficulty (deficit prev_b)
                       false is_first_in_sub_slot sp_total false;
        ssi ← get_next_sub_slot_iters (prev_hash prev_b) (height prev_b) (sub_slot_iters prev_b)
                (deficit prev_b) false is_first_in_sub_slot sp_total false;
        Ok (ssi, difficulty)
  end.
End Difficulty.

(** ** Fetching along the peak path *)

(** Closes a statement over a range of heights with one over an equal range. *)
Ltac seqZ_exact H :=
  match type of H with Forall2 _ (seqZ ?a ?b) _ =>
    match goal with |- Forall2 _ (seqZ ?c ?d) _ =>
      replace c with a by lia; replace d with b by lia; exact H
    end
  end.

Section Fetch.
Context (blocks : BlockchainInterface) `{!ChainLaws blocks} `{!PeakPath blocks}.

(** [b] is the block of the peak path at height [h]. *)
Definition path_block (h : Z) (b : BlockRecord) : Prop :=
  ∃ hh, height_to_hash blocks h = Ok (Some hh) ∧ block_record blocks hh = Ok b.

Lemma path_block_fun h b b' : path_block h b → path_block h b' → b = b'.
Proof using. intros (x & Hx & Hb) (y & Hy & Hb'). congruence. Qed.

Lemma path_block_height h b : path_block h b → height b = h ∧ known blocks b.
Proof using All.
  intros (x & Hx & Hb). destruct (pp_record _ _ Hx) as (b' & Hb' & Hh & _).
  assert (b' = b) as -> by congruence. split; [done|by eapply known_of_lookup].
Qed.

Lemma path_block_parent h b :
  path_block h b → 0 < h → ∃ p, block_record blocks (prev_hash b) = Ok p ∧ path_block (h - 1) p.
Proof using All.
  intros (x & Hx & Hb) Hh. pose proof (pp_parent _ _ _ Hx Hb Hh) as Hp.
  destruct (pp_record _ _ Hp) as (p & Hpb & _). exists p. split; [done|]. by exists (prev_hash b).
Qed.

Lemma path_block_nonneg h b : path_block h b → 0 <= h < 2 ^ 32.
Proof using All. intros H. apply path_block_height in H as [<- Hk]. by apply known_height in Hk. Qed.

Lemma fast_fetch_spec t m l :
  Forall2 path_block (seqZ t m) l → fast_fetch blocks t m = Ok l.
Proof using All.
  intros HF. unfold fast_fetch. apply for_each_Ok. eapply Forall2_impl; [exact HF|].
  intros h b Hp. rewrite uint32_in by (by eapply path_block_nonneg). cbn.
  destruct Hp as (hh & Hh & Hb). destruct (pp_record _ _ Hh) as (b' & Hb' & _ & Hr).
  rewrite (proj2 (pp_contains h)) by eauto. cbn. congruence.
Qed.

Context (t m : Z) (Ht : 0 <= t) (Hm : 0 <= m).

(** The walk has collected the blocks of the window above its position. *)
Definition slow_inv (s : BlockRecord * list BlockRecord) : Prop :=
  path_block (height s.1) s.1 ∧ t - 1 <= height s.1
  ∧ Forall2 path_block (seqZ (Z.max t (height s.1 + 1)) (t + m - Z.max t (height s.1 + 1))) (rev s.2).

Lemma slow_body_total s :
  slow_inv s →
  (∃ s', slow_fetch_body blocks t m s = Ok (inl s') ∧ slow_inv s'
         ∧ (Z.to_nat (height s'.1) < Z.to_nat (height s.1))%nat)
  ∨ (∃ l, slow_fetch_body blocks t m s = Ok (inr l) ∧ Forall2 path_block (seqZ t m) (rev l)).
Proof using All.
  destruct s as [b acc]. intros (Hp & Hlo & HF). cbn in Hp, Hlo, HF.
  pose proof (path_block_nonneg _ _ Hp) as Hr. unfold slow_fetch_body.
  destruct (Z.leb_spec t (height b)) as [Hle|Hgt]; [|].
  - set (acc' := if height b <? t + m then acc ++ [b] else acc).
    assert (HF' : Forall2 path_block (seqZ (height b) (t + m - height b)) (rev acc')).
    { rewrite Z.max_r in HF by lia. unfold acc'. destruct (Z.ltb_spec (height b) (t + m)).
      - rewrite rev_app_distr. cbn [rev app]. rewrite seqZ_cons by lia. constructor; [done|].
        seqZ_exact HF.
      - rewrite seqZ_nil in HF by lia. rewrite seqZ_nil by lia. done. }
    destruct (Z.eqb_spec (height b) 0) as [E0|Hne].
    + right. eexists. split; [done|]. seqZ_exact HF'.
    + destruct (path_block_parent _ _ Hp ltac:(lia)) as (p & Hpb & Hpp). rewrite Hpb. cbn.
      pose proof (path_block_height _ _ Hpp) as [Hh _].
      left. eexists. split; [done|]. split; [|cbn; lia].
      split_and!; cbn; [by rewrite Hh|lia|].
      rewrite Z.max_r by lia. seqZ_exact HF'.
  - right. eexists. split; [done|]. rewrite Z.max_l in HF by lia.
    seqZ_exact HF.
Qed.

Lemma slow_fetch_spec fuel b :
  path_block (height b) b → t + m - 1 <= height b → t - 1 <= height b →
  (Z.to_nat (height b) < fuel)%nat →
  ∃ l, slow_fetch blocks fuel b t m = Ok l ∧ Forall2 path_block (seqZ t m) l.
Proof using All.
  intros Hp Hb Hlo Hf.
  destruct (loop_total (slow_fetch_body blocks t m) slow_inv
    (λ l, Forall2 path_block (seqZ t m) (rev l)) (λ s, Z.to_nat (height s.1)))
    with (fuel := fuel) (s := (b, [] : list BlockRecord)) as (l & Hl & HF).
  - apply slow_body_total.
  - split_and!; cbn; [done|lia|]. rewrite seqZ_nil by lia. constructor.
  - done.
  - exists (rev l). unfold slow_fetch. by rewrite Hl.
Qed.
End Fetch.

(** On the peak path the direct fetch by height returns what the walk along
    [prev_hash] pointers would have collected. *)
Theorem get_blocks_at_height_fast_slow (blocks : BlockchainInterface) (fuel : nat)
    (prev_b : BlockRecord) (t m : Z) :
  ChainLaws blocks → PeakPath blocks →
  height_to_hash blocks (height prev_b) = Ok (Some (header_hash prev_b)) →
  known blocks prev_b →
  0 <= t → 0 <= m → t + m - 1 <= height prev_b → t - 1 <= height prev_b →
  (Z.to_nat (height prev_b) < fuel)%nat →
  get_blocks_at_height blocks fuel prev_b t m = slow_fetch blocks fuel prev_b t m
  ∧ ∃ l, get_blocks_at_height blocks fuel prev_b t m = Ok l
         ∧ Forall2 (path_block blocks) (seqZ t m) l.
Proof.
  intros ?? Hh Hk Ht Hm Hb Hlo Hf.
  destruct (slow_fetch_spec blocks t m Ht Hm fuel prev_b) as (l & Hl & HF); [|done..|].
  { by exists (header_hash prev_b). }
  assert (get_blocks_at_height blocks fuel prev_b t m = Ok l) as Hg.
  { unfold get_blocks_at_height. rewrite (proj2 (pp_contains _)) by eauto. rewrite Hh. cbn.
    rewrite bool_decide_true by done. by apply fast_fetch_spec. }
  rewrite Hl. eauto.
Qed.

(** ** The end of an epoch *)

Section Adjustment.
Context (c : ConsensusConstants) (blocks : BlockchainInterface) (fuel : nat).
Context (Hbits : 0 < SIGNIFICANT_BITS c) (Hfactor : 1 <= DIFFICULTY_CHANGE_MAX_FACTOR c).

(** The clamp of both adjustments, from the exact value and the old one; [lo]
    is 1 for a difficulty and the number of signage points for iterations. *)
Lemma clamp_bounds lo old v :
  1 <= lo → lo <= old ∨ lo = 1 →
  (∃ new, ((0 <= old <= new ∧ v = Z.min new (DIFFICULTY_CHANGE_MAX_FACTOR c * old))
           ∨ (new < old ∧ v = Z.max lo (Z.max new (old / DIFFICULTY_CHANGE_MAX_FACTOR c)))) ∧ 0 <= new) →
  old / DIFFICULTY_CHANGE_MAX_FACTOR c <= v <= DIFFICULTY_CHANGE_MAX_FACTOR c * old
  ∧ (lo <= old → lo <= v) ∧ 0 <= v.
Proof using Hfactor.
  intros Hlo Hd (new & Hv & Hn). set (F := DIFFICULTY_CHANGE_MAX_FACTOR c) in *.
  assert (0 <= old) by lia.
  assert (0 <= old / F <= old) by (split; [apply Z.div_pos|apply Z.div_le_upper_bound]; nia).
  destruct Hv as [[Hle ->]|[Hlt ->]]; nia.
Qed.

(** The block before the epoch's last one fixes the old difficulty; the new one
    stays within the change factor of it, up to the truncation. *)
Lemma next_difficulty_adjusts ph h cur d ses ns sp r :
  EPOCH_BLOCKS c - 3 * MAX_SUB_SLOT_BLOCKS c <= h + 1 →
  get_next_difficulty c blocks fuel ph h cur d ses ns sp true = Ok r →
  ∃ prev_b pp,
    block_record blocks ph = Ok prev_b ∧ block_record blocks (prev_hash prev_b) = Ok pp
    ∧ let old := weight prev_b - weight pp in
      truncate_to_significant_bits (old / DIFFICULTY_CHANGE_MAX_FACTOR c) (SIGNIFICANT_BITS c) <= r
      ∧ r <= DIFFICULTY_CHANGE_MAX_FACTOR c * old
      ∧ (0 < old → 0 < r)
      ∧ count_significant_bits r <= SIGNIFICANT_BITS c.
Proof using Hbits Hfactor.
  intros Hh H. unfold get_next_difficulty in H. cbn [negb] in H.
  uint_inv; zbool; try done; try lia.
  all: do 2 eexists; split; [done|split; [done|]]; cbn zeta; set (old := weight _ - weight _) in *.
  all: match goal with |- _ ∧ _ ∧ _ ∧ count_significant_bits (truncate_to_significant_bits ?v _) <= _ =>
    destruct (clamp_bounds 1 old v ltac:(lia) ltac:(lia)) as ((Hlo & Hhi) & Hpos & Hnn);
      [eexists; split; [solve [left; split; [|reflexivity]; lia | right; split; [|reflexivity]; lia]|lia]|];
    pose proof (truncate_bounds v (SIGNIFICANT_BITS c) ltac:(lia) ltac:(lia)) end.
  all: assert (0 <= old / DIFFICULTY_CHANGE_MAX_FACTOR c) by lia.
  all: split_and!; [by apply truncate_mono|lia|lia|done].
Qed.

Lemma truncate_pow2_le v k n :
  0 <= k → 0 < n → 2 ^ k <= v → 2 ^ k <= truncate_to_significant_bits v n.
Proof using.
  intros Hk Hn Hv. assert (0 < 2 ^ k) by (apply Z.pow_pos_nonneg; lia).
  pose proof (truncate_top_bit v n ltac:(lia) Hn).
  enough (2 ^ k <= 2 ^ (bit_length v - 1)) by lia. apply Z.pow_le_mono_r; [lia|].
  rewrite bit_length_pos by lia. apply Z.log2_le_mono in Hv. rewrite Z.log2_pow2 in Hv; lia.
Qed.

(** The new number of iterations is a multiple of the number of signage points,
    as [calculate_sp_interval_iters] asserts, and within the change factor. *)
Lemma next_sub_slot_iters_adjusts k ph h cur d ses ns sp r :
  0 <= k → NUM_SPS_SUB_SLOT c = 2 ^ k → EPOCH_BLOCKS c <= h + 1 →
  get_next_sub_slot_iters c blocks fuel ph h cur d ses ns sp true = Ok r →
  ∃ prev_b lp lc,
    block_record blocks ph = Ok prev_b ∧ epoch_interval c blocks fuel prev_b sp = Ok (lp, lc)
    ∧ r mod NUM_SPS_SUB_SLOT c = 0
    ∧ (NUM_SPS_SUB_SLOT c <= sub_slot_iters lc →
       NUM_SPS_SUB_SLOT c <= r <= DIFFICULTY_CHANGE_MAX_FACTOR c * sub_slot_iters lc)
    ∧ count_significant_bits r <= SIGNIFICANT_BITS c.
Proof using Hbits Hfactor.
  intros Hk Hsps Hh H. unfold get_next_sub_slot_iters in H. cbn [negb] in H.
  assert (0 < 2 ^ k) by (apply Z.pow_pos_nonneg; lia).
  uint_inv; zbool; try done; try lia.
  all: do 3 eexists; split; [done|split; [done|]].
  all: match goal with |- (truncate_to_significant_bits ?v _ - _) mod _ = 0 ∧ _ =>
    set (t := truncate_to_significant_bits v _) in *;
    assert (Hv : NUM_SPS_SUB_SLOT c <= sub_slot_iters b0 →
                 NUM_SPS_SUB_SLOT c <= v <= DIFFICULTY_CHANGE_MAX_FACTOR c * sub_slot_iters b0);
    [intros; destruct (clamp_bounds (NUM_SPS_SUB_SLOT c) (sub_slot_iters b0) v ltac:(lia) ltac:(lia));
      [eexists; split; [solve [left; split; [|reflexivity]; lia | right; split; [|reflexivity]; lia]|lia]|lia]|];
    assert (Ht : NUM_SPS_SUB_SLOT c <= sub_slot_iters b0 → 2 ^ k <= t <= v);
    [intros Hl; specialize (Hv Hl); split;
      [apply truncate_pow2_le; lia|apply truncate_bounds; lia]|];
    clearbody t end.
  all: pose proof (Z.div_mod t (NUM_SPS_SUB_SLOT c) ltac:(lia)).
  all: pose proof (Z.mod_pos_bound t (NUM_SPS_SUB_SLOT c) ltac:(lia)).
  all: split; [replace (t - t mod NUM_SPS_SUB_SLOT c) with (t / NUM_SPS_SUB_SLOT c * NUM_SPS_SUB_SLOT c) by lia;
               apply Z.mod_mul; lia|].
  all: split; [|done]; intros Hl; specialize (Hv Hl); specialize (Ht Hl).
  all: assert (1 <= t / NUM_SPS_SUB_SLOT c) by (apply Z.div_le_lower_bound; lia); nia.
Qed.
End Adjustment.

(** ** The end of a sub-epoch *)

(** No block from [b] back to the start of the sub-epoch of its height includes
    a sub-epoch summary. *)
Definition no_summary_since_start (blocks : BlockchainInterface) (S : Z) (b : BlockRecord) : Prop :=
  ∀ n a, ancestor blocks n b a → height b - height b mod S <= height a →
    sub_epoch_summary_included a = None.

Section SubEpochEnd.
Context (c : ConsensusConstants) (blocks : BlockchainInterface).
Context `{!ChainLaws blocks} `{!ChainComplete blocks}.
Context (HS : 0 < SUB_EPOCH_BLOCKS c).

Lemma no_summary_step b p :
  known blocks b → block_record blocks (prev_hash b) = Ok p → 0 < height b mod SUB_EPOCH_BLOCKS c →
  sub_epoch_summary_included b = None →
  no_summary_since_start blocks (SUB_EPOCH_BLOCKS c) b
  ↔ no_summary_since_start blocks (SUB_EPOCH_BLOCKS c) p.
Proof using HS ChainLaws0.
  intros Hk Hp Hm Hn. destruct (known_parent _ _ _ Hk Hp) as [Hkp Hh].
  set (S := SUB_EPOCH_BLOCKS c) in *.
  assert (E : height p mod S = height b mod S - 1).
  { pose proof (Z.mod_pos_bound (height b) S HS).
    symmetry. apply (Z.mod_unique _ _ (height b / S)); [lia|].
    pose proof (Z.div_mod (height b) S ltac:(lia)). lia. }
  unfold no_summary_since_start. split; intros H n a Ha Hge.
  - eapply (H (Datatypes.S n)); [by econstructor|lia].
  - inversion Ha as [|m b0 q a0 Hq Hqa]; subst; [congruence|].
    assert (q = p) as -> by congruence. eapply H; [exact Hqa|lia].
Qed.

Lemma scan_body_eq b :
  sub_epoch_scan_body c blocks b =
    if 0 <? height b mod SUB_EPOCH_BLOCKS c then
      if negb (is_None (sub_epoch_summary_included b)) then Ok (inr false)
      else p ← block_record blocks (prev_hash b); Ok (inl p)
    else Ok (inr (is_None (sub_epoch_summary_included b))).
Proof using HS.
  unfold sub_epoch_scan_body, pymod. by rewrite (proj2 (Z.eqb_neq _ 0)) by lia.
Qed.

Lemma sub_epoch_scan_spec fuel b :
  known blocks b → (Z.to_nat (height b) < fuel)%nat →
  ∃ r, loop fuel (sub_epoch_scan_body c blocks) b = Ok r
    ∧ (r = true ↔ no_summary_since_start blocks (SUB_EPOCH_BLOCKS c) b).
Proof using All.
  revert b. induction fuel as [|fuel IH]; intros b Hk Hf; [lia|]. cbn [loop].
  rewrite scan_body_eq. pose proof (known_height _ _ Hk) as Hb. pose proof (Z.mod_pos_bound (height b) (SUB_EPOCH_BLOCKS c) HS) as Hm.
  destruct (Z.ltb_spec 0 (height b mod SUB_EPOCH_BLOCKS c)) as [Hpos|Hz].
  - destruct (sub_epoch_summary_included b) eqn:Es; cbn.
    + eexists. split; [done|]. split; [done|]. intros H.
      specialize (H 0%nat b (ancestor_refl _ _) ltac:(lia)). congruence.
    + assert (0 < height b).
      { destruct (decide (height b = 0)) as [E|]; [|lia]. rewrite E, Z.mod_0_l in Hpos by lia. lia. }
      destruct (cc_parent _ _ Hk ltac:(done)) as [p Hp]. rewrite Hp. cbn.
      destruct (known_parent _ _ _ Hk Hp) as [Hkp Hh].
      destruct (IH p Hkp ltac:(lia)) as (r & Hr & Hspec). exists r. split; [done|].
      rewrite Hspec. symmetry. by apply no_summary_step.
  - eexists. split; [done|]. split.
    + intros Hn n a Ha Hge. pose proof (ancestor_height _ _ _ _ Hk Ha) as [_ ?].
      assert (n = 0%nat) as -> by lia. inversion Ha; subst.
      by destruct (sub_epoch_summary_included a).
    + intros H. rewrite (H 0%nat b (ancestor_refl _ _) ltac:(lia)). done.
Qed.
End SubEpochEnd.


(** ** Statements over whole calls *)

(** C13. At the end of an epoch the new difficulty is positive, differs from the old
    one (the weight step of the previous block) by at most the change factor, up
    to truncation, and has at most [SIGNIFICANT_BITS] significant bits. *)
Theorem next_difficulty_bounds (c : ConsensusConstants) (blocks : BlockchainInterface) (fuel : nat)
    (ph : bytes) (h cur d : Z) (ses ns : bool) (sp r : Z) :
  0 < SIGNIFICANT_BITS c → 1 <= DIFFICULTY_CHANGE_MAX_FACTOR c →
  EPOCH_BLOCKS c - 3 * MAX_SUB_SLOT_BLOCKS c <= h + 1 →
  get_next_difficulty c blocks fuel ph h cur d ses ns sp true = Ok r →
  ∃ prev_b pp,
    block_record blocks ph = Ok prev_b ∧ block_record blocks (prev_hash prev_b) = Ok pp
    ∧ let old := weight prev_b - weight pp in
      truncate_to_significant_bits (old / DIFFICULTY_CHANGE_MAX_FACTOR c) (SIGNIFICANT_BITS c) <= r
      ∧ r <= DIFFICULTY_CHANGE_MAX_FACTOR c * old
      ∧ (0 < old → 0 < r)
      ∧ count_significant_bits r <= SIGNIFICANT_BITS c.
Proof. intros. by eapply next_difficulty_adjusts. Qed.

(** At the end of an epoch the new sub-slot iterations divide into the signage
    points, are at least one iteration each, grow at most by the change factor
    and have at most [SIGNIFICANT_BITS] significant bits. *)
Theorem next_sub_slot_iters_bounds (c : ConsensusConstants) (blocks : BlockchainInterface) (fuel : nat)
    (k : Z) (ph : bytes) (h cur d : Z) (ses ns : bool) (sp r : Z) :
  0 < SIGNIFICANT_BITS c → 1 <= DIFFICULTY_CHANGE_MAX_FACTOR c →
  0 <= k → NUM_SPS_SUB_SLOT c = 2 ^ k → EPOCH_BLOCKS c <= h + 1 →
  get_next_sub_slot_iters c blocks fuel ph h cur d ses ns sp true = Ok r →
  ∃ prev_b lp lc,
    block_record blocks ph = Ok prev_b ∧ epoch_interval c blocks fuel prev_b sp = Ok (lp, lc)
    ∧ r mod NUM_SPS_SUB_SLOT c = 0
    ∧ (NUM_SPS_SUB_SLOT c <= sub_slot_iters lc →
       NUM_SPS_SUB_SLOT c <= r <= DIFFICULTY_CHANGE_MAX_FACTOR c * sub_slot_iters lc)
    ∧ count_significant_bits r <= SIGNIFICANT_BITS c.
Proof. intros. by eapply next_sub_slot_iters_adjusts. Qed.

Lemma next_difficulty_no_new_slot c blocks fuel ph h cur d ses sp r :
  get_next_difficulty c blocks fuel ph h cur d ses false sp false = Ok r →
  r = cur ∨ (h + 1 < EPOCH_BLOCKS c - 3 * MAX_SUB_SLOT_BLOCKS c ∧ r = DIFFICULTY_STARTING c).
Proof.
  unfold get_next_difficulty. cbn [negb orb]. intros H. uint_inv; zbool; try discriminate; auto.
Qed.

Lemma next_sub_slot_iters_no_new_slot c blocks fuel ph h cur d ses sp r :
  get_next_sub_slot_iters c blocks fuel ph h cur d ses false sp false = Ok r →
  r = cur ∨ (h + 1 < EPOCH_BLOCKS c ∧ r = SUB_SLOT_ITERS_STARTING c).
Proof.
  unfold get_next_sub_slot_iters. cbn [negb orb]. intros H. uint_inv; zbool; try discriminate; auto.
Qed.

(** Inside a sub-slot nothing is adjusted: a block that does not start a sub-slot
    has the iterations and the difficulty of its predecessor, or the starting
    values while the first epoch lasts. *)
Theorem no_adjustment_inside_sub_slot (c : ConsensusConstants) (blocks : BlockchainInterface)
    (fuel : nat) (prev_b pp : BlockRecord) (ssi diff : Z) :
  height prev_b ≠ 0 → block_record blocks (prev_hash prev_b) = Ok pp →
  get_next_sub_slot_iters_and_difficulty c blocks fuel false (Some prev_b) = Ok (ssi, diff) →
  (ssi = sub_slot_iters prev_b
   ∨ height prev_b + 1 < EPOCH_BLOCKS c ∧ ssi = SUB_SLOT_ITERS_STARTING c)
  ∧ (diff = weight prev_b - weight pp
     ∨ height prev_b + 1 < EPOCH_BLOCKS c - 3 * MAX_SUB_SLOT_BLOCKS c ∧ diff = DIFFICULTY_STARTING c).
Proof.
  intros Hh Hp H. unfold get_next_sub_slot_iters_and_difficulty in H.
  rewrite (proj2 (Z.eqb_neq _ _) Hh), Hp in H. cbn [negb mbind res_bind] in H.
  res_step. uint_inv; simplify_eq; [by auto|].
  split; [by eapply next_sub_slot_iters_no_new_slot|by eapply next_difficulty_no_new_slot].
Qed.

(** ** Instances *)

Definition small_constants : ConsensusConstants := {|
  SLOT_BLOCKS_TARGET := 32; MIN_BLOCKS_PER_CHALLENGE_BLOCK := 1; MAX_SUB_SLOT_BLOCKS := 2;
  NUM_SPS_SUB_SLOT := 64; SUB_SLOT_ITERS_STARTING := 2 ^ 27; DIFFICULTY_CONSTANT_FACTOR := 2 ^ 57;
  DIFFICULTY_STARTING := 7; DIFFICULTY_CHANGE_MAX_FACTOR := 3; SUB_EPOCH_BLOCKS := 5;
  EPOCH_BLOCKS := 10; SIGNIFICANT_BITS := 8; DISCRIMINANT_SIZE_BITS := 1024;
  NUMBER_ZERO_BITS_PLOT_FILTER := 9; MIN_PLOT_SIZE := 31; MAX_PLOT_SIZE := 50;
  SUB_SLOT_TIME_TARGET := 600; NUM_SP_INTERVALS_EXTRA := 3; MAX_FUTURE_TIME := 300;
  NUMBER_OF_TIMESTAMPS := 11; GENESIS_CHALLENGE := []; AGG_SIG_ME_ADDITIONAL_DATA := [];
  GENESIS_PRE_FARM_POOL_PUZZLE_HASH := []; GENESIS_PRE_FARM_FARMER_PUZZLE_HASH := [];
  MAX_VDF_WITNESS_SIZE := 64; MEMPOOL_BLOCK_BUFFER := 10; MAX_COIN_AMOUNT := 2 ^ 64 - 1;
  MAX_BLOCK_COST_CLVM := 11000000000; COST_PER_BYTE := 12000; WEIGHT_PROOF_THRESHOLD := 2;
  WEIGHT_PROOF_RECENT_BLOCKS := 1000; MAX_BLOCK_COUNT_PER_REQUESTS := 32;
  STAKING_ESTIMATE_BLOCK_RANGE := 30; BLOCKS_CACHE_SIZE := 40; NETWORK_TYPE := 0;
  MAX_GENERATOR_SIZE := 1000000; MAX_GENERATOR_REF_LIST_SIZE := 512;
  POOL_SUB_SLOT_ITERS := 37600000000; HF_BLOCK_REWARD := -1; HF_BLOCK_STAKING := -1 |}.

Definition sample_blocks : BlockchainInterface := BlockCache_interface (sample_cache 9).

Lemma sample_blocks_ok : cache_ok (sample_cache 9) ∧ cache_complete (sample_cache 9).
Proof. apply (bool_decide_eq_true_1 (_ ∧ _)). vm_compute. reflexivity. Qed.

Lemma next_difficulty_bounds_witness :
  get_next_difficulty small_constants sample_blocks 20 [0; 8] 9 7 0 false true 9000000 true = Ok 2
  ∧ ∃ prev_b pp,
    block_record sample_blocks [0; 8] = Ok prev_b ∧ block_record sample_blocks (prev_hash prev_b) = Ok pp
    ∧ let old := weight prev_b - weight pp in
      truncate_to_significant_bits (old / 3) 8 <= 2 ∧ 2 <= 3 * old ∧ (0 < old → 0 < 2)
      ∧ count_significant_bits 2 <= 8.
Proof.
  assert (H : get_next_difficulty small_constants sample_blocks 20 [0; 8] 9 7 0 false true 9000000 true = Ok 2)
    by (vm_compute; reflexivity).
  split; [exact H|].
  exact (next_difficulty_bounds small_constants sample_blocks 20 [0; 8] 9 7 0 false true 9000000 2
           ltac:(cbn; lia) ltac:(cbn; lia) ltac:(cbn; lia) H).
Defined.

Lemma next_sub_slot_iters_bounds_witness :
  ∃ r, get_next_sub_slot_iters small_constants sample_blocks 20 [0; 8] 9 (2 ^ 27) 0 false true 9000000 true = Ok r
  ∧ r mod 64 = 0.
Proof.
  eexists. split; [vm_compute; reflexivity|].
  destruct (next_sub_slot_iters_bounds small_constants sample_blocks 20 6 [0; 8] 9 (2 ^ 27) 0 false true 9000000 44564480
    ltac:(cbn; lia) ltac:(cbn; lia) ltac:(lia) eq_refl ltac:(cbn; lia) ltac:(vm_compute; reflexivity))
    as (? & ? & ? & _ & _ & H & _).
  exact H.
Defined.

Lemma no_adjustment_inside_sub_slot_witness :
  get_next_sub_slot_iters_and_difficulty small_constants sample_blocks 20 false (Some (sample_block 0 9))
    = Ok (2 ^ 27, 7)
  ∧ (2 ^ 27 = sub_slot_iters (sample_block 0 9)
     ∨ height (sample_block 0 9) + 1 < EPOCH_BLOCKS small_constants ∧ 2 ^ 27 = 2 ^ 27)
  ∧ (7 = weight (sample_block 0 9) - weight (sample_block 0 8)
     ∨ height (sample_block 0 9) + 1 < EPOCH_BLOCKS small_constants - 3 * MAX_SUB_SLOT_BLOCKS small_constants ∧ 7 = 7).
Proof.
  assert (H : get_next_sub_slot_iters_and_difficulty small_constants sample_blocks 20 false
                (Some (sample_block 0 9)) = Ok (2 ^ 27, 7)) by (vm_compute; reflexivity).
  split; [exact H|].
  exact (no_adjustment_inside_sub_slot small_constants sample_blocks 20 (sample_block 0 9) (sample_block 0 8)
           (2 ^ 27) 7 ltac:(discriminate) ltac:(vm_compute; reflexivity) H).
Defined.


Lemma get_blocks_at_height_fast_slow_witness :
  get_blocks_at_height sample_blocks 20 (sample_block 0 8) 3 4
    = slow_fetch sample_blocks 20 (sample_block 0 8) 3 4
  ∧ ∃ l, get_blocks_at_height sample_blocks 20 (sample_block 0 8) 3 4 = Ok l
         ∧ Forall2 (path_block sample_blocks) (seqZ 3 4) l.
Proof.
  destruct sample_blocks_ok as [Ho Hc].
  exact (get_blocks_at_height_fast_slow sample_blocks 20 (sample_block 0 8) 3 4
    (BlockCache_laws _ Ho) (BlockCache_path _ Ho) ltac:(vm_compute; reflexivity)
    ltac:(vm_compute; reflexivity) ltac:(lia) ltac:(lia) ltac:(cbn; lia) ltac:(cbn; lia)
    ltac:(vm_compute; lia)).
Defined.
