(* ===== verification/Errors.v ===== *)
(** * Error codes

    Models the [Err] enumeration of [chia/util/errors.py]. *)
From S2P Require Import Prelude.

Module Err.
Inductive t :=
  | DOES_NOT_EXTEND
  | BAD_HEADER_SIGNATURE
  | MISSING_FROM_STORAGE
  | INVALID_PROTOCOL_MESSAGE
  | SELF_CONNECTION
  | INVALID_HANDSHAKE
  | INVALID_ACK
  | INCOMPATIBLE_PROTOCOL_VERSION
  | DUPLICATE_CONNECTION
  | BLOCK_NOT_IN_BLOCKCHAIN
  | NO_PROOF_OF_SPACE_FOUND
  | PEERS_DONT_HAVE_BLOCK
  | MAX_INBOUND_CONNECTIONS_REACHED
  | UNKNOWN
  | INVALID_BLOCK_SOLUTION
  | INVALID_COIN_SOLUTION
  | DUPLICATE_OUTPUT
  | DOUBLE_SPEND
  | UNKNOWN_UNSPENT
  | BAD_AGGREGATE_SIGNATURE
  | WRONG_PUZZLE_HASH
  | BAD_FARMER_COIN_AMOUNT
  | INVALID_CONDITION
  | ASSERT_MY_COIN_ID_FAILED
  | ASSERT_ANNOUNCE_CONSUMED_FAILED
  | ASSERT_HEIGHT_RELATIVE_FAILED
  | ASSERT_HEIGHT_ABSOLUTE_FAILED
  | ASSERT_SECONDS_ABSOLUTE_FAILED
  | COIN_AMOUNT_EXCEEDS_MAXIMUM
  | SEXP_ERROR
  | INVALID_FEE_LOW_FEE
  | MEMPOOL_CONFLICT
  | MINTING_COIN
  | EXTENDS_UNKNOWN_BLOCK
  | COINBASE_NOT_YET_SPENDABLE
  | BLOCK_COST_EXCEEDS_MAX
  | BAD_ADDITION_ROOT
  | BAD_REMOVAL_ROOT
  | INVALID_POSPACE_HASH
  | INVALID_COINBASE_SIGNATURE
  | INVALID_PLOT_SIGNATURE
  | TIMESTAMP_TOO_FAR_IN_PAST
  | TIMESTAMP_TOO_FAR_IN_FUTURE
  | INVALID_TRANSACTIONS_FILTER_HASH
  | INVALID_POSPACE_CHALLENGE
  | INVALID_POSPACE
  | INVALID_HEIGHT
  | INVALID_COINBASE_AMOUNT
  | INVALID_MERKLE_ROOT
  | INVALID_BLOCK_FEE_AMOUNT
  | INVALID_WEIGHT
  | INVALID_TOTAL_ITERS
  | BLOCK_IS_NOT_FINISHED
  | INVALID_NUM_ITERATIONS
  | INVALID_POT
  | INVALID_POT_CHALLENGE
  | INVALID_TRANSACTIONS_GENERATOR_HASH
  | INVALID_POOL_TARGET
  | INVALID_COINBASE_PARENT
  | INVALID_FEES_COIN_PARENT
  | RESERVE_FEE_CONDITION_FAILED
  | NOT_BLOCK_BUT_HAS_DATA
  | IS_TRANSACTION_BLOCK_BUT_NO_DATA
  | INVALID_PREV_BLOCK_HASH
  | INVALID_TRANSACTIONS_INFO_HASH
  | INVALID_FOLIAGE_BLOCK_HASH
  | INVALID_REWARD_COINS
  | INVALID_BLOCK_COST
  | NO_END_OF_SLOT_INFO
  | INVALID_PREV_CHALLENGE_SLOT_HASH
  | INVALID_SUB_EPOCH_SUMMARY_HASH
  | NO_SUB_EPOCH_SUMMARY_HASH
  | SHOULD_NOT_MAKE_CHALLENGE_BLOCK
  | SHOULD_MAKE_CHALLENGE_BLOCK
  | INVALID_CHALLENGE_CHAIN_DATA
  | INVALID_CC_EOS_VDF
  | INVALID_RC_EOS_VDF
  | INVALID_CHALLENGE_SLOT_HASH_RC
  | INVALID_PRIOR_POINT_RC
  | INVALID_DEFICIT
  | INVALID_SUB_EPOCH_SUMMARY
  | INVALID_PREV_SUB_EPOCH_SUMMARY_HASH
  | INVALID_REWARD_CHAIN_HASH
  | INVALID_SUB_EPOCH_OVERFLOW
  | INVALID_NEW_DIFFICULTY
  | INVALID_NEW_SUB_SLOT_ITERS
  | INVALID_CC_SP_VDF
  | INVALID_RC_SP_VDF
  | INVALID_CC_SIGNATURE
  | INVALID_RC_SIGNATURE
  | CANNOT_MAKE_CC_BLOCK
  | INVALID_RC_SP_PREV_IP
  | INVALID_RC_IP_PREV_IP
  | INVALID_IS_TRANSACTION_BLOCK
  | INVALID_URSB_HASH
  | OLD_POOL_TARGET
  | INVALID_POOL_SIGNATURE
  | INVALID_FOLIAGE_BLOCK_PRESENCE
  | INVALID_CC_IP_VDF
  | INVALID_RC_IP_VDF
  | IP_SHOULD_BE_NONE
  | INVALID_REWARD_BLOCK_HASH
  | INVALID_MADE_NON_OVERFLOW_INFUSIONS
  | NO_OVERFLOWS_IN_FIRST_SUB_SLOT_NEW_EPOCH
  | MEMPOOL_NOT_INITIALIZED
  | SHOULD_NOT_HAVE_ICC
  | SHOULD_HAVE_ICC
  | INVALID_ICC_VDF
  | INVALID_ICC_HASH_CC
  | INVALID_ICC_HASH_RC
  | INVALID_ICC_EOS_VDF
  | INVALID_SP_INDEX
  | TOO_MANY_BLOCKS
  | INVALID_CC_CHALLENGE
  | INVALID_PREFARM
  | ASSERT_SECONDS_RELATIVE_FAILED
  | BAD_COINBASE_SIGNATURE
  | NO_TRANSACTIONS_WHILE_SYNCING
  | ALREADY_INCLUDING_TRANSACTION
  | INCOMPATIBLE_NETWORK_ID
  | PRE_SOFT_FORK_MAX_GENERATOR_SIZE
  | INVALID_REQUIRED_ITERS
  | TOO_MANY_GENERATOR_REFS
  | ASSERT_MY_PARENT_ID_FAILED
  | ASSERT_MY_PUZZLEHASH_FAILED
  | ASSERT_MY_AMOUNT_FAILED
  | GENERATOR_RUNTIME_ERROR
  | INVALID_COST_RESULT
  | INVALID_TRANSACTIONS_GENERATOR_REFS_ROOT
  | FUTURE_GENERATOR_REFS
  | GENERATOR_REF_HAS_NO_GENERATOR
  | DOUBLE_SPEND_IN_FORK
  | INVALID_FEE_TOO_CLOSE_TO_ZERO
  | COIN_AMOUNT_NEGATIVE
  | INTERNAL_PROTOCOL_ERROR
  | INVALID_SPEND_BUNDLE.

(** [Err.value] *)
Definition value (e : t) : Z :=
  match e with
  | DOES_NOT_EXTEND => -1
  | BAD_HEADER_SIGNATURE => -2
  | MISSING_FROM_STORAGE => -3
  | INVALID_PROTOCOL_MESSAGE => -4
  | SELF_CONNECTION => -5
  | INVALID_HANDSHAKE => -6
  | INVALID_ACK => -7
  | INCOMPATIBLE_PROTOCOL_VERSION => -8
  | DUPLICATE_CONNECTION => -9
  | BLOCK_NOT_IN_BLOCKCHAIN => -10
  | NO_PROOF_OF_SPACE_FOUND => -11
  | PEERS_DONT_HAVE_BLOCK => -12
  | MAX_INBOUND_CONNECTIONS_REACHED => -13
  | UNKNOWN => 1
  | INVALID_BLOCK_SOLUTION => 2
  | INVALID_COIN_SOLUTION => 3
  | DUPLICATE_OUTPUT => 4
  | DOUBLE_SPEND => 5
  | UNKNOWN_UNSPENT => 6
  | BAD_AGGREGATE_SIGNATURE => 7
  | WRONG_PUZZLE_HASH => 8
  | BAD_FARMER_COIN_AMOUNT => 9
  | INVALID_CONDITION => 10
  | ASSERT_MY_COIN_ID_FAILED => 11
  | ASSERT_ANNOUNCE_CONSUMED_FAILED => 12
  | ASSERT_HEIGHT_RELATIVE_FAILED => 13
  | ASSERT_HEIGHT_ABSOLUTE_FAILED => 14
  | ASSERT_SECONDS_ABSOLUTE_FAILED => 15
  | COIN_AMOUNT_EXCEEDS_MAXIMUM => 16
  | SEXP_ERROR => 17
  | INVALID_FEE_LOW_FEE => 18
  | MEMPOOL_CONFLICT => 19
  | MINTING_COIN => 20
  | EXTENDS_UNKNOWN_BLOCK => 21
  | COINBASE_NOT_YET_SPENDABLE => 22
  | BLOCK_COST_EXCEEDS_MAX => 23
  | BAD_ADDITION_ROOT => 24
  | BAD_REMOVAL_ROOT => 25
  | INVALID_POSPACE_HASH => 26
  | INVALID_COINBASE_SIGNATURE => 27
  | INVALID_PLOT_SIGNATURE => 28
  | TIMESTAMP_TOO_FAR_IN_PAST => 29
  | TIMESTAMP_TOO_FAR_IN_FUTURE => 30
  | INVALID_TRANSACTIONS_FILTER_HASH => 31
  | INVALID_POSPACE_CHALLENGE => 32
  | INVALID_POSPACE => 33
  | INVALID_HEIGHT => 34
  | INVALID_COINBASE_AMOUNT => 35
  | INVALID_MERKLE_ROOT => 36
  | INVALID_BLOCK_FEE_AMOUNT => 37
  | INVALID_WEIGHT => 38
  | INVALID_TOTAL_ITERS => 39
  | BLOCK_IS_NOT_FINISHED => 40
  | INVALID_NUM_ITERATIONS => 41
  | INVALID_POT => 42
  | INVALID_POT_CHALLENGE => 43
  | INVALID_TRANSACTIONS_GENERATOR_HASH => 44
  | INVALID_POOL_TARGET => 45
  | INVALID_COINBASE_PARENT => 46
  | INVALID_FEES_COIN_PARENT => 47
  | RESERVE_FEE_CONDITION_FAILED => 48
  | NOT_BLOCK_BUT_HAS_DATA => 49
  | IS_TRANSACTION_BLOCK_BUT_NO_DATA => 50
  | INVALID_PREV_BLOCK_HASH => 51
  | INVALID_TRANSACTIONS_INFO_HASH => 52
  | INVALID_FOLIAGE_BLOCK_HASH => 53
  | INVALID_REWARD_COINS => 54
  | INVALID_BLOCK_COST => 55
  | NO_END_OF_SLOT_INFO => 56
  | INVALID_PREV_CHALLENGE_SLOT_HASH => 57
  | INVALID_SUB_EPOCH_SUMMARY_HASH => 58
  | NO_SUB_EPOCH_SUMMARY_HASH => 59
  | SHOULD_NOT_MAKE_CHALLENGE_BLOCK => 60
  | SHOULD_MAKE_CHALLENGE_BLOCK => 61
  | INVALID_CHALLENGE_CHAIN_DATA => 62
  | INVALID_CC_EOS_VDF => 65
  | INVALID_RC_EOS_VDF => 66
  | INVALID_CHALLENGE_SLOT_HASH_RC => 67
  | INVALID_PRIOR_POINT_RC => 68
  | INVALID_DEFICIT => 69
  | INVALID_SUB_EPOCH_SUMMARY => 70
  | INVALID_PREV_SUB_EPOCH_SUMMARY_HASH => 71
  | INVALID_REWARD_CHAIN_HASH => 72
  | INVALID_SUB_EPOCH_OVERFLOW => 73
  | INVALID_NEW_DIFFICULTY => 74
  | INVALID_NEW_SUB_SLOT_ITERS => 75
  | INVALID_CC_SP_VDF => 76
  | INVALID_RC_SP_VDF => 77
  | INVALID_CC_SIGNATURE => 78
  | INVALID_RC_SIGNATURE => 79
  | CANNOT_MAKE_CC_BLOCK => 80
  | INVALID_RC_SP_PREV_IP => 81
  | INVALID_RC_IP_PREV_IP => 82
  | INVALID_IS_TRANSACTION_BLOCK => 83
  | INVALID_URSB_HASH => 84
  | OLD_POOL_TARGET => 85
  | INVALID_POOL_SIGNATURE => 86
  | INVALID_FOLIAGE_BLOCK_PRESENCE => 87
  | INVALID_CC_IP_VDF => 88
  | INVALID_RC_IP_VDF => 89
  | IP_SHOULD_BE_NONE => 90
  | INVALID_REWARD_BLOCK_HASH => 91
  | INVALID_MADE_NON_OVERFLOW_INFUSIONS => 92
  | NO_OVERFLOWS_IN_FIRST_SUB_SLOT_NEW_EPOCH => 93
  | MEMPOOL_NOT_INITIALIZED => 94
  | SHOULD_NOT_HAVE_ICC => 95
  | SHOULD_HAVE_ICC => 96
  | INVALID_ICC_VDF => 97
  | INVALID_ICC_HASH_CC => 98
  | INVALID_ICC_HASH_RC => 99
  | INVALID_ICC_EOS_VDF => 100
  | INVALID_SP_INDEX => 101
  | TOO_MANY_BLOCKS => 102
  | INVALID_CC_CHALLENGE => 103
  | INVALID_PREFARM => 104
  | ASSERT_SECONDS_RELATIVE_FAILED => 105
  | BAD_COINBASE_SIGNATURE => 106
  | NO_TRANSACTIONS_WHILE_SYNCING => 108
  | ALREADY_INCLUDING_TRANSACTION => 109
  | INCOMPATIBLE_NETWORK_ID => 110
  | PRE_SOFT_FORK_MAX_GENERATOR_SIZE => 111
  | INVALID_REQUIRED_ITERS => 112
  | TOO_MANY_GENERATOR_REFS => 113
  | ASSERT_MY_PARENT_ID_FAILED => 114
  | ASSERT_MY_PUZZLEHASH_FAILED => 115
  | ASSERT_MY_AMOUNT_FAILED => 116
  | GENERATOR_RUNTIME_ERROR => 117
  | INVALID_COST_RESULT => 118
  | INVALID_TRANSACTIONS_GENERATOR_REFS_ROOT => 119
  | FUTURE_GENERATOR_REFS => 120
  | GENERATOR_REF_HAS_NO_GENERATOR => 121
  | DOUBLE_SPEND_IN_FORK => 122
  | INVALID_FEE_TOO_CLOSE_TO_ZERO => 123
  | COIN_AMOUNT_NEGATIVE => 124
  | INTERNAL_PROTOCOL_ERROR => 125
  | INVALID_SPEND_BUNDLE => 126
  end.

Definition all : list t :=
  [DOES_NOT_EXTEND; BAD_HEADER_SIGNATURE; MISSING_FROM_STORAGE; INVALID_PROTOCOL_MESSAGE; SELF_CONNECTION; INVALID_HANDSHAKE; INVALID_ACK; INCOMPATIBLE_PROTOCOL_VERSION; DUPLICATE_CONNECTION; BLOCK_NOT_IN_BLOCKCHAIN; NO_PROOF_OF_SPACE_FOUND; PEERS_DONT_HAVE_BLOCK; MAX_INBOUND_CONNECTIONS_REACHED; UNKNOWN; INVALID_BLOCK_SOLUTION; INVALID_COIN_SOLUTION; DUPLICATE_OUTPUT; DOUBLE_SPEND; UNKNOWN_UNSPENT; BAD_AGGREGATE_SIGNATURE; WRONG_PUZZLE_HASH; BAD_FARMER_COIN_AMOUNT; INVALID_CONDITION; ASSERT_MY_COIN_ID_FAILED; ASSERT_ANNOUNCE_CONSUMED_FAILED; ASSERT_HEIGHT_RELATIVE_FAILED; ASSERT_HEIGHT_ABSOLUTE_FAILED; ASSERT_SECONDS_ABSOLUTE_FAILED; COIN_AMOUNT_EXCEEDS_MAXIMUM; SEXP_ERROR; INVALID_FEE_LOW_FEE; MEMPOOL_CONFLICT; MINTING_COIN; EXTENDS_UNKNOWN_BLOCK; COINBASE_NOT_YET_SPENDABLE; BLOCK_COST_EXCEEDS_MAX; BAD_ADDITION_ROOT; BAD_REMOVAL_ROOT; INVALID_POSPACE_HASH; INVALID_COINBASE_SIGNATURE; INVALID_PLOT_SIGNATURE; TIMESTAMP_TOO_FAR_IN_PAST; TIMESTAMP_TOO_FAR_IN_FUTURE; INVALID_TRANSACTIONS_FILTER_HASH; INVALID_POSPACE_CHALLENGE; INVALID_POSPACE; INVALID_HEIGHT; INVALID_COINBASE_AMOUNT; INVALID_MERKLE_ROOT; INVALID_BLOCK_FEE_AMOUNT; INVALID_WEIGHT; INVALID_TOTAL_ITERS; BLOCK_IS_NOT_FINISHED; INVALID_NUM_ITERATIONS; INVALID_POT; INVALID_POT_CHALLENGE; INVALID_TRANSACTIONS_GENERATOR_HASH; INVALID_POOL_TARGET; INVALID_COINBASE_PARENT; INVALID_FEES_COIN_PARENT; RESERVE_FEE_CONDITION_FAILED; NOT_BLOCK_BUT_HAS_DATA; IS_TRANSACTION_BLOCK_BUT_NO_DATA; INVALID_PREV_BLOCK_HASH; INVALID_TRANSACTIONS_INFO_HASH; INVALID_FOLIAGE_BLOCK_HASH; INVALID_REWARD_COINS; INVALID_BLOCK_COST; NO_END_OF_SLOT_INFO; INVALID_PREV_CHALLENGE_SLOT_HASH; INVALID_SUB_EPOCH_SUMMARY_HASH; NO_SUB_EPOCH_SUMMARY_HASH; SHOULD_NOT_MAKE_CHALLENGE_BLOCK; SHOULD_MAKE_CHALLENGE_BLOCK; INVALID_CHALLENGE_CHAIN_DATA; INVALID_CC_EOS_VDF; INVALID_RC_EOS_VDF; INVALID_CHALLENGE_SLOT_HASH_RC; INVALID_PRIOR_POINT_RC; INVALID_DEFICIT; INVALID_SUB_EPOCH_SUMMARY; INVALID_PREV_SUB_EPOCH_SUMMARY_HASH; INVALID_REWARD_CHAIN_HASH; INVALID_SUB_EPOCH_OVERFLOW; INVALID_NEW_DIFFICULTY; INVALID_NEW_SUB_SLOT_ITERS; INVALID_CC_SP_VDF; INVALID_RC_SP_VDF; INVALID_CC_SIGNATURE; INVALID_RC_SIGNATURE; CANNOT_MAKE_CC_BLOCK; INVALID_RC_SP_PREV_IP; INVALID_RC_IP_PREV_IP; INVALID_IS_TRANSACTION_BLOCK; INVALID_URSB_HASH; OLD_POOL_TARGET; INVALID_POOL_SIGNATURE; INVALID_FOLIAGE_BLOCK_PRESENCE; INVALID_CC_IP_VDF; INVALID_RC_IP_VDF; IP_SHOULD_BE_NONE; INVALID_REWARD_BLOCK_HASH; INVALID_MADE_NON_OVERFLOW_INFUSIONS; NO_OVERFLOWS_IN_FIRST_SUB_SLOT_NEW_EPOCH; MEMPOOL_NOT_INITIALIZED; SHOULD_NOT_HAVE_ICC; SHOULD_HAVE_ICC; INVALID_ICC_VDF; INVALID_ICC_HASH_CC; INVALID_ICC_HASH_RC; INVALID_ICC_EOS_VDF; INVALID_SP_INDEX; TOO_MANY_BLOCKS; INVALID_CC_CHALLENGE; INVALID_PREFARM; ASSERT_SECONDS_RELATIVE_FAILED; BAD_COINBASE_SIGNATURE; NO_TRANSACTIONS_WHILE_SYNCING; ALREADY_INCLUDING_TRANSACTION; INCOMPATIBLE_NETWORK_ID; PRE_SOFT_FORK_MAX_GENERATOR_SIZE; INVALID_REQUIRED_ITERS; TOO_MANY_GENERATOR_REFS; ASSERT_MY_PARENT_ID_FAILED; ASSERT_MY_PUZZLEHASH_FAILED; ASSERT_MY_AMOUNT_FAILED; GENERATOR_RUNTIME_ERROR; INVALID_COST_RESULT; INVALID_TRANSACTIONS_GENERATOR_REFS_ROOT; FUTURE_GENERATOR_REFS; GENERATOR_REF_HAS_NO_GENERATOR; DOUBLE_SPEND_IN_FORK; INVALID_FEE_TOO_CLOSE_TO_ZERO; COIN_AMOUNT_NEGATIVE; INTERNAL_PROTOCOL_ERROR; INVALID_SPEND_BUNDLE].

(** [Err(code)]: the member with the given value, [ValueError] when there is none *)
Definition of_value (code : Z) : res t :=
  of_opt ValueError (List.find (λ e, value e =? code) all).

(** Distinct members have distinct codes, so a code found in a stored result
    names the error that was stored. *)
Lemma of_value_value e : of_value (value e) = Ok e.
Proof. destruct e; reflexivity. Qed.

#[global] Instance value_inj : Inj (=) (=) value.
Proof.
  intros e e' E. pose proof (of_value_value e) as H. rewrite E, of_value_value in H. congruence.
Qed.
#[global] Instance t_eq_dec : EqDecision t := fun e e' =>
  match decide (value e = value e') with
  | left E => left (inj value _ _ E)
  | right N => right (fun E => N (f_equal value E))
  end.
End Err.
