(* ===== verification/Coins.v ===== *)
(** * Coins, conditions and what spends create

    Models [chia/types/blockchain_format/coin.py], [chia/types/coin_record.py],
    [chia/types/condition_opcodes.py], [condition_with_args.py],
    [name_puzzle_condition.py], [chia/consensus/coinbase.py],
    [condition_costs.py], [cost_calculator.py], [chia/util/condition_tools.py]
    (the parts on condition dictionaries), [chia/util/generator_tools.py] and the
    condition checks of [chia/full_node/mempool_check_conditions.py].

    The integer casts of the external [clvm] package are parameters. *)
From S2P Require Import Prelude PyInt PyFloat Consensus Errors.

(** [clvm.casts]: [int_to_bytes] and [int_from_bytes], which may raise. *)
Class ClvmCasts := {
  int_to_bytes : Z → bytes;
  int_from_bytes : bytes → res Z;
}.

Section Coins.
Context `{StdHash} `{ClvmCasts}.

(** [Coin.get_hash], [Coin.name] *)
Definition coin_name (c : Coin) : bytes :=
  std_hash (parent_coin_info c ++ puzzle_hash c ++ int_to_bytes (amount c)).
End Coins.

(** The constructor's type checks: two [bytes32] and a [uint64]. *)
Definition make_coin (parent ph : bytes) (amt : Z) : res Coin :=
  p ← sized_bytes_new 32 parent;
  h ← sized_bytes_new 32 ph;
  a ← uint64 amt;
  Ok {| parent_coin_info := p; puzzle_hash := h; amount := a |}.

(** ** [CoinRecord] *)
Record CoinRecord := {
  coin : Coin;
  confirmed_block_index : Z;
  spent_block_index : Z;
  spent : bool;
  coinbase : bool;
  cr_timestamp : Z;
}.
#[global] Instance CoinRecord_eq_dec : EqDecision CoinRecord.
Proof. solve_decision. Defined.

(** [chia/protocols/wallet_protocol.py] *)
Record CoinState := {
  cs_coin : Coin;
  spent_height : option Z;
  created_height : option Z;
}.
#[global] Instance CoinState_eq_dec : EqDecision CoinState.
Proof. solve_decision. Defined.

Definition coin_state (r : CoinRecord) : CoinState := {|
  cs_coin := coin r;
  spent_height := if spent r then Some (spent_block_index r) else None;
  created_height :=
    if (confirmed_block_index r =? 0) && (cr_timestamp r =? 0) then None
    else Some (confirmed_block_index r) |}.

(** ** Conditions *)
Inductive ConditionOpcode :=
  | AGG_SIG_UNSAFE | AGG_SIG_ME
  | CREATE_COIN | RESERVE_FEE
  | CREATE_COIN_ANNOUNCEMENT | ASSERT_COIN_ANNOUNCEMENT
  | CREATE_PUZZLE_ANNOUNCEMENT | ASSERT_PUZZLE_ANNOUNCEMENT
  | ASSERT_MY_COIN_ID | ASSERT_MY_PARENT_ID | ASSERT_MY_PUZZLEHASH | ASSERT_MY_AMOUNT
  | ASSERT_SECONDS_RELATIVE | ASSERT_SECONDS_ABSOLUTE
  | ASSERT_HEIGHT_RELATIVE | ASSERT_HEIGHT_ABSOLUTE.
#[global] Instance ConditionOpcode_eq_dec : EqDecision ConditionOpcode.
Proof. solve_decision. Defined.

Definition opcode_byte (o : ConditionOpcode) : Z :=
  match o with
  | AGG_SIG_UNSAFE => 49 | AGG_SIG_ME => 50 | CREATE_COIN => 51 | RESERVE_FEE => 52
  | CREATE_COIN_ANNOUNCEMENT => 60 | ASSERT_COIN_ANNOUNCEMENT => 61
  | CREATE_PUZZLE_ANNOUNCEMENT => 62 | ASSERT_PUZZLE_ANNOUNCEMENT => 63
  | ASSERT_MY_COIN_ID => 70 | ASSERT_MY_PARENT_ID => 71
  | ASSERT_MY_PUZZLEHASH => 72 | ASSERT_MY_AMOUNT => 73
  | ASSERT_SECONDS_RELATIVE => 80 | ASSERT_SECONDS_ABSOLUTE => 81
  | ASSERT_HEIGHT_RELATIVE => 82 | ASSERT_HEIGHT_ABSOLUTE => 83
  end.

Record ConditionWithArgs := {
  opcode : ConditionOpcode;
  vars : list bytes;
}.
#[global] Instance ConditionWithArgs_eq_dec : EqDecision ConditionWithArgs.
Proof. solve_decision. Defined.

Record NPC := {
  npc_coin_name : bytes;
  npc_puzzle_hash : bytes;
  conditions : list (ConditionOpcode * list ConditionWithArgs);
}.
#[global] Instance NPC_eq_dec : EqDecision NPC.
Proof. solve_decision. Defined.

Definition condition_dict (n : NPC) : res (dict ConditionOpcode (list ConditionWithArgs)) :=
  for_fold (λ d '(op, l), assert_ (negb (dmem op d)) ;; Ok (dset op l d)) [] (conditions n).

Definition conditions_by_opcode (cs : list ConditionWithArgs) : dict ConditionOpcode (list ConditionWithArgs) :=
  foldl (λ d cvp,
    let d := if dmem (opcode cvp) d then d else dset (opcode cvp) [] d in
    dset (opcode cvp) (default [] (dget (opcode cvp) d) ++ [cvp]) d) [] cs.

(** [NPCResult]; [npc_error] is an error code *)
Record NPCResult := {
  npc_error : option Z;
  npc_list : list NPC;
  clvm_cost : Z;
}.
#[global] Instance NPCResult_eq_dec : EqDecision NPCResult.
Proof. solve_decision. Defined.

(** [ConditionCost] *)
Definition condition_cost (o : ConditionOpcode) : Z :=
  match o with
  | AGG_SIG_UNSAFE | AGG_SIG_ME => 1200000
  | CREATE_COIN => 1800000
  | _ => 0
  end.

Definition calculate_cost_of_program (program : bytes) (npc_result : NPCResult) (cost_per_byte : Z) : res Z :=
  total ← for_fold (λ total_cost npc,
    d ← condition_dict npc;
    Ok (foldl (λ t '(condition, cvp_list), t + Z.of_nat (length (cvp_list : list ConditionWithArgs)) * condition_cost condition)
          total_cost d)) (clvm_cost npc_result) (npc_list npc_result);
  uint64 (total + Z.of_nat (length program) * cost_per_byte).

Section Outputs.
Context `{StdHash} `{ClvmCasts}.

Definition created_outputs_for_conditions_dict
    (conditions_dict : dict ConditionOpcode (list ConditionWithArgs)) (input_coin_name : bytes) : res (list Coin) :=
  for_each (λ cvp,
    ph ← py_index (vars cvp) 0;
    amount_bin ← py_index (vars cvp) 1;
    amt ← int_from_bytes amount_bin;
    a ← uint64 amt;
    make_coin input_coin_name ph a)
    (default [] (dget CREATE_COIN conditions_dict)).

Definition additions_for_npc (l : list NPC) : res (list Coin) :=
  for_fold (λ additions npc,
    d ← condition_dict npc;
    cs ← created_outputs_for_conditions_dict d (npc_coin_name npc);
    Ok (additions ++ cs)) [] l.

Definition tx_removals_and_additions (l : list NPC) : res (list bytes * list Coin) :=
  let removals := npc_coin_name <$> l in
  additions ← additions_for_npc l;
  Ok (removals, additions).

(** [pkm_pairs]: the public keys and messages the aggregate signature covers *)
Definition pkm_pair (npc : NPC) (additional_data : bytes) (me : bool) (cwa : ConditionWithArgs) : res (bytes * bytes) :=
  assert_ (bool_decide (length (vars cwa) = 2%nat)) ;;
  v0 ← py_index (vars cwa) 0;
  v1 ← py_index (vars cwa) 1;
  assert_ (bool_decide (length v0 = 48%nat) && (Z.of_nat (length v1) <=? 1024)) ;;
  pk ← sized_bytes_new 48 v0;
  Ok (pk, if me then v1 ++ npc_coin_name npc ++ additional_data else v1).

Definition pkm_pairs (l : list NPC) (additional_data : bytes) : res (list (bytes * bytes)) :=
  for_fold (λ ret npc,
    for_fold (λ ret '(op, cwas),
      match op with
      | AGG_SIG_UNSAFE => ps ← for_each (pkm_pair npc additional_data false) cwas; Ok (ret ++ ps)
      | AGG_SIG_ME => ps ← for_each (pkm_pair npc additional_data true) cwas; Ok (ret ++ ps)
      | _ => Ok ret
      end) ret (conditions npc)) [] l.

(** ** Condition checks against the chain state *)

Definition mempool_assert_absolute_block_height_exceeds (condition : ConditionWithArgs)
    (prev_transaction_block_height : Z) : res (option Err.t) :=
  v ← py_index (vars condition) 0;
  match int_from_bytes v with
  | Raise ValueError => Ok (Some Err.INVALID_CONDITION)
  | r =>
      block_index_exceeds_this ← r;
      Ok (if prev_transaction_block_height <? block_index_exceeds_this
          then Some Err.ASSERT_HEIGHT_ABSOLUTE_FAILED else None)
  end.

Definition mempool_assert_relative_block_height_exceeds (condition : ConditionWithArgs)
    (unspent : CoinRecord) (prev_transaction_block_height : Z) : res (option Err.t) :=
  v ← py_index (vars condition) 0;
  match int_from_bytes v with
  | Raise ValueError => Ok (Some Err.INVALID_CONDITION)
  | r =>
      expected_block_age ← r;
      let block_index_exceeds_this := expected_block_age + confirmed_block_index unspent in
      Ok (if prev_transaction_block_height <? block_index_exceeds_this
          then Some Err.ASSERT_HEIGHT_RELATIVE_FAILED else None)
  end.

Definition mempool_assert_absolute_time_exceeds (condition : ConditionWithArgs)
    (timestamp : Z) : res (option Err.t) :=
  v ← py_index (vars condition) 0;
  match int_from_bytes v with
  | Raise ValueError => Ok (Some Err.INVALID_CONDITION)
  | r =>
      expected_seconds ← r;
      Ok (if timestamp <? expected_seconds then Some Err.ASSERT_SECONDS_ABSOLUTE_FAILED else None)
  end.

Definition mempool_assert_relative_time_exceeds (condition : ConditionWithArgs)
    (unspent : CoinRecord) (timestamp : Z) : res (option Err.t) :=
  v ← py_index (vars condition) 0;
  match int_from_bytes v with
  | Raise ValueError => Ok (Some Err.INVALID_CONDITION)
  | r =>
      expected_seconds ← r;
      Ok (if timestamp <? expected_seconds + cr_timestamp unspent
          then Some Err.ASSERT_SECONDS_RELATIVE_FAILED else None)
  end.

(** One condition of [mempool_check_conditions_dict]; the conditions the
    generator has checked already must not appear. *)
Definition check_condition (unspent : CoinRecord) (prev_transaction_block_height timestamp : Z)
    (cvp : ConditionWithArgs) : res (option Err.t) :=
  match opcode cvp with
  | ASSERT_HEIGHT_ABSOLUTE => mempool_assert_absolute_block_height_exceeds cvp prev_transaction_block_height
  | ASSERT_HEIGHT_RELATIVE => mempool_assert_relative_block_height_exceeds cvp unspent prev_transaction_block_height
  | ASSERT_SECONDS_ABSOLUTE => mempool_assert_absolute_time_exceeds cvp timestamp
  | ASSERT_SECONDS_RELATIVE => mempool_assert_relative_time_exceeds cvp unspent timestamp
  | ASSERT_MY_COIN_ID | ASSERT_COIN_ANNOUNCEMENT | ASSERT_PUZZLE_ANNOUNCEMENT
  | ASSERT_MY_PARENT_ID | ASSERT_MY_PUZZLEHASH | ASSERT_MY_AMOUNT => Raise AssertionError
  | _ => Ok None
  end.

Fixpoint check_conditions (f : ConditionWithArgs → res (option Err.t)) (l : list ConditionWithArgs) : res (option Err.t) :=
  match l with
  | [] => Ok None
  | cvp :: l =>
      e ← f cvp;
      match e with Some err => Ok (Some err) | None => check_conditions f l end
  end.

Definition mempool_check_conditions_dict (unspent : CoinRecord)
    (conditions_dict : dict ConditionOpcode (list ConditionWithArgs))
    (prev_transaction_block_height timestamp : Z) : res (option Err.t) :=
  check_conditions (check_condition unspent prev_transaction_block_height timestamp)
    (concat conditions_dict.*2).
End Outputs.

(** ** Coinbase coins *)
Definition pool_parent_id (block_height : Z) (genesis_challenge : bytes) : res bytes :=
  h ← py_to_bytes 16 false block_height;
  sized_bytes_new 32 (take 16 genesis_challenge ++ h).
Definition farmer_parent_id (block_height : Z) (genesis_challenge : bytes) : res bytes :=
  h ← py_to_bytes 16 false block_height;
  sized_bytes_new 32 (drop 16 genesis_challenge ++ h).
Definition create_pool_coin (block_height : Z) (ph : bytes) (reward : Z) (genesis_challenge : bytes) : res Coin :=
  p ← pool_parent_id block_height genesis_challenge; make_coin p ph reward.
Definition create_farmer_coin (block_height : Z) (ph : bytes) (reward : Z) (genesis_challenge : bytes) : res Coin :=
  p ← farmer_parent_id block_height genesis_challenge; make_coin p ph reward.

(** ** Instances to evaluate the definitions on *)
#[export] Instance sample_clvm_casts : ClvmCasts :=
  {| int_to_bytes z := encode_be 9 z; int_from_bytes b := Ok (decode_be true b) |}.

(** A coin named after the numbers [i] and [j] *)
Definition sample_coin (i j a : Z) : Coin :=
  {| parent_coin_info := encode_be 32 i; puzzle_hash := encode_be 32 j; amount := a |}.

(** ** Time locks *)
Section TimeLocks.
Context `{StdHash} `{ClvmCasts}.
Context (u : CoinRecord) (h t h' t' : Z) (Hh : h <= h') (Ht : t <= t').

Lemma lock_later (e : Err.t) (a b x : Z) :
  a <= b → Ok (if a <? x then Some e else None) = Ok None → Ok (if b <? x then Some e else None) = Ok (A := option Err.t) None.
Proof. intros Hab. destruct (Z.ltb_spec a x), (Z.ltb_spec b x); done || lia. Qed.

Lemma check_condition_later cvp :
  check_condition u h t cvp = Ok None → check_condition u h' t' cvp = Ok None.
Proof.
  unfold check_condition, mempool_assert_absolute_block_height_exceeds,
    mempool_assert_relative_block_height_exceeds, mempool_assert_absolute_time_exceeds,
    mempool_assert_relative_time_exceeds.
  destruct (opcode cvp); try done; destruct (py_index (vars cvp) 0) as [v|e|]; try done;
    cbn [mbind res_bind]; destruct (int_from_bytes v) as [x|[]|]; try done;
    cbn [mbind res_bind]; apply lock_later; done.
Qed.

Lemma check_conditions_later l :
  check_conditions (check_condition u h t) l = Ok None →
  check_conditions (check_condition u h' t') l = Ok None.
Proof.
  induction l as [|cvp l IH]; [done|]. cbn [check_conditions]. intros Hc.
  destruct (check_condition u h t cvp) as [[e|]| |] eqn:E; try done.
  rewrite (check_condition_later _ E). apply IH, Hc.
Qed.
End TimeLocks.

(** The conditions of a spend that hold at a peak hold at every later one: all
    of them are lower bounds on the height and the timestamp.  Re-checking the
    conditions when the peak advances is unnecessary, as [new_peak] of the
    mempool assumes. *)
Theorem conditions_stay_satisfied `{ClvmCasts} (u : CoinRecord)
    (d : dict ConditionOpcode (list ConditionWithArgs)) (h t h' t' : Z) :
  h <= h' → t <= t' →
  mempool_check_conditions_dict u d h t = Ok None → mempool_check_conditions_dict u d h' t' = Ok None.
Proof. intros Hh Ht. apply check_conditions_later; done. Qed.

Definition sample_coin_record : CoinRecord := {|
  coin := sample_coin 1 2 50; confirmed_block_index := 10; spent_block_index := 0; spent := false;
  coinbase := false; cr_timestamp := 1000 |}.

Definition sample_conditions : dict ConditionOpcode (list ConditionWithArgs) :=
  [(ASSERT_HEIGHT_RELATIVE, [{| opcode := ASSERT_HEIGHT_RELATIVE; vars := [[5]] |}]);
   (ASSERT_SECONDS_ABSOLUTE, [{| opcode := ASSERT_SECONDS_ABSOLUTE; vars := [[4; 0]] |}])].

Lemma conditions_stay_satisfied_witness :
  mempool_check_conditions_dict sample_coin_record sample_conditions 14 1100
    = Ok (Some Err.ASSERT_HEIGHT_RELATIVE_FAILED)
  ∧ mempool_check_conditions_dict sample_coin_record sample_conditions 15 1100 = Ok None
  ∧ mempool_check_conditions_dict sample_coin_record sample_conditions 16 1200 = Ok None.
Proof.
  split_and!; [reflexivity|reflexivity|].
  apply (conditions_stay_satisfied sample_coin_record sample_conditions 15 1100 16 1200);
    [lia|lia|reflexivity].
Defined.

(** ** Reward coins *)
Lemma parent_id_inv half bh p :
  (h ← py_to_bytes 16 false bh; sized_bytes_new 32 (half ++ h)) = Ok p →
  0 <= bh < 2 ^ 128 ∧ p = half ++ encode_be 16 bh ∧ length half = 16%nat.
Proof.
  unfold py_to_bytes, sized_bytes_new. intros E. res_inv. zbool.
  rewrite length_app, encode_be_length in *. cbn [fits] in *. zbool. split_and!; done || lia.
Qed.

Lemma parent_id_inj half half' bh bh' :
  0 <= bh < 2 ^ 128 → 0 <= bh' < 2 ^ 128 → length half = length half' →
  half ++ encode_be 16 bh = half' ++ encode_be 16 bh' → half = half' ∧ bh = bh'.
Proof.
  intros Hb Hb' Hl E. apply app_inj_1 in E as [-> E]; [|done]. split; [done|].
  rewrite <- (decode_encode_be 16 false bh), <- (decode_encode_be 16 false bh') by
    (lia || (cbn; apply andb_true_intro; rewrite Z.leb_le, Z.ltb_lt; lia)). by rewrite E.
Qed.

(** The parent identifiers of the reward coins never collide: they determine
    the height of the block and, when the two halves of the genesis challenge
    differ, whether the coin is the pool's or the farmer's. *)
Theorem reward_parents_distinct (g : bytes) (h h' : Z) (p p' : bytes) :
  (pool_parent_id h g = Ok p → pool_parent_id h' g = Ok p' → p = p' → h = h')
  ∧ (farmer_parent_id h g = Ok p → farmer_parent_id h' g = Ok p' → p = p' → h = h')
  ∧ (pool_parent_id h g = Ok p → farmer_parent_id h' g = Ok p' → take 16 g ≠ drop 16 g → p ≠ p').
Proof.
  unfold pool_parent_id, farmer_parent_id.
  split_and!; intros (Hb&->&Hl)%parent_id_inv (Hb'&->&Hl')%parent_id_inv.
  - intros E. by destruct (parent_id_inj (take 16 g) (take 16 g) h h' Hb Hb' eq_refl E).
  - intros E. by destruct (parent_id_inj (drop 16 g) (drop 16 g) h h' Hb Hb' eq_refl E).
  - intros Hg E. apply Hg. refine (proj1 (parent_id_inj _ _ h h' Hb Hb' _ E)). congruence.
Qed.

Lemma reward_parents_distinct_witness :
  let g := GENESIS_CHALLENGE DEFAULT_CONSTANTS in
  ∃ p p', pool_parent_id 7 g = Ok p ∧ farmer_parent_id 7 g = Ok p' ∧ take 16 g ≠ drop 16 g ∧ p ≠ p'.
Proof.
  intros g. eexists _, _. split; [vm_compute; reflexivity|]. split; [vm_compute; reflexivity|].
  assert (Hg : take 16 g ≠ drop 16 g) by (apply (bool_decide_unpack _); vm_compute; exact I).
  split; [exact Hg|].
  apply (proj2 (proj2 (reward_parents_distinct g 7 7 _ _))); [vm_compute; reflexivity..|exact Hg].
Defined.
