(* ===== verification/CoinStore.v ===== *)
(** * The coin store

    Models [chia/util/lru_cache.py] and [chia/full_node/coin_store.py]: the
    database table of coin records, the least-recently-used cache in front of
    it, the updates made when a block is added and when the chain is rolled
    back, and the queries.

    The table is a finite map from the text of the primary key to a row; text
    columns hold the hexadecimal form of byte strings and the amount its
    eight-byte encoding, as in the code.  The integers of a row are unbounded; SQLite
    raises an exception for one of 2^63 or more.  SQL fixes no order for the rows of a
    query, so the theorems speak about membership in the results. *)
From S2P Require Import Prelude PyInt Consensus Coins.

(** ** [LRUCache] *)
Record LRUCache (K V : Type) := mk_LRUCache { cache : dict K V; capacity : Z }.
Arguments mk_LRUCache {K V} cache capacity.
Arguments cache {K V} l.
Arguments capacity {K V} l.

Section LRU.
Context {K V : Type} `{EqDecision K}.
Implicit Types (c : LRUCache K V) (k : K) (v : V).

(** [self.cache.move_to_end(key)] for a key that is present *)
Definition move_to_end (k : K) (d : dict K V) : dict K V :=
  match dget k d with
  | Some v => dremove k d ++ [(k, v)]
  | None => d
  end.

Definition lru_get (k : K) (c : LRUCache K V) : option V * LRUCache K V :=
  if dmem k (cache c) then
    let d := move_to_end k (cache c) in
    (dget k d, mk_LRUCache d (capacity c))
  else (None, c).

Definition lru_put (k : K) (v : V) (c : LRUCache K V) : LRUCache K V :=
  let d := move_to_end k (dset k v (cache c)) in
  mk_LRUCache (if capacity c <? Z.of_nat (length d) then tail d else d) (capacity c).

Definition lru_remove (k : K) (c : LRUCache K V) : res (LRUCache K V) :=
  d ← ddel k (cache c); Ok (mk_LRUCache d (capacity c)).

Definition lru_wf (c : LRUCache K V) : Prop :=
  dict_wf (cache c) ∧ Z.of_nat (length (cache c)) <= Z.max 0 (capacity c).
End LRU.

(** ** Hexadecimal text: [bytes.hex] and [bytes.fromhex] *)
Definition text : Type := list Z.

Definition hex_digit (d : Z) : Z := if d <? 10 then 48 + d else 87 + d.
Definition hex (b : bytes) : text := b ≫= λ x, [hex_digit (x / 16); hex_digit (x mod 16)].

Definition hex_value (c : Z) : option Z :=
  if (48 <=? c) && (c <=? 57) then Some (c - 48)
  else if (97 <=? c) && (c <=? 102) then Some (c - 87)
  else if (65 <=? c) && (c <=? 70) then Some (c - 55)
  else None.
Definition is_space (c : Z) : bool := (c =? 32) || ((9 <=? c) && (c <=? 13)).

Fixpoint fromhex (t : text) : res bytes :=
  match t with
  | [] => Ok []
  | c :: t' =>
      if is_space c then fromhex t'
      else match hex_value c, t' with
           | Some h, d :: t'' =>
               match hex_value d with
               | Some l => r ← fromhex t''; Ok (16 * h + l :: r)
               | None => Raise ValueError
               end
           | _, _ => Raise ValueError
           end
  end.

(** ** The table [coin_record] *)
Record Row := {
  coin_name_text : text;
  confirmed_index : Z;
  spent_index : Z;
  row_spent : Z;
  row_coinbase : Z;
  row_puzzle_hash : text;
  coin_parent : text;
  row_amount : bytes;
  row_timestamp : Z;
}.

Record CoinStore := {
  coin_record_db : gmap text Row;
  coin_record_cache : LRUCache bytes CoinRecord;
  cache_size : Z;
}.

Definition set_db (db : gmap text Row) (s : CoinStore) : CoinStore :=
  {| coin_record_db := db; coin_record_cache := coin_record_cache s; cache_size := cache_size s |}.
Definition set_cache (c : LRUCache bytes CoinRecord) (s : CoinStore) : CoinStore :=
  {| coin_record_db := coin_record_db s; coin_record_cache := c; cache_size := cache_size s |}.

(** [CoinStore.create] on a database that may hold the table already *)
Definition coin_store_create (db : gmap text Row) (size : Z) : CoinStore :=
  {| coin_record_db := db; coin_record_cache := mk_LRUCache [] size; cache_size := size |}.

Definition py_bool (i : Z) : bool := negb (i =? 0).
Definition int_of_bool (b : bool) : Z := if b then 1 else 0.

Definition row_to_coin (row : Row) : res Coin :=
  p ← fromhex (coin_parent row); p ← sized_bytes_new 32 p;
  h ← fromhex (row_puzzle_hash row); h ← sized_bytes_new 32 h;
  a ← StructStream_from_bytes PQ (row_amount row);
  make_coin p h a.

Definition row_to_coin_state (row : Row) : res CoinState :=
  c ← row_to_coin row;
  Ok {| cs_coin := c;
        spent_height := if py_bool (row_spent row) then Some (spent_index row) else None;
        created_height := Some (confirmed_index row) |}.

(** [CoinRecord(self.row_to_coin(row), row[1], row[2], row[3], row[4], row[8])];
    the integers 0 and 1 of the table stand for the booleans. *)
Definition row_to_record (row : Row) : res CoinRecord :=
  c ← row_to_coin row;
  Ok {| coin := c; confirmed_block_index := confirmed_index row;
        spent_block_index := spent_index row; spent := py_bool (row_spent row);
        coinbase := py_bool (row_coinbase row); cr_timestamp := row_timestamp row |}.

(** [SELECT * FROM coin_record WHERE p], [DELETE ... WHERE p] and
    [UPDATE ... SET f WHERE p] *)
Definition select (p : Row → bool) (s : CoinStore) : list Row :=
  (map_to_list (filter (λ kr, p kr.2 = true) (coin_record_db s))).*2.
Definition delete_where (p : Row → bool) (s : CoinStore) : CoinStore :=
  set_db (filter (λ kr, p kr.2 = false) (coin_record_db s)) s.
Definition update_where (p : Row → bool) (f : Row → Row) (s : CoinStore) : CoinStore :=
  set_db ((λ r, if p r then f r else r) <$> coin_record_db s) s.

Section Store.
Context `{StdHash} `{ClvmCasts}.

Definition record_values (r : CoinRecord) : res Row :=
  a ← StructStream_stream PQ (amount (coin r));
  Ok {| coin_name_text := hex (coin_name (coin r));
        confirmed_index := confirmed_block_index r;
        spent_index := spent_block_index r;
        row_spent := int_of_bool (spent r);
        row_coinbase := int_of_bool (coinbase r);
        row_puzzle_hash := hex (puzzle_hash (coin r));
        coin_parent := hex (parent_coin_info (coin r));
        row_amount := a;
        row_timestamp := cr_timestamp r |}.

(** [INSERT INTO coin_record VALUES ...]; the primary key is unique *)
Definition insert_row (row : Row) : ST CoinStore unit := fun s =>
  match coin_record_db s !! coin_name_text row with
  | Some _ => (Raise IntegrityError, s)
  | None => (Ok tt, set_db (<[coin_name_text row := row]> (coin_record_db s)) s)
  end.

Definition add_coin_records (records : list CoinRecord) : ST CoinStore unit :=
  values ← st_each (λ record,
    st_modify (λ s, set_cache (lru_put (coin_name (coin record)) record (coin_record_cache s)) s) ;;
    st_res (record_values record)) records;
  st_for insert_row values.

Definition mark_spent (index : Z) (r : CoinRecord) : CoinRecord :=
  {| coin := coin r; confirmed_block_index := confirmed_block_index r; spent_block_index := index;
     spent := true; coinbase := coinbase r; cr_timestamp := cr_timestamp r |}.
Definition row_mark_spent (index : Z) (r : Row) : Row :=
  {| coin_name_text := coin_name_text r; confirmed_index := confirmed_index r; spent_index := index;
     row_spent := 1; row_coinbase := row_coinbase r; row_puzzle_hash := row_puzzle_hash r;
     coin_parent := coin_parent r; row_amount := row_amount r; row_timestamp := row_timestamp r |}.

Definition set_spent (coin_names : list bytes) (index : Z) : ST CoinStore unit :=
  st_for (λ name, st_modify (λ s,
    let '(r, c) := lru_get name (coin_record_cache s) in
    let c := match r with
             | Some r => lru_put (coin_name (coin r)) (mark_spent index r) c
             | None => c
             end in
    set_cache c s)) coin_names ;;
  st_for (λ name, st_modify (λ s,
    set_db (alter (row_mark_spent index) (hex name) (coin_record_db s)) s)) coin_names.

Definition new_record (height timestamp : Z) (reward : bool) (c : Coin) : CoinRecord :=
  {| coin := c; confirmed_block_index := height; spent_block_index := 0; spent := false;
     coinbase := reward; cr_timestamp := timestamp |}.

(** [included_reward_coins] is a set: a list without repetition, in the order
    of its iteration. *)
Definition new_block (height timestamp : Z) (included_reward_coins tx_additions : list Coin)
    (tx_removals : list bytes) : ST CoinStore (list CoinRecord) :=
  let n := Z.of_nat (length included_reward_coins) in
  st_res (assert_ (if height =? 0 then n =? 0 else 2 <=? n)) ;;
  let additions := (new_record height timestamp false <$> tx_additions)
                   ++ (new_record height timestamp true <$> included_reward_coins) in
  add_coin_records additions ;;
  set_spent tx_removals height ;;
  mret additions.

Definition get_coin_record (name : bytes) : ST CoinStore (option CoinRecord) := fun s =>
  let '(cached, c) := lru_get name (coin_record_cache s) in
  let s := set_cache c s in
  match cached with
  | Some r => (Ok (Some r), s)
  | None =>
      match coin_record_db s !! hex name with
      | Some row =>
          match row_to_record row with
          | Ok r => (Ok (Some r), set_cache (lru_put (coin_name (coin r)) r (coin_record_cache s)) s)
          | Raise e => (Raise e, s)
          | OutOfFuel => (OutOfFuel, s)
          end
      | None => (Ok None, s)
      end
  end.

(** The queries.  A Python set of results becomes a list without repetition. *)
Definition records_where (p : Row → bool) (s : CoinStore) : res (list CoinRecord) :=
  for_each row_to_record (select p s).
Definition record_set_where (p : Row → bool) (s : CoinStore) : res (list CoinRecord) :=
  l ← records_where p s; Ok (remove_dups l).
Definition state_set_where (p : Row → bool) (s : CoinStore) : res (list CoinState) :=
  l ← for_each row_to_coin_state (select p s); Ok (remove_dups l).

Definition get_coins_added_at_height (h : Z) : CoinStore → res (list CoinRecord) :=
  records_where (λ r, confirmed_index r =? h).

Definition get_coins_removed_at_height (h : Z) (s : CoinStore) : res (list CoinRecord) :=
  if h =? 0 then Ok []
  else records_where (λ r, (spent_index r =? h) && py_bool (row_spent r)) s.

(** [AND confirmed_index>=? AND confirmed_index<? {'' if include_spent_coins else 'AND spent=0'}] *)
Definition in_range (include_spent_coins : bool) (start_height end_height : Z) (r : Row) : bool :=
  (start_height <=? confirmed_index r) && (confirmed_index r <? end_height)
  && (include_spent_coins || (row_spent r =? 0)).
Definition in_texts (t : text) (l : list bytes) : bool := bool_decide (t ∈ hex <$> l).

Definition get_coin_records_by_puzzle_hash (inc : bool) (ph : bytes) (start_h end_h : Z) :=
  record_set_where (λ r, bool_decide (row_puzzle_hash r = hex ph) && in_range inc start_h end_h r).
Definition get_coin_records_by_puzzle_hashes (inc : bool) (phs : list bytes) (start_h end_h : Z) (s : CoinStore) :=
  if bool_decide (phs = []) then Ok []
  else record_set_where (λ r, in_texts (row_puzzle_hash r) phs && in_range inc start_h end_h r) s.
Definition get_coin_records_by_names (inc : bool) (names : list bytes) (start_h end_h : Z) (s : CoinStore) :=
  if bool_decide (names = []) then Ok []
  else record_set_where (λ r, in_texts (coin_name_text r) names && in_range inc start_h end_h r) s.
Definition get_coin_records_by_parent_ids (inc : bool) (ids : list bytes) (start_h end_h : Z) (s : CoinStore) :=
  if bool_decide (ids = []) then Ok []
  else record_set_where (λ r, in_texts (coin_parent r) ids && in_range inc start_h end_h r) s.
Definition get_coin_states_by_puzzle_hashes (inc : bool) (phs : list bytes) (start_h end_h : Z) (s : CoinStore) :=
  if bool_decide (phs = []) then Ok []
  else state_set_where (λ r, in_texts (row_puzzle_hash r) phs && in_range inc start_h end_h r) s.
Definition get_coin_state_by_ids (inc : bool) (ids : list bytes) (start_h end_h : Z) (s : CoinStore) :=
  if bool_decide (ids = []) then Ok []
  else state_set_where (λ r, in_texts (coin_name_text r) ids && in_range inc start_h end_h r) s.
Definition get_unspent_coins_before_height (ph : bytes) (h : Z) :=
  record_set_where (λ r, bool_decide (row_puzzle_hash r = hex ph) && (confirmed_index r <? h)
                         && ((row_spent r =? 0) || (h <=? spent_index r))).

(** ** [rollback_to_block] *)
Definition mark_unspent (r : CoinRecord) : CoinRecord :=
  {| coin := coin r; confirmed_block_index := confirmed_block_index r; spent_block_index := 0;
     spent := false; coinbase := coinbase r; cr_timestamp := cr_timestamp r |}.
Definition row_mark_unspent (r : Row) : Row :=
  {| coin_name_text := coin_name_text r; confirmed_index := confirmed_index r; spent_index := 0;
     row_spent := 0; row_coinbase := row_coinbase r; row_puzzle_hash := row_puzzle_hash r;
     coin_parent := coin_parent r; row_amount := row_amount r; row_timestamp := row_timestamp r |}.

(** The loop over a snapshot of the cache, then the removals it has queued *)
Definition rollback_cache (block_index : Z) : ST CoinStore unit :=
  s ← st_get;
  let items := cache (coin_record_cache s) in
  st_for (λ '(_, r),
    if block_index <? spent_block_index r then
      st_modify (λ s, set_cache (lru_put (coin_name (coin r)) (mark_unspent r) (coin_record_cache s)) s)
    else mret tt) items ;;
  st_for (λ '(name, _) s,
    match lru_remove name (coin_record_cache s) with
    | Ok c => (Ok tt, set_cache c s)
    | Raise e => (Raise e, s)
    | OutOfFuel => (OutOfFuel, s)
    end) (filter (λ kr, block_index <? confirmed_block_index kr.2 = true) items).

Definition deleted_record (r : CoinRecord) : CoinRecord :=
  {| coin := coin r; confirmed_block_index := 0; spent_block_index := spent_block_index r;
     spent := spent r; coinbase := coinbase r; cr_timestamp := 0 |}.

Definition rollback_to_block (block_index : Z) : ST CoinStore (list CoinRecord) :=
  rollback_cache block_index ;;
  s ← st_get;
  changes ← st_res (for_fold (λ d row,
    r ← row_to_record row;
    Ok (dset (coin_name (coin r)) (deleted_record r) d))
    [] (select (λ r, block_index <? confirmed_index r) s));
  st_modify (delete_where (λ r, block_index <? confirmed_index r)) ;;
  s ← st_get;
  changes ← st_res (for_fold (λ d row,
    r ← row_to_record row;
    let r := mark_unspent r in
    Ok (if dmem (coin_name (coin r)) d then d else dset (coin_name (coin r)) r d))
    changes (select (λ r, block_index <? confirmed_index r) s));
  st_modify (update_where (λ r, block_index <? spent_index r) row_mark_unspent) ;;
  mret (changes : dict bytes CoinRecord).*2.
End Store.

(** ** The cache *)
Section LRUFacts.
Context {K V : Type} `{EqDecision K}.
Implicit Types (d : dict K V) (c : LRUCache K V) (k : K) (v : V).

Lemma dremove_dset d k v : dremove k (dset k v d) = dremove k d.
Proof.
  induction d as [|[j w] d IH]; cbn; [by rewrite decide_True|].
  case_decide; cbn; case_decide; simplify_eq; try done. by rewrite IH.
Qed.

Lemma dremove_app_wf d k v : dict_wf d → dict_wf (dremove k d ++ [(k, v)]).
Proof.
  intros Hd. unfold dict_wf. rewrite fmap_app. apply NoDup_app. split_and!.
  - by apply dremove_wf.
  - intros x Hx Hk. cbn in Hk. apply list_elem_of_singleton in Hk as ->.
    apply dmem_true in Hx. unfold dmem in Hx. rewrite dget_dremove, decide_True in Hx; done.
  - apply NoDup_singleton.
Qed.

Lemma dget_recent d k v k' : dict_wf d →
  dget k' (dremove k d ++ [(k, v)]) = if decide (k' = k) then Some v else dget k' d.
Proof.
  intros Hd. rewrite dget_app, dget_dremove by done. cbn. case_decide; [done|].
  by destruct (dget k' d).
Qed.

Lemma dget_tail d k v : dict_wf d → dget k (tail d) = Some v → dget k d = Some v.
Proof.
  destruct d as [|[j w] d]; cbn; [done|]. unfold dict_wf. cbn. rewrite NoDup_cons.
  intros [Hj _] Hk. case_decide; [|done]. subst.
  apply dget_Some_in in Hk. destruct Hj. apply list_elem_of_fmap. by eexists (j, v).
Qed.

Lemma tail_wf d : dict_wf d → dict_wf (tail d).
Proof. destruct d as [|[j w] d]; [done|]. unfold dict_wf; cbn. by rewrite NoDup_cons; intros []. Qed.

Lemma lru_get_spec k c : lru_wf c →
  ∃ c', lru_get k c = (dget k (cache c), c') ∧ lru_wf c' ∧ capacity c' = capacity c
        ∧ ∀ k', dget k' (cache c') = dget k' (cache c).
Proof.
  intros [Hd Hl]. unfold lru_get, move_to_end. destruct (dmem k (cache c)) eqn:Hm.
  - destruct (dget k (cache c)) as [v|] eqn:Hg; [|unfold dmem in Hm; by rewrite Hg in Hm].
    assert (Hk : ∀ k', dget k' (dremove k (cache c) ++ [(k, v)]) = dget k' (cache c)).
    { intros k'. rewrite dget_recent by done. by case_decide; subst. }
    eexists. rewrite Hk, Hg. split_and!; [done| |done|done]. split; [by apply dremove_app_wf|].
    cbn. rewrite length_app. cbn. pose proof (dremove_length (cache c) k). rewrite Hg in *.
    specialize (H ltac:(eauto)). lia.
  - apply dmem_false in Hm. rewrite Hm. eexists. split_and!; done.
Qed.

(** [put] makes the key the most recent one and then evicts the oldest entry
    if the capacity is exceeded. *)
Lemma lru_put_eq k v c :
  lru_put k v c =
    let d := dremove k (cache c) ++ [(k, v)] in
    mk_LRUCache (if capacity c <? Z.of_nat (length d) then tail d else d) (capacity c).
Proof. unfold lru_put, move_to_end. by rewrite dget_dset_eq, dremove_dset. Qed.

Lemma lru_put_wf k v c : lru_wf c → lru_wf (lru_put k v c).
Proof.
  intros [Hd Hl]. rewrite lru_put_eq. cbn. pose proof (dremove_app_wf (cache c) k v Hd) as Hw.
  destruct (Z.ltb_spec (capacity c) (Z.of_nat (length (dremove k (cache c) ++ [(k, v)])))) as [Hc|Hc].
  - split; cbn; [by apply tail_wf|].
    pose proof (dremove_length_le (cache c) k).
    assert (Ht : ∀ l : dict K V, length (tail l) = (length l - 1)%nat) by (intros []; cbn; lia).
    rewrite Ht, length_app. cbn. lia.
  - split; [done|]. cbn. lia.
Qed.

Lemma lru_put_capacity k v c : capacity (lru_put k v c) = capacity c.
Proof. done. Qed.

(** Whatever [put] leaves in the cache is the new entry or an old one. *)
Lemma lru_put_dget k v c k' v' : lru_wf c →
  dget k' (cache (lru_put k v c)) = Some v' →
  if decide (k' = k) then v' = v else dget k' (cache c) = Some v'.
Proof.
  intros [Hd Hl]. rewrite lru_put_eq. cbn. pose proof (dremove_app_wf (cache c) k v Hd) as Hw.
  intros Hg. assert (dget k' (dremove k (cache c) ++ [(k, v)]) = Some v') as Hg'.
  { destruct (_ <? _); [by apply dget_tail|done]. }
  rewrite dget_recent in Hg' by done. case_decide; congruence.
Qed.

(** A key that is cached already is updated without evicting anything. *)
Lemma lru_put_existing k v c k' : lru_wf c → is_Some (dget k (cache c)) →
  dget k' (cache (lru_put k v c)) = if decide (k' = k) then Some v else dget k' (cache c).
Proof.
  intros [Hd Hl] Hk. rewrite lru_put_eq. cbn. rewrite (proj2 (Z.ltb_ge _ _)).
  - by apply dget_recent.
  - rewrite length_app. cbn. pose proof (dremove_length _ _ Hk). lia.
Qed.
End LRUFacts.

(** ** Text columns *)
#[global] Instance hex_digit_inj : Inj (=) (=) hex_digit.
Proof.
  intros a b. unfold hex_digit. destruct (Z.ltb_spec a 10), (Z.ltb_spec b 10); lia.
Qed.

#[global] Instance hex_inj : Inj (=) (=) hex.
Proof.
  intros a. induction a as [|x a IH]; intros [|y b]; cbn; [done|done|done|].
  intros E. injection E as E1 E2 E3. apply (inj hex_digit) in E1. apply (inj hex_digit) in E2.
  f_equal; [|by apply IH]. rewrite (Z.div_mod x 16), (Z.div_mod y 16) by lia. lia.
Qed.

Lemma hex_value_digit d : 0 <= d < 16 →
  hex_value (hex_digit d) = Some d ∧ is_space (hex_digit d) = false.
Proof.
  intros Hd. assert (d ∈ seqZ 0 16) as Hin by (apply elem_of_seqZ; lia).
  clear Hd. revert d Hin. apply list.Forall_forall. repeat (constructor; [by vm_compute|]). constructor.
Qed.

Lemma fromhex_hex b : is_bytes b → fromhex (hex b) = Ok b.
Proof.
  induction 1 as [|x b Hx Hb IH]; [done|]. unfold is_byte in Hx.
  destruct (hex_value_digit (x / 16)) as [Hv Hs].
  { split; [apply Z.div_pos; lia|]. apply Z.div_lt_upper_bound; lia. }
  destruct (hex_value_digit (x mod 16)) as [Hv' _]; [by apply Z.mod_pos_bound|].
  change (hex (x :: b)) with (hex_digit (x / 16) :: hex_digit (x mod 16) :: hex b).
  cbn [fromhex]. rewrite Hs, Hv, Hv', IH. cbn. do 2 f_equal.
  rewrite (Z.div_mod x 16) at 3 by lia. done.
Qed.

(** ** What the store promises

    Abstractly the store is a finite map from coin names to records.  [new_block]
    adds records and marks others spent; [rollback] drops what was confirmed
    after a height and makes unspent what was spent after it. *)
Notation abs_store := (gmap bytes CoinRecord).

Definition abs_rollback (i : Z) (m : abs_store) : abs_store :=
  (λ r, if i <? spent_block_index r then mark_unspent r else r)
    <$> filter (λ nr, (i <? confirmed_block_index nr.2) = false) m.

Definition abs_spend (h : Z) (names : list bytes) (m : abs_store) : abs_store :=
  foldl (λ m n, alter (mark_spent h) n m) m names.

Record coin_ok (c : Coin) : Prop := {
  ck_parent : is_bytes (parent_coin_info c) ∧ length (parent_coin_info c) = 32%nat;
  ck_puzzle : is_bytes (puzzle_hash c) ∧ length (puzzle_hash c) = 32%nat;
  ck_amount : 0 <= amount c < 2 ^ 64;
}.
#[global] Instance coin_ok_dec c : Decision (coin_ok c).
Proof.
  refine (cast_if (decide ((is_bytes (parent_coin_info c) ∧ length (parent_coin_info c) = 32%nat)
    ∧ (is_bytes (puzzle_hash c) ∧ length (puzzle_hash c) = 32%nat) ∧ 0 <= amount c < 2 ^ 64)));
    [abstract (split; tauto) | abstract (intros []; tauto)].
Defined.

(** An unspent record carries the spent index 0. *)
Definition record_ok (r : CoinRecord) : Prop :=
  coin_ok (coin r) ∧ (spent r = false → spent_block_index r = 0).

Section Refinement.
Context `{StdHash} `{ClvmCasts}.
Implicit Types (s : CoinStore) (m : abs_store) (r : CoinRecord) (n : bytes).

Definition row_of (r : CoinRecord) : Row :=
  {| coin_name_text := hex (coin_name (coin r)); confirmed_index := confirmed_block_index r;
     spent_index := spent_block_index r; row_spent := int_of_bool (spent r);
     row_coinbase := int_of_bool (coinbase r); row_puzzle_hash := hex (puzzle_hash (coin r));
     coin_parent := hex (parent_coin_info (coin r));
     row_amount := encode_be 8 (amount (coin r)); row_timestamp := cr_timestamp r |}.

Definition table (m : abs_store) : gmap text Row := kmap hex (row_of <$> m).

(** The store [s] implements the map [m]: the table holds exactly the rows of
    the records of [m], and every cached record is the one of [m]. *)
Record implements (s : CoinStore) (m : abs_store) : Prop := {
  im_db : coin_record_db s = table m;
  im_records : ∀ n r, m !! n = Some r → n = coin_name (coin r) ∧ record_ok r;
  im_lru : lru_wf (coin_record_cache s);
  im_cache : ∀ n r, dget n (cache (coin_record_cache s)) = Some r → m !! n = Some r;
}.

Lemma table_lookup m n : table m !! hex n = row_of <$> m !! n.
Proof. unfold table. rewrite (lookup_kmap hex (row_of <$> m) n). by rewrite lookup_fmap. Qed.

Lemma table_insert m n r : table (<[n := r]> m) = <[hex n := row_of r]> (table m).
Proof. unfold table. rewrite fmap_insert. by rewrite (kmap_insert hex (row_of <$> m)). Qed.

Lemma table_spend m n h : table (alter (mark_spent h) n m) = alter (row_mark_spent h) (hex n) (table m).
Proof. unfold table. rewrite (fmap_alter _ _ (row_mark_spent h)) by done. by rewrite (kmap_alter hex). Qed.

Lemma table_filter (p : Row → bool) (q : CoinRecord → bool) b m :
  (∀ r, p (row_of r) = q r) →
  filter (λ kr, p kr.2 = b) (table m) = table (filter (λ nr, q nr.2 = b) m).
Proof.
  intros Hpq. apply map_eq. intros t. apply option_eq. intros row.
  rewrite map_lookup_filter_Some. unfold table. rewrite !lookup_kmap_Some by apply _.
  setoid_rewrite lookup_fmap_Some. setoid_rewrite map_lookup_filter_Some. cbn. split.
  - intros [(n&->&r&<-&Hn) Hp]. rewrite Hpq in Hp. naive_solver.
  - intros (n&->&r&<-&Hn&Hq). rewrite Hpq. naive_solver.
Qed.

Lemma table_fmap (f : Row → Row) (g : CoinRecord → CoinRecord) m :
  (∀ r, f (row_of r) = row_of (g r)) → f <$> table m = table (g <$> m).
Proof.
  intros Hfg. apply map_eq. intros t. apply option_eq. intros row.
  rewrite lookup_fmap_Some. unfold table. setoid_rewrite lookup_kmap_Some; [|apply _..].
  setoid_rewrite lookup_fmap_Some. setoid_rewrite lookup_fmap_Some.
  split; [|naive_solver]. intros (?&<-&n&->&r&<-&Hn). rewrite Hfg. naive_solver.
Qed.

Lemma py_bool_int b : py_bool (int_of_bool b) = b.
Proof. by destruct b. Qed.

Lemma stream_amount a : 0 <= a < 2 ^ 64 → StructStream_stream PQ a = Ok (encode_be 8 a).
Proof.
  intros Ha. unfold StructStream_stream, struct_pack. cbn [calcsize pack_signed fits].
  rewrite (proj2 (Z.leb_le _ _)), (proj2 (Z.ltb_lt _ _)) by (cbn; lia). done.
Qed.

(** A stored row reads back as the record it was made from. *)
Lemma row_to_coin_row_of r : coin_ok (coin r) → row_to_coin (row_of r) = Ok (coin r).
Proof.
  intros [[Hp Hpl] [Hh Hhl] Ha]. unfold row_to_coin. cbn [coin_parent row_puzzle_hash row_amount row_of].
  rewrite (fromhex_hex _ Hp), (fromhex_hex _ Hh). unfold make_coin, sized_bytes_new. cbn [mbind res_bind].
  rewrite !bool_decide_true by done. cbn [mbind res_bind negb].
  rewrite (StructStream_from_bytes_stream PQ (amount (coin r))) by by rewrite stream_amount.
  cbn [mbind res_bind]. rewrite !bool_decide_true by done. cbn [mbind res_bind negb].
  rewrite uint64_in by done.
  by destruct (coin r).
Qed.

Lemma row_to_record_row_of r : coin_ok (coin r) → row_to_record (row_of r) = Ok r.
Proof.
  intros Hr. unfold row_to_record. rewrite row_to_coin_row_of by done. cbn.
  rewrite !py_bool_int. by destruct r.
Qed.

Lemma record_values_row_of r : coin_ok (coin r) → record_values r = Ok (row_of r).
Proof. intros [_ _ Ha]. unfold record_values. by rewrite stream_amount. Qed.

Lemma get_coin_record_ok s m n : implements s m →
  ∃ s', get_coin_record n s = (Ok (m !! n), s') ∧ implements s' m.
Proof.
  intros [Hdb Hrec Hlru Hc]. unfold get_coin_record.
  destruct (lru_get_spec n _ Hlru) as (c'&->&Hwf&Hcap&Hget).
  destruct (dget n (cache (coin_record_cache s))) as [r|] eqn:Hn.
  - rewrite (Hc _ _ Hn). eexists. split; [done|]. split; cbn; [done|done|done|].
    intros ??. rewrite Hget. apply Hc.
  - cbn [coin_record_db set_cache]. rewrite Hdb, table_lookup.
    destruct (m !! n) as [r|] eqn:Hm; cbn [fmap option_fmap option_map].
    + destruct (Hrec _ _ Hm) as [-> Hr]. rewrite row_to_record_row_of by apply Hr.
      eexists. split; [done|]. split; cbn [coin_record_db coin_record_cache set_cache];
        [done|done|by apply lru_put_wf|].
      intros n' r' Hg. apply lru_put_dget in Hg; [|done]. case_decide; [by subst|].
      rewrite Hget in Hg. by apply Hc.
    + eexists. split; [done|]. split; cbn; [done|done|done|].
      intros ??. rewrite Hget. apply Hc.
Qed.

(** Adding records *)
Definition abs_add (rs : list CoinRecord) (m : abs_store) : abs_store :=
  foldl (λ m r, <[coin_name (coin r) := r]> m) m rs.

(** The part of the invariant about the cache, while the table lags behind *)
Definition cache_in (c : LRUCache bytes CoinRecord) (m : abs_store) : Prop :=
  lru_wf c ∧ ∀ n r, dget n (cache c) = Some r → m !! n = Some r.

Lemma cache_in_put c m n r : cache_in c m → cache_in (lru_put n r c) (<[n := r]> m).
Proof.
  intros [Hw Hc]. split; [by apply lru_put_wf|]. intros n' r' Hg.
  apply lru_put_dget in Hg; [|done]. case_decide as E.
  - subst. by rewrite lookup_insert_eq.
  - rewrite lookup_insert_ne by done. by apply Hc.
Qed.

Lemma add_cache_ok rs s m :
  Forall (λ r, coin_ok (coin r)) rs → cache_in (coin_record_cache s) m →
  ∃ s', st_each (λ record,
          st_modify (λ s, set_cache (lru_put (coin_name (coin record)) record (coin_record_cache s)) s) ;;
          st_res (record_values record)) rs s = (Ok (row_of <$> rs), s')
        ∧ coin_record_db s' = coin_record_db s
        ∧ cache_in (coin_record_cache s') (abs_add rs m).
Proof.
  intros Hrs. revert s m. induction Hrs as [|r rs Hr Hrs IH]; intros s m Hc; [by eexists|].
  cbn [st_each]. set (s1 := set_cache (lru_put (coin_name (coin r)) r (coin_record_cache s)) s).
  destruct (IH s1 (<[coin_name (coin r) := r]> m)) as (s2&E&Hdb&Hc'); [by apply cache_in_put|].
  exists s2. split_and!; [|done|done].
  erewrite st_bind_Ok; [|erewrite st_bind_Ok; [|by apply st_modify_eq];
    by apply st_res_Ok, record_values_row_of].
  by erewrite st_bind_Ok.
Qed.

Lemma insert_rows_ok rs s m :
  coin_record_db s = table m → NoDup (coin_name ∘ coin <$> rs) →
  (∀ r, r ∈ rs → m !! coin_name (coin r) = None) →
  ∃ s', st_for insert_row (row_of <$> rs) s = (Ok tt, s')
        ∧ coin_record_db s' = table (abs_add rs m) ∧ coin_record_cache s' = coin_record_cache s.
Proof.
  revert s m. induction rs as [|r rs IH]; intros s m Hdb Hnd Hf; [by eexists|]. cbn in Hnd.
  apply NoDup_cons in Hnd as [Hr Hnd]. cbn [fmap list_fmap st_for].
  edestruct (IH (set_db (<[hex (coin_name (coin r)) := row_of r]> (coin_record_db s)) s)
    (<[coin_name (coin r) := r]> m)) as (s2&E&Hdb2&Hc2).
  - cbn. by rewrite table_insert, Hdb.
  - done.
  - intros r' Hr'. rewrite lookup_insert_ne; [apply Hf; set_solver|].
    intros E. apply Hr. rewrite E. apply list_elem_of_fmap. by exists r'.
  - exists s2. split_and!; [|done|done]. erewrite st_bind_Ok; [done|].
    unfold insert_row. cbn [coin_name_text row_of]. rewrite Hdb, table_lookup, Hf by set_solver.
    done.
Qed.

Lemma abs_add_records rs m :
  Forall record_ok rs → (∀ n r, m !! n = Some r → n = coin_name (coin r) ∧ record_ok r) →
  ∀ n r, abs_add rs m !! n = Some r → n = coin_name (coin r) ∧ record_ok r.
Proof.
  intros Hrs. revert m. induction Hrs as [|r rs Hr Hrs IH]; intros m Hm; [done|].
  cbn. apply IH. intros n r' Hn. apply lookup_insert_Some in Hn as [[<- <-]|[_ Hn]]; [done|by apply Hm].
Qed.

Lemma add_coin_records_ok rs s m :
  implements s m → Forall record_ok rs → NoDup (coin_name ∘ coin <$> rs) →
  (∀ r, r ∈ rs → m !! coin_name (coin r) = None) →
  ∃ s', add_coin_records rs s = (Ok tt, s') ∧ implements s' (abs_add rs m).
Proof.
  intros [Hdb Hrec Hlru Hc] Hrs Hnd Hf. unfold add_coin_records.
  destruct (add_cache_ok rs s m) as (s1&E1&Hdb1&Hw1&Hc1);
    [by eapply Forall_impl; [done|intros ? []]|done|].
  rewrite (st_bind_Ok _ _ _ _ _ E1).
  destruct (insert_rows_ok rs s1 m) as (s2&E2&Hdb2&Hc2); [by rewrite Hdb1|done|done|].
  exists s2. split; [done|]. rewrite <- Hc2 in *.
  split; [done|by apply abs_add_records|done|done].
Qed.

(** Marking coins spent *)
Lemma spend_cache_ok names h s m :
  cache_in (coin_record_cache s) m → (∀ n r, m !! n = Some r → n = coin_name (coin r)) →
  ∃ s', st_for (λ name, st_modify (λ s,
          let '(r, c) := lru_get name (coin_record_cache s) in
          let c := match r with
                   | Some r => lru_put (coin_name (coin r)) (mark_spent h r) c
                   | None => c
                   end in
          set_cache c s)) names s = (Ok tt, s')
        ∧ coin_record_db s' = coin_record_db s
        ∧ cache_in (coin_record_cache s') (abs_spend h names m).
Proof.
  revert s m. induction names as [|n names IH]; intros s m [Hw Hc] Hm; [by eexists|].
  cbn [st_for]. set (f := λ s : CoinStore, let '(r, c) := lru_get n _ in _).
  assert (Hf : coin_record_db (f s) = coin_record_db s
    ∧ cache_in (coin_record_cache (f s)) (alter (mark_spent h) n m)).
  { unfold f. destruct (lru_get_spec n _ Hw) as (c'&->&Hw'&_&Hget). split; [done|]. cbn.
    assert (Hc' : cache_in c' m) by (split; [done|intros ??; rewrite Hget; apply Hc]).
    destruct (dget n (cache (coin_record_cache s))) as [r|] eqn:Hn.
    - apply Hc in Hn. rewrite <- (Hm _ _ Hn). apply (cache_in_put _ _ n (mark_spent h r)) in Hc'.
      replace (alter (mark_spent h) n m) with (<[n := mark_spent h r]> m); [done|].
      apply map_eq. intros i. destruct (decide (i = n)) as [->|].
      + by rewrite lookup_insert_eq, lookup_alter_eq, Hn.
      + by rewrite lookup_insert_ne, lookup_alter_ne.
    - split; [done|]. intros i r Hi. rewrite Hget in Hi. destruct (decide (i = n)) as [->|]; [congruence|].
      rewrite lookup_alter_ne by done. by apply Hc. }
  destruct Hf as [Hdb Hc1]. destruct (IH (f s) (alter (mark_spent h) n m)) as (s2&E&Hdb2&Hc2).
  - done.
  - intros i r Hi. apply lookup_alter_Some in Hi as [(->&r0&Hr0&->)|[_ Hi]]; cbn; by apply Hm.
  - exists s2. split_and!; [|congruence|done]. by erewrite st_bind_Ok.
Qed.

Lemma spend_rows_ok names h s m :
  coin_record_db s = table m →
  ∃ s', st_for (λ name, st_modify (λ s,
          set_db (alter (row_mark_spent h) (hex name) (coin_record_db s)) s)) names s = (Ok tt, s')
        ∧ coin_record_db s' = table (abs_spend h names m) ∧ coin_record_cache s' = coin_record_cache s.
Proof.
  revert s m. induction names as [|n names IH]; intros s m Hdb; [by eexists|]. cbn [st_for].
  edestruct (IH (set_db (alter (row_mark_spent h) (hex n) (coin_record_db s)) s)) as (s2&E&?&?).
  { cbn. by rewrite Hdb, <- table_spend. }
  exists s2. split_and!; [|done|done]. by erewrite st_bind_Ok.
Qed.

Lemma abs_spend_records names h m :
  (∀ n r, m !! n = Some r → n = coin_name (coin r) ∧ record_ok r) →
  ∀ n r, abs_spend h names m !! n = Some r → n = coin_name (coin r) ∧ record_ok r.
Proof.
  revert m. induction names as [|n names IH]; intros m Hm; [done|]. apply IH. intros i r Hi.
  apply lookup_alter_Some in Hi as [(->&r0&Hr0&->)|[_ Hi]]; [|by apply Hm].
  destruct (Hm _ _ Hr0) as [-> [Hr _]]. by split.
Qed.

Lemma set_spent_ok names h s m :
  implements s m → ∃ s', set_spent names h s = (Ok tt, s') ∧ implements s' (abs_spend h names m).
Proof.
  intros [Hdb Hrec Hlru Hc]. unfold set_spent.
  destruct (spend_cache_ok names h s m) as (s1&E1&Hdb1&Hw1&Hc1); [done|naive_solver|].
  rewrite (st_bind_Ok _ _ _ _ _ E1).
  destruct (spend_rows_ok names h s1 m) as (s2&E2&Hdb2&Hc2); [by rewrite Hdb1|].
  exists s2. split; [done|]. rewrite <- Hc2 in *.
  split; [done|by apply abs_spend_records|done|done].
Qed.

(** Rolling back: the cache *)
Definition unspend_after (i : Z) (r : CoinRecord) : CoinRecord :=
  if i <? spent_block_index r then mark_unspent r else r.

Lemma rollback_cache_loop i s (items : dict bytes CoinRecord) :
  items = cache (coin_record_cache s) → lru_wf (coin_record_cache s) →
  (∀ n r, dget n items = Some r → n = coin_name (coin r)) →
  ∃ s', st_for (λ '(_, r),
          if i <? spent_block_index r then
            st_modify (λ s, set_cache (lru_put (coin_name (coin r)) (mark_unspent r) (coin_record_cache s)) s)
          else mret tt) items s = (Ok tt, s')
        ∧ coin_record_db s' = coin_record_db s ∧ lru_wf (coin_record_cache s')
        ∧ ∀ n, dget n (cache (coin_record_cache s')) = unspend_after i <$> dget n items.
Proof.
  intros Hi Hw Hn. assert (Hwf : dict_wf items) by (subst; apply Hw).
  set (g (l1 : dict bytes CoinRecord) n := if decide (n ∈ l1.*1) then unspend_after i <$> dget n items else dget n items).
  destruct (st_for_total (λ '(_, r),
      if i <? spent_block_index r then
        st_modify (λ s, set_cache (lru_put (coin_name (coin r)) (mark_unspent r) (coin_record_cache s)) s)
      else mret tt)
    (λ (l1 : dict bytes CoinRecord) s', coin_record_db s' = coin_record_db s ∧ lru_wf (coin_record_cache s')
      ∧ ∀ n, dget n (cache (coin_record_cache s')) = g l1 n) items s) as (s'&E&Hdb&Hw'&Hg).
  - intros l1 [n r] l2 s1 Hl (Hdb&Hw1&Hg). assert (Hr : dget n items = Some r).
    { apply dget_in_wf; [done|]. rewrite Hl. set_solver. }
    assert (Hstep : ∀ n', g (l1 ++ [(n, r)]) n'
      = if decide (n' = n) then Some (unspend_after i r) else g l1 n').
    { intros n'. unfold g. rewrite fmap_app. cbn. destruct (decide (n' = n)) as [->|].
      - rewrite Hr, decide_True by set_solver. done.
      - destruct (decide (n' ∈ l1.*1)); [rewrite decide_True by set_solver|rewrite decide_False by set_solver]; done. }
    assert (Hnr : g l1 n = Some r).
    { unfold g. rewrite decide_False; [done|]. intros Hin. rewrite Hl in Hwf. unfold dict_wf in Hwf.
      rewrite fmap_app in Hwf. apply NoDup_app in Hwf as (_&Hd&_). apply (Hd n Hin). cbn. set_solver. }
    rewrite <- (Hn _ _ Hr). unfold unspend_after in Hstep. destruct (i <? spent_block_index r).
    + eexists. split; [done|]. split_and!; [done|by apply lru_put_wf|]. intros n'. cbn [coin_record_cache set_cache].
      rewrite lru_put_existing by (done || rewrite Hg, Hnr; eauto). by rewrite Hstep, Hg.
    + eexists. split; [done|]. split_and!; [done|done|]. intros n'. rewrite Hstep, Hg.
      case_decide; [by subst|done].
  - split_and!; [done|done|]. intros n. unfold g. rewrite decide_False by set_solver. by rewrite <- Hi.
  - exists s'. split_and!; [done|done|done|]. intros n. rewrite Hg. unfold g.
    case_decide as Hd; [done|]. apply dget_None in Hd. by rewrite Hd.
Qed.

Lemma rollback_cache_ok i s m : implements s m →
  ∃ s', rollback_cache i s = (Ok tt, s') ∧ coin_record_db s' = coin_record_db s
        ∧ cache_in (coin_record_cache s') (abs_rollback i m).
Proof.
  intros [Hdb Hrec Hlru Hc]. unfold rollback_cache. rewrite (st_bind_Ok _ _ _ _ _ (st_get_eq s)).
  set (items := cache (coin_record_cache s)).
  destruct (rollback_cache_loop i s items) as (s1&E1&Hdb1&Hw1&Hg1);
    [done|done|intros n r Hn; by apply (Hrec n r), Hc|].
  rewrite (st_bind_Ok _ _ _ _ _ E1). assert (Hwf : dict_wf items) by apply Hlru.
  set (queue := filter _ items).
  assert (Hsub : queue.*1 `sublist_of` items.*1) by apply fmap_sublist, sublist_filter.
  assert (Hnd : NoDup queue.*1) by by eapply sublist_NoDup.
  destruct (st_for_total (λ '(name, _) s,
    match lru_remove name (coin_record_cache s) with
    | Ok c => (Ok tt, set_cache c s) | Raise e => (Raise e, s) | OutOfFuel => (OutOfFuel, s)
    end) (λ (l1 : dict bytes CoinRecord) s', coin_record_db s' = coin_record_db s ∧ lru_wf (coin_record_cache s')
      ∧ ∀ n, dget n (cache (coin_record_cache s'))
             = if decide (n ∈ l1.*1) then None else unspend_after i <$> dget n items) queue s1)
    as (s2&E2&Hdb2&Hw2&Hg2).
  - intros l1 [n r] l2 s2 Hl (Hdb2&[Hw2 Hcap]&Hg2). rewrite Hl, fmap_app in Hnd.
    apply NoDup_app in Hnd as (_&Hd&_).
    assert (Hr : dget n items = Some r).
    { apply dget_in_wf; [done|]. assert ((n, r) ∈ queue) as Hq by (rewrite Hl; set_solver).
      by apply list_elem_of_filter in Hq as [_ Hq]. }
    assert (Hn2 : dget n (cache (coin_record_cache s2)) = Some (unspend_after i r)).
    { rewrite Hg2, decide_False, Hr; [done|]. intros Hin. apply (Hd n Hin). cbn. set_solver. }
    unfold lru_remove, ddel, dmem. rewrite Hn2. eexists. split; [done|]. split_and!; [done| |].
    + split; cbn; [by apply dremove_wf|]. pose proof (dremove_length_le (cache (coin_record_cache s2)) n). lia.
    + intros n'. cbn. rewrite dget_dremove, Hg2, fmap_app by done. cbn.
      destruct (decide (n' = n)); [by rewrite decide_True by set_solver|].
      destruct (decide (n' ∈ l1.*1)); [rewrite decide_True by set_solver|rewrite decide_False by set_solver]; done.
  - split_and!; [done|done|]. intros n. rewrite decide_False by set_solver. apply Hg1.
  - exists s2. split_and!; [done|done|]. split; [done|]. intros n r Hn. rewrite Hg2 in Hn.
    case_decide as Hq; [done|]. apply fmap_Some in Hn as (r0&Hr0&->).
    unfold abs_rollback. rewrite lookup_fmap. fold (unspend_after i).
    rewrite (proj2 (map_lookup_filter_Some _ m n r0)); [done|]. split; [by apply Hc|]. cbn.
    destruct (i <? confirmed_block_index r0) eqn:Hi; [|done]. destruct Hq.
    apply list_elem_of_fmap. exists (n, r0). split; [done|]. apply list_elem_of_filter.
    split; [done|by apply dget_Some_in].
Qed.

(** ** Queries *)
Definition records_named (m : abs_store) : Prop :=
  ∀ n r, m !! n = Some r → n = coin_name (coin r) ∧ record_ok r.

(** The rows a query selects are those of the records with the queried
    property, each once. *)
Lemma select_ok (p : Row → bool) (q : CoinRecord → bool) s m :
  coin_record_db s = table m → records_named m → (∀ r, p (row_of r) = q r) →
  ∃ l, select p s = row_of <$> l ∧ NoDup l
       ∧ ∀ r, r ∈ l ↔ m !! coin_name (coin r) = Some r ∧ q r = true.
Proof.
  intros Hdb Hm Hpq. unfold select. rewrite Hdb, (table_filter p q true) by done.
  set (f := filter _ m).
  assert (Hf : ∀ n r, (n, r) ∈ map_to_list f ↔ m !! n = Some r ∧ q r = true).
  { intros n r. rewrite elem_of_map_to_list. unfold f. by rewrite map_lookup_filter_Some. }
  assert ((map_to_list (table f)).*2 ≡ₚ map row_of (map_to_list f).*2) as Hp.
  { unfold table. rewrite (map_to_list_kmap hex), map_to_list_fmap, <- !list_fmap_compose. done. }
  apply Permutation_map_inv in Hp as (l&El&Hl). exists l. split_and!; [done| |].
  - rewrite <- Hl. apply NoDup_fmap_2_strong; [|apply NoDup_map_to_list].
    intros [n r] [n' r'] [Hn _]%Hf [Hn' _]%Hf E. cbn in E. subst r'.
    apply Hm in Hn as [-> _]. apply Hm in Hn' as [-> _]. done.
  - intros r. rewrite <- Hl, list_elem_of_fmap. split.
    + intros ([n r']&->&Hin%Hf). destruct Hin as [Hn Hq]. destruct (Hm _ _ Hn) as [-> _]. done.
    + intros Hr. exists (coin_name (coin r), r). split; [done|]. by apply Hf.
Qed.

Lemma for_each_rows {A} (f : Row → res A) (g : CoinRecord → A) l :
  (∀ r, r ∈ l → f (row_of r) = Ok (g r)) → for_each f (row_of <$> l) = Ok (g <$> l).
Proof.
  induction l as [|r l IH]; intros Hf; [done|]. cbn. rewrite Hf by set_solver. cbn.
  by rewrite IH by set_solver.
Qed.

Lemma records_where_ok (p : Row → bool) (q : CoinRecord → bool) s m :
  implements s m → (∀ r, p (row_of r) = q r) →
  ∃ l, records_where p s = Ok l ∧ NoDup l
       ∧ ∀ r, r ∈ l ↔ m !! coin_name (coin r) = Some r ∧ q r = true.
Proof.
  intros [Hdb Hm _ _] Hpq. destruct (select_ok p q s m) as (l&E&Hnd&Hl); [done|done|done|].
  exists l. split_and!; [|done|done]. unfold records_where. rewrite E.
  rewrite (for_each_rows _ id), list_fmap_id; [done|]. intros r [Hr _]%Hl.
  apply row_to_record_row_of. by apply Hm in Hr as [_ [Hr _]].
Qed.

Lemma record_set_where_ok (p : Row → bool) (q : CoinRecord → bool) s m :
  implements s m → (∀ r, p (row_of r) = q r) →
  ∃ l, record_set_where p s = Ok l ∧ NoDup l
       ∧ ∀ r, r ∈ l ↔ m !! coin_name (coin r) = Some r ∧ q r = true.
Proof.
  intros Hi Hpq. destruct (records_where_ok p q s m Hi Hpq) as (l&E&Hnd&Hl).
  unfold record_set_where. rewrite E. cbn. exists (remove_dups l).
  split_and!; [done|apply NoDup_remove_dups|]. intros r. by rewrite elem_of_remove_dups.
Qed.

(** ** Rolling back *)
Lemma deleted_changes_ok l d :
  Forall (λ r, coin_ok (coin r)) l → NoDup (coin_name ∘ coin <$> l) →
  (∀ r, r ∈ l → dget (coin_name (coin r)) d = None) →
  for_fold (λ d row, r ← row_to_record row; Ok (dset (coin_name (coin r)) (deleted_record r) d))
    d (row_of <$> l) = Ok (d ++ ((λ r, (coin_name (coin r), deleted_record r)) <$> l)).
Proof.
  intros Hl. revert d. induction Hl as [|r l Hr Hl IH]; intros d Hnd Hd; [by cbn; rewrite app_nil_r|].
  cbn [fmap list_fmap for_fold] in *. apply NoDup_cons in Hnd as [Hn Hnd]. rewrite row_to_record_row_of by done. cbn [mbind res_bind].
  rewrite dset_fresh by (apply Hd; set_solver). rewrite IH; [by rewrite <- app_assoc|done|].
  intros r' Hr'. rewrite dget_app, Hd by set_solver. cbn. rewrite decide_False; [done|].
  intros E. apply Hn. apply list_elem_of_fmap. by exists r'.
Qed.

Lemma rollback_ok i s m : implements s m →
  ∃ l s', rollback_to_block i s = (Ok (deleted_record <$> l), s') ∧ implements s' (abs_rollback i m)
    ∧ NoDup l ∧ ∀ r, r ∈ l ↔ m !! coin_name (coin r) = Some r ∧ (i <? confirmed_block_index r) = true.
Proof.
  intros Hi. pose proof Hi as [Hdb Hm _ _]. unfold rollback_to_block.
  destruct (rollback_cache_ok i s m Hi) as (s1&E1&Hdb1&Hc1). rewrite (st_bind_Ok _ _ _ _ _ E1).
  rewrite (st_bind_Ok _ _ _ _ _ (st_get_eq s1)). rewrite Hdb in Hdb1.
  destruct (select_ok (λ row, i <? confirmed_index row) (λ r, i <? confirmed_block_index r) s1 m)
    as (l&El&Hnd&Hl); [done|done|done|].
  assert (Hnames : NoDup (coin_name ∘ coin <$> l)).
  { apply NoDup_fmap_2_strong; [|done]. intros r r' [Hr _]%Hl [Hr' _]%Hl E. cbn in E. congruence. }
  erewrite st_bind_Ok; [|apply st_res_Ok; rewrite El; apply deleted_changes_ok; [|done|done]].
  2:{ apply list.Forall_forall. intros r [Hr _]%Hl. by apply Hm in Hr as [_ [Hr _]]. }
  rewrite (st_bind_Ok _ _ _ _ _ (st_modify_eq _ s1)). set (s2 := delete_where _ s1).
  rewrite (st_bind_Ok _ _ _ _ _ (st_get_eq s2)).
  assert (Hdb2 : coin_record_db s2 = table (filter (λ nr, (i <? confirmed_block_index nr.2) = false) m)).
  { unfold s2. cbn. rewrite Hdb1.
    by apply (table_filter (λ row, i <? confirmed_index row) (λ r, i <? confirmed_block_index r)). }
  destruct (select_ok (λ row, i <? confirmed_index row) (λ r, i <? confirmed_block_index r) s2 _ Hdb2)
    as (l2&El2&_&Hl2); [|done|].
  { intros n r Hn. apply map_lookup_filter_Some in Hn as [Hn _]. by apply Hm. }
  assert (l2 = []) as ->.
  { apply elem_of_nil_inv. intros r [Hr Hq]%Hl2. apply map_lookup_filter_Some in Hr as [_ Hr].
    cbn in Hr. congruence. }
  rewrite El2. cbn [fmap list_fmap for_fold]. erewrite st_bind_Ok; [|by apply st_res_Ok].
  rewrite (st_bind_Ok _ _ _ _ _ (st_modify_eq _ s2)).
  eexists l, _. split_and!; [|..]; [|split|done|done].
  - cbn. by rewrite <- list_fmap_compose.
  - cbn [update_where set_db coin_record_db]. rewrite Hdb2. apply table_fmap. intros r. cbn. by destruct (_ <? _).
  - intros n r Hn. unfold abs_rollback in Hn. apply lookup_fmap_Some in Hn as (r0&<-&Hn).
    apply map_lookup_filter_Some in Hn as [Hn _]. destruct (Hm _ _ Hn) as [-> Hr].
    destruct (i <? spent_block_index r0); [|done]. split; [done|]. split; [apply Hr|done].
  - apply Hc1.
  - apply Hc1.
Qed.

(** ** Blocks *)
Definition block_records (h ts : Z) (rewards adds : list Coin) : list CoinRecord :=
  (new_record h ts false <$> adds) ++ (new_record h ts true <$> rewards).

(** What the store relies on when a block is applied: the number of reward
    coins, and coins whose names are new and distinct. *)
Record block_fits (h ts : Z) (rewards adds : list Coin) (m : abs_store) : Prop := {
  bf_rewards : if h =? 0 then rewards = [] else (2 <= length rewards)%nat;
  bf_coins : Forall coin_ok (adds ++ rewards);
  bf_distinct : NoDup (coin_name <$> adds ++ rewards);
  bf_fresh : Forall (λ c, m !! coin_name c = None) (adds ++ rewards);
}.

Definition abs_new_block (h ts : Z) (rewards adds : list Coin) (removals : list bytes)
    (m : abs_store) : abs_store :=
  abs_spend h removals (abs_add (block_records h ts rewards adds) m).

Lemma block_records_coins h ts rewards adds :
  coin <$> block_records h ts rewards adds = adds ++ rewards.
Proof.
  unfold block_records. rewrite fmap_app, <- !list_fmap_compose.
  f_equal; (etrans; [|apply list_fmap_id]); by apply list_fmap_ext.
Qed.

Lemma block_records_in h ts rewards adds r :
  r ∈ block_records h ts rewards adds →
  coin r ∈ adds ++ rewards ∧ confirmed_block_index r = h ∧ spent r = false ∧ spent_block_index r = 0.
Proof.
  intros Hr. split.
  - rewrite <- (block_records_coins h ts). apply list_elem_of_fmap. by exists r.
  - unfold block_records in Hr. rewrite elem_of_app, !list_elem_of_fmap in Hr.
    destruct Hr as [(?&->&_)|(?&->&_)]; done.
Qed.

Lemma new_block_ok h ts rewards adds removals s m :
  implements s m → block_fits h ts rewards adds m →
  ∃ s', new_block h ts rewards adds removals s = (Ok (block_records h ts rewards adds), s')
        ∧ implements s' (abs_new_block h ts rewards adds removals m).
Proof.
  intros Hi [Hrw Hco Hnd Hfr]. unfold new_block.
  erewrite st_bind_Ok; [|apply st_res_Ok, (assert_Ok _ tt)].
  2:{ destruct (h =? 0); [by subst|]. apply Z.leb_le. lia. }
  fold (block_records h ts rewards adds).
  destruct (add_coin_records_ok (block_records h ts rewards adds) s m) as (s1&E1&Hi1).
  - done.
  - apply list.Forall_forall. intros r (Hc&_&_&Hz)%block_records_in.
    rewrite list.Forall_forall in Hco. split; [by apply Hco|done].
  - rewrite list_fmap_compose, block_records_coins. done.
  - intros r (Hc&_)%block_records_in. rewrite list.Forall_forall in Hfr. by apply Hfr.
  - rewrite (st_bind_Ok _ _ _ _ _ E1).
    destruct (set_spent_ok removals h s1 _ Hi1) as (s2&E2&Hi2).
    rewrite (st_bind_Ok _ _ _ _ _ E2). by eexists.
Qed.

(** Lookups in the abstract store after a block *)
Lemma lookup_abs_spend h names m n :
  abs_spend h names m !! n = (if decide (n ∈ names) then mark_spent h <$> m !! n else m !! n).
Proof.
  unfold abs_spend. revert m. induction names as [|x names IH]; intros m; cbn.
  - by rewrite decide_False by set_solver.
  - rewrite IH. destruct (decide (n = x)) as [->|].
    + rewrite lookup_alter_eq, (decide_True _ _ (P := x ∈ x :: names)) by set_solver.
      case_decide; [|done]. by destruct (m !! x).
    + rewrite lookup_alter_ne by done.
      destruct (decide (n ∈ names)); [rewrite decide_True by set_solver|rewrite decide_False by set_solver]; done.
Qed.

Lemma lookup_abs_add_old rs m n : n ∉ (coin_name ∘ coin <$> rs) → abs_add rs m !! n = m !! n.
Proof.
  unfold abs_add. revert m. induction rs as [|r rs IH]; intros m Hn; [done|]. cbn in *.
  rewrite IH by set_solver. apply lookup_insert_ne. set_solver.
Qed.

Lemma lookup_abs_add_new rs m r :
  NoDup (coin_name ∘ coin <$> rs) → r ∈ rs → abs_add rs m !! coin_name (coin r) = Some r.
Proof.
  unfold abs_add. revert m. induction rs as [|r' rs IH]; intros m Hnd Hr; [set_solver|].
  cbn in *. apply NoDup_cons in Hnd as [Hn Hnd].
  apply elem_of_cons in Hr as [<-|Hr]; [|by apply IH].
  fold (abs_add rs (<[coin_name (coin r) := r]> m)). rewrite lookup_abs_add_old by done.
  by rewrite lookup_insert_eq.
Qed.

Lemma lookup_block_record h ts rewards adds m n :
  block_fits h ts rewards adds m →
  (∃ r, r ∈ block_records h ts rewards adds ∧ coin_name (coin r) = n ∧ m !! n = None
        ∧ abs_add (block_records h ts rewards adds) m !! n = Some r)
  ∨ (n ∉ coin_name <$> adds ++ rewards ∧ abs_add (block_records h ts rewards adds) m !! n = m !! n).
Proof.
  intros [_ _ Hnd Hfr]. rewrite <- (block_records_coins h ts), <- list_fmap_compose in Hnd |- *.
  destruct (decide (n ∈ coin_name ∘ coin <$> block_records h ts rewards adds)) as [Hn|Hn].
  - left. apply list_elem_of_fmap in Hn as (r&->&Hr). exists r. split_and!; [done|done| |].
    + rewrite list.Forall_forall in Hfr. by apply Hfr, (block_records_in h ts).
    + by apply lookup_abs_add_new.
  - right. split; [done|]. by apply lookup_abs_add_old.
Qed.

(** A store all of whose records stem from blocks below [h] *)
Definition below (h : Z) (m : abs_store) : Prop :=
  ∀ n r, m !! n = Some r → confirmed_block_index r < h ∧ spent_block_index r < h.

Lemma abs_rollback_new_block h ts rewards adds removals m :
  block_fits h ts rewards adds m → records_named m → below h m →
  (∀ n r, n ∈ removals → m !! n = Some r → spent r = false) →
  abs_rollback (h - 1) (abs_new_block h ts rewards adds removals m) = m.
Proof.
  intros Hbf Hm Hb Hun. apply map_eq. intros n. unfold abs_rollback, abs_new_block.
  rewrite lookup_fmap, map_lookup_filter, lookup_abs_spend.
  destruct (lookup_block_record h ts rewards adds m n Hbf) as [(r&Hr&<-&Hnone&->)|(_&->)].
  - apply block_records_in in Hr as (_&Hh&_). rewrite Hnone.
    assert (E : (h - 1 <? h) = true) by (apply Z.ltb_lt; lia).
    case_decide; cbn; rewrite Hh, E; by rewrite option_guard_False.
  - destruct (m !! n) as [r|] eqn:Hn; [|by case_decide].
    destruct (Hb _ _ Hn) as [Hc Hs]. apply Hm in Hn as Hr. destruct Hr as [_ [_ Hz]].
    assert (E1 : (h - 1 <? confirmed_block_index r) = false) by (apply Z.ltb_ge; lia).
    assert (E2 : (h - 1 <? spent_block_index r) = false) by (apply Z.ltb_ge; lia).
    case_decide as Hin; cbn -[Z.ltb]; rewrite E1, option_guard_True by done; cbn -[Z.ltb].
    + rewrite (proj2 (Z.ltb_lt (h - 1) h)) by lia. specialize (Hun _ _ Hin Hn).
      unfold mark_unspent, mark_spent. cbn. destruct r; cbn in *. subst. by rewrite Hz.
    + by rewrite E2.
Qed.
End Refinement.

(** ** The store as a whole *)
Inductive store_op :=
  | NewBlock (h ts : Z) (rewards adds : list Coin) (removals : list bytes)
  | Rollback (i : Z)
  | GetCoin (n : bytes).

Section Simulation.
Context `{StdHash} `{ClvmCasts}.

Definition run_op (o : store_op) : ST CoinStore (option CoinRecord) :=
  match o with
  | NewBlock h ts rewards adds removals => new_block h ts rewards adds removals ;; mret None
  | Rollback i => rollback_to_block i ;; mret None
  | GetCoin n => get_coin_record n
  end.

Definition abs_op (o : store_op) (m : abs_store) : option CoinRecord * abs_store :=
  match o with
  | NewBlock h ts rewards adds removals => (None, abs_new_block h ts rewards adds removals m)
  | Rollback i => (None, abs_rollback i m)
  | GetCoin n => (m !! n, m)
  end.

Definition op_valid (o : store_op) (m : abs_store) : Prop :=
  match o with
  | NewBlock h ts rewards adds _ => block_fits h ts rewards adds m
  | _ => True
  end.

Fixpoint abs_ops (os : list store_op) (m : abs_store) : list (option CoinRecord) * abs_store :=
  match os with
  | [] => ([], m)
  | o :: os => let '(a, m) := abs_op o m in let '(l, m) := abs_ops os m in (a :: l, m)
  end.
Fixpoint ops_valid (os : list store_op) (m : abs_store) : Prop :=
  match os with
  | [] => True
  | o :: os => op_valid o m ∧ ops_valid os (abs_op o m).2
  end.

#[global] Instance bool_if_dec (b : bool) (P Q : Prop) `{Decision P} `{Decision Q} :
  Decision (if b then P else Q).
Proof. destruct b; apply _. Defined.
#[global] Instance block_fits_dec h ts rewards adds m : Decision (block_fits h ts rewards adds m).
Proof.
  refine (cast_if (decide ((if h =? 0 then rewards = [] else (2 <= length rewards)%nat)
    ∧ Forall coin_ok (adds ++ rewards) ∧ NoDup (coin_name <$> adds ++ rewards)
    ∧ Forall (λ c, m !! coin_name c = None) (adds ++ rewards))));
    [abstract (by destruct a as (?&?&?&?); split) | abstract (by intros []; apply n)].
Defined.
#[global] Instance ops_valid_dec os m : Decision (ops_valid os m).
Proof.
  revert m. induction os as [|o os IH]; intros m; cbn; [apply _|].
  destruct o; cbn [op_valid]; apply _.
Defined.

Lemma run_op_ok o s m : implements s m → op_valid o m →
  ∃ s', run_op o s = (Ok (abs_op o m).1, s') ∧ implements s' (abs_op o m).2.
Proof.
  intros Hi. destruct o as [h ts rewards adds removals|i|n]; cbn [op_valid run_op abs_op fst snd].
  - intros Hv. destruct (new_block_ok h ts rewards adds removals s m Hi Hv) as (s'&E&Hs').
    rewrite (st_bind_Ok _ _ _ _ _ E). by eexists.
  - intros _. destruct (rollback_ok i s m Hi) as (l&s'&E&Hs'&_).
    rewrite (st_bind_Ok _ _ _ _ _ E). by eexists.
  - intros _. by apply get_coin_record_ok.
Qed.

Lemma implements_empty size : implements (coin_store_create ∅ size) ∅.
Proof.
  split; cbn; [|by intros ??; rewrite lookup_empty| |done].
  - unfold table. by rewrite fmap_empty, (kmap_empty hex).
  - split; [constructor|cbn; lia].
Qed.

Lemma implements_create m size :
  records_named m → implements (coin_store_create (table m) size) m.
Proof. intros Hm. split; [done|done| |done]. split; [constructor|cbn; lia]. Qed.
End Simulation.

(** C3. Every sequence of blocks, rollbacks and lookups whose blocks add new coins
    runs without an exception on the store, whatever the size of its cache, and
    answers every lookup as the abstract map does: neither eviction nor
    rollback lets a stale record through. *)
Theorem coin_store_refines `{StdHash} `{ClvmCasts} (s : CoinStore) (m : gmap bytes CoinRecord) (os : list store_op) :
  implements s m → ops_valid os m →
  ∃ s', st_each run_op os s = (Ok (abs_ops os m).1, s') ∧ implements s' (abs_ops os m).2.
Proof.
  revert s m. induction os as [|o os IH]; intros s m Hi Hv; [by eexists|].
  destruct Hv as [Ho Hos]. destruct (run_op_ok o s m Hi Ho) as (s1&E1&Hi1).
  destruct (IH s1 _ Hi1 Hos) as (s2&E2&Hi2). cbn [st_each abs_ops].
  rewrite (st_bind_Ok _ _ _ _ _ E1), (st_bind_Ok _ _ _ _ _ E2).
  destruct (abs_op o m) as [a m1]; cbn in *. destruct (abs_ops os m1); cbn in *. by eexists.
Qed.

Definition sample_ops : list store_op :=
  let name c := coin_name c in
  [NewBlock 1 10 [sample_coin 1 7 100; sample_coin 2 7 200] [] [];
   NewBlock 2 20 [sample_coin 3 7 300; sample_coin 4 7 400] [sample_coin 5 7 50] [name (sample_coin 1 7 100)];
   GetCoin (name (sample_coin 1 7 100)); GetCoin (name (sample_coin 5 7 50));
   Rollback 1; GetCoin (name (sample_coin 1 7 100)); GetCoin (name (sample_coin 5 7 50))].

Lemma coin_store_refines_witness :
  implements (coin_store_create ∅ 2) ∅ ∧ ops_valid sample_ops ∅
  ∧ (abs_ops sample_ops ∅).1
    = [None; None;
       Some (mark_spent 2 (new_record 1 10 true (sample_coin 1 7 100)));
       Some (new_record 2 20 false (sample_coin 5 7 50));
       None; Some (new_record 1 10 true (sample_coin 1 7 100)); None]
  ∧ ∃ s', st_each run_op sample_ops (coin_store_create ∅ 2) = (Ok (abs_ops sample_ops ∅).1, s')
          ∧ implements s' (abs_ops sample_ops ∅).2.
Proof.
  pose proof (implements_empty 2) as Hi.
  assert (Hv : ops_valid sample_ops ∅) by (apply (bool_decide_unpack _); vm_compute; exact I).
  split_and!; [exact Hi|exact Hv|vm_compute; reflexivity|].
  exact (coin_store_refines (coin_store_create ∅ 2) ∅ sample_ops Hi Hv).
Defined.

(** C39. Rolling back to the block before the last one undoes [new_block]: the store
    represents again what it represented before the block, provided the block
    spent only coins that were unspent. *)
Theorem rollback_undoes_new_block `{StdHash} `{ClvmCasts} (s : CoinStore) (m : gmap bytes CoinRecord)
    (h ts : Z) (rewards adds : list Coin) (removals : list bytes) :
  implements s m → block_fits h ts rewards adds m → below h m →
  (∀ n r, n ∈ removals → m !! n = Some r → spent r = false) →
  ∃ rs s1 l s2, new_block h ts rewards adds removals s = (Ok rs, s1)
    ∧ rollback_to_block (h - 1) s1 = (Ok l, s2) ∧ implements s2 m.
Proof.
  intros Hi Hb Hbe Hun.
  destruct (new_block_ok h ts rewards adds removals s m Hi Hb) as (s1&E1&Hi1).
  destruct (rollback_ok (h - 1) s1 _ Hi1) as (l&s2&E2&Hi2&_).
  rewrite abs_rollback_new_block in Hi2 by (done || exact (im_records _ _ Hi)).
  by eexists _, s1, _, s2.
Qed.

Definition sample_map : gmap bytes CoinRecord :=
  (abs_ops [NewBlock 1 10 [sample_coin 1 7 100; sample_coin 2 7 200] [] []] ∅).2.

Definition sample_store : CoinStore := coin_store_create (table sample_map) 2.

Lemma sample_store_implements : implements sample_store sample_map.
Proof.
  apply implements_create.
  assert (map_Forall (λ n r, n = coin_name (coin r) ∧ record_ok r) sample_map) as Hm; [|exact Hm].
  apply (bool_decide_unpack _). vm_compute. exact I.
Qed.

Lemma sample_map_below : below 2 sample_map.
Proof.
  assert (map_Forall (λ n r, confirmed_block_index r < 2 ∧ spent_block_index r < 2) sample_map) as Hm; [|exact Hm].
  apply (bool_decide_unpack _). vm_compute. exact I.
Qed.

Lemma rollback_undoes_new_block_witness :
  let rewards := [sample_coin 3 7 300; sample_coin 4 7 400] in
  let adds := [sample_coin 5 7 50] in
  let removals := [coin_name (sample_coin 1 7 100); coin_name (sample_coin 5 7 50)] in
  implements sample_store sample_map ∧ block_fits 2 20 rewards adds sample_map ∧ below 2 sample_map
  ∧ ∃ rs s1 l s2, new_block 2 20 rewards adds removals sample_store = (Ok rs, s1)
      ∧ rollback_to_block (2 - 1) s1 = (Ok l, s2) ∧ implements s2 sample_map.
Proof.
  intros rewards adds removals.
  assert (Hb : block_fits 2 20 rewards adds sample_map) by (apply (bool_decide_unpack _); vm_compute; exact I).
  split_and!; [exact sample_store_implements|exact Hb|exact sample_map_below|].
  apply (rollback_undoes_new_block sample_store sample_map 2 20 rewards adds removals
    sample_store_implements Hb sample_map_below).
  assert (map_Forall (λ n r, n ∈ removals → spent r = false) sample_map) as Hm.
  { apply (bool_decide_unpack _). vm_compute. exact I. }
  intros n r Hin Hn. exact (Hm n r Hn Hin).
Defined.

(** The list [rollback_to_block] returns holds exactly the coins whose creation
    was undone, each with its creation cleared.  A coin that only becomes
    unspent again is modified in the store without being reported, although the
    docstring promises the list of all modified records: the second query runs
    on [confirmed_index] after the rows it could select were deleted. *)
Theorem rollback_reports_created_only `{StdHash} `{ClvmCasts} (s : CoinStore) (m : gmap bytes CoinRecord)
    (i : Z) (n : bytes) (r : CoinRecord) :
  implements s m → m !! n = Some r → confirmed_block_index r <= i < spent_block_index r →
  ∃ l s', rollback_to_block i s = (Ok l, s')
    ∧ (∀ x, x ∈ l ↔ ∃ r0, m !! coin_name (coin r0) = Some r0
                          ∧ i < confirmed_block_index r0 ∧ x = deleted_record r0)
    ∧ (∃ s'', get_coin_record n s' = (Ok (Some (mark_unspent r)), s''))
    ∧ ∀ x, x ∈ l → coin_name (coin x) ≠ n.
Proof.
  intros Hi Hn Hr. destruct (rollback_ok i s m Hi) as (l&s'&E&Hi'&_&Hl).
  exists (deleted_record <$> l), s'. split_and!; [done| | |].
  - intros x. rewrite list_elem_of_fmap. setoid_rewrite Hl. setoid_rewrite Z.ltb_lt. naive_solver.
  - destruct (get_coin_record_ok s' _ n Hi') as (s''&Eg&_). exists s''. rewrite Eg. do 2 f_equal.
    unfold abs_rollback. rewrite lookup_fmap, map_lookup_filter, Hn. cbn -[Z.ltb].
    rewrite (proj2 (Z.ltb_ge _ _)), option_guard_True by (lia || done). cbn -[Z.ltb].
    rewrite (proj2 (Z.ltb_lt _ _)) by lia. done.
  - intros x Hx. apply list_elem_of_fmap in Hx as (r0&->&[Hr0 Hc]%Hl). apply Z.ltb_lt in Hc.
    cbn. intros <-. rewrite Hr0 in Hn. injection Hn as ->. lia.
Qed.

Definition sample_spent_map : gmap bytes CoinRecord :=
  alter (mark_spent 3) (coin_name (sample_coin 1 7 100)) sample_map.
Lemma sample_spent_implements : implements (coin_store_create (table sample_spent_map) 2) sample_spent_map.
Proof.
  apply implements_create.
  assert (map_Forall (λ n r, n = coin_name (coin r) ∧ record_ok r) sample_spent_map) as Hm; [|exact Hm].
  apply (bool_decide_unpack _). vm_compute. exact I.
Qed.

Lemma rollback_reports_created_only_witness :
  let n := coin_name (sample_coin 1 7 100) in
  let r := mark_spent 3 (new_record 1 10 true (sample_coin 1 7 100)) in
  let s := coin_store_create (table sample_spent_map) 2 in
  implements s sample_spent_map ∧ sample_spent_map !! n = Some r
  ∧ confirmed_block_index r <= 2 < spent_block_index r
  ∧ ∃ l s', rollback_to_block 2 s = (Ok l, s')
      ∧ (∀ x, x ∈ l ↔ ∃ r0, sample_spent_map !! coin_name (coin r0) = Some r0
                            ∧ 2 < confirmed_block_index r0 ∧ x = deleted_record r0)
      ∧ (∃ s'', get_coin_record n s' = (Ok (Some (mark_unspent r)), s''))
      ∧ ∀ x, x ∈ l → coin_name (coin x) ≠ n.
Proof.
  intros n r s.
  assert (Hn : sample_spent_map !! n = Some r) by (vm_compute; reflexivity).
  assert (Hr : confirmed_block_index r <= 2 < spent_block_index r) by (cbn; lia).
  split_and!; [exact sample_spent_implements|exact Hn|apply Hr|apply Hr|].
  exact (rollback_reports_created_only s sample_spent_map 2 n r sample_spent_implements Hn Hr).
Defined.

(** [get_unspent_coins_before_height] answers for the past: it returns exactly
    the coins of the puzzle hash that would be unspent after a rollback to the
    block before the height. *)
Theorem unspent_before_height_spec `{StdHash} `{ClvmCasts} (s : CoinStore) (m : gmap bytes CoinRecord)
    (ph : bytes) (h : Z) :
  implements s m → 0 < h →
  ∃ l, get_unspent_coins_before_height ph h s = Ok l ∧ NoDup l
    ∧ ∀ r, r ∈ l ↔ m !! coin_name (coin r) = Some r ∧ puzzle_hash (coin r) = ph
                   ∧ ∃ r', abs_rollback (h - 1) m !! coin_name (coin r) = Some r' ∧ spent r' = false.
Proof.
  intros Hi Hh. destruct (record_set_where_ok
    (λ row, bool_decide (row_puzzle_hash row = hex ph) && (confirmed_index row <? h)
            && ((row_spent row =? 0) || (h <=? spent_index row)))
    (λ r, bool_decide (puzzle_hash (coin r) = ph) && (confirmed_block_index r <? h)
            && (negb (spent r) || (h <=? spent_block_index r))) s m Hi) as (l&E&Hnd&Hl).
  { intros r. cbn. f_equal; [f_equal|]; [|by destruct (spent r)].
    apply bool_decide_ext. split; [apply (inj hex)|congruence]. }
  exists l. split_and!; [done|done|]. intros r. rewrite Hl.
  apply and_iff_compat_l_weak. intros Hr. pose proof (im_records _ _ Hi _ _ Hr) as [_ [_ Hz]].
  unfold abs_rollback. rewrite lookup_fmap, map_lookup_filter, Hr. cbn -[Z.ltb].
  rewrite !andb_true_iff, orb_true_iff, bool_decide_eq_true, Z.ltb_lt, Z.leb_le, negb_true_iff, Logic.and_assoc.
  apply and_iff_compat_l. destruct (Z.ltb_spec (h - 1) (confirmed_block_index r)).
  - split; [lia|]. intros (?&?&_). rewrite option_guard_False in * by done. done.
  - rewrite option_guard_True by done. cbn -[Z.ltb].
    destruct (Z.ltb_spec (h - 1) (spent_block_index r)); [naive_solver lia|].
    split; [|naive_solver lia]. intros [_ [Hs|Hs]]; [by exists r|lia].
Qed.

Lemma unspent_before_height_spec_witness :
  implements sample_store sample_map ∧ 0 < 2
  ∧ ∃ l, get_unspent_coins_before_height (encode_be 32 7) 2 sample_store = Ok l ∧ NoDup l
    ∧ ∀ r, r ∈ l ↔ sample_map !! coin_name (coin r) = Some r ∧ puzzle_hash (coin r) = encode_be 32 7
                   ∧ ∃ r', abs_rollback (2 - 1) sample_map !! coin_name (coin r) = Some r' ∧ spent r' = false.
Proof.
  split_and!; [exact sample_store_implements|lia|].
  apply (unspent_before_height_spec sample_store sample_map (encode_be 32 7) 2 sample_store_implements). lia.
Defined.

(** ** What a block changed can be read back by height *)
Section BlockChanges.
Context `{StdHash} `{ClvmCasts}.
Context (h ts : Z) (rewards adds : list Coin) (removals : list bytes) (m : gmap bytes CoinRecord).
Context (Hbf : block_fits h ts rewards adds m) (Hbe : below h m).

(** Every record after the block is an old record or one the block created,
    marked spent if the block removes it. *)
Lemma after_block_inv n r :
  abs_new_block h ts rewards adds removals m !! n = Some r →
  ∃ r0, (r = if decide (n ∈ removals) then mark_spent h r0 else r0)
    ∧ (r0 ∈ block_records h ts rewards adds ∨ m !! n = Some r0).
Proof.
  unfold abs_new_block. rewrite lookup_abs_spend.
  destruct (lookup_block_record h ts rewards adds m n Hbf) as [(r0&Hr0&_&_&->)|(_&->)].
  - intros Hr. exists r0. split; [|by left]. case_decide; cbn in Hr; congruence.
  - intros Hr. destruct (m !! n) as [r0|] eqn:Hn; [|by case_decide].
    exists r0. split; [|by right]. case_decide; cbn in Hr; congruence.
Qed.

Lemma after_block_created c : c ∈ adds ++ rewards →
  ∃ r, abs_new_block h ts rewards adds removals m !! coin_name c = Some r ∧ coin r = c
       ∧ confirmed_block_index r = h.
Proof.
  intros Hc. rewrite <- (block_records_coins h ts) in Hc. apply list_elem_of_fmap in Hc as (r&->&Hr).
  unfold abs_new_block. rewrite lookup_abs_spend, (lookup_abs_add_new _ _ r); [|..|done].
  - apply block_records_in in Hr as (_&Hh&_). case_decide; cbn; by eexists.
  - rewrite list_fmap_compose, block_records_coins. apply (bf_distinct _ _ _ _ _ Hbf).
Qed.

Lemma added_at_height_perm l :
  NoDup l →
  (∀ r, r ∈ l ↔ abs_new_block h ts rewards adds removals m !! coin_name (coin r) = Some r
               ∧ (confirmed_block_index r =? h) = true) →
  coin <$> l ≡ₚ adds ++ rewards.
Proof.
  intros Hnd Hl. apply NoDup_Permutation.
  - apply NoDup_fmap_2_strong; [|done]. intros r r' [Hr _]%Hl [Hr' _]%Hl E. congruence.
  - eapply (NoDup_fmap_1 coin_name), bf_distinct; eauto.
  - intros c. rewrite list_elem_of_fmap. split.
    + intros (r&->&[Hr Hh]%Hl). apply Z.eqb_eq in Hh.
      apply after_block_inv in Hr as (r0&E&[Hr0|Hr0]).
      * apply block_records_in in Hr0 as [Hr0 _]. rewrite E. by case_decide.
      * apply Hbe in Hr0 as [Hlt _]. exfalso. rewrite E in Hh. case_decide; cbn in Hh; lia.
    + intros (r&Hr&<-&Hh)%after_block_created. exists r. split; [done|]. apply Hl.
      split; [done|by apply Z.eqb_eq].
Qed.

Context (Hknown : ∀ n, n ∈ removals → is_Some (m !! n) ∨ n ∈ coin_name <$> adds ++ rewards).
Context (Hnd : NoDup removals) (Hnamed : records_named m) (Hpos : 0 < h).

Lemma removed_at_height_perm l :
  NoDup l →
  (∀ r, r ∈ l ↔ abs_new_block h ts rewards adds removals m !! coin_name (coin r) = Some r
               ∧ (spent_block_index r =? h) && spent r = true) →
  coin_name ∘ coin <$> l ≡ₚ removals.
Proof.
  intros Hl0 Hl. apply NoDup_Permutation; [|done|].
  - apply NoDup_fmap_2_strong; [|done]. intros r r' [Hr _]%Hl [Hr' _]%Hl E. cbn in E. congruence.
  - intros n. rewrite list_elem_of_fmap. split.
    + intros (r&->&[Hr Hs]%Hl). cbn. apply after_block_inv in Hr as (r0&E&Hr0).
      destruct (decide (coin_name (coin r) ∈ removals)) as [|_]; [done|]. exfalso. subst r0. zbool.
      destruct Hr0 as [(_&_&?&?)%block_records_in|[_ ?]%Hbe]; [congruence|lia].
    + intros Hn. assert (is_Some (abs_add (block_records h ts rewards adds) m !! n)) as [r Hr].
      { destruct (lookup_block_record h ts rewards adds m n Hbf) as [(r&_&_&_&->)|(Hno&->)]; [eauto|].
        by destruct (Hknown n Hn). }
      assert (Hr' : abs_new_block h ts rewards adds removals m !! n = Some (mark_spent h r)).
      { unfold abs_new_block. by rewrite lookup_abs_spend, Hr, decide_True. }
      assert (n = coin_name (coin r)) as Hnr.
      { destruct (lookup_block_record h ts rewards adds m n Hbf) as [(r1&_&Hr1&_&Hr1')|(_&Hold)].
        - congruence.
        - rewrite Hold in Hr. by apply Hnamed in Hr as [? _]. }
      exists (mark_spent h r). split; [done|]. apply Hl. split; [cbn; by rewrite <- Hnr|].
      cbn. by rewrite Z.eqb_refl.
Qed.
End BlockChanges.

(** After a block, the queries by height return exactly what the block changed:
    the coins it created, and the coins it removed (one of its own creations
    included when the block also spends it). *)
Theorem block_changes_by_height `{StdHash} `{ClvmCasts} (s : CoinStore) (m : gmap bytes CoinRecord)
    (h ts : Z) (rewards adds : list Coin) (removals : list bytes) :
  implements s m → block_fits h ts rewards adds m → below h m → 0 < h → NoDup removals →
  (∀ n, n ∈ removals → is_Some (m !! n) ∨ n ∈ coin_name <$> adds ++ rewards) →
  ∃ rs s' la lr, new_block h ts rewards adds removals s = (Ok rs, s')
    ∧ get_coins_added_at_height h s' = Ok la ∧ coin <$> la ≡ₚ adds ++ rewards
    ∧ get_coins_removed_at_height h s' = Ok lr ∧ coin_name ∘ coin <$> lr ≡ₚ removals.
Proof.
  intros Hi Hbf Hbe Hh Hnd Hk.
  destruct (new_block_ok h ts rewards adds removals s m Hi Hbf) as (s'&E&Hi').
  destruct (records_where_ok (λ row, confirmed_index row =? h) (λ r, confirmed_block_index r =? h)
    s' _ Hi') as (la&Ea&Hnda&Hla); [done|].
  destruct (records_where_ok (λ row, (spent_index row =? h) && py_bool (row_spent row))
    (λ r, (spent_block_index r =? h) && spent r) s' _ Hi') as (lr&Er&Hndr&Hlr).
  { intros r. cbn. by rewrite py_bool_int. }
  eexists _, s', la, lr. split_and!; [done|done| | |].
  - by eapply added_at_height_perm.
  - unfold get_coins_removed_at_height. by rewrite (proj2 (Z.eqb_neq h 0)) by lia.
  - by eapply removed_at_height_perm; try done; exact (im_records _ _ Hi).
Qed.

Lemma block_changes_by_height_witness :
  let rewards := [sample_coin 3 7 300; sample_coin 4 7 400] in
  let adds := [sample_coin 5 7 50] in
  let removals := [coin_name (sample_coin 1 7 100); coin_name (sample_coin 5 7 50)] in
  implements sample_store sample_map ∧ block_fits 2 20 rewards adds sample_map
  ∧ ∃ rs s' la lr, new_block 2 20 rewards adds removals sample_store = (Ok rs, s')
    ∧ get_coins_added_at_height 2 s' = Ok la ∧ coin <$> la ≡ₚ adds ++ rewards
    ∧ get_coins_removed_at_height 2 s' = Ok lr ∧ coin_name ∘ coin <$> lr ≡ₚ removals.
Proof.
  intros rewards adds removals.
  assert (Hb : block_fits 2 20 rewards adds sample_map) by (apply (bool_decide_unpack _); vm_compute; exact I).
  split_and!; [exact sample_store_implements|exact Hb|].
  apply (block_changes_by_height sample_store sample_map 2 20 rewards adds removals
    sample_store_implements Hb sample_map_below); [lia|apply (bool_decide_unpack _); vm_compute; exact I|].
  apply list.Forall_forall. apply (bool_decide_unpack _). vm_compute. exact I.
Defined.

(** ** A block whose insertion fails *)
Section FailedBlock.
Context `{StdHash} `{ClvmCasts}.

Lemma set_spent_total names h s : ∃ s', set_spent names h s = (Ok tt, s').
Proof.
  unfold set_spent. erewrite st_bind_Ok by apply st_for_modify. rewrite st_for_modify. by eexists.
Qed.

Lemma insert_rows_cache rows s : coin_record_cache (st_for insert_row rows s).2 = coin_record_cache s.
Proof.
  revert s. induction rows as [|row rows IH]; intros s; [done|].
  cbn [st_for]. unfold mbind, st_bind, insert_row at 1.
  destruct (coin_record_db s !! coin_name_text row); [done|]. by rewrite IH.
Qed.

Lemma add_cache_last rs r s :
  Forall (λ r, coin_ok (coin r)) (rs ++ [r]) →
  ∃ s0, let s1 := set_cache (lru_put (coin_name (coin r)) r (coin_record_cache s0)) s0 in
    (lru_wf (coin_record_cache s) → lru_wf (coin_record_cache s0))
    ∧ capacity (coin_record_cache s0) = capacity (coin_record_cache s)
    ∧ st_each (λ record,
        st_modify (λ s, set_cache (lru_put (coin_name (coin record)) record (coin_record_cache s)) s) ;;
        st_res (record_values record)) (rs ++ [r]) s = (Ok (row_of <$> rs ++ [r]), s1).
Proof.
  revert s. induction rs as [|x rs IH]; intros s Hok; cbn [app] in Hok; apply Forall_cons in Hok as [Hx Hok].
  - exists s. split_and!; [done|done|]. cbn [app st_each]. erewrite st_bind_Ok; [done|].
    erewrite st_bind_Ok; [|by apply st_modify_eq]. by apply st_res_Ok, record_values_row_of.
  - destruct (IH (set_cache (lru_put (coin_name (coin x)) x (coin_record_cache s)) s) Hok) as (s0&Hw&Hc&E).
    exists s0. split_and!; [|done|].
    + intros Hs. by apply Hw, lru_put_wf.
    + cbn [app st_each fmap list_fmap]. erewrite st_bind_Ok.
      2:{ erewrite st_bind_Ok; [|by apply st_modify_eq]. by apply st_res_Ok, record_values_row_of. }
      by erewrite st_bind_Ok.
Qed.

Lemma lru_put_newest {K V} `{EqDecision K} (k : K) (v : V) c :
  1 <= capacity c → lru_wf c → dget k (cache (lru_put k v c)) = Some v.
Proof.
  intros Hc [Hd Hl]. rewrite lru_put_eq. cbn. rewrite length_app. cbn.
  destruct (Z.ltb_spec (capacity c) (Z.of_nat (length (dremove k (cache c)) + 1))).
  - destruct (dremove k (cache c)) as [|[k0 v0] d] eqn:E; cbn in *; [lia|].
    pose proof (dget_dremove (cache c) k k Hd) as Hn. rewrite E, decide_True in Hn by done.
    cbn in Hn. case_decide; [done|]. rewrite dget_app, Hn. cbn. by rewrite decide_True.
  - rewrite dget_app, dget_dremove, decide_True by done. cbn. by rewrite decide_True.
Qed.
End FailedBlock.

(** When the insertion of a block's coins fails, the caller rolls the database
    back, but the records were put into the cache before: the store then answers
    a lookup of the block's last coin with a record of the block that was not
    added. *)
Theorem failed_block_stays_cached `{StdHash} `{ClvmCasts} (s s' : CoinStore) (h ts : Z)
    (rewards adds : list Coin) (c : Coin) (removals : list bytes) :
  lru_wf (coin_record_cache s) → 1 <= capacity (coin_record_cache s) →
  Forall coin_ok (adds ++ rewards ++ [c]) →
  new_block h ts (rewards ++ [c]) adds removals s = (Raise IntegrityError, s') →
  ∃ s'', get_coin_record (coin_name c) (set_db (coin_record_db s) s')
         = (Ok (Some (new_record h ts true c)), s'').
Proof.
  intros Hw Hcap Hok E. unfold new_block in E.
  set (n := Z.of_nat _) in E. unfold mbind at 1, st_bind at 1, st_res, assert_, check in E.
  destruct (if h =? 0 then n =? 0 else 2 <=? n); [|done]. rewrite fmap_app, app_assoc in E.
  cbn [fmap list_fmap] in E. set (rs := (new_record h ts false <$> adds) ++ (new_record h ts true <$> rewards)) in E.
  destruct (add_cache_last rs (new_record h ts true c) s) as (s0&Hw0&Hc0&E0).
  { unfold rs. rewrite !Forall_app, !Forall_fmap in *. destruct Hok as (?&?&Hc).
    apply Forall_cons in Hc as [Hc _]. split_and!; [assumption..|]. constructor; [exact Hc|constructor]. }
  unfold add_coin_records in E. unfold mbind at 1, st_bind at 1 in E.
  rewrite (st_bind_Ok _ _ _ _ _ E0) in E. cbn [coin new_record] in E.
  set (s1 := set_cache _ s0) in E.
  pose proof (insert_rows_cache (row_of <$> rs ++ [new_record h ts true c]) s1) as Hic.
  assert (Hs' : coin_record_cache s' = coin_record_cache s1).
  { unfold mbind, st_bind in E. destruct (st_for insert_row _ s1) as [[[]|e|] s2]; cbn in Hic;
      [|injection E as -> ->; done|done].
    exfalso. destruct (set_spent_total removals h s2) as [s3 E3].
    by rewrite E3 in E. }
  specialize (Hw0 Hw). unfold get_coin_record. cbn [coin_record_cache set_db]. rewrite Hs'.
  destruct (lru_get_spec (coin_name c) (coin_record_cache s1)) as (c'&->&_); [by apply lru_put_wf|].
  unfold s1. cbn [coin_record_cache set_cache]. rewrite lru_put_newest by (done || lia). by eexists.
Qed.

Lemma failed_block_stays_cached_witness :
  let c := sample_coin 4 7 400 in
  let adds := [sample_coin 5 7 50; sample_coin 5 7 50] in
  let s := coin_store_create ∅ 2 in
  lru_wf (coin_record_cache s) ∧ 1 <= capacity (coin_record_cache s)
  ∧ Forall coin_ok (adds ++ [sample_coin 3 7 300] ++ [c])
  ∧ let s' := (new_block 2 20 ([sample_coin 3 7 300] ++ [c]) adds [] s).2 in
    new_block 2 20 ([sample_coin 3 7 300] ++ [c]) adds [] s = (Raise IntegrityError, s')
    ∧ ∃ s'', get_coin_record (coin_name c) (set_db (coin_record_db s) s')
             = (Ok (Some (new_record 2 20 true c)), s'').
Proof.
  intros c adds s.
  assert (Hw : lru_wf (coin_record_cache s)) by apply (im_lru _ _ (implements_empty 2)).
  assert (Hc : 1 <= capacity (coin_record_cache s)) by (cbn; lia).
  assert (Hok : Forall coin_ok (adds ++ [sample_coin 3 7 300] ++ [c]))
    by (apply (bool_decide_unpack _); vm_compute; exact I).
  split_and!; [exact Hw|exact Hc|exact Hok|]. intros s'.
  assert (E : new_block 2 20 ([sample_coin 3 7 300] ++ [c]) adds [] s = (Raise IntegrityError, s')).
  { unfold s'. rewrite surjective_pairing at 1. apply (f_equal (λ e, (e, _))). vm_compute. reflexivity. }
  split; [exact E|].
  exact (failed_block_stays_cached s s' 2 20 [sample_coin 3 7 300] adds c [] Hw Hc Hok E).
Defined.
