(* ===== verification/Mempool.v ===== *)
(** * The mempool

    Models [chia/types/mempool_item.py], [chia/types/spend_bundle.py] (its data),
    [chia/full_node/mempool.py] and [chia/full_node/pending_tx_cache.py].

    [SortedDict] (of the external [sortedcontainers]) is a list of entries kept
    in the order of its keys, which are floats: the fee per cost of the items of
    each bucket. *)
From S2P Require Import Prelude PyInt PyFloat Consensus Coins.

Record CoinSpend := {
  spend_coin : Coin;
  puzzle_reveal : bytes;
  solution : bytes;
}.
Record SpendBundle := {
  coin_spends : list CoinSpend;
  aggregated_signature : bytes;
}.
#[global] Instance CoinSpend_eq_dec : EqDecision CoinSpend.
Proof. solve_decision. Defined.
#[global] Instance SpendBundle_eq_dec : EqDecision SpendBundle.
Proof. solve_decision. Defined.

Record MempoolItem := {
  spend_bundle : SpendBundle;
  fee : Z;
  npc_result : NPCResult;
  cost : Z;
  spend_bundle_name : bytes;
  mi_additions : list Coin;
  mi_removals : list Coin;
  program : bytes;
}.
#[global] Instance MempoolItem_eq_dec : EqDecision MempoolItem.
Proof. solve_decision. Defined.

Definition fee_per_cost (i : MempoolItem) : res float := int_truediv (fee i) (cost i).

(** ** [SortedDict] keyed by floats *)
Section SortedDict.
Context {V : Type}.
Implicit Types (d : list (float * V)) (k : float) (v : V).

Fixpoint sd_get (k : float) (d : list (float * V)) : option V :=
  match d with
  | [] => None
  | (k', v) :: d' => if float_eq k k' then Some v else sd_get k d'
  end.
Fixpoint sd_set (k : float) (v : V) (d : list (float * V)) : list (float * V) :=
  match d with
  | [] => [(k, v)]
  | (k', v') :: d' =>
      if float_eq k k' then (k', v) :: d'
      else if float_lt k k' then (k, v) :: d
      else (k', v') :: sd_set k v d'
  end.
Fixpoint sd_remove (k : float) (d : list (float * V)) : list (float * V) :=
  match d with
  | [] => []
  | (k', v') :: d' => if float_eq k k' then d' else (k', v') :: sd_remove k d'
  end.
Definition sd_index (k : float) (d : list (float * V)) : res V := of_opt KeyError (sd_get k d).
Definition sd_del (k : float) (d : list (float * V)) : res (list (float * V)) :=
  match sd_get k d with Some _ => Ok (sd_remove k d) | None => Raise KeyError end.
End SortedDict.

(** ** [Mempool] *)
Record Mempool := {
  spends : dict bytes MempoolItem;
  sorted_spends : list (float * dict bytes MempoolItem);
  mp_additions : dict bytes MempoolItem;
  mp_removals : dict bytes MempoolItem;
  max_size_in_cost : Z;
  total_mempool_cost : Z;
}.

Definition mempool_new (max_size : Z) : Mempool :=
  {| spends := []; sorted_spends := []; mp_additions := []; mp_removals := [];
     max_size_in_cost := max_size; total_mempool_cost := 0 |}.

Definition at_full_capacity (c : Z) (p : Mempool) : bool :=
  max_size_in_cost p <? total_mempool_cost p + c.

(** The inner [return] leaves both loops; the integer 0 is the float 0.0. *)
Definition get_min_fee_rate (c : Z) (p : Mempool) : res float :=
  if at_full_capacity c p then
    r ← for_early (λ current_cost '(rate, spends_with_fpc),
          for_early (λ current_cost '(_, item),
            let current_cost := current_cost - cost item in
            if current_cost + c <=? max_size_in_cost p then Ok (inr rate) else Ok (inl current_cost))
          current_cost spends_with_fpc)
        (total_mempool_cost p) (sorted_spends p);
    match r with
    | inr rate => Ok rate
    | inl _ => Raise ValueError
    end
  else Ok (SpecFloat.S754_zero false).

Section Pool.
Context `{StdHash} `{ClvmCasts}.

Definition remove_from_pool (item : MempoolItem) (p : Mempool) : res Mempool :=
  removals ← for_fold (λ d rem, ddel (coin_name rem) d) (mp_removals p) (mi_removals item);
  additions ← for_fold (λ d add, ddel (coin_name add) d) (mp_additions p) (mi_additions item);
  spends ← ddel (spend_bundle_name item) (spends p);
  rate ← fee_per_cost item;
  bucket ← sd_index rate (sorted_spends p);
  bucket ← ddel (spend_bundle_name item) bucket;
  let sorted := sd_set rate bucket (sorted_spends p) in
  dic ← sd_index rate sorted;
  sorted ← (if bool_decide (length dic = 0%nat) then sd_del rate sorted else Ok sorted);
  let total := total_mempool_cost p - cost item in
  assert_ (0 <=? total) ;;
  Ok {| spends := spends; sorted_spends := sorted; mp_additions := additions;
        mp_removals := removals; max_size_in_cost := max_size_in_cost p;
        total_mempool_cost := total |}.

(** One pass of the [while] of [add_to_pool] *)
Definition make_room_body (c : Z) (p : Mempool) : res (Mempool + Mempool) :=
  if at_full_capacity c p then
    '(_, val) ← py_index (sorted_spends p) 0;
    to_remove ← py_index (val : dict bytes MempoolItem).*2 0;
    p ← remove_from_pool to_remove p;
    Ok (inl p)
  else Ok (inr p).

(** Every pass removes an item, so one more pass than there are items is enough. *)
Definition make_room (c : Z) (p : Mempool) : res Mempool :=
  loop (S (length (spends p))) (make_room_body c) p.

Definition add_to_pool (item : MempoolItem) (p : Mempool) : res Mempool :=
  p ← make_room (cost item) p;
  rate ← fee_per_cost item;
  let name := spend_bundle_name item in
  let sorted := match sd_get rate (sorted_spends p) with
                | Some _ => sorted_spends p
                | None => sd_set rate [] (sorted_spends p)
                end in
  bucket ← sd_index rate sorted;
  let sorted := sd_set rate (dset name item bucket) sorted in
  Ok {| spends := dset name item (spends p);
        sorted_spends := sorted;
        mp_additions := foldl (λ d add, dset (coin_name add) item d) (mp_additions p) (mi_additions item);
        mp_removals := foldl (λ d c, dset (coin_name c) item d) (mp_removals p) (mi_removals item);
        max_size_in_cost := max_size_in_cost p;
        total_mempool_cost := total_mempool_cost p + cost item |}.
End Pool.

(** ** [PendingTxCache] *)
Record PendingTxCache := {
  cache_max_total_cost : Z;
  cache_cost : Z;
  txs : dict bytes MempoolItem;
}.

Definition pending_new (cost_limit : Z) : PendingTxCache :=
  {| cache_max_total_cost := cost_limit; cache_cost := 0; txs := [] |}.

Definition pending_evict_body (c : PendingTxCache) : res (PendingTxCache + PendingTxCache) :=
  if cache_max_total_cost c <? cache_cost c then
    first_in ← py_index (txs c).*1 0;
    item ← dindex first_in (txs c);
    rest ← ddel first_in (txs c);
    Ok (inl {| cache_max_total_cost := cache_max_total_cost c;
               cache_cost := cache_cost c - cost item; txs := rest |})
  else Ok (inr c).

Definition pending_add (item : MempoolItem) (c : PendingTxCache) : res PendingTxCache :=
  if dmem (spend_bundle_name item) (txs c) then Ok c
  else
    let c := {| cache_max_total_cost := cache_max_total_cost c; cache_cost := cache_cost c + cost item;
                txs := dset (spend_bundle_name item) item (txs c) |} in
    loop (S (length (txs c))) pending_evict_body c.

Definition pending_drain (c : PendingTxCache) : dict bytes MempoolItem * PendingTxCache :=
  (txs c, {| cache_max_total_cost := cache_max_total_cost c; cache_cost := 0; txs := [] |}).

(** ** The sorted dictionary *)
Section SortedDictFacts.
Context {V : Type}.
Implicit Types (d : list (float * V)) (k : float) (v : V).

Definition sd_ok (d : list (float * V)) : Prop :=
  StronglySorted (λ a b, float_lt a b = true) d.*1 ∧ Forall (λ k, is_rate k = true) d.*1.

Lemma sd_ok_cons k v d : sd_ok ((k, v) :: d) ↔
  is_rate k = true ∧ Forall (λ k', float_lt k k' = true) d.*1 ∧ sd_ok d.
Proof. unfold sd_ok. cbn. rewrite StronglySorted_cons, Forall_cons. tauto. Qed.

Lemma sd_ok_app d d' : sd_ok (d ++ d') ↔
  sd_ok d ∧ sd_ok d' ∧ (∀ k k', k ∈ d.*1 → k' ∈ d'.*1 → float_lt k k' = true).
Proof. unfold sd_ok. rewrite fmap_app, StronglySorted_app, Forall_app. tauto. Qed.

(** The operations on a key that is present, in the middle of the list *)
Lemma sd_present d1 k v d2 : sd_ok (d1 ++ (k, v) :: d2) →
  sd_get k (d1 ++ (k, v) :: d2) = Some v
  ∧ (∀ v', sd_set k v' (d1 ++ (k, v) :: d2) = d1 ++ (k, v') :: d2)
  ∧ sd_remove k (d1 ++ (k, v) :: d2) = d1 ++ d2.
Proof.
  induction d1 as [|[k1 v1] d1 IH]; cbn [app].
  - rewrite sd_ok_cons. intros (Hk&_). cbn. by rewrite (proj2 (float_eq_true k k Hk Hk) eq_refl).
  - rewrite sd_ok_cons. intros (Hk1&Hlt&Hok).
    assert (Hk : is_rate k = true) by (apply sd_ok_app in Hok as (_&[]%sd_ok_cons&_); done).
    rewrite fmap_app, Forall_app in Hlt. cbn in Hlt. destruct Hlt as [_ [Hlt _]%Forall_cons].
    destruct (float_lt_ne k1 k Hk1 Hk Hlt) as (He&Hl&_). destruct (IH Hok) as (IH1&IH2&IH3).
    cbn. rewrite He, Hl, IH1, IH3. split_and!; [done| |done]. intros v'. by rewrite IH2.
Qed.

Lemma sd_get_split k v d : is_rate k = true → sd_ok d → sd_get k d = Some v →
  ∃ d1 d2, d = d1 ++ (k, v) :: d2.
Proof.
  intros Hk. induction d as [|[k1 v1] d IH]; cbn; [done|]. rewrite sd_ok_cons. intros (Hk1&_&Hok).
  destruct (float_eq k k1) eqn:E.
  - intros [= ->]. apply float_eq_true in E as <-; [|done|done]. by exists [], d.
  - intros (d1&d2&->)%IH; [|done]. by exists ((k1, v1) :: d1), d2.
Qed.

(** Inserting a new key puts it between the smaller and the larger ones. *)
Lemma sd_absent k d : is_rate k = true → sd_ok d → sd_get k d = None →
  ∃ d1 d2, d = d1 ++ d2 ∧ (∀ v, sd_set k v d = d1 ++ (k, v) :: d2)
           ∧ ∀ v, sd_ok (d1 ++ (k, v) :: d2).
Proof.
  intros Hk. induction d as [|[k1 v1] d IH]; cbn.
  - intros _ _. exists [], []. split_and!; [done|done|]. intros v. apply sd_ok_cons.
    split_and!; [done|constructor|]. split; constructor.
  - rewrite sd_ok_cons. intros (Hk1&Hlt&Hok). destruct (float_eq k k1) eqn:E; [done|]. intros Hn.
    destruct (rate_compare k k1 Hk Hk1) as [(E1&_&_&_)|[(_&?&_)|(E1&_&_&E2)]]; [|congruence|].
    + rewrite E1. exists [], ((k1, v1) :: d). split_and!; [done|done|]. intros v. cbn [app].
      rewrite !sd_ok_cons. split_and!; [done| |done|done|done]. cbn. constructor; [done|].
      apply list.Forall_forall. intros k2 Hk2. apply (float_lt_trans k k1 k2); try done.
      * destruct Hok as [_ Hr]. rewrite list.Forall_forall in Hr. by apply Hr.
      * rewrite list.Forall_forall in Hlt. by apply Hlt.
    + rewrite E2. destruct (IH Hok Hn) as (d1&d2&->&Hset&Hok').
      exists ((k1, v1) :: d1), d2. split_and!; [done|intros v; cbn; by rewrite Hset|].
      intros v. cbn [app]. rewrite sd_ok_cons. split_and!; [done| |done].
      rewrite fmap_app in Hlt |- *. cbn. apply Forall_app in Hlt as [Hlt1 Hlt2].
      apply Forall_app. split; [done|]. by constructor.
Qed.
End SortedDictFacts.

(** ** The invariant of the pool *)
Definition bucket (fd : float * dict bytes MempoolItem) : list (bytes * MempoolItem) := fd.2.
Definition flat (p : Mempool) : list (bytes * MempoolItem) := sorted_spends p ≫= bucket.
Fixpoint sum_cost (d : list (bytes * MempoolItem)) : Z :=
  match d with
  | [] => 0
  | (_, i) :: d => cost i + sum_cost d
  end.

#[global] Instance sum_cost_perm : Proper ((≡ₚ) ==> (=)) sum_cost.
Proof. intros d d'. induction 1 as [|[] d d' _ IH|[] [] d|]; cbn in *; lia. Qed.

Lemma sum_cost_app d d' : sum_cost (d ++ d') = sum_cost d + sum_cost d'.
Proof. induction d as [|[]]; cbn in *; lia. Qed.

Section PoolInvariant.
Context `{StdHash} `{ClvmCasts}.

Record item_ok (i : MempoolItem) : Prop := {
  io_cost : 0 < cost i;
  io_fee : 0 <= fee i;
  io_rate : ∃ f, fee_per_cost i = Ok f;
  io_removals : NoDup (coin_name <$> mi_removals i);
  io_additions : NoDup (coin_name <$> mi_additions i);
}.

(** The entries an item contributes to an index of coins *)
Definition entries (f : MempoolItem → list Coin) (i : MempoolItem) : dict bytes MempoolItem :=
  ((λ c, (coin_name c, i)) <$> f i : list (bytes * MempoolItem)).
Definition index (f : MempoolItem → list Coin) (d : dict bytes MempoolItem) : dict bytes MempoolItem :=
  mbind (M := list) (λ ni : bytes * MempoolItem, entries f ni.2) d.

(** The three views of the pool agree: the buckets by fee rate are sorted,
    nonempty and together hold the items of [spends]; [removals] and [additions]
    map every coin an item spends or creates to that item, and no coin belongs
    to two items; the cost is the sum over the items. *)
Record pool_ok (p : Mempool) : Prop := {
  po_wf : dict_wf (spends p);
  po_items : ∀ n i, (n, i) ∈ spends p → n = spend_bundle_name i ∧ item_ok i;
  po_sorted : sd_ok (sorted_spends p);
  po_flat : flat p ≡ₚ spends p;
  po_buckets : ∀ f d, (f, d) ∈ sorted_spends p →
    d ≠ [] ∧ ∀ n i, (n, i) ∈ d → fee_per_cost i = Ok f;
  po_removals : dict_wf (mp_removals p) ∧ mp_removals p ≡ₚ index mi_removals (spends p);
  po_additions : dict_wf (mp_additions p) ∧ mp_additions p ≡ₚ index mi_additions (spends p);
  po_cost : total_mempool_cost p = sum_cost (spends p);
}.

(** Deleting the entries of an item from an index that holds them *)
Lemma delete_entries_ok (i : MempoolItem) cs (d rest : dict bytes MempoolItem) :
  dict_wf d → d ≡ₚ ((λ c, (coin_name c, i)) <$> cs) ++ rest →
  ∃ d', for_fold (λ d c, ddel (coin_name c) d) d cs = Ok d' ∧ dict_wf d' ∧ d' ≡ₚ rest.
Proof.
  revert d. induction cs as [|c cs IH]; intros d Hwf E; [by eexists|]. cbn in E.
  cbn [for_fold]. rewrite (proj2 (ddel_Ok d (dremove (coin_name c) d) (coin_name c))).
  2:{ split; [|done]. exists i. apply dget_in_wf; [done|]. rewrite E. set_solver. }
  cbn [mbind res_bind]. apply IH; [by apply dremove_wf|]. by apply dremove_perm_inv in E.
Qed.

Lemma find_bucket p n i : pool_ok p → (n, i) ∈ spends p →
  ∃ s1 f d s2, sorted_spends p = s1 ++ (f, d) :: s2 ∧ fee_per_cost i = Ok f
    ∧ dget n d = Some i ∧ dict_wf (flat p) ∧ dict_wf d.
Proof.
  intros Hp Hin. assert (Hf : dict_wf (flat p)) by (eapply dict_wf_perm; [by rewrite (po_flat _ Hp)|apply Hp]).
  rewrite <- (po_flat _ Hp) in Hin. unfold flat in *. apply list_elem_of_bind in Hin as ([f d]&Hd&Hs).
  cbn in Hd. destruct (po_buckets _ Hp f d Hs) as [_ Hr].
  apply list_elem_of_split in Hs as (s1&s2&E). exists s1, f, d, s2.
  assert (dict_wf d) as Hwd.
  { rewrite E, bind_app in Hf. cbn in Hf. by apply dict_wf_app_l in Hf as [_ []%dict_wf_app_l]. }
  split_and!; [done|by apply (Hr n)|by apply dget_in_wf|done|done].
Qed.

Lemma index_cons f n i d : index f ((n, i) :: d) = entries f i ++ index f d.
Proof. done. Qed.

#[global] Instance index_perm f : Proper ((≡ₚ) ==> (≡ₚ)) (index f).
Proof. unfold index. solve_proper. Qed.

Lemma sum_cost_nonneg d : (∀ n i, (n, i) ∈ d → item_ok i) → 0 <= sum_cost d.
Proof.
  induction d as [|[n i] d IH]; intros Hd; cbn; [lia|].
  pose proof (io_cost i (Hd n i ltac:(set_solver))).
  assert (0 <= sum_cost d); [|lia]. apply IH. intros n' i' Hin. apply (Hd n'). set_solver.
Qed.

(** Taking an item out of its bucket *)
Lemma remove_from_buckets p n i s1 f d s2 :
  pool_ok p → sorted_spends p = s1 ++ (f, d) :: s2 → fee_per_cost i = Ok f →
  dget n d = Some i → dict_wf (flat p) →
  ∃ sorted, (let sorted := sd_set f (dremove n d) (sorted_spends p) in
             dic ← sd_index f sorted;
             (if bool_decide (length dic = 0%nat) then sd_del f sorted else Ok sorted)) = Ok sorted
    ∧ sd_ok sorted ∧ (sorted ≫= bucket) = dremove n (flat p)
    ∧ ∀ f' d', (f', d') ∈ sorted → d' ≠ [] ∧ ∀ n i, (n, i) ∈ d' → fee_per_cost i = Ok f'.
Proof.
  intros Hp Es Hf Hd Hwf. pose proof (po_sorted _ Hp) as Hok. rewrite Es in Hok.
  destruct (sd_present _ _ _ _ Hok) as (_&Hset&_). rewrite Es, Hset. cbn zeta.
  assert (Hok' : sd_ok (s1 ++ (f, dremove n d) :: s2)) by (unfold sd_ok in *; rewrite fmap_app in *; done).
  destruct (sd_present _ _ _ _ Hok') as (Hget&_&Hrem). unfold sd_index, sd_del. rewrite Hget. cbn [of_opt mbind res_bind].
  assert (Hflat : flat p = (s1 ≫= bucket) ++ d ++ (s2 ≫= bucket)) by (unfold flat; by rewrite Es, bind_app).
  assert (Hn1 : dget n (s1 ≫= bucket) = None).
  { apply dget_None. intros Hin. unfold dict_wf in Hwf. rewrite Hflat, fmap_app in Hwf.
    apply NoDup_app in Hwf as (_&Hdis&_). apply (Hdis n Hin). rewrite fmap_app. apply elem_of_app. left.
    apply dmem_true. unfold dmem. by rewrite Hd. }
  assert (Hfl : dremove n (flat p) = (s1 ≫= bucket) ++ dremove n d ++ (s2 ≫= bucket))
    by by rewrite Hflat, dremove_app_r, dremove_app_l.
  assert (Hb : ∀ f' d', (f', d') ∈ s1 ++ s2 → d' ≠ [] ∧ ∀ n i, (n, i) ∈ d' → fee_per_cost i = Ok f').
  { intros f' d' Hin. apply (po_buckets _ Hp). rewrite Es. set_solver. }
  destruct (dremove n d) as [|x d'] eqn:Ed.
  - exists (s1 ++ s2). rewrite bool_decide_true, Hrem by done. split_and!; [done| | |done].
    + apply sd_ok_app in Hok as (?&[_ [_ ?]]%sd_ok_cons&Hlt). apply sd_ok_app. split_and!; [done|done|].
      intros. apply Hlt; [done|]. cbn. set_solver.
    + rewrite Hfl, bind_app. done.
  - exists (s1 ++ (f, x :: d') :: s2). rewrite bool_decide_false by done. split_and!; [done|done| |].
    + rewrite Hfl, bind_app. done.
    + intros f' d0 Hin. rewrite elem_of_app, elem_of_cons in Hin.
      destruct Hin as [Hin|[[= -> ->]|Hin]]; [apply Hb; set_solver| |apply Hb; set_solver].
      split; [done|]. rewrite <- Ed. intros n' i' Hin'.
      assert ((f, d) ∈ sorted_spends p) as Hfd by (rewrite Es; set_solver).
      destruct (po_buckets _ Hp f d Hfd) as [_ Hr]. apply (Hr n').
      by eapply elem_of_sublist, dremove_keys_sub.
Qed.

Lemma remove_ok p n i : pool_ok p → (n, i) ∈ spends p →
  ∃ p', remove_from_pool i p = Ok p' ∧ pool_ok p' ∧ spends p ≡ₚ (n, i) :: spends p'
    ∧ flat p' = dremove n (flat p) ∧ max_size_in_cost p' = max_size_in_cost p
    ∧ total_mempool_cost p' = total_mempool_cost p - cost i.
Proof.
  intros Hp Hin. pose proof Hp as [Hwf Hit Hsd Hfl Hbk [Hrw Hr] [Haw Ha] Hc].
  destruct (Hit _ _ Hin) as [-> Hok]. set (n := spend_bundle_name i) in *.
  assert (Hget : dget n (spends p) = Some i) by by apply dget_in_wf.
  pose proof (dremove_perm _ _ _ Hget) as Hperm. pose proof (dremove_wf _ n Hwf) as Hwf'.
  set (rest := dremove n (spends p)) in *.
  destruct (delete_entries_ok i (mi_removals i) (mp_removals p) (index mi_removals rest))
    as (rem&Erem&Hrw'&Hr'); [done|by rewrite Hr, Hperm|].
  destruct (delete_entries_ok i (mi_additions i) (mp_additions p) (index mi_additions rest))
    as (add&Eadd&Haw'&Ha'); [done|by rewrite Ha, Hperm|].
  destruct (find_bucket p n i Hp Hin) as (s1&f&d&s2&Es&Hf&Hd&Hfw&Hdw).
  destruct (remove_from_buckets p n i s1 f d s2 Hp Es Hf Hd Hfw) as (sorted&Esort&Hsd'&Hflat'&Hbk').
  assert (Hit' : ∀ n' i', (n', i') ∈ rest → (n', i') ∈ spends p).
  { intros n' i' H'. rewrite Hperm. set_solver. }
  assert (Hcost : total_mempool_cost p - cost i = sum_cost rest).
  { rewrite Hc, Hperm. cbn. lia. }
  assert (Hnn : 0 <= sum_cost rest).
  { apply sum_cost_nonneg. intros n' i' H'%Hit'. by apply (Hit n'). }
  eexists. split_and!; [|split|..]; cbn [spends sorted_spends mp_removals mp_additions
    max_size_in_cost total_mempool_cost].
  - unfold remove_from_pool. rewrite Erem, Eadd. cbn [mbind res_bind]. fold n.
    rewrite (proj2 (ddel_Ok (spends p) rest n)) by (split; [eauto|done]).
    cbn [mbind res_bind]. rewrite Hf. cbn [mbind res_bind].
    assert (sd_index f (sorted_spends p) = Ok d) as ->.
    { unfold sd_index. rewrite Es in Hsd |- *. by rewrite (proj1 (sd_present _ _ _ _ Hsd)). }
    cbn [mbind res_bind]. rewrite (proj2 (ddel_Ok d (dremove n d) n)) by (split; [eauto|done]).
    cbn [mbind res_bind]. cbn zeta in Esort |- *.
    apply bind_Ok in Esort as (dic&Edic&Esort). rewrite Edic. cbn [mbind res_bind]. rewrite Esort.
    cbn [mbind res_bind]. rewrite (proj2 (assert_Ok _ tt)) by (apply Z.leb_le; lia). done.
  - done.
  - intros n' i' H'%Hit'. by apply Hit.
  - done.
  - unfold flat. cbn. rewrite Hflat'.
    apply (dremove_perm_inv n i); [done|]. by rewrite Hfl, <- Hperm.
  - done.
  - by split.
  - by split.
  - done.
  - done.
  - done.
  - done.
  - done.
Qed.

(** The item evicted next is the first one of the lowest bucket. *)
Lemma pool_head p n i rest : pool_ok p → flat p = (n, i) :: rest →
  ∃ f d s2, sorted_spends p = (f, (n, i) :: d) :: s2 ∧ fee_per_cost i = Ok f ∧ dremove n (flat p) = rest.
Proof.
  intros Hp E. destruct (sorted_spends p) as [|[f [|x d]] s2] eqn:Es.
  - unfold flat in E. by rewrite Es in E.
  - destruct (po_buckets _ Hp f []) as [Hne _]; [rewrite Es; set_solver|done].
  - pose proof E as E'. unfold flat in E'. rewrite Es in E'. cbn in E'. injection E' as -> _.
    exists f, d, s2. split_and!; [done| |].
    + destruct (po_buckets _ Hp f ((n, i) :: d)) as [_ Hr]; [rewrite Es; set_solver|]. apply (Hr n). set_solver.
    + rewrite E. cbn. by rewrite decide_True.
Qed.

Lemma pool_empty p : pool_ok p → flat p = [] → total_mempool_cost p = 0.
Proof.
  intros Hp E. rewrite (po_cost _ Hp). pose proof (po_flat _ Hp) as Hf. rewrite E in Hf.
  apply Permutation_nil in Hf. by rewrite Hf.
Qed.

Lemma flat_cost p : pool_ok p → total_mempool_cost p = sum_cost (flat p).
Proof. intros Hp. by rewrite (po_cost _ Hp), (po_flat _ Hp). Qed.

(** What eviction leaves of the pool: the items in the order of their rates
    without a prefix that is just long enough. *)
Record room_made (c : Z) (p p' : Mempool) (k : nat) : Prop := {
  rm_ok : pool_ok p';
  rm_flat : flat p' = drop k (flat p);
  rm_max : max_size_in_cost p' = max_size_in_cost p;
  rm_fits : total_mempool_cost p' + c <= max_size_in_cost p';
  rm_needed : ∀ j, (j < k)%nat → (j < length (flat p))%nat
    ∧ max_size_in_cost p < sum_cost (drop j (flat p)) + c;
}.

Lemma make_room_step c p n i rest :
  pool_ok p → at_full_capacity c p = true → flat p = (n, i) :: rest →
  ∃ p1, make_room_body c p = Ok (inl p1) ∧ pool_ok p1 ∧ flat p1 = rest
        ∧ max_size_in_cost p1 = max_size_in_cost p.
Proof.
  intros Hp Hfull Ef. destruct (pool_head p n i rest Hp Ef) as (f&d&s2&Es&_&Hrest).
  assert (Hin : (n, i) ∈ spends p) by (rewrite <- (po_flat _ Hp), Ef; set_solver).
  destruct (remove_ok p n i Hp Hin) as (p1&E1&Hp1&_&Hf1&Hm1&_). exists p1.
  split_and!; [|done|congruence|done]. unfold make_room_body. rewrite Hfull, Es.
  rewrite py_index_head. cbn [mbind res_bind fmap list_fmap snd].
  rewrite py_index_head. cbn [mbind res_bind]. by rewrite E1.
Qed.

Lemma make_room_loop c fuel p : pool_ok p → (length (flat p) < fuel)%nat → c <= max_size_in_cost p →
  ∃ p' k, loop fuel (make_room_body c) p = Ok p' ∧ room_made c p p' k.
Proof.
  revert p. induction fuel as [|fuel IH]; intros p Hp Hlt Hc; [lia|]. cbn [loop].
  destruct (at_full_capacity c p) eqn:Hfull.
  - pose proof Hfull as Hgt. apply Z.ltb_lt in Hgt.
    destruct (flat p) as [|[n i] rest] eqn:Ef; [apply pool_empty in Ef; [lia|done]|].
    destruct (make_room_step c p n i rest Hp Hfull Ef) as (p1&->&Hp1&Hf1&Hm1). cbn [mbind res_bind].
    destruct (IH p1 Hp1) as (p'&k&E'&Hrm); [rewrite Hf1; cbn in Hlt; lia|lia|].
    exists p', (S k). split; [done|]. destruct Hrm as [Hok Hfl Hmax Hfit Hneed].
    split; [done| |congruence|done|].
    + by rewrite Hfl, Hf1, Ef.
    + intros [|j] Hj; rewrite Ef; cbn [length drop].
      * split; [lia|]. rewrite <- Ef, <- (flat_cost p Hp). lia.
      * rewrite Hf1, Hm1 in Hneed. destruct (Hneed j ltac:(lia)). split; [lia|done].
  - assert (make_room_body c p = Ok (inr p)) as -> by (unfold make_room_body; by rewrite Hfull).
    apply Z.ltb_ge in Hfull. exists p, 0%nat. split; [done|]. split; [done|done|done|lia|lia].
Qed.

Lemma make_room_ok c p : pool_ok p → c <= max_size_in_cost p →
  ∃ p' k, make_room c p = Ok p' ∧ room_made c p p' k.
Proof.
  intros Hp. apply make_room_loop; [done|].
  rewrite (Permutation_length (po_flat _ Hp)). lia.
Qed.

(** ** Adding an item *)

(** The item is new and spends or creates no coin of an item in the pool. *)
Record pool_fits (i : MempoolItem) (p : Mempool) : Prop := {
  pf_item : item_ok i;
  pf_name : dget (spend_bundle_name i) (spends p) = None;
  pf_removals : ∀ c, c ∈ mi_removals i → dget (coin_name c) (mp_removals p) = None;
  pf_additions : ∀ c, c ∈ mi_additions i → dget (coin_name c) (mp_additions p) = None;
}.

Lemma pool_fits_room i p p' c k : pool_ok p → room_made c p p' k → pool_fits i p → pool_fits i p'.
Proof.
  intros Hp [Hp' Hf _ _ _] [Hi Hn Hr Ha].
  assert (Hs : ∀ x, x ∈ spends p' → x ∈ spends p).
  { intros x. rewrite <- (po_flat _ Hp), <- (po_flat _ Hp'), Hf.
    intros Hx. eapply elem_of_sublist; [done|apply sublist_drop]. }
  assert (Hidx : ∀ g x, x ∈ index g (spends p') → x ∈ index g (spends p)).
  { intros g x. unfold index. rewrite !list_elem_of_bind. naive_solver. }
  split; [done|by eapply dget_None_sub| |].
  - intros co Hc. eapply dget_None_sub, Hr; [|done]. intros x.
    rewrite (proj2 (po_removals _ Hp)), (proj2 (po_removals _ Hp')). apply Hidx.
  - intros co Hc. eapply dget_None_sub, Ha; [|done]. intros x.
    rewrite (proj2 (po_additions _ Hp)), (proj2 (po_additions _ Hp')). apply Hidx.
Qed.

Lemma insert_bucket (f : float) n i (s : list (float * dict bytes MempoolItem)) :
  is_rate f = true → sd_ok s → dget n (s ≫= bucket) = None →
  ∃ s1 d s2,
    (let sorted := match sd_get f s with Some _ => s | None => sd_set f [] s end in
     b ← sd_index f sorted; Ok (sd_set f (dset n i b) sorted)) = Ok (s1 ++ (f, d ++ [(n, i)]) :: s2)
    ∧ sd_ok (s1 ++ (f, d ++ [(n, i)]) :: s2)
    ∧ (s ≫= bucket) = (s1 ≫= bucket) ++ d ++ (s2 ≫= bucket)
    ∧ (∀ fd, fd ∈ s1 ++ s2 → fd ∈ s) ∧ (d = [] ∨ (f, d) ∈ s).
Proof.
  intros Hf Hs Hn. destruct (sd_get f s) as [d|] eqn:Hg; cbn zeta.
  - destruct (sd_get_split f d s Hf Hs Hg) as (s1&s2&->). exists s1, d, s2.
    rewrite bind_app in Hn |- *. cbn in Hn |- *. rewrite !dget_app in Hn.
    destruct (sd_present _ _ _ _ Hs) as (Hget&Hset&_). unfold sd_index. rewrite Hget.
    cbn [of_opt mbind res_bind]. rewrite dset_fresh, Hset.
    + split_and!; [done| |done|set_solver|right; set_solver].
      unfold sd_ok in *. rewrite fmap_app in *. done.
    + destruct (dget n (s1 ≫= bucket)); [done|]. by destruct (dget n d).
  - destruct (sd_absent f s Hf Hs Hg) as (s1&s2&->&Hset&Hok). exists s1, [], s2.
    rewrite Hset. destruct (sd_present _ _ _ _ (Hok [])) as (Hget&Hset'&_). unfold sd_index. rewrite Hget.
    cbn [of_opt mbind res_bind dset app]. rewrite Hset', bind_app.
    split_and!; [done|apply Hok|done|done|by left].
Qed.

Lemma dset_entries_ok (i : MempoolItem) cs (d : dict bytes MempoolItem) :
  NoDup (coin_name <$> cs) → (∀ c, c ∈ cs → dget (coin_name c) d = None) →
  foldl (λ d c, dset (coin_name c) i d) d cs = d ++ ((λ c, (coin_name c, i)) <$> cs).
Proof.
  revert d. induction cs as [|c cs IH]; intros d Hnd Hf; cbn; [by rewrite app_nil_r|].
  apply NoDup_cons in Hnd as [Hc Hnd]. rewrite dset_fresh by (apply Hf; set_solver).
  rewrite IH, <- app_assoc; [done|done|]. intros c' Hc'. rewrite dget_app, Hf by set_solver. cbn.
  rewrite decide_False; [done|]. intros E. apply Hc. rewrite <- E. apply list_elem_of_fmap. by exists c'.
Qed.

Lemma add_entries_ok (g : MempoolItem → list Coin) i (d sp : dict bytes MempoolItem) n :
  NoDup (coin_name <$> g i) → (∀ c, c ∈ g i → dget (coin_name c) d = None) →
  dict_wf d → d ≡ₚ index g sp →
  dict_wf (foldl (λ d c, dset (coin_name c) i d) d (g i))
  ∧ foldl (λ d c, dset (coin_name c) i d) d (g i) ≡ₚ index g (sp ++ [(n, i)]).
Proof.
  intros Hnd Hf Hwf Hd. rewrite dset_entries_ok by done. split.
  - unfold dict_wf in *. rewrite fmap_app, <- list_fmap_compose. apply NoDup_app.
    split_and!; [done| |done]. intros k Hk Hin. apply list_elem_of_fmap in Hin as (c&->&Hc).
    by apply Hf, dget_None in Hc.
  - unfold index. rewrite bind_app, Hd. cbn. by rewrite app_nil_r.
Qed.

Lemma add_to_pool_ok i p :
  pool_ok p → pool_fits i p → cost i <= max_size_in_cost p →
  ∃ p1 p' k, add_to_pool i p = Ok p' ∧ room_made (cost i) p p1 k ∧ pool_ok p'
    ∧ spends p' = spends p1 ++ [(spend_bundle_name i, i)]
    ∧ max_size_in_cost p' = max_size_in_cost p
    ∧ total_mempool_cost p' = total_mempool_cost p1 + cost i.
Proof.
  intros Hp Hfit Hc. destruct (make_room_ok (cost i) p Hp Hc) as (p1&k&E&Hrm).
  pose proof (pool_fits_room i p p1 _ k Hp Hrm Hfit) as [Hi Hn Hr Ha].
  pose proof (rm_ok _ _ _ _ Hrm) as Hp1. destruct (io_rate i Hi) as [f Hf].
  assert (Hrate : is_rate f = true)
    by (eapply int_truediv_rate; [| |exact Hf]; [apply (io_fee i Hi)|apply (io_cost i Hi)]).
  assert (Hnf : dget (spend_bundle_name i) (flat p1) = None).
  { eapply dget_None_sub, Hn. intros x. by rewrite (po_flat _ Hp1). }
  destruct (insert_bucket f (spend_bundle_name i) i (sorted_spends p1) Hrate (po_sorted _ Hp1) Hnf)
    as (s1&d&s2&Es&Hsd&Hbk&Hsub&Hd).
  destruct (add_entries_ok mi_removals i _ (spends p1) (spend_bundle_name i) (io_removals i Hi) Hr
    (proj1 (po_removals _ Hp1)) (proj2 (po_removals _ Hp1))) as [Hrw Hrp].
  destruct (add_entries_ok mi_additions i _ (spends p1) (spend_bundle_name i) (io_additions i Hi) Ha
    (proj1 (po_additions _ Hp1)) (proj2 (po_additions _ Hp1))) as [Haw Hap].
  exists p1. eexists _, k. split_and!; [|done|split|..].
  - unfold add_to_pool. rewrite E. cbn [mbind res_bind]. rewrite Hf. cbn [mbind res_bind]. cbn zeta in Es |- *.
    apply bind_Ok in Es as (b&Eb&Es). rewrite Eb. cbn [mbind res_bind]. injection Es as ->. reflexivity.
  - apply dset_wf, Hp1.
  - cbn. rewrite dset_fresh by done. intros n' i' Hin. rewrite elem_of_app in Hin.
    destruct Hin as [Hin|Hin]; [by apply (po_items _ Hp1)|].
    apply list_elem_of_singleton in Hin as [= -> ->]. done.
  - done.
  - cbn. rewrite dset_fresh by done. unfold flat. cbn. rewrite bind_app. cbn.
    rewrite <- (po_flat _ Hp1). unfold flat. rewrite Hbk. solve_Permutation.
  - cbn. intros f' d' Hin. rewrite elem_of_app, elem_of_cons in Hin.
    assert (Hcase : (f', d') ∈ s1 ++ s2 ∨ (f', d') = (f, d ++ [(spend_bundle_name i, i)])) by set_solver.
    destruct Hcase as [Ho|[= -> ->]]; [by apply (po_buckets _ Hp1), Hsub|].
    split; [by destruct d|]. intros n' i' Hin'. rewrite elem_of_app in Hin'.
    destruct Hin' as [Hin'|Hin'].
    + destruct Hd as [->|Hd]; [set_solver|]. apply (po_buckets _ Hp1) in Hd as [_ Hd]. by apply (Hd n').
    + by apply list_elem_of_singleton in Hin' as [= -> ->].
  - cbn. rewrite (dset_fresh (spends p1)) by done. by split.
  - cbn. rewrite (dset_fresh (spends p1)) by done. by split.
  - cbn. rewrite dset_fresh by done. rewrite sum_cost_app, (po_cost _ Hp1). cbn. lia.
  - cbn. by rewrite dset_fresh.
  - cbn. apply (rm_max _ _ _ _ Hrm).
  - done.
Qed.
End PoolInvariant.

(** ** Order of the rates *)
Section RateOrderPool.
Context `{StdHash} `{ClvmCasts}.

Definition rate_le (x y : MempoolItem) : Prop :=
  ∀ fx fy, fee_per_cost x = Ok fx → fee_per_cost y = Ok fy → float_lt fy fx = false.

Definition buckets_ok (s : list (float * dict bytes MempoolItem)) : Prop :=
  sd_ok s ∧ ∀ f d, (f, d) ∈ s → ∀ n i, (n, i) ∈ d → fee_per_cost i = Ok f.

Lemma buckets_ok_cons f d s : buckets_ok ((f, d) :: s) → buckets_ok s.
Proof. intros [Hs Hb]. apply sd_ok_cons in Hs as (_&_&Hs). split; [done|]. intros f' d' Hin. apply Hb. set_solver. Qed.

Lemma same_bucket f d s x y : buckets_ok ((f, d) :: s) → x ∈ d → y ∈ d → rate_le x.2 y.2.
Proof.
  intros [Hs Hb] Hx Hy fx fy Ex Ey. apply sd_ok_cons in Hs as (Hf&_&_). destruct x as [nx ix], y as [ny iy].
  cbn in Ex, Ey. rewrite (Hb f d ltac:(set_solver) nx ix Hx) in Ex.
  rewrite (Hb f d ltac:(set_solver) ny iy Hy) in Ey. injection Ex as <-. injection Ey as <-.
  destruct (rate_compare f f Hf Hf) as [(?&_&?&_)|[(?&_)|(?&_&?&_)]]; done.
Qed.

Lemma later_bucket f d s x y : buckets_ok ((f, d) :: s) → x ∈ d → y ∈ s ≫= bucket → rate_le x.2 y.2.
Proof.
  intros [Hs Hb] Hx Hy fx fy Ex Ey. apply sd_ok_cons in Hs as (Hf&Hlt&[_ Hr]).
  apply list_elem_of_bind in Hy as ([f' d']&Hy&Hfd). destruct x as [nx ix], y as [ny iy]. cbn in Ex, Ey.
  rewrite (Hb f d ltac:(set_solver) nx ix Hx) in Ex. injection Ex as <-.
  rewrite (Hb f' d' ltac:(set_solver) ny iy Hy) in Ey. injection Ey as <-.
  rewrite list.Forall_forall in Hlt, Hr.
  assert (Hf' : f' ∈ s.*1) by (apply list_elem_of_fmap; by exists (f', d')).
  by destruct (float_lt_ne f f' Hf (Hr _ Hf') (Hlt _ Hf')) as (_&?&_).
Qed.

Lemma sorted_all {A} (R : A → A → Prop) l : (∀ x y, x ∈ l → y ∈ l → R x y) → StronglySorted R l.
Proof.
  induction l as [|x l IH]; intros Hl; [constructor|]. constructor; [apply IH; set_solver|].
  apply list.Forall_forall. intros y Hy. apply Hl; set_solver.
Qed.

Lemma buckets_sorted s : buckets_ok s → StronglySorted (λ x y, rate_le x.2 y.2) (s ≫= bucket).
Proof.
  induction s as [|[f d] s IH]; intros Hs; [constructor|]. cbn.
  apply StronglySorted_app_2; [|apply sorted_all|eapply IH, buckets_ok_cons; done].
  - intros x y. by eapply later_bucket.
  - intros x y. by eapply same_bucket.
Qed.

Lemma buckets_rev_sorted s : buckets_ok s → StronglySorted (λ x y, rate_le y.2 x.2) (rev s ≫= bucket).
Proof.
  induction s as [|[f d] s IH]; intros Hs; [constructor|]. cbn [rev]. rewrite bind_app. cbn.
  rewrite app_nil_r. apply StronglySorted_app_2; [|eapply IH, buckets_ok_cons; done|apply sorted_all].
  - intros x y Hx Hy. eapply later_bucket; [done|done|]. by rewrite (Permutation_rev s).
  - intros x y Hx Hy. by eapply same_bucket.
Qed.

Lemma pool_buckets_ok p : pool_ok p → buckets_ok (sorted_spends p).
Proof. intros Hp. split; [apply Hp|]. intros f d Hfd. by apply (po_buckets _ Hp). Qed.

Lemma flat_sorted p : pool_ok p → StronglySorted (λ x y, rate_le x.2 y.2) (flat p).
Proof. intros Hp. by apply buckets_sorted, pool_buckets_ok. Qed.
End RateOrderPool.

(** C22. [add_to_pool] keeps the invariant and the size limit.  It evicts a group of
    items none of which pays a higher rate than an item it keeps, and no more of
    them than the new item needs: leaving out the last ones evicted would exceed
    the limit. *)
Theorem add_to_pool_evicts_cheapest `{StdHash} `{ClvmCasts} (p : Mempool) (i : MempoolItem) :
  pool_ok p → pool_fits i p → cost i <= max_size_in_cost p →
  ∃ p' evicted kept, add_to_pool i p = Ok p' ∧ pool_ok p'
    ∧ total_mempool_cost p' <= max_size_in_cost p'
    ∧ spends p ≡ₚ evicted ++ kept
    ∧ spends p' ≡ₚ (spend_bundle_name i, i) :: kept
    ∧ (∀ e k, e ∈ evicted → k ∈ kept → rate_le e.2 k.2)
    ∧ ∀ j, (j < length evicted)%nat →
        max_size_in_cost p < sum_cost (drop j evicted) + sum_cost kept + cost i.
Proof.
  intros Hp Hfit Hc. destruct (add_to_pool_ok i p Hp Hfit Hc) as (p1&p'&k&E&Hrm&Hp'&Hs&Hm&Ht).
  exists p', (take k (flat p)), (drop k (flat p)). pose proof (rm_ok _ _ _ _ Hrm) as Hp1.
  split_and!; [done|done| | | | |].
  - rewrite Ht, Hm. pose proof (rm_fits _ _ _ _ Hrm). rewrite (rm_max _ _ _ _ Hrm) in *. done.
  - by rewrite take_drop, (po_flat _ Hp).
  - rewrite Hs, <- (po_flat _ Hp1), (rm_flat _ _ _ _ Hrm). by rewrite Permutation_app_comm.
  - intros e x He Hx. eapply (StronglySorted_app_1_elem_of (λ x y, rate_le x.2 y.2)); [|done|done].
    rewrite take_drop. by apply flat_sorted.
  - intros j Hj. rewrite length_take in Hj.
    destruct (rm_needed _ _ _ _ Hrm j ltac:(lia)) as [_ Hn].
    rewrite <- sum_cost_app, <- drop_app_le by (rewrite length_take; lia). by rewrite take_drop.
Qed.

(** ** [get_min_fee_rate] *)
Section MinFee.
Context `{StdHash} `{ClvmCasts}.
Context (c mx : Z).

Definition scan_item (rate : float) (current_cost : Z) (ni : bytes * MempoolItem) : res (Z + float) :=
  let '(_, item) := ni in
  let current_cost := current_cost - cost item in
  if current_cost + c <=? mx then Ok (inr rate) else Ok (inl current_cost).

(** One bucket: the scan leaves at the first item whose removal makes room. *)
Lemma scan_bucket rate d cur :
  mx < cur + c →
  (∃ k ni, d !! k = Some ni ∧ for_early (scan_item rate) cur d = Ok (inr rate)
     ∧ cur - sum_cost (take (S k) d) + c <= mx
     ∧ ∀ j, (j <= k)%nat → mx < cur - sum_cost (take j d) + c)
  ∨ (for_early (scan_item rate) cur d = Ok (inl (cur - sum_cost d))
     ∧ ∀ j, mx < cur - sum_cost (take j d) + c).
Proof.
  revert cur. induction d as [|[n i] d IH]; intros cur Hcur.
  - right. cbn. split; [do 2 f_equal; lia|]. intros []; cbn [take firstn sum_cost]; rewrite ?take_0; cbn [sum_cost]; lia.
  - cbn [for_early]. change (scan_item rate cur (n, i)) with
      (if cur - cost i + c <=? mx then Ok (inr rate) else Ok (inl (cur - cost i)) : res (Z + float)).
    destruct (Z.leb_spec (cur - cost i + c) mx) as [Hle|Hgt]; cbn [mbind res_bind].
    + left. exists 0%nat, (n, i). split_and!; [done|done|cbn [take firstn sum_cost]; rewrite ?take_0; cbn [sum_cost]; lia|]. intros j Hj.
      replace j with 0%nat by lia. cbn [take firstn sum_cost]; rewrite ?take_0; cbn [sum_cost]. lia.
    + destruct (IH (cur - cost i) Hgt) as [(k&ni&Hk&E&Hfit&Hj)|[E Hj]].
      * left. exists (S k), ni. split_and!; [done|done|cbn [take firstn sum_cost] in *; rewrite ?take_0 in *; cbn [sum_cost] in *; lia|].
        intros [|j] Hle; cbn [take firstn sum_cost]; rewrite ?take_0; cbn [sum_cost]; [lia|]. specialize (Hj j ltac:(lia)). lia.
      * right. split; [rewrite E; do 2 f_equal; cbn; lia|].
        intros [|j]; cbn [take firstn sum_cost]; rewrite ?take_0; cbn [sum_cost]; [lia|]. specialize (Hj j). lia.
Qed.

Lemma scan_buckets (s : list (float * dict bytes MempoolItem)) cur :
  mx < cur + c → cur - sum_cost (s ≫= bucket) + c <= mx →
  ∃ k ni rate d, (s ≫= bucket) !! k = Some ni ∧ (rate, d) ∈ s ∧ ni ∈ d
    ∧ for_early (λ cur '(rate, d), for_early (scan_item rate) cur d) cur s = Ok (inr rate)
    ∧ cur - sum_cost (take (S k) (s ≫= bucket)) + c <= mx
    ∧ ∀ j, (j <= k)%nat → mx < cur - sum_cost (take j (s ≫= bucket)) + c.
Proof.
  revert cur. induction s as [|[rate d] s IH]; intros cur Hcur Hfit; [cbn [mbind list_bind sum_cost] in *; lia|].
  cbn [for_early]. cbn [mbind list_bind bucket snd] in *.
  destruct (scan_bucket rate d cur Hcur) as [(k&ni&Hk&E&Hf&Hj)|[E Hj]]; rewrite E; cbn [mbind res_bind].
  - apply lookup_lt_Some in Hk as Hlt. exists k, ni, rate, d.
    split_and!; [by rewrite lookup_app_l|set_solver|by eapply list_elem_of_lookup_2|done| |].
    + rewrite take_app_le by lia. done.
    + intros j Hjk. rewrite take_app_le by lia. by apply Hj.
  - rewrite sum_cost_app in Hfit. pose proof (Hj (length d)) as Hd. rewrite take_ge in Hd by lia.
    destruct (IH (cur - sum_cost d)) as (k&ni&rate'&d'&Hk&Hin&Hni&E'&Hf&Hj'); [lia|lia|].
    exists (length d + k)%nat, ni, rate', d'.
    assert (Ht : ∀ j, sum_cost (take (length d + j) (d ++ s ≫= bucket))
                      = sum_cost d + sum_cost (take j (s ≫= bucket))).
    { intros j. rewrite take_app_add. apply sum_cost_app. }
    split_and!; [|set_solver|done|done| |].
    + rewrite lookup_app_r by lia. by replace (length d + k - length d)%nat with k by lia.
    + rewrite <- Nat.add_succ_r, Ht. lia.
    + intros j Hjk. destruct (decide (j <= length d)%nat).
      * rewrite take_app_le by lia. apply Hj.
      * replace j with (length d + (j - length d))%nat by lia. rewrite Ht.
        specialize (Hj' (j - length d)%nat ltac:(lia)). lia.
Qed.
End MinFee.

(** For a transaction that does not fit at once, [get_min_fee_rate] returns the
    rate of the last, and so the dearest, of the items that [add_to_pool] would
    evict for it. *)
Theorem min_fee_rate_is_last_evicted `{StdHash} `{ClvmCasts} (p : Mempool) (c : Z) :
  pool_ok p → at_full_capacity c p = true → c <= max_size_in_cost p →
  ∃ p' k e rate, make_room c p = Ok p' ∧ flat p' = drop (S k) (flat p)
    ∧ flat p !! k = Some e ∧ fee_per_cost e.2 = Ok rate
    ∧ get_min_fee_rate c p = Ok rate.
Proof.
  intros Hp Hfull Hc. pose proof Hfull as Hgt. apply Z.ltb_lt in Hgt.
  destruct (make_room_ok c p Hp Hc) as (p'&k'&E&Hrm).
  destruct (scan_buckets c (max_size_in_cost p) (sorted_spends p) (total_mempool_cost p))
    as (k&[n i]&rate&d&Hk&Hd&Hni&Es&Hfit&Hj); [lia|fold (flat p); rewrite (flat_cost p Hp); lia|].
  fold (flat p) in *. apply lookup_lt_Some in Hk as Hlt.
  assert (Hsum : ∀ j, sum_cost (drop j (flat p)) = total_mempool_cost p - sum_cost (take j (flat p))).
  { intros j. rewrite (flat_cost p Hp). rewrite <- (take_drop j (flat p)) at 2. rewrite sum_cost_app. lia. }
  assert (k' = S k) as ->.
  { destruct (lt_eq_lt_dec k' (S k)) as [[Hl|Hl]|Hl]; [|done|].
    - pose proof (rm_fits _ _ _ _ Hrm) as Hf. rewrite (rm_max _ _ _ _ Hrm) in Hf.
      rewrite (flat_cost p' (rm_ok _ _ _ _ Hrm)), (rm_flat _ _ _ _ Hrm), Hsum in Hf.
      specialize (Hj k' ltac:(lia)). lia.
    - destruct (rm_needed _ _ _ _ Hrm (S k) Hl) as [_ Hn]. rewrite Hsum in Hn. lia. }
  exists p', k, (n, i), rate. split_and!; [done|apply (rm_flat _ _ _ _ Hrm)|done| |].
  - destruct (po_buckets _ Hp rate d Hd) as [_ Hr]. by apply (Hr n).
  - unfold get_min_fee_rate. rewrite Hfull. fold (scan_item c (max_size_in_cost p)).
    change (for_early _ (total_mempool_cost p) (sorted_spends p))
      with (for_early (λ cur '(rate, d), for_early (scan_item c (max_size_in_cost p) rate) cur d)
              (total_mempool_cost p) (sorted_spends p)).
    by rewrite Es.
Qed.

(** ** The cache of pending transactions *)
Record pending_ok (c : PendingTxCache) : Prop := {
  pk_wf : dict_wf (txs c);
  pk_cost : cache_cost c = sum_cost (txs c);
}.

Lemma pending_evict_step c n i d : txs c = (n, i) :: d → cache_max_total_cost c < cache_cost c →
  pending_evict_body c = Ok (inl {| cache_max_total_cost := cache_max_total_cost c;
                                    cache_cost := cache_cost c - cost i; txs := d |}).
Proof.
  intros E Hc. unfold pending_evict_body. rewrite (proj2 (Z.ltb_lt _ _)), E by done.
  cbn [fmap list_fmap fst]. rewrite py_index_head. cbn [mbind res_bind].
  unfold dindex, ddel, dmem. cbn [dget dremove]. by rewrite !decide_True.
Qed.

Lemma pending_evict_ok fuel c :
  pending_ok c → (length (txs c) < fuel)%nat → 0 <= cache_max_total_cost c →
  ∃ c' k, loop fuel pending_evict_body c = Ok c' ∧ pending_ok c' ∧ txs c' = drop k (txs c)
    ∧ cache_max_total_cost c' = cache_max_total_cost c ∧ cache_cost c' <= cache_max_total_cost c
    ∧ ∀ j, (j < k)%nat → cache_max_total_cost c < sum_cost (drop j (txs c)).
Proof.
  revert c. induction fuel as [|fuel IH]; intros c Hc Hlt H0; [lia|]. cbn [loop].
  destruct (Z.ltb_spec (cache_max_total_cost c) (cache_cost c)) as [Hf|Hf].
  - destruct (txs c) as [|[n i] d] eqn:E; [pose proof (pk_cost _ Hc) as Hz; rewrite E in Hz; cbn in Hz; lia|].
    rewrite (pending_evict_step c n i d E Hf). cbn [mbind res_bind].
    destruct Hc as [Hwf Hcost]. rewrite E in Hwf, Hcost. cbn in Hcost.
    destruct (IH {| cache_max_total_cost := cache_max_total_cost c;
                    cache_cost := cache_cost c - cost i; txs := d |}) as (c'&k&E'&Hc'&Ht&Hm&Hle&Hj);
      cbn [txs cache_max_total_cost] in *.
    + split; cbn; [|lia]. unfold dict_wf in *. cbn in Hwf. by apply NoDup_cons in Hwf as [_ ?].
    + cbn in Hlt. lia.
    + done.
    + exists c', (S k). split_and!; [done|done|done|done|done|]. intros [|j] Hjk; [cbn; lia|].
      cbn. apply Hj. lia.
  - assert (pending_evict_body c = Ok (inr c)) as ->
      by (unfold pending_evict_body; by rewrite (proj2 (Z.ltb_ge _ _))).
    exists c, 0%nat. split_and!; [done|done|done|done|lia|lia].
Qed.

(** Adding a transaction to the pending cache keeps the cost of the cache the sum
    of its entries and within the limit, and drops the oldest entries, no more
    than needed. *)
Theorem pending_add_spec (c : PendingTxCache) (i : MempoolItem) :
  pending_ok c → 0 <= cache_max_total_cost c → dget (spend_bundle_name i) (txs c) = None →
  ∃ c' k, pending_add i c = Ok c' ∧ pending_ok c'
    ∧ txs c' = drop k (txs c ++ [(spend_bundle_name i, i)])
    ∧ cache_cost c' <= cache_max_total_cost c'
    ∧ ∀ j, (j < k)%nat →
        cache_max_total_cost c < sum_cost (drop j (txs c ++ [(spend_bundle_name i, i)])).
Proof.
  intros [Hwf Hc] H0 Hn. unfold pending_add. rewrite (proj2 (dmem_false _ _)) by done.
  rewrite <- (dset_fresh _ _ i Hn). set (c1 := {| txs := _ |}).
  destruct (pending_evict_ok (S (length (txs c1))) c1) as (c'&k&E&Hc'&Ht&Hm&Hle&Hj).
  - split; cbn; [by apply dset_wf|]. rewrite dset_fresh, sum_cost_app by done. cbn. lia.
  - lia.
  - done.
  - exists c', k. split_and!; [done|done|done|by rewrite Hm|done].
Qed.

(** ** Sample pool *)
Definition sample_item (k fee_ cost_ : Z) : MempoolItem := {|
  spend_bundle := {| coin_spends := []; aggregated_signature := [] |};
  fee := fee_; npc_result := {| npc_error := None; npc_list := []; clvm_cost := 0 |};
  cost := cost_; spend_bundle_name := [k]; mi_additions := [sample_coin k 1 5];
  mi_removals := [sample_coin k 2 6]; program := [] |}.

(** A pool of three items with rates 1, 1 and 3, the first two sharing a bucket *)
Definition sample_pool : Mempool :=
  match (p ← add_to_pool (sample_item 1 10 10) (mempool_new 40);
         p ← add_to_pool (sample_item 2 30 10) p; add_to_pool (sample_item 3 10 10) p) with
  | Ok p => p
  | _ => mempool_new 0
  end.

Lemma mempool_new_ok `{StdHash} `{ClvmCasts} m : pool_ok (mempool_new m).
Proof.
  split; cbn; try done; try (split; [constructor|done]); try constructor; try set_solver; constructor.
Qed.

#[global] Instance item_ok_dec `{StdHash} `{ClvmCasts} i : Decision (item_ok i).
Proof.
  refine (cast_if (decide (0 < cost i ∧ 0 <= fee i ∧ is_Ok (fee_per_cost i) = true
    ∧ NoDup (coin_name <$> mi_removals i) ∧ NoDup (coin_name <$> mi_additions i)))).
  - abstract (destruct a as (?&?&Hf&?&?); split; [done|done| |done|done];
      destruct (fee_per_cost i); [by eexists|done|done]).
  - abstract (intros [? ? [f Hf] ? ?]; apply n; by rewrite Hf).
Defined.
#[global] Instance pool_fits_dec `{StdHash} `{ClvmCasts} i p : Decision (pool_fits i p).
Proof.
  refine (cast_if (decide (item_ok i ∧ dget (spend_bundle_name i) (spends p) = None
    ∧ Forall (λ c, dget (coin_name c) (mp_removals p) = None) (mi_removals i)
    ∧ Forall (λ c, dget (coin_name c) (mp_additions p) = None) (mi_additions i)))).
  - abstract (destruct a as (?&?&Hr&Ha); rewrite list.Forall_forall in Hr, Ha; by split).
  - abstract (intros []; apply n; rewrite !list.Forall_forall; done).
Defined.

Lemma sample_pool_ok : pool_ok sample_pool.
Proof.
  destruct (add_to_pool_ok (sample_item 1 10 10) (mempool_new 40)) as (?&p1&?&E1&_&Hp1&_&Hm1&_);
    [apply mempool_new_ok|apply (bool_decide_unpack _); vm_compute; exact I|vm_compute; congruence|].
  vm_compute in E1. injection E1 as <-.
  destruct (add_to_pool_ok (sample_item 2 30 10) _ Hp1) as (?&p2&?&E2&_&Hp2&_&Hm2&_);
    [apply (bool_decide_unpack _); vm_compute; exact I|vm_compute; congruence|].
  vm_compute in E2. injection E2 as <-.
  destruct (add_to_pool_ok (sample_item 3 10 10) _ Hp2) as (?&p3&?&E3&_&Hp3&_&Hm3&_);
    [apply (bool_decide_unpack _); vm_compute; exact I|vm_compute; congruence|].
  vm_compute in E3. injection E3 as <-. exact Hp3.
Qed.

Lemma add_to_pool_evicts_cheapest_witness :
  let i := sample_item 4 50 25 in
  pool_ok sample_pool ∧ pool_fits i sample_pool ∧ cost i <= max_size_in_cost sample_pool
  ∧ ∃ p' evicted kept, add_to_pool i sample_pool = Ok p' ∧ pool_ok p'
      ∧ total_mempool_cost p' <= max_size_in_cost p'
      ∧ spends sample_pool ≡ₚ evicted ++ kept
      ∧ spends p' ≡ₚ (spend_bundle_name i, i) :: kept
      ∧ (∀ e k, e ∈ evicted → k ∈ kept → rate_le e.2 k.2)
      ∧ ∀ j, (j < length evicted)%nat →
          max_size_in_cost sample_pool < sum_cost (drop j evicted) + sum_cost kept + cost i.
Proof.
  intros i.
  assert (Hf : pool_fits i sample_pool) by (apply (bool_decide_unpack _); vm_compute; exact I).
  assert (Hc : cost i <= max_size_in_cost sample_pool) by (vm_compute; congruence).
  split_and!; [exact sample_pool_ok|exact Hf|exact Hc|].
  exact (add_to_pool_evicts_cheapest sample_pool i sample_pool_ok Hf Hc).
Defined.

Lemma min_fee_rate_is_last_evicted_witness :
  pool_ok sample_pool ∧ at_full_capacity 25 sample_pool = true ∧ 25 <= max_size_in_cost sample_pool
  ∧ ∃ p' k e rate, make_room 25 sample_pool = Ok p' ∧ flat p' = drop (S k) (flat sample_pool)
      ∧ flat sample_pool !! k = Some e ∧ fee_per_cost e.2 = Ok rate
      ∧ get_min_fee_rate 25 sample_pool = Ok rate.
Proof.
  assert (Hf : at_full_capacity 25 sample_pool = true) by (vm_compute; reflexivity).
  assert (Hc : 25 <= max_size_in_cost sample_pool) by (vm_compute; congruence).
  split_and!; [exact sample_pool_ok|exact Hf|exact Hc|].
  exact (min_fee_rate_is_last_evicted sample_pool 25 sample_pool_ok Hf Hc).
Defined.

Lemma pending_add_spec_witness :
  let c := {| cache_max_total_cost := 25; cache_cost := 20;
              txs := [([1], sample_item 1 10 10); ([2], sample_item 2 30 10)] |} in
  let i := sample_item 3 10 10 in
  pending_ok c ∧ 0 <= cache_max_total_cost c ∧ dget (spend_bundle_name i) (txs c) = None
  ∧ ∃ c' k, pending_add i c = Ok c' ∧ pending_ok c'
    ∧ txs c' = drop k (txs c ++ [(spend_bundle_name i, i)])
    ∧ cache_cost c' <= cache_max_total_cost c'
    ∧ ∀ j, (j < k)%nat →
        cache_max_total_cost c < sum_cost (drop j (txs c ++ [(spend_bundle_name i, i)])).
Proof.
  intros c i.
  assert (Hc : pending_ok c) by (split; [apply (bool_decide_unpack _); vm_compute; exact I|reflexivity]).
  assert (H0 : 0 <= cache_max_total_cost c) by (cbn; lia).
  split_and!; [exact Hc|exact H0|reflexivity|].
  exact (pending_add_spec c i Hc H0 eq_refl).
Defined.
