(* ===== verification/MempoolManager.v ===== *)
(** * The mempool manager

    Models [chia/full_node/mempool_manager.py]: admission of a spend bundle
    ([add_spendbundle], [check_removals], [can_replace]), the rebuild of the
    mempool on a new peak ([new_peak]), the selection of transactions for a block
    ([create_bundle_from_mempool]), and the bookkeeping of seen bundles.

    The coin store is used through an interface, [CoinView], which the store of
    [CoinStore] implements.  Building the generator program of a bundle
    ([simple_solution_generator], on the [clvm] packages) and aggregating
    signatures ([AugSchemeMPL.aggregate] of [blspy]) are parameters. *)
From S2P Require Import Prelude PyInt PyFloat Consensus Errors Coins CoinStore Mempool.

(** ** What the manager needs of a coin store *)
Class CoinView (S : Type) `{StdHash} `{ClvmCasts} := {
  view_get : bytes → ST S (option CoinRecord);
  view_of : S → gmap bytes CoinRecord → Prop;
  view_named : ∀ s m n r, view_of s m → m !! n = Some r → n = coin_name (coin r) ∧ 0 <= amount (coin r) < 2 ^ 64;
  view_get_ok : ∀ s m n, view_of s m → ∃ s', view_get n s = (Ok (m !! n), s') ∧ view_of s' m;
}.

#[export] Program Instance CoinStore_view `{StdHash} `{ClvmCasts} : CoinView CoinStore :=
  {| view_get := get_coin_record; view_of := implements |}.
Next Obligation.
  intros ?? s m n r Hi Hm. destruct (im_records _ _ Hi _ _ Hm) as [? [[_ _ ?] _]]. done.
Qed.
Next Obligation. intros ?? s m n. apply get_coin_record_ok. Qed.

Inductive MempoolInclusionStatus := SUCCESS | PENDING | FAILED.
#[global] Instance MempoolInclusionStatus_eq_dec : EqDecision MempoolInclusionStatus.
Proof. solve_decision. Defined.

Record MempoolManager (S : Type) := {
  mm_constants : ConsensusConstants;
  seen_bundle_hashes : dict bytes bytes;
  coin_store : S;
  mempool_max_total_cost : Z;
  potential_cache : PendingTxCache;
  seen_cache_size : Z;
  peak : option BlockRecord;
  mempool : Mempool;
}.
Arguments mm_constants {S} _.
Arguments seen_bundle_hashes {S} _.
Arguments coin_store {S} _.
Arguments mempool_max_total_cost {S} _.
Arguments potential_cache {S} _.
Arguments seen_cache_size {S} _.
Arguments peak {S} _.
Arguments mempool {S} _.

Section Fields.
Context {S : Type}.
Definition set_coin_store (cs : S) (s : MempoolManager S) : MempoolManager S :=
  {| mm_constants := mm_constants s; seen_bundle_hashes := seen_bundle_hashes s; coin_store := cs;
     mempool_max_total_cost := mempool_max_total_cost s; potential_cache := potential_cache s;
     seen_cache_size := seen_cache_size s; peak := peak s; mempool := mempool s |}.
Definition set_mempool (p : Mempool) (s : MempoolManager S) : MempoolManager S :=
  {| mm_constants := mm_constants s; seen_bundle_hashes := seen_bundle_hashes s; coin_store := coin_store s;
     mempool_max_total_cost := mempool_max_total_cost s; potential_cache := potential_cache s;
     seen_cache_size := seen_cache_size s; peak := peak s; mempool := p |}.
Definition set_potential (c : PendingTxCache) (s : MempoolManager S) : MempoolManager S :=
  {| mm_constants := mm_constants s; seen_bundle_hashes := seen_bundle_hashes s; coin_store := coin_store s;
     mempool_max_total_cost := mempool_max_total_cost s; potential_cache := c;
     seen_cache_size := seen_cache_size s; peak := peak s; mempool := mempool s |}.
Definition set_seen (d : dict bytes bytes) (s : MempoolManager S) : MempoolManager S :=
  {| mm_constants := mm_constants s; seen_bundle_hashes := d; coin_store := coin_store s;
     mempool_max_total_cost := mempool_max_total_cost s; potential_cache := potential_cache s;
     seen_cache_size := seen_cache_size s; peak := peak s; mempool := mempool s |}.
Definition set_peak (pk : option BlockRecord) (s : MempoolManager S) : MempoolManager S :=
  {| mm_constants := mm_constants s; seen_bundle_hashes := seen_bundle_hashes s; coin_store := coin_store s;
     mempool_max_total_cost := mempool_max_total_cost s; potential_cache := potential_cache s;
     seen_cache_size := seen_cache_size s; peak := pk; mempool := mempool s |}.
End Fields.

(** [self.limit_factor], [self.nonzero_fee_minimum_fpc], [get_min_fee_increase] *)
Definition limit_factor : float := SpecFloat.S754_finite false 4503599627370496 (-53).
Definition nonzero_fee_minimum_fpc : Z := 5.
Definition get_min_fee_increase : Z := 10000000.

(** [self.limit_factor * constants.MAX_BLOCK_COST_CLVM] *)
Definition cost_limit (c : ConsensusConstants) : res float :=
  f ← float_of_int (MAX_BLOCK_COST_CLVM c); Ok (float_mul limit_factor f).

Definition mempool_manager_new {S} (cs : S) (c : ConsensusConstants) : MempoolManager S :=
  let max_cost := MAX_BLOCK_COST_CLVM c * MEMPOOL_BLOCK_BUFFER c in
  {| mm_constants := c; seen_bundle_hashes := []; coin_store := cs; mempool_max_total_cost := max_cost;
     potential_cache := pending_new (MAX_BLOCK_COST_CLVM c * 5); seen_cache_size := 10000;
     peak := None; mempool := mempool_new max_cost |}.

(** ** Seen bundles *)
Definition pop_seen_body (size : Z) (d : dict bytes bytes) : res (dict bytes bytes + dict bytes bytes) :=
  if size <? Z.of_nat (length d) then
    first_in ← py_index d.*1 0;
    d ← ddel first_in d;
    Ok (inl d)
  else Ok (inr d).

Definition add_and_maybe_pop_seen {S} (spend_name : bytes) : ST (MempoolManager S) unit := fun s =>
  let d := dset spend_name spend_name (seen_bundle_hashes s) in
  match loop (Datatypes.S (length d)) (pop_seen_body (seen_cache_size s)) d with
  | Ok d => (Ok tt, set_seen d s)
  | Raise e => (Raise e, s)
  | OutOfFuel => (OutOfFuel, s)
  end.
Definition seen {S} (h : bytes) (s : MempoolManager S) : bool := dmem h (seen_bundle_hashes s).
Definition remove_seen {S} (h : bytes) : ST (MempoolManager S) unit :=
  st_modify (λ s, if dmem h (seen_bundle_hashes s)
                  then set_seen (dremove h (seen_bundle_hashes s)) s else s).

Definition is_fee_enough {S} (fees_ cost_ : Z) (s : MempoolManager S) : res bool :=
  if cost_ =? 0 then Ok false
  else
    fees_per_cost ← int_truediv fees_ cost_;
    if negb (at_full_capacity cost_ (mempool s)) then Ok true
    else if negb (float_lt_int fees_per_cost nonzero_fee_minimum_fpc) then
      m ← get_min_fee_rate cost_ (mempool s); Ok (float_lt m fees_per_cost)
    else Ok false.

(** ** Conflicts *)
Section Manager.
Context `{StdHash} `{ClvmCasts} {S : Type} `{!CoinView S}.
Context (simple_program : SpendBundle → bytes).
Notation M := (ST (MempoolManager S)).

Definition can_replace (conflicting_items : dict bytes MempoolItem) (removals : dict bytes CoinRecord)
    (fees_ : Z) (fees_per_cost : float) : res bool :=
  r ← for_early (λ '(conflicting_fees, conflicting_cost) '(_, item),
        if forallb (λ c, dmem (coin_name c) removals) (mi_removals item)
        then Ok (inl (conflicting_fees + fee item, conflicting_cost + cost item))
        else Ok (inr false)) (0, 0) conflicting_items;
  match r with
  | inr b => Ok b
  | inl (conflicting_fees, conflicting_cost) =>
      conflicting_fees_per_cost ← int_truediv conflicting_fees conflicting_cost;
      if float_le fees_per_cost conflicting_fees_per_cost then Ok false
      else
        let fee_increase := fees_ - conflicting_fees in
        if fee_increase <? get_min_fee_increase then Ok false else Ok true
  end.

Definition check_removals (removals : dict bytes CoinRecord) (s : MempoolManager S) : res (option Err.t * list Coin) :=
  assert_ (bool_decide (is_Some (peak s))) ;;
  r ← for_early (λ conflicts '(_, record),
        if spent record then Ok (inr (Some Err.DOUBLE_SPEND, []))
        else Ok (inl (if dmem (coin_name (coin record)) (mp_removals (mempool s))
                      then conflicts ++ [coin record] else conflicts))) [] removals;
  match r with
  | inr v => Ok v
  | inl [] => Ok (None, [])
  | inl conflicts => Ok (Some Err.MEMPOOL_CONFLICT, conflicts)
  end.

(** ** [add_spendbundle] *)
Definition result : Type := option Z * MempoolInclusionStatus * option Err.t.
Definition failed (e : Err.t) : result := (None, FAILED, Some e).

Definition lookup_coin (name : bytes) : M (option CoinRecord) := fun s =>
  let '(r, cs) := view_get name (coin_store s) in (r, set_coin_store cs s).

(** A method of the pool; the pool it has reached when it raises is not kept, while in
    Python it is.  The calls made here do not raise from a valid pool. *)
Definition on_pool (f : Mempool → res Mempool) : M unit := fun s =>
  match f (mempool s) with
  | Ok p => (Ok tt, set_mempool p s)
  | Raise e => (Raise e, s)
  | OutOfFuel => (OutOfFuel, s)
  end.
Definition on_potential (f : PendingTxCache → res PendingTxCache) : M unit := fun s =>
  match f (potential_cache s) with
  | Ok c => (Ok tt, set_potential c s)
  | Raise e => (Raise e, s)
  | OutOfFuel => (OutOfFuel, s)
  end.

(** The check of the created amounts, which also sums them *)
Definition sum_additions (c : ConsensusConstants) (additions : list Coin) : res (Z + Err.t) :=
  for_early (λ total co,
    if amount co <? 0 then Ok (inr Err.COIN_AMOUNT_NEGATIVE)
    else if MAX_COIN_AMOUNT c <? amount co then Ok (inr Err.COIN_AMOUNT_EXCEEDS_MAXIMUM)
    else t ← uint64 (total + amount co); Ok (inl t)) 0 additions.

Definition has_duplicates (l : list bytes) : bool := negb (bool_decide (NoDup l)).
Definition same_set (l l' : list bytes) : bool :=
  forallb (λ x, bool_decide (x ∈ l')) l && forallb (λ x, bool_decide (x ∈ l)) l'.

(** The records of the coins a bundle spends: from the store, or created by the
    bundle itself *)
Definition collect_step (pk : BlockRecord) (additions_dict : dict bytes Coin)
    (acc : Z * dict bytes CoinRecord) (name : bytes) : M ((Z * dict bytes CoinRecord) + Err.t) :=
  let '(removal_amount, records) := acc in
  removal_record ← lookup_coin name;
  match removal_record, dget name additions_dict with
  | None, None => mret (inr Err.UNKNOWN_UNSPENT)
  | _, Some removal_coin =>
      ts ← st_res (of_opt AssertionError (timestamp pk));
      h ← st_res (uint32 (height pk + 1));
      t ← st_res (uint64 (ts + 1));
      let record := {| coin := removal_coin; confirmed_block_index := h; spent_block_index := 0;
                       spent := false; coinbase := false; cr_timestamp := t |} in
      total ← st_res (uint64 (removal_amount + amount (coin record)));
      mret (inl (total, dset name record records))
  | Some record, None =>
      total ← st_res (uint64 (removal_amount + amount (coin record)));
      mret (inl (total, dset name record records))
  end.
Definition collect_removals (pk : BlockRecord) (additions_dict : dict bytes Coin)
    (removal_names : list bytes) : M ((Z * dict bytes CoinRecord) + Err.t) :=
  st_early (collect_step pk additions_dict) (0, []) removal_names.

Definition sum_reserved_fees (l : list NPC) : res (Z + Err.t) :=
  for_early (λ total npc,
    d ← condition_dict npc;
    match dget RESERVE_FEE d with
    | None => Ok (inl total)
    | Some fee_list =>
        for_early (λ total cvp,
          v ← py_index (vars cvp) 0;
          f ← int_from_bytes v;
          if f <? 0 then Ok (inr Err.RESERVE_FEE_CONDITION_FAILED) else Ok (inl (total + f)))
          total fee_list
    end) 0 l.

(** The conditions of every spend; [inr (e, true)] is an error that retries later *)
Definition check_spends (pk : BlockRecord) (records : dict bytes CoinRecord) (l : list NPC)
    : res (unit + Err.t * bool) :=
  for_early (λ _ npc,
    record ← dindex (npc_coin_name npc) records;
    if negb (bool_decide (npc_puzzle_hash npc = puzzle_hash (coin record)))
    then Ok (inr (Err.WRONG_PUZZLE_HASH, false))
    else
      let chialisp_height := if is_transaction_block pk then height pk else prev_transaction_block_height pk in
      ts ← of_opt AssertionError (timestamp pk);
      d ← condition_dict npc;
      h ← uint32 chialisp_height;
      error ← mempool_check_conditions_dict record d h ts;
      match error with
      | None => Ok (inl tt)
      | Some Err.ASSERT_HEIGHT_ABSOLUTE_FAILED => Ok (inr (Err.ASSERT_HEIGHT_ABSOLUTE_FAILED, true))
      | Some Err.ASSERT_HEIGHT_RELATIVE_FAILED => Ok (inr (Err.ASSERT_HEIGHT_RELATIVE_FAILED, true))
      | Some e => Ok (inr (e, false))
      end) tt l.

(** The fee a full pool demands; [Some e] rejects the transaction *)
Definition check_fee_rate (fees_per_cost : float) (cost_ : Z) (p : Mempool) : res (option Err.t) :=
  if at_full_capacity cost_ p then
    if float_lt_int fees_per_cost nonzero_fee_minimum_fpc then Ok (Some Err.INVALID_FEE_TOO_CLOSE_TO_ZERO)
    else
      m ← get_min_fee_rate cost_ p;
      Ok (if float_le fees_per_cost m then Some Err.INVALID_FEE_LOW_FEE else None)
  else Ok None.

Definition conflicting_items (conflicts : list Coin) (p : Mempool) : res (dict bytes MempoolItem) :=
  for_fold (λ d c, sb ← dindex (coin_name c) (mp_removals p); Ok (dset (spend_bundle_name sb) sb d))
    [] conflicts.

(** From the fee check on: conflicts, conditions, replacement and insertion *)
Definition admit_item (pk : BlockRecord) (item : MempoolItem) (records : dict bytes CoinRecord)
    (l : list NPC) (fees_per_cost : float) : M result :=
  s ← st_get;
  '(fail_reason, conflicts) ← st_res (check_removals records s);
  match fail_reason with
  | Some Err.MEMPOOL_CONFLICT | None =>
      conflicting ← (match fail_reason with
                     | Some _ => st_res (conflicting_items conflicts (mempool s))
                     | None => mret []
                     end);
      ok ← (match fail_reason with
            | Some _ => st_res (can_replace conflicting records (fee item) fees_per_cost)
            | None => mret true
            end);
      if negb ok then
        on_potential (pending_add item) ;;
        mret (Some (cost item), PENDING, Some Err.MEMPOOL_CONFLICT)
      else
        checked ← st_res (check_spends pk records l);
        match checked with
        | inr (e, true) =>
            on_potential (pending_add item) ;;
            mret (Some (cost item), PENDING, Some e)
        | inr (e, false) => mret (failed e)
        | inl _ =>
            st_for (λ '(_, old), on_pool (remove_from_pool old)) conflicting ;;
            on_pool (add_to_pool item) ;;
            mret (Some (cost item), SUCCESS, None)
        end
  | Some e => mret (failed e)
  end.

Definition add_spendbundle (new_spend : SpendBundle) (npc_res : NPCResult) (spend_name : bytes)
    (prog : option bytes) : M result :=
  s ← st_get;
  match peak s with
  | None => mret (failed Err.MEMPOOL_NOT_INITIALIZED)
  | Some pk =>
      let c := mm_constants s in
      let l := npc_list npc_res in
      st_res (assert_ (bool_decide (npc_error npc_res = None))) ;;
      let prog := default (simple_program new_spend) prog in
      cost_ ← st_res (calculate_cost_of_program prog npc_res (COST_PER_BYTE c));
      limit ← st_res (f ← cost_limit c; int_of_float f);
      if limit <? cost_ then mret (failed Err.BLOCK_COST_EXCEEDS_MAX) else
      let removal_names := npc_coin_name <$> l in
      if negb (same_set removal_names (coin_name ∘ spend_coin <$> coin_spends new_spend))
      then mret (failed Err.INVALID_SPEND_BUNDLE) else
      additions ← st_res (additions_for_npc l);
      let additions_dict := foldl (λ d a, dset (coin_name a) a d) [] additions in
      added ← st_res (sum_additions c additions);
      match added with
      | inr e => mret (failed e)
      | inl addition_amount =>
      if has_duplicates (coin_name <$> additions) then mret (failed Err.DUPLICATE_OUTPUT) else
      if has_duplicates removal_names then mret (failed Err.DOUBLE_SPEND) else
      if dmem spend_name (spends (mempool s)) then mret (Some cost_, SUCCESS, None) else
      collected ← collect_removals pk additions_dict removal_names;
      match collected with
      | inr e => mret (failed e)
      | inl (removal_amount, records) =>
      let removals := coin <$> records.*2 in
      if removal_amount <? addition_amount then mret (failed Err.MINTING_COIN) else
      fees_ ← st_res (uint64 (removal_amount - addition_amount));
      reserved ← st_res (sum_reserved_fees l);
      match reserved with
      | inr e => mret (failed e)
      | inl assert_fee_sum =>
      if fees_ <? assert_fee_sum then mret (failed Err.RESERVE_FEE_CONDITION_FAILED) else
      if cost_ =? 0 then mret (failed Err.UNKNOWN) else
      fees_per_cost ← st_res (int_truediv fees_ cost_);
      low ← st_res (check_fee_rate fees_per_cost cost_ (mempool s));
      match low with
      | Some e => mret (failed e)
      | None =>
      let item := {| spend_bundle := new_spend; fee := fees_; npc_result := npc_res; cost := cost_;
                     spend_bundle_name := spend_name; mi_additions := additions;
                     mi_removals := removals; program := prog |} in
      admit_item pk item records l fees_per_cost
      end end end end
  end.

(** ** [new_peak] *)
Definition is_new_peak (new_peak : option BlockRecord) (s : MempoolManager S) : option BlockRecord :=
  match new_peak with
  | Some b => if negb (is_transaction_block b) then None
              else if bool_decide (peak s = Some b) then None else Some b
  | None => None
  end.

Definition readd_unchanged (changed : list bytes) (item : MempoolItem) : M unit :=
  if existsb (λ c, bool_decide (coin_name c ∈ changed)) (mi_removals item)
  then remove_seen (spend_bundle_name item)
  else on_pool (add_to_pool item).

Definition readd_checked (item : MempoolItem) : M unit :=
  '(_, status, _) ← add_spendbundle (spend_bundle item) (npc_result item)
                       (spend_bundle_name item) (Some (program item));
  if bool_decide (status = SUCCESS) then mret tt else remove_seen (spend_bundle_name item).

Definition retry_pending (item : MempoolItem) : M (list (SpendBundle * NPCResult * bytes)) :=
  '(_, status, _) ← add_spendbundle (spend_bundle item) (npc_result item)
                       (spend_bundle_name item) (Some (program item));
  mret (if bool_decide (status = SUCCESS)
        then [(spend_bundle item, npc_result item, spend_bundle_name item)] else []).

Definition new_peak (new_peak_ : option BlockRecord) (coin_changes : list CoinRecord)
    : M (list (SpendBundle * NPCResult * bytes)) :=
  s ← st_get;
  match is_new_peak new_peak_ s with
  | None => mret []
  | Some b =>
      st_res (assert_ (bool_decide (is_Some (timestamp b)))) ;;
      let use_optimization :=
        match peak s with
        | Some old => bool_decide (prev_transaction_block_hash b = Some (header_hash old))
        | None => false
        end in
      let changed := coin_name ∘ coin <$> coin_changes in
      let old_pool := mempool s in
      st_modify (λ s, set_mempool (mempool_new (mempool_max_total_cost s)) (set_peak (Some b) s)) ;;
      st_for (λ '(_, item), if use_optimization then readd_unchanged changed item else readd_checked item)
        (spends old_pool) ;;
      s ← st_get;
      let '(potential_txs, cleared) := pending_drain (potential_cache s) in
      st_modify (set_potential cleared) ;;
      added ← st_each (λ '(_, item), retry_pending item) potential_txs;
      s ← st_get;
      st_res (get_min_fee_rate 100000 (mempool s)) ;;
      mret (concat added)
  end.
End Manager.

(** ** Blocks from the mempool *)
Section CreateBundle.
Context {S : Type} (aggregate : list bytes → bytes).

Definition aggregate_bundles (l : list SpendBundle) : SpendBundle :=
  {| coin_spends := l ≫= coin_spends; aggregated_signature := aggregate (aggregated_signature <$> l) |}.

(** The state of the two loops: chosen items, their cost and their fees; [inr]
    once an item did not fit, which ends both. *)
Definition choose_item (limit : float) (max_amount : Z) (st : list MempoolItem * Z * Z)
    (ni : bytes * MempoolItem) : res ((list MempoolItem * Z * Z) + (list MempoolItem * Z * Z)) :=
  let '(chosen, cost_sum, fee_sum) := st in
  let item := ni.2 in
  if int_le_float (cost item + cost_sum) limit && (fee item + fee_sum <=? max_amount)
  then Ok (inl (chosen ++ [item], cost_sum + cost item, fee_sum + fee item))
  else Ok (inr st).

Definition choose_items (limit : float) (max_amount : Z) (p : Mempool) : res (list MempoolItem * Z * Z) :=
  r ← for_early (λ st '(_, dic), for_early (choose_item limit max_amount) st dic)
        ([], 0, 0) (rev (sorted_spends p));
  Ok (match r with inl st => st | inr st => st end).

Definition create_bundle_from_mempool (last_tb_header_hash : bytes) (s : MempoolManager S)
    : res (option (SpendBundle * list Coin * list Coin)) :=
  match peak s with
  | None => Ok None
  | Some pk =>
      if negb (bool_decide (header_hash pk = last_tb_header_hash)) then Ok None
      else
        limit ← cost_limit (mm_constants s);
        '(chosen, _, _) ← choose_items limit (MAX_COIN_AMOUNT (mm_constants s)) (mempool s);
        match chosen with
        | [] => Ok None
        | _ => Ok (Some (aggregate_bundles (spend_bundle <$> chosen),
                         chosen ≫= mi_additions, chosen ≫= mi_removals))
        end
  end.
End CreateBundle.

(** [get_items_not_in_filter], with the filter's [Match] as a parameter *)
Definition get_items_not_in_filter {S} (matches : bytes → bool) (limit : Z) (s : MempoolManager S) : res (list MempoolItem) :=
  r ← for_early (λ st '(_, dic),
        for_early (λ items ni,
          if Z.of_nat (length (items : list MempoolItem)) =? limit then Ok (inr items)
          else if matches (spend_bundle_name ni.2) then Ok (inl items)
          else Ok (inl (items ++ [ni.2]))) st (dic : dict bytes MempoolItem))
      [] (sorted_spends (mempool s));
  Ok (match r with inl l => l | inr l => l end).

Definition get_spendbundle {S} (h : bytes) (s : MempoolManager S) : option SpendBundle :=
  spend_bundle <$> dget h (spends (mempool s)).
Definition get_mempool_item {S} (h : bytes) (s : MempoolManager S) : option MempoolItem :=
  dget h (spends (mempool s)).

(** ** Blocks: what [create_bundle_from_mempool] chooses *)
Definition sum_fee (l : list MempoolItem) : Z := foldr (λ i s, fee i + s) 0 l.
Definition sum_cost' (l : list MempoolItem) : Z := foldr (λ i s, cost i + s) 0 l.

Lemma sum_fee_app l l' : sum_fee (l ++ l') = sum_fee l + sum_fee l'.
Proof. unfold sum_fee. induction l; cbn in *; lia. Qed.
Lemma sum_cost'_app l l' : sum_cost' (l ++ l') = sum_cost' l + sum_cost' l'.
Proof. unfold sum_cost'. induction l; cbn in *; lia. Qed.

(** The items in the order a block takes them: by decreasing rate *)
Definition by_rate (p : Mempool) : list (bytes * MempoolItem) := rev (sorted_spends p) ≫= bucket.

Lemma by_rate_perm p : by_rate p ≡ₚ flat p.
Proof. unfold by_rate, flat. by rewrite <- (Permutation_rev (sorted_spends p)). Qed.

Section Choose.
Context (limit : float) (max_amount : Z).

Definition block_fit (l : list MempoolItem) : Prop :=
  int_le_float (sum_cost' l) limit = true ∧ sum_fee l <= max_amount.

Lemma choose_prefix l ch cs fs :
  cs = sum_cost' ch → fs = sum_fee ch →
  ∃ k r, for_early (choose_item limit max_amount) (ch, cs, fs) l = Ok r
    ∧ (match r with inl st => st | inr st => st end)
      = (ch ++ (take k l).*2, sum_cost' (ch ++ (take k l).*2), sum_fee (ch ++ (take k l).*2))
    ∧ (k = 0%nat ∨ block_fit (ch ++ (take k l).*2))
    ∧ ∀ n i, l !! k = Some (n, i) → ¬ block_fit (ch ++ (take k l).*2 ++ [i]).
Proof.
  revert ch cs fs. induction l as [|[n i] l IH]; intros ch cs fs Hcs Hfs.
  - exists 0%nat, (inl (ch, cs, fs)). cbn [take firstn fmap list_fmap]. rewrite app_nil_r. subst.
    split_and!; [done|done|by left|done].
  - cbn [for_early]. change (choose_item limit max_amount (ch, cs, fs) (n, i)) with
      (if int_le_float (cost i + cs) limit && (fee i + fs <=? max_amount)
       then Ok (inl (ch ++ [i], cs + cost i, fs + fee i)) else Ok (inr (ch, cs, fs))
       : res ((list MempoolItem * Z * Z) + (list MempoolItem * Z * Z))).
    assert (Hi : sum_cost' (ch ++ [i]) = cost i + cs ∧ sum_fee (ch ++ [i]) = fee i + fs).
    { rewrite sum_cost'_app, sum_fee_app, Hcs, Hfs. unfold sum_cost', sum_fee. cbn. lia. }
    destruct Hi as [Hic Hif].
    destruct (int_le_float (cost i + cs) limit && (fee i + fs <=? max_amount)) eqn:Hfit.
    + apply andb_true_iff in Hfit as [Hf1 Hf2]. apply Z.leb_le in Hf2. cbn [mbind res_bind].
      destruct (IH (ch ++ [i]) (cs + cost i) (fs + fee i)) as (k&r&E&Hr&Hok&Hn); [lia|lia|].
      exists (S k), r. cbn [take fmap list_fmap fst snd lookup list_lookup]. rewrite <- app_assoc in Hr, Hok.
      setoid_rewrite <- app_assoc in Hn. cbn [app] in *. split_and!; [done|done| |done].
      right. destruct Hok as [->|Hok]; [|done]. rewrite take_0. cbn [fmap list_fmap].
      split; [by rewrite Hic|by rewrite Hif].
    + cbn [mbind res_bind]. exists 0%nat, (inr (ch, cs, fs)). rewrite take_0. cbn [fmap list_fmap app]. rewrite app_nil_r, <- Hcs, <- Hfs.
      split_and!; [done|done|by left|]. intros n' i' [= <- <-] [H1 H2]. rewrite Hic in H1. rewrite Hif in H2.
      rewrite H1 in Hfit. apply Z.leb_gt in Hfit. lia.
Qed.
End Choose.

Lemma index_keys `{StdHash} `{ClvmCasts} f (d : dict bytes MempoolItem) :
  (index f d).*1 = coin_name <$> (d.*2 ≫= f).
Proof.
  unfold index, entries. induction d as [|[n i] d IH]; [done|]. cbn. rewrite !fmap_app. f_equal; [|done].
  by rewrite <- list_fmap_compose.
Qed.

(** No coin occurs twice among the coins of the items of a prefix. *)
Lemma prefix_coins_distinct `{StdHash} `{ClvmCasts} f (d idx l : dict bytes MempoolItem) k :
  dict_wf idx → idx ≡ₚ index f d → l ≡ₚ d → NoDup (coin_name <$> ((take k l).*2 ≫= f)).
Proof.
  intros Hw Hi Hl. rewrite <- index_keys. apply (dict_wf_perm _ (index f l)) in Hw; [|by rewrite Hi, Hl].
  rewrite <- (take_drop k l) in Hw. unfold index in Hw. rewrite bind_app in Hw. by apply dict_wf_app_l in Hw as [? _].
Qed.

(** C24. The block made from the mempool takes the items in order of decreasing fee
    rate until one does not fit: the chosen ones respect the cost limit and the
    bound on fees, spend no coin twice and create no coin twice, and nothing
    left out pays a higher rate than something taken. *)
Theorem create_bundle_spec `{StdHash} `{ClvmCasts} {S : Type} (aggregate : list bytes → bytes)
    (s : MempoolManager S) (pk : BlockRecord) (limit : float) :
  pool_ok (mempool s) → peak s = Some pk → cost_limit (mm_constants s) = Ok limit →
  ∃ k, let chosen := (take k (by_rate (mempool s))).*2 in
    let left_out := (drop k (by_rate (mempool s))).*2 in
    create_bundle_from_mempool aggregate (header_hash pk) s
      = Ok (match chosen with
            | [] => None
            | _ => Some (aggregate_bundles aggregate (spend_bundle <$> chosen),
                         chosen ≫= mi_additions, chosen ≫= mi_removals)
            end)
    ∧ (chosen = [] ∨ block_fit limit (MAX_COIN_AMOUNT (mm_constants s)) chosen)
    ∧ (∀ i, left_out !! 0%nat = Some i → ¬ block_fit limit (MAX_COIN_AMOUNT (mm_constants s)) (chosen ++ [i]))
    ∧ NoDup (coin_name <$> (chosen ≫= mi_removals)) ∧ NoDup (coin_name <$> (chosen ≫= mi_additions))
    ∧ ∀ c o, c ∈ chosen → o ∈ left_out → rate_le o c.
Proof.
  intros Hp Hpk Hlim. set (p := mempool s) in *. set (mx := MAX_COIN_AMOUNT _).
  destruct (choose_prefix limit mx (by_rate p) [] 0 0 eq_refl eq_refl) as (k&r&E&Hr&Hok&Hn).
  cbn [app] in Hr, Hok, Hn. exists k. cbn zeta. set (chosen := (take k (by_rate p)).*2) in *.
  pose proof (by_rate_perm p) as Hperm. rewrite (po_flat _ Hp) in Hperm.
  split_and!.
  - unfold create_bundle_from_mempool. rewrite Hpk, bool_decide_true, Hlim by done.
    cbn [negb mbind res_bind]. fold p mx. unfold choose_items.
    rewrite (for_early_ext _ (λ st x, for_early (choose_item limit mx) st (bucket x))) by by intros ? [].
    rewrite for_early_bind. fold (by_rate p).
    rewrite E. cbn [mbind res_bind]. rewrite Hr. by destruct chosen.
  - destruct Hok as [->|Hok]; [left; unfold chosen; by rewrite take_0|by right].
  - intros i Hi. apply list_lookup_fmap_Some in Hi as ([n j]&->&Hi). rewrite lookup_drop, Nat.add_0_r in Hi.
    by apply (Hn n).
  - destruct (po_removals _ Hp) as [Hw Hi]. by eapply prefix_coins_distinct.
  - destruct (po_additions _ Hp) as [Hw Hi]. by eapply prefix_coins_distinct.
  - intros c o Hc Ho. apply list_elem_of_fmap in Hc as (c'&->&Hc). apply list_elem_of_fmap in Ho as (o'&->&Ho).
    refine (StronglySorted_app_1_elem_of (λ x y, rate_le y.2 x.2) _ _ c' o' _ Hc Ho).
    rewrite take_drop. by apply buckets_rev_sorted, pool_buckets_ok.
Qed.

Lemma filter_items_scan (matches : bytes → bool) (limit : Z) (l : dict bytes MempoolItem) acc :
  Z.of_nat (length acc) <= limit →
  ∃ r, for_early (λ items ni,
         if Z.of_nat (length (items : list MempoolItem)) =? limit then Ok (inr items)
         else if matches (spend_bundle_name ni.2) then Ok (inl items)
         else Ok (inl (items ++ [ni.2]))) acc l = Ok r
    ∧ match r with inl a => a | inr a => a end
      = take (Z.to_nat limit) (acc ++ filter (λ i, matches (spend_bundle_name i) = false) l.*2).
Proof.
  revert acc. induction l as [|[n i] l IH]; intros acc Hacc.
  - exists (inl acc). split; [done|]. cbn. rewrite app_nil_r, take_ge by lia. done.
  - cbn [for_early snd]. destruct (Z.eqb_spec (Z.of_nat (length acc)) limit) as [E|E]; cbn [mbind res_bind].
    + exists (inr acc). split; [done|]. rewrite take_app_length' by lia. done.
    + cbn [fmap list_fmap snd]. rewrite filter_cons. destruct (matches (spend_bundle_name i)) eqn:Hm; cbn [mbind res_bind].
      * rewrite decide_False by done. by apply IH.
      * rewrite decide_True by done. destruct (IH (acc ++ [i])) as (r&Er&Hr); [rewrite length_app; cbn; lia|].
        exists r. split; [done|]. by rewrite Hr, <- app_assoc.
Qed.

(** [get_items_not_in_filter] returns the first [limit] items of the pool in
    order of increasing fee rate that the filter does not match; its comment
    announces the ones with the highest rate. *)
Theorem items_not_in_filter_cheapest {S : Type} (matches : bytes → bool) (limit : Z) (s : MempoolManager S) :
  0 <= limit →
  get_items_not_in_filter matches limit s
  = Ok (take (Z.to_nat limit) (filter (λ i, matches (spend_bundle_name i) = false) (flat (mempool s)).*2)).
Proof.
  intros Hl. unfold get_items_not_in_filter.
  rewrite (for_early_ext _ (λ items x, for_early (λ items ni,
         if Z.of_nat (length (items : list MempoolItem)) =? limit then Ok (inr items)
         else if matches (spend_bundle_name ni.2) then Ok (inl items)
         else Ok (inl (items ++ [ni.2]))) items (bucket x))) by by intros ? [].
  rewrite for_early_bind. destruct (filter_items_scan matches limit (flat (mempool s)) []) as (r&E&Hr); [cbn; lia|].
  fold (flat (mempool s)). rewrite E. cbn [mbind res_bind]. by rewrite Hr.
Qed.

(** ** Sample manager *)
Definition sample_manager : MempoolManager CoinStore :=
  set_mempool sample_pool (set_peak (Some (sample_record 5 0 1 0 false))
    (mempool_manager_new sample_store DEFAULT_CONSTANTS)).

Lemma items_not_in_filter_cheapest_witness :
  0 <= 2 ∧ get_items_not_in_filter (λ _, false) 2 sample_manager
           = Ok (take (Z.to_nat 2) (filter (λ i, false = false) (flat (mempool sample_manager)).*2))
  ∧ fee <$> (take (Z.to_nat 2) (filter (λ i, false = false) (flat (mempool sample_manager)).*2)) = [10; 10].
Proof.
  assert (H2 : 0 <= 2) by lia.
  split_and!; [exact H2|exact (items_not_in_filter_cheapest (λ _, false) 2 sample_manager H2)|vm_compute; reflexivity].
Defined.

Lemma create_bundle_spec_witness :
  let s := sample_manager in
  let limit := match cost_limit DEFAULT_CONSTANTS with Ok f => f | _ => limit_factor end in
  let pk := sample_record 5 0 1 0 false in
  pool_ok (mempool s) ∧ peak s = Some pk ∧ cost_limit (mm_constants s) = Ok limit
  ∧ ∃ k, let chosen := (take k (by_rate (mempool s))).*2 in
    let left_out := (drop k (by_rate (mempool s))).*2 in
    create_bundle_from_mempool (@concat Z) (header_hash pk) s
      = Ok (match chosen with
            | [] => None
            | _ => Some (aggregate_bundles (@concat Z) (spend_bundle <$> chosen),
                         chosen ≫= mi_additions, chosen ≫= mi_removals)
            end)
    ∧ (chosen = [] ∨ block_fit limit (MAX_COIN_AMOUNT (mm_constants s)) chosen)
    ∧ (∀ i, left_out !! 0%nat = Some i → ¬ block_fit limit (MAX_COIN_AMOUNT (mm_constants s)) (chosen ++ [i]))
    ∧ NoDup (coin_name <$> (chosen ≫= mi_removals)) ∧ NoDup (coin_name <$> (chosen ≫= mi_additions))
    ∧ ∀ c o, c ∈ chosen → o ∈ left_out → rate_le o c.
Proof.
  intros s limit pk.
  assert (Hl : cost_limit (mm_constants s) = Ok limit) by (vm_compute; reflexivity).
  split_and!; [exact sample_pool_ok|reflexivity|exact Hl|].
  exact (create_bundle_spec (@concat Z) s pk limit sample_pool_ok eq_refl Hl).
Defined.
