(* ===== verification/Admission.v ===== *)
(** * Admission to the mempool keeps the mempool valid

    The invariant of the mempool manager and the proof that
    [MempoolManager.add_spendbundle] keeps it whatever it is given and however
    it ends. *)
From S2P Require Import Prelude PyInt PyFloat Consensus Errors Coins CoinStore Mempool MempoolManager.

Definition sum_amount (l : list Coin) : Z := foldr (λ c s, amount c + s) 0 l.
Lemma sum_amount_cons c l : sum_amount (c :: l) = amount c + sum_amount l.
Proof. done. Qed.
Lemma sum_amount_app l l' : sum_amount (l ++ l') = sum_amount l + sum_amount l'.
Proof. induction l as [|c l IH]; [done|]. cbn [app]. rewrite !sum_amount_cons, IH. lia. Qed.

Section Admission.
Context `{StdHash} `{ClvmCasts} {S : Type} `{!CoinView S}.
Context (simple_program : SpendBundle → bytes) (m : gmap bytes CoinRecord).

(** An item is balanced, creates coins only from the coins it spends, and spends
    unspent coins of the store or coins it creates itself. *)
Record item_valid (i : MempoolItem) : Prop := {
  iv_balance : sum_amount (mi_removals i) = sum_amount (mi_additions i) + fee i;
  iv_parents : ∀ a, a ∈ mi_additions i → parent_coin_info a ∈ coin_name <$> mi_removals i;
  iv_unspent : ∀ c, c ∈ mi_removals i →
    c ∈ mi_additions i ∨ ∃ r, m !! coin_name c = Some r ∧ coin r = c ∧ spent r = false;
}.

Record manager_ok (s : MempoolManager S) : Prop := {
  mo_view : view_of (coin_store s) m;
  mo_pool : pool_ok (mempool s);
  mo_capacity : total_mempool_cost (mempool s) <= max_size_in_cost (mempool s);
  mo_items : ∀ n i, (n, i) ∈ spends (mempool s) → item_valid i;
  mo_limit : ∀ limit, (f ← cost_limit (mm_constants s); int_of_float f) = Ok limit →
    limit <= max_size_in_cost (mempool s);
}.

(** ** Running a method from a state that satisfies an invariant *)
Section Keeps.
Context {T : Type} (I : T → Prop).

Lemma keep_res {A B} (r : res A) (f : A → ST T B) s :
  I s → (∀ a, r = Ok a → I (f a s).2) → I ((x ← st_res r; f x) s).2.
Proof. intros Hs Hf. unfold mbind, st_bind, st_res. destruct r; [by apply Hf|done|done]. Qed.

Lemma keep_bind {A B} (c : ST T A) (f : A → ST T B) s :
  I (c s).2 → (∀ a, (c s).1 = Ok a → I (f a (c s).2).2) → I ((x ← c; f x) s).2.
Proof. unfold mbind, st_bind. destruct (c s) as [[a| |] s']; cbn; intros Hs Hf; [by apply Hf|done|done]. Qed.
End Keeps.

(** ** The amounts and the records *)
Lemma created_parents d n cs : created_outputs_for_conditions_dict d n = Ok cs →
  Forall (λ c, parent_coin_info c = n) cs.
Proof.
  unfold created_outputs_for_conditions_dict. rewrite for_each_Ok. intros HF.
  induction HF as [|x c l cs Hc _ IH]; constructor; [|done].
  unfold make_coin, sized_bytes_new in Hc. res_inv. done.
Qed.

Lemma additions_parents l adds : additions_for_npc l = Ok adds →
  ∀ a, a ∈ adds → parent_coin_info a ∈ npc_coin_name <$> l.
Proof.
  unfold additions_for_npc. enough (∀ l acc adds,
    for_fold (λ additions npc, d ← condition_dict npc;
      cs ← created_outputs_for_conditions_dict d (npc_coin_name npc); Ok (additions ++ cs)) acc l = Ok adds →
    ∀ a, a ∈ adds → a ∈ acc ∨ parent_coin_info a ∈ npc_coin_name <$> l) as Hl.
  { intros E a Ha. destruct (Hl l [] adds E a Ha); [set_solver|done]. }
  clear. induction l as [|npc l IH]; intros acc adds E a Ha; cbn [for_fold] in E; [res_inv; by left|].
  apply bind_Ok in E as (acc'&E1&E2). destruct (IH acc' adds E2 a Ha) as [Hin|Hin]; [|right; set_solver].
  res_inv. rewrite elem_of_app in Hin. destruct Hin as [|Hin]; [by left|right].
  match goal with Hc : created_outputs_for_conditions_dict _ _ = _ |- _ => apply created_parents in Hc end.
  rewrite list.Forall_forall in *. cbn. set_solver.
Qed.

Lemma sum_additions_ok c adds t : sum_additions c adds = Ok (inl t) → t = sum_amount adds.
Proof.
  unfold sum_additions. enough (∀ acc, for_early (λ total co,
    if amount co <? 0 then Ok (inr Err.COIN_AMOUNT_NEGATIVE)
    else if MAX_COIN_AMOUNT c <? amount co then Ok (inr Err.COIN_AMOUNT_EXCEEDS_MAXIMUM)
    else t ← uint64 (total + amount co); Ok (inl t)) acc adds = Ok (inl t) → t = acc + sum_amount adds) as Hl.
  { intros E. by rewrite (Hl 0 E). }
  induction adds as [|co adds IH]; intros acc E; cbn [for_early] in E.
  - injection E as <-. unfold sum_amount. cbn. lia.
  - destruct (amount co <? 0); [done|]. destruct (_ <? amount co); [done|].
    destruct (uint64 (acc + amount co)) as [w| |] eqn:Ew; [|done|done]. apply uint64_Ok in Ew as [-> _].
    cbn [mbind res_bind] in E. rewrite (IH _ E), sum_amount_cons. lia.
Qed.

(** What a collected record is: the record of the store, or a record of a coin
    the bundle creates *)
Definition record_of (ad : dict bytes Coin) (n : bytes) (r : CoinRecord) : Prop :=
  coin_name (coin r) = n ∧ ((dget n ad = Some (coin r) ∧ spent r = false) ∨ m !! n = Some r).

Lemma collect_step_ok pk ad total recs n s :
  view_of (coin_store s) m → (∀ n c, dget n ad = Some c → coin_name c = n) →
  ∃ cs, (collect_step pk ad (total, recs) n s).2 = set_coin_store cs s ∧ view_of cs m
    ∧ ∀ t rs, (collect_step pk ad (total, recs) n s).1 = Ok (inl (t, rs)) →
        ∃ r, rs = dset n r recs ∧ t = total + amount (coin r) ∧ record_of ad n r.
Proof.
  intros Hv Had. destruct (view_get_ok _ m n Hv) as (cs&E&Hv'). exists cs.
  unfold collect_step. assert (El : lookup_coin n s = (Ok (m !! n), set_coin_store cs s))
    by (unfold lookup_coin; by rewrite E).
  rewrite (st_bind_Ok _ _ _ _ _ El).
  destruct (m !! n) as [r|] eqn:Hm, (dget n ad) as [c|] eqn:Hc.
  1, 3: unfold mbind, st_bind, st_res; destruct (timestamp pk) as [ts|]; cbn; [|done];
    destruct (uint32 _) as [h| |]; cbn; [|done|done]; destruct (uint64 (ts + 1)) as [t'| |]; cbn; [|done|done];
    destruct (uint64 _) as [w| |] eqn:Ew; cbn; [|done|done]; split_and!; [done|done|];
    intros t rs [= <- <-]; apply uint64_Ok in Ew as [-> _]; eexists; split_and!; [done|done|];
    split; [by apply Had|by left].
  - unfold mbind, st_bind, st_res. destruct (uint64 _) as [w| |] eqn:Ew; cbn; [|done|done].
    split_and!; [done|done|]. intros t rs [= <- <-]. apply uint64_Ok in Ew as [-> _].
    exists r. split_and!; [done|done|]. split; [symmetry; by apply (view_named _ m n r Hv Hm)|by right].
  - cbn. done.
Qed.

Lemma collect_ok pk ad names total recs s :
  view_of (coin_store s) m → (∀ n c, dget n ad = Some c → coin_name c = n) →
  ∃ cs, (st_early (collect_step pk ad) (total, recs) names s).2 = set_coin_store cs s ∧ view_of cs m
    ∧ ∀ t rs, (st_early (collect_step pk ad) (total, recs) names s).1 = Ok (inl (t, rs)) →
        NoDup names → (∀ n, n ∈ names → dget n recs = None) →
        ∃ new, rs = recs ++ new ∧ new.*1 = names ∧ t = total + sum_amount (coin <$> new.*2)
          ∧ ∀ n r, (n, r) ∈ new → record_of ad n r.
Proof.
  intros Hv Had. revert total recs s Hv. induction names as [|n names IH]; intros total recs s Hv.
  - exists (coin_store s). cbn. split_and!; [by destruct s|done|]. intros t rs [= <- <-] _ _. exists [].
    rewrite app_nil_r. split_and!; [done|done|unfold sum_amount; cbn; lia|set_solver].
  - cbn [st_early]. destruct (collect_step_ok pk ad total recs n s Hv Had) as (cs&E&Hv'&Hr).
    unfold mbind, st_bind.
    destruct (collect_step pk ad (total, recs) n s) as [[[[t1 rs1]|e]| |] s1]; cbn in E; subst s1;
      [|by exists cs..].
    cbn [fst] in Hr. destruct (Hr _ _ eq_refl) as (r&->&->&Hrec).
    destruct (IH (total + amount (coin r)) (dset n r recs) (set_coin_store cs s) Hv') as (cs2&E2&Hv2&Hr2).
    exists cs2. split_and!; [by rewrite E2|done|]. intros t rs Hok Hnd Hfr.
    apply NoDup_cons in Hnd as [Hn Hnd].
    destruct (Hr2 t rs Hok Hnd) as (new&->&Hk&->&Hnew).
    { intros n' Hn'. rewrite dget_dset_ne by set_solver. apply Hfr. set_solver. }
    exists ((n, r) :: new). rewrite dset_fresh by (apply Hfr; set_solver).
    split_and!; [by rewrite <- app_assoc|cbn; by rewrite Hk| |].
    + cbn [fmap list_fmap snd]. rewrite sum_amount_cons. lia.
    + intros n' r' Hin. apply elem_of_cons in Hin as [[= -> ->]|Hin]; [done|by apply Hnew].
Qed.

Lemma additions_dict_ok adds n c :
  dget n (foldl (λ d a, dset (coin_name a) a d) [] adds) = Some c → coin_name c = n ∧ c ∈ adds.
Proof.
  enough (∀ (all l : list Coin) d, (∀ n c, dget n d = Some c → coin_name c = n ∧ c ∈ all) → (∀ a, a ∈ l → a ∈ all) →
    ∀ n c, dget n (foldl (λ d a, dset (coin_name a) a d) d l) = Some c → coin_name c = n ∧ c ∈ all) as Hl.
  { by apply (Hl adds adds []). }
  clear. intros all l. induction l as [|a l IH]; intros d Hd Hl; [done|]. cbn. apply IH; [|set_solver].
  intros n c. rewrite dget_dset. case_decide; [|apply Hd]. intros [= <-]. split; [done|]. set_solver.
Qed.

(** ** Conflicts *)
Lemma check_removals_ok recs (s : MempoolManager S) r : check_removals recs s = Ok r →
  r = (Some Err.DOUBLE_SPEND, [])
  ∨ (Forall (λ nr, spent nr.2 = false) recs
     ∧ let conflicts := filter (λ c, dmem (coin_name c) (mp_removals (mempool s)) = true) (coin <$> recs.*2) in
       r = match conflicts with [] => (None, []) | _ => (Some Err.MEMPOOL_CONFLICT, conflicts) end).
Proof.
  unfold check_removals. intros E. apply bind_Ok in E as (_&_&E). apply bind_Ok in E as (x&Ex&E).
  enough (x = inr (Some Err.DOUBLE_SPEND, [])
    ∨ (Forall (λ nr, spent nr.2 = false) recs
       ∧ x = inl (filter (λ c, dmem (coin_name c) (mp_removals (mempool s)) = true) (coin <$> recs.*2)))) as Hx.
  { destruct Hx as [->|[HF ->]]; [left; congruence|]. right. split; [done|]. cbn zeta.
    destruct (filter _ _); congruence. }
  clear E. revert x Ex. enough (∀ acc x, for_early (λ conflicts '(_, record),
        if spent record then Ok (inr (Some Err.DOUBLE_SPEND, []))
        else Ok (inl (if dmem (coin_name (coin record)) (mp_removals (mempool s))
                      then conflicts ++ [coin record] else conflicts))) acc recs = Ok x →
    x = inr (Some Err.DOUBLE_SPEND, [])
    ∨ (Forall (λ nr, spent nr.2 = false) recs
       ∧ x = inl (acc ++ filter (λ c, dmem (coin_name c) (mp_removals (mempool s)) = true) (coin <$> recs.*2)))) as Hl
    by (intros x Ex; by apply (Hl [])).
  induction recs as [|[n rc] recs IH]; intros acc x Ex; cbn [for_early] in Ex.
  - injection Ex as <-. right. cbn. by rewrite app_nil_r.
  - destruct (spent rc) eqn:Hs; cbn [mbind res_bind] in Ex; [left; congruence|].
    destruct (IH _ _ Ex) as [->|[HF ->]]; [by left|right]. split; [by constructor|].
    cbn [fmap list_fmap snd]. rewrite filter_cons. destruct (dmem _ _); [|by rewrite decide_False].
    rewrite decide_True by done. by rewrite <- app_assoc.
Qed.

Lemma removal_owner p k i : pool_ok p → dget k (mp_removals p) = Some i →
  (spend_bundle_name i, i) ∈ spends p ∧ k ∈ coin_name <$> mi_removals i.
Proof.
  intros Hp Hk. apply dget_Some_in in Hk. rewrite (proj2 (po_removals _ Hp)) in Hk.
  unfold index, entries in Hk. apply list_elem_of_bind in Hk as ([n i']&Hk&Hin). cbn in Hk.
  apply list_elem_of_fmap in Hk as (c&[= -> ->]&Hc). destruct (po_items _ Hp _ _ Hin) as [-> _].
  split; [done|]. apply list_elem_of_fmap. by exists c.
Qed.

Lemma owner_removal p n i c : pool_ok p → (n, i) ∈ spends p → c ∈ mi_removals i →
  dget (coin_name c) (mp_removals p) = Some i.
Proof.
  intros Hp Hi Hc. destruct (po_removals _ Hp) as [Hw Hperm]. apply dget_in_wf; [done|].
  rewrite Hperm. apply list_elem_of_bind. exists (n, i). split; [|done].
  apply list_elem_of_fmap. by exists c.
Qed.

Lemma owner_addition p k i : pool_ok p → dget k (mp_additions p) = Some i →
  ∃ n c, (n, i) ∈ spends p ∧ c ∈ mi_additions i ∧ coin_name c = k.
Proof.
  intros Hp Hk. apply dget_Some_in in Hk. rewrite (proj2 (po_additions _ Hp)) in Hk.
  unfold index, entries in Hk. apply list_elem_of_bind in Hk as ([n i']&Hk&Hin). cbn in Hk.
  apply list_elem_of_fmap in Hk as (c&[= -> ->]&Hc). by exists n, c.
Qed.

(** The items in conflict are items of the pool, and every coin in conflict is
    spent by one of them. *)
Lemma conflicting_items_ok p cs d : pool_ok p → conflicting_items cs p = Ok d →
  dict_wf d ∧ (∀ n i, (n, i) ∈ d → (n, i) ∈ spends p)
  ∧ ∀ c i, c ∈ cs → dget (coin_name c) (mp_removals p) = Some i → (spend_bundle_name i, i) ∈ d.
Proof.
  intros Hp. unfold conflicting_items. enough (∀ cs d0 d, dict_wf d0 → (∀ n i, (n, i) ∈ d0 → (n, i) ∈ spends p) →
    for_fold (λ d c, sb ← dindex (coin_name c) (mp_removals p); Ok (dset (spend_bundle_name sb) sb d)) d0 cs = Ok d →
    dict_wf d ∧ (∀ n i, (n, i) ∈ d → (n, i) ∈ spends p) ∧ (∀ n i, (n, i) ∈ d0 → (n, i) ∈ d)
    ∧ ∀ c i, c ∈ cs → dget (coin_name c) (mp_removals p) = Some i → (spend_bundle_name i, i) ∈ d) as Hl.
  { intros E. destruct (Hl cs [] d) as (?&?&_&?); [constructor|set_solver|done|done]. }
  clear cs d. induction cs as [|c cs IH]; intros d0 d Hw Hd E; cbn [for_fold] in E.
  - injection E as <-. split_and!; [done|done|done|set_solver].
  - unfold dindex in E. destruct (dget (coin_name c) (mp_removals p)) as [sb|] eqn:Hc; [|done].
    cbn [of_opt mbind res_bind] in E. destruct (removal_owner p _ _ Hp Hc) as [Hsb _].
    assert (Hset : ∀ n i, (n, i) ∈ dset (spend_bundle_name sb) sb d0 ↔ (n, i) = (spend_bundle_name sb, sb) ∨ (n, i) ∈ d0).
    { intros n i. split.
      - intros Hin. apply dget_in_wf in Hin; [|by apply dset_wf]. rewrite dget_dset in Hin.
        case_decide; [left; congruence|right; by apply dget_Some_in].
      - intros Hin. apply dget_Some_in. rewrite dget_dset. destruct Hin as [[= -> ->]|Hin]; [by rewrite decide_True|].
        case_decide as En; [|by apply dget_in_wf]. subst n. f_equal.
        pose proof (dget_in_wf _ _ _ (po_wf _ Hp) (Hd _ _ Hin)). pose proof (dget_in_wf _ _ _ (po_wf _ Hp) Hsb). congruence. }
    destruct (IH (dset (spend_bundle_name sb) sb d0) d) as (?&?&Hsub&Hcov);
      [by apply dset_wf|intros n i [[= -> ->]|Hin]%Hset; [done|by apply Hd]|done|].
    split_and!; [done|done| |].
    + intros n i Hin. apply Hsub, Hset. by right.
    + intros c' i Hc' Hi. apply elem_of_cons in Hc' as [->|Hc']; [|by eapply Hcov].
      rewrite Hc in Hi. injection Hi as <-. apply Hsub, Hset. by left.
Qed.

Record pool_shrunk (p p' : Mempool) : Prop := {
  ps_ok : pool_ok p';
  ps_sub : ∀ x, x ∈ spends p' → x ∈ spends p;
  ps_max : max_size_in_cost p' = max_size_in_cost p;
  ps_total : total_mempool_cost p' <= total_mempool_cost p;
}.

Lemma remove_conflicts_ok d (s : MempoolManager S) :
  pool_ok (mempool s) → dict_wf d → (∀ n i, (n, i) ∈ d → (n, i) ∈ spends (mempool s)) →
  ∃ p', st_for (λ '(_, old), on_pool (remove_from_pool old)) d s = (Ok tt, set_mempool p' s)
    ∧ pool_shrunk (mempool s) p' ∧ ∀ n i, (n, i) ∈ d → n ∉ (spends p').*1.
Proof.
  revert s. induction d as [|[n i] d IH]; intros s Hp Hw Hd.
  - exists (mempool s). split_and!; [by destruct s|split; done || lia|set_solver].
  - unfold dict_wf in Hw. cbn in Hw. apply NoDup_cons in Hw as [Hn Hw].
    assert (Hin : (n, i) ∈ spends (mempool s)) by (apply Hd; set_solver).
    destruct (remove_ok _ n i Hp Hin) as (p1&E1&Hp1&Hperm&_&Hm1&Ht1).
    pose proof (io_cost i (proj2 (po_items _ Hp _ _ Hin))) as Hcost.
    assert (Hn1 : n ∉ (spends p1).*1).
    { intros Hc. pose proof (po_wf _ Hp) as Hwf. unfold dict_wf in Hwf. rewrite Hperm in Hwf. cbn in Hwf.
      by apply NoDup_cons in Hwf as [? _]. }
    destruct (IH (set_mempool p1 s)) as (p'&E'&[Hok Hsub Hmx Htot]&Hno); [done|done| |].
    { intros n' i' Hin'. assert (Hin2 : (n', i') ∈ spends (mempool s)) by (apply Hd; set_solver).
      rewrite Hperm in Hin2. apply elem_of_cons in Hin2 as [[= -> ->]|?]; [|done].
      destruct Hn. apply list_elem_of_fmap. by exists (n, i). }
    cbn [mempool set_mempool] in *. exists p'. split_and!.
    + cbn [st_for]. erewrite st_bind_Ok; [exact E'|]. unfold on_pool. by rewrite E1.
    + split; [done| |congruence|lia]. intros x Hx. rewrite Hperm. apply elem_of_cons. right. by apply Hsub.
    + intros n' i' Hin'. apply elem_of_cons in Hin' as [[= -> ->]|Hin']; [|by eapply Hno].
      intros Hc. apply Hn1. apply list_elem_of_fmap in Hc as (x&->&Hx). apply list_elem_of_fmap. eauto.
Qed.

(** What is known of a bundle when it reaches the check for conflicts *)
Record candidate (s : MempoolManager S) (i : MempoolItem) (recs : dict bytes CoinRecord) : Prop := {
  ca_item : item_ok i;
  ca_cost : cost i <= max_size_in_cost (mempool s);
  ca_balance : sum_amount (mi_removals i) = sum_amount (mi_additions i) + fee i;
  ca_parents : ∀ a, a ∈ mi_additions i → parent_coin_info a ∈ coin_name <$> mi_removals i;
  ca_removals : mi_removals i = coin <$> recs.*2;
  ca_records : ∀ n r, (n, r) ∈ recs → coin_name (coin r) = n
    ∧ (coin r ∈ mi_additions i ∨ m !! n = Some r);
  ca_new : dget (spend_bundle_name i) (spends (mempool s)) = None;
  ca_distinct : ∀ a n j a', a ∈ mi_additions i → (n, j) ∈ spends (mempool s) → a' ∈ mi_additions j →
    coin_name a = coin_name a' → a = a';
}.

(** Once the conflicting items are gone, the candidate fits into the pool. *)
Lemma candidate_fits s i recs p' :
  manager_ok s → candidate s i recs → pool_shrunk (mempool s) p' →
  (∀ c, c ∈ mi_removals i → dget (coin_name c) (mp_removals p') = None) → pool_fits i p'.
Proof.
  intros Hs Hc [Hp' Hsub _ _] Hrem. split; [apply Hc| |done|].
  - eapply dget_None_sub, (ca_new _ _ _ Hc). done.
  - intros a Ha. destruct (dget (coin_name a) (mp_additions p')) as [j|] eqn:Hj; [|done]. exfalso.
    apply owner_addition in Hj as (n&a'&Hin&Ha'&Hn); [|done].
    assert (a = a') as <- by (eapply (ca_distinct _ _ _ Hc); [done|by apply Hsub|done|done]).
    apply (ca_parents _ _ _ Hc) in Ha. apply list_elem_of_fmap in Ha as (c&Hpc&Hcin).
    pose proof (iv_parents j (mo_items _ Hs _ _ (Hsub _ Hin)) a Ha') as Hj.
    apply list_elem_of_fmap in Hj as (c'&Hpc'&Hcin').
    pose proof (owner_removal p' n j c' Hp' Hin Hcin') as Ho. rewrite <- Hpc', Hpc, (Hrem c Hcin) in Ho. done.
Qed.

Lemma candidate_valid s i recs : candidate s i recs → Forall (λ nr, spent nr.2 = false) recs → item_valid i.
Proof.
  intros Hc Hs. split; [apply Hc|apply Hc|]. intros c. rewrite (ca_removals _ _ _ Hc).
  intros Hin. apply list_elem_of_fmap in Hin as (r&->&Hr). apply list_elem_of_fmap in Hr as ([n r']&->&Hr).
  cbn. destruct (ca_records _ _ _ Hc _ _ Hr) as [Hn [Hadd|Hm]]; [by left|right].
  rewrite list.Forall_forall in Hs. specialize (Hs _ Hr). cbn in Hs. exists r'. by rewrite Hn.
Qed.

(** Adding an item that fits to a pool from which items were taken *)
Lemma admit_into s i recs p' :
  manager_ok s → candidate s i recs → item_valid i → pool_shrunk (mempool s) p' → pool_fits i p' →
  ∃ p2, on_pool (add_to_pool i) (set_mempool p' s) = (Ok tt, set_mempool p2 s)
    ∧ manager_ok (set_mempool p2 s) ∧ dget (spend_bundle_name i) (spends p2) = Some i.
Proof.
  intros Hs Hc Hv [Hp' Hsub Hmx Htot] Hfit.
  destruct (add_to_pool_ok i p' Hp' Hfit) as (p1&p2&k&E&Hrm&Hp2&Hs2&Hm2&Ht2); [rewrite Hmx; apply Hc|].
  exists p2. split_and!.
  - unfold on_pool. cbn [mempool set_mempool]. by rewrite E.
  - pose proof (rm_ok _ _ _ _ Hrm) as Hp1.
    split; cbn [mempool set_mempool mm_constants coin_store]; [apply Hs|done| | |].
    + rewrite Ht2, Hm2. pose proof (rm_fits _ _ _ _ Hrm). rewrite (rm_max _ _ _ _ Hrm) in *. done.
    + intros n j Hin. rewrite Hs2, elem_of_app in Hin. destruct Hin as [Hin|Hin].
      * apply (mo_items _ Hs n), Hsub. rewrite <- (po_flat _ Hp'). rewrite <- (po_flat _ Hp1) in Hin.
        rewrite (rm_flat _ _ _ _ Hrm) in Hin. eapply elem_of_sublist; [done|apply sublist_drop].
      * by apply list_elem_of_singleton in Hin as [= -> ->].
    + rewrite Hm2, Hmx. apply Hs.
  - apply dget_in_wf; [apply Hp2|]. rewrite Hs2. set_solver.
Qed.

Lemma manager_ok_potential c s : manager_ok s → manager_ok (set_potential c s).
Proof. intros []. by split. Qed.

Lemma on_potential_keeps f s : manager_ok s → manager_ok (on_potential f s).2.
Proof. intros Hs. unfold on_potential. destruct (f _); [by apply manager_ok_potential|done|done]. Qed.

(** The outcome of a method: the invariant holds, and success means the item is
    in the pool. *)
Definition outcome_ok (i : MempoolItem) (out : res result * MempoolManager S) : Prop :=
  manager_ok out.2
  ∧ (∀ c e, out.1 = Ok (c, SUCCESS, e) → dget (spend_bundle_name i) (spends (mempool out.2)) = Some i).

Lemma outcome_other i r s : manager_ok s → (∀ c e, r = Ok (c, SUCCESS, e) → False) → outcome_ok i (r, s).
Proof. intros Hs Hr. split; [done|]. intros c e E. destruct (Hr c e E). Qed.

(** After the conflicts are known *)
Definition admit_tail (pk : BlockRecord) (i : MempoolItem) (recs : dict bytes CoinRecord) (l : list NPC)
    (d : dict bytes MempoolItem) : ST (MempoolManager S) result :=
  checked ← st_res (check_spends pk recs l);
  match checked with
  | inr (e, true) => on_potential (pending_add i) ;; mret (Some (cost i), PENDING, Some e)
  | inr (e, false) => mret (failed e)
  | inl _ =>
      st_for (λ '(_, old), on_pool (remove_from_pool old)) d ;;
      on_pool (add_to_pool i) ;;
      mret (Some (cost i), SUCCESS, None)
  end.

Lemma pending_outcome i c e s : manager_ok s →
  outcome_ok i ((on_potential (pending_add i) ;; mret (Some c, PENDING, e)) s).
Proof.
  intros Hs. pose proof (on_potential_keeps (pending_add i) s Hs) as Hk. unfold mbind, st_bind.
  destruct (on_potential (pending_add i) s) as [[]]; cbn in Hk; apply outcome_other; naive_solver.
Qed.

Lemma admit_tail_ok pk i recs l d s :
  manager_ok s → candidate s i recs → item_valid i → dict_wf d →
  (∀ n j, (n, j) ∈ d → (n, j) ∈ spends (mempool s)) →
  (∀ c j, c ∈ mi_removals i → dget (coin_name c) (mp_removals (mempool s)) = Some j →
     (spend_bundle_name j, j) ∈ d) →
  outcome_ok i (admit_tail pk i recs l d s).
Proof.
  intros Hs Hc Hv Hw Hd Hcov. unfold admit_tail. unfold mbind at 1, st_bind at 1, st_res.
  destruct (check_spends pk recs l) as [[_|[e []]]| |]; [|by apply pending_outcome|by apply outcome_other..].
  destruct (remove_conflicts_ok d s (mo_pool _ Hs) Hw Hd) as (p'&E1&Hshr&Hno).
  rewrite (st_bind_Ok _ _ _ _ _ E1). pose proof (mo_pool _ Hs) as Hp.
  destruct (admit_into s i recs p' Hs Hc Hv Hshr) as (p2&E2&Hm&Hin).
  - apply (candidate_fits s i recs p' Hs Hc Hshr). intros c Hci.
    destruct (dget (coin_name c) (mp_removals p')) as [j|] eqn:Hj; [|done]. exfalso.
    pose proof (ps_ok _ _ Hshr) as Hp'. apply removal_owner in Hj as [Hjin Hjc]; [|done].
    apply list_elem_of_fmap in Hjc as (c'&En&Hc').
    pose proof (owner_removal _ _ j c' Hp (ps_sub _ _ Hshr _ Hjin) Hc') as Ho. rewrite <- En in Ho.
    apply (Hno _ _ (Hcov c j Hci Ho)). apply list_elem_of_fmap. by exists (spend_bundle_name j, j).
  - rewrite (st_bind_Ok _ _ _ _ _ E2). split; [done|]. by intros ???.
Qed.

Lemma admit_item_ok pk i recs l f s :
  manager_ok s → candidate s i recs → outcome_ok i (admit_item pk i recs l f s).
Proof.
  intros Hs Hc. unfold admit_item. rewrite (st_bind_Ok _ _ _ _ _ (st_get_eq s)).
  unfold mbind at 1, st_bind at 1, st_res at 1.
  destruct (check_removals recs s) as [r| |] eqn:Er; [|by apply outcome_other..].
  destruct (check_removals_ok recs s r Er) as [->|[HF Hr]]; [by apply outcome_other|].
  pose proof (candidate_valid s i recs Hc HF) as Hv. cbn zeta in Hr.
  set (conflicts := filter _ _) in Hr.
  assert (Hcf : ∀ c j, c ∈ mi_removals i → dget (coin_name c) (mp_removals (mempool s)) = Some j → c ∈ conflicts).
  { intros c j Hci Hj. apply list_elem_of_filter. split; [unfold dmem; by rewrite Hj|].
    by rewrite <- (ca_removals _ _ _ Hc). }
  destruct conflicts as [|c0 cs] eqn:Econf; subst r.
  - (* no conflict *)
    apply (admit_tail_ok pk i recs l [] s Hs Hc Hv); [constructor|set_solver|].
    intros c j Hci Hj. specialize (Hcf c j Hci Hj). set_solver.
  - unfold mbind at 1, st_bind at 1. cbn [st_res].
    unfold st_res at 1. destruct (conflicting_items (c0 :: cs) (mempool s)) as [d| |] eqn:Ed;
      [|by apply outcome_other..].
    destruct (conflicting_items_ok _ _ _ (mo_pool _ Hs) Ed) as (Hw&Hd&Hcov).
    unfold mbind at 1, st_bind at 1. unfold st_res at 1.
    destruct (can_replace d recs (fee i) f) as [[]| |]; [|by apply pending_outcome|by apply outcome_other..].
    apply (admit_tail_ok pk i recs l d s Hs Hc Hv Hw Hd).
    intros c j Hci Hj. eapply Hcov; [by eapply Hcf|done].
Qed.

(** The same outcome for [add_spendbundle], in terms of the bundle's name *)
Definition bundle_outcome (name : bytes) (out : res result * MempoolManager S) : Prop :=
  manager_ok out.2
  ∧ ∀ c e, out.1 = Ok (c, SUCCESS, e) → is_Some (dget name (spends (mempool out.2))).

Lemma bundle_failed name e s : manager_ok s → bundle_outcome name ((mret (failed e) : ST (MempoolManager S) result) s).
Proof. by split. Qed.

Lemma bundle_res {A} name (r : res A) (f : A → ST (MempoolManager S) result) s :
  manager_ok s → (∀ a, r = Ok a → bundle_outcome name (f a s)) →
  bundle_outcome name ((x ← st_res r; f x) s).
Proof. intros Hs Hf. unfold mbind, st_bind, st_res. destruct r; [by apply Hf|by split..]. Qed.

Lemma candidate_intro s i recs ad names (t : Z) :
  manager_ok s → item_ok i → cost i <= max_size_in_cost (mempool s) →
  recs.*1 = names → mi_removals i = coin <$> recs.*2 →
  t = sum_amount (coin <$> recs.*2) → fee i = t - sum_amount (mi_additions i) →
  (∀ n r, (n, r) ∈ recs → record_of ad n r) →
  (∀ n c, dget n ad = Some c → coin_name c = n ∧ c ∈ mi_additions i) →
  (∀ a, a ∈ mi_additions i → parent_coin_info a ∈ names) →
  dget (spend_bundle_name i) (spends (mempool s)) = None →
  (∀ a n j a', a ∈ mi_additions i → (n, j) ∈ spends (mempool s) → a' ∈ mi_additions j →
    coin_name a = coin_name a' → a = a') →
  candidate s i recs.
Proof.
  intros Hs Hi Hc Hk Hr Ht Hf Hrec Had Hpar Hnew Hdis.
  assert (Hnames : coin_name <$> mi_removals i = names).
  { rewrite Hr, <- Hk, <- !list_fmap_compose. apply list_fmap_ext. intros j [n r] Hj. cbn.
    apply list_elem_of_lookup_2 in Hj. by destruct (Hrec _ _ Hj) as [-> _]. }
  split; [done|done| | |done| |done|done].
  - rewrite Hr. lia.
  - intros a Ha. rewrite Hnames. by apply Hpar.
  - intros n r Hin. destruct (Hrec n r Hin) as [Hn [[Hd _]|Hm]]; split; try done; [left|by right].
    by apply (Had n).
Qed.

Lemma removal_names_nodup recs (names : list bytes) ad :
  recs.*1 = names → NoDup names → (∀ n r, (n, r) ∈ recs → record_of ad n r) →
  NoDup (coin_name <$> (coin <$> recs.*2)).
Proof.
  intros Hk Hnd Hrec. enough (coin_name <$> (coin <$> recs.*2) = names) as -> by done.
  rewrite <- Hk, <- !list_fmap_compose. apply list_fmap_ext. intros j [n r] Hj. cbn.
  apply list_elem_of_lookup_2 in Hj. by destruct (Hrec _ _ Hj) as [-> _].
Qed.

Lemma has_duplicates_false l : has_duplicates l = false → NoDup l.
Proof. unfold has_duplicates. intros Hd. zbool. done. Qed.

Lemma add_spendbundle_ok new_spend npc_res name prog s :
  manager_ok s →
  (∀ adds a n j a', additions_for_npc (npc_list npc_res) = Ok adds → a ∈ adds →
    (n, j) ∈ spends (mempool s) → a' ∈ mi_additions j → coin_name a = coin_name a' → a = a') →
  bundle_outcome name (add_spendbundle simple_program new_spend npc_res name prog s).
Proof.
  intros Hs Hdis. unfold add_spendbundle. rewrite (st_bind_Ok _ _ _ _ _ (st_get_eq s)).
  destruct (peak s) as [pk|]; [|by apply bundle_failed]. cbn zeta.
  apply bundle_res; [done|intros _ _]. apply bundle_res; [done|intros cost_ Hcost].
  apply bundle_res; [done|intros limit Hlim]. destruct (Z.ltb_spec limit cost_) as [|Hle]; [by apply bundle_failed|].
  destruct (negb (same_set _ _)); [by apply bundle_failed|].
  apply bundle_res; [done|intros adds Hadds]. apply bundle_res; [done|intros [total|e] Hsum]; [|by apply bundle_failed].
  apply sum_additions_ok in Hsum.
  destruct (has_duplicates (coin_name <$> adds)) eqn:Hda; [by apply bundle_failed|].
  destruct (has_duplicates (npc_coin_name <$> npc_list npc_res)) eqn:Hdr; [by apply bundle_failed|].
  apply has_duplicates_false in Hda, Hdr.
  destruct (dmem name (spends (mempool s))) eqn:Hmem.
  { split; [done|]. intros _ _ _. unfold dmem in Hmem. cbn. destruct (dget name _); [by eexists|done]. }
  apply dmem_false in Hmem.
  set (ad := foldl (λ d a, dset (coin_name a) a d) [] adds). set (names := npc_coin_name <$> npc_list npc_res) in *.
  destruct (collect_ok pk ad names 0 [] s (mo_view _ Hs)) as (cs&Es&Hv&Hrec).
  { intros n c Hn. by apply additions_dict_ok in Hn as [? _]. }
  fold (collect_removals pk ad names) in Es, Hrec. unfold mbind at 1, st_bind at 1.
  destruct (collect_removals pk ad names s) as [out s1]. cbn in Es, Hrec. subst s1.
  set (s1 := set_coin_store cs s). assert (Hs1 : manager_ok s1) by (destruct Hs; by split).
  destruct out as [[[rtotal recs]|e]| |]; [|by apply bundle_failed|by split..].
  destruct (Hrec _ _ eq_refl Hdr) as (new&->&Hk&Ht&Hnew); [done|]. cbn [app] in *.
  destruct (Z.ltb_spec rtotal total); [by apply bundle_failed|].
  apply bundle_res; [done|intros fees_ Hfees]. apply uint64_Ok in Hfees as [-> _].
  apply bundle_res; [done|intros [rsv|e] _]; [|by apply bundle_failed].
  destruct (_ <? rsv); [by apply bundle_failed|]. destruct (Z.eqb_spec cost_ 0); [by apply bundle_failed|].
  apply bundle_res; [done|intros rate Hrate]. apply bundle_res; [done|intros [e|] _]; [by apply bundle_failed|].
  match goal with |- context [admit_item pk ?i new _ rate] => set (item := i) end.
  assert (0 < cost_) as Hpos.
  { unfold calculate_cost_of_program in Hcost. res_inv. uint_inv. lia. }
  destruct (admit_item_ok pk item new (npc_list npc_res) rate s1) as [Hm Hin]; [done| |].
  - apply (candidate_intro s1 item new ad names rtotal); try done.
    + split; cbn; [done|lia|by eexists| |done]. by eapply removal_names_nodup.
    + cbn. etrans; [exact Hle|]. by apply (mo_limit _ Hs).
    + unfold item. cbn [fee mi_additions]. lia.
    + intros n' c Hn. by apply additions_dict_ok in Hn.
    + by apply additions_parents.
    + intros a n' j a' Ha. by apply (Hdis adds).
  - split; [done|]. intros c e E. specialize (Hin c e E). by eexists.
Qed.
End Admission.

(** C5. [add_spendbundle] keeps the mempool valid whatever bundle it is given and
    however it ends, by a result or by an exception: the indexes stay consistent,
    the size limit is respected, and every item in the pool is balanced, spends
    unspent coins of the store (or its own), and shares no coin with another
    item.  A result SUCCESS means the bundle is in the pool.  The only assumption
    on the hash is that no coin the bundle creates has the name of a different
    coin created by an item of the pool. *)
Theorem add_spendbundle_keeps_valid `{StdHash} `{ClvmCasts} {S : Type} `{!CoinView S}
    (simple_program : SpendBundle → bytes) (m : gmap bytes CoinRecord) (s : MempoolManager S)
    (new_spend : SpendBundle) (npc_res : NPCResult) (name : bytes) (prog : option bytes) :
  manager_ok m s →
  (∀ adds a n j a', additions_for_npc (npc_list npc_res) = Ok adds → a ∈ adds →
    (n, j) ∈ spends (mempool s) → a' ∈ mi_additions j → coin_name a = coin_name a' → a = a') →
  let '(r, s') := add_spendbundle simple_program new_spend npc_res name prog s in
  manager_ok m s'
  ∧ ∀ c e, r = Ok (c, SUCCESS, e) → is_Some (dget name (spends (mempool s'))).
Proof.
  intros Hs Hd. pose proof (add_spendbundle_ok simple_program m new_spend npc_res name prog s Hs Hd) as [H1 H2].
  by destruct (add_spendbundle _ _ _ _ _ s).
Qed.

(** ** A sample bundle *)
Definition sample_peak : BlockRecord := {|
  header_hash := [1]; prev_hash := []; height := 5; weight := 40;
  total_iters := 100; signage_point_index := 0; challenge_vdf_output := [];
  infused_challenge_vdf_output := None; reward_infusion_new_challenge := [];
  challenge_block_info_hash := []; sub_slot_iters := 2 ^ 27; pool_puzzle_hash := [];
  farmer_puzzle_hash := []; required_iters := 1000; deficit := 0; overflow := false;
  prev_transaction_block_height := 4; timestamp := Some 1000; prev_transaction_block_hash := Some [0];
  fees := Some 0; reward_claims_incorporated := Some []; finished_challenge_slot_hashes := None;
  finished_infused_challenge_slot_hashes := None; finished_reward_slot_hashes := None;
  sub_epoch_summary_included := None; farmer_public_key := [] |}.

Definition sample_bundle (c : Coin) : SpendBundle :=
  {| coin_spends := [{| spend_coin := c; puzzle_reveal := []; solution := [] |}]; aggregated_signature := [] |}.
Definition sample_npc (c : Coin) (ph out : Z) : NPCResult :=
  {| npc_error := None; clvm_cost := 1000;
     npc_list := [{| npc_coin_name := coin_name c; npc_puzzle_hash := puzzle_hash c;
                     conditions := [(CREATE_COIN, [{| opcode := CREATE_COIN;
                                                      vars := [encode_be 32 ph; [0; out]] |}])] |}] |}.

Definition sample_admission : MempoolManager CoinStore :=
  set_peak (Some sample_peak) (mempool_manager_new sample_store DEFAULT_CONSTANTS).

Lemma sample_admission_ok : manager_ok sample_map sample_admission.
Proof.
  split; cbn [sample_admission set_peak mempool_manager_new coin_store mempool mm_constants].
  - exact sample_store_implements.
  - apply mempool_new_ok.
  - vm_compute. congruence.
  - set_solver.
  - intros limit Hl. vm_compute in Hl. injection Hl as <-. vm_compute. congruence.
Qed.

Lemma add_spendbundle_keeps_valid_witness :
  let c := sample_coin 1 7 100 in
  manager_ok sample_map sample_admission
  ∧ (add_spendbundle (λ _, []) (sample_bundle c) (sample_npc c 9 60) [42] None sample_admission).1
    = Ok (Some 1801000, SUCCESS, None)
  ∧ let '(r, s') := add_spendbundle (λ _, []) (sample_bundle c) (sample_npc c 9 60) [42] None sample_admission in
    manager_ok sample_map s'
    ∧ ∀ c e, r = Ok (c, SUCCESS, e) → is_Some (dget [42] (spends (mempool s'))).
Proof.
  intros c. split; [exact sample_admission_ok|]. split; [vm_compute; reflexivity|].
  apply (add_spendbundle_keeps_valid (λ _, []) sample_map sample_admission (sample_bundle c)
    (sample_npc c 9 60) [42] None sample_admission_ok).
  intros adds a n j a' _ _ Hin. exfalso. exact (not_elem_of_nil _ Hin).
Defined.

(** ** A new peak that extends the old one by one transaction block *)
Section Readd.
Context `{StdHash} `{ClvmCasts} {S : Type} `{!CoinView S}.
Context (m m' : gmap bytes CoinRecord) (changed : list bytes) (p : Mempool).
Context (Hp : pool_ok p) (Hcap : total_mempool_cost p <= max_size_in_cost p).
Context (Hitems : ∀ n i, (n, i) ∈ spends p → item_valid m i).
Context (Hchg : ∀ n r, m !! n = Some r → spent r = false → n ∉ changed →
  ∃ r', m' !! n = Some r' ∧ coin r' = coin r ∧ spent r' = false).

Definition touched (i : MempoolItem) : bool :=
  existsb (λ c, bool_decide (coin_name c ∈ changed)) (mi_removals i).
Definition untouched (l : dict bytes MempoolItem) : dict bytes MempoolItem :=
  filter (λ ni, touched ni.2 = false) l.

Lemma untouched_valid n i : (n, i) ∈ spends p → touched i = false → item_valid m' i.
Proof.
  clear Hp Hcap. intros Hin Ht. destruct (Hitems n i Hin) as [Hb Hpar Hun]. split; [done|done|]. intros c Hc.
  destruct (Hun c Hc) as [|(r&Hm&Hr&Hs)]; [by left|right].
  destruct (Hchg _ _ Hm Hs) as (r'&Hm'&Hr'&Hs').
  - intros Hch. unfold touched in Ht. apply not_true_iff_false in Ht. apply Ht, existsb_exists.
    exists c. split; [by apply list_elem_of_In|by apply bool_decide_eq_true].
  - exists r'. split_and!; [done|congruence|done].
Qed.

Lemma same_owner f idx k i j n n' (c c' : Coin) :
  dict_wf idx → idx ≡ₚ index f (spends p) → (n, i) ∈ spends p → (n', j) ∈ spends p →
  c ∈ f i → c' ∈ f j → coin_name c = k → coin_name c' = k → i = j.
Proof.
  clear Hp Hcap Hitems Hchg. intros Hw Hi Hin Hjn Hc Hc' Ek Ek'.
  assert (Hx : ∀ n i c, (n, i) ∈ spends p → c ∈ f i → dget (coin_name c) idx = Some i).
  { intros n0 i0 c0 Hn0 Hc0. apply dget_in_wf; [done|]. rewrite Hi. apply list_elem_of_bind.
    exists (n0, i0). split; [|done]. apply list_elem_of_fmap. by exists c0. }
  pose proof (Hx n i c Hin Hc) as E1. pose proof (Hx n' j c' Hjn Hc') as E2. congruence.
Qed.

(** An item of the old pool fits into a pool of other items of the old pool. *)
Lemma old_item_fits q n i rest :
  pool_ok q → spends p = rest ++ (n, i) :: drop (Datatypes.S (length rest)) (spends p) →
  (∀ x, x ∈ spends q → x ∈ rest) → pool_fits i q.
Proof.
  clear Hcap Hitems Hchg. intros Hq Esp Hsub. assert (Hin : (n, i) ∈ spends p) by (rewrite Esp; set_solver).
  assert (Hrest : ∀ x, x ∈ rest → x ∈ spends p) by (intros x Hx; rewrite Esp; set_solver).
  destruct (po_items _ Hp _ _ Hin) as [Hn Hi].
  assert (Hne : ∀ n', (n', i) ∉ rest).
  { intros n' Hr. pose proof (po_wf _ Hp) as Hw. unfold dict_wf in Hw. rewrite Esp, fmap_app in Hw.
    apply NoDup_app in Hw as (_&Hw&_). destruct (po_items _ Hp _ _ (Hrest _ Hr)) as [-> _].
    apply (Hw (spend_bundle_name i)); [apply list_elem_of_fmap; by exists (spend_bundle_name i, i)|].
    cbn [fmap list_fmap fst]. apply elem_of_cons. by left. }
  split; [done| | |].
  - destruct (dget (spend_bundle_name i) (spends q)) as [j|] eqn:Hj; [|done]. exfalso.
    apply dget_Some_in, Hsub in Hj. pose proof (dget_in_wf _ _ _ (po_wf _ Hp) (Hrest _ Hj)) as E1.
    pose proof (dget_in_wf _ _ _ (po_wf _ Hp) Hin) as E2. rewrite Hn in E2. rewrite E2 in E1. injection E1 as ->.
    by apply (Hne (spend_bundle_name j)).
  - intros c Hc. destruct (dget (coin_name c) (mp_removals q)) as [j|] eqn:Hj; [|done]. exfalso.
    apply removal_owner in Hj as [Hjin Hjc]; [|done]. apply list_elem_of_fmap in Hjc as (c'&Ec&Hc').
    destruct (po_removals _ Hp) as [Hw Hx]. apply Hsub in Hjin.
    rewrite (same_owner _ _ _ i j n _ c c' Hw Hx Hin (Hrest _ Hjin) Hc Hc' eq_refl) in Hne by done.
    by apply (Hne (spend_bundle_name j)).
  - intros c Hc. destruct (dget (coin_name c) (mp_additions q)) as [j|] eqn:Hj; [|done]. exfalso.
    apply owner_addition in Hj as (n'&c'&Hjin&Hc'&Ec); [|done].
    destruct (po_additions _ Hp) as [Hw Hx]. apply Hsub in Hjin.
    rewrite (same_owner _ _ _ i j n _ c c' Hw Hx Hin (Hrest _ Hjin) Hc Hc' eq_refl) in Hne by done.
    by apply (Hne n').
Qed.

Lemma sum_cost_untouched l : (∀ n i, (n, i) ∈ l → item_ok i) → sum_cost (untouched l) <= sum_cost l.
Proof.
  clear Hp Hcap Hitems Hchg. intros Hl. induction l as [|[n i] l IH]; [done|]. unfold untouched. rewrite filter_cons. cbn [sum_cost].
  pose proof (io_cost i (Hl n i ltac:(set_solver))).
  assert (sum_cost (untouched l) <= sum_cost l) by (apply IH; intros n' i' ?; apply (Hl n'); set_solver).
  unfold untouched in *. case_decide; cbn [sum_cost]; lia.
Qed.
End Readd.

Lemma untouched_app changed l l' : ∀ `{StdHash} `{ClvmCasts},
  untouched changed (l ++ l') = untouched changed l ++ untouched changed l'.
Proof. intros. apply filter_app. Qed.

(** Re-adding one item of the old pool after the items before it *)
Lemma readd_step `{StdHash} `{ClvmCasts} {S : Type} `{!CoinView S} (m m' : gmap bytes CoinRecord)
    (changed : list bytes) (p : Mempool) (l1 l2 : dict bytes MempoolItem) n i (s : MempoolManager S) :
  pool_ok p → total_mempool_cost p <= max_size_in_cost p →
  (∀ n i, (n, i) ∈ spends p → item_valid m i) →
  (∀ n r, m !! n = Some r → spent r = false → n ∉ changed →
    ∃ r', m' !! n = Some r' ∧ coin r' = coin r ∧ spent r' = false) →
  spends p = l1 ++ (n, i) :: l2 →
  manager_ok m' s → max_size_in_cost (mempool s) = max_size_in_cost p →
  spends (mempool s) ≡ₚ untouched changed l1 →
  ∃ s', readd_unchanged changed i s = (Ok tt, s') ∧ manager_ok m' s'
    ∧ max_size_in_cost (mempool s') = max_size_in_cost p
    ∧ spends (mempool s') ≡ₚ untouched changed (l1 ++ [(n, i)]).
Proof.
  intros Hp Hcap Hit Hchg Esp Hs Hmx Hsp. rewrite untouched_app. unfold readd_unchanged.
  fold (touched changed i). destruct (touched changed i) eqn:Ht.
  - exists (remove_seen (spend_bundle_name i) s).2. unfold remove_seen, st_modify.
    unfold untouched at 2. rewrite filter_cons, decide_False by (cbn; congruence). cbn [snd]. rewrite app_nil_r.
    destruct (dmem _ _); cbn [snd]; [|done]. split_and!; [done| |done|done]. by destruct Hs.
  - assert (Hin : (n, i) ∈ spends p) by (rewrite Esp; set_solver).
    assert (Hcost : sum_cost (untouched changed l1) + cost i <= total_mempool_cost p).
    { rewrite (po_cost _ Hp), Esp, sum_cost_app. cbn [sum_cost].
      assert (Hok : ∀ n' i', (n', i') ∈ l1 ++ l2 → item_ok i')
        by (intros n' i' Hx; eapply (po_items _ Hp n'); rewrite Esp; set_solver).
      pose proof (sum_cost_untouched changed l1 ltac:(intros n' i' ?; apply (Hok n'); set_solver)).
      pose proof (sum_cost_nonneg l2 ltac:(intros n' i' ?; apply (Hok n'); set_solver)). lia. }
    destruct (add_to_pool_ok i (mempool s)) as (p1&p2&k&E&Hrm&Hp2&Hs2&Hm2&Ht2).
    + apply Hs.
    + eapply (old_item_fits p Hp (mempool s) n i l1); [apply Hs| |].
      * rewrite Esp at 1. do 2 f_equal. rewrite Esp, drop_app_ge by lia.
        replace (Datatypes.S (length l1) - length l1)%nat with 1%nat by lia. done.
      * intros x. rewrite Hsp. intros Hx%list_elem_of_filter. apply Hx.
    + rewrite Hmx.
      assert (0 <= sum_cost (untouched changed l1)); [|lia]. apply sum_cost_nonneg. intros n' i' Hx.
      apply list_elem_of_filter in Hx as [_ Hx]. apply (po_items _ Hp n'). rewrite Esp. set_solver.
    + pose proof (mo_pool _ _ Hs) as Hq.
      assert (k = 0%nat) as ->.
      { destruct k as [|k]; [done|]. destruct (rm_needed _ _ _ _ Hrm 0 ltac:(lia)) as [_ Hn].
        rewrite drop_0, (po_flat _ Hq), Hsp in Hn. lia. }
      assert (Hp1 : spends p1 ≡ₚ untouched changed l1).
      { rewrite <- (po_flat _ (rm_ok _ _ _ _ Hrm)), (rm_flat _ _ _ _ Hrm), drop_0, (po_flat _ Hq). done. }
      assert (Hsp2 : spends p2 ≡ₚ untouched changed l1 ++ untouched changed [(n, i)]).
      { rewrite Hs2, Hp1. unfold untouched at 3. rewrite filter_cons, decide_True by done.
        destruct (po_items _ Hp _ _ Hin) as [-> _]. done. }
      exists (set_mempool p2 s). unfold on_pool. rewrite E.
      split_and!; [done| |cbn; by rewrite Hm2|done].
      split; cbn; [apply Hs|done| | |rewrite Hm2; apply Hs].
      * rewrite Ht2, Hm2. pose proof (rm_fits _ _ _ _ Hrm). rewrite (rm_max _ _ _ _ Hrm) in *. done.
      * intros n' i' Hx. rewrite Hsp2, <- untouched_app in Hx. apply list_elem_of_filter in Hx as [Ht' Hx].
        eapply (untouched_valid m m' changed p Hit Hchg n' i'); [|done]. rewrite Esp. set_solver.
Qed.

(** When the new peak is the next transaction block, the items of the old pool
    none of whose coins changed are put back without being checked again, and
    that is safe: re-adding never fails or evicts, the new pool holds exactly the
    items of the old one that spend no changed coin, and all of them are valid
    for the new state of the coin store. *)
Theorem readd_keeps_untouched `{StdHash} `{ClvmCasts} {S : Type} `{!CoinView S} (m m' : gmap bytes CoinRecord)
    (changed : list bytes) (p : Mempool) (s : MempoolManager S) :
  pool_ok p → total_mempool_cost p <= max_size_in_cost p →
  (∀ n i, (n, i) ∈ spends p → item_valid m i) →
  (∀ n r, m !! n = Some r → spent r = false → n ∉ changed →
    ∃ r', m' !! n = Some r' ∧ coin r' = coin r ∧ spent r' = false) →
  manager_ok m' s → mempool s = mempool_new (max_size_in_cost p) →
  ∃ s', st_for (λ '(_, item), readd_unchanged changed item) (spends p) s = (Ok tt, s')
    ∧ manager_ok m' s' ∧ spends (mempool s') ≡ₚ untouched changed (spends p).
Proof.
  intros Hp Hcap Hit Hchg Hs Hnew.
  destruct (st_for_total (λ '(_, item), readd_unchanged changed item)
    (λ l1 s', manager_ok m' s' ∧ max_size_in_cost (mempool s') = max_size_in_cost p
              ∧ spends (mempool s') ≡ₚ untouched changed l1) (spends p) s) as (s'&E&Hs'&_&Hsp).
  - intros l1 [n i] l2 s1 Esp (Hs1&Hm1&Hsp1). by eapply readd_step.
  - by rewrite Hnew.
  - by exists s'.
Qed.

(** A pool of two bundles, one of which the next block confirms *)
Definition sample_run (c : Coin) (ph : Z) (name : bytes) (s : MempoolManager CoinStore) : MempoolManager CoinStore :=
  (add_spendbundle (λ _, []) (sample_bundle c) (sample_npc c ph 60) name None s).2.
Definition sample_two : MempoolManager CoinStore :=
  sample_run (sample_coin 2 7 200) 10 [43] (sample_run (sample_coin 1 7 100) 9 [42] sample_admission).

Lemma sample_two_ok : manager_ok sample_map sample_two.
Proof.
  assert (H1 : manager_ok sample_map (sample_run (sample_coin 1 7 100) 9 [42] sample_admission)).
  { apply (add_spendbundle_ok (λ _, []) sample_map); [exact sample_admission_ok|].
    intros adds a n j a' _ _ Hin. exfalso. exact (not_elem_of_nil _ Hin). }
  apply (add_spendbundle_ok (λ _, []) sample_map); [exact H1|].
  intros adds a n j a' E Ha Hin Ha' En.
  assert (Hall : ∀ adds, additions_for_npc (npc_list (sample_npc (sample_coin 2 7 200) 10 60)) = Ok adds →
    Forall (λ a, Forall (λ nj, Forall (λ a', coin_name a = coin_name a' → a = a') (mi_additions nj.2))
      (spends (mempool (sample_run (sample_coin 1 7 100) 9 [42] sample_admission)))) adds).
  { intros adds' E'. vm_compute in E'. injection E' as <-. apply (bool_decide_unpack _). vm_compute. exact I. }
  specialize (Hall adds E). rewrite list.Forall_forall in Hall. specialize (Hall a Ha).
  rewrite list.Forall_forall in Hall. specialize (Hall _ Hin). rewrite list.Forall_forall in Hall. by apply Hall.
Qed.

Definition sample_next_map : gmap bytes CoinRecord :=
  alter (mark_spent 6) (coin_name (sample_coin 1 7 100)) sample_map.
Definition sample_next : MempoolManager CoinStore :=
  set_peak (Some sample_peak)
    (mempool_manager_new (coin_store_create (table sample_next_map) 2) DEFAULT_CONSTANTS).

Lemma sample_next_ok : manager_ok sample_next_map sample_next.
Proof.
  split; cbn [sample_next set_peak mempool_manager_new coin_store mempool mm_constants].
  - apply implements_create.
    assert (map_Forall (λ n r, n = coin_name (coin r) ∧ record_ok r) sample_next_map) as Hm; [|exact Hm].
    apply (bool_decide_unpack _). vm_compute. exact I.
  - apply mempool_new_ok.
  - vm_compute. congruence.
  - intros n i Hin. exfalso. exact (not_elem_of_nil _ Hin).
  - intros limit Hl. vm_compute in Hl. injection Hl as <-. vm_compute. congruence.
Qed.

Lemma spend_other (m : gmap bytes CoinRecord) k h n r :
  m !! n = Some r → n ∉ [k] → alter (mark_spent h) k m !! n = Some r.
Proof. intros Hn Hk. rewrite lookup_alter_ne by set_solver. done. Qed.

Lemma sample_next_changed n r : sample_map !! n = Some r → spent r = false →
  n ∉ [coin_name (sample_coin 1 7 100)] →
  ∃ r', sample_next_map !! n = Some r' ∧ coin r' = coin r ∧ spent r' = false.
Proof.
  intros Hn Hs Hne. exists r. split_and!; [|done|done].
  exact (spend_other _ _ _ _ _ Hn Hne).
Qed.

Lemma readd_keeps_untouched_witness :
  let p := mempool sample_two in
  let changed := [coin_name (sample_coin 1 7 100)] in
  pool_ok p ∧ manager_ok sample_next_map sample_next
  ∧ (untouched changed (spends p)).*1 = [[43]]
  ∧ ∃ s', st_for (λ '(_, item), readd_unchanged changed item) (spends p) sample_next = (Ok tt, s')
    ∧ manager_ok sample_next_map s' ∧ spends (mempool s') ≡ₚ untouched changed (spends p).
Proof.
  intros p changed. pose proof sample_two_ok as Hs.
  split; [exact (mo_pool _ _ Hs)|]. split; [exact sample_next_ok|]. split; [vm_compute; reflexivity|].
  apply (readd_keeps_untouched sample_map sample_next_map changed p sample_next
    (mo_pool _ _ Hs) (mo_capacity _ _ Hs) (mo_items _ _ Hs) sample_next_changed sample_next_ok).
  vm_compute. reflexivity.
Defined.
