(* ===== verification/Sha256.v ===== *)
(** * SHA-256

    The hash function [hashlib.sha256] of the Python standard library, as FIPS
    180-4 defines it: [chia/util/merkle_set.py] calls it.  The Merkle set is
    proved against the interface [Sha256] (a digest has 32 bytes);
    [hashlib_sha256] is the function the code runs with. *)
From S2P Require Import Prelude PyInt.

Class Sha256 := {
  sha256 : bytes → bytes;
  sha256_length : ∀ b, length (sha256 b) = 32%nat;
  sha256_bytes : ∀ b, is_bytes (sha256 b);
}.

Module FIPS180.

(** Words of 32 bits *)
Definition wrap (x : Z) : Z := x mod 2 ^ 32.
Definition rotr (n x : Z) : Z := Z.lor (Z.shiftr x n) (wrap (Z.shiftl x (32 - n))).
Definition not32 (x : Z) : Z := 2 ^ 32 - 1 - x.
Definition Ch (x y z : Z) : Z := Z.lxor (Z.land x y) (Z.land (not32 x) z).
Definition Maj (x y z : Z) : Z := Z.lxor (Z.land x y) (Z.lxor (Z.land x z) (Z.land y z)).
Definition Sigma0 (x : Z) : Z := Z.lxor (rotr 2 x) (Z.lxor (rotr 13 x) (rotr 22 x)).
Definition Sigma1 (x : Z) : Z := Z.lxor (rotr 6 x) (Z.lxor (rotr 11 x) (rotr 25 x)).
Definition sigma0 (x : Z) : Z := Z.lxor (rotr 7 x) (Z.lxor (rotr 18 x) (Z.shiftr x 3)).
Definition sigma1 (x : Z) : Z := Z.lxor (rotr 17 x) (Z.lxor (rotr 19 x) (Z.shiftr x 10)).

Definition K : list Z :=
  [1116352408; 1899447441; 3049323471; 3921009573; 961987163; 1508970993;
   2453635748; 2870763221; 3624381080; 310598401; 607225278; 1426881987;
   1925078388; 2162078206; 2614888103; 3248222580; 3835390401; 4022224774;
   264347078; 604807628; 770255983; 1249150122; 1555081692; 1996064986;
   2554220882; 2821834349; 2952996808; 3210313671; 3336571891; 3584528711;
   113926993; 338241895; 666307205; 773529912; 1294757372; 1396182291;
   1695183700; 1986661051; 2177026350; 2456956037; 2730485921; 2820302411;
   3259730800; 3345764771; 3516065817; 3600352804; 4094571909; 275423344;
   430227734; 506948616; 659060556; 883997877; 958139571; 1322822218;
   1537002063; 1747873779; 1955562222; 2024104815; 2227730452; 2361852424;
   2428436474; 2756734187; 3204031479; 3329325298].
Definition H0 : list Z :=
  [1779033703; 3144134277; 1013904242; 2773480762; 1359893119; 2600822924;
   528734635; 1541459225].

(** The message, the bit 1, zeros up to 56 modulo 64 bytes, the length in bits *)
Definition pad (m : bytes) : bytes :=
  let n := Z.of_nat (length m) in
  m ++ [128] ++ replicate (Z.to_nat ((55 - n) mod 64)) 0 ++ encode_be 8 (8 * n).

Fixpoint words (n : nat) (m : bytes) : list Z :=
  match n with O => [] | S n => decode_be false (take 4 m) :: words n (drop 4 m) end.

(** The message schedule, latest word first: [w] holds the words so far. *)
Fixpoint schedule (n : nat) (w : list Z) : list Z :=
  match n with
  | O => w
  | S n =>
      let at_ i := nth (i - 1) w 0 in
      schedule n (wrap (sigma1 (at_ 2%nat) + at_ 7%nat + sigma0 (at_ 15%nat) + at_ 16%nat) :: w)
  end.

Definition round (v : list Z) (kw : Z * Z) : list Z :=
  match v with
  | [a; b; c; d; e; f; g; h] =>
      let T1 := h + Sigma1 e + Ch e f g + kw.1 + kw.2 in
      let T2 := Sigma0 a + Maj a b c in
      [wrap (T1 + T2); a; b; c; wrap (d + T1); e; f; g]
  | _ => v
  end.

Definition compress (h : list Z) (block : bytes) : list Z :=
  let w := rev (schedule 48 (rev (words 16 block))) in
  zip_with (λ x y, wrap (x + y)) h (foldl round h (zip K w)).

Fixpoint hash_blocks (n : nat) (h : list Z) (m : bytes) : list Z :=
  match n with O => h | S n => hash_blocks n (compress h (take 64 m)) (drop 64 m) end.

Definition digest (m : bytes) : bytes :=
  let p := pad m in
  hash_blocks (length p / 64) H0 p ≫= encode_be 4.

Lemma round_length v kw : length (round v kw) = length v.
Proof. unfold round. by do 9 (destruct v as [|? v]; try done). Qed.

Lemma rounds_length l v : length (foldl round v l) = length v.
Proof. revert v. induction l as [|x l IH]; intros; cbn; [done|]. by rewrite IH, round_length. Qed.

Lemma hash_blocks_length n h m : length (hash_blocks n h m) = length h.
Proof.
  revert h m. induction n as [|n IH]; intros; cbn [hash_blocks]; [done|].
  rewrite IH. unfold compress. rewrite length_zip_with, rounds_length. lia.
Qed.

Lemma bind_encode_length (l : list Z) : length (l ≫= encode_be 4) = (4 * length l)%nat.
Proof. induction l as [|x l IH]; [done|]. rewrite bind_cons, length_app, IH, encode_be_length. cbn. lia. Qed.

Lemma digest_length m : length (digest m) = 32%nat.
Proof.
  unfold digest. rewrite bind_encode_length, hash_blocks_length. done.
Qed.

Lemma digest_bytes m : is_bytes (digest m).
Proof.
  unfold is_bytes, digest. rewrite Forall_forall. intros x Hx.
  apply list_elem_of_bind in Hx as (y&Hx&_).
  pose proof (encode_be_are_bytes 4 y) as Hb. unfold is_bytes in Hb. rewrite Forall_forall in Hb. auto.
Qed.

(** The test vector of the standard for the message [abc] *)
Example digest_abc :
  digest [97; 98; 99]
  = [186; 120; 22; 191; 143; 1; 207; 234; 65; 65; 64; 222; 93; 174; 34; 35;
     176; 3; 97; 163; 150; 23; 122; 156; 180; 16; 255; 97; 242; 0; 21; 173].
Proof. vm_compute. reflexivity. Qed.
End FIPS180.

#[export] Instance hashlib_sha256 : Sha256 := {|
  sha256 := FIPS180.digest;
  sha256_length := FIPS180.digest_length;
  sha256_bytes := FIPS180.digest_bytes;
|}.
