(* ===== verification/MerkleSet.v ===== *)
(** * Merkle sets

    Models [chia/util/merkle_set.py]: the binary radix tree over 32-byte hashes
    whose root commits to a set, insertion, removal, membership with proofs,
    the operations of [MerkleSet].  [MerkleProof.v] holds the deserialization and
    the checking of proofs.

    The theorems hold of every hash function with 32-byte digests ([Sha256]).  The object identity tests of [add] and [remove]
    ([newchild is child]) are modelled by an option: [None] is the node itself. *)
From S2P Require Import Prelude PyInt Sha256.

Definition EMPTY : bytes := [0].
Definition TERMINAL : bytes := [1].
Definition MIDDLE : bytes := [2].
Definition TRUNCATED : bytes := [3].
Definition BLANK : bytes := replicate 32 0.

(** Slices [b[i:j]] of byte strings *)
Definition slice (i j : nat) (b : bytes) : bytes := take (j - i) (drop i b).

(** Comparison of byte strings: lexicographic *)
Fixpoint bytes_lt (a b : bytes) : bool :=
  match a, b with
  | _, [] => false
  | [], _ :: _ => true
  | x :: a, y :: b => if x <? y then true else if y <? x then false else bytes_lt a b
  end.

Definition get_bit (mybytes : bytes) (pos : Z) : res bool :=
  assert_ (bool_decide (length mybytes = 32%nat)) ;;
  b ← py_index mybytes (pos / 8);
  Ok (Z.testbit b (7 - pos mod 8)).

Inductive node :=
  | EmptyNode
  | TerminalNode (hash : bytes)
  | MiddleNode (hash : bytes) (c0 c1 : node)
  | TruncatedNode (hash : bytes).
#[global] Instance node_eq_dec : EqDecision node.
Proof. solve_decision. Defined.

Definition node_hash (n : node) : bytes :=
  match n with EmptyNode => BLANK | TerminalNode h | MiddleNode h _ _ | TruncatedNode h => h end.
Definition get_hash (n : node) : bytes :=
  match n with
  | EmptyNode => EMPTY ++ BLANK
  | TerminalNode h => TERMINAL ++ h
  | MiddleNode h _ _ | TruncatedNode h => MIDDLE ++ h
  end.
Definition is_empty (n : node) : bool := match n with EmptyNode => true | _ => false end.
Definition is_terminal (n : node) : bool := match n with TerminalNode _ => true | _ => false end.

Fixpoint is_double (n : node) : res bool :=
  match n with
  | EmptyNode | TerminalNode _ => Raise SetError
  | TruncatedNode _ => Ok false
  | MiddleNode _ c0 c1 =>
      if is_empty c0 then is_double c1
      else if is_empty c1 then is_double c0
      else Ok (is_terminal c0 && is_terminal c1)
  end.

Section Merkle.
Context `{Sha256}.

(** The prefix [prehashed[x + y]] exists for the tags 0, 1 and 2 only. *)
Definition hashdown (mystr : bytes) : res bytes :=
  assert_ (bool_decide (length mystr = 66%nat)) ;;
  let x := slice 0 1 mystr in
  let y := slice 33 34 mystr in
  check (bool_decide (x ∈ [EMPTY; TERMINAL; MIDDLE] ∧ y ∈ [EMPTY; TERMINAL; MIDDLE])) KeyError ;;
  Ok (take 32 (sha256 (replicate 30 0 ++ x ++ y ++ slice 1 33 mystr ++ drop 34 mystr))).

Definition compress_root (mystr : bytes) : res bytes :=
  assert_ (bool_decide (length mystr = 33%nat)) ;;
  if bool_decide (slice 0 1 mystr = MIDDLE) then Ok (drop 1 mystr)
  else if bool_decide (slice 0 1 mystr = EMPTY) then
    assert_ (bool_decide (drop 1 mystr = BLANK)) ;; Ok BLANK
  else Ok (take 32 (sha256 mystr)).

(** [MiddleNode(children)] *)
Definition make_middle_node (c0 c1 : node) : res node :=
  d1 ← (if is_empty c0 then is_double c1 else Ok false);
  if (d1 : bool) then Ok (MiddleNode (node_hash c1) c0 c1)
  else
    d0 ← (if is_empty c1 then is_double c0 else Ok false);
    if (d0 : bool) then Ok (MiddleNode (node_hash c0) c0 c1)
    else if is_empty c0 && (is_empty c1 || is_terminal c1) then Raise SetError
    else if is_empty c1 && is_terminal c0 then Raise SetError
    else if is_terminal c0 && is_terminal c1 && negb (bytes_lt (node_hash c0) (node_hash c1)) then Raise SetError
    else h ← hashdown (get_hash c0 ++ get_hash c1); Ok (MiddleNode h c0 c1).

(** [TerminalNode(hash)] *)
Definition make_terminal (h : bytes) : res node :=
  assert_ (bool_decide (length h = 32%nat)) ;; Ok (TerminalNode h).

(** [TerminalNode._make_middle]: two distinct hashes differ in one of their 256
    bits, so 257 levels are enough. *)
Fixpoint make_middle (fuel : nat) (h0 h1 : bytes) (depth : Z) : res node :=
  match fuel with
  | O => OutOfFuel
  | S fuel =>
      b0 ← get_bit h0 depth;
      b1 ← get_bit h1 depth;
      if negb (eqb b0 b1) then make_middle_node (TerminalNode h0) (TerminalNode h1)
      else
        c ← make_middle fuel h0 h1 (depth + 1);
        if b0 then make_middle_node EmptyNode c else make_middle_node c EmptyNode
  end.

Definition TerminalNode_add (h toadd : bytes) (depth : Z) : res (option node) :=
  if bool_decide (toadd = h) then Ok None
  else
    make_terminal toadd ;;
    r ← (if bytes_lt h toadd then make_middle 257 h toadd depth else make_middle 257 toadd h depth);
    Ok (Some r).

(** [Node.add]; [None] is [self] *)
Fixpoint add_node (n : node) (toadd : bytes) (depth : Z) : res (option node) :=
  match n with
  | EmptyNode => t ← make_terminal toadd; Ok (Some t)
  | TerminalNode h => TerminalNode_add h toadd depth
  | MiddleNode _ c0 c1 =>
      bit ← get_bit toadd depth;
      newchild ← add_node (if (bit : bool) then c1 else c0) toadd (depth + 1);
      match newchild with
      | None => Ok None
      | Some c => r ← (if (bit : bool) then make_middle_node c0 c else make_middle_node c c1); Ok (Some r)
      end
  | TruncatedNode _ => Ok None
  end.

(** [Node.remove]; [None] is [self] *)
Fixpoint remove_node (n : node) (toremove : bytes) (depth : Z) : res (option node) :=
  match n with
  | EmptyNode => Ok None
  | TerminalNode h => Ok (if bool_decide (toremove = h) then Some EmptyNode else None)
  | MiddleNode _ c0 c1 =>
      bit ← get_bit toremove depth;
      newchild ← remove_node (if (bit : bool) then c1 else c0) toremove (depth + 1);
      match newchild with
      | None => Ok None
      | Some c =>
          let otherchild := if (bit : bool) then c0 else c1 in
          if is_empty c && is_terminal otherchild then Ok (Some otherchild)
          else if is_terminal c && is_empty otherchild then Ok (Some c)
          else r ← (if (bit : bool) then make_middle_node c0 c else make_middle_node c c1); Ok (Some r)
      end
  | TruncatedNode _ => Ok None
  end.

(** [Node.other_included]: [included] is the call of [is_included] on the same node *)
Definition other_included (n : node) (included : res (bool * bytes)) (collapse : bool) : res bytes :=
  match n with
  | EmptyNode => Ok EMPTY
  | TerminalNode h => Ok (TERMINAL ++ h)
  | TruncatedNode h => Ok (TRUNCATED ++ h)
  | MiddleNode h _ _ =>
      truncated ← (if collapse then Ok true else d ← is_double n; Ok (negb d));
      if (truncated : bool) then Ok (TRUNCATED ++ h)
      else '(_, p) ← included; Ok p
  end.

(** [Node.is_included], with the proof it appends *)
Fixpoint is_included (n : node) (tocheck : bytes) (depth : Z) : res (bool * bytes) :=
  match n with
  | EmptyNode => Ok (false, EMPTY)
  | TerminalNode h => Ok (bool_decide (tocheck = h), TERMINAL ++ h)
  | TruncatedNode _ => Raise SetError
  | MiddleNode _ c0 c1 =>
      bit ← get_bit tocheck depth;
      if (bit : bool) then
        p0 ← other_included c0 (is_included c0 tocheck (depth + 1)) (negb (is_empty c1));
        '(r, p1) ← is_included c1 tocheck (depth + 1);
        Ok (r, MIDDLE ++ p0 ++ p1)
      else
        '(r, p0) ← is_included c0 tocheck (depth + 1);
        p1 ← other_included c1 (is_included c1 tocheck (depth + 1)) (negb (is_empty c0));
        Ok (r, MIDDLE ++ p0 ++ p1)
  end.

(** [TerminalNode._audit] on one hash: the bits of its path *)
Fixpoint audit_bits (h : bytes) (pos : Z) (bits : list bool) : res unit :=
  match bits with
  | [] => Ok tt
  | v :: bits => b ← get_bit h pos; assert_ (eqb b v) ;; audit_bits h (pos + 1) bits
  end.

Fixpoint audit (n : node) (bits : list bool) : res (list bytes) :=
  match n with
  | EmptyNode | TruncatedNode _ => Ok []
  | TerminalNode h => audit_bits h 0 bits ;; Ok [h]
  | MiddleNode _ c0 c1 =>
      l0 ← audit c0 (bits ++ [false]);
      l1 ← audit c1 (bits ++ [true]);
      Ok (l0 ++ l1)
  end.

(** ** [MerkleSet] *)
Definition get_root (root : node) : res bytes := compress_root (get_hash root).
Definition add_already_hashed (root : node) (toadd : bytes) : res node :=
  r ← add_node root toadd 0; Ok (default root r).
Definition remove_already_hashed (root : node) (toremove : bytes) : res node :=
  r ← remove_node root toremove 0; Ok (default root r).
Definition is_included_already_hashed (root : node) (tocheck : bytes) : res (bool * bytes) :=
  is_included root tocheck 0.

(** [MerkleSet._audit]: [newhashes == sorted(newhashes)] compares each hash with
    the next. *)
Fixpoint hashes_sorted (l : list bytes) : bool :=
  match l with
  | x :: ((y :: _) as l') => negb (bytes_lt y x) && hashes_sorted l'
  | _ => true
  end.
Definition audit_set (root : node) : res unit :=
  newhashes ← audit root [];
  assert_ (hashes_sorted newhashes).

End Merkle.

(** ** The bits of a hash *)
Definition byte_bits (x : Z) : list bool := (λ i, Z.testbit x (7 - Z.of_nat i)) <$> seq 0 8.
Definition bits_of (h : bytes) : list bool := h ≫= byte_bits.
Definition hash32 (h : bytes) : Prop := length h = 32%nat ∧ is_bytes h.
#[global] Instance hash32_dec h : Decision (hash32 h).
Proof. unfold hash32. apply _. Defined.

Lemma byte_bits_length x : length (byte_bits x) = 8%nat.
Proof. done. Qed.

Lemma bits_of_cons x h : bits_of (x :: h) = byte_bits x ++ bits_of h.
Proof. apply bind_cons. Qed.

Lemma bits_of_length h : length (bits_of h) = (8 * length h)%nat.
Proof.
  induction h as [|x h IH]; [done|]. rewrite bits_of_cons, length_app, IH, byte_bits_length. cbn. lia.
Qed.

Lemma bits_of_lookup (h : list Z) i :
  bits_of h !! i = (λ x, Z.testbit x (7 - Z.of_nat (i mod 8))) <$> h !! (i / 8)%nat.
Proof.
  revert i. induction h as [|x h IH]; intros i; [done|]. rewrite bits_of_cons.
  destruct (decide (i < 8)%nat) as [Hi|Hi].
  - rewrite lookup_app_l by (rewrite byte_bits_length; lia).
    rewrite Nat.div_small, Nat.mod_small by lia. unfold byte_bits. rewrite list_lookup_fmap.
    by rewrite lookup_seq_lt by lia.
  - rewrite lookup_app_r by (rewrite byte_bits_length; lia). rewrite byte_bits_length, IH.
    assert (Hd : (i / 8 = S ((i - 8) / 8))%nat).
    { replace i with (i - 8 + 1 * 8)%nat at 1 by lia. rewrite Nat.div_add by lia. lia. }
    assert (Hm : (i mod 8 = (i - 8) mod 8)%nat).
    { replace i with (i - 8 + 1 * 8)%nat at 1 by lia. by rewrite Nat.Div0.mod_add. }
    by rewrite Hd, Hm.
Qed.

Lemma get_bit_eq (h : list Z) i :
  length h = 32%nat → get_bit h (Z.of_nat i) = of_opt IndexError (bits_of h !! i).
Proof.
  intros Hl. unfold get_bit. rewrite bool_decide_true by done. cbn [mbind res_bind assert_ check].
  unfold py_index. assert (0 <= Z.of_nat i / 8) by (apply Z.div_pos; lia).
  destruct (Z.ltb_spec (Z.of_nat i / 8) 0); [lia|]. destruct (Z.ltb_spec (Z.of_nat i / 8) 0); [lia|].
  change 8 with (Z.of_nat 8). rewrite <- Nat2Z.inj_div, Nat2Z.id, <- Nat2Z.inj_mod, bits_of_lookup.
  by destruct (h !! (i / 8)%nat).
Qed.

Lemma byte_bits_inj x y : is_byte x → is_byte y → byte_bits x = byte_bits y → x = y.
Proof.
  unfold is_byte. intros Hx Hy E. apply Z.bits_inj'. intros n Hn.
  destruct (decide (n < 8)).
  - assert (El : byte_bits x !! Z.to_nat (7 - n) = byte_bits y !! Z.to_nat (7 - n)) by by rewrite E.
    unfold byte_bits in El. rewrite !list_lookup_fmap, !lookup_seq_lt in El by lia.
    cbn [fmap option_fmap option_map] in El.
    replace (7 - Z.of_nat (0 + Z.to_nat (7 - n))) with n in El by lia. by injection El.
  - rewrite !Z.bits_above_log2; [done| lia | | lia | ].
    + destruct (decide (y = 0)) as [->|]; [cbn; lia|].
      apply Z.log2_lt_pow2; [lia|]. assert (2 ^ 8 <= 2 ^ n) by (apply Z.pow_le_mono_r; lia). lia.
    + destruct (decide (x = 0)) as [->|]; [cbn; lia|].
      apply Z.log2_lt_pow2; [lia|]. assert (2 ^ 8 <= 2 ^ n) by (apply Z.pow_le_mono_r; lia). lia.
Qed.

Lemma bits_of_inj a b :
  is_bytes a → is_bytes b → length a = length b → bits_of a = bits_of b → a = b.
Proof.
  unfold is_bytes. revert b. induction a as [|x a IH]; intros [|y b] Ha Hb Hl E; try done.
  rewrite !bits_of_cons in E. apply Forall_cons in Ha as [Hx Ha], Hb as [Hy Hb].
  apply app_inj_1 in E as [E1 E2]; [|done].
  f_equal; [by apply byte_bits_inj|]. apply IH; [done|done|by injection Hl|done].
Qed.

(** Bits decide the order: two numbers that agree above bit [k]. *)
Lemma testbit_lt x y k :
  0 <= k → (∀ n, k < n → Z.testbit x n = Z.testbit y n) →
  Z.testbit x k = false → Z.testbit y k = true → x < y.
Proof.
  intros Hk Hn Hx Hy. destruct (decide (x < y)) as [|Hge]; [done|exfalso].
  assert (E : x / 2 ^ (k + 1) = y / 2 ^ (k + 1)).
  { rewrite <- !Z.shiftr_div_pow2 by lia. apply Z.bits_inj'. intros n Hn'.
    rewrite !Z.shiftr_spec by lia. apply Hn. lia. }
  assert (Hle : y / 2 ^ k <= x / 2 ^ k) by (apply Z.div_le_mono; [apply Z.pow_pos_nonneg; lia|lia]).
  assert (Hb : ∀ z, z / 2 ^ k = 2 * (z / 2 ^ (k + 1)) + Z.b2z (Z.testbit z k)).
  { intros z. rewrite Z.testbit_spec' by lia.
    rewrite Z.pow_add_r, <- Z.div_div by (lia || (apply Z.pow_nonzero; lia)).
    change (2 ^ 1) with 2. pose proof (Z.div_mod (z / 2 ^ k) 2); lia. }
  rewrite (Hb x), (Hb y), E, Hx, Hy in Hle. cbn in Hle. lia.
Qed.

Lemma byte_bits_lt x y i :
  is_byte x → is_byte y → (i < 8)%nat → take i (byte_bits x) = take i (byte_bits y) →
  byte_bits x !! i = Some false → byte_bits y !! i = Some true → x < y.
Proof.
  unfold is_byte. intros Hx Hy Hi Ht Ex Ey.
  assert (Hb : ∀ z j, (j < 8)%nat → byte_bits z !! j = Some (Z.testbit z (7 - Z.of_nat j))).
  { intros z j Hj. unfold byte_bits. rewrite list_lookup_fmap, lookup_seq_lt by done. done. }
  apply (testbit_lt x y (7 - Z.of_nat i)); [lia| | |].
  - intros n Hn. destruct (decide (n < 8)).
    + assert (El : take i (byte_bits x) !! Z.to_nat (7 - n) = take i (byte_bits y) !! Z.to_nat (7 - n))
        by by rewrite Ht.
      rewrite !lookup_take_lt, !Hb in El by lia.
      replace (7 - Z.of_nat (Z.to_nat (7 - n))) with n in El by lia. by injection El.
    + assert (2 ^ 8 <= 2 ^ n) by (apply Z.pow_le_mono_r; lia).
      assert (Ha : ∀ z, 0 <= z < 256 → Z.testbit z n = false).
      { intros z Hz. rewrite <- (Z.mod_small z (2 ^ n)) by lia. apply Z.mod_pow2_bits_high. lia. }
      by rewrite !Ha.
  - rewrite Hb in Ex by done. by injection Ex.
  - rewrite Hb in Ey by done. by injection Ey.
Qed.

(** The order of byte strings is the order of their bits: the tree is sorted. *)
Lemma bytes_lt_bits a b i :
  is_bytes a → is_bytes b → take i (bits_of a) = take i (bits_of b) →
  bits_of a !! i = Some false → bits_of b !! i = Some true → bytes_lt a b = true.
Proof.
  unfold is_bytes. revert b i. induction a as [|x a IH]; intros [|y b] i Ha Hb Ht Ea Eb; try done.
  apply Forall_cons in Ha as [Hx Ha], Hb as [Hy Hb].
  rewrite !bits_of_cons in *. cbn [bytes_lt]. destruct (decide (i < 8)%nat) as [Hi|Hi].
  - rewrite !lookup_app_l in * by (rewrite byte_bits_length; lia).
    rewrite !take_app_le in Ht by (rewrite byte_bits_length; lia).
    assert (x < y) by by apply (byte_bits_lt x y i). by rewrite (proj2 (Z.ltb_lt x y)).
  - rewrite !lookup_app_r in * by (rewrite byte_bits_length; lia). rewrite byte_bits_length in *.
    rewrite !take_app_ge in Ht by (rewrite byte_bits_length; lia). rewrite !byte_bits_length in Ht.
    apply app_inj_1 in Ht as [Exy Ht]; [|done].
    assert (x = y) as -> by by apply byte_bits_inj. rewrite Z.ltb_irrefl. by apply (IH b (i - 8)%nat).
Qed.

Lemma bytes_lt_irrefl a : bytes_lt a a = false.
Proof. induction a as [|x a IH]; cbn; [done|]. by rewrite Z.ltb_irrefl. Qed.

Lemma bytes_lt_asym a b : bytes_lt a b = true → bytes_lt b a = false.
Proof.
  revert b. induction a as [|x a IH]; intros [|y b]; cbn; try done.
  destruct (Z.ltb_spec x y), (Z.ltb_spec y x); try done; try lia. apply IH.
Qed.

Lemma prefix_snoc {A} (pre l : list A) b :
  pre ++ [b] `prefix_of` l → pre `prefix_of` l ∧ take (length pre) l = pre ∧ l !! length pre = Some b.
Proof.
  intros [k ->]. rewrite <- (assoc_L (++)). split_and!.
  - by exists ([b] ++ k).
  - by rewrite take_app_length.
  - rewrite lookup_app_r by lia. by rewrite Nat.sub_diag.
Qed.

Lemma prefix_extend {A} (pre l : list A) :
  pre `prefix_of` l → (length pre < length l)%nat →
  ∃ b, l !! length pre = Some b ∧ pre ++ [b] `prefix_of` l.
Proof.
  intros [[|b k] ->] Hl; [rewrite app_nil_r in Hl; lia|]. exists b. split.
  - rewrite lookup_app_r by lia. by rewrite Nat.sub_diag.
  - exists k. by rewrite <- (assoc_L (++)).
Qed.

(** ** Well-formed trees

    A tree stands for the set of its hashes.  Every hash lies on the path of its
    bits, a middle node was built by the constructor (so it has at least two
    hashes and its hash is the one of its children), and nothing is truncated. *)
Fixpoint elements (n : node) : list bytes :=
  match n with
  | EmptyNode | TruncatedNode _ => []
  | TerminalNode h => [h]
  | MiddleNode _ c0 c1 => elements c0 ++ elements c1
  end.

Section MerkleFacts.
Context `{HS : Sha256}.

Fixpoint tree_ok (pre : list bool) (n : node) : Prop :=
  match n with
  | EmptyNode => True
  | TruncatedNode _ => False
  | TerminalNode h => hash32 h ∧ pre `prefix_of` bits_of h
  | MiddleNode h c0 c1 =>
      tree_ok (pre ++ [false]) c0 ∧ tree_ok (pre ++ [true]) c1 ∧
      make_middle_node c0 c1 = Ok (MiddleNode h c0 c1)
  end.

Lemma tree_ok_elements pre n h :
  tree_ok pre n → h ∈ elements n → hash32 h ∧ pre `prefix_of` bits_of h.
Proof.
  revert pre. induction n as [|g|g c0 IH0 c1 IH1|g]; intros pre Hok Hin; cbn in *.
  - set_solver.
  - apply list_elem_of_singleton in Hin as ->. done.
  - destruct Hok as (H0&H1&_). apply elem_of_app in Hin as [Hin|Hin].
    + destruct (IH0 _ H0 Hin) as [? [? _]%prefix_snoc]. done.
    + destruct (IH1 _ H1 Hin) as [? [? _]%prefix_snoc]. done.
  - done.
Qed.

Lemma tree_ok_terminal_weaken pre b h : tree_ok (pre ++ [b]) (TerminalNode h) → tree_ok pre (TerminalNode h).
Proof. intros [? [? _]%prefix_snoc]. done. Qed.

(** The children of a middle node hold different hashes, those of the first
    below those of the second. *)
Lemma children_differ pre c0 c1 a b :
  tree_ok (pre ++ [false]) c0 → tree_ok (pre ++ [true]) c1 → a ∈ elements c0 → b ∈ elements c1 →
  bytes_lt a b = true.
Proof.
  intros H0 H1 Ha Hb.
  destruct (tree_ok_elements _ _ _ H0 Ha) as [[_ ?] (_&Ea&?)%prefix_snoc].
  destruct (tree_ok_elements _ _ _ H1 Hb) as [[_ ?] (_&Eb&?)%prefix_snoc].
  apply (bytes_lt_bits a b (length pre)); [done|done|congruence|done|done].
Qed.

Lemma children_disjoint pre c0 c1 a :
  tree_ok (pre ++ [false]) c0 → tree_ok (pre ++ [true]) c1 → a ∈ elements c0 → a ∉ elements c1.
Proof.
  intros H0 H1 Ha Hb. pose proof (children_differ _ _ _ _ _ H0 H1 Ha Hb) as Hlt.
  by rewrite bytes_lt_irrefl in Hlt.
Qed.

Lemma tree_ok_NoDup pre n : tree_ok pre n → NoDup (elements n).
Proof.
  revert pre. induction n as [|g|g c0 IH0 c1 IH1|g]; intros pre Hok; cbn in *;
    [constructor|apply NoDup_singleton| |done].
  destruct Hok as (H0&H1&_). apply NoDup_app. split_and!; [by eapply IH0| |by eapply IH1].
  intros a Ha. by eapply children_disjoint.
Qed.

Lemma make_middle_inv c0 c1 n :
  make_middle_node c0 c1 = Ok n →
  ∃ h, n = MiddleNode h c0 c1 ∧
    ¬ (is_empty c0 ∧ is_empty c1) ∧ ¬ (is_empty c0 ∧ is_terminal c1) ∧ ¬ (is_terminal c0 ∧ is_empty c1) ∧
    (is_empty c0 ∧ is_double c1 = Ok true ∧ h = node_hash c1
     ∨ is_empty c1 ∧ is_double c0 = Ok true ∧ h = node_hash c0
     ∨ (is_empty c0 → is_double c1 = Ok false) ∧ (is_empty c1 → is_double c0 = Ok false) ∧
       hashdown (get_hash c0 ++ get_hash c1) = Ok h).
Proof.
  unfold make_middle_node. intros E. apply bind_Ok in E as (d1&E1&E).
  assert (Hd : is_empty c0 = true → is_double c1 = Ok d1) by (intros He; by rewrite He in E1).
  destruct d1.
  - destruct (is_empty c0) eqn:E0; [|done]. injection E as <-. eexists; split; [done|].
    destruct c0, c1; cbn in *; naive_solver.
  - apply bind_Ok in E as (d0&E2&E).
    assert (Hd' : is_empty c1 = true → is_double c0 = Ok d0) by (intros He; by rewrite He in E2).
    destruct d0.
    + destruct (is_empty c1) eqn:E3; [|done]. injection E as <-. eexists; split; [done|].
      destruct c0, c1; cbn in *; naive_solver.
    + clear E1 E2. res_inv. eexists; split; [done|].
      destruct c0, c1; cbn in *; try done; (split_and!; [tauto..|]; right; right; split_and!;
        [intros; try done; by apply Hd | intros; try done; by apply Hd' | done]).
Qed.

Lemma tree_ok_size pre n :
  tree_ok pre n →
  match n with
  | EmptyNode => length (elements n) = 0%nat
  | TerminalNode _ => length (elements n) = 1%nat
  | _ => (2 <= length (elements n))%nat
  end.
Proof.
  revert pre. induction n as [|g|g c0 IH0 c1 IH1|g]; intros pre Hok; cbn in *; [done|done| |done].
  destruct Hok as (H0&H1&E). apply make_middle_inv in E as (h&_&N1&N2&N3&_).
  specialize (IH0 _ H0). specialize (IH1 _ H1). rewrite length_app.
  destruct c0, c1; cbn in *; try tauto; lia.
Qed.

(** What [hashdown] hashes: the tags of the two children, then their hashes. *)
Definition middle_preimage (c0 c1 : node) : bytes :=
  replicate 30 0 ++ take 1 (get_hash c0) ++ take 1 (get_hash c1) ++ node_hash c0 ++ node_hash c1.

Lemma get_hash_length n : length (node_hash n) = 32%nat → length (get_hash n) = 33%nat.
Proof. destruct n; cbn; lia. Qed.

Lemma get_hash_parts n : get_hash n = take 1 (get_hash n) ++ node_hash n.
Proof. by destruct n. Qed.

Lemma get_hash_tag n : take 1 (get_hash n) ∈ [EMPTY; TERMINAL; MIDDLE] ∧ length (take 1 (get_hash n)) = 1%nat.
Proof. destruct n; cbn; split; try done; set_solver. Qed.

Lemma hashdown_eq c0 c1 :
  length (node_hash c0) = 32%nat → length (node_hash c1) = 32%nat →
  hashdown (get_hash c0 ++ get_hash c1) = Ok (sha256 (middle_preimage c0 c1)).
Proof.
  intros H0 H1. pose proof (get_hash_length _ H0) as L0. pose proof (get_hash_length _ H1) as L1.
  destruct (get_hash_tag c0) as [T0 S0], (get_hash_tag c1) as [T1 S1].
  unfold hashdown. rewrite (bool_decide_true (length _ = 66%nat)) by (rewrite length_app; lia). cbn [mbind res_bind assert_ check].
  assert (Ex : slice 0 1 (get_hash c0 ++ get_hash c1) = take 1 (get_hash c0)).
  { unfold slice. rewrite drop_0. change (1 - 0)%nat with 1%nat. apply take_app_le. lia. }
  assert (Ed : drop 33 (get_hash c0 ++ get_hash c1) = get_hash c1) by by rewrite drop_app_length'.
  assert (Ey : slice 33 34 (get_hash c0 ++ get_hash c1) = take 1 (get_hash c1)).
  { unfold slice. by rewrite Ed. }
  assert (Ez : slice 1 33 (get_hash c0 ++ get_hash c1) = node_hash c0).
  { unfold slice. rewrite (get_hash_parts c0), <- (assoc_L (++)), drop_app_length' by done.
    by rewrite take_app_length'. }
  assert (Ew : drop 34 (get_hash c0 ++ get_hash c1) = node_hash c1).
  { change 34%nat with (33 + 1)%nat. rewrite <- drop_drop, Ed, (get_hash_parts c1).
    by rewrite drop_app_length'. }
  rewrite Ex, Ey, Ez, Ew, bool_decide_true by done. cbn [check mbind res_bind].
  by rewrite take_ge by (rewrite sha256_length; lia).
Qed.

Lemma tree_ok_hash_length pre n : tree_ok pre n → length (node_hash n) = 32%nat.
Proof.
  revert pre. induction n as [|g|g c0 IH0 c1 IH1|g]; intros pre Hok; cbn in *; [done|by destruct Hok as [[??]?]| |done].
  destruct Hok as (H0&H1&E). apply make_middle_inv in E as (h&Eh&_&_&_&Hc). injection Eh as ->.
  destruct Hc as [(_&_&->)|[(_&_&->)|(_&_&Eh)]]; [by eapply IH1|by eapply IH0|].
  rewrite hashdown_eq in Eh by eauto. injection Eh as <-. apply sha256_length.
Qed.

(** [is_double] tells the trees of exactly two hashes. *)
Lemma tree_ok_double pre h c0 c1 :
  tree_ok pre (MiddleNode h c0 c1) →
  is_double (MiddleNode h c0 c1) = Ok (bool_decide (length (elements (MiddleNode h c0 c1)) = 2%nat)).
Proof.
  intros Hok. remember (MiddleNode h c0 c1) as n eqn:En. revert pre h c0 c1 En Hok.
  induction n as [|g|g c0 IH0 c1 IH1|g]; intros pre h d0 d1 En Hok; try done. clear En h d0 d1.
  cbn [tree_ok] in Hok. destruct Hok as (H0&H1&E). apply make_middle_inv in E as (h&_&N1&N2&N3&_).
  pose proof (tree_ok_size _ _ H0) as Z0. pose proof (tree_ok_size _ _ H1) as Z1.
  cbn [is_double elements]. rewrite length_app.
  destruct c0 as [|a|a l r|a], c1 as [|b|b l' r'|b]; cbn [is_empty is_terminal tree_ok andb] in *;
    try (exfalso; tauto).
  all: try (by eapply IH1); try by (rewrite Nat.add_0_r; eapply IH0).
  all: rewrite ?bool_decide_true by done; f_equal; symmetry; try apply bool_decide_eq_false; try lia.
  all: apply bool_decide_eq_true; cbn; lia.
Qed.

Lemma make_middle_ok pre c0 c1 :
  tree_ok (pre ++ [false]) c0 → tree_ok (pre ++ [true]) c1 →
  (2 <= length (elements c0) + length (elements c1))%nat →
  ∃ n, make_middle_node c0 c1 = Ok n ∧ tree_ok pre n ∧ elements n = elements c0 ++ elements c1.
Proof.
  intros H0 H1 Hs.
  enough (∃ h, make_middle_node c0 c1 = Ok (MiddleNode h c0 c1)) as [h E].
  { exists (MiddleNode h c0 c1). cbn. auto. }
  pose proof (tree_ok_size _ _ H0) as Z0. pose proof (tree_ok_size _ _ H1) as Z1.
  assert (Hd0 : is_empty c1 = true → ∃ b, is_double c0 = Ok b).
  { intros. destruct c0, c1; cbn in *; try lia; try tauto; try done. eexists. by eapply tree_ok_double. }
  assert (Hd1 : is_empty c0 = true → ∃ b, is_double c1 = Ok b).
  { intros. destruct c1, c0; cbn in *; try lia; try tauto; try done. eexists. by eapply tree_ok_double. }
  assert (Ht : is_terminal c0 && is_terminal c1 && negb (bytes_lt (node_hash c0) (node_hash c1)) = false).
  { destruct c0, c1; try done. cbn.
    rewrite (children_differ pre _ _ _ _ H0 H1); [done|cbn; set_solver|cbn; set_solver]. }
  unfold make_middle_node. rewrite Ht, hashdown_eq by eauto using tree_ok_hash_length.
  destruct (is_empty c0) eqn:E0; [destruct (Hd1 eq_refl) as [[] Eb]; rewrite Eb; cbn [mbind res_bind]; eauto|];
    (destruct (is_empty c1) eqn:E1; [destruct (Hd0 eq_refl) as [[] Eb']; rewrite Eb'; cbn [mbind res_bind]; eauto|]);
    cbn [mbind res_bind]; destruct c0, c1; cbn in *; try lia; eauto.
Qed.

(** ** Operations *)
Lemma hash32_bits h : hash32 h → length (bits_of h) = 256%nat.
Proof. intros [Hl _]. rewrite bits_of_length. lia. Qed.

(** Two hashes with a common prefix of 256 bits are equal. *)
Lemma full_prefix_eq pre a b :
  hash32 a → hash32 b → pre `prefix_of` bits_of a → pre `prefix_of` bits_of b →
  (256 <= length pre)%nat → a = b.
Proof.
  intros Ha Hb [k Ea] [k' Eb] Hp. apply bits_of_inj; [apply Ha|apply Hb|by rewrite (proj1 Ha), (proj1 Hb)|].
  pose proof (hash32_bits _ Ha) as La. pose proof (hash32_bits _ Hb) as Lb.
  rewrite Ea in La |- *. rewrite Eb in Lb |- *. rewrite length_app in La, Lb.
  destruct k; [|cbn in La; lia]. destruct k'; [done|cbn in Lb; lia].
Qed.

Lemma tree_ok_depth_lt pre h c0 c1 : tree_ok pre (MiddleNode h c0 c1) → (length pre < 256)%nat.
Proof.
  intros Hok. destruct (decide (length pre < 256)%nat) as [|Hd]; [done|exfalso].
  pose proof (tree_ok_size _ _ Hok) as Hs. pose proof (tree_ok_NoDup _ _ Hok) as Hnd.
  pose proof (λ a, tree_ok_elements _ _ a Hok) as Hall. revert Hs Hall Hnd.
  generalize (elements (MiddleNode h c0 c1)). intros [|a [|b l]] Hs Hall Hnd; cbn in Hs; [lia|lia|].
  apply NoDup_cons in Hnd as [Hnd _]. apply Hnd.
  destruct (Hall a ltac:(set_solver)), (Hall b ltac:(set_solver)).
  rewrite (full_prefix_eq pre a b) by (done || lia). set_solver.
Qed.

Lemma tree_ok_get_bit pre h c0 c1 x :
  tree_ok pre (MiddleNode h c0 c1) → hash32 x →
  ∃ b, get_bit x (Z.of_nat (length pre)) = Ok b ∧ bits_of x !! length pre = Some b.
Proof.
  intros Hok Hx. pose proof (tree_ok_depth_lt _ _ _ _ Hok) as Hd.
  rewrite get_bit_eq by apply Hx.
  destruct (lookup_lt_is_Some_2 (bits_of x) (length pre)) as [b E]; [rewrite hash32_bits; done|].
  exists b. by rewrite E.
Qed.

Lemma tree_ok_depth pre h c0 c1 x :
  tree_ok pre (MiddleNode h c0 c1) → hash32 x → pre `prefix_of` bits_of x →
  ∃ b, get_bit x (Z.of_nat (length pre)) = Ok b ∧ pre ++ [b] `prefix_of` bits_of x.
Proof.
  intros Hok Hx Hp. destruct (tree_ok_get_bit _ _ _ _ _ Hok Hx) as (b&Eb&E).
  pose proof (tree_ok_depth_lt _ _ _ _ Hok) as Hd.
  destruct (prefix_extend pre (bits_of x) Hp) as (b'&E'&Hb); [rewrite hash32_bits by done; lia|].
  exists b. rewrite E in E'. injection E' as <-. done.
Qed.

Lemma prefix_bit_unique (pre l : list bool) b b' : pre ++ [b] `prefix_of` l → pre ++ [b'] `prefix_of` l → b = b'.
Proof. intros (_&_&E)%prefix_snoc (_&_&E')%prefix_snoc. congruence. Qed.

(** A hash is in the tree only on the side of its bit. *)
Lemma elements_side pre h c0 c1 x b :
  tree_ok pre (MiddleNode h c0 c1) → pre ++ [b] `prefix_of` bits_of x →
  x ∈ elements (MiddleNode h c0 c1) ↔ x ∈ elements (if b then c1 else c0).
Proof.
  intros (H0&H1&_) Hb. cbn [elements]. rewrite elem_of_app. split; [|destruct b; tauto].
  intros [Hin|Hin].
  - destruct (tree_ok_elements _ _ _ H0 Hin) as [_ Hp]. by rewrite (prefix_bit_unique _ _ _ _ Hb Hp).
  - destruct (tree_ok_elements _ _ _ H1 Hin) as [_ Hp]. by rewrite (prefix_bit_unique _ _ _ _ Hb Hp).
Qed.

Lemma Z_of_depth (pre : list bool) b : Z.of_nat (length pre) + 1 = Z.of_nat (length (pre ++ [b])).
Proof. rewrite length_app. cbn. lia. Qed.

Lemma make_middle_total fuel pre a b :
  hash32 a → hash32 b → pre `prefix_of` bits_of a → pre `prefix_of` bits_of b → bytes_lt a b = true →
  (256 < length pre + fuel)%nat →
  ∃ n, make_middle fuel a b (Z.of_nat (length pre)) = Ok n ∧ tree_ok pre n ∧ elements n = [a; b].
Proof.
  intros Ha Hb. revert pre. induction fuel as [|fuel IH]; intros pre Hpa Hpb Hlt Hf.
  { exfalso. rewrite (full_prefix_eq pre a b), bytes_lt_irrefl in Hlt; (done || lia). }
  destruct (decide (256 <= length pre)%nat) as [Hd|Hd].
  { exfalso. rewrite (full_prefix_eq pre a b), bytes_lt_irrefl in Hlt; done. }
  destruct (prefix_extend pre _ Hpa) as (x&Ex&Hx); [rewrite (hash32_bits a) by done; lia|].
  destruct (prefix_extend pre _ Hpb) as (y&Ey&Hy); [rewrite (hash32_bits b) by done; lia|].
  cbn [make_middle]. rewrite !get_bit_eq, Ex, Ey by (apply Ha || apply Hb). cbn [of_opt mbind res_bind].
  destruct (eqb x y) eqn:Exy; cbn [negb].
  - apply eqb_prop in Exy as <-. rewrite (Z_of_depth pre x).
    destruct (IH (pre ++ [x]) Hx Hy Hlt) as (n&->&Hn&En); [rewrite length_app; cbn; lia|].
    cbn [mbind res_bind]. destruct x.
    + destruct (make_middle_ok pre EmptyNode n) as (m&Em&Hm&Eem); [done|done|rewrite En; cbn; lia|].
      exists m. rewrite Eem, En. done.
    + destruct (make_middle_ok pre n EmptyNode) as (m&Em&Hm&Eem); [done|done|rewrite En; cbn; lia|].
      exists m. rewrite Eem, En. done.
  - apply eqb_false_iff in Exy. destruct x, y; try done.
    + exfalso. assert (bytes_lt b a = true).
      { apply (bytes_lt_bits b a (length pre)); [apply Hb|apply Ha| |done|done].
        apply prefix_snoc in Hx as (_&->&_), Hy as (_&->&_). done. }
      by rewrite bytes_lt_asym in Hlt.
    + by apply make_middle_ok.
Qed.

Lemma bytes_lt_total a b : length a = length b → a ≠ b → bytes_lt a b = false → bytes_lt b a = true.
Proof.
  revert b. induction a as [|x a IH]; intros [|y b] Hl Hne; cbn; try done.
  destruct (Z.ltb_spec x y), (Z.ltb_spec y x); try done.
  intros. assert (x = y) as -> by lia. apply IH; [by injection Hl|congruence|done].
Qed.

Lemma add_node_ok pre n x :
  tree_ok pre n → hash32 x → pre `prefix_of` bits_of x →
  ∃ r, add_node n x (Z.of_nat (length pre)) = Ok r ∧ tree_ok pre (default n r) ∧
       ∀ h, h ∈ elements (default n r) ↔ h = x ∨ h ∈ elements n.
Proof.
  intros Hok Hx. revert pre Hok.
  induction n as [|g|g c0 IH0 c1 IH1|g]; intros pre Hok Hp; cbn [add_node]; unfold TerminalNode_add.
  - unfold make_terminal. rewrite bool_decide_true by apply Hx. eexists; split; [done|]. cbn. set_solver.
  - destruct (decide (x = g)) as [->|Hne].
    { rewrite bool_decide_true by done. exists None. cbn. set_solver. }
    rewrite bool_decide_false by done. unfold make_terminal. rewrite bool_decide_true by apply Hx.
    destruct Hok as [Hg Hpg]. cbn [mbind res_bind assert_ check].
    assert (Hm : ∃ n, (if bytes_lt g x then make_middle 257 g x (Z.of_nat (length pre))
                       else make_middle 257 x g (Z.of_nat (length pre))) = Ok n ∧
                 tree_ok pre n ∧ (elements n = [g; x] ∨ elements n = [x; g])).
    { destruct (bytes_lt g x) eqn:El.
      - destruct (make_middle_total 257 pre g x) as (n&?&?&?); eauto; lia.
      - apply bytes_lt_total in El; [|by rewrite (proj1 Hg), (proj1 Hx)|done].
        destruct (make_middle_total 257 pre x g) as (n&?&?&?); eauto; lia. }
    destruct Hm as (n&->&Hn&En). exists (Some n). cbn. split_and!; [done|done|].
    destruct En as [-> | ->]; set_solver.
  - destruct (tree_ok_depth _ _ _ _ _ Hok Hx Hp) as (b&->&Hb). cbn [mbind res_bind].
    pose proof Hok as (H0&H1&_). rewrite (Z_of_depth pre b).
    pose proof (tree_ok_size _ _ Hok) as Hs. cbn [elements] in Hs. rewrite length_app in Hs.
    destruct b.
    + destruct (IH1 _ H1 Hb) as (r&->&Hr&Er). cbn [mbind res_bind]. destruct r as [c|]; cbn [default] in *.
      * destruct (make_middle_ok pre c0 c H0 Hr) as (m&->&Hm&Em); [|exists (Some m); cbn; rewrite Em; set_solver].
        assert (elements c1 ⊆+ elements c); [|apply submseteq_length in H; lia].
        apply NoDup_submseteq; [by eapply tree_ok_NoDup|]. set_solver.
      * exists None. cbn. set_solver.
    + destruct (IH0 _ H0 Hb) as (r&->&Hr&Er). cbn [mbind res_bind]. destruct r as [c|]; cbn [default] in *.
      * destruct (make_middle_ok pre c c1 Hr H1) as (m&->&Hm&Em); [|exists (Some m); cbn; rewrite Em; set_solver].
        assert (elements c0 ⊆+ elements c); [|apply submseteq_length in H; lia].
        apply NoDup_submseteq; [by eapply tree_ok_NoDup|]. set_solver.
      * exists None. cbn. set_solver.
  - done.
Qed.

(** Rebuilding a node after one child lost at most a hash *)
Lemma rebuild_ok pre h c0 c1 b c x :
  tree_ok pre (MiddleNode h c0 c1) → tree_ok (pre ++ [b]) c →
  (∀ g, g ∈ elements c ↔ g ≠ x ∧ g ∈ elements (if b then c1 else c0)) →
  pre ++ [b] `prefix_of` bits_of x →
  let other := if b then c0 else c1 in
  let result := if is_empty c && is_terminal other then Ok (Some other)
                else if is_terminal c && is_empty other then Ok (Some c)
                else r ← (if b then make_middle_node c0 c else make_middle_node c c1); Ok (Some r) in
  ∃ r, result = Ok (Some r) ∧ tree_ok pre r ∧ ∀ g, g ∈ elements r ↔ g ≠ x ∧ g ∈ elements c0 ++ elements c1.
Proof.
  intros Hok Hc Ec Hb other result. pose proof Hok as (H0&H1&_).
  assert (Hx : x ∉ elements other).
  { subst other. destruct b; intros Hin; [destruct (tree_ok_elements _ _ _ H0 Hin) as [_ Hp]
    |destruct (tree_ok_elements _ _ _ H1 Hin) as [_ Hp]]; by pose proof (prefix_bit_unique _ _ _ _ Hb Hp). }
  assert (Hother : tree_ok (pre ++ [negb b]) other) by (subst other; by destruct b).
  assert (Hall : ∀ g, g ≠ x ∧ g ∈ elements c0 ++ elements c1 ↔ g ∈ elements c ∨ g ∈ elements other).
  { intros g. rewrite Ec, elem_of_app. subst other. destruct b; set_solver. }
  assert (Hsize : (1 <= length (elements c) + length (elements other))%nat).
  { pose proof (tree_ok_size _ _ Hok) as Hs. cbn [elements] in Hs.
    assert (Hsub : elements c0 ++ elements c1 ⊆+ x :: elements c ++ elements other).
    { apply NoDup_submseteq; [exact (tree_ok_NoDup _ _ Hok)|]. intros g Hg.
      destruct (decide (g = x)) as [->|Hne]; [set_solver|]. specialize (Hall g). set_solver. }
    apply submseteq_length in Hsub. cbn in Hsub. rewrite !length_app in Hsub. rewrite length_app in Hs. lia. }
  pose proof (tree_ok_size _ _ Hc) as Z0. pose proof (tree_ok_size _ _ Hother) as Z1.
  subst result.
  destruct (is_empty c && is_terminal other) eqn:T1.
  { apply andb_prop in T1 as [T1 T2]. destruct c, other as [|o| |] eqn:Eo; try done. exists (TerminalNode o).
    split_and!; [done|by eapply tree_ok_terminal_weaken|]. intros g. rewrite Hall. cbn. set_solver. }
  destruct (is_terminal c && is_empty other) eqn:T2.
  { apply andb_prop in T2 as [T2 T3]. destruct c as [|o| |], other eqn:Eo; try done. exists (TerminalNode o).
    split_and!; [done|by eapply tree_ok_terminal_weaken|]. intros g. rewrite Hall. cbn. set_solver. }
  assert (Hbig : (2 <= length (elements c) + length (elements other))%nat).
  { destruct c, other; cbn in *; try done; lia. }
  destruct b; subst other; cbn [negb] in *.
  - destruct (make_middle_ok pre c0 c H0 Hc) as (m&->&Hm&Em); [lia|]. exists m. split_and!; [done|done|].
    intros g. rewrite Hall, Em, elem_of_app. tauto.
  - destruct (make_middle_ok pre c c1 Hc H1) as (m&->&Hm&Em); [lia|]. exists m. split_and!; [done|done|].
    intros g. rewrite Hall, Em, elem_of_app. tauto.
Qed.

Lemma remove_node_ok pre n x :
  tree_ok pre n → hash32 x → pre `prefix_of` bits_of x →
  ∃ r, remove_node n x (Z.of_nat (length pre)) = Ok r ∧ tree_ok pre (default n r) ∧
       ∀ h, h ∈ elements (default n r) ↔ h ≠ x ∧ h ∈ elements n.
Proof.
  intros Hok Hx. revert pre Hok.
  induction n as [|g|g c0 IH0 c1 IH1|g]; intros pre Hok Hp; cbn [remove_node].
  - exists None. cbn. set_solver.
  - destruct (decide (x = g)) as [->|Hne].
    + rewrite bool_decide_true by done. exists (Some EmptyNode). cbn. set_solver.
    + rewrite bool_decide_false by done. exists None. cbn. set_solver.
  - destruct (tree_ok_depth _ _ _ _ _ Hok Hx Hp) as (b&->&Hb). cbn [mbind res_bind].
    pose proof Hok as (H0&H1&_). rewrite (Z_of_depth pre b).
    assert (IH : ∃ r, remove_node (if b then c1 else c0) x (Z.of_nat (length (pre ++ [b]))) = Ok r ∧
      tree_ok (pre ++ [b]) (default (if b then c1 else c0) r) ∧
      ∀ h, h ∈ elements (default (if b then c1 else c0) r) ↔ h ≠ x ∧ h ∈ elements (if b then c1 else c0)).
    { destruct b; [by apply IH1|by apply IH0]. }
    destruct IH as (r&->&Hr&Er). cbn [mbind res_bind]. destruct r as [c|]; cbn [default] in *.
    + destruct (rebuild_ok pre g c0 c1 b c x Hok Hr Er Hb) as (m&Em&Hm&Eem). exists (Some m). done.
    + exists None. split_and!; [done|done|]. cbn [default elements]. intros h. split; [|tauto].
      intros Hin. split; [|done]. intros ->. apply (elements_side _ _ _ _ _ _ Hok Hb) in Hin.
      by destruct (proj1 (Er x) Hin).
  - done.
Qed.

Lemma other_included_total pre n r collapse :
  tree_ok pre n → ∃ p, other_included n (Ok r) collapse = Ok p.
Proof.
  intros Hok. destruct n as [|h|h c0 c1|h]; cbn [other_included]; [eauto|eauto| |done].
  rewrite (tree_ok_double pre) by done. destruct r, collapse; cbn [mbind res_bind]; [eauto|].
  destruct (bool_decide _); cbn; eauto.
Qed.

Lemma is_included_total pre n x :
  tree_ok pre n → hash32 x → ∃ r, is_included n x (Z.of_nat (length pre)) = Ok r.
Proof.
  intros Hok Hx. revert pre Hok.
  induction n as [|g|g c0 IH0 c1 IH1|g]; intros pre Hok; cbn [is_included]; [eauto|eauto| |done].
  pose proof Hok as (H0&H1&_).
  destruct (tree_ok_get_bit _ _ _ _ _ Hok Hx) as (b&->&_). cbn [mbind res_bind].
  rewrite (Z_of_depth pre false). destruct (IH0 _ H0) as [r0 ->].
  replace (length (pre ++ [false])) with (length (pre ++ [true])) by by rewrite !length_app.
  destruct (IH1 _ H1) as [r1 ->].
  destruct (other_included_total _ _ r0 (negb (is_empty c1)) H0) as [p0 E0],
    (other_included_total _ _ r1 (negb (is_empty c0)) H1) as [p1 E1].
  destruct b, r0, r1; cbn [mbind res_bind]; rewrite ?E0, ?E1; cbn; eauto.
Qed.

Lemma is_included_ok pre n x :
  tree_ok pre n → hash32 x → pre `prefix_of` bits_of x →
  ∃ p, is_included n x (Z.of_nat (length pre)) = Ok (bool_decide (x ∈ elements n), p).
Proof.
  intros Hok Hx. revert pre Hok.
  induction n as [|g|g c0 IH0 c1 IH1|g]; intros pre Hok Hp.
  - eexists. done.
  - eexists. cbn [is_included elements]. do 2 f_equal. apply bool_decide_ext. set_solver.
  - pose proof Hok as (H0&H1&_). destruct (is_included_total _ _ x Hok Hx) as [[r p] E].
    exists p. rewrite E. cbn [is_included] in E.
    destruct (tree_ok_depth _ _ _ _ _ Hok Hx Hp) as (b&Eb&Hb). rewrite Eb in E. cbn [mbind res_bind] in E.
    rewrite (bool_decide_ext _ _ (elements_side _ _ _ _ _ _ Hok Hb)). rewrite (Z_of_depth pre b) in E.
    destruct b.
    + destruct (IH1 _ H1 Hb) as [q Eq]. rewrite Eq in E. clear -E. res_inv. by simplify_eq.
    + destruct (IH0 _ H0 Hb) as [q Eq]. rewrite Eq in E. clear -E. res_inv. by simplify_eq.
  - done.
Qed.

(** ** Canonicity: the tree is determined by its hashes *)
Lemma tree_ok_empty pre n : tree_ok pre n → (∀ h, h ∉ elements n) → n = EmptyNode.
Proof.
  intros Hok Hn. pose proof (tree_ok_size _ _ Hok) as Hs. destruct n; try done.
  - destruct (Hn hash). cbn. set_solver.
  - destruct (elements (MiddleNode hash n1 n2)) as [|a l]; [cbn in Hs; lia|]. destruct (Hn a). set_solver.
Qed.

Lemma tree_ok_single pre n h : tree_ok pre n → (∀ g, g ∈ elements n ↔ g = h) → n = TerminalNode h.
Proof.
  intros Hok Hn. pose proof (tree_ok_size _ _ Hok) as Hs. pose proof (tree_ok_NoDup _ _ Hok) as Hnd.
  destruct n; [|cbn in Hn; f_equal; apply Hn; set_solver| |done].
  - specialize (Hn h). cbn in Hn. set_solver.
  - exfalso. destruct (elements (MiddleNode hash n1 n2)) as [|a [|b l]]; cbn in Hs; [lia|lia|].
    assert (a = h) as -> by (apply Hn; set_solver). assert (b = h) as -> by (apply Hn; set_solver).
    apply NoDup_cons in Hnd as [Hnd _]. apply Hnd. set_solver.
Qed.

Lemma tree_canonical pre n n' :
  tree_ok pre n → tree_ok pre n' → (∀ h, h ∈ elements n ↔ h ∈ elements n') → n = n'.
Proof.
  revert pre n'. induction n as [|g|g c0 IH0 c1 IH1|g]; intros pre n' Hok Hok' He.
  - symmetry. eapply tree_ok_empty; [done|]. intros h. rewrite <- He. cbn. set_solver.
  - symmetry. eapply tree_ok_single; [done|]. intros h. rewrite <- He. cbn. set_solver.
  - pose proof (tree_ok_size _ _ Hok) as Hs.
    assert (Hp : elements (MiddleNode g c0 c1) ≡ₚ elements n').
    { apply NoDup_Permutation; [by eapply tree_ok_NoDup|by eapply tree_ok_NoDup|done]. }
    rewrite (Permutation_length Hp) in Hs. pose proof (tree_ok_size _ _ Hok') as Hs'.
    destruct n' as [| |g' d0 d1|]; [lia|lia| |done].
    pose proof Hok as (H0&H1&E). pose proof Hok' as (H0'&H1'&E').
    assert (c0 = d0 ∧ c1 = d1) as [-> ->]; [|rewrite E in E'; by injection E' as ->].
    assert (Hside : ∀ (b : bool) h, h ∈ elements (if b then c1 else c0) ↔ h ∈ elements (if b then d1 else d0)).
    { intros b h. destruct (decide (pre ++ [b] `prefix_of` bits_of h)) as [Hb|Hb].
      - by rewrite <- (elements_side _ _ _ _ _ _ Hok Hb), <- (elements_side _ _ _ _ _ _ Hok' Hb).
      - split; intros Hin; destruct Hb; destruct b;
          first [exact (proj2 (tree_ok_elements _ _ _ H1 Hin)) | exact (proj2 (tree_ok_elements _ _ _ H0 Hin))
                |exact (proj2 (tree_ok_elements _ _ _ H1' Hin)) | exact (proj2 (tree_ok_elements _ _ _ H0' Hin))]. }
    split; [eapply IH0|eapply IH1]; eauto; [apply (Hside false)|apply (Hside true)].
  - done.
Qed.

(** ** Audits *)
Lemma audit_bits_ok h bits pos :
  hash32 h → drop pos (bits_of h) = bits ++ drop (pos + length bits) (bits_of h) →
  audit_bits h (Z.of_nat pos) bits = Ok tt.
Proof.
  intros Hh. revert pos. induction bits as [|b bits IH]; intros pos E; [done|]. cbn [audit_bits].
  assert (Eb : bits_of h !! pos = Some b).
  { replace pos with (pos + 0)%nat by lia. rewrite <- lookup_drop, E. done. }
  rewrite get_bit_eq, Eb by apply Hh. cbn [of_opt mbind res_bind]. rewrite eqb_reflx.
  cbn [assert_ check mbind res_bind]. replace (Z.of_nat pos + 1) with (Z.of_nat (S pos)) by lia.
  apply IH. rewrite (drop_S _ b pos Eb) in E. injection E as E. cbn [length] in E.
  replace (S pos + length bits)%nat with (pos + S (length bits))%nat by lia. done.
Qed.

Lemma audit_terminal h pre : hash32 h → pre `prefix_of` bits_of h → audit_bits h 0 pre = Ok tt.
Proof.
  intros Hh [k E]. apply (audit_bits_ok h pre 0 Hh). rewrite drop_0, E at 1.
  cbn [Nat.add]. by rewrite E, drop_app_length.
Qed.

Lemma audit_ok pre n : tree_ok pre n → audit n pre = Ok (elements n).
Proof.
  revert pre. induction n as [|g|g c0 IH0 c1 IH1|g]; intros pre Hok; cbn [audit]; [done| | |done].
  - by rewrite audit_terminal by apply Hok.
  - destruct Hok as (H0&H1&_). by rewrite (IH0 _ H0), (IH1 _ H1).
Qed.

Lemma hashes_sorted_app l l' :
  hashes_sorted l = true → hashes_sorted l' = true →
  (∀ a b, a ∈ l → b ∈ l' → bytes_lt a b = true) → hashes_sorted (l ++ l') = true.
Proof.
  intros Hl Hl' Hlt. induction l as [|a l IH]; [done|]. destruct l as [|a' l].
  - cbn. destruct l' as [|b l']; [done|]. rewrite (bytes_lt_asym a b) by (apply Hlt; set_solver). done.
  - cbn [app] in *. change (negb (bytes_lt a' a) && hashes_sorted (a' :: l) = true) in Hl.
    apply andb_prop in Hl as [H1 H2]. change (negb (bytes_lt a' a) && hashes_sorted (a' :: l ++ l') = true).
    rewrite H1. apply IH; [done|]. intros; apply Hlt; set_solver.
Qed.

Lemma tree_ok_sorted pre n : tree_ok pre n → hashes_sorted (elements n) = true.
Proof.
  revert pre. induction n as [|g|g c0 IH0 c1 IH1|g]; intros pre Hok; [done|done| |done].
  destruct Hok as (H0&H1&_). cbn [elements]. apply hashes_sorted_app; [by eapply IH0|by eapply IH1|].
  intros a b. by eapply children_differ.
Qed.

Lemma get_root_ok pre n : tree_ok pre n → ∃ r, get_root n = Ok r ∧ length r = 32%nat.
Proof.
  intros Hok. pose proof (tree_ok_hash_length _ _ Hok) as Hl.
  unfold get_root, compress_root.
  rewrite (bool_decide_true (length _ = 33%nat)) by by apply get_hash_length.
  destruct n; try done; cbn [mbind res_bind assert_ check].
  - eexists; split; done.
  - cbn. eexists; split; [done|]. rewrite take_ge by (rewrite sha256_length; lia). apply sha256_length.
  - cbn. eauto.
Qed.

(** ** The set a sequence of calls leaves *)
Inductive set_op := AddHash (h : bytes) | RemoveHash (h : bytes).

Definition run_op (root : node) (o : set_op) : res node :=
  match o with AddHash h => add_already_hashed root h | RemoveHash h => remove_already_hashed root h end.

Definition op_hash (o : set_op) : bytes := match o with AddHash h | RemoveHash h => h end.
Definition apply_op (s : gset (list Z)) (o : set_op) : gset (list Z) :=
  match o with AddHash h => {[h]} ∪ s | RemoveHash h => s ∖ {[h]} end.
Definition set_of (ops : list set_op) : gset (list Z) := foldl apply_op ∅ ops.

Lemma run_set_op_ok (root : node) (o : set_op) (s : gset (list Z)) :
  tree_ok [] root → hash32 (op_hash o) → (∀ h, h ∈ elements root ↔ h ∈ s) →
  ∃ root', run_op root o = Ok root' ∧ tree_ok [] root' ∧ ∀ h, h ∈ elements root' ↔ h ∈ apply_op s o.
Proof.
  intros Hok Ho Hs. destruct o as [x|x]; cbn [run_op op_hash apply_op] in *.
  - destruct (add_node_ok [] root x Hok Ho) as (r&E&Hr&Er); [apply prefix_nil|].
    unfold add_already_hashed. change 0 with (Z.of_nat (length (@nil bool))). rewrite E.
    eexists; split_and!; [done|done|]. intros h. rewrite Er, Hs. set_solver.
  - destruct (remove_node_ok [] root x Hok Ho) as (r&E&Hr&Er); [apply prefix_nil|].
    unfold remove_already_hashed. change 0 with (Z.of_nat (length (@nil bool))). rewrite E.
    eexists; split_and!; [done|done|]. intros h. rewrite Er, Hs. set_solver.
Qed.

Lemma run_ops_ok (ops : list set_op) (root : node) (s : gset (list Z)) :
  tree_ok [] root → Forall (λ o, hash32 (op_hash o)) ops → (∀ h, h ∈ elements root ↔ h ∈ s) →
  ∃ root', for_fold run_op root ops = Ok root' ∧ tree_ok [] root' ∧
    ∀ h, h ∈ elements root' ↔ h ∈ foldl apply_op s ops.
Proof.
  revert root s. induction ops as [|o ops IH]; intros root s Hok Ho Hs; cbn [for_fold foldl]; [by eauto|].
  apply Forall_cons in Ho as [Ho Hos].
  destruct (run_set_op_ok root o s Hok Ho Hs) as (root1&->&Hok1&Hs1). by apply IH.
Qed.

(** After any sequence of insertions and removals of hashes the tree exists (no
    call raises and every recursion ends), membership answers for the set the
    sequence leaves, the root has 32 bytes and the audit of the tree passes. *)
Theorem merkle_set_refines ops :
  Forall (λ o, hash32 (op_hash o)) ops →
  ∃ root r,
    for_fold run_op EmptyNode ops = Ok root ∧
    get_root root = Ok r ∧ length r = 32%nat ∧
    audit_set root = Ok tt ∧
    ∀ x, hash32 x → ∃ p, is_included_already_hashed root x = Ok (bool_decide (x ∈ set_of ops), p).
Proof.
  intros Ho. destruct (run_ops_ok ops EmptyNode ∅) as (root&E&Hok&Hs); [done|done|cbn; set_solver|].
  destruct (get_root_ok _ _ Hok) as (r&Er&Hr). exists root, r. split_and!; [done|done|done| |].
  - unfold audit_set. rewrite (audit_ok _ _ Hok). cbn [mbind res_bind].
    by rewrite (tree_ok_sorted _ _ Hok).
  - intros x Hx. destruct (is_included_ok [] root x Hok Hx) as [p Ep]; [apply prefix_nil|].
    exists p. unfold is_included_already_hashed. change 0 with (Z.of_nat (length (@nil bool))).
    rewrite Ep. do 2 f_equal. apply bool_decide_ext. apply Hs.
Qed.

(** C23. The root commits to the set and to nothing else: two sequences of calls that
    leave the same set leave the same tree, whatever their order and whatever was
    inserted and removed again on the way. *)
Theorem merkle_root_canonical ops ops' :
  Forall (λ o, hash32 (op_hash o)) ops → Forall (λ o, hash32 (op_hash o)) ops' →
  set_of ops = set_of ops' →
  ∃ root, for_fold run_op EmptyNode ops = Ok root ∧ for_fold run_op EmptyNode ops' = Ok root.
Proof.
  intros Ho Ho' Es.
  destruct (run_ops_ok ops EmptyNode ∅) as (root&E&Hok&Hs); [done|done|cbn; set_solver|].
  destruct (run_ops_ok ops' EmptyNode ∅) as (root'&E'&Hok'&Hs'); [done|done|cbn; set_solver|].
  exists root. rewrite E, E'. split; [done|]. f_equal. apply (tree_canonical []); [done|done|].
  intros h. unfold set_of in Es. by rewrite Hs, Hs', Es.
Qed.
End MerkleFacts.

(** Three hashes; the first two share their first 8 bits. *)
Definition sample_h1 : bytes := replicate 32 7.
Definition sample_h2 : bytes := 7 :: replicate 31 200.
Definition sample_h3 : bytes := replicate 32 129.

Lemma merkle_set_refines_witness :
  ∃ root r, for_fold run_op EmptyNode [AddHash sample_h1; AddHash sample_h2; RemoveHash sample_h1] = Ok root ∧
    get_root root = Ok r ∧ length r = 32%nat ∧ audit_set root = Ok tt ∧
    ∀ x, hash32 x → ∃ p, is_included_already_hashed root x
      = Ok (bool_decide (x ∈ set_of [AddHash sample_h1; AddHash sample_h2; RemoveHash sample_h1]), p).
Proof. apply merkle_set_refines. apply (bool_decide_unpack _). vm_compute. exact I. Defined.

Lemma merkle_root_canonical_witness :
  ∃ root,
    for_fold run_op EmptyNode [AddHash sample_h1; AddHash sample_h2; AddHash sample_h3] = Ok root ∧
    for_fold run_op EmptyNode
      [AddHash sample_h3; AddHash sample_h2; RemoveHash sample_h3; AddHash sample_h1; AddHash sample_h3] = Ok root.
Proof.
  apply merkle_root_canonical; [apply (bool_decide_unpack _); vm_compute; exact I..|].
  apply (bool_decide_unpack _). vm_compute. exact I.
Defined.
