(* ===== verification/MerkleProof.v ===== *)
(** * Merkle set proofs

    Models the second half of [chia/util/merkle_set.py]: a proof is the
    serialization of a pruned tree; [deserialize_proof] rebuilds the tree and
    [_confirm] compares its root and asks it for membership.  Proved: the proof
    that [is_included] writes is accepted, and an accepted proof tells the truth
    about the set unless two of the strings hashed collide. *)
From S2P Require Import Prelude PyInt Sha256 MerkleSet.

Section MerkleProof.
Context `{HS : Sha256}.

(** [_deserialize].  Every call that recurses has consumed a byte of the proof, so
    one more level than the proof has bytes is enough. *)
Fixpoint deserialize (fuel : nat) (proof : bytes) (pos : nat) (bits : list bool) : res (node * nat) :=
  match fuel with
  | O => OutOfFuel
  | S fuel =>
      let t := slice pos (pos + 1) proof in
      if bool_decide (t = EMPTY) then Ok (EmptyNode, pos + 1)%nat
      else if bool_decide (t = TERMINAL) then
        n ← make_terminal (slice (pos + 1) (pos + 33) proof);
        audit_bits (slice (pos + 1) (pos + 33) proof) 0 bits ;;
        Ok (n, pos + 33)%nat
      else if bool_decide (t = TRUNCATED) then
        Ok (TruncatedNode (slice (pos + 1) (pos + 33) proof), pos + 33)%nat
      else if negb (bool_decide (t = MIDDLE)) then Raise SetError
      else
        '(v0, pos) ← deserialize fuel proof (pos + 1) (bits ++ [false]);
        '(v1, pos) ← deserialize fuel proof pos (bits ++ [true]);
        n ← make_middle_node v0 v1;
        Ok (n, pos)
  end.

Definition deserialize_proof (proof : bytes) : res node :=
  match deserialize (S (length proof)) proof 0 [] with
  | Ok (r, pos) => if bool_decide (pos = length proof) then Ok r else Raise SetError
  | Raise IndexError => Raise SetError
  | Raise e => Raise e
  | OutOfFuel => OutOfFuel
  end.

Definition confirm (root val proof : bytes) (expected : bool) : res bool :=
  match
    (p ← deserialize_proof proof;
     r ← get_root p;
     if negb (bool_decide (r = root)) then Ok false
     else '(r, _) ← is_included_already_hashed p val; Ok (eqb r expected))
  with
  | Raise SetError => Ok false
  | o => o
  end.

Definition confirm_included_already_hashed (root val proof : bytes) : res bool :=
  confirm root val proof true.
Definition confirm_not_included_already_hashed (root val proof : bytes) : res bool :=
  confirm root val proof false.
Definition confirm_included (root val proof : bytes) : res bool :=
  confirm_not_included_already_hashed root (sha256 val) proof.
Definition confirm_not_included (root val proof : bytes) : res bool :=
  confirm_not_included_already_hashed root (sha256 val) proof.

(** ** The trees of proofs

    As [tree_ok], with truncated nodes. *)
Fixpoint proof_ok (pre : list bool) (n : node) : Prop :=
  match n with
  | EmptyNode => True
  | TruncatedNode h => (length h <= 32)%nat
  | TerminalNode h => hash32 h ∧ pre `prefix_of` bits_of h
  | MiddleNode h c0 c1 =>
      proof_ok (pre ++ [false]) c0 ∧ proof_ok (pre ++ [true]) c1 ∧
      make_middle_node c0 c1 = Ok (MiddleNode h c0 c1)
  end.

(** The result of a call: a value with [P], or one of the exceptions [es]. *)
Definition outcome {A} (P : A → Prop) (es : list exn) (m : res A) : Prop :=
  match m with Ok a => P a | Raise e => e ∈ es | OutOfFuel => False end.

Lemma outcome_bind {A B} (P : A → Prop) (Q : B → Prop) es (m : res A) (f : A → res B) :
  outcome P es m → (∀ a, P a → outcome Q es (f a)) → outcome Q es (a ← m; f a).
Proof. destruct m; cbn; auto. Qed.

Lemma outcome_weaken {A} (P Q : A → Prop) es es' (m : res A) :
  (∀ a, P a → Q a) → es ⊆ es' → outcome P es m → outcome Q es' m.
Proof. destruct m; cbn; auto. Qed.

Lemma get_bit_outcome h (pos : nat) :
  outcome (λ b, bits_of h !! pos = Some b) [AssertionError; IndexError] (get_bit h (Z.of_nat pos)).
Proof.
  destruct (decide (length h = 32%nat)) as [Hl|Hl].
  - rewrite get_bit_eq by done. destruct (bits_of h !! pos); cbn; set_solver.
  - unfold get_bit. rewrite bool_decide_false by done. cbn. set_solver.
Qed.

Lemma audit_bits_outcome h bits (pos : nat) :
  outcome (λ _, ∀ i b, bits !! i = Some b → bits_of h !! (pos + i)%nat = Some b)
    [AssertionError; IndexError] (audit_bits h (Z.of_nat pos) bits).
Proof.
  revert pos. induction bits as [|b bits IH]; intros pos; cbn [audit_bits]; [done|].
  eapply outcome_bind; [apply get_bit_outcome|]. intros b' Hb'. cbn beta in Hb'.
  destruct (eqb b' b) eqn:E; [|cbn; set_solver]. apply eqb_prop in E as ->.
  cbn [assert_ check mbind res_bind]. replace (Z.of_nat pos + 1) with (Z.of_nat (S pos)) by lia.
  eapply outcome_weaken; [|reflexivity|apply IH]. intros u HP [|i] c; cbn; [rewrite Nat.add_0_r; congruence|].
  intros. replace (pos + S i)%nat with (S pos + i)%nat by lia. by apply HP.
Qed.

Lemma lookup_prefix {A} (l k : list A) :
  (∀ i x, l !! i = Some x → k !! i = Some x) → l `prefix_of` k.
Proof.
  revert k. induction l as [|x l IH]; intros k Hk; [apply prefix_nil|].
  destruct k as [|y k]; [by specialize (Hk 0%nat x eq_refl)|].
  specialize (Hk 0%nat x eq_refl) as Ey. injection Ey as ->. apply prefix_cons, IH.
  intros i z Hi. by apply (Hk (S i)).
Qed.

Lemma is_double_outcome n : outcome (λ _, True) [SetError] (is_double n).
Proof.
  induction n as [|h|h c0 IH0 c1 IH1|h]; cbn [is_double]; try (cbn; set_solver).
  by destruct (is_empty c0), (is_empty c1).
Qed.

(** The constructor raises [SetError] on an impossible node and fails its
    assertion on a hash of the wrong length. *)
Lemma make_middle_outcome c0 c1 :
  (length (node_hash c0) <= 32)%nat → (length (node_hash c1) <= 32)%nat →
  outcome (λ n, ∃ h, n = MiddleNode h c0 c1) [SetError; AssertionError] (make_middle_node c0 c1).
Proof.
  intros L0 L1. assert (Hd : ∀ (b : bool) c, outcome (λ _, True) [SetError; AssertionError]
                                              (if b then is_double c else Ok false)).
  { intros b c. destruct b; [|done]. eapply outcome_weaken; [done| |apply is_double_outcome]. set_solver. }
  unfold make_middle_node. eapply outcome_bind; [apply Hd|]. intros [] _; [cbn; eauto|].
  eapply outcome_bind; [apply Hd|]. intros [] _; [cbn; eauto|].
  do 3 (case_match; [cbn; set_solver|]).
  destruct (decide (length (node_hash c0) = 32 ∧ length (node_hash c1) = 32)%nat) as [[E0 E1]|Hn].
  - rewrite hashdown_eq by done. cbn. eauto.
  - unfold hashdown. rewrite (bool_decide_false (length _ = 66%nat)); [cbn; set_solver|].
    rewrite (get_hash_parts c0), (get_hash_parts c1), !length_app.
    rewrite (proj2 (get_hash_tag c0)), (proj2 (get_hash_tag c1)). lia.
Qed.

Lemma proof_ok_hash_le pre n : proof_ok pre n → (length (node_hash n) <= 32)%nat.
Proof.
  revert pre. induction n as [|h|h c0 IH0 c1 IH1|h]; intros pre Hok; cbn in *;
    [lia|by destruct Hok as [[-> _] _]| |done].
  destruct Hok as (H0&H1&E). apply make_middle_inv in E as (g&Eg&_&_&_&Hc). injection Eg as ->.
  destruct Hc as [(_&_&->)|[(_&_&->)|(_&_&Eg)]]; [by eapply IH1|by eapply IH0|].
  unfold hashdown in Eg. res_inv. rewrite length_take. lia.
Qed.

Lemma slice_bytes i j (l : bytes) : is_bytes l → is_bytes (slice i j l).
Proof. intros. unfold slice, is_bytes. by apply Forall_take, Forall_drop. Qed.

Lemma slice_one pos (proof : bytes) : (length proof <= pos)%nat → slice pos (pos + 1) proof = [].
Proof. intros. unfold slice. rewrite drop_ge by done. by rewrite take_nil. Qed.

Lemma deserialize_outcome fuel proof pos bits :
  is_bytes proof → (length proof < pos + fuel)%nat → (0 < fuel)%nat →
  outcome (λ '(t, pos'), proof_ok bits t ∧ (pos < pos')%nat)
    [SetError; AssertionError; IndexError] (deserialize fuel proof pos bits).
Proof.
  intros Hb. revert pos bits. induction fuel as [|fuel IH]; intros pos bits Hf H0; [lia|].
  cbn [deserialize]. destruct (decide (length proof <= pos)%nat) as [Hp|Hp].
  { rewrite slice_one by done. cbn. set_solver. }
  case_bool_decide; [cbn; lia|]. case_bool_decide.
  { unfold make_terminal. case_bool_decide as Hl; [|cbn; set_solver].
    cbn [assert_ check mbind res_bind].
    eapply outcome_bind;
      [eapply outcome_weaken; [intros a Ha; exact Ha| |apply (audit_bits_outcome _ bits 0)]; set_solver|].
    intros u HP. cbn. split; [|lia]. split; [split; [done|by apply slice_bytes]|]. by apply lookup_prefix. }
  case_bool_decide; [cbn; split; [|lia]; unfold slice; rewrite length_take; lia|].
  case_bool_decide; [|cbn; set_solver]. cbn [negb].
  eapply outcome_bind; [apply IH; lia|]. intros [v0 p0] [Hv0 Hp0].
  eapply outcome_bind; [apply IH; lia|]. intros [v1 p1] [Hv1 Hp1].
  eapply (outcome_bind (λ n, proof_ok bits n)).
  - pose proof (make_middle_outcome v0 v1 (proof_ok_hash_le _ _ Hv0) (proof_ok_hash_le _ _ Hv1)) as Ho.
    destruct (make_middle_node v0 v1) as [n|e|] eqn:E; [|set_solver|done].
    destruct Ho as [h ->]. done.
  - intros n Hn. cbn. split; [done|lia].
Qed.

Lemma other_included_outcome n m collapse es :
  SetError ∈ es → outcome (λ _, True) es m → outcome (λ _, True) es (other_included n m collapse).
Proof.
  intros Hes Hm. destruct n as [|h|h c0 c1|h]; try done. unfold other_included.
  apply (outcome_bind (λ _, True)).
  - destruct collapse; [done|]. apply (outcome_bind (λ _, True)); [|done].
    eapply outcome_weaken; [done| |apply is_double_outcome]. set_solver.
  - intros [] _; [done|]. apply (outcome_bind (λ _, True)); [done|]. by intros [].
Qed.

Lemma is_included_outcome n x (depth : nat) :
  outcome (λ _, True) [SetError; AssertionError; IndexError] (is_included n x (Z.of_nat depth)).
Proof.
  revert depth. induction n as [|h|h c0 IH0 c1 IH1|h]; intros depth; [done|done| |cbn; set_solver].
  cbn [is_included]. replace (Z.of_nat depth + 1) with (Z.of_nat (S depth)) by lia.
  apply (outcome_bind (λ _, True)).
  { eapply outcome_weaken; [| |apply get_bit_outcome]; [done|set_solver]. }
  intros [] _.
  - eapply outcome_bind; [apply other_included_outcome; [set_solver|apply IH0]|]. intros p _.
    eapply outcome_bind; [apply IH1|]. by intros [].
  - eapply outcome_bind; [apply IH0|]. intros [] _.
    eapply outcome_bind; [apply other_included_outcome; [set_solver|apply IH1]|]. done.
Qed.

Lemma get_root_outcome n : outcome (λ _, True) [AssertionError] (get_root n).
Proof.
  unfold get_root, compress_root, assert_, check. destruct n; cbn; repeat (case_bool_decide; cbn; try done); set_solver.
Qed.

Lemma deserialize_proof_outcome proof :
  is_bytes proof → outcome (λ t, proof_ok [] t) [SetError; AssertionError] (deserialize_proof proof).
Proof.
  intros Hb. pose proof (deserialize_outcome (S (length proof)) proof 0 [] Hb ltac:(lia) ltac:(lia)) as Ho.
  unfold deserialize_proof. destruct (deserialize _ _ _ _) as [[t pos]|e|]; cbn in *; [|destruct e; set_solver|done].
  case_bool_decide; cbn; [apply Ho|set_solver].
Qed.

(** Checking a proof always ends.  On any byte string it answers, or raises: an
    assertion on a proof that is cut short or whose hashes are off their path, an
    index error on a path of more than 256 levels. *)
Theorem confirm_ends root val proof expected :
  is_bytes proof →
  (∃ b, confirm root val proof expected = Ok b)
  ∨ confirm root val proof expected = Raise AssertionError
  ∨ confirm root val proof expected = Raise IndexError.
Proof.
  intros Hb. unfold confirm.
  assert (Ho : outcome (λ _, True) [SetError; AssertionError; IndexError]
    (p ← deserialize_proof proof; r ← get_root p;
     if negb (bool_decide (r = root)) then Ok false
     else '(r, _) ← is_included_already_hashed p val; Ok (eqb r expected))).
  { apply (outcome_bind (λ _, True)).
    { eapply outcome_weaken; [| |by apply deserialize_proof_outcome]; [done|set_solver]. }
    intros p _. apply (outcome_bind (λ _, True)).
    { eapply outcome_weaken; [| |apply get_root_outcome]; [done|set_solver]. }
    intros r _. destruct (negb _); [done|]. apply (outcome_bind (λ _, True)); [|by intros []].
    apply (is_included_outcome p val 0). }
  destruct (p ← _; _) as [b|e|]; cbn in Ho |- *; [eauto| |done]. destruct e; set_solver.
Qed.

(** ** Proofs of members are accepted *)

(** [t] and [n] look the same to the parent of [n]. *)
Definition same_face (n t : node) : Prop :=
  get_hash t = get_hash n ∧ is_empty t = is_empty n ∧ is_terminal t = is_terminal n.

Lemma same_face_hash n t : same_face n t → node_hash t = node_hash n.
Proof.
  intros (E&_). rewrite (get_hash_parts n), (get_hash_parts t) in E.
  apply app_inj_1 in E as [_ E]; [done|]. by rewrite (proj2 (get_hash_tag t)), (proj2 (get_hash_tag n)).
Qed.

(** The constructor sees only the faces of the children, and whether the sibling of
    an empty child is a double. *)
Lemma make_middle_face c0 c1 t0 t1 h :
  make_middle_node c0 c1 = Ok (MiddleNode h c0 c1) → same_face c0 t0 → same_face c1 t1 →
  (is_empty c0 = true → is_double t1 = is_double c1) → (is_empty c1 = true → is_double t0 = is_double c0) →
  make_middle_node t0 t1 = Ok (MiddleNode h t0 t1).
Proof.
  intros E F0 F1 D1 D0. pose proof (same_face_hash _ _ F0) as N0. pose proof (same_face_hash _ _ F1) as N1.
  destruct F0 as (G0&E0&T0), F1 as (G1&E1&T1).
  unfold make_middle_node in *. rewrite G0, G1, E0, E1, T0, T1, N0, N1.
  assert (X1 : (if is_empty c0 then is_double t1 else Ok false) = (if is_empty c0 then is_double c1 else Ok false)).
  { destruct (is_empty c0); auto. }
  assert (X0 : (if is_empty c1 then is_double t0 else Ok false) = (if is_empty c1 then is_double c0 else Ok false)).
  { destruct (is_empty c1); auto. }
  rewrite X1, X0. clear -E.
  destruct (if is_empty c0 then is_double c1 else Ok false) as [[]|e|]; cbn [mbind res_bind] in *; [by simplify_eq| |done|done].
  destruct (if is_empty c1 then is_double c0 else Ok false) as [[]|e|]; cbn [mbind res_bind] in *; [by simplify_eq| |done|done].
  repeat (case_match; [done|]). destruct (hashdown _); cbn in *; by simplify_eq.
Qed.

(** [p] is the serialization of [t] at the path [pre], wherever it stands. *)
Definition parses (pre : list bool) (p : bytes) (t : node) : Prop :=
  ∀ A B fuel, (length p < fuel)%nat →
    deserialize fuel (A ++ p ++ B) (length A) pre = Ok (t, length A + length p)%nat.

Lemma slice_app (A C B : bytes) i j :
  i = length A → (j = length A + length C)%nat → slice i j (A ++ C ++ B) = C.
Proof.
  intros -> ->. unfold slice. rewrite drop_app_length.
  replace (length A + length C - length A)%nat with (length C) by lia. by rewrite take_app_length.
Qed.

Lemma slice_tag A (tag p B : bytes) :
  length tag = 1%nat → slice (length A) (length A + 1) (A ++ (tag ++ p) ++ B) = tag.
Proof. intros. rewrite <- (assoc_L (++) tag). apply slice_app; lia. Qed.

Lemma slice_body A (tag h B : bytes) :
  length tag = 1%nat → length h = 32%nat →
  slice (length A + 1) (length A + 33) (A ++ (tag ++ h) ++ B) = h.
Proof.
  intros Ht Hl. rewrite <- (assoc_L (++) tag), (assoc_L (++) A tag).
  apply slice_app; rewrite length_app; cbn; lia.
Qed.

Lemma parses_empty pre : parses pre EMPTY EmptyNode.
Proof.
  intros A B [|fuel] Hf; [cbn in Hf; lia|]. cbn [deserialize].
  rewrite (slice_app A EMPTY B) by done. done.
Qed.

Lemma parses_terminal pre h :
  hash32 h → pre `prefix_of` bits_of h → parses pre (TERMINAL ++ h) (TerminalNode h).
Proof.
  intros Hh Hp A B [|fuel] Hf; [lia|]. cbn [deserialize].
  rewrite slice_tag, slice_body by (done || apply Hh).
  rewrite bool_decide_false, bool_decide_true by done.
  unfold make_terminal. rewrite bool_decide_true by apply Hh. cbn [assert_ check mbind res_bind].
  rewrite audit_terminal by done. cbn [mbind res_bind]. rewrite length_app, (proj1 Hh). done.
Qed.

Lemma parses_truncated pre h :
  length h = 32%nat → parses pre (TRUNCATED ++ h) (TruncatedNode h).
Proof.
  intros Hh A B [|fuel] Hf; [lia|]. cbn [deserialize].
  rewrite slice_tag, slice_body by done.
  rewrite bool_decide_false, bool_decide_false, bool_decide_true by done. rewrite length_app, Hh. done.
Qed.

Lemma parses_middle pre p0 p1 t0 t1 h :
  parses (pre ++ [false]) p0 t0 → parses (pre ++ [true]) p1 t1 →
  make_middle_node t0 t1 = Ok (MiddleNode h t0 t1) →
  parses pre (MIDDLE ++ p0 ++ p1) (MiddleNode h t0 t1).
Proof.
  intros P0 P1 E A B [|fuel] Hf; [lia|]. cbn [deserialize].
  rewrite slice_tag by done. rewrite !length_app in Hf. cbn [length MIDDLE] in Hf.
  rewrite 3!bool_decide_false, bool_decide_true by done. cbn [negb].
  assert (E0 : A ++ (MIDDLE ++ p0 ++ p1) ++ B = (A ++ MIDDLE) ++ p0 ++ (p1 ++ B)) by by rewrite <- !(assoc_L (++)).
  assert (E1 : A ++ (MIDDLE ++ p0 ++ p1) ++ B = (A ++ MIDDLE ++ p0) ++ p1 ++ B) by by rewrite <- !(assoc_L (++)).
  rewrite E0. replace (length A + 1)%nat with (length (A ++ MIDDLE)) by by rewrite length_app.
  rewrite P0 by lia. cbn [mbind res_bind]. rewrite <- E0, E1.
  replace (length (A ++ MIDDLE) + length p0)%nat with (length (A ++ MIDDLE ++ p0)) by (rewrite !length_app; lia).
  rewrite P1 by lia. cbn [mbind res_bind]. rewrite E. cbn [mbind res_bind].
  rewrite !length_app. do 2 f_equal. lia.
Qed.

(** What [is_included] writes for [n] is the serialization of a pruned tree that
    answers for [x] as [n] does. *)
Definition prunes (pre : list bool) (n : node) (x : bytes) : Prop :=
  ∀ r p, is_included n x (Z.of_nat (length pre)) = Ok (r, p) →
  ∃ t p', parses pre p t ∧ same_face n t ∧ is_double t = is_double n ∧
    is_included t x (Z.of_nat (length pre)) = Ok (r, p').

Lemma other_prunes pre n x collapse p :
  tree_ok pre n → prunes pre n x →
  other_included n (is_included n x (Z.of_nat (length pre))) collapse = Ok p →
  ∃ t p', parses pre p t ∧ same_face n t ∧ (collapse = false → is_double t = is_double n) ∧
    other_included t (is_included t x (Z.of_nat (length pre))) collapse = Ok p'.
Proof.
  intros Hok HP E. destruct n as [|h|h c0 c1|h]; cbn [other_included] in E; simplify_eq.
  - exists EmptyNode, EMPTY. split_and!; [apply parses_empty|done|done|done].
  - exists (TerminalNode h), (TERMINAL ++ h).
    split_and!; [apply parses_terminal; apply Hok|done|done|done].
  - pose proof (tree_ok_hash_length _ _ Hok) as Hh. cbn [node_hash] in Hh.
    apply bind_Ok in E as (tr&Et&E). destruct tr.
    + injection E as <-. exists (TruncatedNode h), (TRUNCATED ++ h).
      split_and!; [by apply parses_truncated|done| |done].
      intros ->. apply bind_Ok in Et as (d&Ed&Ed'). rewrite Ed. by destruct d.
    + destruct collapse; [done|]. apply bind_Ok in Et as (d&Ed&Ed'). destruct d; [|done].
      apply bind_Ok in E as ([r p0]&Er&E). injection E as <-.
      destruct (HP _ _ Er) as (t&p'&Hp&Hf&Hd&Hi). exists t, p'. split_and!; [done|done|done|].
      assert (Hm : ∃ g d0 d1, t = MiddleNode g d0 d1).
      { rewrite Ed in Hd. destruct t; try done. eauto. }
      destruct Hm as (g&d0&d1&->). unfold other_included. by rewrite Hd, Ed, Hi.
  - done.
Qed.

Lemma included_prunes pre n x : tree_ok pre n → hash32 x → prunes pre n x.
Proof.
  intros Hok Hx. revert pre Hok.
  induction n as [|h|h c0 IH0 c1 IH1|h]; intros pre Hok r p E; [| | |done].
  - cbn in E. simplify_eq. exists EmptyNode, EMPTY. split_and!; [apply parses_empty|done..].
  - cbn in E. simplify_eq. exists (TerminalNode h), (TERMINAL ++ h).
    split_and!; [apply parses_terminal; apply Hok|done..].
  - destruct Hok as (H0&H1&Em). cbn [is_included] in E.
    apply bind_Ok in E as (b&Eb&E). rewrite (Z_of_depth pre b) in E.
    assert (Elen : ∀ b', length (pre ++ [b]) = length (pre ++ [b'])) by (intros; by rewrite !length_app).
    assert (Hpair : ∃ p0 p1 t0 t1 q, p = MIDDLE ++ p0 ++ p1 ∧
      parses (pre ++ [false]) p0 t0 ∧ parses (pre ++ [true]) p1 t1 ∧ same_face c0 t0 ∧ same_face c1 t1 ∧
      (is_empty c0 = true → is_double t1 = is_double c1) ∧ (is_empty c1 = true → is_double t0 = is_double c0) ∧
      ∀ g, is_included (MiddleNode g t0 t1) x (Z.of_nat (length pre)) = Ok (r, q)).
    { cbn [is_included]. rewrite Eb. cbn [mbind res_bind]. rewrite (Z_of_depth pre b). destruct b.
      - apply bind_Ok in E as (p0&E0&E). apply bind_Ok in E as ([r1 p1]&E1&E). injection E as -> <-.
        destruct (IH1 _ H1 _ _ E1) as (t1&q1&P1&F1&D1&I1). rewrite (Elen false) in E0.
        destruct (other_prunes _ _ _ _ _ H0 (IH0 _ H0) E0) as (t0&q0&P0&F0&D0&I0).
        exists p0, p1, t0, t1, (MIDDLE ++ q0 ++ q1). pose proof F1 as (_&Ee&_).
        split_and!; try done; [intros He; apply D0; by rewrite He|]. intros _. rewrite Ee, I1, (Elen false), I0. done.
      - apply bind_Ok in E as ([r1 p0]&E0&E). apply bind_Ok in E as (p1&E1&E). injection E as -> <-.
        destruct (IH0 _ H0 _ _ E0) as (t0&q0&P0&F0&D0&I0). rewrite (Elen true) in E1.
        destruct (other_prunes _ _ _ _ _ H1 (IH1 _ H1) E1) as (t1&q1&P1&F1&D1&I1).
        exists p0, p1, t0, t1, (MIDDLE ++ q0 ++ q1). pose proof F0 as (_&Ee&_).
        split_and!; try done; [intros He; apply D1; by rewrite He|]. intros _. rewrite Ee, I0, (Elen true).
        cbn [mbind res_bind]. rewrite I1. done. }
    destruct Hpair as (p0&p1&t0&t1&q&->&P0&P1&F0&F1&D1&D0&I).
    exists (MiddleNode h t0 t1), q. split_and!; [|done| |apply I].
    + apply parses_middle; [done|done|]. by apply (make_middle_face c0 c1).
    + cbn [is_double]. pose proof F0 as (_&->&->). pose proof F1 as (_&->&->).
      destruct (is_empty c0); [auto|]. destruct (is_empty c1); auto.
Qed.

Lemma parses_whole p t : parses [] p t → deserialize_proof p = Ok t.
Proof.
  intros HP. unfold deserialize_proof. specialize (HP [] [] (S (length p)) ltac:(lia)).
  cbn [app length] in HP. rewrite app_nil_r in HP. rewrite HP. cbn [Nat.add].
  by rewrite bool_decide_true.
Qed.

Lemma confirm_honest n x r b p e :
  tree_ok [] n → hash32 x → get_root n = Ok r → is_included_already_hashed n x = Ok (b, p) →
  confirm r x p e = Ok (eqb b e).
Proof.
  intros Hok Hx Hr E. destruct (included_prunes [] n x Hok Hx _ _ E) as (t&p'&HP&(Hg&_)&_&Hi).
  unfold confirm. rewrite (parses_whole _ _ HP). cbn [mbind res_bind].
  assert (Er : get_root t = Ok r) by (unfold get_root in *; by rewrite Hg). rewrite Er. cbn [mbind res_bind].
  rewrite bool_decide_true by done. cbn [negb]. unfold is_included_already_hashed.
  change (is_included t x 0) with (is_included t x (Z.of_nat (length (@nil bool)))). by rewrite Hi.
Qed.

(** C38. Completeness: after any sequence of insertions and removals, the proof that
    [is_included_already_hashed] returns for a hash is accepted against the root
    for the answer it came with, and refused for the opposite one. *)
Theorem merkle_proof_complete ops x :
  Forall (λ o, hash32 (op_hash o)) ops → hash32 x →
  let member := bool_decide (x ∈ set_of ops) in
  ∃ root r p,
    for_fold run_op EmptyNode ops = Ok root ∧ get_root root = Ok r ∧
    is_included_already_hashed root x = Ok (member, p) ∧
    confirm_included_already_hashed r x p = Ok member ∧
    confirm_not_included_already_hashed r x p = Ok (negb member).
Proof.
  intros Ho Hx member.
  destruct (run_ops_ok ops EmptyNode ∅) as (root&E&Hok&Hs); [done|done|cbn; set_solver|].
  destruct (get_root_ok _ _ Hok) as (r&Er&_).
  destruct (is_included_ok [] root x Hok Hx) as [p Ep]; [apply prefix_nil|].
  rewrite (bool_decide_ext _ _ (Hs x)) in Ep. fold (set_of ops) member in Ep.
  exists root, r, p. split_and!; [done|done|done| |].
  - unfold confirm_included_already_hashed. rewrite (confirm_honest root x r member p) by done. by destruct member.
  - unfold confirm_not_included_already_hashed. rewrite (confirm_honest root x r member p) by done. by destruct member.
Qed.

(** [confirm_included] calls the check of non-inclusion: it refuses the proof of a
    member and accepts the proof of absence of a value that is not one. *)
Theorem confirm_included_inverted ops val :
  Forall (λ o, hash32 (op_hash o)) ops →
  ∃ root r p,
    for_fold run_op EmptyNode ops = Ok root ∧ get_root root = Ok r ∧
    is_included_already_hashed root (sha256 val) = Ok (bool_decide (sha256 val ∈ set_of ops), p) ∧
    confirm_included r val p = Ok (negb (bool_decide (sha256 val ∈ set_of ops))).
Proof.
  intros Ho. assert (Hx : hash32 (sha256 val)) by (split; [apply sha256_length|apply sha256_bytes]).
  destruct (run_ops_ok ops EmptyNode ∅) as (root&E&Hok&Hs); [done|done|cbn; set_solver|].
  destruct (get_root_ok _ _ Hok) as (r&Er&_).
  destruct (is_included_ok [] root _ Hok Hx) as [p Ep]; [apply prefix_nil|].
  rewrite (bool_decide_ext _ _ (Hs (sha256 val))) in Ep. fold (set_of ops) in Ep.
  exists root, r, p. split_and!; [done|done|done|].
  unfold confirm_included, confirm_not_included_already_hashed.
  rewrite (confirm_honest root _ r _ p _ Hok Hx Er Ep). by destruct (bool_decide _).
Qed.

(** ** Accepted proofs tell the truth *)

(** The two hashes of a double. *)
Fixpoint double_pair (n : node) : option (bytes * bytes) :=
  match n with
  | MiddleNode _ c0 c1 =>
      if is_empty c0 then double_pair c1
      else if is_empty c1 then double_pair c0
      else match c0, c1 with TerminalNode a, TerminalNode b => Some (a, b) | _, _ => None end
  | _ => None
  end.

(** The strings hashed to build the middle nodes of a tree, and its root: a node
    with an empty child and a double keeps the hash of the double. *)
Fixpoint hashed (n : node) : list bytes :=
  match n with
  | MiddleNode _ c0 c1 =>
      (if (is_empty c0 || is_empty c1) && bool_decide (is_Some (double_pair n)) then [] else [middle_preimage c0 c1])
      ++ hashed c0 ++ hashed c1
  | _ => []
  end.
Definition root_hashed (n : node) : list bytes :=
  match n with TerminalNode h => [TERMINAL ++ h] | _ => hashed n end.

(** No two of the strings hashed collide, and none hashes to the root of the empty
    set. *)
Definition no_collision (l : list bytes) : Prop :=
  Forall (λ a, Forall (λ b, sha256 a = sha256 b → a = b) l ∧ sha256 a ≠ BLANK) l.
#[global] Instance no_collision_dec l : Decision (no_collision l).
Proof. unfold no_collision. apply _. Defined.

Lemma no_collision_inj l a b :
  no_collision l → a ∈ l → b ∈ l → sha256 a = sha256 b → a = b.
Proof.
  unfold no_collision. rewrite Forall_forall. intros Hl Ha Hb. destruct (Hl a Ha) as [Hab _].
  rewrite Forall_forall in Hab. auto.
Qed.

Lemma no_collision_blank l a : no_collision l → a ∈ l → sha256 a ≠ BLANK.
Proof. unfold no_collision. rewrite Forall_forall. intros Hl Ha. apply (Hl a Ha). Qed.

Lemma no_collision_sub l l' : l' ⊆ l → no_collision l → no_collision l'.
Proof.
  intros Hsub Hl. unfold no_collision. rewrite Forall_forall. intros a Ha.
  split; [|apply (no_collision_blank l); auto]. rewrite Forall_forall. intros b Hb.
  apply (no_collision_inj l); auto.
Qed.

Lemma is_double_pair n : is_double n = Ok true ↔ is_Some (double_pair n).
Proof.
  induction n as [|h|h c0 IH0 c1 IH1|h]; cbn [is_double double_pair]; try (split; [done|by intros []]).
  destruct (is_empty c0) eqn:E0; [done|]. destruct (is_empty c1) eqn:E1; [done|].
  destruct c0, c1; cbn; split; try done; try (by intros []); eauto.
Qed.

Lemma tree_proof_ok pre n : tree_ok pre n → proof_ok pre n.
Proof.
  revert pre. induction n as [|h|h c0 IH0 c1 IH1|h]; intros pre Hok; [done|done| |done].
  destruct Hok as (H0&H1&E). cbn. auto.
Qed.

(** A double has no truncated node: it is a tree of two hashes, and its hash is
    theirs at whatever depth they part. *)
Lemma double_facts pre n a b :
  proof_ok pre n → double_pair n = Some (a, b) →
  tree_ok pre n ∧ elements n = [a; b] ∧
  node_hash n = sha256 (middle_preimage (TerminalNode a) (TerminalNode b)) ∧
  middle_preimage (TerminalNode a) (TerminalNode b) ∈ hashed n.
Proof.
  revert pre. induction n as [|h|h c0 IH0 c1 IH1|h]; intros pre Hok E; try done.
  assert (Hs : is_Some (double_pair (MiddleNode h c0 c1))) by (rewrite E; eauto).
  cbn [hashed]. rewrite (bool_decide_true _ Hs), andb_true_r. clear Hs.
  destruct Hok as (H0&H1&Em). pose proof Em as Em'. apply make_middle_inv in Em as (g&Eg&_&_&_&Hc). injection Eg as <-.
  cbn [double_pair] in E. destruct (is_empty c0) eqn:E0.
  - destruct (IH1 _ H1 E) as (T1&El&Hh&Hin). destruct c0; try done. split_and!; [done|done| |set_solver].
    assert (D1 : is_double c1 = Ok true) by (apply is_double_pair; rewrite E; eauto).
    destruct Hc as [(_&_&->)|[(Hc&_)|(Hc&_)]]; [done|by destruct c1|].
    rewrite Hc in D1; done.
  - destruct (is_empty c1) eqn:E1.
    + destruct (IH0 _ H0 E) as (T0&El&Hh&Hin). destruct c1; try done.
      split_and!; [done|cbn; by rewrite app_nil_r| |set_solver].
      assert (D0 : is_double c0 = Ok true) by (apply is_double_pair; rewrite E; eauto).
      destruct Hc as [(Hc&_)|[(_&_&->)|(_&Hc&_)]]; [done|done|]. rewrite Hc in D0; done.
    + destruct c0 as [|a'| |], c1 as [|b'| |]; try done. injection E as -> ->.
      split_and!; [done|done| |set_solver].
      destruct Hc as [(Hc&_)|[(Hc&_)|(_&_&Hc)]]; [done|done|].
      rewrite hashdown_eq in Hc by (apply H0 || apply H1). by injection Hc as <-.
Qed.

(** The hash of any other middle node is the hash of its children. *)
Lemma single_facts pre h c0 c1 :
  proof_ok pre (MiddleNode h c0 c1) → double_pair (MiddleNode h c0 c1) = None →
  length (node_hash c0) = 32%nat ∧ length (node_hash c1) = 32%nat ∧
  h = sha256 (middle_preimage c0 c1) ∧ middle_preimage c0 c1 ∈ hashed (MiddleNode h c0 c1).
Proof.
  intros (H0&H1&Em) E. apply make_middle_inv in Em as (g&Eg&_&_&_&Hc). injection Eg as <-.
  assert (Hn : hashdown (get_hash c0 ++ get_hash c1) = Ok h).
  { cbn [double_pair] in E. destruct Hc as [(He&Hd&_)|[(He&Hd&_)|(_&_&Hh)]]; [| |done].
    - apply is_double_pair in Hd. destruct (is_empty c0); [|done]. rewrite E in Hd. by destruct Hd.
    - apply is_double_pair in Hd as Hd'. destruct (is_empty c1), (is_empty c0) eqn:E0; try done.
      + by destruct c0.
      + rewrite E in Hd'. by destruct Hd'. }
  assert (Hl : length (node_hash c0) = 32%nat ∧ length (node_hash c1) = 32%nat).
  { pose proof (proof_ok_hash_le _ _ H0). pose proof (proof_ok_hash_le _ _ H1).
    unfold hashdown in Hn. apply bind_Ok in Hn as (u&Ha&_). apply assert_Ok, bool_decide_eq_true in Ha.
    rewrite (get_hash_parts c0), (get_hash_parts c1), !length_app in Ha.
    rewrite (proj2 (get_hash_tag c0)), (proj2 (get_hash_tag c1)) in Ha. lia. }
  destruct Hl as [L0 L1]. rewrite hashdown_eq in Hn by done. injection Hn as <-.
  split_and!; [done|done|done|]. cbn [hashed]. rewrite E, bool_decide_false by (by intros []).
  rewrite andb_false_r. set_solver.
Qed.

Lemma preimage_inj c0 c1 d0 d1 :
  length (node_hash c0) = 32%nat → length (node_hash d0) = 32%nat →
  middle_preimage c0 c1 = middle_preimage d0 d1 →
  get_hash c0 = get_hash d0 ∧ get_hash c1 = get_hash d1.
Proof.
  intros L0 L0' E. unfold middle_preimage in E. apply app_inv_head in E.
  apply app_inj_1 in E as [T0 E]; [|by rewrite (proj2 (get_hash_tag c0)), (proj2 (get_hash_tag d0))].
  apply app_inj_1 in E as [T1 E]; [|by rewrite (proj2 (get_hash_tag c1)), (proj2 (get_hash_tag d1))].
  apply app_inj_1 in E as [N0 N1]; [|congruence].
  rewrite (get_hash_parts c0), (get_hash_parts c1), (get_hash_parts d0), (get_hash_parts d1).
  split; congruence.
Qed.

Lemma terminal_hash n h : get_hash n = get_hash (TerminalNode h) → n = TerminalNode h.
Proof. destruct n; cbn; intros E; by simplify_eq. Qed.

(** Trees with the same hash at the same path give the same answers. *)
Lemma hash_determines t pre n x r p :
  tree_ok pre n → proof_ok pre t → no_collision (hashed n ++ hashed t) → get_hash t = get_hash n →
  hash32 x → pre `prefix_of` bits_of x →
  is_included t x (Z.of_nat (length pre)) = Ok (r, p) → r = bool_decide (x ∈ elements n).
Proof.
  intros Hn Ht Hc Eg Hx. revert pre n r p Hn Ht Hc Eg.
  induction t as [|h|h c0 IH0 c1 IH1|h]; intros pre n r p Hn Ht Hc Eg Hp Ei.
  - assert (n = EmptyNode) as -> by by destruct n. by injection Ei as <- <-.
  - symmetry in Eg. apply terminal_hash in Eg as ->. injection Ei as <- <-.
    apply bool_decide_ext. cbn. set_solver.
  - destruct n as [| |h' d0 d1|]; try done. injection Eg as <-.
    pose proof (tree_proof_ok _ _ Hn) as Hn'.
    destruct (double_pair (MiddleNode h c0 c1)) as [[a b]|] eqn:Et,
      (double_pair (MiddleNode h d0 d1)) as [[a' b']|] eqn:En.
    + destruct (double_facts _ _ _ _ Ht Et) as (T&El&Hh&Hin).
      destruct (double_facts _ _ _ _ Hn' En) as (_&El'&Hh'&Hin').
      assert (E : middle_preimage (TerminalNode a) (TerminalNode b)
                  = middle_preimage (TerminalNode a') (TerminalNode b')).
      { apply (no_collision_inj _ _ _ Hc); [apply elem_of_app; by auto|apply elem_of_app; by auto|cbn [node_hash] in *; congruence]. }
      destruct (tree_ok_elements _ _ a T) as [[La _] _]; [rewrite El; set_solver|].
      destruct (tree_ok_elements _ _ a' Hn) as [[La' _] _]; [rewrite El'; set_solver|].
      apply preimage_inj in E as [Ea Eb]; [|done|done]. injection Ea as <-. injection Eb as <-.
      destruct (is_included_ok _ _ _ T Hx Hp) as [q Eq].
      assert (r = bool_decide (x ∈ elements (MiddleNode h c0 c1))) as -> by congruence.
      apply bool_decide_ext. by rewrite El, El'.
    + exfalso. destruct (double_facts _ _ _ _ Ht Et) as (T&El&Hh&Hin).
      destruct (single_facts _ _ _ _ Hn' En) as (L0&L1&Hh'&Hin').
      destruct (tree_ok_elements _ _ a T) as [[La _] _]; [rewrite El; set_solver|].
      assert (E : middle_preimage d0 d1 = middle_preimage (TerminalNode a) (TerminalNode b)).
      { apply (no_collision_inj _ _ _ Hc); [apply elem_of_app; by auto|apply elem_of_app; by auto|cbn [node_hash] in *; congruence]. }
      apply preimage_inj in E as [->%terminal_hash ->%terminal_hash]; done.
    + exfalso. destruct (double_facts _ _ _ _ Hn' En) as (_&El'&Hh'&Hin').
      destruct (single_facts _ _ _ _ Ht Et) as (L0&L1&Hh&Hin).
      destruct (tree_ok_elements _ _ a' Hn) as [[La' _] _]; [rewrite El'; set_solver|].
      assert (E : middle_preimage c0 c1 = middle_preimage (TerminalNode a') (TerminalNode b')).
      { apply (no_collision_inj _ _ _ Hc); [apply elem_of_app; by auto|apply elem_of_app; by auto|cbn [node_hash] in *; congruence]. }
      apply preimage_inj in E as [->%terminal_hash ->%terminal_hash]; done.
    + destruct (single_facts _ _ _ _ Ht Et) as (L0&L1&Hh&Hin).
      destruct (single_facts _ _ _ _ Hn' En) as (L0'&L1'&Hh'&Hin').
      assert (E : middle_preimage c0 c1 = middle_preimage d0 d1).
      { apply (no_collision_inj _ _ _ Hc); [apply elem_of_app; by auto|apply elem_of_app; by auto|cbn [node_hash] in *; congruence]. }
      apply preimage_inj in E as [G0 G1]; [|done|done].
      destruct (tree_ok_depth _ _ _ _ _ Hn Hx Hp) as (b&Eb&Hb).
      rewrite (bool_decide_ext _ _ (elements_side _ _ _ _ _ _ Hn Hb)).
      destruct Hn as (N0&N1&_), Ht as (P0&P1&_). cbn [hashed] in Hc.
      cbn [is_included] in Ei. rewrite Eb in Ei. cbn [mbind res_bind] in Ei. rewrite (Z_of_depth pre b) in Ei.
      destruct b.
      * apply bind_Ok in Ei as (q&_&Ei). apply bind_Ok in Ei as ([r1 q1]&Ei&Er). injection Er as <- _.
        apply (IH1 _ _ _ q1 N1 P1); [|done|done|done]. eapply no_collision_sub, Hc.
        intros y. rewrite !elem_of_app. tauto.
      * apply bind_Ok in Ei as ([r0 q0]&Ei&Er). apply bind_Ok in Er as (q&_&Er). injection Er as <- _.
        apply (IH0 _ _ _ q0 N0 P0); [|done|done|done]. eapply no_collision_sub, Hc.
        intros y. rewrite !elem_of_app. tauto.
  - done.
Qed.

Lemma node_hash_preimage pre h c0 c1 :
  proof_ok pre (MiddleNode h c0 c1) → ∃ s, s ∈ hashed (MiddleNode h c0 c1) ∧ h = sha256 s ∧ length s = 96%nat.
Proof.
  intros Hok. destruct (double_pair (MiddleNode h c0 c1)) as [[a b]|] eqn:E.
  - destruct (double_facts _ _ _ _ Hok E) as (T&El&Hh&Hin). eexists; split_and!; [done|done|].
    destruct (tree_ok_elements _ _ a T) as [[La _] _]; [rewrite El; set_solver|].
    destruct (tree_ok_elements _ _ b T) as [[Lb _] _]; [rewrite El; set_solver|].
    unfold middle_preimage. cbn [node_hash]. rewrite !length_app, length_replicate, La, Lb. done.
  - destruct (single_facts _ _ _ _ Hok E) as (L0&L1&Hh&Hin). eexists; split_and!; [done|done|].
    unfold middle_preimage. rewrite !length_app, length_replicate.
    rewrite (proj2 (get_hash_tag c0)), (proj2 (get_hash_tag c1)). lia.
Qed.

(** A root determines the hash of the root node. *)
Lemma root_determines n t :
  tree_ok [] n → proof_ok [] t → no_collision (root_hashed n ++ root_hashed t) →
  get_root t = get_root n → (∀ h, t ≠ TruncatedNode h) → get_hash t = get_hash n.
Proof.
  intros Hn Ht Hc E Htr.
  pose proof (λ a b Ha Hb, no_collision_inj _ a b Hc (proj2 (elem_of_app _ _ a) Ha) (proj2 (elem_of_app _ _ b) Hb)) as Hinj.
  pose proof (λ a Ha, no_collision_blank _ a Hc (proj2 (elem_of_app _ _ a) Ha)) as Hbl.
  assert (Hr : ∀ m, proof_ok [] m → (∀ h, m ≠ TruncatedNode h) →
    (m = EmptyNode ∧ get_root m = Ok BLANK)
    ∨ (∃ h, m = TerminalNode h ∧ get_root m = Ok (sha256 (TERMINAL ++ h)))
    ∨ (∃ h c0 c1 s, m = MiddleNode h c0 c1 ∧ get_root m = Ok (sha256 s) ∧ h = sha256 s ∧
         s ∈ hashed m ∧ length s = 96%nat)).
  { clear. intros m Hm Htr. unfold get_root, compress_root. destruct m as [|h|h c0 c1|h].
    - left. done.
    - right; left. exists h. rewrite (bool_decide_true (length _ = 33%nat)) by by apply get_hash_length, Hm.
      split; [done|]. change (Ok (take 32 (sha256 (TERMINAL ++ h))) = Ok (sha256 (TERMINAL ++ h))).
      by rewrite take_ge by (rewrite sha256_length; lia).
    - right; right. destruct (node_hash_preimage _ _ _ _ Hm) as (s&Hs&Eh&Hl).
      exists h, c0, c1, s. rewrite (bool_decide_true (length _ = 33%nat))
        by (apply get_hash_length; cbn; rewrite Eh; apply sha256_length).
      rewrite <- Eh. done.
    - by destruct (Htr h). }
  destruct (Hr t Ht Htr) as [[-> Rt]|[(h&->&Rt)|(h&c0&c1&s&->&Rt&Eh&Hs&Hl)]],
    (Hr n (tree_proof_ok _ _ Hn) ltac:(by intros ? ->)) as [[-> Rn]|[(h'&->&Rn)|(h'&d0&d1&s'&->&Rn&Eh'&Hs'&Hl')]];
    clear Hr; try done; rewrite Rt, Rn in E; injection E as E.
  - destruct (Hbl (TERMINAL ++ h')); [left; cbn; set_solver|done].
  - destruct (Hbl s'); [by left|done].
  - destruct (Hbl (TERMINAL ++ h)); [right; cbn; set_solver|done].
  - apply Hinj in E; [|right; cbn; set_solver|left; cbn; set_solver]. cbn in E. by injection E as ->.
  - apply Hinj in E; [|right; cbn; set_solver|by left]. rewrite <- E in Hl'.
    destruct Ht as [[Lh _] _]. cbn in Hl'. by rewrite Lh in Hl'.
  - destruct (Hbl s); [by right|done].
  - apply Hinj in E; [|by right|left; cbn; set_solver]. rewrite E in Hl.
    destruct Hn as [[Lh _] _]. cbn in Hl. by rewrite Lh in Hl.
  - cbn. congruence.
Qed.

(** C6. Soundness: a proof that is accepted against the root of a set, for or against
    the membership of a hash, is right, unless two of the strings hashed to build
    the set's tree and the proof's tree collide (or one hashes to 32 zeros). *)
Theorem merkle_proof_sound ops root r x proof t expected :
  Forall (λ o, hash32 (op_hash o)) ops → hash32 x → is_bytes proof →
  for_fold run_op EmptyNode ops = Ok root → get_root root = Ok r →
  deserialize_proof proof = Ok t → no_collision (root_hashed root ++ root_hashed t) →
  confirm r x proof expected = Ok true →
  expected = bool_decide (x ∈ set_of ops).
Proof.
  intros Ho Hx Hb E Er Et Hc Hconf.
  destruct (run_ops_ok ops EmptyNode ∅) as (root'&E'&Hok&Hs); [done|done|cbn; set_solver|].
  rewrite E in E'. injection E' as <-.
  pose proof (deserialize_proof_outcome proof Hb) as Ht. rewrite Et in Ht. cbn in Ht.
  unfold confirm in Hconf. rewrite Et in Hconf. cbn [mbind res_bind] in Hconf.
  destruct (get_root t) as [r'|e|] eqn:Er'; cbn [mbind res_bind] in Hconf; [|by destruct e|done].
  case_bool_decide as Hrr; cbn [negb] in Hconf; [subst r'|done].
  destruct (is_included_already_hashed t x) as [[b p]|e|] eqn:Ei; cbn [mbind res_bind] in Hconf; [|by destruct e|done].
  injection Hconf as Hconf%eqb_prop. subst b.
  rewrite (bool_decide_ext _ _ (iff_sym (Hs x))).
  assert (Htr : ∀ h, t ≠ TruncatedNode h) by by intros h ->.
  apply (hash_determines t [] root x _ p Hok Ht); [| |done|apply prefix_nil|done].
  - eapply no_collision_sub, Hc. intros y. rewrite !elem_of_app.
    destruct root, t; cbn; set_solver.
  - apply root_determines; [done|done|done|congruence|done].
Qed.
End MerkleProof.

(** ** On a concrete set, with SHA-256 *)
Definition sample_ops : list set_op := [AddHash sample_h1; AddHash sample_h2; AddHash sample_h3].
Definition sample_tree : node :=
  match for_fold run_op EmptyNode sample_ops with Ok n => n | _ => EmptyNode end.
Definition sample_root : bytes := match get_root sample_tree with Ok r => r | _ => [] end.
Definition sample_proof : bytes :=
  match is_included_already_hashed sample_tree sample_h3 with Ok (_, p) => p | _ => [] end.
Definition sample_proof_tree : node :=
  match deserialize_proof sample_proof with Ok t => t | _ => EmptyNode end.

(** The proof of the third hash truncates the subtree of the first two. *)
Example sample_proof_truncates :
  (elements sample_tree, elements sample_proof_tree, length sample_proof)
  = ([sample_h1; sample_h2; sample_h3], [sample_h3], 67%nat).
Proof. vm_compute. reflexivity. Qed.

(** A proof cut short is not refused: the assertion of [TerminalNode] fails. *)
Example short_proof_raises :
  confirm_included_already_hashed sample_root sample_h3 (take 60 sample_proof) = Raise AssertionError.
Proof. vm_compute. reflexivity. Qed.

Lemma confirm_ends_witness :
  (∃ b, confirm sample_root sample_h3 sample_proof true = Ok b)
  ∨ confirm sample_root sample_h3 sample_proof true = Raise AssertionError
  ∨ confirm sample_root sample_h3 sample_proof true = Raise IndexError.
Proof. apply confirm_ends. apply (bool_decide_unpack _). vm_compute. exact I. Defined.

Lemma merkle_proof_complete_witness :
  ∃ root r p,
    for_fold run_op EmptyNode sample_ops = Ok root ∧ get_root root = Ok r ∧
    is_included_already_hashed root sample_h3 = Ok (bool_decide (sample_h3 ∈ set_of sample_ops), p) ∧
    confirm_included_already_hashed r sample_h3 p = Ok (bool_decide (sample_h3 ∈ set_of sample_ops)) ∧
    confirm_not_included_already_hashed r sample_h3 p = Ok (negb (bool_decide (sample_h3 ∈ set_of sample_ops))).
Proof. apply merkle_proof_complete; apply (bool_decide_unpack _); vm_compute; exact I. Defined.

Lemma confirm_included_inverted_witness :
  ∃ root r p,
    for_fold run_op EmptyNode [AddHash (sha256 [1]); AddHash sample_h1] = Ok root ∧ get_root root = Ok r ∧
    is_included_already_hashed root (sha256 [1])
      = Ok (bool_decide (sha256 [1] ∈ set_of [AddHash (sha256 [1]); AddHash sample_h1]), p) ∧
    confirm_included r [1] p
      = Ok (negb (bool_decide (sha256 [1] ∈ set_of [AddHash (sha256 [1]); AddHash sample_h1]))).
Proof. apply confirm_included_inverted. apply (bool_decide_unpack _). vm_compute. exact I. Defined.

Lemma merkle_proof_sound_witness : true = bool_decide (sample_h3 ∈ set_of sample_ops).
Proof.
  apply (merkle_proof_sound sample_ops sample_tree sample_root sample_h3 sample_proof sample_proof_tree).
  all: try (apply (bool_decide_unpack _); vm_compute; exact I).
  all: vm_compute; reflexivity.
Defined.
