(* ===== verification/Streamable.v ===== *)
(** * Streamable: the serialization of consensus objects

    Models [chia/util/streamable.py]: the parsers and the streamer of every kind of
    field but [str], composed by type the way [function_to_parse_one_item] and
    [stream_one_item] do, and [get_hash], [from_bytes] and [__bytes__].

    A type annotation is a code [ftype] and [val t] the Python values it admits.  A
    class is the sequence of its fields, as is a tuple: [TPair] and [TUnit].  The
    elements of the BLS library are their byte encodings, and [clvm_rs] tells where a
    serialized program ends. *)
From S2P Require Import Prelude PyInt Consensus.

(** The classes of [size_hints] that are read by length and built by [from_bytes] *)
Inductive hinted := PrivateKey | G1Element | G2Element | Opcode.
Definition size_hints (t : hinted) : nat :=
  match t with PrivateKey => 32 | G1Element => 48 | G2Element => 96 | Opcode => 1 end.

(** The external packages: [from_bytes] of the BLS classes may refuse an encoding;
    [clvm_rs.serialized_length] gives the length of the program a byte string starts
    with, and looks at nothing after it. *)
Class Packages := {
  from_bytes_ok : hinted → bytes → res unit;
  serialized_length : bytes → res nat;
  serialized_length_prefix : ∀ f n, serialized_length f = Ok n →
    (n <= length f)%nat ∧ ∀ rest, serialized_length (take n f ++ rest) = Ok n;
}.

Inductive ftype :=
  | TBool
  | TInt (p : pack)
  | TUint128
  | TInt512
  | TSized (n : nat)
  | TBytes
  | THinted (t : hinted)
  | TProgram
  | TOptional (t : ftype)
  | TList (t : ftype)
  | TUnit
  | TPair (t ts : ftype).

Fixpoint val (t : ftype) : Type :=
  match t with
  | TBool => bool
  | TInt _ | TUint128 | TInt512 => Z
  | TSized _ | TBytes | THinted _ | TProgram => bytes
  | TOptional t => option (val t)
  | TList t => list (val t)
  | TUnit => unit
  | TPair t ts => val t * val ts
  end.

(** ** Primitives *)
Definition parse_bool (f : bytes) : res (bool * bytes) :=
  let '(bool_byte, f) := read 1 f in
  assert_ (bool_decide (length bool_byte = 1%nat)) ;;
  if bool_decide (bool_byte = [0]) then Ok (false, f)
  else if bool_decide (bool_byte = [1]) then Ok (true, f)
  else Raise ValueError.

Definition parse_uint32 (f : bytes) : res (Z * bytes) :=
  let '(size_bytes, f) := read 4 f in
  assert_ (bool_decide (length size_bytes = 4%nat)) ;;
  n ← uint32 (decode_be false size_bytes);
  Ok (n, f).

Definition write_uint32 (value : Z) : res bytes := py_to_bytes 4 false value.

Definition parse_optional {A} (parse_inner_type_f : bytes → res (A * bytes)) (f : bytes) : res (option A * bytes) :=
  let '(is_present_bytes, f) := read 1 f in
  assert_ (bool_decide (length is_present_bytes = 1%nat)) ;;
  if bool_decide (is_present_bytes = [0]) then Ok (None, f)
  else if bool_decide (is_present_bytes = [1]) then '(v, f) ← parse_inner_type_f f; Ok (Some v, f)
  else Raise ValueError.

Definition parse_bytes (f : bytes) : res (bytes * bytes) :=
  '(list_size, f) ← parse_uint32 f;
  let '(bytes_read, f) := read (Z.to_nat list_size) f in
  assert_ (Z.of_nat (length bytes_read) =? list_size) ;;
  Ok (bytes_read, f).

Fixpoint parse_items {A} (parse_inner_type_f : bytes → res (A * bytes)) (n : nat) (f : bytes) : res (list A * bytes) :=
  match n with
  | O => Ok ([], f)
  | S n =>
      '(v, f) ← parse_inner_type_f f;
      '(vs, f) ← parse_items parse_inner_type_f n f;
      Ok (v :: vs, f)
  end.

Definition parse_list {A} (parse_inner_type_f : bytes → res (A * bytes)) (f : bytes) : res (list A * bytes) :=
  '(list_size, f) ← parse_uint32 f;
  parse_items parse_inner_type_f (Z.to_nat list_size) f.

Section Streamable.
Context `{Packages}.

Definition parse_size_hints (t : hinted) (f : bytes) : res (bytes * bytes) :=
  let '(bytes_read, f) := read (size_hints t) f in
  assert_ (bool_decide (length bytes_read = size_hints t)) ;;
  from_bytes_ok t bytes_read ;;
  Ok (bytes_read, f).

(** [SerializedProgram.parse] *)
Definition program_parse (f : bytes) : res (bytes * bytes) :=
  n ← serialized_length f;
  Ok (read n f).

(** [function_to_parse_one_item] *)
Fixpoint parse_one_item (t : ftype) : bytes → res (val t * bytes) :=
  match t with
  | TBool => parse_bool
  | TInt p => StructStream_parse p
  | TUint128 => uint128_parse
  | TInt512 => int512_parse
  | TSized n => sized_bytes_parse n
  | TBytes => parse_bytes
  | THinted t => parse_size_hints t
  | TProgram => program_parse
  | TOptional t => parse_optional (parse_one_item t)
  | TList t => parse_list (parse_one_item t)
  | TUnit => λ f, Ok (tt, f)
  | TPair t ts => λ f,
      '(v, f) ← parse_one_item t f;
      '(vs, f) ← parse_one_item ts f;
      Ok ((v, vs), f)
  end.

(** [stream_one_item] *)
Fixpoint stream_one_item (t : ftype) : val t → res bytes :=
  match t return val t → res bytes with
  | TBool => λ item, py_to_bytes 1 false (Z.b2z item)
  | TInt p => StructStream_stream p
  | TUint128 => uint128_stream
  | TInt512 => int512_stream
  | TSized n => λ item, Ok (sized_bytes_stream item)
  | TBytes => λ item,
      n ← uint32 (Z.of_nat (length item)); s ← write_uint32 n; Ok (s ++ item)
  | THinted _ | TProgram => λ item, Ok item
  | TOptional t => λ item,
      match item with None => Ok [0] | Some v => b ← stream_one_item t v; Ok ([1] ++ b) end
  | TList t => λ item,
      n ← uint32 (Z.of_nat (length item));
      s ← write_uint32 n;
      for_fold (λ out element, b ← stream_one_item t element; Ok (out ++ b)) s item
  | TUnit => λ _, Ok []
  | TPair t ts => λ item,
      a ← stream_one_item t item.1;
      b ← stream_one_item ts item.2;
      Ok (a ++ b)
  end.

(** [Streamable.from_bytes], [Streamable.get_hash] *)
Definition from_bytes (t : ftype) (blob : bytes) : res (val t) :=
  '(parsed, f) ← parse_one_item t blob;
  assert_ (bool_decide (f = [])) ;;
  Ok parsed.

Definition get_hash `{StdHash} (t : ftype) (v : val t) : res bytes :=
  b ← stream_one_item t v; Ok (std_hash b).

(** The values a constructor admits: [strictdataclass] checks the type of every
    field, and a list or byte string of 2^32 entries cannot be written. *)
Fixpoint valid (t : ftype) : val t → Prop :=
  match t return val t → Prop with
  | TBool | TUnit => λ _, True
  | TInt p => λ v, fits (calcsize p) (pack_signed p) v = true
  | TUint128 => λ v, 0 <= v < 2 ^ 128
  | TInt512 => λ v, - 2 ^ 512 < v < 2 ^ 512
  | TSized n => λ v, is_bytes v ∧ length v = n
  | TBytes => λ v, is_bytes v ∧ Z.of_nat (length v) < 2 ^ 32
  | THinted t => λ v, is_bytes v ∧ length v = size_hints t ∧ from_bytes_ok t v = Ok tt
  | TProgram => λ v, is_bytes v ∧ ∀ rest, serialized_length (v ++ rest) = Ok (length v)
  | TOptional t => λ v, match v with None => True | Some v => valid t v end
  | TList t => λ v, Forall (valid t) v ∧ Z.of_nat (length v) < 2 ^ 32
  | TPair t ts => λ v, valid t v.1 ∧ valid ts v.2
  end.

(** A check of [valid] by evaluation *)
Fixpoint validb (t : ftype) : val t → bool :=
  match t return val t → bool with
  | TBool | TUnit => λ _, true
  | TInt p => λ v, fits (calcsize p) (pack_signed p) v
  | TUint128 => λ v, (0 <=? v) && (v <? 2 ^ 128)
  | TInt512 => λ v, (- 2 ^ 512 <? v) && (v <? 2 ^ 512)
  | TSized n => λ v, bool_decide (is_bytes v) && bool_decide (length v = n)
  | TBytes => λ v, bool_decide (is_bytes v) && (Z.of_nat (length v) <? 2 ^ 32)
  | THinted t => λ v,
      bool_decide (is_bytes v) && bool_decide (length v = size_hints t)
      && match from_bytes_ok t v with Ok _ => true | _ => false end
  | TProgram => λ v,
      bool_decide (is_bytes v) && match serialized_length v with Ok n => bool_decide (n = length v) | _ => false end
  | TOptional t => λ v, match v with None => true | Some v => validb t v end
  | TList t => λ v, forallb (validb t) v && (Z.of_nat (length v) <? 2 ^ 32)
  | TPair t ts => λ v, validb t v.1 && validb ts v.2
  end.

Lemma validb_sound t v : validb t v = true → valid t v.
Proof.
  induction t as [|p| | |n| |h| |t IH|t IH| |t IH ts IHts]; cbn [validb valid]; intros E; zbool; try done.
  - split_and!; [done|done|]. by destruct (from_bytes_ok h v) as [[]|e|].
  - split; [done|]. destruct (serialized_length v) as [n| |] eqn:En; [|done|done]. zbool. subst n. intros rest.
    apply serialized_length_prefix in En as [_ En]. specialize (En rest). by rewrite take_ge in En.
  - destruct v; auto.
  - split; [|done]. apply Forall_forall. intros x Hx. apply IH.
    match goal with H : forallb _ _ = true |- _ => rewrite forallb_forall in H; apply H end.
    by apply list_elem_of_In.
  - split; auto.
Qed.

(** ** Every type round-trips *)
Lemma parse_uint32_write n rest :
  0 <= n < 2 ^ 32 →
  ∃ bs, write_uint32 n = Ok bs ∧ is_bytes bs ∧ parse_uint32 (bs ++ rest) = Ok (n, rest).
Proof.
  intros Hn. assert (Hf : fits 4 false n = true) by (apply andb_true_intro; rewrite Z.leb_le, Z.ltb_lt; cbn; lia).
  exists (encode_be 4 n). unfold write_uint32, py_to_bytes. rewrite Hf.
  split_and!; [done|auto with gold|]. unfold parse_uint32, read.
  rewrite take_length_app, drop_length_app by apply encode_be_length.
  rewrite encode_be_length, bool_decide_true by done. cbn [assert_ check mbind res_bind].
  rewrite decode_encode_be, uint32_in by (done || lia). done.
Qed.

Lemma parse_uint32_inv f n rest :
  is_bytes f → parse_uint32 f = Ok (n, rest) →
  0 <= n < 2 ^ 32 ∧ is_bytes rest ∧ ∃ bs, write_uint32 n = Ok bs ∧ f = bs ++ rest.
Proof.
  intros Hf E. unfold parse_uint32, read in E. uint_inv. zbool.
  split_and!; [lia|lia|auto with gold|]. exists (take 4 f). rewrite take_drop. split; [|done].
  unfold write_uint32. apply py_to_bytes_decode; [auto with gold|done|lia].
Qed.

(** The body of a list, as the streaming loop writes it *)
Fixpoint stream_items (t : ftype) (l : list (val t)) : res bytes :=
  match l with
  | [] => Ok []
  | x :: l => b ← stream_one_item t x; bs ← stream_items t l; Ok (b ++ bs)
  end.

Lemma stream_items_fold t l s :
  for_fold (λ out element, b ← stream_one_item t element; Ok (out ++ b)) s l
  = (bs ← stream_items t l; Ok (s ++ bs)).
Proof.
  revert s. induction l as [|x l IH]; intros s; cbn [for_fold stream_items mbind res_bind]; [by rewrite app_nil_r|].
  destruct (stream_one_item t x) as [b|e|]; cbn [mbind res_bind]; [|done|done].
  rewrite IH. destruct (stream_items t l); cbn [mbind res_bind]; [|done|done]. by rewrite (assoc_L (++)).
Qed.

Section Items.
Context (t : ftype) (Ht : Codec (valid t) (parse_one_item t) (stream_one_item t)).

Lemma items_complete l rest :
  Forall (valid t) l →
  ∃ bs, stream_items t l = Ok bs ∧ is_bytes bs ∧
    parse_items (parse_one_item t) (length l) (bs ++ rest) = Ok (l, rest).
Proof using Ht.
  induction l as [|x l IH]; intros Hl; cbn [stream_items parse_items length].
  { exists []. split_and!; [done|constructor|done]. }
  apply Forall_cons in Hl as [Hx Hl]. destruct (IH Hl) as (bs&->&Hb&Hp).
  destruct (codec_complete x (bs ++ rest) Hx) as (b&->&Hbx&Hpx).
  exists (b ++ bs). cbn [mbind res_bind]. split_and!; [done|by apply is_bytes_app|].
  rewrite <- (assoc_L (++)), Hpx. cbn [mbind res_bind]. by rewrite Hp.
Qed.

Lemma items_canonical n f l rest :
  is_bytes f → parse_items (parse_one_item t) n f = Ok (l, rest) →
  Forall (valid t) l ∧ length l = n ∧ ∃ bs, stream_items t l = Ok bs ∧ f = bs ++ rest.
Proof using Ht.
  revert f l rest. induction n as [|n IH]; intros f l rest Hf E; cbn [parse_items] in E.
  { injection E as <- <-. split_and!; [constructor|done|by exists []]. }
  apply bind_Ok in E as ([v f1]&E1&E). apply bind_Ok in E as ([vs f2]&E2&E). injection E as <- <-.
  destruct (codec_canonical _ _ _ Hf E1) as (Hv&b&Eb&->). apply is_bytes_app in Hf as [_ Hf1].
  destruct (IH _ _ _ Hf1 E2) as (Hvs&Hn&bs&Ebs&->).
  split_and!; [by constructor|cbn; by rewrite Hn|]. exists (b ++ bs). cbn [stream_items].
  rewrite Eb, Ebs. split; [done|]. by rewrite (assoc_L (++)).
Qed.
End Items.

Lemma bool_codec : Codec (valid TBool) (parse_one_item TBool) (stream_one_item TBool).
Proof.
  split; cbn [valid parse_one_item stream_one_item val].
  - intros [] rest _; [exists [1]|exists [0]]; (split_and!; [done|repeat constructor; lia|]);
      unfold parse_bool, read; cbn [take drop app]; by rewrite take_0.
  - intros f v rest Hf E. split; [done|]. unfold parse_bool, read in E. res_inv; zbool;
      (eexists; split; [done|]); rewrite <- (take_drop 1 f) at 1; by f_equal.
Qed.

Lemma bytes_codec : Codec (valid TBytes) (parse_one_item TBytes) (stream_one_item TBytes).
Proof.
  split; cbn [valid parse_one_item stream_one_item val].
  - intros v rest [Hb Hl]. rewrite uint32_in by lia. cbn [mbind res_bind].
    destruct (parse_uint32_write (Z.of_nat (length v)) (v ++ rest)) as (s&->&Hs&Hp); [lia|].
    eexists; cbn [mbind res_bind]. split_and!; [done|by apply is_bytes_app|].
    unfold parse_bytes. rewrite <- (assoc_L (++)), Hp. cbn [mbind res_bind]. unfold read.
    rewrite Nat2Z.id, take_app_length, drop_app_length, Z.eqb_refl. done.
  - intros f v rest Hf E. unfold parse_bytes in E. apply bind_Ok in E as ([n f1]&E1&E).
    destruct (parse_uint32_inv _ _ _ Hf E1) as (Hn&Hf1&s&Es&->). unfold read in E. res_inv. zbool.
    split; [split; [auto with gold|lia]|].
    exists (s ++ take (Z.to_nat n) f1). rewrite <- (assoc_L (++)), take_drop. split; [|done].
    match goal with Hlen : Z.of_nat _ = n |- _ => rewrite Hlen end.
    rewrite uint32_in by lia. cbn [mbind res_bind]. by rewrite Es.
Qed.

Lemma hinted_codec h : Codec (valid (THinted h)) (parse_one_item (THinted h)) (stream_one_item (THinted h)).
Proof.
  split; cbn [valid parse_one_item stream_one_item val].
  - intros v rest (Hb&Hl&Hok). exists v. split_and!; [done|done|].
    unfold parse_size_hints, read. rewrite take_length_app, drop_length_app by done.
    rewrite bool_decide_true by done. cbn [assert_ check mbind res_bind]. by rewrite Hok.
  - intros f v rest Hf E. unfold parse_size_hints, read in E. res_inv. zbool.
    match goal with u : unit |- _ => destruct u end.
    split; [auto with gold|]. eexists; split; [done|]. by rewrite take_drop.
Qed.

Lemma program_codec : Codec (valid TProgram) (parse_one_item TProgram) (stream_one_item TProgram).
Proof.
  split; cbn [valid parse_one_item stream_one_item val].
  - intros v rest (Hb&Hl). exists v. split_and!; [done|done|].
    unfold program_parse. rewrite Hl. cbn [mbind res_bind]. unfold read.
    by rewrite take_app_length, drop_app_length.
  - intros f v rest Hf E. unfold program_parse, read in E. apply bind_Ok in E as (n&En&E).
    injection E as <- <-. destruct (serialized_length_prefix _ _ En) as [Hn Hp].
    split; [|eexists; split; [done|]; by rewrite take_drop].
    split; [auto with gold|]. intros rest. rewrite Hp, length_take. f_equal. lia.
Qed.

Lemma optional_codec t :
  Codec (valid t) (parse_one_item t) (stream_one_item t) →
  Codec (valid (TOptional t)) (parse_one_item (TOptional t)) (stream_one_item (TOptional t)).
Proof.
  intros Ht. split; cbn [valid parse_one_item stream_one_item val].
  - intros [v|] rest Hv.
    + destruct (codec_complete v rest Hv) as (b&->&Hb&Hp). cbn [mbind res_bind].
      exists ([1] ++ b). split_and!; [done|apply is_bytes_app; split; [repeat constructor; lia|done]|].
      unfold parse_optional, read. rewrite <- (assoc_L (++)).
      rewrite (take_length_app 1 [1]), (drop_length_app 1 [1]) by done. cbn [length].
      rewrite (bool_decide_true (1 = 1)%nat) by done. cbn [assert_ check mbind res_bind].
      rewrite (bool_decide_false ([1] = [0])), (bool_decide_true ([1] = [1])) by done. by rewrite Hp.
    + exists [0]. split_and!; [done|repeat constructor; lia|].
      unfold parse_optional, read. cbn [take drop app]. by rewrite take_0.
  - intros f v rest Hf E. unfold parse_optional, read in E.
    assert (Hd : is_bytes (drop 1 f)) by auto with gold. res_inv; zbool.
    + split; [done|]. eexists; split; [done|]. rewrite <- (take_drop 1 f) at 1. by f_equal.
    + match goal with E : parse_one_item _ _ = Ok _ |- _ => destruct (codec_canonical _ _ _ Hd E) as (Hv&b&Eb&Ef) end.
      split; [done|]. rewrite Eb. eexists; split; [done|].
      rewrite <- (assoc_L (++)), <- Ef, <- (take_drop 1 f) at 1. by f_equal.
Qed.

Lemma stream_list_eq t (l : list (val t)) :
  stream_one_item (TList t) l
  = (n ← uint32 (Z.of_nat (length l)); s ← write_uint32 n; bs ← stream_items t l; Ok (s ++ bs)).
Proof.
  change (stream_one_item (TList t) l) with
    (n ← uint32 (Z.of_nat (length l)); s ← write_uint32 n;
     for_fold (λ out element, b ← stream_one_item t element; Ok (out ++ b)) s l).
  destruct (uint32 _); cbn [mbind res_bind]; [|done|done].
  destruct (write_uint32 _); cbn [mbind res_bind]; [|done|done]. apply stream_items_fold.
Qed.

Lemma list_codec t :
  Codec (valid t) (parse_one_item t) (stream_one_item t) →
  Codec (valid (TList t)) (parse_one_item (TList t)) (stream_one_item (TList t)).
Proof.
  intros Ht. change (valid (TList t)) with (λ l : list (val t), Forall (valid t) l ∧ Z.of_nat (length l) < 2 ^ 32).
  change (parse_one_item (TList t)) with (parse_list (parse_one_item t)).
  split.
  - intros l rest [Hl Hn]. change (list (val t)) in l. destruct (items_complete t Ht l rest Hl) as (bs&Es&Hb&Hp).
    destruct (parse_uint32_write (Z.of_nat (length l)) (bs ++ rest)) as (s&Ew&Hs&Hps); [lia|].
    rewrite stream_list_eq, uint32_in by lia. cbn [mbind res_bind]. rewrite Ew, Es. cbn [mbind res_bind].
    eexists. split_and!; [done|by apply is_bytes_app|].
    unfold parse_list. rewrite <- (assoc_L (++)), Hps. cbn [mbind res_bind]. by rewrite Nat2Z.id, Hp.
  - intros f l rest Hf E. change (list (val t)) in l. unfold parse_list in E. apply bind_Ok in E as ([n f1]&E1&E).
    destruct (parse_uint32_inv _ _ _ Hf E1) as (Hn&Hf1&s&Es&->).
    destruct (items_canonical t Ht _ _ _ _ Hf1 E) as (Hl&Hlen&bs&Ebs&->).
    assert (En : Z.of_nat (length l) = n) by lia.
    split; [split; [done|lia]|]. rewrite stream_list_eq, En, uint32_in by lia.
    cbn [mbind res_bind]. rewrite Es, Ebs. eexists; split; [done|]. by rewrite (assoc_L (++)).
Qed.

Lemma pair_codec t ts :
  Codec (valid t) (parse_one_item t) (stream_one_item t) →
  Codec (valid ts) (parse_one_item ts) (stream_one_item ts) →
  Codec (valid (TPair t ts)) (parse_one_item (TPair t ts)) (stream_one_item (TPair t ts)).
Proof.
  intros Ht Hts. split; cbn [valid parse_one_item stream_one_item val].
  - intros [v vs] rest [Hv Hvs]. cbn [fst snd] in *.
    destruct (codec_complete vs rest Hvs) as (bs&->&Hbs&Hps).
    destruct (codec_complete v (bs ++ rest) Hv) as (b&->&Hb&Hp).
    eexists; cbn [mbind res_bind]. split_and!; [done|by apply is_bytes_app|].
    rewrite <- (assoc_L (++)), Hp. cbn [mbind res_bind]. by rewrite Hps.
  - intros f [v vs] rest Hf E. apply bind_Ok in E as ([v1 f1]&E1&E). apply bind_Ok in E as ([vs1 f2]&E2&E).
    injection E as -> -> ->. destruct (codec_canonical _ _ _ Hf E1) as (Hv&b&Eb&->).
    apply is_bytes_app in Hf as [_ Hf1]. destruct (codec_canonical _ _ _ Hf1 E2) as (Hvs&bs&Ebs&->).
    cbn [fst snd]. rewrite Eb, Ebs. split; [done|]. eexists; split; [done|]. by rewrite (assoc_L (++)).
Qed.

Lemma streamable_codec t : Codec (valid t) (parse_one_item t) (stream_one_item t).
Proof.
  induction t as [|p| | |n| |h| |t IH|t IH| |t IH ts IHts].
  - apply bool_codec.
  - apply StructStream_codec.
  - apply uint128_codec.
  - apply int512_codec.
  - apply sized_bytes_codec.
  - apply bytes_codec.
  - apply hinted_codec.
  - apply program_codec.
  - by apply optional_codec.
  - by apply list_codec.
  - split; cbn; [intros [] rest _; exists []; split_and!; [done|constructor|done]|].
    intros f [] rest _ E. injection E as <-. split; [done|]. by exists [].
  - by apply pair_codec.
Qed.

(** Serialization round-trips for every type: an object the constructor admits is
    streamed without error, and [from_bytes] reads the same object back. *)
Theorem streamable_roundtrip t v :
  valid t v → ∃ b, stream_one_item t v = Ok b ∧ is_bytes b ∧ from_bytes t b = Ok v.
Proof.
  intros Hv. destruct (codec_complete (Codec := streamable_codec t) v [] Hv) as (b&Eb&Hb&Hp).
  exists b. rewrite app_nil_r in Hp. unfold from_bytes. rewrite Hp. done.
Qed.

(** C12. Serialization is canonical: a byte string [from_bytes] accepts is the one the
    object it returns streams to, so objects with the same bytes are equal, and
    the hash of an object is the hash of the only byte string that parses to it. *)
Theorem streamable_canonical `{StdHash} t blob v :
  is_bytes blob → from_bytes t blob = Ok v →
  valid t v ∧ stream_one_item t v = Ok blob ∧ get_hash t v = Ok (std_hash blob)
  ∧ ∀ blob', is_bytes blob' → from_bytes t blob' = Ok v → blob' = blob.
Proof.
  intros Hb E.
  assert (Hc : ∀ b, is_bytes b → from_bytes t b = Ok v → valid t v ∧ stream_one_item t v = Ok b).
  { intros b Hb' E'. unfold from_bytes in E'. apply bind_Ok in E' as ([w f]&Ep&E'). res_inv. zbool. subst.
    destruct (codec_canonical (Codec := streamable_codec t) _ _ _ Hb' Ep) as (Hv&bs&Ebs&->).
    by rewrite app_nil_r. }
  destruct (Hc blob Hb E) as [Hv Es]. split_and!; [done|done|unfold get_hash; by rewrite Es|].
  intros blob' Hb' E'. destruct (Hc blob' Hb' E') as [_ Es']. congruence.
Qed.
End Streamable.

(** ** A concrete instance

    Every encoding is an element, and a program is a length byte followed by that
    many bytes. *)
Definition sample_serialized_length (f : bytes) : res nat :=
  match f with
  | [] => Raise ValueError
  | n :: _ => if bool_decide (S (Z.to_nat n) <= length f)%nat then Ok (S (Z.to_nat n)) else Raise ValueError
  end.

#[export] Program Instance sample_packages : Packages := {|
  from_bytes_ok _ _ := Ok tt;
  serialized_length := sample_serialized_length;
|}.
Next Obligation.
  unfold sample_serialized_length.
  intros [|x f] n E; [done|]. case_bool_decide as Hl; [|done]. injection E as <-. split; [done|].
  intros rest. cbn [take app]. rewrite bool_decide_true; [done|].
  cbn in Hl |- *. rewrite length_app, length_take. lia.
Qed.

Definition sample_type : ftype :=
  TPair (TInt PL) (TPair (TOptional (TSized 2)) (TPair (TList TBool) (TPair TBytes (TPair TProgram TUnit)))).
Definition sample_value : val sample_type := (70000, (Some [1; 255], ([true; false], ([9; 8; 7], ([2; 5; 6], tt))))).
Definition sample_blob : bytes := [0; 1; 17; 112; 1; 1; 255; 0; 0; 0; 2; 1; 0; 0; 0; 0; 3; 9; 8; 7; 2; 5; 6].

Example sample_stream : stream_one_item sample_type sample_value = Ok sample_blob.
Proof. reflexivity. Qed.

Lemma streamable_roundtrip_witness :
  ∃ b, stream_one_item sample_type sample_value = Ok b ∧ is_bytes b ∧ from_bytes sample_type b = Ok sample_value.
Proof.
  apply streamable_roundtrip. cbn. split_and!; try done; try lia; repeat constructor; unfold is_byte; lia.
Defined.

Lemma streamable_canonical_witness :
  valid sample_type sample_value ∧ stream_one_item sample_type sample_value = Ok sample_blob
  ∧ get_hash sample_type sample_value = Ok (std_hash sample_blob)
  ∧ ∀ blob', is_bytes blob' → from_bytes sample_type blob' = Ok sample_value → blob' = sample_blob.
Proof. apply streamable_canonical; [repeat constructor; unfold is_byte; lia|reflexivity]. Defined.
