(* ===== verification/BlockTypes.v ===== *)
(** * The parts of a block

    Models the data classes of [chia/types/blockchain_format] and [chia/types] a
    full block is made of, with the type of every field, the properties of
    [FullBlock], and the hashes the consensus code takes of them ([Streamable]
    serialization, then [std_hash]).

    One module per class: [t] has the source's fields in their order, [code] their
    types, and [to_val] reads a value as the sequence of its fields. *)
From S2P Require Import Prelude PyInt Consensus Streamable.

(** [uint8], [uint32], [uint64], [bytes32] *)
Notation U8 := (TInt PB).
Notation U32 := (TInt PL).
Notation U64 := (TInt PQ).
Notation B32 := (TSized 32).

Definition fields (ts : list ftype) : ftype := foldr TPair TUnit ts.

(** A data class: its fields as a value of its code, and back. *)
Class Fields (A : Type) := {
  code : ftype;
  to_val : A → val code;
  of_val : val code → A;
  of_to : ∀ a, of_val (to_val a) = a;
}.
Arguments code A {_}.

Definition map_opt `{Fields A} : option A → option (val (code A)) := fmap to_val.
Definition unmap_opt `{Fields A} : option (val (code A)) → option A := fmap of_val.
Definition map_list `{Fields A} : list A → list (val (code A)) := map to_val.
Definition unmap_list `{Fields A} : list (val (code A)) → list A := map of_val.

Lemma unmap_opt_map `{Fields A} (o : option A) : unmap_opt (map_opt o) = o.
Proof. destruct o; cbn; by rewrite ?of_to. Qed.
Lemma unmap_list_map `{Fields A} (l : list A) : unmap_list (map_list l) = l.
Proof. unfold unmap_list, map_list. induction l as [|x l IH]; cbn; [done|]. by rewrite of_to, IH. Qed.

Ltac fields_inverse :=
  intros []; match goal with |- ?l = ?r => let l' := eval hnf in l in change (l' = r) end;
  f_equal; first [reflexivity | apply of_to | apply unmap_opt_map | apply unmap_list_map].

Module ClassgroupElement.
Record t := { data : bytes }.
#[global] Instance F : Fields t.
Proof.
  refine {| code := fields [TSized 100];
            to_val := λ x, (data x, tt);
            of_val := λ '(a, _), {| data := a |} |}.
  fields_inverse.
Defined.
Definition from_bytes (d : bytes) : res t :=
  let d := if bool_decide (length d < 100)%nat then d ++ replicate (100 - length d) 0 else d in
  b ← sized_bytes_new 100 d; Ok {| data := b |}.
Definition get_default_element : res t := from_bytes [8].
End ClassgroupElement.

Module VDFInfo.
Record t := {
  challenge : bytes;
  number_of_iterations : Z;
  output : ClassgroupElement.t;
}.
#[global] Instance F : Fields t.
Proof.
  refine {| code := fields [B32; U64; code ClassgroupElement.t];
            to_val := λ x, (challenge x, (number_of_iterations x, (to_val (output x), tt)));
            of_val := λ '(a, (b, (c, _))), {| challenge := a; number_of_iterations := b; output := of_val c |} |}.
  fields_inverse.
Defined.
End VDFInfo.

Module VDFProof.
Record t := {
  witness_type : Z;
  witness : bytes;
  normalized_to_identity : bool;
}.
#[global] Instance F : Fields t.
Proof.
  refine {| code := fields [U8; TBytes; TBool];
            to_val := λ x, (witness_type x, (witness x, (normalized_to_identity x, tt)));
            of_val := λ '(a, (b, (c, _))), {| witness_type := a; witness := b; normalized_to_identity := c |} |}.
  fields_inverse.
Defined.
End VDFProof.

Module ProofOfSpace.
Record t := {
  challenge : bytes;
  pool_public_key : option bytes;
  pool_contract_puzzle_hash : option bytes;
  local_public_key : bytes;
  size : Z;
  proof : bytes;
  farmer_public_key : bytes;
}.
#[global] Instance F : Fields t.
Proof.
  refine {| code := fields [B32; TOptional (THinted G1Element); TOptional B32; THinted G1Element; U8; TBytes;
                            THinted G1Element];
            to_val := λ x, (challenge x, (pool_public_key x, (pool_contract_puzzle_hash x,
              (local_public_key x, (size x, (proof x, (farmer_public_key x, tt)))))));
            of_val := λ '(a, (b, (c, (d, (e, (f, (g, _))))))),
              {| challenge := a; pool_public_key := b; pool_contract_puzzle_hash := c; local_public_key := d;
                 size := e; proof := f; farmer_public_key := g |} |}.
  fields_inverse.
Defined.
End ProofOfSpace.

Module PoolTarget.
Record t := { puzzle_hash : bytes; max_height : Z }.
#[global] Instance F : Fields t.
Proof.
  refine {| code := fields [B32; U32];
            to_val := λ x, (puzzle_hash x, (max_height x, tt));
            of_val := λ '(a, (b, _)), {| puzzle_hash := a; max_height := b |} |}.
  fields_inverse.
Defined.
End PoolTarget.

(** [Coin] and [SubEpochSummary] are declared with the block record. *)
#[export] Instance Coin_F : Fields Coin.
Proof.
  refine {| code := fields [B32; B32; U64];
            to_val := λ x, (parent_coin_info x, (puzzle_hash x, (amount x, tt)));
            of_val := λ '(a, (b, (c, _))), {| parent_coin_info := a; puzzle_hash := b; amount := c |} |}.
  fields_inverse.
Defined.
#[export] Instance SubEpochSummary_F : Fields SubEpochSummary.
Proof.
  refine {| code := fields [B32; B32; U8; TOptional U64; TOptional U64];
            to_val := λ x, (prev_subepoch_summary_hash x, (reward_chain_hash x, (num_blocks_overflow x,
              (ses_new_difficulty x, (ses_new_sub_slot_iters x, tt)))));
            of_val := λ '(a, (b, (c, (d, (e, _))))),
              {| prev_subepoch_summary_hash := a; reward_chain_hash := b; num_blocks_overflow := c;
                 ses_new_difficulty := d; ses_new_sub_slot_iters := e |} |}.
  fields_inverse.
Defined.

(** ** Foliage *)
Module TransactionsInfo.
Record t := {
  generator_root : bytes;
  generator_refs_root : bytes;
  aggregated_signature : bytes;
  fees : Z;
  cost : Z;
  reward_claims_incorporated : list Coin;
}.
#[global] Instance F : Fields t.
Proof.
  refine {| code := fields [B32; B32; THinted G2Element; U64; U64; TList (code Coin)];
            to_val := λ x, (generator_root x, (generator_refs_root x, (aggregated_signature x,
              (fees x, (cost x, (map_list (reward_claims_incorporated x), tt))))));
            of_val := λ '(a, (b, (c, (d, (e, (f, _)))))),
              {| generator_root := a; generator_refs_root := b; aggregated_signature := c; fees := d; cost := e;
                 reward_claims_incorporated := unmap_list f |} |}.
  fields_inverse.
Defined.
End TransactionsInfo.

Module FoliageTransactionBlock.
Record t := {
  prev_transaction_block_hash : bytes;
  timestamp : Z;
  filter_hash : bytes;
  additions_root : bytes;
  removals_root : bytes;
  transactions_info_hash : bytes;
}.
#[global] Instance F : Fields t.
Proof.
  refine {| code := fields [B32; U64; B32; B32; B32; B32];
            to_val := λ x, (prev_transaction_block_hash x, (timestamp x, (filter_hash x,
              (additions_root x, (removals_root x, (transactions_info_hash x, tt))))));
            of_val := λ '(a, (b, (c, (d, (e, (f, _)))))),
              {| prev_transaction_block_hash := a; timestamp := b; filter_hash := c; additions_root := d;
                 removals_root := e; transactions_info_hash := f |} |}.
  fields_inverse.
Defined.
End FoliageTransactionBlock.

Module FoliageBlockData.
Record t := {
  unfinished_reward_block_hash : bytes;
  pool_target : PoolTarget.t;
  pool_signature : option bytes;
  farmer_reward_puzzle_hash : bytes;
  extension_data : bytes;
}.
#[global] Instance F : Fields t.
Proof.
  refine {| code := fields [B32; code PoolTarget.t; TOptional (THinted G2Element); B32; B32];
            to_val := λ x, (unfinished_reward_block_hash x, (to_val (pool_target x), (pool_signature x,
              (farmer_reward_puzzle_hash x, (extension_data x, tt)))));
            of_val := λ '(a, (b, (c, (d, (e, _))))),
              {| unfinished_reward_block_hash := a; pool_target := of_val b; pool_signature := c;
                 farmer_reward_puzzle_hash := d; extension_data := e |} |}.
  fields_inverse.
Defined.
End FoliageBlockData.

Module Foliage.
Record t := {
  prev_block_hash : bytes;
  reward_block_hash : bytes;
  foliage_block_data : FoliageBlockData.t;
  foliage_block_data_signature : bytes;
  foliage_transaction_block_hash : option bytes;
  foliage_transaction_block_signature : option bytes;
}.
#[global] Instance F : Fields t.
Proof.
  refine {| code := fields [B32; B32; code FoliageBlockData.t; THinted G2Element; TOptional B32;
                            TOptional (THinted G2Element)];
            to_val := λ x, (prev_block_hash x, (reward_block_hash x, (to_val (foliage_block_data x),
              (foliage_block_data_signature x, (foliage_transaction_block_hash x,
              (foliage_transaction_block_signature x, tt))))));
            of_val := λ '(a, (b, (c, (d, (e, (f, _)))))),
              {| prev_block_hash := a; reward_block_hash := b; foliage_block_data := of_val c;
                 foliage_block_data_signature := d; foliage_transaction_block_hash := e;
                 foliage_transaction_block_signature := f |} |}.
  fields_inverse.
Defined.
End Foliage.

(** ** Reward chain *)
Module RewardChainBlockUnfinished.
Record t := {
  total_iters : Z;
  signage_point_index : Z;
  pos_ss_cc_challenge_hash : bytes;
  proof_of_space : ProofOfSpace.t;
  challenge_chain_sp_vdf : option VDFInfo.t;
  challenge_chain_sp_signature : bytes;
  reward_chain_sp_vdf : option VDFInfo.t;
  reward_chain_sp_signature : bytes;
}.
#[global] Instance F : Fields t.
Proof.
  refine {| code := fields [TUint128; U8; B32; code ProofOfSpace.t; TOptional (code VDFInfo.t); THinted
                              G2Element; TOptional (code VDFInfo.t); THinted G2Element];
            to_val := λ x, (total_iters x, (signage_point_index x, (pos_ss_cc_challenge_hash x, (to_val (proof_of_space x),
              (map_opt (challenge_chain_sp_vdf x), (challenge_chain_sp_signature x, (map_opt
              (reward_chain_sp_vdf x), (reward_chain_sp_signature x, tt))))))));
            of_val := λ '(a0, (a1, (a2, (a3, (a4, (a5, (a6, (a7, _)))))))),
              {| total_iters := a0; signage_point_index := a1; pos_ss_cc_challenge_hash := a2; proof_of_space
                 := of_val a3; challenge_chain_sp_vdf := unmap_opt a4; challenge_chain_sp_signature := a5;
                 reward_chain_sp_vdf := unmap_opt a6; reward_chain_sp_signature := a7 |} |}.
  fields_inverse.
Defined.
End RewardChainBlockUnfinished.

Module RewardChainBlock.
Record t := {
  weight : Z;
  height : Z;
  total_iters : Z;
  signage_point_index : Z;
  pos_ss_cc_challenge_hash : bytes;
  proof_of_space : ProofOfSpace.t;
  challenge_chain_sp_vdf : option VDFInfo.t;
  challenge_chain_sp_signature : bytes;
  challenge_chain_ip_vdf : VDFInfo.t;
  reward_chain_sp_vdf : option VDFInfo.t;
  reward_chain_sp_signature : bytes;
  reward_chain_ip_vdf : VDFInfo.t;
  infused_challenge_chain_ip_vdf : option VDFInfo.t;
  is_transaction_block : bool;
}.
#[global] Instance F : Fields t.
Proof.
  refine {| code := fields [TUint128; U32; TUint128; U8; B32; code ProofOfSpace.t; TOptional (code
                              VDFInfo.t); THinted G2Element; code VDFInfo.t; TOptional (code VDFInfo.t);
                              THinted G2Element; code VDFInfo.t; TOptional (code VDFInfo.t); TBool];
            to_val := λ x, (weight x, (height x, (total_iters x, (signage_point_index x, (pos_ss_cc_challenge_hash x,
              (to_val (proof_of_space x), (map_opt (challenge_chain_sp_vdf x), (challenge_chain_sp_signature
              x, (to_val (challenge_chain_ip_vdf x), (map_opt (reward_chain_sp_vdf x),
              (reward_chain_sp_signature x, (to_val (reward_chain_ip_vdf x), (map_opt
              (infused_challenge_chain_ip_vdf x), (is_transaction_block x, tt))))))))))))));
            of_val := λ '(a0, (a1, (a2, (a3, (a4, (a5, (a6, (a7, (a8, (a9, (a10, (a11, (a12, (a13, _)))))))))))))),
              {| weight := a0; height := a1; total_iters := a2; signage_point_index := a3;
                 pos_ss_cc_challenge_hash := a4; proof_of_space := of_val a5; challenge_chain_sp_vdf :=
                 unmap_opt a6; challenge_chain_sp_signature := a7; challenge_chain_ip_vdf := of_val a8;
                 reward_chain_sp_vdf := unmap_opt a9; reward_chain_sp_signature := a10; reward_chain_ip_vdf :=
                 of_val a11; infused_challenge_chain_ip_vdf := unmap_opt a12; is_transaction_block := a13 |} |}.
  fields_inverse.
Defined.
Definition get_unfinished (b : t) : RewardChainBlockUnfinished.t := {|
  RewardChainBlockUnfinished.total_iters := total_iters b;
  RewardChainBlockUnfinished.signage_point_index := signage_point_index b;
  RewardChainBlockUnfinished.pos_ss_cc_challenge_hash := pos_ss_cc_challenge_hash b;
  RewardChainBlockUnfinished.proof_of_space := proof_of_space b;
  RewardChainBlockUnfinished.challenge_chain_sp_vdf := challenge_chain_sp_vdf b;
  RewardChainBlockUnfinished.challenge_chain_sp_signature := challenge_chain_sp_signature b;
  RewardChainBlockUnfinished.reward_chain_sp_vdf := reward_chain_sp_vdf b;
  RewardChainBlockUnfinished.reward_chain_sp_signature := reward_chain_sp_signature b |}.
End RewardChainBlock.

(** ** Sub slots *)
Module ChallengeBlockInfo.
Record t := {
  proof_of_space : ProofOfSpace.t;
  challenge_chain_sp_vdf : option VDFInfo.t;
  challenge_chain_sp_signature : bytes;
  challenge_chain_ip_vdf : VDFInfo.t;
}.
#[global] Instance F : Fields t.
Proof.
  refine {| code := fields [code ProofOfSpace.t; TOptional (code VDFInfo.t); THinted G2Element; code
                              VDFInfo.t];
            to_val := λ x, (to_val (proof_of_space x), (map_opt (challenge_chain_sp_vdf x), (challenge_chain_sp_signature
              x, (to_val (challenge_chain_ip_vdf x), tt))));
            of_val := λ '(a0, (a1, (a2, (a3, _)))),
              {| proof_of_space := of_val a0; challenge_chain_sp_vdf := unmap_opt a1;
                 challenge_chain_sp_signature := a2; challenge_chain_ip_vdf := of_val a3 |} |}.
  fields_inverse.
Defined.
End ChallengeBlockInfo.

Module ChallengeChainSubSlot.
Record t := {
  challenge_chain_end_of_slot_vdf : VDFInfo.t;
  infused_challenge_chain_sub_slot_hash : option bytes;
  subepoch_summary_hash : option bytes;
  new_sub_slot_iters : option Z;
  new_difficulty : option Z;
}.
#[global] Instance F : Fields t.
Proof.
  refine {| code := fields [code VDFInfo.t; TOptional B32; TOptional B32; TOptional U64; TOptional U64];
            to_val := λ x, (to_val (challenge_chain_end_of_slot_vdf x), (infused_challenge_chain_sub_slot_hash x,
              (subepoch_summary_hash x, (new_sub_slot_iters x, (new_difficulty x, tt)))));
            of_val := λ '(a0, (a1, (a2, (a3, (a4, _))))),
              {| challenge_chain_end_of_slot_vdf := of_val a0; infused_challenge_chain_sub_slot_hash := a1;
                 subepoch_summary_hash := a2; new_sub_slot_iters := a3; new_difficulty := a4 |} |}.
  fields_inverse.
Defined.
End ChallengeChainSubSlot.

Module InfusedChallengeChainSubSlot.
Record t := {
  infused_challenge_chain_end_of_slot_vdf : VDFInfo.t;
}.
#[global] Instance F : Fields t.
Proof.
  refine {| code := fields [code VDFInfo.t];
            to_val := λ x, (to_val (infused_challenge_chain_end_of_slot_vdf x), tt);
            of_val := λ '(a0, _),
              {| infused_challenge_chain_end_of_slot_vdf := of_val a0 |} |}.
  fields_inverse.
Defined.
End InfusedChallengeChainSubSlot.

Module RewardChainSubSlot.
Record t := {
  end_of_slot_vdf : VDFInfo.t;
  challenge_chain_sub_slot_hash : bytes;
  infused_challenge_chain_sub_slot_hash : option bytes;
  deficit : Z;
}.
#[global] Instance F : Fields t.
Proof.
  refine {| code := fields [code VDFInfo.t; B32; TOptional B32; U8];
            to_val := λ x, (to_val (end_of_slot_vdf x), (challenge_chain_sub_slot_hash x,
              (infused_challenge_chain_sub_slot_hash x, (deficit x, tt))));
            of_val := λ '(a0, (a1, (a2, (a3, _)))),
              {| end_of_slot_vdf := of_val a0; challenge_chain_sub_slot_hash := a1;
                 infused_challenge_chain_sub_slot_hash := a2; deficit := a3 |} |}.
  fields_inverse.
Defined.
End RewardChainSubSlot.

Module SubSlotProofs.
Record t := {
  challenge_chain_slot_proof : VDFProof.t;
  infused_challenge_chain_slot_proof : option VDFProof.t;
  reward_chain_slot_proof : VDFProof.t;
}.
#[global] Instance F : Fields t.
Proof.
  refine {| code := fields [code VDFProof.t; TOptional (code VDFProof.t); code VDFProof.t];
            to_val := λ x, (to_val (challenge_chain_slot_proof x), (map_opt (infused_challenge_chain_slot_proof x), (to_val
              (reward_chain_slot_proof x), tt)));
            of_val := λ '(a0, (a1, (a2, _))),
              {| challenge_chain_slot_proof := of_val a0; infused_challenge_chain_slot_proof := unmap_opt a1;
                 reward_chain_slot_proof := of_val a2 |} |}.
  fields_inverse.
Defined.
End SubSlotProofs.

Module EndOfSubSlotBundle.
Record t := {
  challenge_chain : ChallengeChainSubSlot.t;
  infused_challenge_chain : option InfusedChallengeChainSubSlot.t;
  reward_chain : RewardChainSubSlot.t;
  proofs : SubSlotProofs.t;
}.
#[global] Instance F : Fields t.
Proof.
  refine {| code := fields [code ChallengeChainSubSlot.t; TOptional (code InfusedChallengeChainSubSlot.t);
                              code RewardChainSubSlot.t; code SubSlotProofs.t];
            to_val := λ x, (to_val (challenge_chain x), (map_opt (infused_challenge_chain x), (to_val (reward_chain x),
              (to_val (proofs x), tt))));
            of_val := λ '(a0, (a1, (a2, (a3, _)))),
              {| challenge_chain := of_val a0; infused_challenge_chain := unmap_opt a1; reward_chain := of_val
                 a2; proofs := of_val a3 |} |}.
  fields_inverse.
Defined.
End EndOfSubSlotBundle.

(** ** The block *)
Module FullBlock.
Record t := {
  finished_sub_slots : list EndOfSubSlotBundle.t;
  reward_chain_block : RewardChainBlock.t;
  challenge_chain_sp_proof : option VDFProof.t;
  challenge_chain_ip_proof : VDFProof.t;
  reward_chain_sp_proof : option VDFProof.t;
  reward_chain_ip_proof : VDFProof.t;
  infused_challenge_chain_ip_proof : option VDFProof.t;
  foliage : Foliage.t;
  foliage_transaction_block : option FoliageTransactionBlock.t;
  transactions_info : option TransactionsInfo.t;
  transactions_generator : option bytes;
  transactions_generator_ref_list : list Z;
}.
#[global] Instance F : Fields t.
Proof.
  refine {| code := fields [TList (code EndOfSubSlotBundle.t); code RewardChainBlock.t; TOptional (code
                              VDFProof.t); code VDFProof.t; TOptional (code VDFProof.t); code VDFProof.t;
                              TOptional (code VDFProof.t); code Foliage.t; TOptional (code
                              FoliageTransactionBlock.t); TOptional (code TransactionsInfo.t); TOptional
                              TProgram; TList U32];
            to_val := λ x, (map_list (finished_sub_slots x), (to_val (reward_chain_block x), (map_opt
              (challenge_chain_sp_proof x), (to_val (challenge_chain_ip_proof x), (map_opt
              (reward_chain_sp_proof x), (to_val (reward_chain_ip_proof x), (map_opt
              (infused_challenge_chain_ip_proof x), (to_val (foliage x), (map_opt (foliage_transaction_block
              x), (map_opt (transactions_info x), (transactions_generator x, (transactions_generator_ref_list
              x, tt))))))))))));
            of_val := λ '(a0, (a1, (a2, (a3, (a4, (a5, (a6, (a7, (a8, (a9, (a10, (a11, _)))))))))))),
              {| finished_sub_slots := unmap_list a0; reward_chain_block := of_val a1;
                 challenge_chain_sp_proof := unmap_opt a2; challenge_chain_ip_proof := of_val a3;
                 reward_chain_sp_proof := unmap_opt a4; reward_chain_ip_proof := of_val a5;
                 infused_challenge_chain_ip_proof := unmap_opt a6; foliage := of_val a7;
                 foliage_transaction_block := unmap_opt a8; transactions_info := unmap_opt a9;
                 transactions_generator := a10; transactions_generator_ref_list := a11 |} |}.
  fields_inverse.
Defined.

Definition prev_header_hash (b : t) : bytes := Foliage.prev_block_hash (foliage b).
Definition height (b : t) : Z := RewardChainBlock.height (reward_chain_block b).
Definition weight (b : t) : Z := RewardChainBlock.weight (reward_chain_block b).
Definition total_iters (b : t) : Z := RewardChainBlock.total_iters (reward_chain_block b).
Definition is_transaction_block (b : t) : bool :=
  match foliage_transaction_block b with Some _ => true | None => false end.

(** [set(reward_claims_incorporated)]: the list without repetitions; the order a
    Python set is iterated in is left open by the users of this function. *)
Definition get_included_reward_coins (b : t) : res (list Coin) :=
  if negb (is_transaction_block b) then Ok []
  else
    ti ← of_opt AssertionError (transactions_info b);
    Ok (remove_dups (TransactionsInfo.reward_claims_incorporated ti)).

Definition compact (p : VDFProof.t) : bool :=
  (VDFProof.witness_type p =? 0) && VDFProof.normalized_to_identity p.
Definition compact_opt (p : option VDFProof.t) : bool :=
  match p with None => true | Some p => compact p end.
Definition is_fully_compactified (b : t) : bool :=
  forallb (λ s, compact (SubSlotProofs.challenge_chain_slot_proof (EndOfSubSlotBundle.proofs s))
                && compact_opt (SubSlotProofs.infused_challenge_chain_slot_proof (EndOfSubSlotBundle.proofs s)))
    (finished_sub_slots b)
  && compact_opt (challenge_chain_sp_proof b) && compact (challenge_chain_ip_proof b).
End FullBlock.

(** ** Unfinished blocks and headers *)
Module UnfinishedBlock.
Record t := {
  finished_sub_slots : list EndOfSubSlotBundle.t;
  reward_chain_block : RewardChainBlockUnfinished.t;
  challenge_chain_sp_proof : option VDFProof.t;
  reward_chain_sp_proof : option VDFProof.t;
  foliage : Foliage.t;
  foliage_transaction_block : option FoliageTransactionBlock.t;
  transactions_info : option TransactionsInfo.t;
  transactions_generator : option bytes;
  transactions_generator_ref_list : list Z;
}.
#[global] Instance F : Fields t.
Proof.
  refine {| code := fields [TList (code EndOfSubSlotBundle.t); code
                            RewardChainBlockUnfinished.t; TOptional (code VDFProof.t);
                            TOptional (code VDFProof.t); code Foliage.t; TOptional (code
                            FoliageTransactionBlock.t); TOptional (code TransactionsInfo.t);
                            TOptional TProgram; TList U32];
            to_val := λ x, (map_list (finished_sub_slots x), (to_val (reward_chain_block x), (map_opt
              (challenge_chain_sp_proof x), (map_opt (reward_chain_sp_proof x), (to_val
              (foliage x), (map_opt (foliage_transaction_block x), (map_opt (transactions_info
              x), (transactions_generator x, (transactions_generator_ref_list x, tt)))))))));
            of_val := λ '(a0, (a1, (a2, (a3, (a4, (a5, (a6, (a7, (a8, _))))))))),
              {| finished_sub_slots := unmap_list a0; reward_chain_block := of_val a1;
                 challenge_chain_sp_proof := unmap_opt a2; reward_chain_sp_proof := unmap_opt
                 a3; foliage := of_val a4; foliage_transaction_block := unmap_opt a5;
                 transactions_info := unmap_opt a6; transactions_generator := a7;
                 transactions_generator_ref_list := a8 |} |}.
  fields_inverse.
Defined.
Definition prev_header_hash (b : t) : bytes := Foliage.prev_block_hash (foliage b).
Definition is_transaction_block (b : t) : bool :=
  match Foliage.foliage_transaction_block_hash (foliage b) with Some _ => true | None => false end.
Definition total_iters (b : t) : Z := RewardChainBlockUnfinished.total_iters (reward_chain_block b).
End UnfinishedBlock.

Module HeaderBlock.
Record t := {
  finished_sub_slots : list EndOfSubSlotBundle.t;
  reward_chain_block : RewardChainBlock.t;
  challenge_chain_sp_proof : option VDFProof.t;
  challenge_chain_ip_proof : VDFProof.t;
  reward_chain_sp_proof : option VDFProof.t;
  reward_chain_ip_proof : VDFProof.t;
  infused_challenge_chain_ip_proof : option VDFProof.t;
  foliage : Foliage.t;
  foliage_transaction_block : option FoliageTransactionBlock.t;
  transactions_filter : bytes;
  transactions_info : option TransactionsInfo.t;
}.
#[global] Instance F : Fields t.
Proof.
  refine {| code := fields [TList (code EndOfSubSlotBundle.t); code RewardChainBlock.t;
                            TOptional (code VDFProof.t); code VDFProof.t; TOptional (code
                            VDFProof.t); code VDFProof.t; TOptional (code VDFProof.t); code
                            Foliage.t; TOptional (code FoliageTransactionBlock.t); TBytes;
                            TOptional (code TransactionsInfo.t)];
            to_val := λ x, (map_list (finished_sub_slots x), (to_val (reward_chain_block x), (map_opt
              (challenge_chain_sp_proof x), (to_val (challenge_chain_ip_proof x), (map_opt
              (reward_chain_sp_proof x), (to_val (reward_chain_ip_proof x), (map_opt
              (infused_challenge_chain_ip_proof x), (to_val (foliage x), (map_opt
              (foliage_transaction_block x), (transactions_filter x, (map_opt
              (transactions_info x), tt)))))))))));
            of_val := λ '(a0, (a1, (a2, (a3, (a4, (a5, (a6, (a7, (a8, (a9, (a10, _))))))))))),
              {| finished_sub_slots := unmap_list a0; reward_chain_block := of_val a1;
                 challenge_chain_sp_proof := unmap_opt a2; challenge_chain_ip_proof := of_val
                 a3; reward_chain_sp_proof := unmap_opt a4; reward_chain_ip_proof := of_val a5;
                 infused_challenge_chain_ip_proof := unmap_opt a6; foliage := of_val a7;
                 foliage_transaction_block := unmap_opt a8; transactions_filter := a9;
                 transactions_info := unmap_opt a10 |} |}.
  fields_inverse.
Defined.
Definition prev_header_hash (b : t) : bytes := Foliage.prev_block_hash (foliage b).
Definition height (b : t) : Z := RewardChainBlock.height (reward_chain_block b).
Definition weight (b : t) : Z := RewardChainBlock.weight (reward_chain_block b).
Definition total_iters (b : t) : Z := RewardChainBlock.total_iters (reward_chain_block b).
Definition is_transaction_block (b : t) : bool := RewardChainBlock.is_transaction_block (reward_chain_block b).
Definition first_in_sub_slot (b : t) : bool := match finished_sub_slots b with [] => false | _ => true end.
End HeaderBlock.

Module UnfinishedHeaderBlock.
Record t := {
  finished_sub_slots : list EndOfSubSlotBundle.t;
  reward_chain_block : RewardChainBlockUnfinished.t;
  challenge_chain_sp_proof : option VDFProof.t;
  reward_chain_sp_proof : option VDFProof.t;
  foliage : Foliage.t;
  foliage_transaction_block : option FoliageTransactionBlock.t;
  transactions_filter : bytes;
}.
#[global] Instance F : Fields t.
Proof.
  refine {| code := fields [TList (code EndOfSubSlotBundle.t); code
                            RewardChainBlockUnfinished.t; TOptional (code VDFProof.t);
                            TOptional (code VDFProof.t); code Foliage.t; TOptional (code
                            FoliageTransactionBlock.t); TBytes];
            to_val := λ x, (map_list (finished_sub_slots x), (to_val (reward_chain_block x), (map_opt
              (challenge_chain_sp_proof x), (map_opt (reward_chain_sp_proof x), (to_val
              (foliage x), (map_opt (foliage_transaction_block x), (transactions_filter x,
              tt)))))));
            of_val := λ '(a0, (a1, (a2, (a3, (a4, (a5, (a6, _))))))),
              {| finished_sub_slots := unmap_list a0; reward_chain_block := of_val a1;
                 challenge_chain_sp_proof := unmap_opt a2; reward_chain_sp_proof := unmap_opt
                 a3; foliage := of_val a4; foliage_transaction_block := unmap_opt a5;
                 transactions_filter := a6 |} |}.
  fields_inverse.
Defined.
Definition prev_header_hash (b : t) : bytes := Foliage.prev_block_hash (foliage b).
Definition total_iters (b : t) : Z := RewardChainBlockUnfinished.total_iters (reward_chain_block b).
End UnfinishedHeaderBlock.

(** ** Hashes *)
Section Hashes.
Context `{Packages} `{StdHash}.

(** [x.get_hash()] of a data class *)
Definition hash_of `{Fields A} (x : A) : res bytes := get_hash (code A) (to_val x).

(** [FullBlock.header_hash] *)
Definition block_header_hash (b : FullBlock.t) : res bytes := hash_of (FullBlock.foliage b).

(** [bytes(x)] and [cls.from_bytes(b)] *)
Definition to_bytes `{Fields A} (x : A) : res bytes := stream_one_item (code A) (to_val x).
Definition parse_class `{Fields A} (b : bytes) : res A := v ← from_bytes (code A) b; Ok (of_val v).

(** Every field of the object is of its declared type. *)
Definition well_formed `{Fields A} (x : A) : Prop := valid (code A) (to_val x).

Lemma class_roundtrip `{Fields A} (x : A) :
  well_formed x → ∃ b, to_bytes x = Ok b ∧ is_bytes b ∧ parse_class b = Ok x.
Proof.
  intros Hx. destruct (codec_complete (Codec := streamable_codec _) (to_val x) [] Hx) as (b&Eb&Hb&Hp).
  exists b. rewrite app_nil_r in Hp. unfold to_bytes, parse_class, from_bytes. rewrite Hp.
  cbn. by rewrite of_to.
Qed.

(** A full block survives the round trip to the bytes the database and the wire
    carry, and two blocks with different content have different bytes. *)
Theorem full_block_roundtrip (b : FullBlock.t) :
  well_formed b →
  ∃ blob, to_bytes b = Ok blob ∧ parse_class blob = Ok b
    ∧ ∀ b', well_formed b' → to_bytes b' = Ok blob → b' = b.
Proof.
  intros Hb. destruct (class_roundtrip b Hb) as (blob&E&_&Hp). exists blob. split_and!; [done|done|].
  intros b' Hb' E'. destruct (class_roundtrip b' Hb') as (blob'&E''&_&Hp'). congruence.
Qed.

(** The header hash commits to the foliage: two blocks with the same header hash
    have the same foliage (so the same parent, the same reward chain block hash and
    the same transaction block hash), unless two different serialized foliages
    collide. *)
Theorem header_hash_commits (b1 b2 : FullBlock.t) blob1 blob2 :
  well_formed (FullBlock.foliage b1) → well_formed (FullBlock.foliage b2) →
  to_bytes (FullBlock.foliage b1) = Ok blob1 → to_bytes (FullBlock.foliage b2) = Ok blob2 →
  block_header_hash b1 = block_header_hash b2 →
  FullBlock.foliage b1 = FullBlock.foliage b2 ∨ (blob1 ≠ blob2 ∧ std_hash blob1 = std_hash blob2).
Proof.
  intros H1 H2 E1 E2 Eh.
  destruct (class_roundtrip _ H1) as (c1&F1&_&P1), (class_roundtrip _ H2) as (c2&F2&_&P2).
  rewrite E1 in F1. rewrite E2 in F2. injection F1 as <-. injection F2 as <-.
  unfold block_header_hash, hash_of, get_hash in Eh. unfold to_bytes in E1, E2. rewrite E1, E2 in Eh.
  cbn in Eh. injection Eh as Eh.
  destruct (decide (blob1 = blob2)) as [->|Hne]; [left; congruence|by right].
Qed.
End Hashes.

(** ** A block to evaluate definitions on

    Height [h] and parent [prev]; [salt] tells siblings apart; a transaction block when
    [reward] lists the reward coins it includes. *)
Definition sample_vdf : VDFInfo.t := {|
  VDFInfo.challenge := replicate 32 4; VDFInfo.number_of_iterations := 1000;
  VDFInfo.output := {| ClassgroupElement.data := replicate 100 8 |} |}.
Definition sample_vdf_proof : VDFProof.t := {|
  VDFProof.witness_type := 0; VDFProof.witness := [1; 2; 3]; VDFProof.normalized_to_identity := true |}.
Definition sample_full_block (salt h : Z) (prev : bytes) (rewards : option (list Coin)) : FullBlock.t := {|
  FullBlock.finished_sub_slots := [];
  FullBlock.reward_chain_block := {|
    RewardChainBlock.weight := 7 * (h + 1); RewardChainBlock.height := h;
    RewardChainBlock.total_iters := 1000000 * (h + 1); RewardChainBlock.signage_point_index := 1;
    RewardChainBlock.pos_ss_cc_challenge_hash := replicate 32 5;
    RewardChainBlock.proof_of_space := {|
      ProofOfSpace.challenge := replicate 32 6; ProofOfSpace.pool_public_key := Some (replicate 48 1);
      ProofOfSpace.pool_contract_puzzle_hash := None; ProofOfSpace.local_public_key := replicate 48 2;
      ProofOfSpace.size := 32; ProofOfSpace.proof := [9; 9];
      ProofOfSpace.farmer_public_key := replicate 48 3 |};
    RewardChainBlock.challenge_chain_sp_vdf := Some sample_vdf;
    RewardChainBlock.challenge_chain_sp_signature := replicate 96 1;
    RewardChainBlock.challenge_chain_ip_vdf := sample_vdf;
    RewardChainBlock.reward_chain_sp_vdf := None;
    RewardChainBlock.reward_chain_sp_signature := replicate 96 2;
    RewardChainBlock.reward_chain_ip_vdf := sample_vdf;
    RewardChainBlock.infused_challenge_chain_ip_vdf := None;
    RewardChainBlock.is_transaction_block := match rewards with Some _ => true | None => false end |};
  FullBlock.challenge_chain_sp_proof := None; FullBlock.challenge_chain_ip_proof := sample_vdf_proof;
  FullBlock.reward_chain_sp_proof := None; FullBlock.reward_chain_ip_proof := sample_vdf_proof;
  FullBlock.infused_challenge_chain_ip_proof := None;
  FullBlock.foliage := {|
    Foliage.prev_block_hash := prev; Foliage.reward_block_hash := replicate 32 h;
    Foliage.foliage_block_data := {|
      FoliageBlockData.unfinished_reward_block_hash := replicate 32 salt;
      FoliageBlockData.pool_target := {| PoolTarget.puzzle_hash := replicate 32 7; PoolTarget.max_height := 0 |};
      FoliageBlockData.pool_signature := Some (replicate 96 5);
      FoliageBlockData.farmer_reward_puzzle_hash := replicate 32 8;
      FoliageBlockData.extension_data := replicate 32 0 |};
    Foliage.foliage_block_data_signature := replicate 96 6;
    Foliage.foliage_transaction_block_hash := None;
    Foliage.foliage_transaction_block_signature := None |};
  FullBlock.foliage_transaction_block := (λ _, {|
    FoliageTransactionBlock.prev_transaction_block_hash := replicate 32 1;
    FoliageTransactionBlock.timestamp := 100 * (h + 1);
    FoliageTransactionBlock.filter_hash := replicate 32 2; FoliageTransactionBlock.additions_root := replicate 32 3;
    FoliageTransactionBlock.removals_root := replicate 32 4;
    FoliageTransactionBlock.transactions_info_hash := replicate 32 5 |}) <$> rewards;
  FullBlock.transactions_info := (λ l, {|
    TransactionsInfo.generator_root := replicate 32 1; TransactionsInfo.generator_refs_root := replicate 32 2;
    TransactionsInfo.aggregated_signature := replicate 96 3; TransactionsInfo.fees := 0;
    TransactionsInfo.cost := 0; TransactionsInfo.reward_claims_incorporated := l |}) <$> rewards;
  FullBlock.transactions_generator := None;
  FullBlock.transactions_generator_ref_list := [] |}.

Definition sample_reward : Coin :=
  {| parent_coin_info := replicate 32 1; puzzle_hash := replicate 32 2; amount := 5 |}.

Lemma full_block_roundtrip_witness :
  ∃ blob, to_bytes (sample_full_block 1 5 (replicate 32 9) (Some [sample_reward])) = Ok blob
    ∧ parse_class blob = Ok (sample_full_block 1 5 (replicate 32 9) (Some [sample_reward]))
    ∧ ∀ b', well_formed b' → to_bytes b' = Ok blob →
        b' = sample_full_block 1 5 (replicate 32 9) (Some [sample_reward]).
Proof. apply full_block_roundtrip. apply validb_sound. vm_compute. reflexivity. Defined.

Definition sample_foliage_bytes (salt : Z) : bytes :=
  match to_bytes (FullBlock.foliage (sample_full_block salt 5 (replicate 32 9) None)) with Ok b => b | _ => [] end.

(** Two blocks that differ outside of the foliage have the same header hash. *)
Lemma header_hash_commits_witness :
  FullBlock.foliage (sample_full_block 1 5 (replicate 32 9) (Some []))
  = FullBlock.foliage (sample_full_block 1 5 (replicate 32 9) None)
  ∨ (sample_foliage_bytes 1 ≠ sample_foliage_bytes 1
     ∧ std_hash (sample_foliage_bytes 1) = std_hash (sample_foliage_bytes 1)).
Proof.
  apply (header_hash_commits (sample_full_block 1 5 (replicate 32 9) (Some []))
           (sample_full_block 1 5 (replicate 32 9) None)).
  all: try (apply validb_sound; vm_compute; reflexivity).
  all: vm_compute; reflexivity.
Defined.
