(* ===== verification/BlockToRecord.v ===== *)
(** * From blocks to block records

    Models [chia/consensus/make_sub_epoch_summary.py],
    [chia/consensus/get_block_challenge.py] and
    [chia/consensus/full_block_to_block_record.py]: the challenge a block answers,
    the summary that closes a sub-epoch, and the record kept of a validated block.
    Blocks are full blocks; the loops along [prev_hash] take the fuel of the section. *)
From S2P Require Import Prelude PyInt PyFloat Consensus ChainView Difficulty Streamable BlockTypes.

(** [Union[UnfinishedHeaderBlock, UnfinishedBlock, FullBlock, HeaderBlock]]: what
    [get_block_challenge.py] reads of a block *)
Record HeaderView := {
  hv_finished_sub_slots : list EndOfSubSlotBundle.t;
  hv_prev_header_hash : bytes;
  hv_total_iters : Z;
}.
Definition full_block_view (b : FullBlock.t) : HeaderView := {|
  hv_finished_sub_slots := FullBlock.finished_sub_slots b;
  hv_prev_header_hash := FullBlock.prev_header_hash b;
  hv_total_iters := FullBlock.total_iters b |}.
Definition unfinished_header_view (b : UnfinishedHeaderBlock.t) : HeaderView := {|
  hv_finished_sub_slots := UnfinishedHeaderBlock.finished_sub_slots b;
  hv_prev_header_hash := UnfinishedHeaderBlock.prev_header_hash b;
  hv_total_iters := UnfinishedHeaderBlock.total_iters b |}.

Section BlockToRecord.
Context `{Packages} `{StdHash} (constants : ConsensusConstants) (blocks : BlockchainInterface) (fuel : nat).

(** ** [make_sub_epoch_summary.py] *)

(** [while curr.sub_epoch_summary_included is None] *)
Definition find_summary_body (curr : BlockRecord) : res (BlockRecord + BlockRecord * SubEpochSummary) :=
  match sub_epoch_summary_included curr with
  | None => p ← block_record blocks (prev_hash curr); Ok (inl p)
  | Some ses => Ok (inr (curr, ses))
  end.

Definition make_sub_epoch_summary (blocks_included_height : Z) (prev_prev_block : BlockRecord)
    (new_difficulty new_sub_slot_iters : option Z) : res SubEpochSummary :=
  assert_ (height prev_prev_block =? blocks_included_height - 2) ;;
  n ← pydiv (blocks_included_height + MAX_SUB_SLOT_BLOCKS constants) (SUB_EPOCH_BLOCKS constants);
  if n <=? 1 then
    Ok {| prev_subepoch_summary_hash := GENESIS_CHALLENGE constants;
          reward_chain_hash := GENESIS_CHALLENGE constants;
          num_blocks_overflow := 0; ses_new_difficulty := None; ses_new_sub_slot_iters := None |}
  else
    '(curr, ses) ← loop fuel find_summary_body prev_prev_block;
    slots ← of_opt AssertionError (finished_reward_slot_hashes curr);
    prev_ses ← hash_of ses;
    last ← py_index slots (-1);
    m ← pymod (height curr) (SUB_EPOCH_BLOCKS constants);
    ov ← uint8 m;
    Ok {| prev_subepoch_summary_hash := prev_ses; reward_chain_hash := last;
          num_blocks_overflow := ov; ses_new_difficulty := new_difficulty;
          ses_new_sub_slot_iters := new_sub_slot_iters |}.

(** The scan of [next_sub_epoch_summary] for a summary with a new difficulty since
    the start of the sub-epoch *)
Definition new_difficulty_included (b : BlockRecord) : bool :=
  match sub_epoch_summary_included b with
  | Some ses => negb (is_None (ses_new_difficulty ses))
  | None => false
  end.
Definition epoch_scan_body (s : BlockRecord * bool) : res (BlockRecord * bool + bool) :=
  let '(curr, can_finish_epoch) := s in
  let can_finish_epoch := can_finish_epoch && negb (new_difficulty_included curr) in
  m ← pymod (height curr) (SUB_EPOCH_BLOCKS constants);
  if 0 <? m then p ← block_record blocks (prev_hash curr); Ok (inl (p, can_finish_epoch))
  else Ok (inr can_finish_epoch).

(** [can_finish_soon]: what a timelord may include within the next sub slots *)
Definition can_finish_epoch_soon (prev_b : BlockRecord) : res bool :=
  h2 ← uint32 (height prev_b + 2);
  first ← height_can_be_first_in_epoch constants h2;
  if (first : bool) then
    m ← pymod (height prev_b + 2) (SUB_EPOCH_BLOCKS constants);
    if 1 <? m then loop fuel epoch_scan_body (prev_b, true) else Ok true
  else
    h3 ← uint32 (height prev_b + MAX_SUB_SLOT_BLOCKS constants + 2);
    height_can_be_first_in_epoch constants h3.

Definition next_sub_epoch_summary (required_iters : Z) (block : FullBlock.t) (can_finish_soon : bool) :
    res (option SubEpochSummary) :=
  let signage_point_index := RewardChainBlock.signage_point_index (FullBlock.reward_chain_block block) in
  let slots := FullBlock.finished_sub_slots block in
  prev_b ← try_block_record blocks (FullBlock.prev_header_hash block);
  match prev_b with
  | None => Ok None
  | Some prev_b =>
      if height prev_b =? 0 then Ok None
      else if match slots with
              | s :: _ => negb (is_None (ChallengeChainSubSlot.new_difficulty (EndOfSubSlotBundle.challenge_chain s)))
              | [] => false end then Ok None
      else
        '(sub_slot_iters, _) ←
          get_next_sub_slot_iters_and_difficulty constants blocks fuel (bool_decide (0 < length slots)%nat) (Some prev_b);
        overflow ← is_overflow_block constants signage_point_index;
        if match slots with
           | s :: _ => negb (is_None (ChallengeChainSubSlot.subepoch_summary_hash (EndOfSubSlotBundle.challenge_chain s)))
           | [] => false end then Ok None
        else
          '(deficit, can_finish_se, can_finish_epoch) ←
            (if can_finish_soon then
               c ← can_finish_epoch_soon prev_b; Ok (0, true, c)
             else
               h1 ← uint32 (height prev_b + 1);
               deficit ← calculate_deficit constants h1 (Some prev_b) overflow (Z.of_nat (length slots));
               '(se, epoch) ← can_finish_sub_and_full_epoch constants blocks fuel h1
                                (Some (header_hash prev_b)) deficit false;
               Ok (deficit, se, epoch));
          if negb can_finish_se then Ok None
          else
            '(next_difficulty, next_sub_slot_iters) ←
              (if (can_finish_epoch : bool) then
                 sp_iters ← calculate_sp_iters constants sub_slot_iters signage_point_index;
                 ip_iters ← calculate_ip_iters constants sub_slot_iters signage_point_index required_iters;
                 h1 ← uint32 (height prev_b + 1);
                 pp ← block_record blocks (prev_hash prev_b);
                 diff ← uint64 (weight prev_b - weight pp);
                 spti ← uint128 (FullBlock.total_iters block - ip_iters + sp_iters
                                 - (if (overflow : bool) then sub_slot_iters else 0));
                 d ← get_next_difficulty constants blocks fuel (FullBlock.prev_header_hash block) h1 diff deficit
                       false true spti true;
                 i ← get_next_sub_slot_iters constants blocks fuel (FullBlock.prev_header_hash block) h1
                       sub_slot_iters deficit false true spti true;
                 Ok (Some d, Some i)
               else Ok (None, None));
            h2 ← uint32 (height prev_b + 2);
            ses ← make_sub_epoch_summary h2 prev_b next_difficulty next_sub_slot_iters;
            Ok (Some ses)
  end.

(** ** [get_block_challenge.py] *)
Definition overflow_close (sub_slot_iters : Z) (block : HeaderView) (curr : BlockRecord) : bool :=
  overflow curr && (hv_total_iters block - total_iters curr <? sub_slot_iters / 2).

Definition final_eos_body (sub_slot_iters : Z) (block : HeaderView)
    (s : BlockRecord * bool) : res (BlockRecord * bool + BlockRecord * bool) :=
  let '(curr, seen_overflow_block) := s in
  if negb (first_in_sub_slot curr) && negb (height curr =? 0) then
    let seen := seen_overflow_block || overflow_close sub_slot_iters block curr in
    p ← block_record blocks (prev_hash curr);
    Ok (inl (p, seen))
  else Ok (inr (curr, seen_overflow_block)).

Definition final_eos_is_already_included (header_block : HeaderView) (sub_slot_iters : Z) : res bool :=
  if bool_decide (0 < length (hv_finished_sub_slots header_block))%nat then Ok false
  else
    curr ← block_record blocks (hv_prev_header_hash header_block);
    '(curr, seen) ← loop fuel (final_eos_body sub_slot_iters header_block)
                      (curr, overflow_close sub_slot_iters header_block curr);
    Ok (first_in_sub_slot curr && seen).

Definition challenge_body (challenges_to_look_for : nat)
    (s : BlockRecord * list bytes) : res (BlockRecord * list bytes + list bytes) :=
  let '(curr, reversed_challenge_hashes) := s in
  if bool_decide (length reversed_challenge_hashes < challenges_to_look_for)%nat then
    reversed_challenge_hashes ←
      (if first_in_sub_slot curr then
         l ← of_opt AssertionError (finished_challenge_slot_hashes curr);
         Ok (reversed_challenge_hashes ++ rev l)
       else Ok reversed_challenge_hashes);
    if height curr =? 0 then
      l ← of_opt AssertionError (finished_challenge_slot_hashes curr);
      assert_ (bool_decide (0 < length l)%nat) ;;
      Ok (inr reversed_challenge_hashes)
    else
      p ← block_record blocks (prev_hash curr);
      Ok (inl (p, reversed_challenge_hashes))
  else Ok (inr reversed_challenge_hashes).

Definition get_block_challenge (header_block : HeaderView)
    (genesis_block overflow skip_overflow_last_ss_validation : bool) : res bytes :=
  let slots := hv_finished_sub_slots header_block in
  if bool_decide (0 < length slots)%nat then
    last ← py_index slots (-1);
    let cc := EndOfSubSlotBundle.challenge_chain last in
    if overflow && negb skip_overflow_last_ss_validation then
      Ok (VDFInfo.challenge (ChallengeChainSubSlot.challenge_chain_end_of_slot_vdf cc))
    else hash_of cc
  else if genesis_block then Ok (GENESIS_CHALLENGE constants)
  else
    let challenges_to_look_for := if overflow && negb skip_overflow_last_ss_validation then 2%nat else 1%nat in
    curr ← block_record blocks (hv_prev_header_hash header_block);
    hashes ← loop fuel (challenge_body challenges_to_look_for) (curr, []);
    py_index hashes (Z.of_nat challenges_to_look_for - 1).

(** ** [full_block_to_block_record.py] *)
Definition header_block_to_sub_block_record (required_iters : Z) (block : FullBlock.t) (sub_slot_iters : Z)
    (overflow : bool) (deficit prev_transaction_block_height : Z) (ses : option SubEpochSummary) : res BlockRecord :=
  let rcb := FullBlock.reward_chain_block block in
  let slots := FullBlock.finished_sub_slots block in
  let cbi := {|
    ChallengeBlockInfo.proof_of_space := RewardChainBlock.proof_of_space rcb;
    ChallengeBlockInfo.challenge_chain_sp_vdf := RewardChainBlock.challenge_chain_sp_vdf rcb;
    ChallengeBlockInfo.challenge_chain_sp_signature := RewardChainBlock.challenge_chain_sp_signature rcb;
    ChallengeBlockInfo.challenge_chain_ip_vdf := RewardChainBlock.challenge_chain_ip_vdf rcb |} in
  '(ch, rh, ih) ←
    (if bool_decide (0 < length slots)%nat then
       ch ← for_each (λ s, hash_of (EndOfSubSlotBundle.challenge_chain s)) slots;
       rh ← for_each (λ s, hash_of (EndOfSubSlotBundle.reward_chain s)) slots;
       ih ← for_each hash_of (omap EndOfSubSlotBundle.infused_challenge_chain slots);
       Ok (Some ch, Some rh, Some ih)
     else if FullBlock.height block =? 0 then
       Ok (Some [GENESIS_CHALLENGE constants], Some [GENESIS_CHALLENGE constants], None)
     else Ok (None, None, None));
  hh ← block_header_hash block;
  rcb_hash ← hash_of rcb;
  cbi_hash ← hash_of cbi;
  Ok {|
    header_hash := hh;
    prev_hash := FullBlock.prev_header_hash block;
    height := FullBlock.height block;
    weight := FullBlock.weight block;
    total_iters := FullBlock.total_iters block;
    signage_point_index := RewardChainBlock.signage_point_index rcb;
    challenge_vdf_output := ClassgroupElement.data (VDFInfo.output (RewardChainBlock.challenge_chain_ip_vdf rcb));
    infused_challenge_vdf_output :=
      (λ v, ClassgroupElement.data (VDFInfo.output v)) <$> RewardChainBlock.infused_challenge_chain_ip_vdf rcb;
    reward_infusion_new_challenge := rcb_hash;
    challenge_block_info_hash := cbi_hash;
    Consensus.sub_slot_iters := sub_slot_iters;
    pool_puzzle_hash := PoolTarget.puzzle_hash (FoliageBlockData.pool_target
                          (Foliage.foliage_block_data (FullBlock.foliage block)));
    farmer_puzzle_hash := FoliageBlockData.farmer_reward_puzzle_hash
                            (Foliage.foliage_block_data (FullBlock.foliage block));
    Consensus.required_iters := required_iters;
    Consensus.deficit := deficit;
    Consensus.overflow := overflow;
    Consensus.prev_transaction_block_height := prev_transaction_block_height;
    timestamp := FoliageTransactionBlock.timestamp <$> FullBlock.foliage_transaction_block block;
    prev_transaction_block_hash :=
      FoliageTransactionBlock.prev_transaction_block_hash <$> FullBlock.foliage_transaction_block block;
    fees := TransactionsInfo.fees <$> FullBlock.transactions_info block;
    reward_claims_incorporated :=
      TransactionsInfo.reward_claims_incorporated <$> FullBlock.transactions_info block;
    finished_challenge_slot_hashes := ch;
    finished_infused_challenge_slot_hashes := ih;
    finished_reward_slot_hashes := rh;
    sub_epoch_summary_included := ses;
    farmer_public_key := ProofOfSpace.farmer_public_key (RewardChainBlock.proof_of_space rcb) |}.

(** [while curr is not None and not curr.is_transaction_block] *)
Definition prev_tx_body (curr : option BlockRecord) : res (option BlockRecord + Z) :=
  match curr with
  | Some b =>
      if is_transaction_block b then Ok (inr (height b))
      else p ← try_block_record blocks (prev_hash b); Ok (inl p)
  | None => Ok (inr 0)
  end.

Definition block_to_block_record (required_iters : Z) (block : FullBlock.t) : res BlockRecord :=
  let slots := FullBlock.finished_sub_slots block in
  prev_b ← try_block_record blocks (FullBlock.prev_header_hash block);
  (if 0 <? FullBlock.height block then assert_ (negb (is_None prev_b)) else Ok tt) ;;
  '(sub_slot_iters, _) ←
    get_next_sub_slot_iters_and_difficulty constants blocks fuel (bool_decide (0 < length slots)%nat) prev_b;
  overflow ← is_overflow_block constants (RewardChainBlock.signage_point_index (FullBlock.reward_chain_block block));
  deficit ← calculate_deficit constants (FullBlock.height block) prev_b overflow (Z.of_nat (length slots));
  let found_ses_hash := foldl (λ found s,
    match ChallengeChainSubSlot.subepoch_summary_hash (EndOfSubSlotBundle.challenge_chain s) with
    | Some h => Some h | None => found end) None slots in
  ses ←
    match found_ses_hash, slots with
    | Some found, s0 :: _ =>
        if bool_decide (found = []) then Ok None
        else
          pb ← of_opt AssertionError prev_b;
          pp ← block_record blocks (prev_hash pb);
          ses ← make_sub_epoch_summary (FullBlock.height block) pp
                  (ChallengeChainSubSlot.new_difficulty (EndOfSubSlotBundle.challenge_chain s0))
                  (ChallengeChainSubSlot.new_sub_slot_iters (EndOfSubSlotBundle.challenge_chain s0));
          h ← hash_of ses;
          assert_ (bool_decide (h = found)) ;;
          Ok (Some ses)
    | _, _ => Ok None
    end;
  curr ← try_block_record blocks (FullBlock.prev_header_hash block);
  prev_tx ← loop fuel prev_tx_body curr;
  header_block_to_sub_block_record required_iters block sub_slot_iters overflow deficit prev_tx ses.
End BlockToRecord.

(** ** The challenge of a block *)

(** [history blocks b l]: [l] are the records from [b] back to genesis, which has a
    challenge. *)
Inductive history (blocks : BlockchainInterface) : BlockRecord → list BlockRecord → Prop :=
  | history_genesis b c cs :
      height b = 0 → finished_challenge_slot_hashes b = Some (c :: cs) → history blocks b [b]
  | history_step b p l :
      height b ≠ 0 → block_record blocks (prev_hash b) = Ok p → history blocks p l →
      history blocks b (b :: l).

(** The challenges of the sub slots a chain has finished, newest first *)
Definition slot_challenges (b : BlockRecord) : list bytes :=
  match finished_challenge_slot_hashes b with Some l => rev l | None => [] end.
Definition challenge_log (l : list BlockRecord) : list bytes := l ≫= slot_challenges.

Section Challenge.
Context (blocks : BlockchainInterface).

Lemma challenge_body_eq k b acc :
  challenge_body blocks k (b, acc)
  = if bool_decide (length acc < k)%nat then
      if height b =? 0 then
        l ← of_opt AssertionError (finished_challenge_slot_hashes b);
        assert_ (bool_decide (0 < length l)%nat) ;;
        Ok (inr (acc ++ slot_challenges b))
      else p ← block_record blocks (prev_hash b); Ok (inl (p, acc ++ slot_challenges b))
    else Ok (inr acc).
Proof.
  unfold challenge_body, first_in_sub_slot, slot_challenges.
  destruct (finished_challenge_slot_hashes b); cbn [of_opt mbind res_bind]; [done|]. by rewrite app_nil_r.
Qed.

Lemma challenge_loop fuel k b l acc :
  history blocks b l → (length l < fuel)%nat →
  ∃ r, loop fuel (challenge_body blocks k) (b, acc) = Ok r
    ∧ ∀ i, (i < k)%nat → r !! i = (acc ++ challenge_log l) !! i.
Proof.
  intros Hl. revert fuel acc. induction Hl as [b c cs Hb Hc|b p l Hb Hp Hl IH]; intros [|fuel] acc Hf;
    cbn [length] in Hf; try lia; cbn [loop]; rewrite challenge_body_eq; (case_bool_decide as Hk;
      [|cbn [mbind res_bind]; eexists; split; [done|]; intros i Hi; by rewrite lookup_app_l by lia]).
  - rewrite (proj2 (Z.eqb_eq _ _) Hb), Hc. cbn [of_opt mbind res_bind length].
    rewrite bool_decide_true by lia. cbn [assert_ check mbind res_bind]. eexists; split; [done|].
    intros i _. unfold challenge_log. cbn [mbind list_bind]. by rewrite app_nil_r.
  - rewrite (proj2 (Z.eqb_neq _ _) Hb), Hp.
    cbn [mbind res_bind]. destruct (IH fuel (acc ++ slot_challenges b)) as (r&Er&Hr); [lia|].
    exists r. split; [exact Er|]. intros i Hi. rewrite (Hr i Hi). unfold challenge_log.
    rewrite bind_cons. by rewrite (assoc_L (++)).
Qed.
End Challenge.

(** A block without finished sub slots of its own answers the most recent challenge
    of its chain, or the one before when it overflows into a sub slot whose end is
    already included: [get_block_challenge] reads it from the challenges of all its
    ancestors, newest first, and raises [IndexError] when there are too few. *)
Theorem get_block_challenge_spec `{Packages} `{StdHash} (constants : ConsensusConstants)
    (blocks : BlockchainInterface) (fuel : nat) (block : HeaderView) (prev_b : BlockRecord)
    (l : list BlockRecord) (overflow skip : bool) :
  hv_finished_sub_slots block = [] →
  block_record blocks (hv_prev_header_hash block) = Ok prev_b →
  history blocks prev_b l → (length l < fuel)%nat →
  get_block_challenge constants blocks fuel block false overflow skip
  = of_opt IndexError (challenge_log l !! (if overflow && negb skip then 1 else 0)%nat).
Proof.
  intros Hs Hp Hl Hf. unfold get_block_challenge. rewrite Hs, Hp. cbn [length bool_decide mbind res_bind].
  set (k := if overflow && negb skip then 2%nat else 1%nat).
  destruct (challenge_loop blocks fuel k prev_b l [] Hl Hf) as (r&Er&Hr).
  rewrite bool_decide_false by lia. rewrite Er. cbn [mbind res_bind app] in Hr |- *.
  unfold py_index. clear Er. revert Hr. subst k. destruct (overflow && negb skip); intros Hr;
    [change (of_opt IndexError (r !! 1%nat) = of_opt IndexError (challenge_log l !! 1%nat))
    |change (of_opt IndexError (r !! 0%nat) = of_opt IndexError (challenge_log l !! 0%nat))];
    by rewrite Hr by lia.
Qed.

(** ** Sub-epoch summaries *)

(** The closest ancestor (the block itself included) that carries a summary *)
Inductive nearest_summary (blocks : BlockchainInterface) : nat → BlockRecord → BlockRecord → SubEpochSummary → Prop :=
  | nearest_here b ses : sub_epoch_summary_included b = Some ses → nearest_summary blocks 0 b b ses
  | nearest_up n b p a ses :
      sub_epoch_summary_included b = None → block_record blocks (prev_hash b) = Ok p →
      nearest_summary blocks n p a ses → nearest_summary blocks (S n) b a ses.

Lemma find_summary_eq blocks b :
  find_summary_body blocks b
  = match sub_epoch_summary_included b with
    | None => p ← block_record blocks (prev_hash b); Ok (inl p)
    | Some ses => Ok (inr (b, ses))
    end.
Proof. reflexivity. Qed.

Lemma find_summary_loop blocks fuel n b a ses :
  nearest_summary blocks n b a ses → (n < fuel)%nat → loop fuel (find_summary_body blocks) b = Ok (a, ses).
Proof.
  intros Hn. revert fuel. induction Hn as [b ses E|n b p a ses E Hp Hn IH]; intros [|fuel] Hf; try lia;
    cbn [loop]; rewrite (find_summary_eq blocks b), E; cbn [mbind res_bind]; [done|].
  rewrite Hp. cbn [mbind res_bind]. apply IH. lia.
Qed.

(** Summaries form a chain: from the second sub-epoch on, the summary made for a
    height holds the hash of the closest earlier summary, the last reward chain hash
    of the block that included it and how far that block was past the sub-epoch's
    boundary; the first one starts from the genesis challenge. *)
Theorem make_sub_epoch_summary_spec `{Packages} `{StdHash} (constants : ConsensusConstants)
    (blocks : BlockchainInterface) (fuel n : nat) (h : Z) (pp a : BlockRecord) (ses : SubEpochSummary)
    (slots : list bytes) (last sh : bytes) (nd ni : option Z) :
  0 < SUB_EPOCH_BLOCKS constants → height pp = h - 2 →
  nearest_summary blocks n pp a ses → (n < fuel)%nat →
  finished_reward_slot_hashes a = Some (slots ++ [last]) → hash_of ses = Ok sh →
  height a mod SUB_EPOCH_BLOCKS constants < 256 →
  make_sub_epoch_summary constants blocks fuel h pp nd ni
  = Ok (if (h + MAX_SUB_SLOT_BLOCKS constants) / SUB_EPOCH_BLOCKS constants <=? 1 then
          {| prev_subepoch_summary_hash := GENESIS_CHALLENGE constants;
             reward_chain_hash := GENESIS_CHALLENGE constants;
             num_blocks_overflow := 0; ses_new_difficulty := None; ses_new_sub_slot_iters := None |}
        else
          {| prev_subepoch_summary_hash := sh; reward_chain_hash := last;
             num_blocks_overflow := height a mod SUB_EPOCH_BLOCKS constants;
             ses_new_difficulty := nd; ses_new_sub_slot_iters := ni |}).
Proof.
  intros HS Hh Hn Hf Hslots Hsh Hov. unfold make_sub_epoch_summary.
  rewrite (proj2 (Z.eqb_eq _ _) Hh). cbn [assert_ check mbind res_bind].
  unfold pydiv, pymod. rewrite (proj2 (Z.eqb_neq (SUB_EPOCH_BLOCKS constants) 0)) by lia. cbn [mbind res_bind].
  destruct (_ <=? 1); [done|]. rewrite (find_summary_loop _ _ _ _ _ _ Hn Hf). cbn [mbind res_bind].
  rewrite Hslots, Hsh. cbn [of_opt mbind res_bind].
  assert (El : py_index (slots ++ [last]) (-1) = Ok last).
  { unfold py_index. rewrite length_app. cbn [length]. change (-1 <? 0) with true. cbn iota.
    rewrite (proj2 (Z.ltb_ge _ _)) by lia. replace (Z.to_nat _) with (length slots) by lia.
    rewrite lookup_app_r by lia. by rewrite Nat.sub_diag. }
  rewrite El. cbn [mbind res_bind].
  rewrite uint8_in by (pose proof (Z.mod_pos_bound (height a) (SUB_EPOCH_BLOCKS constants)); lia). done.
Qed.

(** ** The record of a block *)

(** The height of the closest transaction block at or before a block, 0 when the
    chain has none *)
Inductive nearest_tx (blocks : BlockchainInterface) : option BlockRecord → Z → Prop :=
  | nearest_tx_none : nearest_tx blocks None 0
  | nearest_tx_here b : is_transaction_block b = true → nearest_tx blocks (Some b) (height b)
  | nearest_tx_up b p v :
      is_transaction_block b = false → try_block_record blocks (prev_hash b) = Ok p →
      nearest_tx blocks p v → nearest_tx blocks (Some b) v.

Lemma prev_tx_loop blocks fuel curr v :
  loop fuel (prev_tx_body blocks) curr = Ok v → nearest_tx blocks curr v.
Proof.
  revert curr. induction fuel as [|fuel IH]; intros curr E; cbn [loop] in E; [done|].
  destruct curr as [b|]; cbn [prev_tx_body] in E.
  - destruct (is_transaction_block b) eqn:Et; cbn [mbind res_bind] in E.
    + injection E as <-. by constructor.
    + destruct (try_block_record blocks (prev_hash b)) as [p|e|] eqn:Ep; cbn [mbind res_bind] in E; [|done|done].
      econstructor; [done|done|]. by apply IH.
  - injection E as <-. constructor.
Qed.

Section RecordFacts.
Context `{Packages} `{StdHash} (constants : ConsensusConstants) (blocks : BlockchainInterface) (fuel : nat).

Lemma header_record_fields ri block ssi ov d pt ses r :
  header_block_to_sub_block_record constants ri block ssi ov d pt ses = Ok r →
  block_header_hash block = Ok (header_hash r) ∧ prev_hash r = FullBlock.prev_header_hash block
  ∧ height r = FullBlock.height block ∧ weight r = FullBlock.weight block
  ∧ total_iters r = FullBlock.total_iters block
  ∧ prev_transaction_block_height r = pt ∧ sub_epoch_summary_included r = ses
  ∧ is_transaction_block r = FullBlock.is_transaction_block block
  ∧ first_in_sub_slot r
    = bool_decide (0 < length (FullBlock.finished_sub_slots block))%nat || (FullBlock.height block =? 0).
Proof.
  unfold header_block_to_sub_block_record. intros E. apply bind_Ok in E as ([[ch rh] ih]&Es&E).
  revert Es. res_inv. intros Es. cbn. unfold is_transaction_block, FullBlock.is_transaction_block, first_in_sub_slot. cbn.
  split_and!; try done; try by destruct (FullBlock.foliage_transaction_block block).
  case_bool_decide; [by res_inv|]. destruct (FullBlock.height block =? 0); injection Es as <- <- <-; done.
Qed.

Lemma header_record_iters ri block ssi ov d pt ses r :
  header_block_to_sub_block_record constants ri block ssi ov d pt ses = Ok r →
  sub_slot_iters r = ssi ∧ required_iters r = ri ∧ overflow r = ov
  ∧ signage_point_index r = RewardChainBlock.signage_point_index (FullBlock.reward_chain_block block)
  ∧ timestamp r = FoliageTransactionBlock.timestamp <$> FullBlock.foliage_transaction_block block
  ∧ prev_transaction_block_hash r
    = FoliageTransactionBlock.prev_transaction_block_hash <$> FullBlock.foliage_transaction_block block.
Proof.
  unfold header_block_to_sub_block_record. intros E. apply bind_Ok in E as ([[ch rh] ih]&_&E). by res_inv.
Qed.

Lemma record_inv ri block r :
  block_to_block_record constants blocks fuel ri block = Ok r →
  ∃ prev_b ssi ov d pt ses,
    header_block_to_sub_block_record constants ri block ssi ov d pt ses = Ok r
    ∧ try_block_record blocks (FullBlock.prev_header_hash block) = Ok prev_b ∧ nearest_tx blocks prev_b pt
    ∧ (0 < FullBlock.height block → prev_b ≠ None)
    ∧ ∀ s, ses = Some s → ∃ b h,
        b ∈ FullBlock.finished_sub_slots block
        ∧ ChallengeChainSubSlot.subepoch_summary_hash (EndOfSubSlotBundle.challenge_chain b) = Some h
        ∧ hash_of s = Ok h.
Proof.
  unfold block_to_block_record. intros E.
  apply bind_Ok in E as (prev_b&Ep&E). apply bind_Ok in E as (u&Ea&E).
  apply bind_Ok in E as ([ssi diff]&_&E). apply bind_Ok in E as (ov&_&E). apply bind_Ok in E as (d&_&E).
  apply bind_Ok in E as (ses&Es&E). apply bind_Ok in E as (curr&Ec&E). apply bind_Ok in E as (pt&El&E).
  rewrite Ep in Ec. injection Ec as <-.
  exists prev_b, ssi, ov, d, pt, ses. split_and!; [done|done|by eapply prev_tx_loop| |].
  { intros Hh. rewrite (proj2 (Z.ltb_lt _ _)) in Ea by lia. apply assert_Ok in Ea. by destruct prev_b. }
  intros s ->. match type of Es with match ?f with _ => _ end = _ => destruct f as [found|] eqn:Ef; [|done] end.
  assert (Hfound : ∃ b, b ∈ FullBlock.finished_sub_slots block ∧
    ChallengeChainSubSlot.subepoch_summary_hash (EndOfSubSlotBundle.challenge_chain b) = Some found).
  { revert Ef. clear. assert (Hgen : ∀ l acc, foldl (λ found s,
      match ChallengeChainSubSlot.subepoch_summary_hash (EndOfSubSlotBundle.challenge_chain s) with
      | Some h => Some h | None => found end) acc l = Some found → acc = Some found ∨ ∃ b, b ∈ l ∧
      ChallengeChainSubSlot.subepoch_summary_hash (EndOfSubSlotBundle.challenge_chain b) = Some found).
    { induction l as [|x l IH]; intros acc E; cbn in E; [by left|].
      apply IH in E as [E|(b&Hb&E)]; [|right; exists b; set_solver].
      destruct (ChallengeChainSubSlot.subepoch_summary_hash _) as [h|] eqn:Ex; [|by left].
      right. exists x. split; [set_solver|congruence]. }
    intros E. apply Hgen in E as [E|E]; done. }
  destruct Hfound as (b&Hb&Efound). exists b, found. split_and!; [done|done|].
  clear -Es. destruct (FullBlock.finished_sub_slots block); [done|].
  destruct (bool_decide _); [done|]. res_inv. zbool. by subst.
Qed.
End RecordFacts.

(** The record of a block says what the block says: its hash, parent, height, weight
    and iterations; whether it is a transaction block and the first of a sub slot; the
    height of the last transaction block before it; and a sub-epoch summary it
    carries hashes to the value one of its sub slots committed to. *)
Theorem record_of_block `{Packages} `{StdHash} (constants : ConsensusConstants) (blocks : BlockchainInterface)
    (fuel : nat) (ri : Z) (block : FullBlock.t) (r : BlockRecord) :
  block_to_block_record constants blocks fuel ri block = Ok r →
  block_header_hash block = Ok (header_hash r) ∧ prev_hash r = FullBlock.prev_header_hash block
  ∧ height r = FullBlock.height block ∧ weight r = FullBlock.weight block
  ∧ total_iters r = FullBlock.total_iters block
  ∧ is_transaction_block r = FullBlock.is_transaction_block block
  ∧ first_in_sub_slot r
    = bool_decide (0 < length (FullBlock.finished_sub_slots block))%nat || (FullBlock.height block =? 0)
  ∧ (∃ prev_b, try_block_record blocks (FullBlock.prev_header_hash block) = Ok prev_b
       ∧ nearest_tx blocks prev_b (prev_transaction_block_height r))
  ∧ ∀ s, sub_epoch_summary_included r = Some s → ∃ b h,
      b ∈ FullBlock.finished_sub_slots block
      ∧ ChallengeChainSubSlot.subepoch_summary_hash (EndOfSubSlotBundle.challenge_chain b) = Some h
      ∧ hash_of s = Ok h.
Proof.
  intros E. destruct (record_inv _ _ _ _ _ _ E) as (prev_b&ssi&ov&d&pt&ses&Er&Hp&Hn&_&Hses).
  destruct (header_record_fields _ _ _ _ _ _ _ _ _ Er) as (E1&E2&E3&E4&E5&E6&E7&E8&E9).
  split_and!; try done; [exists prev_b; by rewrite E6|]. intros s. rewrite E7. apply Hses.
Qed.

(** ** On concrete chains *)
Example sample_history : ∃ l, history sample_blocks (sample_block 0 9) l ∧ length l = 10%nat
  ∧ challenge_log l = [[5; 8]; [5; 4]; [5; 0]].
Proof.
  exists ((λ h, sample_block 0 h) <$> rev (seqZ 0 10)). split_and!; [|reflexivity|reflexivity].
  assert (Hs : ∀ h l, history sample_blocks (sample_block 0 (h - 1)) l → h ∈ seqZ 1 9 →
    block_record sample_blocks (prev_hash (sample_block 0 h)) = Ok (sample_block 0 (h - 1)) →
    history sample_blocks (sample_block 0 h) (sample_block 0 h :: l)).
  { intros h l Hl Hh E. apply elem_of_seqZ in Hh. econstructor; [cbn; lia|exact E|exact Hl]. }
  change (rev (seqZ 0 10)) with [9; 8; 7; 6; 5; 4; 3; 2; 1; 0]. cbn [fmap list_fmap].
  do 9 (apply Hs; [|apply elem_of_seqZ; lia|vm_compute; reflexivity]).
  eapply history_genesis; reflexivity.
Qed.

Lemma get_block_challenge_spec_witness :
  ∃ l, get_block_challenge small_constants sample_blocks 20
         (full_block_view (sample_full_block 1 10 [0; 9] None)) false true false
       = of_opt IndexError (challenge_log l !! 1%nat)
     ∧ challenge_log l = [[5; 8]; [5; 4]; [5; 0]].
Proof.
  destruct sample_history as (l&Hl&Hlen&Hlog). exists l. split; [|exact Hlog].
  apply (get_block_challenge_spec small_constants sample_blocks 20 (full_block_view (sample_full_block 1 10 [0; 9] None))
           (sample_block 0 9) l true false); [reflexivity|vm_compute; reflexivity|exact Hl|].
  rewrite Hlen. lia.
Defined.

(** A block that includes a summary, and its child *)
Definition sample_ses : SubEpochSummary := {|
  prev_subepoch_summary_hash := replicate 32 1; reward_chain_hash := replicate 32 2; num_blocks_overflow := 0;
  ses_new_difficulty := None; ses_new_sub_slot_iters := None |}.
Definition with_summary (b : BlockRecord) : BlockRecord := {|
  header_hash := header_hash b; prev_hash := prev_hash b; height := height b; weight := weight b;
  total_iters := total_iters b; signage_point_index := signage_point_index b;
  challenge_vdf_output := challenge_vdf_output b; infused_challenge_vdf_output := infused_challenge_vdf_output b;
  reward_infusion_new_challenge := reward_infusion_new_challenge b;
  challenge_block_info_hash := challenge_block_info_hash b; sub_slot_iters := sub_slot_iters b;
  pool_puzzle_hash := pool_puzzle_hash b; farmer_puzzle_hash := farmer_puzzle_hash b;
  required_iters := required_iters b; deficit := deficit b; overflow := overflow b;
  prev_transaction_block_height := prev_transaction_block_height b; timestamp := timestamp b;
  prev_transaction_block_hash := prev_transaction_block_hash b; fees := fees b;
  reward_claims_incorporated := reward_claims_incorporated b;
  finished_challenge_slot_hashes := finished_challenge_slot_hashes b;
  finished_infused_challenge_slot_hashes := finished_infused_challenge_slot_hashes b;
  finished_reward_slot_hashes := finished_reward_slot_hashes b; sub_epoch_summary_included := Some sample_ses;
  farmer_public_key := farmer_public_key b |}.
Definition ses_blocks : BlockchainInterface := BlockCache_interface {|
  bc_block_records := {[ [0; 8] := with_summary (sample_block 0 8); [0; 9] := sample_block 0 9 ]};
  bc_height_to_hash := ∅ |}.
Definition sample_ses_hash : bytes := match hash_of sample_ses with Ok h => h | _ => [] end.

Lemma make_sub_epoch_summary_spec_witness :
  make_sub_epoch_summary small_constants ses_blocks 20 11 (sample_block 0 9) (Some 5) None
  = Ok {| prev_subepoch_summary_hash := sample_ses_hash; reward_chain_hash := [6; 8];
          num_blocks_overflow := 3; ses_new_difficulty := Some 5; ses_new_sub_slot_iters := None |}.
Proof.
  apply (make_sub_epoch_summary_spec small_constants ses_blocks 20 1 11 (sample_block 0 9)
           (with_summary (sample_block 0 8)) sample_ses [] [6; 8] sample_ses_hash); try reflexivity; try (cbn; lia).
  eapply nearest_up; [reflexivity|vm_compute; reflexivity|]. by constructor.
Defined.

Definition sample_record_of : BlockRecord :=
  match block_to_block_record small_constants sample_blocks 20 1000 (sample_full_block 1 10 [0; 9] None) with
  | Ok r => r | _ => sample_block 0 0 end.

Lemma record_of_block_witness :
  block_to_block_record small_constants sample_blocks 20 1000 (sample_full_block 1 10 [0; 9] None) = Ok sample_record_of
  ∧ prev_transaction_block_height sample_record_of = 9
  ∧ ∃ prev_b, try_block_record sample_blocks [0; 9] = Ok prev_b
      ∧ nearest_tx sample_blocks prev_b (prev_transaction_block_height sample_record_of).
Proof.
  assert (E : block_to_block_record small_constants sample_blocks 20 1000 (sample_full_block 1 10 [0; 9] None)
              = Ok sample_record_of) by (vm_compute; reflexivity).
  split_and!; [exact E|vm_compute; reflexivity|].
  exact (proj1 (proj2 (proj2 (proj2 (proj2 (proj2 (proj2 (proj2 (record_of_block _ _ _ _ _ _ E))))))))).
Defined.
