(* ===== verification/BlockStore.v ===== *)
(** * The block store

    Models [chia/full_node/block_store.py]: the tables of full blocks and of block
    records, the cache of blocks in front of them, the flag of the peak, and the
    queries, among them the walk that rebuilds the path from genesis to the peak when
    a node starts.  And [chia/full_node/hint_store.py].

    A table is a finite map from the hexadecimal text of the primary key to a row;
    blocks and records are stored as their serialization.  SQL fixes no order for the
    rows of a query: the theorems do not depend on it. *)
From S2P Require Import Prelude PyInt Consensus Coins CoinStore ChainView Streamable BlockTypes.

(** The serialization of a block record; classgroup elements are their data. *)
#[export] Instance BlockRecord_F : Fields BlockRecord.
Proof.
  refine {| code := fields
    [B32; B32; U32; TUint128; TUint128; U8; TSized 100; TOptional (TSized 100); B32; B32; U64; B32; B32; U64; U8;
     TBool; U32; TOptional U64; TOptional B32; TOptional U64; TOptional (TList (code Coin)); TOptional (TList B32);
     TOptional (TList B32); TOptional (TList B32); TOptional (code SubEpochSummary); THinted G1Element];
    to_val := λ b, (header_hash b, (prev_hash b, (height b, (weight b, (total_iters b, (signage_point_index b,
      (challenge_vdf_output b, (infused_challenge_vdf_output b, (reward_infusion_new_challenge b,
      (challenge_block_info_hash b, (sub_slot_iters b, (pool_puzzle_hash b, (farmer_puzzle_hash b,
      (required_iters b, (deficit b, (overflow b, (prev_transaction_block_height b, (timestamp b,
      (prev_transaction_block_hash b, (fees b, (map_list <$> reward_claims_incorporated b,
      (finished_challenge_slot_hashes b, (finished_infused_challenge_slot_hashes b,
      (finished_reward_slot_hashes b, (map_opt (sub_epoch_summary_included b),
      (farmer_public_key b, tt))))))))))))))))))))))))));
    of_val := λ '(a0, (a1, (a2, (a3, (a4, (a5, (a6, (a7, (a8, (a9, (a10, (a11, (a12, (a13, (a14, (a15, (a16,
      (a17, (a18, (a19, (a20, (a21, (a22, (a23, (a24, (a25, _)))))))))))))))))))))))))),
      {| header_hash := a0; prev_hash := a1; height := a2; weight := a3; total_iters := a4;
         signage_point_index := a5; challenge_vdf_output := a6; infused_challenge_vdf_output := a7;
         reward_infusion_new_challenge := a8; challenge_block_info_hash := a9; sub_slot_iters := a10;
         pool_puzzle_hash := a11; farmer_puzzle_hash := a12; required_iters := a13; deficit := a14;
         overflow := a15; prev_transaction_block_height := a16; timestamp := a17;
         prev_transaction_block_hash := a18; fees := a19; reward_claims_incorporated := unmap_list <$> a20;
         finished_challenge_slot_hashes := a21; finished_infused_challenge_slot_hashes := a22;
         finished_reward_slot_hashes := a23; sub_epoch_summary_included := unmap_opt a24;
         farmer_public_key := a25 |} |}.
  intros []; match goal with |- ?l = ?r => let l' := eval hnf in l in change (l' = r) end.
  f_equal; [|apply unmap_opt_map]. destruct reward_claims_incorporated; [|done].
  cbn. f_equal. apply unmap_list_map.
Defined.

(** ** Tables *)
Record BlockRow := {
  b_height : Z;
  b_is_block : Z;
  b_is_fully_compactified : Z;
  b_block : bytes;
}.
Record RecordRow := {
  r_prev_hash : text;
  r_height : Z;
  r_block : bytes;
  r_sub_epoch_summary : option bytes;
  r_is_peak : Z;
  r_is_block : Z;
  r_farmer_public_key : bytes;
}.

Record BlockStore := {
  full_blocks : gmap text BlockRow;
  block_records : gmap text RecordRow;
  block_cache : LRUCache bytes FullBlock.t;
}.
Definition set_full_blocks (t : gmap text BlockRow) (s : BlockStore) : BlockStore :=
  {| full_blocks := t; block_records := block_records s; block_cache := block_cache s |}.
Definition set_block_records (t : gmap text RecordRow) (s : BlockStore) : BlockStore :=
  {| full_blocks := full_blocks s; block_records := t; block_cache := block_cache s |}.
Definition set_block_cache (c : LRUCache bytes FullBlock.t) (s : BlockStore) : BlockStore :=
  {| full_blocks := full_blocks s; block_records := block_records s; block_cache := c |}.

Definition block_store_create (fb : gmap text BlockRow) (br : gmap text RecordRow) : BlockStore :=
  {| full_blocks := fb; block_records := br; block_cache := mk_LRUCache [] 1000 |}.

Section Store.
Context `{Packages}.

Definition add_full_block (hh : bytes) (block : FullBlock.t) (br : BlockRecord) : ST BlockStore unit :=
  st_modify (λ s, set_block_cache (lru_put hh block (block_cache s)) s) ;;
  bb ← st_res (to_bytes block);
  st_modify (λ s, set_full_blocks (<[hex hh := {|
    b_height := FullBlock.height block;
    b_is_block := int_of_bool (FullBlock.is_transaction_block block);
    b_is_fully_compactified := int_of_bool (FullBlock.is_fully_compactified block);
    b_block := bb |}]> (full_blocks s)) s) ;;
  rb ← st_res (to_bytes br);
  ses ← st_res match sub_epoch_summary_included br with
               | None => Ok None | Some x => b ← to_bytes x; Ok (Some b) end;
  st_modify (λ s, set_block_records (<[hex hh := {|
    r_prev_hash := hex (FullBlock.prev_header_hash block);
    r_height := FullBlock.height block;
    r_block := rb;
    r_sub_epoch_summary := ses;
    r_is_peak := 0;
    r_is_block := int_of_bool (FullBlock.is_transaction_block block);
    r_farmer_public_key := farmer_public_key br |}]> (block_records s)) s).

Definition rollback_cache_block (hh : bytes) : ST BlockStore unit := λ s,
  match lru_remove hh (block_cache s) with
  | Ok c => (Ok tt, set_block_cache c s)
  | Raise KeyError => (Ok tt, s)
  | Raise e => (Raise e, s)
  | OutOfFuel => (OutOfFuel, s)
  end.

(** The lookup of the cache moves the entry to its end. *)
Definition cached_block (hh : bytes) : ST BlockStore (option FullBlock.t) := λ s,
  let '(r, c) := lru_get hh (block_cache s) in (Ok r, set_block_cache c s).

Definition get_full_block (hh : bytes) : ST BlockStore (option FullBlock.t) :=
  cached ← cached_block hh;
  match cached with
  | Some b => mret (Some b)
  | None =>
      s ← st_get;
      match full_blocks s !! hex hh with
      | Some row =>
          block ← st_res (parse_class (b_block row));
          st_modify (λ s, set_block_cache (lru_put hh block (block_cache s)) s) ;;
          mret (Some block)
      | None => mret None
      end
  end.

Definition get_full_block_bytes (hh : bytes) : ST BlockStore (option bytes) :=
  cached ← cached_block hh;
  match cached with
  | Some b => bb ← st_res (to_bytes b); mret (Some bb)
  | None => s ← st_get; mret (b_block <$> full_blocks s !! hex hh)
  end.

Definition get_full_blocks_at (heights : list Z) (s : BlockStore) : res (list FullBlock.t) :=
  if bool_decide (heights = []) then Ok []
  else for_each (λ kr, parse_class (b_block kr.2))
         (map_to_list (filter (λ kr, b_height kr.2 ∈ heights) (full_blocks s))).

Definition get_block_record (hh : bytes) (s : BlockStore) : res (option BlockRecord) :=
  match block_records s !! hex hh with
  | Some row => b ← parse_class (r_block row); Ok (Some b)
  | None => Ok None
  end.

(** The result in the order of the argument, from the dictionary of the rows found *)
Definition in_order {A} (hashes : list bytes) (all_blocks : dict bytes A) : res (list A) :=
  for_each (λ hh, of_opt ValueError (dget hh all_blocks)) hashes.

Definition get_block_records_by_hash (hashes : list bytes) (s : BlockStore) : res (list BlockRecord) :=
  if bool_decide (hashes = []) then Ok []
  else
    all_blocks ← for_fold (λ d (kr : text * RecordRow),
        b ← parse_class (r_block kr.2); Ok (dset (header_hash b) b d))
      ([] : dict bytes BlockRecord)
      (map_to_list (filter (λ kr, kr.1 ∈ hex <$> hashes) (block_records s)));
    in_order hashes all_blocks.

Definition get_blocks_by_hash (hashes : list bytes) : ST BlockStore (list FullBlock.t) :=
  if bool_decide (hashes = []) then mret []
  else
    s ← st_get;
    found ← st_each (λ kr : text * BlockRow,
        hh ← st_res (fromhex kr.1);
        block ← st_res (parse_class (b_block kr.2));
        st_modify (λ s, set_block_cache (lru_put hh block (block_cache s)) s) ;;
        mret (hh, block))
      (map_to_list (filter (λ kr, kr.1 ∈ hex <$> hashes) (full_blocks s)));
    st_res (in_order hashes (foldl (λ d '(hh, b), dset hh b d) [] found)).

Definition records_where_height (p : Z → bool) (s : BlockStore) : res (dict bytes BlockRecord) :=
  for_fold (λ d (kr : text * RecordRow),
      hh ← fromhex kr.1; b ← parse_class (r_block kr.2); Ok (dset hh b d))
    [] (map_to_list (filter (λ kr, p (r_height kr.2) = true) (block_records s))).

Definition get_block_records_in_range (start stop : Z) : BlockStore → res (dict bytes BlockRecord) :=
  records_where_height (λ h, (start <=? h) && (h <=? stop)).

(** [SELECT * from block_records WHERE is_peak = 1], the first row *)
Definition peak_row (s : BlockStore) : option (text * RecordRow) :=
  head (map_to_list (filter (λ kr, r_is_peak kr.2 = 1) (block_records s))).

Definition get_block_records_close_to_peak (blocks_n : Z) (s : BlockStore) :
    res (dict bytes BlockRecord * option bytes) :=
  match peak_row s with
  | None => Ok ([], None)
  | Some (k, row) =>
      ret ← records_where_height (λ h, r_height row - blocks_n <=? h) s;
      hh ← fromhex k;
      Ok (ret, Some hh)
  end.

(** The three dictionaries [get_peak_height_dicts] builds from the rows *)
Record Links := {
  hash_to_prev_hash : gmap bytes bytes;
  hash_to_height : gmap bytes Z;
  hash_to_summary : gmap bytes SubEpochSummary;
}.
Definition add_link (l : Links) (kr : text * RecordRow) : res Links :=
  hh ← fromhex kr.1;
  prev ← fromhex (r_prev_hash kr.2);
  summary ← match r_sub_epoch_summary kr.2 with
            | Some b => x ← parse_class b; Ok (<[hh := x]> (hash_to_summary l))
            | None => Ok (hash_to_summary l)
            end;
  Ok {| hash_to_prev_hash := <[hh := prev]> (hash_to_prev_hash l);
        hash_to_height := <[hh := r_height kr.2]> (hash_to_height l);
        hash_to_summary := summary |}.

Definition walk_body (l : Links) (s : bytes * Z * gmap Z bytes * gmap Z SubEpochSummary) :
    res (bytes * Z * gmap Z bytes * gmap Z SubEpochSummary + gmap Z bytes * gmap Z SubEpochSummary) :=
  let '(curr_header_hash, curr_height, height_to_hash, sub_epoch_summaries) := s in
  let height_to_hash := <[curr_height := curr_header_hash]> height_to_hash in
  let sub_epoch_summaries :=
    match hash_to_summary l !! curr_header_hash with
    | Some x => <[curr_height := x]> sub_epoch_summaries
    | None => sub_epoch_summaries
    end in
  if curr_height =? 0 then Ok (inr (height_to_hash, sub_epoch_summaries))
  else
    p ← of_opt KeyError (hash_to_prev_hash l !! curr_header_hash);
    h ← of_opt KeyError (hash_to_height l !! p);
    Ok (inl (p, h, height_to_hash, sub_epoch_summaries)).

Definition get_peak_height_dicts (fuel : nat) (s : BlockStore) : res (gmap Z bytes * gmap Z SubEpochSummary) :=
  match peak_row s with
  | None => Ok (∅, ∅)
  | Some (k, _) =>
      peak ← fromhex k;
      l ← for_fold add_link {| hash_to_prev_hash := ∅; hash_to_height := ∅; hash_to_summary := ∅ |}
            (map_to_list (block_records s));
      h ← of_opt KeyError (hash_to_height l !! peak);
      loop fuel (walk_body l) (peak, h, ∅, ∅)
  end.

Definition with_peak (p : Z) (row : RecordRow) : RecordRow :=
  {| r_prev_hash := r_prev_hash row; r_height := r_height row; r_block := r_block row;
     r_sub_epoch_summary := r_sub_epoch_summary row; r_is_peak := p; r_is_block := r_is_block row;
     r_farmer_public_key := r_farmer_public_key row |}.

Definition set_peak (hh : bytes) : ST BlockStore unit :=
  st_modify (λ s, set_block_records
    ((λ row, if r_is_peak row =? 1 then with_peak 0 row else row) <$> block_records s) s) ;;
  st_modify (λ s, set_block_records (alter (with_peak 1) (hex hh) (block_records s)) s).

Definition is_fully_compactified (hh : bytes) (s : BlockStore) : option bool :=
  (λ row, py_bool (b_is_fully_compactified row)) <$> full_blocks s !! hex hh.
End Store.

(** ** [HintStore]: the rows in the order of their identifiers *)
Definition HintStore : Type := list (bytes * bytes).
Definition add_hints (coin_hint_list : list (bytes * bytes)) (s : HintStore) : HintStore := s ++ coin_hint_list.
Definition get_coin_ids (hint : bytes) (s : HintStore) : list bytes :=
  (filter (λ ch, ch.2 = hint) s).*1.

(** ** What the tables stand for

    A map from header hashes to a block and its record, and the hash of the peak. *)
Notation abs_blocks := (gmap bytes (FullBlock.t * BlockRecord)).

Section Refinement.
Context `{Packages}.
Implicit Types (s : BlockStore) (m : abs_blocks) (pk : option bytes) (hh : bytes).

Definition blob `{Fields A} (x : A) : bytes := match to_bytes x with Ok b => b | _ => [] end.

Record entry_ok (hh : bytes) (x : FullBlock.t * BlockRecord) : Prop := {
  en_hash : is_bytes hh ∧ header_hash x.2 = hh;
  en_block : well_formed x.1;
  en_record : well_formed x.2;
  en_ses : ∀ ses, sub_epoch_summary_included x.2 = Some ses → well_formed ses;
  en_prev : is_bytes (prev_hash x.2) ∧ FullBlock.prev_header_hash x.1 = prev_hash x.2;
  en_height : FullBlock.height x.1 = height x.2;
}.

Definition block_row (b : FullBlock.t) : BlockRow := {|
  b_height := FullBlock.height b; b_is_block := int_of_bool (FullBlock.is_transaction_block b);
  b_is_fully_compactified := int_of_bool (FullBlock.is_fully_compactified b); b_block := blob b |}.
Definition record_row (is_peak : bool) (x : FullBlock.t * BlockRecord) : RecordRow := {|
  r_prev_hash := hex (FullBlock.prev_header_hash x.1); r_height := FullBlock.height x.1; r_block := blob x.2;
  r_sub_epoch_summary := blob <$> sub_epoch_summary_included x.2; r_is_peak := int_of_bool is_peak;
  r_is_block := int_of_bool (FullBlock.is_transaction_block x.1);
  r_farmer_public_key := farmer_public_key x.2 |}.

Record stores s m pk : Prop := {
  bs_blocks : ∀ t row, full_blocks s !! t = Some row ↔
    ∃ hh x, t = hex hh ∧ m !! hh = Some x ∧ row = block_row x.1;
  bs_records : ∀ t row, block_records s !! t = Some row ↔
    ∃ hh x, t = hex hh ∧ m !! hh = Some x ∧ row = record_row (bool_decide (pk = Some hh)) x;
  bs_entries : ∀ hh x, m !! hh = Some x → entry_ok hh x;
  bs_lru : lru_wf (block_cache s);
  bs_cache : ∀ hh b, dget hh (cache (block_cache s)) = Some b → ∃ r, m !! hh = Some (b, r);
}.

Lemma to_bytes_blob `{Fields A} (x : A) : well_formed x → to_bytes x = Ok (blob x).
Proof. intros Hx. destruct (class_roundtrip x Hx) as (b&E&_). unfold blob. by rewrite E. Qed.

Lemma parse_blob `{Fields A} (x : A) : well_formed x → parse_class (blob x) = Ok x.
Proof. intros Hx. destruct (class_roundtrip x Hx) as (b&E&_&Hp). unfold blob. by rewrite E. Qed.

Lemma stores_block_row s m pk hh : stores s m pk → full_blocks s !! hex hh = block_row ∘ fst <$> m !! hh.
Proof.
  intros Hs. apply option_eq. intros row. rewrite (bs_blocks _ _ _ Hs), fmap_Some. split.
  - intros (hh'&x&E&Hm&->). apply (inj hex) in E as <-. by exists x.
  - intros (x&Hm&->). by exists hh, x.
Qed.

Lemma stores_record_row s m pk hh :
  stores s m pk → block_records s !! hex hh = record_row (bool_decide (pk = Some hh)) <$> m !! hh.
Proof.
  intros Hs. apply option_eq. intros row. rewrite (bs_records _ _ _ Hs), fmap_Some. split.
  - intros (hh'&x&E&Hm&->). apply (inj hex) in E as <-. by exists x.
  - intros (x&Hm&->). by exists hh, x.
Qed.

Lemma stores_cache_put s m pk hh b r :
  stores s m pk → m !! hh = Some (b, r) → stores (set_block_cache (lru_put hh b (block_cache s)) s) m pk.
Proof.
  intros [H1 H2 H3 H4 H5] Hm. split; [done|done|done|by apply lru_put_wf|].
  intros hh' b' Hg. apply lru_put_dget in Hg; [|done]. case_decide as E; [subst; eauto|by apply H5].
Qed.

Lemma cached_block_ok s m pk hh :
  stores s m pk →
  ∃ o s', cached_block hh s = (Ok o, s') ∧ stores s' m pk ∧ (∀ b, o = Some b → ∃ r, m !! hh = Some (b, r))
    ∧ full_blocks s' = full_blocks s.
Proof.
  intros [H1 H2 H3 H4 H5]. unfold cached_block. destruct (lru_get_spec hh _ H4) as (c&->&Hw&Hc&Hg).
  eexists _, _. split_and!; [done| |by apply H5|done]. split; [done|done|done|done|].
  cbn. intros hh' b. rewrite Hg. apply H5.
Qed.

Lemma get_full_block_ok s m pk hh :
  stores s m pk → ∃ s', get_full_block hh s = (Ok (fst <$> m !! hh), s') ∧ stores s' m pk.
Proof.
  intros Hs. unfold get_full_block. destruct (cached_block_ok s m pk hh Hs) as (o&s1&E1&Hs1&Ho&_).
  rewrite (st_bind_Ok _ _ _ _ _ E1). destruct o as [b|].
  - destruct (Ho b eq_refl) as [r ->]. by eexists.
  - rewrite (st_bind_Ok _ _ _ _ _ (st_get_eq s1)), (stores_block_row _ _ _ hh Hs1).
    destruct (m !! hh) as [[b r]|] eqn:Hm; cbn [fmap option_fmap option_map]; [|by eexists].
    pose proof (bs_entries _ _ _ Hs1 _ _ Hm) as He.
    rewrite (st_bind_Ok _ _ _ b s1) by (apply st_res_Ok; apply (parse_blob b), He).
    erewrite st_bind_Ok by apply st_modify_eq. eexists. split; [done|]. by eapply stores_cache_put.
Qed.

Lemma get_block_record_ok s m pk hh :
  stores s m pk → get_block_record hh s = Ok (snd <$> m !! hh).
Proof.
  intros Hs. unfold get_block_record. rewrite (stores_record_row _ _ _ hh Hs).
  destruct (m !! hh) as [[b r]|] eqn:Hm; cbn [fmap option_fmap option_map]; [|done].
  change (r_block (record_row _ (b, r))) with (blob r).
  rewrite (parse_blob r) by exact (en_record _ _ (bs_entries _ _ _ Hs _ _ Hm)). done.
Qed.

Lemma add_full_block_ok s m pk hh b r :
  stores s m pk → entry_ok hh (b, r) →
  ∃ s', add_full_block hh b r s = (Ok tt, s')
    ∧ stores s' (<[hh := (b, r)]> m) (if bool_decide (pk = Some hh) then None else pk).
Proof.
  intros [H1 H2 H3 H4 H5] He. unfold add_full_block.
  erewrite st_bind_Ok by apply st_modify_eq.
  erewrite st_bind_Ok by (apply st_res_Ok, (to_bytes_blob b), He).
  erewrite st_bind_Ok by apply st_modify_eq.
  erewrite st_bind_Ok by (apply st_res_Ok, (to_bytes_blob r), He).
  assert (Eses : match sub_epoch_summary_included r with
                 | None => Ok None | Some x => b ← to_bytes x; Ok (Some b) end
                 = Ok (blob <$> sub_epoch_summary_included r)).
  { pose proof (en_ses _ _ He) as Hses. cbn [snd] in Hses.
    destruct (sub_epoch_summary_included r); [|done]. by rewrite to_bytes_blob by auto. }
  erewrite st_bind_Ok by (apply st_res_Ok, Eses).
  eexists. split; [apply st_modify_eq|]. split; cbn [full_blocks block_records block_cache set_full_blocks set_block_records set_block_cache].
  - intros t row. rewrite lookup_insert_Some, H1. split.
    + intros [[<- <-]|[Ht (hh'&x&->&Hm&->)]]; [exists hh, (b, r); by rewrite lookup_insert_eq|].
      exists hh', x. rewrite lookup_insert_ne by congruence. done.
    + intros (hh'&x&->&Hm&->). apply lookup_insert_Some in Hm as [[-> <-]|[Hne Hm]]; [by left|].
      right. split; [intros E; apply (inj hex) in E; congruence|]. by exists hh', x.
  - intros t row. rewrite lookup_insert_Some, H2. split.
    + intros [[<- <-]|[Ht (hh'&x&->&Hm&->)]].
      * exists hh, (b, r). rewrite lookup_insert_eq. split_and!; [done|done|].
        unfold record_row. cbn [fst snd]. rewrite bool_decide_false; [done|]. case_bool_decide; congruence.
      * exists hh', x. rewrite lookup_insert_ne by congruence. split_and!; [done|done|].
        f_equal. apply bool_decide_ext. case_bool_decide as Epk; [|done]. split; [|done].
        intros Ex. congruence.
    + intros (hh'&x&->&Hm&->). apply lookup_insert_Some in Hm as [[-> <-]|[Hne Hm]].
      * left. split; [done|]. unfold record_row. cbn [fst snd]. rewrite bool_decide_false; [done|]. case_bool_decide; congruence.
      * right. split; [intros E; apply (inj hex) in E; congruence|]. exists hh', x. split_and!; [done|done|].
        f_equal. apply bool_decide_ext. case_bool_decide as Epk; [|done]. split; [done|]. intros. congruence.
  - intros hh' x Hx. apply lookup_insert_Some in Hx as [[<- <-]|[_ Hx]]; [done|by apply H3].
  - by apply lru_put_wf.
  - intros hh' b' Hg. apply lru_put_dget in Hg; [|done]. case_decide as E.
    + subst. rewrite lookup_insert_eq. eauto.
    + rewrite lookup_insert_ne by congruence. by apply H5.
Qed.

Lemma set_peak_ok s m pk hh :
  stores s m pk → is_Some (m !! hh) → ∃ s', set_peak hh s = (Ok tt, s') ∧ stores s' m (Some hh).
Proof.
  intros Hs [x0 Hx0]. pose proof Hs as [H1 H2 H3 H4 H5]. unfold set_peak.
  erewrite st_bind_Ok by apply st_modify_eq. eexists. split; [apply st_modify_eq|].
  split; cbn [full_blocks block_records block_cache set_full_blocks set_block_records set_block_cache]; [done| |done|done|done]. intros t row.
  assert (Hrow : ∀ p x, (if r_is_peak (record_row p x) =? 1 then with_peak 0 (record_row p x) else record_row p x)
                        = record_row false x) by by intros [].
  rewrite lookup_alter_Some. split.
  - intros [(<-&row0&E&->)|(Hne&E)].
    + rewrite lookup_fmap, (stores_record_row _ _ _ hh Hs), Hx0 in E. cbn [fmap option_fmap option_map] in E.
      rewrite Hrow in E. injection E as <-.
      exists hh, x0. split_and!; [done|done|]. by rewrite (bool_decide_true (Some hh = Some hh)) by done.
    + rewrite lookup_fmap, fmap_Some in E. destruct E as (row0&E&->).
      apply H2 in E as (hh'&x&->&Hm&->). exists hh', x. split_and!; [done|done|].
      rewrite Hrow, (bool_decide_false (Some hh = Some hh')); [done|congruence].
  - intros (hh'&x&->&Hm&->). destruct (decide (hh' = hh)) as [->|Hne].
    + left. split; [done|]. rewrite lookup_fmap, (stores_record_row _ _ _ hh Hs), Hm. cbn [fmap option_fmap option_map].
      eexists; split; [done|]. rewrite Hrow. by rewrite (bool_decide_true (Some hh = Some hh)) by done.
    + right. split; [intros E; apply (inj hex) in E; congruence|].
      rewrite lookup_fmap, (stores_record_row _ _ _ hh' Hs), Hm. cbn [fmap option_fmap option_map].
      rewrite Hrow, (bool_decide_false (Some hh = Some hh')); [done|congruence].
Qed.

Lemma rollback_cache_block_ok s m pk hh :
  stores s m pk → ∃ s', rollback_cache_block hh s = (Ok tt, s') ∧ stores s' m pk.
Proof.
  intros Hs. pose proof Hs as [H1 H2 H3 [Hw Hl] H5]. unfold rollback_cache_block, lru_remove, ddel.
  destruct (dmem hh (cache (block_cache s))); cbn [mbind res_bind]; [|by eexists].
  eexists. split; [done|]. split; cbn; [done|done|done| |].
  - split; cbn; [by apply dremove_wf|]. pose proof (dremove_length_le (cache (block_cache s)) hh). lia.
  - intros hh' b. rewrite dget_dremove by done. case_decide; [done|]. apply H5.
Qed.
End Refinement.

(** ** Sequences of calls *)
Inductive bs_op :=
  | AddFullBlock (hh : bytes) (b : FullBlock.t) (r : BlockRecord)
  | SetPeak (hh : bytes)
  | RollbackCacheBlock (hh : bytes)
  | GetFullBlock (hh : bytes)
  | GetBlockRecord (hh : bytes).
Inductive bs_result :=
  | Done
  | ABlock (o : option FullBlock.t)
  | ARecord (o : option BlockRecord).

Section Simulation.
Context `{Packages}.

Definition run_bs_op (o : bs_op) : ST BlockStore bs_result :=
  match o with
  | AddFullBlock hh b r => add_full_block hh b r ;; mret Done
  | SetPeak hh => set_peak hh ;; mret Done
  | RollbackCacheBlock hh => rollback_cache_block hh ;; mret Done
  | GetFullBlock hh => b ← get_full_block hh; mret (ABlock b)
  | GetBlockRecord hh => s ← st_get; r ← st_res (get_block_record hh s); mret (ARecord r)
  end.

Definition abs_bs_op (o : bs_op) (a : abs_blocks * option bytes) : bs_result * (abs_blocks * option bytes) :=
  let '(m, pk) := a in
  match o with
  | AddFullBlock hh b r => (Done, (<[hh := (b, r)]> m, if bool_decide (pk = Some hh) then None else pk))
  | SetPeak hh => (Done, (m, Some hh))
  | RollbackCacheBlock hh => (Done, (m, pk))
  | GetFullBlock hh => (ABlock (fst <$> m !! hh), (m, pk))
  | GetBlockRecord hh => (ARecord (snd <$> m !! hh), (m, pk))
  end.

Definition bs_op_ok (o : bs_op) (m : abs_blocks) : Prop :=
  match o with
  | AddFullBlock hh b r => entry_ok hh (b, r)
  | SetPeak hh => is_Some (m !! hh)
  | _ => True
  end.

Fixpoint abs_bs_ops (os : list bs_op) (a : abs_blocks * option bytes) : list bs_result * (abs_blocks * option bytes) :=
  match os with
  | [] => ([], a)
  | o :: os => let '(r, a1) := abs_bs_op o a in let '(rs, a2) := abs_bs_ops os a1 in (r :: rs, a2)
  end.
Fixpoint bs_ops_ok (os : list bs_op) (a : abs_blocks * option bytes) : Prop :=
  match os with [] => True | o :: os => bs_op_ok o a.1 ∧ bs_ops_ok os (abs_bs_op o a).2 end.

Lemma run_bs_op_ok o s m pk :
  stores s m pk → bs_op_ok o m →
  ∃ s', run_bs_op o s = (Ok (abs_bs_op o (m, pk)).1, s')
    ∧ stores s' (abs_bs_op o (m, pk)).2.1 (abs_bs_op o (m, pk)).2.2.
Proof.
  intros Hs Ho. destruct o as [hh b r|hh|hh|hh|hh]; cbn [run_bs_op abs_bs_op fst snd bs_op_ok] in *.
  - destruct (add_full_block_ok s m pk hh b r Hs Ho) as (s'&E&Hs'). rewrite (st_bind_Ok _ _ _ _ _ E). by eexists.
  - destruct (set_peak_ok s m pk hh Hs Ho) as (s'&E&Hs'). rewrite (st_bind_Ok _ _ _ _ _ E). by eexists.
  - destruct (rollback_cache_block_ok s m pk hh Hs) as (s'&E&Hs'). rewrite (st_bind_Ok _ _ _ _ _ E). by eexists.
  - destruct (get_full_block_ok s m pk hh Hs) as (s'&E&Hs'). rewrite (st_bind_Ok _ _ _ _ _ E). by eexists.
  - rewrite (st_bind_Ok _ _ _ _ _ (st_get_eq s)).
    erewrite st_bind_Ok by (apply st_res_Ok; by apply (get_block_record_ok s m pk)). by eexists.
Qed.
Lemma run_bs_ops_ok os s m pk :
  stores s m pk → bs_ops_ok os (m, pk) →
  ∃ s', st_each run_bs_op os s = (Ok (abs_bs_ops os (m, pk)).1, s')
    ∧ stores s' (abs_bs_ops os (m, pk)).2.1 (abs_bs_ops os (m, pk)).2.2.
Proof.
  revert s m pk. induction os as [|o os IH]; intros s m pk Hs Hok; [by eexists|].
  destruct Hok as [Ho Hos]. destruct (run_bs_op_ok o s m pk Hs Ho) as (s1&E1&Hs1).
  cbn [st_each abs_bs_ops]. rewrite (st_bind_Ok _ _ _ _ _ E1).
  destruct (abs_bs_op o (m, pk)) as [r [m1 pk1]] eqn:Ea. cbn [fst snd] in *.
  destruct (IH s1 m1 pk1 Hs1 Hos) as (s2&E2&Hs2). rewrite (st_bind_Ok _ _ _ _ _ E2).
  destruct (abs_bs_ops os (m1, pk1)) as [rs a2]. by eexists.
Qed.

Lemma stores_empty : stores (block_store_create ∅ ∅) ∅ None.
Proof.
  split; cbn; [intros; rewrite lookup_empty; naive_solver|intros; rewrite lookup_empty; naive_solver|done| |done].
  split; [constructor|cbn; lia].
Qed.
End Simulation.

(** C9. The block store with its cache answers every sequence of insertions, changes of
    the peak, cache rollbacks and lookups like a map from header hashes to blocks and
    records: no call raises, a block is read back as it was written, and the flag of
    the peak is on exactly the row of the peak. *)
Theorem block_store_refines `{Packages} (s : BlockStore) (m : abs_blocks) (pk : option bytes) (os : list bs_op) :
  stores s m pk → bs_ops_ok os (m, pk) →
  ∃ s', st_each run_bs_op os s = (Ok (abs_bs_ops os (m, pk)).1, s')
    ∧ stores s' (abs_bs_ops os (m, pk)).2.1 (abs_bs_ops os (m, pk)).2.2.
Proof. apply run_bs_ops_ok. Qed.

(** ** The path to the peak *)

(** [chain m hh l]: [l] are the blocks from [hh] back to height 0, with their records. *)
Inductive chain (m : abs_blocks) : bytes → list (bytes * BlockRecord) → Prop :=
  | chain_genesis hh b r : m !! hh = Some (b, r) → height r = 0 → chain m hh [(hh, r)]
  | chain_step hh b r b' r' l :
      m !! hh = Some (b, r) → height r ≠ 0 → m !! prev_hash r = Some (b', r') → height r' = height r - 1 →
      chain m (prev_hash r) ((prev_hash r, r') :: l) → chain m hh ((hh, r) :: (prev_hash r, r') :: l).

(** Every block is at a height from 0 on, and above 0 its parent is in the store, one
    height below. *)
Definition closed (m : abs_blocks) : Prop :=
  ∀ hh b r, m !! hh = Some (b, r) → 0 <= height r
    ∧ (height r ≠ 0 → ∃ b' r', m !! prev_hash r = Some (b', r') ∧ height r' = height r - 1).

Lemma closed_chain m hh b r : closed m → m !! hh = Some (b, r) → ∃ l, chain m hh ((hh, r) :: l).
Proof.
  intros Hc. remember (Z.to_nat (height r)) as n eqn:En. revert hh b r En.
  induction n as [|n IH]; intros hh b r En Hm; destruct (Hc _ _ _ Hm) as [Hr Hp].
  - exists []. econstructor; [done|lia].
  - destruct (Hp ltac:(lia)) as (b'&r'&Hm'&Hh). destruct (IH (prev_hash r) b' r') as [l Hl]; [lia|done|].
    eexists. econstructor; [done|lia|done|done|done].
Qed.

Section Walk.
Context `{Packages}.

(** What the three dictionaries say of [m] *)
Record links_ok (l : Links) (m : abs_blocks) : Prop := {
  lk_prev : ∀ hh, hash_to_prev_hash l !! hh = (λ x, prev_hash x.2) <$> m !! hh;
  lk_height : ∀ hh, hash_to_height l !! hh = (λ x, height x.2) <$> m !! hh;
  lk_ses : ∀ hh, hash_to_summary l !! hh = m !! hh ≫= λ x, sub_epoch_summary_included x.2;
}.

Definition link (l : Links) (e : bytes * (FullBlock.t * BlockRecord)) : Links :=
  let '(hh, x) := e in
  {| hash_to_prev_hash := <[hh := prev_hash x.2]> (hash_to_prev_hash l);
     hash_to_height := <[hh := height x.2]> (hash_to_height l);
     hash_to_summary := match sub_epoch_summary_included x.2 with
                        | Some y => <[hh := y]> (hash_to_summary l) | None => hash_to_summary l end |}.
Definition row_of_entry (pk : option bytes) (e : bytes * (FullBlock.t * BlockRecord)) : text * RecordRow :=
  (hex e.1, record_row (bool_decide (pk = Some e.1)) e.2).

Lemma add_link_ok pk l e : entry_ok e.1 e.2 → add_link l (row_of_entry pk e) = Ok (link l e).
Proof.
  destruct e as [hh x]. intros [[Hb Eh] _ _ Hses [Hpb Ep] Hh]. unfold add_link, row_of_entry, link.
  cbn [fst snd r_prev_hash r_height r_sub_epoch_summary record_row] in *.
  rewrite Ep, Hh, (fromhex_hex hh), (fromhex_hex (prev_hash x.2)) by done. cbn [mbind res_bind].
  destruct (sub_epoch_summary_included x.2) as [y|]; cbn [fmap option_fmap option_map mbind res_bind]; [|done].
  rewrite (parse_blob y) by by apply Hses. done.
Qed.

Lemma link_ok (l : Links) (m : abs_blocks) (e : bytes * (FullBlock.t * BlockRecord)) : links_ok l m → m !! e.1 = None → links_ok (link l e) (<[e.1 := e.2]> m).
Proof.
  destruct e as [hh x]. cbn [fst snd]. intros [L1 L2 L3] Hm. split; cbn [link hash_to_prev_hash hash_to_height hash_to_summary]; intros hh'.
  - destruct (decide (hh' = hh)) as [->|Hne]; [by rewrite !lookup_insert_eq|]. rewrite !lookup_insert_ne by done. apply L1.
  - destruct (decide (hh' = hh)) as [->|Hne]; [by rewrite !lookup_insert_eq|]. rewrite !lookup_insert_ne by done. apply L2.
  - destruct (decide (hh' = hh)) as [->|Hne].
    + rewrite lookup_insert_eq. cbn [mbind option_bind].
      destruct (sub_epoch_summary_included x.2); [by rewrite lookup_insert_eq|]. rewrite L3, Hm. done.
    + rewrite (lookup_insert_ne m) by done. rewrite <- L3.
      destruct (sub_epoch_summary_included x.2); [by rewrite lookup_insert_ne|done].
Qed.

Lemma fold_links (pk : option bytes) (L : list (bytes * (FullBlock.t * BlockRecord))) (l0 : Links) (m0 : abs_blocks) :
  Forall (λ e, entry_ok e.1 e.2) L → NoDup L.*1 → (∀ e, e ∈ L → m0 !! e.1 = None) → links_ok l0 m0 →
  ∃ (l : Links) (m : abs_blocks), for_fold add_link l0 (row_of_entry pk <$> L) = Ok l ∧ links_ok l m
    ∧ ∀ hh x, m !! hh = Some x ↔ (hh, x) ∈ L ∨ m0 !! hh = Some x.
Proof.
  revert l0 m0. induction L as [|e L IH]; intros l0 m0 HL Hnd Hfresh Hl0.
  { exists l0, m0. split_and!; [done|done|]. set_solver. }
  apply Forall_cons in HL as [He HL]. cbn in Hnd. apply NoDup_cons in Hnd as [Hn Hnd].
  cbn [fmap list_fmap for_fold]. rewrite (add_link_ok pk l0 e He). cbn [mbind res_bind].
  assert (He0 : m0 !! e.1 = None) by (apply Hfresh; set_solver).
  destruct (IH (link l0 e) (<[e.1 := e.2]> m0)) as (l&m&E&Hl&Hm); [done|done| |by apply link_ok|].
  { intros e' He'. rewrite lookup_insert_ne; [apply Hfresh; set_solver|].
    intros Eq. apply Hn. rewrite Eq. apply list_elem_of_fmap. by exists e'. }
  exists l, m. split_and!; [exact E|done|]. intros hh x. rewrite Hm, lookup_insert_Some, elem_of_cons.
  destruct e as [h y]. cbn [fst snd] in *. split.
  - intros [?|[[-> ->]|[_ ?]]]; auto.
  - intros [[E'|?]|Hx]; [injection E' as -> ->; auto|auto|]. right. right. split; [|done]. intros ->. congruence.
Qed.

Lemma rows_entries (s : BlockStore) (m : abs_blocks) (pk : option bytes) :
  stores s m pk → ∃ L : list (bytes * (FullBlock.t * BlockRecord)), map_to_list (block_records s) = row_of_entry pk <$> L
    ∧ NoDup L.*1 ∧ ∀ hh x, (hh, x) ∈ L ↔ m !! hh = Some x.
Proof.
  intros Hs.
  assert (Hex : ∀ l : list (text * RecordRow), (∀ kr, kr ∈ l → kr ∈ map_to_list (block_records s)) →
    ∃ L : list (bytes * (FullBlock.t * BlockRecord)), l = row_of_entry pk <$> L ∧ ∀ e, e ∈ L → m !! e.1 = Some e.2).
  { induction l as [|[t row] l IH]; intros Hl; [exists []; set_solver|].
    destruct IH as (L&->&HL); [set_solver|].
    pose proof (Hl (t, row) ltac:(set_solver)) as Hin. apply elem_of_map_to_list in Hin.
    apply (bs_records _ _ _ Hs) in Hin as (hh&x&->&Hm&->). exists ((hh, x) :: L). split; [done|]. set_solver. }
  destruct (Hex (map_to_list (block_records s))) as (L&EL&HL); [done|]. exists L.
  assert (Hk : (map_to_list (block_records s)).*1 = hex <$> L.*1).
  { rewrite EL, <- !list_fmap_compose. done. }
  split_and!; [done| |].
  - pose proof (NoDup_fst_map_to_list (block_records s)) as Hnd. rewrite Hk in Hnd. by apply NoDup_fmap_1 in Hnd.
  - intros hh x. split; [intros Hin; by apply (HL (hh, x))|]. intros Hm.
    assert (Hin : row_of_entry pk (hh, x) ∈ map_to_list (block_records s)).
    { unfold row_of_entry. apply elem_of_map_to_list. cbn [fst snd]. by rewrite (stores_record_row _ _ _ hh Hs), Hm. }
    rewrite EL in Hin. apply list_elem_of_fmap in Hin as ([hh' x']&E&Hin). unfold row_of_entry in E. cbn [fst snd] in E.
    apply (f_equal fst) in E. cbn [fst] in E. apply (inj hex) in E as <-. pose proof (HL _ Hin) as Hm'. cbn in Hm'. congruence.
Qed.

Lemma peak_row_ok (s : BlockStore) (m : abs_blocks) (pk : bytes) (x : FullBlock.t * BlockRecord) :
  stores s m (Some pk) → m !! pk = Some x → ∃ row, peak_row s = Some (hex pk, row).
Proof.
  intros Hs Hm. unfold peak_row.
  assert (Hrow : block_records s !! hex pk = Some (record_row true x)).
  { rewrite (stores_record_row _ _ _ pk Hs), Hm. cbn [fmap option_fmap option_map]. by rewrite bool_decide_true. }
  assert (Hin : (hex pk, record_row true x) ∈ map_to_list (filter (λ kr, r_is_peak kr.2 = 1) (block_records s))).
  { apply elem_of_map_to_list, map_lookup_filter_Some. done. }
  destruct (map_to_list _) as [|[t row] l] eqn:El; [set_solver|]. exists row. cbn [head]. do 2 f_equal.
  assert (Ht : (t, row) ∈ map_to_list (filter (λ kr, r_is_peak kr.2 = 1) (block_records s))) by (rewrite El; set_solver).
  apply elem_of_map_to_list, map_lookup_filter_Some in Ht as [Ht Hp].
  apply (bs_records _ _ _ Hs) in Ht as (hh&y&->&_&->). cbn in Hp. case_bool_decide; [congruence|done].
Qed.

Lemma walk_body_eq l hh h (hm : gmap Z bytes) (sm : gmap Z SubEpochSummary) :
  walk_body l (hh, h, hm, sm)
  = let hm' := <[h := hh]> hm in
    let sm' := match hash_to_summary l !! hh with Some x => <[h := x]> sm | None => sm end in
    if h =? 0 then Ok (inr (hm', sm'))
    else
      p ← of_opt KeyError (hash_to_prev_hash l !! hh);
      h' ← of_opt KeyError (hash_to_height l !! p);
      Ok (inl (p, h', hm', sm')).
Proof. reflexivity. Qed.

(** The walk from a block writes the hashes and the summaries of the blocks below it
    into the two dictionaries, and leaves the rest of them alone. *)
Lemma walk_ok (l : Links) (m : abs_blocks) (hh : bytes) (L : list (bytes * BlockRecord)) fuel
    (hm : gmap Z bytes) (sm : gmap Z SubEpochSummary) r0 L0 :
  links_ok l m → chain m hh L → L = (hh, r0) :: L0 → (length L <= fuel)%nat →
  ∃ hm' sm', loop fuel (walk_body l) (hh, height r0, hm, sm) = Ok (hm', sm')
    ∧ Z.of_nat (length L) = height r0 + 1
    ∧ (∀ h, hm' !! h = if bool_decide (0 <= h <= height r0) then fst <$> L !! Z.to_nat (height r0 - h) else hm !! h)
    ∧ (∀ h, sm' !! h = if bool_decide (0 <= h <= height r0)
                       then match L !! Z.to_nat (height r0 - h) with
                            | Some (_, r) => match sub_epoch_summary_included r with Some x => Some x | None => sm !! h end
                            | None => sm !! h end
                       else sm !! h).
Proof.
  intros Hl Hc. revert fuel hm sm r0 L0.
  induction Hc as [hh b r Hm Hh|hh b r b' r' L' Hm Hh Hm' Hh' Hc IH]; intros [|fuel] hm sm r0 L0 EL Hf;
    cbn [length] in Hf; try lia; cbn [loop]; rewrite walk_body_eq.
  - injection EL as <- <-. rewrite Hh, Z.eqb_refl. cbn [mbind res_bind].
    assert (Es : hash_to_summary l !! hh = sub_epoch_summary_included r) by (rewrite (lk_ses _ _ Hl), Hm; done).
    eexists _, _. split_and!; [done|done| |].
    + intros h. case_bool_decide.
      * replace h with 0 by lia. by rewrite lookup_insert_eq.
      * by rewrite lookup_insert_ne by lia.
    + intros h. rewrite Es. case_bool_decide.
      * replace h with 0 by lia. change ([(hh, r)] !! Z.to_nat (0 - 0)) with (Some (hh, r)). cbv iota beta.
        destruct (sub_epoch_summary_included r); [by rewrite lookup_insert_eq|done].
      * destruct (sub_epoch_summary_included r); [by rewrite lookup_insert_ne by lia|done].
  - injection EL as <- <-. rewrite (proj2 (Z.eqb_neq _ _) Hh). cbn zeta.
    rewrite (lk_prev _ _ Hl), Hm. cbn [fmap option_fmap option_map of_opt mbind res_bind snd].
    rewrite (lk_height _ _ Hl), Hm'. cbn [fmap option_fmap option_map of_opt mbind res_bind snd].
    assert (Es : hash_to_summary l !! hh = sub_epoch_summary_included r) by (rewrite (lk_ses _ _ Hl), Hm; done).
    rewrite Es.
    destruct (IH fuel (<[height r := hh]> hm)
                (match sub_epoch_summary_included r with Some x => <[height r := x]> sm | None => sm end) r' L' eq_refl)
      as (hm'&sm'&E&Hlen&Hhm&Hsm); [cbn; lia|].
    exists hm', sm'. split_and!; [exact E|cbn [length] in *; lia| |].
    + intros h. rewrite Hhm. destruct (decide (h = height r)) as [->|Hne].
      * rewrite bool_decide_false by lia. rewrite bool_decide_true by (cbn [length] in Hlen; lia).
        rewrite lookup_insert_eq. by rewrite Z.sub_diag.
      * rewrite (lookup_insert_ne hm) by congruence. case_bool_decide as H1; case_bool_decide as H2; try lia; [|done].
        replace (Z.to_nat (height r - h)) with (S (Z.to_nat (height r' - h))) by lia. done.
    + intros h. rewrite Hsm. destruct (decide (h = height r)) as [->|Hne].
      * rewrite bool_decide_false by lia. rewrite bool_decide_true by (cbn [length] in Hlen; lia).
        rewrite Z.sub_diag. change (((hh, r) :: ?l) !! Z.to_nat 0) with (Some (hh, r)). cbv iota beta.
        destruct (sub_epoch_summary_included r); [by rewrite lookup_insert_eq|done].
      * assert (Esm : (match sub_epoch_summary_included r with Some x => <[height r := x]> sm | None => sm end) !! h = sm !! h)
          by (destruct (sub_epoch_summary_included r); [by rewrite lookup_insert_ne by congruence|done]).
        rewrite Esm. case_bool_decide as H1; case_bool_decide as H2; try lia; [|done].
        replace (Z.to_nat (height r - h)) with (S (Z.to_nat (height r' - h))) by lia. done.
Qed.
End Walk.

(** When a node starts, [get_peak_height_dicts] rebuilds the path from genesis to the
    peak: the hash of every height up to the peak's, and no other, is the ancestor of
    the peak at that height, and the summaries are those the blocks of the path
    include. *)
Theorem peak_height_dicts_spec `{Packages} (s : BlockStore) (m : abs_blocks) (pk : bytes)
    (b : FullBlock.t) (r : BlockRecord) (fuel : nat) :
  stores s m (Some pk) → closed m → m !! pk = Some (b, r) → (Z.to_nat (height r) < fuel)%nat →
  ∃ L hm sm, chain m pk L
    ∧ get_peak_height_dicts fuel s = Ok (hm, sm)
    ∧ Z.of_nat (length L) = height r + 1
    ∧ (∀ h, hm !! h = if bool_decide (0 <= h <= height r) then fst <$> L !! Z.to_nat (height r - h) else None)
    ∧ (∀ h, sm !! h = if bool_decide (0 <= h <= height r)
                      then L !! Z.to_nat (height r - h) ≫= λ x, sub_epoch_summary_included x.2 else None).
Proof.
  intros Hs Hc Hm Hf. destruct (closed_chain m pk b r Hc Hm) as [L0 HL].
  destruct (peak_row_ok s m pk (b, r) Hs Hm) as [row Hrow].
  destruct (rows_entries s m (Some pk) Hs) as (E&EL&Hnd&HE).
  destruct (fold_links (Some pk) E {| hash_to_prev_hash := ∅; hash_to_height := ∅; hash_to_summary := ∅ |} ∅)
    as (l&m'&El&Hl&Hm').
  - apply Forall_forall. intros [hh x] He. apply HE in He. exact (bs_entries _ _ _ Hs _ _ He).
  - done.
  - intros e _. apply lookup_empty.
  - split; intros hh; cbn; by rewrite !lookup_empty.
  - assert (m' = m) as ->.
    { apply map_eq. intros hh. apply option_eq. intros x. rewrite Hm', HE, lookup_empty. naive_solver. }
    assert (Hlen : (length ((pk, r) :: L0) <= fuel)%nat).
    { enough (Z.of_nat (length ((pk, r) :: L0)) = height r + 1) by lia.
      destruct (walk_ok l m pk _ (S (length ((pk, r) :: L0))) ∅ ∅ r L0 Hl HL eq_refl) as (_&_&_&Hlen&_); [lia|done]. }
    destruct (walk_ok l m pk _ fuel ∅ ∅ r L0 Hl HL eq_refl Hlen) as (hm&sm&Ew&Hlen'&Hhm&Hsm).
    exists ((pk, r) :: L0), hm, sm. split_and!; [done| |done| |].
    + unfold get_peak_height_dicts. rewrite Hrow.
      rewrite fromhex_hex by exact (proj1 (en_hash _ _ (bs_entries _ _ _ Hs _ _ Hm))). cbn [mbind res_bind].
      rewrite EL, El. cbn [mbind res_bind]. rewrite (lk_height _ _ Hl), Hm. exact Ew.
    + intros h. rewrite Hhm. case_bool_decide; [done|]. apply lookup_empty.
    + intros h. rewrite Hsm. case_bool_decide; [|apply lookup_empty].
      destruct (((pk, r) :: L0) !! _) as [[x y]|]; [|apply lookup_empty]. cbn.
      destruct (sub_epoch_summary_included y); [done|apply lookup_empty].
Qed.

(** ** A store of three blocks *)
Definition sample_id (salt h : Z) : bytes := replicate 31 salt ++ [h mod 256].
Definition sample_entry (salt h : Z) : FullBlock.t * BlockRecord :=
  let b := sample_full_block salt h (sample_id salt (h - 1)) None in
  (b, {|
    header_hash := sample_id salt h; prev_hash := sample_id salt (h - 1); height := h; weight := 7 * (h + 1);
    total_iters := 1000000 * (h + 1); signage_point_index := 1; challenge_vdf_output := replicate 100 8;
    infused_challenge_vdf_output := None; reward_infusion_new_challenge := replicate 32 1;
    challenge_block_info_hash := replicate 32 2; sub_slot_iters := 2 ^ 27; pool_puzzle_hash := replicate 32 3;
    farmer_puzzle_hash := replicate 32 4; required_iters := 1000; deficit := 0; overflow := false;
    prev_transaction_block_height := 0; timestamp := None; prev_transaction_block_hash := None; fees := None;
    reward_claims_incorporated := None; finished_challenge_slot_hashes := None;
    finished_infused_challenge_slot_hashes := None; finished_reward_slot_hashes := None;
    sub_epoch_summary_included := None; farmer_public_key := replicate 48 3 |}).
Definition sample_add (salt h : Z) : bs_op :=
  AddFullBlock (sample_id salt h) (sample_entry salt h).1 (sample_entry salt h).2.

Lemma sample_entry_ok salt h :
  validb (code FullBlock.t) (to_val (sample_entry salt h).1) = true →
  validb (code BlockRecord) (to_val (sample_entry salt h).2) = true →
  bool_decide (is_bytes (sample_id salt h) ∧ is_bytes (sample_id salt (h - 1))) = true →
  entry_ok (sample_id salt h) (sample_entry salt h).
Proof.
  intros H1 H2 H3. apply bool_decide_eq_true in H3 as [H3 H4].
  split; [done|by apply validb_sound|by apply validb_sound|done|done|done].
Qed.

Definition sample_bs_ops : list bs_op :=
  [sample_add 9 0; sample_add 9 1; SetPeak (sample_id 9 1); sample_add 9 2; SetPeak (sample_id 9 2);
   GetFullBlock (sample_id 9 1); RollbackCacheBlock (sample_id 9 2); GetBlockRecord (sample_id 9 2)].

Lemma sample_bs_ops_ok : bs_ops_ok sample_bs_ops (∅, None).
Proof.
  assert (Hp : ∀ h (m : abs_blocks), bool_decide (is_Some (m !! sample_id 9 h)) = true → is_Some (m !! sample_id 9 h)).
  { intros h m E. by apply bool_decide_eq_true in E. }
  do 2 (split; [apply (sample_entry_ok 9); vm_compute; reflexivity|]).
  split; [apply Hp; vm_compute; reflexivity|].
  split; [apply (sample_entry_ok 9); vm_compute; reflexivity|].
  split; [apply Hp; vm_compute; reflexivity|]. repeat split.
Qed.

Lemma block_store_refines_witness :
  ∃ s', st_each run_bs_op sample_bs_ops (block_store_create ∅ ∅) = (Ok (abs_bs_ops sample_bs_ops (∅, None)).1, s')
    ∧ stores s' (abs_bs_ops sample_bs_ops (∅, None)).2.1 (abs_bs_ops sample_bs_ops (∅, None)).2.2.
Proof. apply block_store_refines; [apply stores_empty|apply sample_bs_ops_ok]. Defined.

Definition sample_blocks_map : abs_blocks := (abs_bs_ops sample_bs_ops (∅, None)).2.1.

Lemma sample_closed : closed sample_blocks_map.
Proof.
  assert (Hm : map_Forall (λ hh x, (0 <=? height x.2)
    && ((height x.2 =? 0) || match sample_blocks_map !! prev_hash x.2 with
                             | Some y => height y.2 =? height x.2 - 1 | None => false end) = true) sample_blocks_map).
  { apply (bool_decide_eq_true_1 (map_Forall _ _)). vm_compute. reflexivity. }
  intros hh b r Hr. pose proof (Hm _ _ Hr) as Hx. cbn [snd] in Hx. apply andb_prop in Hx as [H1 H2].
  apply Z.leb_le in H1. split; [exact H1|]. intros Hne. rewrite (proj2 (Z.eqb_neq _ _) Hne) in H2. cbn [orb] in H2.
  destruct (sample_blocks_map !! prev_hash r) as [[b' r']|]; [|done]. zbool. eauto.
Qed.

Lemma peak_height_dicts_spec_witness :
  ∃ s L hm sm, stores s sample_blocks_map (Some (sample_id 9 2)) ∧ chain sample_blocks_map (sample_id 9 2) L
    ∧ get_peak_height_dicts 3 s = Ok (hm, sm) ∧ Z.of_nat (length L) = 3
    ∧ (∀ h, hm !! h = if bool_decide (0 <= h <= 2) then fst <$> L !! Z.to_nat (2 - h) else None).
Proof.
  destruct (run_bs_ops_ok sample_bs_ops _ _ _ stores_empty sample_bs_ops_ok) as (s&_&Hs).
  change (stores s sample_blocks_map (Some (sample_id 9 2))) in Hs.
  destruct (peak_height_dicts_spec s sample_blocks_map (sample_id 9 2) (sample_entry 9 2).1 (sample_entry 9 2).2 3)
    as (L&hm&sm&HL&E&Hlen&Hhm&_); [exact Hs|exact sample_closed|vm_compute; reflexivity|cbn; lia|].
  exists s, L, hm, sm. split_and!; [exact Hs|exact HL|exact E|exact Hlen|exact Hhm].
Defined.
