(* ===== verification/RecordTypes.v ===== *)
(** * The record of a block is of the right type

    [strictdataclass] checks the fields of an object only when it is built; the block
    store relies on the records it is given being writable.  The theorem of this file
    is that [block_to_block_record] makes, from a well-formed block on a chain of
    well-formed records, a well-formed record: every integer fits its width and every
    hash has its length. *)
From S2P Require Import Prelude PyInt PyFloat SignificantBits Consensus ChainView Difficulty Coins CoinStore.
From S2P Require Import Streamable BlockTypes BlockToRecord BlockStore.

Section Typed.
Context `{Packages} `{StdHash}.
Context (constants : ConsensusConstants) (blocks : BlockchainInterface) (fuel : nat).

(** The constants and the records of the chain have the types they are declared with. *)
Record typed_chain : Prop := {
  ty_genesis : valid B32 (GENESIS_CHALLENGE constants);
  ty_ssi : 0 <= SUB_SLOT_ITERS_STARTING constants < 2 ^ 64;
  ty_records : ∀ h b, block_record blocks h = Ok b → well_formed b;
}.
Context (Hty : typed_chain).

Lemma hash_valid `{Fields A} (x : A) h : hash_of x = Ok h → valid B32 h.
Proof.
  unfold hash_of, get_hash. intros E. apply bind_Ok in E as (b&_&[= <-]). split; [apply std_hash_bytes|apply std_hash_length].
Qed.
Lemma hashes_valid {A B} `{Fields A} (f : B → A) (l : list B) hs :
  for_each (λ x, hash_of (f x)) l = Ok hs → Z.of_nat (length l) < 2 ^ 32 → valid (TList B32) hs.
Proof.
  intros E Hl. apply for_each_Ok in E. split.
  - clear Hl. induction E as [|x y l hs Hx _ IH]; constructor; [by eapply hash_valid|done].
  - by rewrite <- (Forall2_length _ _ _ E).
Qed.

Lemma u64_valid z : 0 <= z < 2 ^ 64 → valid U64 z.
Proof. intros Hz. cbn. apply andb_true_iff. rewrite Z.leb_le, Z.ltb_lt. cbn. lia. Qed.
Lemma u64_range z : valid U64 z → 0 <= z < 2 ^ 64.
Proof. cbn. rewrite andb_true_iff, Z.leb_le, Z.ltb_lt. cbn. lia. Qed.

(** The fields of a record the functions read *)
Lemma record_fields b : well_formed b →
  valid U32 (height b) ∧ 0 <= sub_slot_iters b < 2 ^ 64 ∧ valid (TOptional (TList B32)) (finished_reward_slot_hashes b)
  ∧ (∀ ses, sub_epoch_summary_included b = Some ses → well_formed ses).
Proof.
  intros (_&_&Hh&_&_&_&_&_&_&_&Hssi&_&_&_&_&_&_&_&_&_&_&_&_&Hrh&Hses&_). split; [exact Hh|]. split; [exact (u64_range _ Hssi)|]. split; [exact Hrh|].
  intros ses E. change (valid (TOptional (code SubEpochSummary)) (map_opt (sub_epoch_summary_included b))) in Hses.
  rewrite E in Hses. exact Hses.
Qed.

Lemma try_record_typed h o b : try_block_record blocks h = Ok o → o = Some b → well_formed b.
Proof.
  unfold try_block_record. intros E ->. destruct (contains_block blocks h); [|done]. apply bind_Ok in E as (b'&Eb&[= ->]).
  by eapply ty_records.
Qed.

Lemma next_ssi_typed first prev_b ssi d :
  (∀ b, prev_b = Some b → well_formed b) →
  get_next_sub_slot_iters_and_difficulty constants blocks fuel first prev_b = Ok (ssi, d) → 0 <= ssi < 2 ^ 64.
Proof.
  intros Hp E. destruct prev_b as [b|]; [|injection E as <- _; apply Hty].
  destruct (record_fields b (Hp b eq_refl)) as (_&Hs&_). unfold get_next_sub_slot_iters_and_difficulty in E.
  apply bind_Ok in E as (pd&_&E). destruct (negb _) in E; [by injection E as <- _|].
  apply bind_Ok in E as (sp&_&E). apply bind_Ok in E as (d'&_&E). apply bind_Ok in E as (ssi'&E'&[= -> ->]).
  unfold get_next_sub_slot_iters in E'. apply bind_Ok in E' as (nh&_&E'). destruct (nh <? _) in E'; [by apply uint64_Ok in E' as [-> ?]|].
  destruct (negb _) in E'; [done|]. apply bind_Ok in E' as (pb&_&E'). apply bind_Ok in E' as (fin&_&E').
  destruct (negb fin) in E'; [by injection E' as <-|].
  apply bind_Ok in E' as ([lp lc]&_&E'). do 7 apply bind_Ok in E' as (?&_&E'). apply bind_Ok in E' as (p&_&E').
  cbv zeta in E'. apply bind_Ok in E' as (m&_&E'). apply bind_Ok in E' as (n&En&E'). apply bind_Ok in E' as (u&_&[= <-]).
  by apply uint64_Ok in En as [-> ?].
Qed.

Lemma deficit_typed h prev_b ov n d : calculate_deficit constants h prev_b ov n = Ok d → valid U8 d.
Proof.
  assert (Hu : ∀ z, uint8 z = Ok d → valid U8 d).
  { intros z Ez. apply uint8_Ok in Ez as [-> Hz]. cbn. apply andb_true_iff. rewrite Z.leb_le, Z.ltb_lt. cbn. lia. }
  unfold calculate_deficit. intros E. destruct (h =? 0); [by eapply Hu|]. destruct prev_b as [b|]; [|done].
  repeat match type of E with context [if ?c then _ else _] => destruct c end; by eapply Hu.
Qed.

Lemma nearest_tx_typed o v : nearest_tx blocks o v → (∀ b, o = Some b → well_formed b) → valid U32 v.
Proof.
  induction 1 as [|b Ht|b p v Ht Ep _ IH]; intros Ho; [done| |].
  - by destruct (record_fields b (Ho b eq_refl)).
  - apply IH. intros b' ->. by eapply try_record_typed.
Qed.

Lemma summary_typed h pp nd ns ses :
  well_formed pp → valid (TOptional U64) nd → valid (TOptional U64) ns →
  make_sub_epoch_summary constants blocks fuel h pp nd ns = Ok ses → well_formed ses.
Proof.
  intros Hpp Hnd Hns E. unfold make_sub_epoch_summary in E. apply bind_Ok in E as (u&_&E). apply bind_Ok in E as (n&_&E).
  pose proof (ty_genesis Hty) as Hg. destruct (n <=? 1); [injection E as <-; by split_and!|].
  apply bind_Ok in E as ([curr s]&Ec&E). apply bind_Ok in E as (slots&Es&E). apply bind_Ok in E as (ps&Eps&E).
  apply bind_Ok in E as (l&El&E). apply bind_Ok in E as (m&_&E). apply bind_Ok in E as (ov&Eov&[= <-]).
  assert (Hc : well_formed curr).
  { apply (loop_inv (find_summary_body blocks) well_formed (λ x, well_formed x.1)) in Ec; [done| | |done].
    - intros b b' Hb E. unfold find_summary_body in E. destruct (sub_epoch_summary_included b); [done|].
      apply bind_Ok in E as (p&Ep&[= <-]). by eapply ty_records.
    - intros b [b' s'] Hb E. unfold find_summary_body in E. destruct (sub_epoch_summary_included b) as [s0|].
      + by injection E as <- _.
      + by apply bind_Ok in E as (p&Ep&[= ]). }
  destruct (record_fields curr Hc) as (_&_&Hrh&_). apply of_opt_Ok in Es. rewrite Es in Hrh. destruct Hrh as [Hrh _].
  apply uint8_Ok in Eov as [-> Hov].
  assert (Hl : valid B32 l).
  { unfold py_index in El. cbv zeta in El. destruct (_ <? 0) in El; [done|]. apply of_opt_Ok in El.
    rewrite list.Forall_forall in Hrh. by eapply Hrh, list_elem_of_lookup_2. }
  split; [exact (hash_valid _ _ Eps)|]. split; [exact Hl|]. split; [|split; [exact Hnd|split; [exact Hns|exact I]]].
  cbn. apply andb_true_iff. rewrite Z.leb_le, Z.ltb_lt. cbn. lia.
Qed.

(** ** The parts of a well-formed block *)
Lemma omap_le {A B} (f : A → option B) (l : list A) : (length (omap f l) <= length l)%nat.
Proof. induction l as [|x l IH]; cbn; [done|]. destruct (f x); cbn; lia. Qed.

Lemma well_formed_list `{Fields A} (l : list A) : valid (TList (code A)) (map_list l) → Forall well_formed l ∧ Z.of_nat (length l) < 2 ^ 32.
Proof.
  intros [Hl Hn]. unfold map_list in *. rewrite length_map in Hn. split; [|done]. clear Hn.
  induction l as [|x l IH]; [done|]. apply Forall_cons in Hl as [Hx Hl]. constructor; auto.
Qed.
Lemma well_formed_option `{Fields A} (o : option A) x : valid (TOptional (code A)) (map_opt o) → o = Some x → well_formed x.
Proof. by intros Ho ->. Qed.

Record block_parts (block : FullBlock.t) : Prop := {
  bp_slots : Forall well_formed (FullBlock.finished_sub_slots block);
  bp_count : Z.of_nat (length (FullBlock.finished_sub_slots block)) < 2 ^ 32;
  bp_rcb : well_formed (FullBlock.reward_chain_block block);
  bp_foliage : well_formed (FullBlock.foliage block);
  bp_ftb : ∀ ftb, FullBlock.foliage_transaction_block block = Some ftb → well_formed ftb;
  bp_ti : ∀ ti, FullBlock.transactions_info block = Some ti → well_formed ti;
}.
Lemma block_parts_ok block : well_formed block → block_parts block.
Proof.
  intros (Hsl&Hrcb&_&_&_&_&_&Hf&Hftb&Hti&_). apply (well_formed_list (FullBlock.finished_sub_slots block)) in Hsl as [Hsl Hn].
  split; [exact Hsl|exact Hn|exact Hrcb|exact Hf| |].
  - intros ftb. exact (well_formed_option _ ftb Hftb).
  - intros ti. exact (well_formed_option _ ti Hti).
Qed.

(** What a sub slot proposes for the next epoch *)
Lemma slot_fields s : well_formed s →
  valid (TOptional U64) (ChallengeChainSubSlot.new_difficulty (EndOfSubSlotBundle.challenge_chain s))
  ∧ valid (TOptional U64) (ChallengeChainSubSlot.new_sub_slot_iters (EndOfSubSlotBundle.challenge_chain s)).
Proof. intros ((_&_&_&Hs&Hd&_)&_). split; [exact Hd|exact Hs]. Qed.

(** The record made from typed parts *)
Lemma header_record_typed ri block ssi ov d pt ses br :
  block_parts block → 0 <= ri < 2 ^ 64 → 0 <= ssi < 2 ^ 64 → valid U8 d → valid U32 pt →
  (∀ s, ses = Some s → well_formed s) →
  header_block_to_sub_block_record constants ri block ssi ov d pt ses = Ok br → well_formed br.
Proof.
  intros [Hsl Hn Hrcb Hf Hftb Hti] Hri Hssi Hd Hpt Hses E. unfold header_block_to_sub_block_record in E.
  apply bind_Ok in E as ([[ch rh] ih]&Eh&E). apply bind_Ok in E as (hh&Ehh&E). apply bind_Ok in E as (rh'&Erh&E).
  apply bind_Ok in E as (cb&Ecb&[= <-]).
  assert (valid (TOptional (TList B32)) ch ∧ valid (TOptional (TList B32)) rh ∧ valid (TOptional (TList B32)) ih) as (Hch&Hrh&Hih).
  { pose proof (ty_genesis Hty) as Hg. destruct (bool_decide _).
    - apply bind_Ok in Eh as (c&Ec&Eh). apply bind_Ok in Eh as (r&Er&Eh). apply bind_Ok in Eh as (i&Ei&[= <- <- <-]).
      split; [exact (hashes_valid _ _ _ Ec Hn)|]. split; [exact (hashes_valid _ _ _ Er Hn)|].
      apply (hashes_valid id _ _ Ei). assert (Hle := omap_le EndOfSubSlotBundle.infused_challenge_chain (FullBlock.finished_sub_slots block)).
      lia.
    - destruct (_ =? 0); injection Eh as <- <- <-; [|done]. assert (Hl : valid (TList B32) [GENESIS_CHALLENGE constants]) by (split; [by constructor|done]). done. }
  destruct Hrcb as (Hw&Hh&Ht&Hsp&_&Hps&_&_&Hip&_&_&_&Hicc&_). destruct Hf as (Hprev&_&(_&(Hpp&_)&_&Hfp&_)&_).
  destruct Hps as (_&_&_&_&_&_&Hfk&_). destruct Hip as (_&_&(Hout&_)&_).
  split; [exact (hash_valid _ _ Ehh)|]. split; [exact Hprev|]. split; [exact Hh|]. split; [exact Hw|]. split; [exact Ht|].
  assert (Hts : valid (TOptional U64) (FoliageTransactionBlock.timestamp <$> FullBlock.foliage_transaction_block block)
    ∧ valid (TOptional B32) (FoliageTransactionBlock.prev_transaction_block_hash <$> FullBlock.foliage_transaction_block block)).
  { destruct (FullBlock.foliage_transaction_block block) as [ftb|]; [|done].
    destruct (Hftb ftb eq_refl) as (Hp&Hts&_). split; [exact Hts|exact Hp]. }
  assert (Hfees : valid (TOptional U64) (TransactionsInfo.fees <$> FullBlock.transactions_info block)
    ∧ valid (TOptional (TList (code Coin))) (map_list <$> (TransactionsInfo.reward_claims_incorporated <$> FullBlock.transactions_info block))).
  { destruct (FullBlock.transactions_info block) as [ti|]; [|done].
    destruct (Hti ti eq_refl) as (_&_&_&Hfe&_&Hcl&_). split; [exact Hfe|exact Hcl]. }
  split; [exact Hsp|]. split; [exact Hout|]. split.
  { change (valid (TOptional (TSized 100)) ((λ v, ClassgroupElement.data (VDFInfo.output v))
      <$> RewardChainBlock.infused_challenge_chain_ip_vdf (FullBlock.reward_chain_block block))).
    destruct (RewardChainBlock.infused_challenge_chain_ip_vdf _) as [v|] eqn:Ev; [|exact I].
    destruct (well_formed_option _ v Hicc Ev) as (_&_&(Hd'&_)&_). exact Hd'. }
  split; [exact (hash_valid _ _ Erh)|]. split; [exact (hash_valid _ _ Ecb)|]. split; [exact (u64_valid _ Hssi)|].
  split; [exact Hpp|]. split; [exact Hfp|]. split; [exact (u64_valid _ Hri)|]. split; [exact Hd|]. split; [exact I|].
  split; [exact Hpt|]. split; [apply Hts|]. split; [apply Hts|]. split; [apply Hfees|]. split; [apply Hfees|].
  split; [exact Hch|]. split; [exact Hih|]. split; [exact Hrh|]. split; [|split; [exact Hfk|exact I]].
  change (valid (TOptional (code SubEpochSummary)) (map_opt ses)). destruct ses as [ses|]; [by apply Hses|exact I].
Qed.

(** The summary of a block is made from the chain and its first sub slot. *)
Lemma record_typed ri block br :
  block_parts block → 0 <= ri < 2 ^ 64 → block_to_block_record constants blocks fuel ri block = Ok br → well_formed br.
Proof.
  intros Hb Hri E. unfold block_to_block_record in E. cbv zeta in E. apply bind_Ok in E as (prev_b&Ep&E).
  assert (Hprev : ∀ b, prev_b = Some b → well_formed b) by (intros b; by apply try_record_typed with (1 := Ep)).
  apply bind_Ok in E as (u&_&E). apply bind_Ok in E as ([ssi dd]&Essi&E). apply bind_Ok in E as (ov&_&E).
  apply bind_Ok in E as (d&Ed&E). apply bind_Ok in E as (ses&Eses&E). apply bind_Ok in E as (curr&Ec&E).
  apply bind_Ok in E as (pt&Ept&E). rewrite Ep in Ec. injection Ec as <-.
  apply prev_tx_loop in Ept. eapply header_record_typed in E; [exact E|exact Hb|exact Hri| | | |].
  - exact (next_ssi_typed _ _ _ _ Hprev Essi).
  - by eapply deficit_typed.
  - by eapply nearest_tx_typed.
  - intros s ->. destruct (foldl _ _ _) as [found|]; [|done].
    destruct Hb as [Hsl _ _ _ _ _]. destruct (FullBlock.finished_sub_slots block) as [|s0 sl]; [done|].
    destruct (bool_decide _) in Eses; [done|]. apply bind_Ok in Eses as (pb&Epb&Eses). apply bind_Ok in Eses as (pp&Epp&Eses).
    apply bind_Ok in Eses as (ses'&Em&Eses). apply bind_Ok in Eses as (h&_&Eses). apply bind_Ok in Eses as (u'&_&[= ->]).
    apply Forall_cons in Hsl as [Hs0 _]. destruct (slot_fields s0 Hs0) as [Hd Hs].
    exact (summary_typed _ _ _ _ _ (ty_records Hty _ _ Epp) Hd Hs Em).
Qed.
End Typed.

Lemma record_entry_ok `{Packages} `{StdHash} (constants : ConsensusConstants) (blocks : BlockchainInterface) (fuel : nat)
    (required_iters : Z) (block : FullBlock.t) (br : BlockRecord) :
  typed_chain constants blocks → well_formed block → 0 <= required_iters < 2 ^ 64 →
  block_to_block_record constants blocks fuel required_iters block = Ok br →
  well_formed br ∧ block_header_hash block = Ok (header_hash br) ∧ entry_ok (header_hash br) (block, br).
Proof.
  intros Hty Hb Hri E. pose proof (record_typed _ _ _ Hty _ _ _ (block_parts_ok _ Hb) Hri E) as Hbr.
  destruct (record_inv _ _ _ _ _ _ E) as (prev_b&ssi&ov&d&pt&ses&Er&_).
  destruct (header_record_fields _ _ _ _ _ _ _ _ _ Er) as (E1&E2&E3&_).
  split; [exact Hbr|]. split; [exact E1|]. pose proof Hbr as ([Hhh _]&[Hprev _]&_).
  destruct (record_fields br Hbr) as (_&_&_&Hses). split; [by split|exact Hb|exact Hbr|exact Hses|split; [exact Hprev|exact (eq_sym E2)]|exact (eq_sym E3)].
Qed.

(** C11. From a well-formed block on a chain whose records and constants are of their types,
    [block_to_block_record] makes a record of the right type that can be stored with the
    block: every integer fits its width, every hash and key its length, the summary
    included. *)
Theorem record_well_formed `{Packages} `{StdHash} (constants : ConsensusConstants) (blocks : BlockchainInterface) (fuel : nat)
    (required_iters : Z) (block : FullBlock.t) (br : BlockRecord) :
  typed_chain constants blocks → well_formed block → 0 <= required_iters < 2 ^ 64 →
  block_to_block_record constants blocks fuel required_iters block = Ok br →
  well_formed br ∧ block_header_hash block = Ok (header_hash br) ∧ entry_ok (header_hash br) (block, br).
Proof. apply record_entry_ok. Qed.
