(* ===== verification/HeaderValidation.v ===== *)
(** * Validation of the header of a block

    Models [chia/consensus/block_header_validation.py],
    [chia/consensus/vdf_info_computation.py], [VDFProof.is_valid] of
    [chia/types/blockchain_format/vdf.py] and the methods of
    [chia/types/blockchain_format/proof_of_space.py].

    The packages the code calls are parameters: [Vdf] is [chiavdf], [PlotTools] the
    verifier of [chiapos], the bit strings of [bitstring] and the keys of [blspy];
    [time_time] is the clock.  [difficulty_coeff] is the method
    [get_farmer_difficulty_coeff] of the chain.  Loops that follow [prev_hash] take the
    fuel of the section.

    A validator returns a value or an error code, and may raise: [V]. *)
From S2P Require Import Prelude PyInt PyFloat PyDecimal Consensus ChainView Difficulty Errors Streamable BlockTypes.
From S2P Require Import BlockToRecord.

(** [inl] is a value, [inr] the [ValidationError] the source returns. *)
Notation V A := (res (A + Err.t)).
Definition accept {A} (a : A) : V A := Ok (inl a).
Definition reject {A} (e : Err.t) : V A := Ok (inr e).
Definition v_bind {A B} (m : V A) (k : A → V B) : V B :=
  r ← m; match r with inl a => k a | inr e => Ok (inr e) end.
Notation "x ⇐ m ; k" := (v_bind m (λ x, k)) (at level 20, m at level 100, k at level 200, only parsing).
Notation "' p ⇐ m ; k" := (v_bind m (λ x, match x with p => k end))
  (at level 20, p pattern, m at level 100, k at level 200, only parsing).

#[export] Instance ClassgroupElement_eq_dec : EqDecision ClassgroupElement.t.
Proof. solve_decision. Defined.
#[export] Instance VDFInfo_eq_dec : EqDecision VDFInfo.t.
Proof. solve_decision. Defined.

Class Vdf := {
  (** [int(create_discriminant(challenge, size), 16)] *)
  create_discriminant : bytes → Z → res Z;
  (** discriminant, input, output and witness, iterations, discriminant size, witness type *)
  verify_n_wesolowski : Z → bytes → bytes → Z → Z → Z → res bool;
}.

Class PlotTools := {
  (** [Verifier().validate_proof(plot_id, size, challenge, proof)] *)
  validate_proof : bytes → Z → bytes → bytes → res bytes;
  (** [BitArray(b)[:n].uint] *)
  leading_bits : bytes → Z → res Z;
  (** [a + b] on [G1Element] *)
  g1_add : bytes → bytes → bytes;
  (** [AugSchemeMPL.key_gen(seed).get_g1()] *)
  key_gen_g1 : bytes → bytes;
  (** [AugSchemeMPL.verify(public_key, message, signature)] *)
  mpl_verify : bytes → bytes → bytes → bool;
}.

(** The bytes of [ClassgroupElement.get_default_element()] *)
Definition default_element : bytes := 8 :: replicate 99 0.
Lemma default_element_eq : ClassgroupElement.get_default_element = Ok {| ClassgroupElement.data := default_element |}.
Proof. reflexivity. Qed.

Definition output_data (i : VDFInfo.t) : bytes := ClassgroupElement.data (VDFInfo.output i).
(** [VDFInfo(challenge, iterations, info.output)] *)
Definition with_output (challenge : bytes) (iterations : Z) (info : VDFInfo.t) : VDFInfo.t := {|
  VDFInfo.challenge := challenge; VDFInfo.number_of_iterations := iterations; VDFInfo.output := VDFInfo.output info |}.

(** ** [VDFProof.is_valid] *)
Section VdfProof.
Context `{Vdf} (constants : ConsensusConstants).

Definition verify_vdf (disc : Z) (input_el output : bytes) (iterations size witness_type : Z) : res bool :=
  verify_n_wesolowski disc input_el output iterations size witness_type.

Definition is_valid (self : VDFProof.t) (input_el : bytes) (info : VDFInfo.t) (target_vdf_info : option VDFInfo.t) : bool :=
  if match target_vdf_info with Some t => bool_decide (info ≠ t) | None => false end then false
  else if MAX_VDF_WITNESS_SIZE constants <? VDFProof.witness_type self + 1 then false
  else
    match (disc ← create_discriminant (VDFInfo.challenge info) (DISCRIMINANT_SIZE_BITS constants);
           verify_vdf disc input_el (output_data info ++ VDFProof.witness self) (VDFInfo.number_of_iterations info)
             (DISCRIMINANT_SIZE_BITS constants) (VDFProof.witness_type self))
    with Ok b => b | _ => false end.

(** The check of a proof that may be normalized to the identity: [target] from the
    point [input_el], or the committed [info] from the default element. *)
Definition proof_checks (self : VDFProof.t) (input_el : bytes) (target info : VDFInfo.t) : bool :=
  if VDFProof.normalized_to_identity self then is_valid self default_element info None
  else is_valid self input_el target None.
End VdfProof.

(** ** [proof_of_space.py] *)
Section ProofOfSpaceMethods.
Context `{StdHash} `{PlotTools} (constants : ConsensusConstants).

Definition generate_taproot_sk (local_pk farmer_pk : bytes) : bytes :=
  key_gen_g1 (std_hash (g1_add local_pk farmer_pk ++ local_pk ++ farmer_pk)).
Definition generate_plot_public_key (local_pk farmer_pk : bytes) (include_taproot : bool) : bytes :=
  if include_taproot then g1_add (g1_add local_pk farmer_pk) (generate_taproot_sk local_pk farmer_pk)
  else g1_add local_pk farmer_pk.
Definition plot_public_key (self : ProofOfSpace.t) : bytes :=
  generate_plot_public_key (ProofOfSpace.local_public_key self) (ProofOfSpace.farmer_public_key self)
    (negb (is_None (ProofOfSpace.pool_contract_puzzle_hash self))).
Definition calculate_plot_id_pk (pool_public_key plot_public_key : bytes) : bytes :=
  std_hash (pool_public_key ++ plot_public_key).
Definition calculate_plot_id_ph (pool_contract_puzzle_hash plot_public_key : bytes) : bytes :=
  std_hash (pool_contract_puzzle_hash ++ plot_public_key).
Definition get_plot_id (self : ProofOfSpace.t) : res bytes :=
  match ProofOfSpace.pool_public_key self, ProofOfSpace.pool_contract_puzzle_hash self with
  | Some _, Some _ => Raise AssertionError
  | None, Some ph => Ok (calculate_plot_id_ph ph (plot_public_key self))
  | Some pk, None => Ok (calculate_plot_id_pk pk (plot_public_key self))
  | None, None => Raise TypeError
  end.
Definition calculate_plot_filter_input (plot_id challenge_hash signage_point : bytes) : bytes :=
  std_hash (plot_id ++ challenge_hash ++ signage_point).
Definition calculate_pos_challenge (plot_id challenge_hash signage_point : bytes) : bytes :=
  std_hash (calculate_plot_filter_input plot_id challenge_hash signage_point).
Definition passes_plot_filter (plot_id challenge_hash signage_point : bytes) : res bool :=
  n ← leading_bits (calculate_plot_filter_input plot_id challenge_hash signage_point)
        (NUMBER_ZERO_BITS_PLOT_FILTER constants);
  Ok (n =? 0).
Definition get_quality_string (self : ProofOfSpace.t) (plot_id : bytes) : res (option bytes) :=
  quality_str ← validate_proof plot_id (ProofOfSpace.size self) (ProofOfSpace.challenge self) (ProofOfSpace.proof self);
  match quality_str with
  | [] => Ok None
  | _ => q ← sized_bytes_new 32 quality_str; Ok (Some q)
  end.
Definition verify_and_get_quality_string (self : ProofOfSpace.t) (original_challenge_hash signage_point : bytes) :
    res (option bytes) :=
  if is_None (ProofOfSpace.pool_public_key self) && is_None (ProofOfSpace.pool_contract_puzzle_hash self) then Ok None
  else if negb (is_None (ProofOfSpace.pool_public_key self))
          && negb (is_None (ProofOfSpace.pool_contract_puzzle_hash self)) then Ok None
  else if ProofOfSpace.size self <? MIN_PLOT_SIZE constants then Ok None
  else if MAX_PLOT_SIZE constants <? ProofOfSpace.size self then Ok None
  else
    plot_id ← get_plot_id self;
    if bool_decide (calculate_pos_challenge plot_id original_challenge_hash signage_point
                    ≠ ProofOfSpace.challenge self) then Ok None
    else
      pass ← passes_plot_filter plot_id original_challenge_hash signage_point;
      if negb pass then Ok None else get_quality_string self plot_id.
End ProofOfSpaceMethods.

(** ** Walks along a chain *)
Section Walks.
Context (constants : ConsensusConstants) (blocks : BlockchainInterface) (fuel : nat).

(** [while not stop(curr): curr = blocks.block_record(curr.prev_hash)] *)
Definition walk_back_body (stop : BlockRecord → bool) (curr : BlockRecord) : res (BlockRecord + BlockRecord) :=
  if stop curr then Ok (inr curr) else p ← block_record blocks (prev_hash curr); Ok (inl p).
Definition walk_back (stop : BlockRecord → bool) (b : BlockRecord) : res BlockRecord :=
  loop fuel (walk_back_body stop) b.

(** The first block of the sub slot of [b] *)
Definition sub_slot_start : BlockRecord → res BlockRecord := walk_back first_in_sub_slot.
(** The last element of a list of slot hashes that must be there *)
Definition last_hash (l : option (list bytes)) : res bytes :=
  l ← of_opt AssertionError l; py_index l (-1).

(** ** [get_signage_point_vdf_info] *)
Record SpVdf := { sv_cc_challenge : bytes; sv_rc_challenge : bytes; sv_cc_input : bytes; sv_iters : Z }.

(** Cases 4 and 6: from the last block before the signage point in its sub slot, or
    from the start of that sub slot *)
Definition sp_vdf_in_slot (prev_b : BlockRecord) (sp_total_iters sp_iters : Z) : res SpVdf :=
  curr ← walk_back (λ c, first_in_sub_slot c || (total_iters c <=? sp_total_iters)) prev_b;
  '(iters, input, rc) ←
    (if total_iters curr <? sp_total_iters then
       i ← uint64 (sp_total_iters - total_iters curr);
       Ok (i, challenge_vdf_output curr, reward_infusion_new_challenge curr)
     else
       rc ← last_hash (finished_reward_slot_hashes curr);
       Ok (sp_iters, default_element, rc));
  start ← sub_slot_start curr;
  cc ← last_hash (finished_challenge_slot_hashes start);
  Ok {| sv_cc_challenge := cc; sv_rc_challenge := rc; sv_cc_input := input; sv_iters := iters |}.

(** Case 5: the ends of the two last sub slots, and the last block before the signage
    point *)
Definition slot_ends (b : BlockRecord) : res (list (bytes * bytes)) :=
  if first_in_sub_slot b then
    cc ← of_opt AssertionError (finished_challenge_slot_hashes b);
    rc ← of_opt AssertionError (finished_reward_slot_hashes b);
    Ok (rev (zip cc rc))
  else Ok [].
Definition before_sp (sp_total_iters : Z) (sp_pre_sb : option BlockRecord) (curr : BlockRecord) : option BlockRecord :=
  if is_None sp_pre_sb && (total_iters curr <? sp_total_iters) then Some curr else sp_pre_sb.
Definition two_slots_body (sp_total_iters : Z) (s : BlockRecord * list (bytes * bytes) * option BlockRecord) :
    res (BlockRecord * list (bytes * bytes) * option BlockRecord + BlockRecord * list (bytes * bytes) * option BlockRecord) :=
  let '(curr, found_sub_slots, sp_pre_sb) := s in
  if bool_decide (length found_sub_slots < 2)%nat && (0 <? height curr) then
    let sp_pre_sb := before_sp sp_total_iters sp_pre_sb curr in
    curr ← block_record blocks (prev_hash curr);
    ends ← slot_ends curr;
    Ok (inl (curr, found_sub_slots ++ ends, sp_pre_sb))
  else Ok (inr (curr, found_sub_slots, sp_pre_sb)).
Definition sp_vdf_two_slots (prev_b : BlockRecord) (sp_total_iters sp_iters : Z) : res SpVdf :=
  ends ← slot_ends prev_b;
  '(curr, found_sub_slots, sp_pre_sb) ← loop fuel (two_slots_body sp_total_iters) (prev_b, ends, None);
  '(iters, input, rc) ←
    match before_sp sp_total_iters sp_pre_sb curr with
    | Some b =>
        i ← uint64 (sp_total_iters - total_iters b);
        Ok (i, challenge_vdf_output b, reward_infusion_new_challenge b)
    | None => e ← py_index found_sub_slots 1; Ok (sp_iters, default_element, e.2)
    end;
  e ← py_index found_sub_slots 1;
  Ok {| sv_cc_challenge := e.1; sv_rc_challenge := rc; sv_cc_input := input; sv_iters := iters |}.

End Walks.

Definition get_signage_point_vdf_info `{Packages} `{StdHash} (constants : ConsensusConstants)
    (blocks : BlockchainInterface) (fuel : nat) (finished_sub_slots : list EndOfSubSlotBundle.t) (overflow : bool)
    (prev_b : option BlockRecord) (sp_total_iters sp_iters : Z) : res SpVdf :=
  let from_slot := λ slot,
    rc ← hash_of (EndOfSubSlotBundle.reward_chain slot);
    cc ← hash_of (EndOfSubSlotBundle.challenge_chain slot);
    Ok {| sv_cc_challenge := cc; sv_rc_challenge := rc; sv_cc_input := default_element; sv_iters := sp_iters |} in
  let new_sub_slot := bool_decide (0 < length finished_sub_slots)%nat in
  if new_sub_slot && negb overflow then slot ← py_index finished_sub_slots (-1); from_slot slot
  else if new_sub_slot && overflow && bool_decide (1 < length finished_sub_slots)%nat then
    slot ← py_index finished_sub_slots (-2); from_slot slot
  else
    match prev_b with
    | None =>
        Ok {| sv_cc_challenge := GENESIS_CHALLENGE constants; sv_rc_challenge := GENESIS_CHALLENGE constants;
              sv_cc_input := default_element; sv_iters := sp_iters |}
    | Some prev_b =>
        if new_sub_slot && overflow then sp_vdf_in_slot blocks fuel prev_b sp_total_iters sp_iters
        else if overflow then sp_vdf_two_slots blocks fuel prev_b sp_total_iters sp_iters
        else sp_vdf_in_slot blocks fuel prev_b sp_total_iters sp_iters
    end.

(** ** Finished sub slots (check 2) *)
Section SubSlots.
Context `{Packages} `{StdHash} `{Vdf} (constants : ConsensusConstants) (blocks : BlockchainInterface) (fuel : nat).

(** 2a to 2c; [prev_slot] is the finished sub slot before, if any. *)
Definition check_slot_challenge (prev_b : option BlockRecord) (prev_slot : option EndOfSubSlotBundle.t)
    (challenge_hash : bytes) : V unit :=
  match prev_slot, prev_b with
  | None, None =>
      if bool_decide (challenge_hash ≠ GENESIS_CHALLENGE constants) then reject Err.INVALID_PREV_CHALLENGE_SLOT_HASH
      else accept tt
  | None, Some prev_b =>
      curr ← sub_slot_start blocks fuel prev_b;
      h ← last_hash (finished_challenge_slot_hashes curr);
      if bool_decide (h ≠ challenge_hash) then reject Err.INVALID_PREV_CHALLENGE_SLOT_HASH else accept tt
  | Some slot, _ =>
      h ← hash_of (EndOfSubSlotBundle.challenge_chain slot);
      if bool_decide (h ≠ challenge_hash) then reject Err.INVALID_PREV_CHALLENGE_SLOT_HASH else accept tt
  end.

(** The infused challenge chain a sub slot must continue: its challenge, the
    iterations it commits to and the ones proved, and the input of the proof *)
Definition icc_expected (prev_b : BlockRecord) (prev_slot : option EndOfSubSlotBundle.t) :
    res (option (bytes * Z * Z * option bytes)) :=
  if deficit prev_b <? MIN_BLOCKS_PER_CHALLENGE_BLOCK constants then
    match prev_slot with
    | None =>
        curr ← walk_back blocks fuel (λ c, is_challenge_block constants c || first_in_sub_slot c) prev_b;
        '(challenge, committed) ←
          (if is_challenge_block constants curr then
             ip ← br_ip_iters constants curr;
             i ← uint64 (sub_slot_iters prev_b - ip);
             Ok (challenge_block_info_hash curr, i)
           else
             h ← last_hash (finished_infused_challenge_slot_hashes curr);
             Ok (h, sub_slot_iters prev_b));
        ip ← br_ip_iters constants prev_b;
        proved ← uint64 (sub_slot_iters prev_b - ip);
        let input := if is_challenge_block constants prev_b then Some default_element
                     else infused_challenge_vdf_output prev_b in
        Ok (Some (challenge, committed, proved, input))
    | Some slot =>
        if RewardChainSubSlot.deficit (EndOfSubSlotBundle.reward_chain slot)
           <? MIN_BLOCKS_PER_CHALLENGE_BLOCK constants then
          icc ← of_opt AssertionError (EndOfSubSlotBundle.infused_challenge_chain slot);
          h ← hash_of icc;
          Ok (Some (h, sub_slot_iters prev_b, sub_slot_iters prev_b, Some default_element))
        else Ok None
    end
  else Ok None.

(** 2e to 2k *)
Definition check_slot_icc (skip_vdf_is_valid : bool) (prev_b : BlockRecord)
    (prev_slot : option EndOfSubSlotBundle.t) (sub_slot : EndOfSubSlotBundle.t) : V unit :=
  expected ← icc_expected prev_b prev_slot;
  let cc := EndOfSubSlotBundle.challenge_chain sub_slot in
  let rc := EndOfSubSlotBundle.reward_chain sub_slot in
  match EndOfSubSlotBundle.infused_challenge_chain sub_slot, expected with
  | Some icc, Some (challenge, committed, proved, input) =>
      input ← of_opt AssertionError input;
      proof ← of_opt AssertionError
                (SubSlotProofs.infused_challenge_chain_slot_proof (EndOfSubSlotBundle.proofs sub_slot));
      let vdf := InfusedChallengeChainSubSlot.infused_challenge_chain_end_of_slot_vdf icc in
      if bool_decide (vdf ≠ with_output challenge committed vdf) then reject Err.INVALID_ICC_EOS_VDF
      else if negb skip_vdf_is_valid
              && negb (proof_checks constants proof input (with_output challenge proved vdf) vdf)
      then reject Err.INVALID_ICC_EOS_VDF
      else
        h ← hash_of icc;
        if RewardChainSubSlot.deficit rc =? MIN_BLOCKS_PER_CHALLENGE_BLOCK constants then
          if bool_decide (Some h ≠ ChallengeChainSubSlot.infused_challenge_chain_sub_slot_hash cc)
          then reject Err.INVALID_ICC_HASH_CC
          else if bool_decide (Some h ≠ RewardChainSubSlot.infused_challenge_chain_sub_slot_hash rc)
          then reject Err.INVALID_ICC_HASH_RC else accept tt
        else if negb (is_None (ChallengeChainSubSlot.infused_challenge_chain_sub_slot_hash cc))
        then reject Err.INVALID_ICC_HASH_CC
        else if bool_decide (Some h ≠ RewardChainSubSlot.infused_challenge_chain_sub_slot_hash rc)
        then reject Err.INVALID_ICC_HASH_RC else accept tt
  | None, None =>
      if negb (is_None (ChallengeChainSubSlot.infused_challenge_chain_sub_slot_hash cc))
      then reject Err.INVALID_ICC_HASH_CC
      else if negb (is_None (RewardChainSubSlot.infused_challenge_chain_sub_slot_hash rc))
      then reject Err.INVALID_ICC_HASH_RC else accept tt
  | _, _ => Raise AssertionError
  end.

(** 2l to 2o; returns the summary hash seen so far. *)
Definition check_slot_summary (can_finish_epoch : bool) (expected_difficulty expected_sub_slot_iters : Z)
    (prev_slot : option EndOfSubSlotBundle.t) (sub_slot : EndOfSubSlotBundle.t) (ses_hash : option bytes) :
    V (option bytes) :=
  let cc := EndOfSubSlotBundle.challenge_chain sub_slot in
  let rc := EndOfSubSlotBundle.reward_chain sub_slot in
  let own := ChallengeChainSubSlot.subepoch_summary_hash cc in
  ses_hash ← (if is_None own then Ok ses_hash else assert_ (is_None ses_hash) ;; Ok own);
  if negb (is_None prev_slot) && negb (is_None own) then reject Err.INVALID_SUB_EPOCH_SUMMARY_HASH
  else
    let new_iters_ok := if can_finish_epoch && negb (is_None own)
      then bool_decide (ChallengeChainSubSlot.new_sub_slot_iters cc = Some expected_sub_slot_iters)
      else is_None (ChallengeChainSubSlot.new_sub_slot_iters cc) in
    let new_difficulty_ok := if can_finish_epoch && negb (is_None own)
      then bool_decide (ChallengeChainSubSlot.new_difficulty cc = Some expected_difficulty)
      else is_None (ChallengeChainSubSlot.new_difficulty cc) in
    if negb new_iters_ok then reject Err.INVALID_NEW_SUB_SLOT_ITERS
    else if negb new_difficulty_ok then reject Err.INVALID_NEW_DIFFICULTY
    else
      h ← hash_of cc;
      if bool_decide (h ≠ RewardChainSubSlot.challenge_chain_sub_slot_hash rc)
      then reject Err.INVALID_CHALLENGE_SLOT_HASH_RC else accept ses_hash.

(** The start of the end-of-slot VDFs: the challenge of the reward chain, the
    iterations left in the slot, and the input of the challenge chain *)
Definition eos_start (expected_sub_slot_iters : Z) (prev_b : option BlockRecord)
    (prev_slot : option EndOfSubSlotBundle.t) : res (bytes * Z * bytes) :=
  match prev_slot, prev_b with
  | Some slot, _ =>
      h ← hash_of (EndOfSubSlotBundle.reward_chain slot); Ok (h, expected_sub_slot_iters, default_element)
  | None, None => Ok (GENESIS_CHALLENGE constants, expected_sub_slot_iters, default_element)
  | None, Some prev_b =>
      ip ← br_ip_iters constants prev_b;
      i ← uint64 (sub_slot_iters prev_b - ip);
      Ok (reward_infusion_new_challenge prev_b, i, challenge_vdf_output prev_b)
  end.

(** 2p and 2q *)
Definition check_slot_vdfs (skip_vdf_is_valid : bool) (expected_sub_slot_iters : Z) (prev_b : option BlockRecord)
    (prev_slot : option EndOfSubSlotBundle.t) (sub_slot : EndOfSubSlotBundle.t) (challenge_hash : bytes) : V unit :=
  let proofs := EndOfSubSlotBundle.proofs sub_slot in
  let rc_vdf := RewardChainSubSlot.end_of_slot_vdf (EndOfSubSlotBundle.reward_chain sub_slot) in
  let cc_vdf := ChallengeChainSubSlot.challenge_chain_end_of_slot_vdf (EndOfSubSlotBundle.challenge_chain sub_slot) in
  '(rc_challenge, iters, cc_start) ← eos_start expected_sub_slot_iters prev_b prev_slot;
  let cc_challenge := match prev_b, prev_slot with
                      | None, None => GENESIS_CHALLENGE constants | _, _ => challenge_hash end in
  if negb skip_vdf_is_valid
     && negb (is_valid constants (SubSlotProofs.reward_chain_slot_proof proofs) default_element rc_vdf
                (Some (with_output rc_challenge iters rc_vdf)))
  then reject Err.INVALID_RC_EOS_VDF
  else
    let committed := match prev_b, prev_slot with
                     | None, _ => SUB_SLOT_ITERS_STARTING constants
                     | Some b, None => sub_slot_iters b
                     | Some _, Some _ => expected_sub_slot_iters end in
    if bool_decide (cc_vdf ≠ with_output cc_challenge committed cc_vdf) then reject Err.INVALID_CC_EOS_VDF
    else if negb skip_vdf_is_valid
            && negb (proof_checks constants (SubSlotProofs.challenge_chain_slot_proof proofs) cc_start
                       (with_output cc_challenge iters cc_vdf) cc_vdf)
    then reject Err.INVALID_CC_EOS_VDF else accept tt.

(** 2r to 2t *)
Definition check_slot_deficit (prev_b : option BlockRecord) (sub_slot : EndOfSubSlotBundle.t) : V unit :=
  let expected := match prev_b with
    | None => MIN_BLOCKS_PER_CHALLENGE_BLOCK constants
    | Some b => if deficit b =? 0 then MIN_BLOCKS_PER_CHALLENGE_BLOCK constants else deficit b end in
  if negb (RewardChainSubSlot.deficit (EndOfSubSlotBundle.reward_chain sub_slot) =? expected)
  then reject Err.INVALID_DEFICIT else accept tt.

(** One finished sub slot *)
Definition check_sub_slot (skip_vdf_is_valid can_finish_epoch : bool) (expected_difficulty expected_sub_slot_iters : Z)
    (prev_b : option BlockRecord) (s : option EndOfSubSlotBundle.t * option bytes) (sub_slot : EndOfSubSlotBundle.t) :
    V (option EndOfSubSlotBundle.t * option bytes) :=
  let '(prev_slot, ses_hash) := s in
  let challenge_hash := VDFInfo.challenge (ChallengeChainSubSlot.challenge_chain_end_of_slot_vdf
                                             (EndOfSubSlotBundle.challenge_chain sub_slot)) in
  _ ⇐ check_slot_challenge prev_b prev_slot challenge_hash;
  _ ⇐ match prev_b with
      | None => if negb (is_None (EndOfSubSlotBundle.infused_challenge_chain sub_slot))
                then reject Err.SHOULD_NOT_HAVE_ICC else accept tt
      | Some prev_b => check_slot_icc skip_vdf_is_valid prev_b prev_slot sub_slot
      end;
  ses_hash ⇐ check_slot_summary can_finish_epoch expected_difficulty expected_sub_slot_iters prev_slot sub_slot ses_hash;
  _ ⇐ check_slot_vdfs skip_vdf_is_valid expected_sub_slot_iters prev_b prev_slot sub_slot challenge_hash;
  _ ⇐ check_slot_deficit prev_b sub_slot;
  accept (Some sub_slot, ses_hash).

(** ** The sub-epoch summary (check 3) *)
Definition check_summary (check_sub_epoch_summary can_finish_se can_finish_epoch : bool)
    (expected_difficulty expected_sub_slot_iters h : Z) (prev_b : option BlockRecord) (ses_hash : option bytes) : V unit :=
  match ses_hash, prev_b with
  | Some _, None => reject Err.INVALID_SUB_EPOCH_SUMMARY_HASH
  | Some ses_hash, Some prev_b =>
      if negb can_finish_se then reject Err.INVALID_SUB_EPOCH_SUMMARY_HASH
      else if check_sub_epoch_summary then
        pp ← block_record blocks (prev_hash prev_b);
        expected ← make_sub_epoch_summary constants blocks fuel h pp
                     (if can_finish_epoch then Some expected_difficulty else None)
                     (if can_finish_epoch then Some expected_sub_slot_iters else None);
        expected_hash ← hash_of expected;
        if bool_decide (expected_hash ≠ ses_hash) then reject Err.INVALID_SUB_EPOCH_SUMMARY else accept tt
      else accept tt
  | None, Some _ => if can_finish_se || can_finish_epoch then reject Err.INVALID_SUB_EPOCH_SUMMARY else accept tt
  | None, None => accept tt
  end.
End SubSlots.

(** ** [validate_unfinished_header_block] *)
Section Unfinished.
Context `{Packages} `{StdHash} `{VDF : Vdf} `{PlotTools}.
Context (constants : ConsensusConstants) (blocks : BlockchainInterface) (fuel : nat).
Context (difficulty_coeff : bytes → option Z → res decimal) (time_time : float).

(** What check 1 finds out about the place of the block in its chain *)
Record HeaderContext := {
  hc_prev_b : option BlockRecord;
  hc_overflow : bool;
  (** [skip_overflow_last_ss_validation] after its adjustment *)
  hc_skip_last : bool;
  (** [finished_sub_slots_since_prev] *)
  hc_finished : Z;
  hc_height : Z;
  hc_can_finish_se : bool;
  hc_can_finish_epoch : bool;
}.
Definition hc_new_sub_slot (c : HeaderContext) : bool := 0 <? hc_finished c.

(** Check 1 *)
Definition header_context (hb : UnfinishedHeaderBlock.t) (skip_overflow_last_ss_validation : bool)
    (expected_difficulty expected_sub_slot_iters : Z) : V HeaderContext :=
  let rcb := UnfinishedHeaderBlock.reward_chain_block hb in
  let len := Z.of_nat (length (UnfinishedHeaderBlock.finished_sub_slots hb)) in
  prev_b ← try_block_record blocks (UnfinishedHeaderBlock.prev_header_hash hb);
  if is_None prev_b && bool_decide (UnfinishedHeaderBlock.prev_header_hash hb ≠ GENESIS_CHALLENGE constants)
  then reject Err.INVALID_PREV_BLOCK_HASH
  else
    overflow ← is_overflow_block constants (RewardChainBlockUnfinished.signage_point_index rcb);
    '(skip_last, finished) ←
      (if skip_overflow_last_ss_validation && overflow then
         included ← final_eos_is_already_included blocks fuel (unfinished_header_view hb) expected_sub_slot_iters;
         if (included : bool) then Ok (false, len) else Ok (true, len + 1)
       else Ok (skip_overflow_last_ss_validation, len));
    '(h, se, epoch) ←
      match prev_b with
      | None =>
          assert_ (expected_difficulty =? DIFFICULTY_STARTING constants) ;;
          assert_ (expected_sub_slot_iters =? SUB_SLOT_ITERS_STARTING constants) ;;
          Ok (0, false, false)
      | Some prev_b =>
          h ← uint32 (height prev_b + 1);
          if 0 <? finished then
            '(se, epoch) ← can_finish_sub_and_full_epoch constants blocks fuel (height prev_b)
                             (Some (prev_hash prev_b)) (deficit prev_b)
                             (negb (is_None (sub_epoch_summary_included prev_b)));
            Ok (h, se, epoch)
          else Ok (h, false, false)
      end;
    accept {| hc_prev_b := prev_b; hc_overflow := overflow; hc_skip_last := skip_last; hc_finished := finished;
              hc_height := h; hc_can_finish_se := se; hc_can_finish_epoch := epoch |}.

(** Checks 2 and 3 *)
Definition check_finished_sub_slots (skip_vdf_is_valid check_sub_epoch_summary : bool)
    (expected_difficulty expected_sub_slot_iters : Z) (c : HeaderContext) (hb : UnfinishedHeaderBlock.t) : V unit :=
  if hc_new_sub_slot c && negb (hc_skip_last c) then
    '(_, ses_hash) ⇐ for_early (check_sub_slot constants blocks fuel skip_vdf_is_valid (hc_can_finish_epoch c)
                                   expected_difficulty expected_sub_slot_iters (hc_prev_b c)) (None, None)
                       (UnfinishedHeaderBlock.finished_sub_slots hb);
    check_summary constants blocks fuel check_sub_epoch_summary (hc_can_finish_se c) (hc_can_finish_epoch c)
      expected_difficulty expected_sub_slot_iters (hc_height c) (hc_prev_b c) ses_hash
  else accept tt.

(** Check 4 *)
Definition count_body (s : BlockRecord * Z) : res (BlockRecord * Z + Z) :=
  let '(curr, num_blocks) := s in
  if first_in_sub_slot curr then Ok (inr num_blocks)
  else p ← block_record blocks (prev_hash curr); Ok (inl (p, num_blocks + 1)).
Definition check_block_count (c : HeaderContext) : V unit :=
  match hc_prev_b c with
  | Some prev_b =>
      if hc_new_sub_slot c then accept tt
      else
        num_blocks ← loop fuel count_body (prev_b, 2);
        if MAX_SUB_SLOT_BLOCKS constants <? num_blocks then reject Err.TOO_MANY_BLOCKS else accept tt
  | None => accept tt
  end.

(** Checks 5 to 9: the proof of space, and the iterations it requires.  Returns
    [cc_sp_hash], the coefficient, [required_iters], [sp_iters] and [ip_iters]. *)
Definition check_proof_of_space (expected_difficulty expected_sub_slot_iters : Z) (c : HeaderContext)
    (hb : UnfinishedHeaderBlock.t) : V (bytes * decimal * Z * Z * Z) :=
  let rcb := UnfinishedHeaderBlock.reward_chain_block hb in
  let pos := RewardChainBlockUnfinished.proof_of_space rcb in
  let sp_index := RewardChainBlockUnfinished.signage_point_index rcb in
  challenge ← get_block_challenge constants blocks fuel (unfinished_header_view hb) (is_None (hc_prev_b c))
                (hc_overflow c) (hc_skip_last c);
  if bool_decide (challenge ≠ RewardChainBlockUnfinished.pos_ss_cc_challenge_hash rcb)
  then reject Err.INVALID_CC_CHALLENGE
  else
    cc_sp_hash ← match RewardChainBlockUnfinished.challenge_chain_sp_vdf rcb with
                 | None => Ok challenge
                 | Some vdf => hash_of (VDFInfo.output vdf)
                 end;
    q_str ← verify_and_get_quality_string constants pos challenge cc_sp_hash;
    match q_str with
    | None => reject Err.INVALID_POSPACE
    | Some q_str =>
        if NUM_SPS_SUB_SLOT constants <=? sp_index then reject Err.INVALID_SP_INDEX
        else
          let peak_height := if 0 <? hc_height c then hc_height c - 1 else 0 in
          coeff ← difficulty_coeff (ProofOfSpace.farmer_public_key pos) (Some peak_height);
          required_iters ← calculate_iterations_quality (DIFFICULTY_CONSTANT_FACTOR constants) q_str
                             (ProofOfSpace.size pos) (int_of_dec (dec_mul (dec_of_int expected_difficulty) coeff))
                             cc_sp_hash;
          interval ← calculate_sp_interval_iters constants expected_sub_slot_iters;
          if interval <=? required_iters then reject Err.INVALID_REQUIRED_ITERS
          else if negb (eqb (sp_index =? 0) (is_None (RewardChainBlockUnfinished.challenge_chain_sp_vdf rcb)))
          then reject Err.INVALID_SP_INDEX
          else if negb (eqb (sp_index =? 0) (is_None (RewardChainBlockUnfinished.reward_chain_sp_vdf rcb)))
          then reject Err.INVALID_SP_INDEX
          else
            sp_iters ← calculate_sp_iters constants expected_sub_slot_iters sp_index;
            ip_iters ← calculate_ip_iters constants expected_sub_slot_iters sp_index required_iters;
            assert_ (negb (is_None (RewardChainBlockUnfinished.challenge_chain_sp_vdf rcb) && hc_overflow c)) ;;
            if hc_overflow c && hc_can_finish_epoch c && (hc_finished c <? 2)
            then reject Err.NO_OVERFLOWS_IN_FIRST_SUB_SLOT_NEW_EPOCH
            else accept (cc_sp_hash, coeff, required_iters, sp_iters, ip_iters)
    end.

(** Check 10: the total iterations of the block *)
Definition expected_total_iters (expected_sub_slot_iters ip_iters : Z) (c : HeaderContext) : res Z :=
  start ←
    match hc_prev_b c with
    | None => uint128 (expected_sub_slot_iters * hc_finished c)
    | Some prev_b =>
        ip ← br_ip_iters constants prev_b;
        if hc_new_sub_slot c then
          t ← uint128 (total_iters prev_b + sub_slot_iters prev_b - ip);
          uint128 (t + expected_sub_slot_iters * (hc_finished c - 1))
        else uint128 (total_iters prev_b - ip)
    end;
  uint128 (start + ip_iters).

(** The sub slot put in the place of one that is not yet released *)
Definition dummy_sub_slot : EndOfSubSlotBundle.t :=
  let dummy_vdf_info := {| VDFInfo.challenge := replicate 32 0; VDFInfo.number_of_iterations := 1;
    VDFInfo.output := {| ClassgroupElement.data := default_element |} |} in
  let dummy_proof := {| VDFProof.witness_type := 0; VDFProof.witness := [];
    VDFProof.normalized_to_identity := false |} in
  {| EndOfSubSlotBundle.challenge_chain := {|
       ChallengeChainSubSlot.challenge_chain_end_of_slot_vdf := dummy_vdf_info;
       ChallengeChainSubSlot.infused_challenge_chain_sub_slot_hash := None;
       ChallengeChainSubSlot.subepoch_summary_hash := None;
       ChallengeChainSubSlot.new_sub_slot_iters := None;
       ChallengeChainSubSlot.new_difficulty := None |};
     EndOfSubSlotBundle.infused_challenge_chain := None;
     EndOfSubSlotBundle.reward_chain := {|
       RewardChainSubSlot.end_of_slot_vdf := dummy_vdf_info;
       RewardChainSubSlot.challenge_chain_sub_slot_hash := replicate 32 0;
       RewardChainSubSlot.infused_challenge_chain_sub_slot_hash := None;
       RewardChainSubSlot.deficit := 0 |};
     EndOfSubSlotBundle.proofs := {|
       SubSlotProofs.challenge_chain_slot_proof := dummy_proof;
       SubSlotProofs.infused_challenge_chain_slot_proof := None;
       SubSlotProofs.reward_chain_slot_proof := dummy_proof |} |}.

(** Check 11: the reward chain signage point; returns [rc_sp_hash]. *)
Definition check_rc_sp (skip_vdf_is_valid : bool) (c : HeaderContext) (hb : UnfinishedHeaderBlock.t)
    (sp_iters : Z) (sv : SpVdf) : V bytes :=
  let rcb := UnfinishedHeaderBlock.reward_chain_block hb in
  if negb (sp_iters =? 0) then
    vdf ← of_opt AssertionError (RewardChainBlockUnfinished.reward_chain_sp_vdf rcb);
    proof ← of_opt AssertionError (UnfinishedHeaderBlock.reward_chain_sp_proof hb);
    if negb skip_vdf_is_valid
       && negb (is_valid constants proof default_element vdf
                  (Some (with_output (sv_rc_challenge sv) (sv_iters sv) vdf)))
    then reject Err.INVALID_RC_SP_VDF
    else h ← hash_of (VDFInfo.output vdf); accept h
  else if negb (is_None (RewardChainBlockUnfinished.reward_chain_sp_vdf rcb)) then reject Err.INVALID_RC_SP_VDF
  else if hc_new_sub_slot c then
    slot ← py_index (UnfinishedHeaderBlock.finished_sub_slots hb) (-1);
    h ← hash_of (EndOfSubSlotBundle.reward_chain slot); accept h
  else
    match hc_prev_b c with
    | None => accept (GENESIS_CHALLENGE constants)
    | Some prev_b =>
        curr ← sub_slot_start blocks fuel prev_b;
        h ← last_hash (finished_reward_slot_hashes curr); accept h
    end.

(** Check 13 *)
Definition check_cc_sp (skip_vdf_is_valid : bool) (hb : UnfinishedHeaderBlock.t) (sp_iters : Z) (sv : SpVdf) : V unit :=
  let rcb := UnfinishedHeaderBlock.reward_chain_block hb in
  if negb (sp_iters =? 0) then
    vdf ← of_opt AssertionError (RewardChainBlockUnfinished.challenge_chain_sp_vdf rcb);
    proof ← of_opt AssertionError (UnfinishedHeaderBlock.challenge_chain_sp_proof hb);
    if bool_decide (vdf ≠ with_output (sv_cc_challenge sv) sp_iters vdf) then reject Err.INVALID_CC_SP_VDF
    else if negb skip_vdf_is_valid
            && negb (proof_checks constants proof (sv_cc_input sv)
                       (with_output (sv_cc_challenge sv) (sv_iters sv) vdf) vdf)
    then reject Err.INVALID_CC_SP_VDF else accept tt
  else if negb (is_None (RewardChainBlockUnfinished.challenge_chain_sp_vdf rcb)) then reject Err.INVALID_CC_SP_VDF
  else accept tt.

(** Check 15 *)
Definition prev_transaction_block (b : BlockRecord) : res BlockRecord := walk_back blocks fuel is_transaction_block b.
Definition check_is_transaction_block (c : HeaderContext) (hb : UnfinishedHeaderBlock.t) (our_sp_total_iters : Z) : V unit :=
  let foliage := UnfinishedHeaderBlock.foliage hb in
  match hc_prev_b c with
  | None =>
      if is_None (Foliage.foliage_transaction_block_hash foliage) then reject Err.INVALID_IS_TRANSACTION_BLOCK
      else accept tt
  | Some prev_b =>
      curr ← prev_transaction_block prev_b;
      our ← uint128 our_sp_total_iters;
      let is_tx := total_iters curr <? our in
      if negb (eqb is_tx (negb (is_None (Foliage.foliage_transaction_block_hash foliage))))
      then reject Err.INVALID_IS_TRANSACTION_BLOCK
      else if negb (eqb is_tx (negb (is_None (Foliage.foliage_transaction_block_signature foliage))))
      then reject Err.INVALID_IS_TRANSACTION_BLOCK
      else accept tt
  end.

(** Checks 16 to 20: the foliage *)
Definition check_foliage (c : HeaderContext) (hb : UnfinishedHeaderBlock.t) : V unit :=
  let rcb := UnfinishedHeaderBlock.reward_chain_block hb in
  let pos := RewardChainBlockUnfinished.proof_of_space rcb in
  let foliage := UnfinishedHeaderBlock.foliage hb in
  let data := Foliage.foliage_block_data foliage in
  let target := FoliageBlockData.pool_target data in
  data_hash ← hash_of data;
  if negb (mpl_verify (plot_public_key pos) data_hash (Foliage.foliage_block_data_signature foliage))
  then reject Err.INVALID_PLOT_SIGNATURE
  else
    tx_ok ← match Foliage.foliage_transaction_block_hash foliage with
            | None => Ok true
            | Some h =>
                sig ← of_opt TypeError (Foliage.foliage_transaction_block_signature foliage);
                Ok (mpl_verify (plot_public_key pos) h sig)
            end;
    if negb tx_ok then reject Err.INVALID_PLOT_SIGNATURE
    else
      rcb_hash ← hash_of rcb;
      if bool_decide (rcb_hash ≠ FoliageBlockData.unfinished_reward_block_hash data) then reject Err.INVALID_URSB_HASH
      else if negb (PoolTarget.max_height target =? 0) && (PoolTarget.max_height target <? hc_height c)
      then reject Err.OLD_POOL_TARGET
      else if is_None (hc_prev_b c) then
        if bool_decide (PoolTarget.puzzle_hash target ≠ GENESIS_PRE_FARM_POOL_PUZZLE_HASH constants)
        then reject Err.INVALID_PREFARM
        else if bool_decide (FoliageBlockData.farmer_reward_puzzle_hash data
                             ≠ GENESIS_PRE_FARM_FARMER_PUZZLE_HASH constants)
        then reject Err.INVALID_PREFARM else accept tt
      else
        match ProofOfSpace.pool_public_key pos with
        | Some pool_pk =>
            assert_ (is_None (ProofOfSpace.pool_contract_puzzle_hash pos)) ;;
            msg ← to_bytes target;
            sig ← of_opt TypeError (FoliageBlockData.pool_signature data);
            if negb (mpl_verify pool_pk msg sig) then reject Err.INVALID_POOL_SIGNATURE else accept tt
        | None =>
            ph ← of_opt AssertionError (ProofOfSpace.pool_contract_puzzle_hash pos);
            if bool_decide (PoolTarget.puzzle_hash target ≠ ph) then reject Err.INVALID_POOL_TARGET else accept tt
        end.

(** Checks 22 to 26: the transaction block of the foliage *)
Definition check_transaction_foliage (check_filter : bool) (c : HeaderContext) (hb : UnfinishedHeaderBlock.t) : V unit :=
  let foliage := UnfinishedHeaderBlock.foliage hb in
  let ftb := UnfinishedHeaderBlock.foliage_transaction_block hb in
  if negb (eqb (is_None (Foliage.foliage_transaction_block_hash foliage)) (is_None ftb))
  then reject Err.INVALID_FOLIAGE_BLOCK_PRESENCE
  else if negb (eqb (is_None (Foliage.foliage_transaction_block_signature foliage)) (is_None ftb))
  then reject Err.INVALID_FOLIAGE_BLOCK_PRESENCE
  else
    match ftb with
    | None => accept tt
    | Some ftb =>
        h ← hash_of ftb;
        if bool_decide (Some h ≠ Foliage.foliage_transaction_block_hash foliage)
        then reject Err.INVALID_FOLIAGE_BLOCK_HASH
        else
          prev_tx ← match hc_prev_b c with
                    | None => Ok (GENESIS_CHALLENGE constants)
                    | Some prev_b => b ← prev_transaction_block prev_b; Ok (header_hash b)
                    end;
          if bool_decide (FoliageTransactionBlock.prev_transaction_block_hash ftb ≠ prev_tx)
          then reject Err.INVALID_PREV_BLOCK_HASH
          else if check_filter && bool_decide (FoliageTransactionBlock.filter_hash ftb
                                               ≠ std_hash (UnfinishedHeaderBlock.transactions_filter hb))
          then reject Err.INVALID_TRANSACTIONS_FILTER_HASH
          else
            max_future ← float_of_int (MAX_FUTURE_TIME constants);
            limit ← int_of_float (float_add time_time max_future);
            if limit <? FoliageTransactionBlock.timestamp ftb then reject Err.TIMESTAMP_TOO_FAR_IN_FUTURE
            else if is_None (hc_prev_b c) then accept tt
            else
              prev_transaction_b ← block_record blocks (FoliageTransactionBlock.prev_transaction_block_hash ftb);
              prev_time ← of_opt AssertionError (timestamp prev_transaction_b);
              if FoliageTransactionBlock.timestamp ftb <=? prev_time then reject Err.TIMESTAMP_TOO_FAR_IN_PAST
              else accept tt
    end.

(** The whole function *)
Definition validate_unfinished_header_block (header_block : UnfinishedHeaderBlock.t) (check_filter : bool)
    (expected_difficulty expected_sub_slot_iters : Z)
    (skip_overflow_last_ss_validation skip_vdf_is_valid check_sub_epoch_summary : bool) : V (Z * decimal) :=
  let rcb := UnfinishedHeaderBlock.reward_chain_block header_block in
  let pos := RewardChainBlockUnfinished.proof_of_space rcb in
  c ⇐ header_context header_block skip_overflow_last_ss_validation expected_difficulty expected_sub_slot_iters;
  _ ⇐ check_finished_sub_slots skip_vdf_is_valid check_sub_epoch_summary expected_difficulty expected_sub_slot_iters
        c header_block;
  _ ⇐ check_block_count c;
  '(cc_sp_hash, coeff, required_iters, sp_iters, ip_iters) ⇐
    check_proof_of_space expected_difficulty expected_sub_slot_iters c header_block;
  total ← expected_total_iters expected_sub_slot_iters ip_iters c;
  if negb (total =? RewardChainBlockUnfinished.total_iters rcb) then reject Err.INVALID_TOTAL_ITERS
  else
    let sp_total := total - ip_iters + sp_iters - (if hc_overflow c then expected_sub_slot_iters else 0) in
    sp_total_iters ← uint128 sp_total;
    let slots := UnfinishedHeaderBlock.finished_sub_slots header_block in
    let sub_slots_to_pass_in := if hc_overflow c && hc_skip_last c then slots ++ [dummy_sub_slot] else slots in
    sv ← get_signage_point_vdf_info constants blocks fuel sub_slots_to_pass_in (hc_overflow c) (hc_prev_b c)
           sp_total_iters sp_iters;
    rc_sp_hash ⇐ check_rc_sp skip_vdf_is_valid c header_block sp_iters sv;
    if negb (mpl_verify (plot_public_key pos) rc_sp_hash (RewardChainBlockUnfinished.reward_chain_sp_signature rcb))
    then reject Err.INVALID_RC_SIGNATURE
    else
      _ ⇐ check_cc_sp skip_vdf_is_valid header_block sp_iters sv;
      if negb (mpl_verify (plot_public_key pos) cc_sp_hash (RewardChainBlockUnfinished.challenge_chain_sp_signature rcb))
      then reject Err.INVALID_CC_SIGNATURE
      else
        _ ⇐ check_is_transaction_block c header_block sp_total;
        _ ⇐ check_foliage c header_block;
        _ ⇐ check_transaction_foliage check_filter c header_block;
        accept (required_iters, coeff).

(** ** [validate_finished_header_block] *)
Definition unfinished_of (hb : HeaderBlock.t) : UnfinishedHeaderBlock.t := {|
  UnfinishedHeaderBlock.finished_sub_slots := HeaderBlock.finished_sub_slots hb;
  UnfinishedHeaderBlock.reward_chain_block := RewardChainBlock.get_unfinished (HeaderBlock.reward_chain_block hb);
  UnfinishedHeaderBlock.challenge_chain_sp_proof := HeaderBlock.challenge_chain_sp_proof hb;
  UnfinishedHeaderBlock.reward_chain_sp_proof := HeaderBlock.reward_chain_sp_proof hb;
  UnfinishedHeaderBlock.foliage := HeaderBlock.foliage hb;
  UnfinishedHeaderBlock.foliage_transaction_block := HeaderBlock.foliage_transaction_block hb;
  UnfinishedHeaderBlock.transactions_filter := HeaderBlock.transactions_filter hb |}.

(** Checks 27 and 28 *)
Definition check_height_weight (expected_difficulty : Z) (prev_b : option BlockRecord) (hb : HeaderBlock.t) : V unit :=
  match prev_b with
  | Some prev_b =>
      if negb (HeaderBlock.height hb =? height prev_b + 1) then reject Err.INVALID_HEIGHT
      else if negb (HeaderBlock.weight hb =? weight prev_b + expected_difficulty) then reject Err.INVALID_WEIGHT
      else accept tt
  | None =>
      if negb (HeaderBlock.height hb =? 0) then reject Err.INVALID_HEIGHT
      else if negb (HeaderBlock.weight hb =? DIFFICULTY_STARTING constants) then reject Err.INVALID_WEIGHT
      else if bool_decide (HeaderBlock.prev_header_hash hb ≠ GENESIS_CHALLENGE constants)
      then reject Err.INVALID_PREV_BLOCK_HASH else accept tt
  end.

(** The start of the infusion point VDFs: the challenge of the reward chain, the
    iterations and the input of the challenge chain *)
Definition ip_start (prev_b : option BlockRecord) (hb : HeaderBlock.t) (ip_iters : Z) : res (bytes * Z * bytes) :=
  if bool_decide (0 < length (HeaderBlock.finished_sub_slots hb))%nat then
    slot ← py_index (HeaderBlock.finished_sub_slots hb) (-1);
    h ← hash_of (EndOfSubSlotBundle.reward_chain slot);
    Ok (h, ip_iters, default_element)
  else
    match prev_b with
    | None => Ok (GENESIS_CHALLENGE constants, ip_iters, default_element)
    | Some prev_b =>
        i ← uint64 (HeaderBlock.total_iters hb - total_iters prev_b);
        Ok (reward_infusion_new_challenge prev_b, i, challenge_vdf_output prev_b)
    end.
Definition ip_cc_challenge (prev_b : option BlockRecord) (hb : HeaderBlock.t) : res bytes :=
  if bool_decide (0 < length (HeaderBlock.finished_sub_slots hb))%nat then
    slot ← py_index (HeaderBlock.finished_sub_slots hb) (-1);
    hash_of (EndOfSubSlotBundle.challenge_chain slot)
  else
    match prev_b with
    | None => Ok (GENESIS_CHALLENGE constants)
    | Some prev_b =>
        curr ← walk_back blocks fuel (λ c, negb (is_None (finished_challenge_slot_hashes c))) prev_b;
        last_hash (finished_challenge_slot_hashes curr)
    end.

(** Checks 29 and 30 *)
Definition check_ip_vdfs (prev_b : option BlockRecord) (hb : HeaderBlock.t) (ip_iters : Z)
    (start : bytes * Z * bytes) : V unit :=
  let '(rc_vdf_challenge, ip_vdf_iters, cc_vdf_output) := start in
  let rcb := HeaderBlock.reward_chain_block hb in
  let cc_vdf := RewardChainBlock.challenge_chain_ip_vdf rcb in
  let rc_vdf := RewardChainBlock.reward_chain_ip_vdf rcb in
  cc_vdf_challenge ← ip_cc_challenge prev_b hb;
  if bool_decide (cc_vdf ≠ with_output cc_vdf_challenge ip_iters cc_vdf) then reject Err.INVALID_CC_IP_VDF
  else if negb (proof_checks constants (HeaderBlock.challenge_chain_ip_proof hb) cc_vdf_output
                  (with_output cc_vdf_challenge ip_vdf_iters cc_vdf) cc_vdf)
  then reject Err.INVALID_CC_IP_VDF
  else if negb (is_valid constants (HeaderBlock.reward_chain_ip_proof hb) default_element rc_vdf
                  (Some (with_output rc_vdf_challenge ip_vdf_iters rc_vdf)))
  then reject Err.INVALID_RC_IP_VDF else accept tt.

(** The challenge and the input of the infused challenge chain at the infusion point *)
Definition icc_ip_start (prev_b : BlockRecord) (hb : HeaderBlock.t) : res (bytes * option bytes) :=
  if bool_decide (0 < length (HeaderBlock.finished_sub_slots hb))%nat then
    last_ss ← py_index (HeaderBlock.finished_sub_slots hb) (-1);
    icc ← of_opt AssertionError (EndOfSubSlotBundle.infused_challenge_chain last_ss);
    h ← hash_of icc;
    Ok (h, Some default_element)
  else
    curr ← walk_back blocks fuel
             (λ c, negb (is_None (finished_infused_challenge_slot_hashes c)) || is_challenge_block constants c) prev_b;
    challenge ← (if is_challenge_block constants curr then Ok (challenge_block_info_hash curr)
                 else last_hash (finished_infused_challenge_slot_hashes curr));
    Ok (challenge, if is_challenge_block constants prev_b then Some default_element
                   else infused_challenge_vdf_output prev_b).

(** Check 31 *)
Definition check_icc_ip_vdf (prev_b : option BlockRecord) (hb : HeaderBlock.t) (ip_vdf_iters : Z) : V unit :=
  let rcb := HeaderBlock.reward_chain_block hb in
  match prev_b with
  | Some pb =>
      overflow ← is_overflow_block constants (RewardChainBlock.signage_point_index rcb);
      deficit ← calculate_deficit constants (HeaderBlock.height hb) (Some pb) overflow
                  (Z.of_nat (length (HeaderBlock.finished_sub_slots hb)));
      match RewardChainBlock.infused_challenge_chain_ip_vdf rcb with
      | None =>
          if deficit <? MIN_BLOCKS_PER_CHALLENGE_BLOCK constants - 1 then reject Err.INVALID_ICC_VDF else accept tt
      | Some vdf =>
          proof ← of_opt AssertionError (HeaderBlock.infused_challenge_chain_ip_proof hb);
          if MIN_BLOCKS_PER_CHALLENGE_BLOCK constants - 1 <=? deficit then reject Err.INVALID_ICC_VDF
          else
            '(challenge, input) ← icc_ip_start pb hb;
            if match input with
               | None => true
               | Some input => negb (is_valid constants proof input vdf (Some (with_output challenge ip_vdf_iters vdf)))
               end
            then reject Err.INVALID_ICC_VDF else accept tt
      end
  | None =>
      if negb (is_None (HeaderBlock.infused_challenge_chain_ip_proof hb)) then reject Err.INVALID_ICC_VDF else accept tt
  end.

Definition validate_finished_header_block (header_block : HeaderBlock.t) (check_filter : bool)
    (expected_difficulty expected_sub_slot_iters : Z) (check_sub_epoch_summary : bool) : V (Z * decimal) :=
  let rcb := HeaderBlock.reward_chain_block header_block in
  '(required_iters, coeff) ⇐
    validate_unfinished_header_block (unfinished_of header_block) check_filter expected_difficulty
      expected_sub_slot_iters false false check_sub_epoch_summary;
  prev_b ← (if HeaderBlock.height header_block =? 0 then Ok None
            else b ← block_record blocks (HeaderBlock.prev_header_hash header_block); Ok (Some b));
  ip_iters ← calculate_ip_iters constants expected_sub_slot_iters (RewardChainBlock.signage_point_index rcb) required_iters;
  _ ⇐ check_height_weight expected_difficulty prev_b header_block;
  start ← ip_start prev_b header_block ip_iters;
  _ ⇐ check_ip_vdfs prev_b header_block ip_iters start;
  _ ⇐ check_icc_ip_vdf prev_b header_block start.1.2;
  rcb_hash ← hash_of rcb;
  if bool_decide (Foliage.reward_block_hash (HeaderBlock.foliage header_block) ≠ rcb_hash)
  then reject Err.INVALID_REWARD_BLOCK_HASH
  else if negb (eqb (negb (is_None (Foliage.foliage_transaction_block_hash (HeaderBlock.foliage header_block))))
                  (RewardChainBlock.is_transaction_block rcb))
  then reject Err.INVALID_FOLIAGE_BLOCK_PRESENCE
  else accept (required_iters, coeff).
End Unfinished.
