(* ===== verification/HeaderSound.v ===== *)
(** * What an accepted header promises

    Theorems about [validate_unfinished_header_block] and
    [validate_finished_header_block]: the place of an accepted block in its chain,
    the sub slots it closes, its time stamp, and that the record made of it keeps the
    laws every consensus function relies on ([ChainLaws]). *)
From S2P Require Import Prelude PyInt PyFloat PyDecimal Consensus ChainView Difficulty Errors Streamable BlockTypes.
From S2P Require Import BlockToRecord HeaderValidation.

(** ** Inversion of accepted checks *)
Lemma v_bind_inl {A B} (m : V A) (k : A → V B) b :
  v_bind m k = Ok (inl b) ↔ ∃ a, m = Ok (inl a) ∧ k a = Ok (inl b).
Proof. unfold v_bind. destruct m as [[]| |]; cbn; naive_solver. Qed.

Lemma accept_inl {A} (a b : A) : accept a = Ok (inl b) → a = b.
Proof. by intros [= ->]. Qed.

Ltac v_step :=
  match goal with
  | H : v_bind _ _ = Ok (inl _) |- _ => apply v_bind_inl in H as (?&?&?)
  | H : reject _ = Ok (inl _) |- _ => discriminate H
  | H : accept _ = Ok (inl _) |- _ => apply accept_inl in H
  | _ => res_step
  end.
Ltac v_inv := repeat (v_step; cbn [mret res_ret] in *); subst.

Section Inversion.
Context `{Packages} `{StdHash} `{Vdf} `{PlotTools}.
Context (constants : ConsensusConstants) (blocks : BlockchainInterface) (fuel : nat).
Context (difficulty_coeff : bytes → option Z → res decimal) (time_time : float).

Notation validate_unfinished := (validate_unfinished_header_block constants blocks fuel difficulty_coeff time_time).
Notation validate_finished := (validate_finished_header_block constants blocks fuel difficulty_coeff time_time).

(** Every check of an accepted unfinished header has accepted. *)
Record accepted_checks (hb : UnfinishedHeaderBlock.t) (check_filter : bool) (d ssi : Z) (skip_ss skip_vdf check_ses : bool)
    (required : Z) (coeff : decimal) (c : HeaderContext) (sp_iters ip_iters : Z) : Prop := {
  ac_context : header_context constants blocks fuel hb skip_ss d ssi = Ok (inl c);
  ac_slots : check_finished_sub_slots constants blocks fuel skip_vdf check_ses d ssi c hb = Ok (inl tt);
  ac_count : check_block_count constants blocks fuel c = Ok (inl tt);
  ac_pos : ∃ cc_sp_hash, check_proof_of_space constants blocks fuel difficulty_coeff d ssi c hb
             = Ok (inl (cc_sp_hash, coeff, required, sp_iters, ip_iters));
  ac_total : expected_total_iters constants ssi ip_iters c
             = Ok (RewardChainBlockUnfinished.total_iters (UnfinishedHeaderBlock.reward_chain_block hb));
  ac_tx : check_is_transaction_block blocks fuel c hb
            (RewardChainBlockUnfinished.total_iters (UnfinishedHeaderBlock.reward_chain_block hb) - ip_iters + sp_iters
             - (if hc_overflow c then ssi else 0)) = Ok (inl tt);
  ac_foliage : check_foliage constants c hb = Ok (inl tt);
  ac_tx_foliage : check_transaction_foliage constants blocks fuel time_time check_filter c hb = Ok (inl tt);
}.

Lemma unfinished_inv hb check_filter d ssi skip_ss skip_vdf check_ses required coeff :
  validate_unfinished hb check_filter d ssi skip_ss skip_vdf check_ses = Ok (inl (required, coeff)) →
  ∃ c sp_iters ip_iters,
    accepted_checks hb check_filter d ssi skip_ss skip_vdf check_ses required coeff c sp_iters ip_iters.
Proof.
  unfold validate_unfinished_header_block. intros E.
  apply v_bind_inl in E as (c&E1&E). apply v_bind_inl in E as ([]&E2&E). apply v_bind_inl in E as ([]&E3&E).
  apply v_bind_inl in E as ([[[[cc_sp_hash coeff'] required'] sp_iters] ip_iters]&E4&E).
  apply bind_Ok in E as (total&E5&E). destruct (negb _) eqn:Et in E; [discriminate E|]. zbool.
  apply bind_Ok in E as (sp&E6&E). apply bind_Ok in E as (sv&E7&E). apply v_bind_inl in E as (rc&E8&E).
  destruct (negb _) in E; [discriminate E|]. apply v_bind_inl in E as ([]&E9&E).
  destruct (negb _) in E; [discriminate E|]. apply v_bind_inl in E as ([]&E10&E).
  apply v_bind_inl in E as ([]&E11&E). apply v_bind_inl in E as ([]&E12&E). apply accept_inl in E.
  injection E as -> ->. exists c, sp_iters, ip_iters. subst total. split; eauto.
Qed.

Lemma context_inv hb skip d ssi c :
  header_context constants blocks fuel hb skip d ssi = Ok (inl c) →
  try_block_record blocks (UnfinishedHeaderBlock.prev_header_hash hb) = Ok (hc_prev_b c)
  ∧ (skip = false → hc_finished c = Z.of_nat (length (UnfinishedHeaderBlock.finished_sub_slots hb))
                    ∧ hc_skip_last c = false)
  ∧ match hc_prev_b c with
    | None => UnfinishedHeaderBlock.prev_header_hash hb = GENESIS_CHALLENGE constants ∧ hc_height c = 0
              ∧ d = DIFFICULTY_STARTING constants ∧ ssi = SUB_SLOT_ITERS_STARTING constants
    | Some p => hc_height c = height p + 1 ∧ 0 <= hc_height c < 2 ^ 32
    end.
Proof.
  unfold header_context. intros E. apply bind_Ok in E as (prev_b&Ep&E).
  destruct (is_None prev_b && _) eqn:Eg; [discriminate E|].
  apply bind_Ok in E as (ov&_&E). apply bind_Ok in E as ([skip_last fin]&Es&E).
  apply bind_Ok in E as ([[h se] ep]&Eh&E). apply accept_inl in E. subst c. cbn.
  split_and!; [done| |].
  { intros ->. cbn in Es. by injection Es as <- <-. }
  destruct prev_b as [p|]; cbn in Eg, Eh.
  - apply bind_Ok in Eh as (h'&Eh'&Eh). apply uint32_Ok in Eh' as [-> Hr].
    destruct (0 <? fin); [apply bind_Ok in Eh as ([se' ep']&_&Eh)|]; by injection Eh as <- _ _.
  - apply bind_Ok in Eh as ([]&Ed&Eh). apply bind_Ok in Eh as ([]&Ei&Eh). apply assert_Ok in Ed, Ei.
    injection Eh as <- _ _. zbool. by apply dec_stable in Eg.
Qed.

Lemma ip_iters_inv ssi idx req ip :
  constants_ok constants → calculate_ip_iters constants ssi idx req = Ok ip →
  0 <= ip < ssi ∧ ssi mod NUM_SPS_SUB_SLOT constants = 0 ∧ idx < NUM_SPS_SUB_SLOT constants
  ∧ req ≠ 0 ∧ req < ssi / NUM_SPS_SUB_SLOT constants.
Proof.
  intros [Hn _ _]. unfold calculate_ip_iters, calculate_sp_iters, calculate_sp_interval_iters. intros E.
  res_inv. zbool. repeat match goal with E : uint64 _ = Ok _ |- _ => apply uint64_Ok in E as [-> ?] end.
  set (n := NUM_SPS_SUB_SLOT constants) in *. pose proof (Z.div_mod ssi n ltac:(lia)) as Hd.
  assert (0 < ssi) by nia. pose proof (Z.mod_pos_bound
    (ssi / n * idx + NUM_SP_INTERVALS_EXTRA constants * (ssi / n) + req) ssi ltac:(lia)). lia.
Qed.

Lemma total_iters_inv ssi ip c t :
  expected_total_iters constants ssi ip c = Ok t →
  match hc_prev_b c with
  | None => t = ssi * hc_finished c + ip
  | Some p => ∃ ip_p, br_ip_iters constants p = Ok ip_p
      ∧ t - ip = total_iters p - ip_p
                 + (if hc_new_sub_slot c then sub_slot_iters p + ssi * (hc_finished c - 1) else 0)
  end.
Proof.
  unfold expected_total_iters. intros E. apply bind_Ok in E as (start&Es&E). apply uint128_Ok in E as [-> _].
  destruct (hc_prev_b c) as [p|]; [|by apply uint128_Ok in Es as [-> _]].
  apply bind_Ok in Es as (ip_p&Eip&Es). exists ip_p. split; [done|].
  destruct (hc_new_sub_slot c); res_inv;
    repeat match goal with E : uint128 _ = Ok _ |- _ => apply uint128_Ok in E as [-> _] end; lia.
Qed.

Lemma pos_inv d ssi c hb h coeff required sp ip :
  check_proof_of_space constants blocks fuel difficulty_coeff d ssi c hb = Ok (inl (h, coeff, required, sp, ip)) →
  calculate_ip_iters constants ssi (RewardChainBlockUnfinished.signage_point_index
                                      (UnfinishedHeaderBlock.reward_chain_block hb)) required = Ok ip
  ∧ 1 <= required < 2 ^ 64.
Proof.
  unfold check_proof_of_space. intros E. apply bind_Ok in E as (ch&_&E). destruct (bool_decide _) in E; [discriminate E|].
  apply bind_Ok in E as (cc&_&E). apply bind_Ok in E as ([q|]&_&E); [|discriminate E].
  destruct (_ <=? _) in E; [discriminate E|]. apply bind_Ok in E as (coeff'&_&E). apply bind_Ok in E as (req&Er&E).
  apply bind_Ok in E as (i&_&E). destruct (_ <=? _) in E; [discriminate E|].
  destruct (negb _) in E; [discriminate E|]. destruct (negb _) in E; [discriminate E|].
  apply bind_Ok in E as (sp'&_&E). apply bind_Ok in E as (ip'&Eip&E). apply bind_Ok in E as (u&_&E).
  destruct (_ && _) in E; [discriminate E|]. apply accept_inl in E. injection E as _ _ -> _ ->.
  split; [done|]. unfold calculate_iterations_quality in Er. res_inv.
  match goal with E : uint64 1 = Ok _ |- _ => apply uint64_Ok in E as [-> _] end.
  match goal with E : uint64 _ = Ok _ |- _ => apply uint64_Ok in E as [-> ?] end. lia.
Qed.

Lemma height_weight_inv d prev_b hb :
  check_height_weight constants d prev_b hb = Ok (inl tt) →
  match prev_b with
  | Some p => HeaderBlock.height hb = height p + 1 ∧ HeaderBlock.weight hb = weight p + d
  | None => HeaderBlock.height hb = 0 ∧ HeaderBlock.weight hb = DIFFICULTY_STARTING constants
            ∧ HeaderBlock.prev_header_hash hb = GENESIS_CHALLENGE constants
  end.
Proof.
  unfold check_height_weight. destruct prev_b as [p|]; repeat case_match; try discriminate; intros _; zbool; [done|].
  by split_and!; [..|apply dec_stable].
Qed.

Lemma finished_inv hb check_filter d ssi check_ses required coeff :
  validate_finished hb check_filter d ssi check_ses = Ok (inl (required, coeff)) →
  ∃ c sp_iters ip prev_b start,
    accepted_checks (unfinished_of hb) check_filter d ssi false false check_ses required coeff c sp_iters ip
    ∧ (prev_b = None ∧ HeaderBlock.height hb = 0
       ∨ HeaderBlock.height hb ≠ 0
         ∧ ∃ b, prev_b = Some b ∧ block_record blocks (HeaderBlock.prev_header_hash hb) = Ok b)
    ∧ calculate_ip_iters constants ssi (RewardChainBlock.signage_point_index (HeaderBlock.reward_chain_block hb)) required
      = Ok ip
    ∧ 1 <= required
    ∧ check_height_weight constants d prev_b hb = Ok (inl tt)
    ∧ ip_start constants prev_b hb ip = Ok start.
Proof.
  unfold validate_finished_header_block. intros E. apply v_bind_inl in E as ([required' coeff']&Eu&E).
  apply unfinished_inv in Eu as (c&sp&ip&Hc). apply bind_Ok in E as (prev_b&Ep&E). apply bind_Ok in E as (ip'&Eip&E).
  apply v_bind_inl in E as ([]&Ehw&E). apply bind_Ok in E as (start&Est&E). apply v_bind_inl in E as ([]&_&E).
  apply v_bind_inl in E as ([]&_&E). apply bind_Ok in E as (rh&_&E). destruct (bool_decide _) in E; [discriminate E|].
  destruct (negb _) in E; [discriminate E|]. apply accept_inl in E. injection E as -> ->.
  destruct (ac_pos _ _ _ _ _ _ _ _ _ _ _ _ Hc) as (cc&Hpos). apply pos_inv in Hpos as [Eip'' [Hreq _]].
  change (RewardChainBlockUnfinished.signage_point_index _)
    with (RewardChainBlock.signage_point_index (HeaderBlock.reward_chain_block hb)) in Eip''.
  assert (ip' = ip) as -> by congruence. exists c, sp, ip, prev_b, start. split_and!; try done.
  destruct (_ =? 0) eqn:Ez in Ep; zbool; [left; split; congruence|]. res_inv. right. eauto.
Qed.

(** The block before an accepted one is the same for both validators. *)
Lemma finished_prev `{!ChainLaws blocks} hb d prev_b c_prev :
  contains_block blocks (GENESIS_CHALLENGE constants) = false →
  check_height_weight constants d prev_b hb = Ok (inl tt) →
  (prev_b = None ∧ HeaderBlock.height hb = 0
   ∨ HeaderBlock.height hb ≠ 0
     ∧ ∃ b, prev_b = Some b ∧ block_record blocks (HeaderBlock.prev_header_hash hb) = Ok b) →
  try_block_record blocks (HeaderBlock.prev_header_hash hb) = Ok c_prev → c_prev = prev_b.
Proof.
  intros Hg Hhw Hp Ht. unfold try_block_record in Ht. destruct Hp as [[-> _]|(_&b&->&Eb)].
  - apply height_weight_inv in Hhw as (_&_&Hp). rewrite Hp, Hg in Ht. by injection Ht.
  - rewrite (cl_contains (blocks := blocks)), Eb in Ht. cbn in Ht. by injection Ht.
Qed.
End Inversion.

(** ** The place of an accepted block in its chain *)
Section Place.
Context `{Packages} `{StdHash} `{Vdf} `{PlotTools}.
Context (constants : ConsensusConstants) (blocks : BlockchainInterface) `{!ChainLaws blocks} (fuel : nat).
Context (difficulty_coeff : bytes → option Z → res decimal) (time_time : float).
Context (Hconstants : constants_ok constants).
Context (Hgenesis : contains_block blocks (GENESIS_CHALLENGE constants) = false).

(** The iterations between the starts of the sub slots of a block and of its child *)
Definition slot_distance (p : BlockRecord) (ssi : Z) (slots : nat) : Z :=
  match slots with O => 0 | S n => sub_slot_iters p + ssi * Z.of_nat n end.

(** What acceptance says about the block, its parent and its iterations *)
Definition extends_chain (hb : HeaderBlock.t) (d ssi ip : Z) : Prop :=
  match block_record blocks (HeaderBlock.prev_header_hash hb) with
  | Ok p =>
      HeaderBlock.height hb = height p + 1 ∧ HeaderBlock.height hb < 2 ^ 32
      ∧ HeaderBlock.weight hb = weight p + d
      ∧ total_iters p <= HeaderBlock.total_iters hb
      ∧ ∃ ip_p, br_ip_iters constants p = Ok ip_p
        ∧ HeaderBlock.total_iters hb - ip
          = total_iters p - ip_p + slot_distance p ssi (length (HeaderBlock.finished_sub_slots hb))
  | _ =>
      HeaderBlock.prev_header_hash hb = GENESIS_CHALLENGE constants ∧ HeaderBlock.height hb = 0
      ∧ HeaderBlock.weight hb = DIFFICULTY_STARTING constants
      ∧ HeaderBlock.total_iters hb
        = SUB_SLOT_ITERS_STARTING constants * Z.of_nat (length (HeaderBlock.finished_sub_slots hb)) + ip
  end.

Lemma finished_extends hb check_filter d ssi check_ses required coeff :
  0 <= RewardChainBlock.signage_point_index (HeaderBlock.reward_chain_block hb) → ssi < 2 ^ 64 →
  validate_finished_header_block constants blocks fuel difficulty_coeff time_time hb check_filter d ssi check_ses
    = Ok (inl (required, coeff)) →
  iters_ok constants ssi (RewardChainBlock.signage_point_index (HeaderBlock.reward_chain_block hb)) required
  ∧ ∃ ip, calculate_ip_iters constants ssi
            (RewardChainBlock.signage_point_index (HeaderBlock.reward_chain_block hb)) required = Ok ip
          ∧ extends_chain hb d ssi ip.
Proof using Hconstants Hgenesis ChainLaws0.
  intros Hidx Hssi E. apply finished_inv in E as (c&sp&ip&prev_b&start&Hac&Hprev&Eip&Hreq&Hhw&Hstart).
  pose proof (ip_iters_inv _ _ _ _ _ Hconstants Eip) as (Hip&Hdiv&Hidx'&Hreq0&Hreq').
  destruct (context_inv _ _ _ _ _ _ _ _ (ac_context _ _ _ _ _ _ _ _ _ _ _ _ _ _ _ _ _ Hac)) as (Hpb&Hfin&Hctx).
  change (UnfinishedHeaderBlock.prev_header_hash _) with (HeaderBlock.prev_header_hash hb) in *.
  change (UnfinishedHeaderBlock.finished_sub_slots _) with (HeaderBlock.finished_sub_slots hb) in *.
  destruct (Hfin eq_refl) as [Hfin' _].
  pose proof (finished_prev _ _ _ _ _ _ Hgenesis Hhw Hprev Hpb) as Ep. rewrite Ep in Hctx.
  pose proof (total_iters_inv _ _ _ _ _ (ac_total _ _ _ _ _ _ _ _ _ _ _ _ _ _ _ _ _ Hac)) as Ht. rewrite Ep in Ht.
  change (RewardChainBlockUnfinished.total_iters _) with (HeaderBlock.total_iters hb) in Ht.
  apply height_weight_inv in Hhw.
  split; [by split; [lia| | |lia]|]. exists ip. split; [done|]. unfold extends_chain.
  destruct Hprev as [[-> _]|(_&b&->&Eb)].
  - destruct Hhw as (Hh&Hw&Hp), Hctx as (_&_&_&Hs).
    assert (is_Ok (block_record blocks (HeaderBlock.prev_header_hash hb)) = false) as Hno
      by by rewrite <- cl_contains, Hp.
    destruct (block_record _ _); [done| |]; (split_and!; [done..|]); rewrite <- Hs; lia.
  - rewrite Eb. destruct Hhw as [Hh Hw], Hctx as [Hc1 Hc2], Ht as (ip_p&Eip_p&Ht).
    pose proof (ip_iters_inv _ _ _ _ _ Hconstants Eip_p) as (Hip_p&_).
    assert (HeaderBlock.total_iters hb - ip
            = total_iters b - ip_p + slot_distance b ssi (length (HeaderBlock.finished_sub_slots hb))) as Ht'.
    { rewrite Ht, Hfin'. unfold hc_new_sub_slot. rewrite Hfin'. destruct (length _) as [|n]; cbn [slot_distance]; [done|].
      rewrite (proj2 (Z.ltb_lt _ _)) by lia. f_equal. lia. }
    split_and!; [done|lia|done| |by exists ip_p].
    unfold ip_start in Hstart. destruct (length (HeaderBlock.finished_sub_slots hb)) as [|n].
    + rewrite bool_decide_false in Hstart by lia. apply bind_Ok in Hstart as (i&Ei&_).
      apply uint64_Ok in Ei as [_ Hi]. lia.
    + cbn [slot_distance] in Ht'. nia.
Qed.
End Place.

(** C4. An accepted header continues the chain of its parent: one height above it, with
    the expected difficulty added to the weight, iterations that fit its sub slot,
    and total iterations that are never below those of the parent and that place the
    start of its sub slot exactly after the sub slots closed in between.  An accepted
    block without a known parent is a genesis block. *)
Theorem accepted_header_extends `{Packages} `{StdHash} `{Vdf} `{PlotTools}
    (constants : ConsensusConstants) (blocks : BlockchainInterface) (fuel : nat)
    (difficulty_coeff : bytes → option Z → res decimal) (time_time : float)
    (hb : HeaderBlock.t) (check_filter check_ses : bool) (d ssi required : Z) (coeff : decimal) :
  ChainLaws blocks → constants_ok constants → contains_block blocks (GENESIS_CHALLENGE constants) = false →
  0 <= RewardChainBlock.signage_point_index (HeaderBlock.reward_chain_block hb) → ssi < 2 ^ 64 →
  validate_finished_header_block constants blocks fuel difficulty_coeff time_time hb check_filter d ssi check_ses
    = Ok (inl (required, coeff)) →
  iters_ok constants ssi (RewardChainBlock.signage_point_index (HeaderBlock.reward_chain_block hb)) required
  ∧ ∃ ip, calculate_ip_iters constants ssi
            (RewardChainBlock.signage_point_index (HeaderBlock.reward_chain_block hb)) required = Ok ip
          ∧ extends_chain constants blocks hb d ssi ip.
Proof. intros Hl Hc Hg. by apply finished_extends. Qed.

(** ** The finished sub slots of an accepted block *)

(** Every sub slot answers the challenge of the one before, and the reward chain
    commits to its challenge chain. *)
Fixpoint slots_linked `{Packages} `{StdHash} (challenge : bytes) (l : list EndOfSubSlotBundle.t) : Prop :=
  match l with
  | [] => True
  | s :: l =>
      VDFInfo.challenge (ChallengeChainSubSlot.challenge_chain_end_of_slot_vdf (EndOfSubSlotBundle.challenge_chain s))
        = challenge
      ∧ ∃ h, hash_of (EndOfSubSlotBundle.challenge_chain s) = Ok h
           ∧ RewardChainSubSlot.challenge_chain_sub_slot_hash (EndOfSubSlotBundle.reward_chain s) = h
           ∧ slots_linked h l
  end.

(** The deficit at the end of every sub slot after a block *)
Definition slot_deficit (constants : ConsensusConstants) (prev_b : option BlockRecord) : Z :=
  match prev_b with
  | Some b => if deficit b =? 0 then MIN_BLOCKS_PER_CHALLENGE_BLOCK constants else deficit b
  | None => MIN_BLOCKS_PER_CHALLENGE_BLOCK constants
  end.

Section Slots.
Context `{Packages} `{StdHash} `{Vdf} (constants : ConsensusConstants) (blocks : BlockchainInterface) (fuel : nat).

Definition slot_ok (prev_b : option BlockRecord) (first : bool) (s : EndOfSubSlotBundle.t) : Prop :=
  RewardChainSubSlot.deficit (EndOfSubSlotBundle.reward_chain s) = slot_deficit constants prev_b
  ∧ (first = false → ChallengeChainSubSlot.subepoch_summary_hash (EndOfSubSlotBundle.challenge_chain s) = None).

Lemma check_sub_slot_inv skip_vdf epoch d ssi prev_b prev_slot ses s prev_slot' ses' :
  check_sub_slot constants blocks fuel skip_vdf epoch d ssi prev_b (prev_slot, ses) s = Ok (inl (prev_slot', ses')) →
  prev_slot' = Some s ∧ slot_ok prev_b (is_None prev_slot) s
  ∧ check_slot_challenge constants blocks fuel prev_b prev_slot
      (VDFInfo.challenge (ChallengeChainSubSlot.challenge_chain_end_of_slot_vdf
                            (EndOfSubSlotBundle.challenge_chain s))) = Ok (inl tt)
  ∧ hash_of (EndOfSubSlotBundle.challenge_chain s)
    = Ok (RewardChainSubSlot.challenge_chain_sub_slot_hash (EndOfSubSlotBundle.reward_chain s)).
Proof.
  unfold check_sub_slot. intros E. apply v_bind_inl in E as ([]&Ech&E). apply v_bind_inl in E as (u&_&E).
  apply v_bind_inl in E as (ses''&Eses&E). apply v_bind_inl in E as (u'&_&E). apply v_bind_inl in E as ([]&Ed&E).
  apply accept_inl in E. injection E as <- _. split; [done|]. unfold slot_ok.
  unfold check_slot_deficit in Ed. destruct (negb _) eqn:Ed' in Ed; [discriminate Ed|]. zbool.
  unfold check_slot_summary in Eses. apply bind_Ok in Eses as (ses0&_&Eses).
  destruct (negb (is_None prev_slot) && _) eqn:Es; [discriminate Eses|].
  destruct (negb _) in Eses; [discriminate Eses|]. destruct (negb _) in Eses; [discriminate Eses|].
  apply bind_Ok in Eses as (h&Eh&Eses). destruct (bool_decide _) eqn:Ehc in Eses; [discriminate Eses|]. zbool. apply dec_stable in Ehc.
  split_and!; [done| |done|by subst h].
  intros Hf. destruct prev_slot; [|done]. cbn in Es. zbool. by destruct (ChallengeChainSubSlot.subepoch_summary_hash _).
Qed.

(** The challenge the first of the finished sub slots answers *)
Definition first_challenge (prev_b : option BlockRecord) : res bytes :=
  match prev_b with
  | None => Ok (GENESIS_CHALLENGE constants)
  | Some p => b ← sub_slot_start blocks fuel p; last_hash (finished_challenge_slot_hashes b)
  end.

Lemma check_slot_challenge_inv prev_b prev_slot ch :
  check_slot_challenge constants blocks fuel prev_b prev_slot ch = Ok (inl tt) →
  match prev_slot with
  | None => first_challenge prev_b = Ok ch
  | Some s => hash_of (EndOfSubSlotBundle.challenge_chain s) = Ok ch
  end.
Proof.
  unfold check_slot_challenge, first_challenge. destruct prev_slot as [s|], prev_b as [p|]; intros E.
  - apply bind_Ok in E as (h&Eh&E). case_match eqn:Ec; [discriminate E|]. zbool. apply dec_stable in Ec. by subst.
  - apply bind_Ok in E as (h&Eh&E). case_match eqn:Ec; [discriminate E|]. zbool. apply dec_stable in Ec. by subst.
  - apply bind_Ok in E as (b&Eb&E). rewrite Eb. cbn [mbind res_bind]. apply bind_Ok in E as (h&Eh&E). rewrite Eh.
    case_match eqn:Ec; [discriminate E|]. zbool. apply dec_stable in Ec. by subst.
  - case_match eqn:Ec; [discriminate E|]. zbool. apply dec_stable in Ec. by subst.
Qed.

Lemma slots_inv skip_vdf epoch d ssi prev_b l prev_slot ses r :
  for_early (check_sub_slot constants blocks fuel skip_vdf epoch d ssi prev_b) (prev_slot, ses) l = Ok (inl r) →
  l ≠ [] →
  ∃ ch, match prev_slot with
        | None => first_challenge prev_b = Ok ch
        | Some s => hash_of (EndOfSubSlotBundle.challenge_chain s) = Ok ch
        end
    ∧ slots_linked ch l
    ∧ ∀ i s, l !! i = Some s → slot_ok prev_b (is_None prev_slot && bool_decide (i = 0)%nat) s.
Proof.
  revert prev_slot ses. induction l as [|s l IH]; intros prev_slot ses E Hne; [done|]. cbn [for_early] in E.
  apply bind_Ok in E as ([[prev_slot' ses']|e]&Es&E); [|discriminate E].
  apply check_sub_slot_inv in Es as (->&Hok&Hch&Hhash). apply check_slot_challenge_inv in Hch.
  eexists. split; [exact Hch|]. cbn [slots_linked]. destruct l as [|s' l].
  - split; [split; [done|]; by eexists|]. intros [|i] x; [|by destruct i].
    intros [= <-]. by rewrite andb_true_r.
  - destruct (IH _ _ E) as (ch'&Hc'&Hl'&Hall); [done|]. rewrite Hhash in Hc'. injection Hc' as <-.
    split; [split; [done|]; by eexists|]. intros [|i] x.
    + intros [= <-]. by rewrite andb_true_r.
    + intros Hx. apply (Hall i x) in Hx. cbn [is_None andb] in Hx. rewrite andb_false_r. exact Hx.
Qed.
End Slots.

(** C14. The sub slots an accepted header closes form a chain: the first answers the last
    challenge of the chain before the block (the genesis challenge for a genesis
    block), each next one the hash of the one before, all end with the deficit the
    previous block leaves, and only the first may carry a sub-epoch summary. *)
Theorem accepted_slots_linked `{Packages} `{StdHash} `{Vdf} `{PlotTools}
    (constants : ConsensusConstants) (blocks : BlockchainInterface) (fuel : nat)
    (difficulty_coeff : bytes → option Z → res decimal) (time_time : float)
    (hb : UnfinishedHeaderBlock.t) (check_filter skip_vdf check_ses : bool) (d ssi : Z) (r : Z * decimal) :
  validate_unfinished_header_block constants blocks fuel difficulty_coeff time_time hb check_filter d ssi
    false skip_vdf check_ses = Ok (inl r) →
  UnfinishedHeaderBlock.finished_sub_slots hb ≠ [] →
  ∃ prev_b challenge,
    try_block_record blocks (UnfinishedHeaderBlock.prev_header_hash hb) = Ok prev_b
    ∧ first_challenge constants blocks fuel prev_b = Ok challenge
    ∧ slots_linked challenge (UnfinishedHeaderBlock.finished_sub_slots hb)
    ∧ ∀ i s, UnfinishedHeaderBlock.finished_sub_slots hb !! i = Some s →
        slot_ok constants prev_b (bool_decide (i = 0)%nat) s.
Proof.
  intros E Hne. destruct r as [required coeff]. apply unfinished_inv in E as (c&sp&ip&Hac).
  destruct (context_inv _ _ _ _ _ _ _ _ (ac_context _ _ _ _ _ _ _ _ _ _ _ _ _ _ _ _ _ Hac)) as (Hpb&Hfin&_).
  destruct (Hfin eq_refl) as [Hf Hskip]. pose proof (ac_slots _ _ _ _ _ _ _ _ _ _ _ _ _ _ _ _ _ Hac) as Hs.
  unfold check_finished_sub_slots, hc_new_sub_slot in Hs.
  rewrite Hf, Hskip, (proj2 (Z.ltb_lt _ _)) in Hs by (destruct (UnfinishedHeaderBlock.finished_sub_slots hb); [done|cbn; lia]).
  cbn [negb andb] in Hs. apply v_bind_inl in Hs as ([ps ses]&Hs&_).
  destruct (slots_inv _ _ _ _ _ _ _ _ _ _ _ _ Hs Hne) as (ch&Hch&Hl&Hall). by exists (hc_prev_b c), ch.
Qed.

(** ** The records of accepted blocks *)

(** Weight and iterations never go down from a parent to its child, and time goes up
    from one transaction block to the next. *)
Definition grows (c : BlockCache) (b : BlockRecord) : bool :=
  match bc_block_records c !! prev_hash b with
  | Some p => (weight p <=? weight b) && (total_iters p <=? total_iters b)
  | None => true
  end.
Definition later (c : BlockCache) (b : BlockRecord) : bool :=
  match timestamp b, prev_transaction_block_hash b ≫= (bc_block_records c !!.) with
  | Some t, Some p => match timestamp p with Some t' => t' <? t | None => false end
  | _, _ => true
  end.
Definition valid_cache (c : BlockCache) : Prop :=
  cache_ok c ∧ map_Forall (λ _ b, grows c b = true ∧ later c b = true) (bc_block_records c).
#[global] Instance valid_cache_dec c : Decision (valid_cache c).
Proof. unfold valid_cache. apply _. Defined.

(** The header of a full block *)
Definition header_of_block (block : FullBlock.t) (hb : HeaderBlock.t) : Prop :=
  HeaderBlock.finished_sub_slots hb = FullBlock.finished_sub_slots block
  ∧ HeaderBlock.reward_chain_block hb = FullBlock.reward_chain_block block
  ∧ HeaderBlock.foliage hb = FullBlock.foliage block
  ∧ HeaderBlock.foliage_transaction_block hb = FullBlock.foliage_transaction_block block.

(** Nothing in the cache follows the block with this hash. *)
Definition childless (c : BlockCache) (h : bytes) : Prop :=
  bc_block_records c !! h = None
  ∧ map_Forall (λ _ r, prev_hash r ≠ h ∧ prev_transaction_block_hash r ≠ Some h) (bc_block_records c).

#[global] Instance childless_dec c h : Decision (childless c h).
Proof. unfold childless. apply _. Defined.

Section AddRecord.
Context (c : BlockCache) (b : BlockRecord) (Hfresh : childless c (header_hash b)).

Lemma add_lookup h : h ≠ header_hash b →
  bc_block_records (bc_add_block_record c b) !! h = bc_block_records c !! h.
Proof. intros Hh. cbn. by rewrite lookup_insert_ne. Qed.

Lemma add_record_cache_ok : cache_ok c → 0 <= height b < 2 ^ 32 → prev_hash b ≠ header_hash b →
  (∀ p, bc_block_records c !! prev_hash b = Some p → height p = height b - 1) →
  cache_ok (bc_add_block_record c b).
Proof using Hfresh.
  intros [Hr Hq] Hh Hp Hpar. destruct Hfresh as [Hf Hch]. split.
  - apply map_Forall_insert_2.
    + split_and!; [done|lia|lia|]. unfold parent_ok. rewrite add_lookup by done. destruct (_ !! prev_hash b) as [p|] eqn:E; [|done].
      apply Z.eqb_eq. by apply Hpar.
    + intros h r Hx. destruct (Hr h r Hx) as (?&?&Hpo). split_and!; [done|lia|lia|].
      unfold parent_ok. rewrite add_lookup; [done|]. by apply (Hch h r Hx).
  - intros h hh Hx. specialize (Hq h hh Hx). unfold path_ok in *. rewrite add_lookup; [done|].
    intros ->. by rewrite Hf in Hq.
Qed.

Lemma add_valid_cache : valid_cache c → 0 <= height b < 2 ^ 32 → prev_hash b ≠ header_hash b →
  prev_transaction_block_hash b ≠ Some (header_hash b) →
  (∀ p, bc_block_records c !! prev_hash b = Some p → height p = height b - 1) →
  grows c b = true → later c b = true → valid_cache (bc_add_block_record c b).
Proof using Hfresh.
  intros [Hok Hv] Hh Hp Ht Hpar Hg Hl. split; [by apply add_record_cache_ok|]. destruct Hfresh as [_ Hch].
  assert (∀ r, prev_hash r ≠ header_hash b ∧ prev_transaction_block_hash r ≠ Some (header_hash b) →
    grows (bc_add_block_record c b) r = grows c r ∧ later (bc_add_block_record c b) r = later c r) as Hsame.
  { intros r [H1 H2]. unfold grows, later. rewrite add_lookup by done. split; [done|].
    destruct (prev_transaction_block_hash r) as [h|]; [|done]. cbn [mbind option_bind]. rewrite add_lookup by congruence.
    done. }
  apply map_Forall_insert_2.
  - by destruct (Hsame b (conj Hp Ht)) as [-> ->].
  - intros h r Hx. destruct (Hsame r (Hch h r Hx)) as [-> ->]. by apply (Hv h r Hx).
Qed.
End AddRecord.

Section AcceptedRecord.
Context `{Packages} `{StdHash} `{Vdf} `{PlotTools}.
Context (constants : ConsensusConstants) (c : BlockCache) (fuel : nat).
Context (difficulty_coeff : bytes → option Z → res decimal) (time_time : float).
Notation blocks := (BlockCache_interface c).

Lemma try_block_record_cache h r :
  try_block_record blocks h = Ok r → r = bc_block_records c !! h.
Proof.
  unfold try_block_record. cbn. unfold bc_contains_block, bc_block_record.
  destruct (bc_block_records c !! h) as [p|]; cbn; congruence.
Qed.

(** The time stamp of an accepted transaction block *)
Lemma accepted_later hb check_filter hc ftb :
  check_transaction_foliage constants blocks fuel time_time check_filter hc hb = Ok (inl tt) →
  UnfinishedHeaderBlock.foliage_transaction_block hb = Some ftb →
  match hc_prev_b hc with
  | None => FoliageTransactionBlock.prev_transaction_block_hash ftb = GENESIS_CHALLENGE constants
  | Some _ => ∃ p t, bc_block_records c !! FoliageTransactionBlock.prev_transaction_block_hash ftb = Some p
      ∧ timestamp p = Some t ∧ t < FoliageTransactionBlock.timestamp ftb
  end.
Proof.
  unfold check_transaction_foliage. intros E Hftb. rewrite Hftb in E.
  destruct (negb _) in E; [discriminate E|]. destruct (negb _) in E; [discriminate E|].
  apply bind_Ok in E as (h&_&E). destruct (bool_decide _) in E; [discriminate E|].
  apply bind_Ok in E as (ptx&Eptx&E). destruct (bool_decide _) eqn:Hptx in E; [discriminate E|].
  destruct (_ && _) in E; [discriminate E|]. apply bind_Ok in E as (mf&_&E). apply bind_Ok in E as (lim&_&E).
  destruct (_ <? _) in E; [discriminate E|]. zbool. apply dec_stable in Hptx.
  destruct (hc_prev_b hc) as [p|]; cbn [is_None] in E.
  - apply bind_Ok in E as (pt&Ept&E). apply bind_Ok in E as (t&Et&E).
    destruct (_ <=? _) eqn:Ht in E; [discriminate E|]. zbool. apply of_opt_Ok in Et. exists pt, t.
    split_and!; [|done|done]. cbn in Ept. by apply of_opt_Ok in Ept.
  - congruence.
Qed.

Lemma accepted_record_valid hb block check_filter check_ses d ssi required coeff b :
  valid_cache c → constants_ok constants → bc_block_records c !! GENESIS_CHALLENGE constants = None →
  0 <= RewardChainBlock.signage_point_index (HeaderBlock.reward_chain_block hb) → ssi < 2 ^ 64 → 0 <= d →
  header_of_block block hb →
  validate_finished_header_block constants blocks fuel difficulty_coeff time_time hb check_filter d ssi check_ses
    = Ok (inl (required, coeff)) →
  block_to_block_record constants blocks fuel required block = Ok b →
  childless c (header_hash b) → header_hash b ≠ GENESIS_CHALLENGE constants →
  valid_cache (bc_add_block_record c b).
Proof.
  intros Hv Hc Hg Hidx Hssi Hd (Hs&Hrcb&Hfol&Hftb) Hacc Hb Hfresh Hgen.
  pose proof (BlockCache_laws c (proj1 Hv)) as Hlaws.
  assert (contains_block blocks (GENESIS_CHALLENGE constants) = false) as Hgc.
  { cbn. unfold bc_contains_block. by rewrite Hg. }
  destruct (finished_extends constants blocks fuel difficulty_coeff time_time Hc Hgc _ _ _ _ _ _ _ Hidx Hssi Hacc)
    as (_&ip&_&Hext).
  apply finished_inv in Hacc as (hc&sp&ip'&prev_b&start&Hac&_).
  destruct (context_inv _ _ _ _ _ _ _ _ (ac_context _ _ _ _ _ _ _ _ _ _ _ _ _ _ _ _ _ Hac)) as (Hpb&_&Hctx).
  pose proof (ac_tx_foliage _ _ _ _ _ _ _ _ _ _ _ _ _ _ _ _ _ Hac) as Htx.
  destruct (record_inv _ _ _ _ _ _ Hb) as (prev_b'&ssi'&ov&def&pt&ses&Er&_).
  destruct (header_record_fields _ _ _ _ _ _ _ _ _ Er) as (_&Ep&Eh&Ew&Et&_).
  destruct (header_record_iters _ _ _ _ _ _ _ _ _ Er) as (_&_&_&_&Ets&Eptx).
  rewrite <- Hftb in Ets, Eptx. unfold FullBlock.prev_header_hash in Ep. rewrite <- Hfol in Ep.
  unfold FullBlock.height, FullBlock.weight, FullBlock.total_iters in Eh, Ew, Et. rewrite <- Hrcb in Eh, Ew, Et.
  fold (HeaderBlock.prev_header_hash hb) in Ep. fold (HeaderBlock.height hb) in Eh.
  fold (HeaderBlock.weight hb) in Ew. fold (HeaderBlock.total_iters hb) in Et.
  apply try_block_record_cache in Hpb.
  change (UnfinishedHeaderBlock.prev_header_hash (unfinished_of hb)) with (HeaderBlock.prev_header_hash hb) in *.
  rewrite <- Ep in Hpb, Hctx. unfold extends_chain in Hext. rewrite <- Ep, <- Eh, <- Ew, <- Et in Hext.
  cbn in Hext. unfold bc_block_record in Hext.
  assert (Hpt : ∀ ftb, HeaderBlock.foliage_transaction_block hb = Some ftb → _) by
    (intros ftb; exact (accepted_later _ _ _ ftb Htx)).
  destruct (bc_block_records c !! prev_hash b) as [p|] eqn:Eprev; rewrite Hpb in Hctx, Hpt; cbn [of_opt] in Hext.
  - destruct Hext as (Hx1&Hx2&Hx3&Hx4&_). apply add_valid_cache; try done.
    + destruct (proj1 (proj1 Hv) _ _ Eprev) as (_&?&_). lia.
    + intros E. rewrite E in Eprev. by rewrite (proj1 Hfresh) in Eprev.
    + rewrite Eptx. destruct (HeaderBlock.foliage_transaction_block hb) as [ftb|]; [|done].
      destruct (Hpt ftb eq_refl) as (q&t&Hq&_). cbn. intros [= E]. rewrite E in Hq. by rewrite (proj1 Hfresh) in Hq.
    + intros p' Hp'. rewrite Eprev in Hp'. injection Hp' as <-. lia.
    + unfold grows. rewrite Eprev. apply andb_true_intro. split; apply Z.leb_le; lia.
    + unfold later. rewrite Ets, Eptx. destruct (HeaderBlock.foliage_transaction_block hb) as [ftb|]; [|done].
      destruct (Hpt ftb eq_refl) as (q&t&Hq&Htq&Hlt). cbn. rewrite Hq, Htq. by apply Z.ltb_lt.
  - destruct Hext as (Hx1&Hx2&_). apply add_valid_cache; try done.
    + lia.
    + congruence.
    + rewrite Eptx. destruct (HeaderBlock.foliage_transaction_block hb) as [ftb|]; [|done].
      cbn. rewrite (Hpt ftb eq_refl). congruence.
    + intros p' Hp'. congruence.
    + unfold grows. by rewrite Eprev.
    + unfold later. rewrite Ets, Eptx. destruct (HeaderBlock.foliage_transaction_block hb) as [ftb|]; [|done].
      cbn. by rewrite (Hpt ftb eq_refl), Hg.
Qed.
End AcceptedRecord.

(** C10. Accepted blocks keep the laws the consensus functions assume of the chain: adding
    the record of a block whose header was accepted to a valid cache gives a valid
    cache (heights follow the links, weight, iterations and time never go back), as
    long as its hash is new. *)
Theorem accepted_block_keeps_laws `{Packages} `{StdHash} `{Vdf} `{PlotTools}
    (constants : ConsensusConstants) (c : BlockCache) (fuel : nat)
    (difficulty_coeff : bytes → option Z → res decimal) (time_time : float)
    (hb : HeaderBlock.t) (block : FullBlock.t) (check_filter check_ses : bool) (d ssi required : Z) (coeff : decimal)
    (b : BlockRecord) :
  valid_cache c → constants_ok constants → bc_block_records c !! GENESIS_CHALLENGE constants = None →
  0 <= RewardChainBlock.signage_point_index (HeaderBlock.reward_chain_block hb) → ssi < 2 ^ 64 → 0 <= d →
  header_of_block block hb →
  validate_finished_header_block constants (BlockCache_interface c) fuel difficulty_coeff time_time hb check_filter
    d ssi check_ses = Ok (inl (required, coeff)) →
  block_to_block_record constants (BlockCache_interface c) fuel required block = Ok b →
  childless c (header_hash b) → header_hash b ≠ GENESIS_CHALLENGE constants →
  valid_cache (bc_add_block_record c b) ∧ ChainLaws (BlockCache_interface (bc_add_block_record c b)).
Proof.
  intros. assert (valid_cache (bc_add_block_record c b)) as Hv by by eapply accepted_record_valid.
  split; [done|]. apply BlockCache_laws, Hv.
Qed.

(** With [skip_vdf_is_valid] no proof of time is looked at: the outcome is the same
    whatever the VDF verifier says. *)
Lemma skipped_vdfs_unchecked `{Packages} `{StdHash} `{PlotTools} (verifier1 verifier2 : Vdf)
    (constants : ConsensusConstants) (blocks : BlockchainInterface) (fuel : nat)
    (difficulty_coeff : bytes → option Z → res decimal) (time_time : float)
    (hb : UnfinishedHeaderBlock.t) (check_filter skip_ss check_ses : bool) (d ssi : Z) :
  validate_unfinished_header_block (VDF := verifier1) constants blocks fuel difficulty_coeff time_time hb
    check_filter d ssi skip_ss true check_ses
  = validate_unfinished_header_block (VDF := verifier2) constants blocks fuel difficulty_coeff time_time hb
      check_filter d ssi skip_ss true check_ses.
Proof. reflexivity. Qed.

(** ** On concrete blocks

    Packages that accept everything, a genesis block and a block after it that closes
    a sub slot; the builders fill in the hashes the blocks must carry. *)
#[export] Instance sample_vdf_verifier : Vdf :=
  {| create_discriminant c _ := Ok (Z.of_nat (length c)); verify_n_wesolowski _ _ _ _ _ _ := Ok true |}.
#[export] Instance sample_plot_tools : PlotTools := {|
  validate_proof _ _ _ _ := Ok (replicate 32 1); leading_bits _ _ := Ok 0;
  g1_add a b := map (λ '(x, y), (x + y) mod 256) (zip a b); key_gen_g1 _ := replicate 48 1;
  mpl_verify _ _ _ := true |}.
Definition sample_coeff (_ : bytes) (_ : option Z) : res decimal := Ok (dec_of_int 20).
Definition sample_now : float := match float_of_int 1600000000 with Ok f => f | _ => SpecFloat.S754_nan end.

Definition or_nil (r : res bytes) : bytes := match r with Ok b => b | _ => [] end.
Definition vdf_at (challenge : bytes) (iters : Z) : VDFInfo.t := {|
  VDFInfo.challenge := challenge; VDFInfo.number_of_iterations := iters;
  VDFInfo.output := {| ClassgroupElement.data := replicate 100 3 |} |}.

Definition header_sample_pos (challenge : bytes) : ProofOfSpace.t :=
  let pos := λ ch, {|
    ProofOfSpace.challenge := ch; ProofOfSpace.pool_public_key := None;
    ProofOfSpace.pool_contract_puzzle_hash := Some (replicate 32 9); ProofOfSpace.local_public_key := replicate 48 2;
    ProofOfSpace.size := 32; ProofOfSpace.proof := [1; 2]; ProofOfSpace.farmer_public_key := replicate 48 3 |} in
  pos (calculate_pos_challenge (or_nil (get_plot_id (pos []))) challenge challenge).

(** A block at the first signage point of its sub slot; [prev] is the parent hash and
    [challenge] (cc) and [rc] the hashes its VDFs start from. *)
Definition build_block (h weight total ip : Z) (slots : list EndOfSubSlotBundle.t) (challenge rc : bytes)
    (icc : option bytes) (prev : bytes) (pool farmer : bytes) : FullBlock.t :=
  let rcb := {|
    RewardChainBlock.weight := weight; RewardChainBlock.height := h; RewardChainBlock.total_iters := total;
    RewardChainBlock.signage_point_index := 0; RewardChainBlock.pos_ss_cc_challenge_hash := challenge;
    RewardChainBlock.proof_of_space := header_sample_pos challenge;
    RewardChainBlock.challenge_chain_sp_vdf := None; RewardChainBlock.challenge_chain_sp_signature := replicate 96 1;
    RewardChainBlock.challenge_chain_ip_vdf := vdf_at challenge ip;
    RewardChainBlock.reward_chain_sp_vdf := None; RewardChainBlock.reward_chain_sp_signature := replicate 96 2;
    RewardChainBlock.reward_chain_ip_vdf := vdf_at rc ip;
    RewardChainBlock.infused_challenge_chain_ip_vdf := (λ ch, vdf_at ch ip) <$> icc;
    RewardChainBlock.is_transaction_block := true |} in
  let ftb := {|
    FoliageTransactionBlock.prev_transaction_block_hash := prev; FoliageTransactionBlock.timestamp := 1000 + h;
    FoliageTransactionBlock.filter_hash := std_hash []; FoliageTransactionBlock.additions_root := replicate 32 3;
    FoliageTransactionBlock.removals_root := replicate 32 4;
    FoliageTransactionBlock.transactions_info_hash := replicate 32 5 |} in
  {| FullBlock.finished_sub_slots := slots; FullBlock.reward_chain_block := rcb;
     FullBlock.challenge_chain_sp_proof := None; FullBlock.challenge_chain_ip_proof := sample_vdf_proof;
     FullBlock.reward_chain_sp_proof := None; FullBlock.reward_chain_ip_proof := sample_vdf_proof;
     FullBlock.infused_challenge_chain_ip_proof := (λ _, sample_vdf_proof) <$> icc;
     FullBlock.foliage := {|
       Foliage.prev_block_hash := prev; Foliage.reward_block_hash := or_nil (hash_of rcb);
       Foliage.foliage_block_data := {|
         FoliageBlockData.unfinished_reward_block_hash := or_nil (hash_of (RewardChainBlock.get_unfinished rcb));
         FoliageBlockData.pool_target := {| PoolTarget.puzzle_hash := pool; PoolTarget.max_height := 0 |};
         FoliageBlockData.pool_signature := None; FoliageBlockData.farmer_reward_puzzle_hash := farmer;
         FoliageBlockData.extension_data := replicate 32 0 |};
       Foliage.foliage_block_data_signature := replicate 96 6;
       Foliage.foliage_transaction_block_hash := Some (or_nil (hash_of ftb));
       Foliage.foliage_transaction_block_signature := Some (replicate 96 7) |};
     FullBlock.foliage_transaction_block := Some ftb;
     FullBlock.transactions_info := None; FullBlock.transactions_generator := None;
     FullBlock.transactions_generator_ref_list := [] |}.

Definition header_part (b : FullBlock.t) : HeaderBlock.t := {|
  HeaderBlock.finished_sub_slots := FullBlock.finished_sub_slots b;
  HeaderBlock.reward_chain_block := FullBlock.reward_chain_block b;
  HeaderBlock.challenge_chain_sp_proof := FullBlock.challenge_chain_sp_proof b;
  HeaderBlock.challenge_chain_ip_proof := FullBlock.challenge_chain_ip_proof b;
  HeaderBlock.reward_chain_sp_proof := FullBlock.reward_chain_sp_proof b;
  HeaderBlock.reward_chain_ip_proof := FullBlock.reward_chain_ip_proof b;
  HeaderBlock.infused_challenge_chain_ip_proof := FullBlock.infused_challenge_chain_ip_proof b;
  HeaderBlock.foliage := FullBlock.foliage b;
  HeaderBlock.foliage_transaction_block := FullBlock.foliage_transaction_block b;
  HeaderBlock.transactions_filter := []; HeaderBlock.transactions_info := FullBlock.transactions_info b |}.

Definition ip0 : Z := 3 * 2 ^ 21 + 1.
Definition genesis_block_sample : FullBlock.t :=
  let g := GENESIS_CHALLENGE DEFAULT_CONSTANTS in
  build_block 0 7 ip0 ip0 [] g g None g (GENESIS_PRE_FARM_POOL_PUZZLE_HASH DEFAULT_CONSTANTS)
    (GENESIS_PRE_FARM_FARMER_PUZZLE_HASH DEFAULT_CONSTANTS).
Definition empty_cache : BlockCache := {| bc_block_records := ∅; bc_height_to_hash := ∅ |}.
Definition genesis_record_sample : res BlockRecord :=
  block_to_block_record DEFAULT_CONSTANTS (BlockCache_interface empty_cache) 3 1 genesis_block_sample.
Definition genesis_cache_sample : BlockCache :=
  match genesis_record_sample with Ok b => bc_add_block_record empty_cache b | _ => empty_cache end.

(** The sub slot that ends after the genesis block *)
Definition slot_sample : EndOfSubSlotBundle.t :=
  match genesis_record_sample with
  | Ok g =>
      let icc := {| InfusedChallengeChainSubSlot.infused_challenge_chain_end_of_slot_vdf :=
                      vdf_at (challenge_block_info_hash g) (2 ^ 27 - ip0) |} in
      let cc := {|
        ChallengeChainSubSlot.challenge_chain_end_of_slot_vdf := vdf_at (GENESIS_CHALLENGE DEFAULT_CONSTANTS) (2 ^ 27);
        ChallengeChainSubSlot.infused_challenge_chain_sub_slot_hash := None;
        ChallengeChainSubSlot.subepoch_summary_hash := None; ChallengeChainSubSlot.new_sub_slot_iters := None;
        ChallengeChainSubSlot.new_difficulty := None |} in
      {| EndOfSubSlotBundle.challenge_chain := cc;
         EndOfSubSlotBundle.infused_challenge_chain := Some icc;
         EndOfSubSlotBundle.reward_chain := {|
           RewardChainSubSlot.end_of_slot_vdf := vdf_at (reward_infusion_new_challenge g) (2 ^ 27 - ip0);
           RewardChainSubSlot.challenge_chain_sub_slot_hash := or_nil (hash_of cc);
           RewardChainSubSlot.infused_challenge_chain_sub_slot_hash := Some (or_nil (hash_of icc));
           RewardChainSubSlot.deficit := 15 |};
         EndOfSubSlotBundle.proofs := {|
           SubSlotProofs.challenge_chain_slot_proof := sample_vdf_proof;
           SubSlotProofs.infused_challenge_chain_slot_proof := Some sample_vdf_proof;
           SubSlotProofs.reward_chain_slot_proof := sample_vdf_proof |} |}
  | _ => dummy_sub_slot
  end.
Definition second_block_sample : FullBlock.t :=
  match genesis_record_sample with
  | Ok g => build_block 1 14 (2 ^ 27 + ip0) ip0 [slot_sample]
              (or_nil (hash_of (EndOfSubSlotBundle.challenge_chain slot_sample)))
              (or_nil (hash_of (EndOfSubSlotBundle.reward_chain slot_sample)))
              ((λ icc, or_nil (hash_of icc)) <$> EndOfSubSlotBundle.infused_challenge_chain slot_sample)
              (header_hash g) (replicate 32 9) (replicate 32 8)
  | _ => genesis_block_sample
  end.

Example genesis_accepted :
  validate_finished_header_block DEFAULT_CONSTANTS (BlockCache_interface empty_cache) 3 sample_coeff sample_now
    (header_part genesis_block_sample) true 7 (2 ^ 27) true = Ok (inl (1, dec_of_int 20)).
Proof. vm_compute. reflexivity. Qed.

Example second_accepted :
  validate_finished_header_block DEFAULT_CONSTANTS (BlockCache_interface genesis_cache_sample) 3 sample_coeff sample_now
    (header_part second_block_sample) true 7 (2 ^ 27) true = Ok (inl (1, dec_of_int 20)).
Proof. vm_compute. reflexivity. Qed.

Lemma genesis_cache_checks :
  bool_decide (valid_cache genesis_cache_sample) && negb (bc_contains_block genesis_cache_sample (GENESIS_CHALLENGE DEFAULT_CONSTANTS)) = true.
Proof. vm_compute. reflexivity. Qed.

Lemma genesis_cache_valid :
  valid_cache genesis_cache_sample ∧ bc_block_records genesis_cache_sample !! GENESIS_CHALLENGE DEFAULT_CONSTANTS = None.
Proof.
  pose proof genesis_cache_checks as E. apply andb_prop in E as [E1 E2]. apply bool_decide_eq_true_1 in E1.
  split; [exact E1|]. unfold bc_contains_block in E2. revert E2. generalize genesis_cache_sample. intros c E2.
  by destruct (bc_block_records c !! _).
Qed.

Lemma accepted_header_extends_witness :
  ∃ ip, calculate_ip_iters DEFAULT_CONSTANTS (2 ^ 27)
          (RewardChainBlock.signage_point_index (HeaderBlock.reward_chain_block (header_part second_block_sample))) 1 = Ok ip
    ∧ extends_chain DEFAULT_CONSTANTS (BlockCache_interface genesis_cache_sample) (header_part second_block_sample)
        7 (2 ^ 27) ip.
Proof.
  destruct (accepted_header_extends DEFAULT_CONSTANTS (BlockCache_interface genesis_cache_sample) 3 sample_coeff sample_now
    (header_part second_block_sample) true true 7 (2 ^ 27) 1 (dec_of_int 20)) as (_&ip&Hip&Hext).
  - apply BlockCache_laws, genesis_cache_valid.
  - exact default_constants_ok.
  - vm_compute. reflexivity.
  - vm_compute. discriminate.
  - vm_compute. reflexivity.
  - exact second_accepted.
  - exists ip. exact (conj Hip Hext).
Defined.

Lemma accepted_slots_linked_witness :
  ∃ prev_b challenge,
    try_block_record (BlockCache_interface genesis_cache_sample)
      (UnfinishedHeaderBlock.prev_header_hash (unfinished_of (header_part second_block_sample))) = Ok prev_b
    ∧ first_challenge DEFAULT_CONSTANTS (BlockCache_interface genesis_cache_sample) 3 prev_b = Ok challenge
    ∧ slots_linked challenge [slot_sample] ∧ slot_ok DEFAULT_CONSTANTS prev_b true slot_sample.
Proof.
  destruct (accepted_slots_linked DEFAULT_CONSTANTS (BlockCache_interface genesis_cache_sample) 3 sample_coeff sample_now
    (unfinished_of (header_part second_block_sample)) true false true 7 (2 ^ 27) (1, dec_of_int 20))
    as (prev_b&ch&Hp&Hc&Hl&Hall).
  - vm_compute. reflexivity.
  - discriminate.
  - exists prev_b, ch. split_and!; [exact Hp|exact Hc|exact Hl|]. exact (Hall 0%nat slot_sample eq_refl).
Defined.

Definition second_record_sample : res BlockRecord :=
  block_to_block_record DEFAULT_CONSTANTS (BlockCache_interface genesis_cache_sample) 3 1 second_block_sample.

Lemma second_record_fresh : ∃ b, second_record_sample = Ok b
  ∧ childless genesis_cache_sample (header_hash b) ∧ header_hash b ≠ GENESIS_CHALLENGE DEFAULT_CONSTANTS.
Proof.
  assert (match second_record_sample with
          | Ok b => bool_decide (childless genesis_cache_sample (header_hash b)
                                 ∧ header_hash b ≠ GENESIS_CHALLENGE DEFAULT_CONSTANTS)
          | _ => false end = true) as E by (vm_compute; reflexivity).
  destruct second_record_sample as [b| |]; [|done..]. exists b. split; [done|]. by apply bool_decide_eq_true in E.
Qed.

Lemma accepted_block_keeps_laws_witness :
  ∃ b, second_record_sample = Ok b
    ∧ valid_cache (bc_add_block_record genesis_cache_sample b)
    ∧ ChainLaws (BlockCache_interface (bc_add_block_record genesis_cache_sample b)).
Proof.
  destruct second_record_fresh as (b&E&Hfresh&Hg). exists b. split; [exact E|].
  apply (accepted_block_keeps_laws DEFAULT_CONSTANTS genesis_cache_sample 3 sample_coeff sample_now
    (header_part second_block_sample) second_block_sample true true 7 (2 ^ 27) 1 (dec_of_int 20) b).
  - apply genesis_cache_valid.
  - exact default_constants_ok.
  - apply genesis_cache_valid.
  - vm_compute. discriminate.
  - vm_compute. reflexivity.
  - vm_compute. discriminate.
  - by split_and!.
  - exact second_accepted.
  - exact E.
  - exact Hfresh.
  - exact Hg.
Defined.
