(* ===== verification/Generator.v ===== *)
(** * Block generators

    Models [chia/types/generator_types.py], [create_block_generator] and
    [setup_generator_args] of [chia/full_node/generator.py],
    [get_name_puzzle_conditions] of [chia/full_node/mempool_check_conditions.py] and
    [get_block_header] of [chia/util/generator_tools.py].

    Running a CLVM program ([run_generator] of [clvm_rs], behind
    [SerializedProgram.run_as_generator]) and the BIP158 filter
    ([PyBIP158] of [chiabip158]) are parameters. *)
From S2P Require Import Prelude PyInt PyFloat Consensus Errors Coins Streamable BlockTypes.

Record GeneratorArg := { ga_block_height : Z; ga_generator : bytes }.
Record BlockGenerator := { program : bytes; generator_args : list GeneratorArg }.
#[global] Instance GeneratorArg_eq_dec : EqDecision GeneratorArg.
Proof. solve_decision. Defined.
#[global] Instance BlockGenerator_eq_dec : EqDecision BlockGenerator.
Proof. solve_decision. Defined.

Definition block_height_list (g : BlockGenerator) : list Z := ga_block_height <$> generator_args g.
Definition generator_refs (g : BlockGenerator) : list bytes := ga_generator <$> generator_args g.

(** One spend as [run_generator] reports it: opcodes are integers. *)
Record RawSpend := {
  raw_coin_name : bytes;
  raw_puzzle_hash : bytes;
  raw_conditions : list (Z * list (Z * list bytes));
}.

Class ClvmRunner := {
  STRICT_MODE : Z;
  (** the program is run on [[refs]]: an error code or the spends, and the cost *)
  run_as_generator : Z → Z → bytes → list bytes → res (option Z * list RawSpend * Z);
  (** [PyBIP158(l).GetEncoded()] *)
  bip158_encoded : list bytes → bytes;
}.

Definition create_block_generator (generator : bytes) (block_heights_list : list Z)
    (get_generator_for_block_height : Z → option bytes) : option BlockGenerator :=
  args ← foldr (λ i acc,
      previous_generator ← get_generator_for_block_height i;
      l ← acc; Some ({| ga_block_height := i; ga_generator := previous_generator |} :: l))
    (Some []) block_heights_list;
  Some {| program := generator; generator_args := args |}.

Definition setup_generator_args (g : BlockGenerator) : bytes * list bytes := (program g, generator_refs g).

(** [ConditionOpcode(bytes([x]))] *)
Definition all_opcodes : list ConditionOpcode :=
  [AGG_SIG_UNSAFE; AGG_SIG_ME; CREATE_COIN; RESERVE_FEE; CREATE_COIN_ANNOUNCEMENT; ASSERT_COIN_ANNOUNCEMENT;
   CREATE_PUZZLE_ANNOUNCEMENT; ASSERT_PUZZLE_ANNOUNCEMENT; ASSERT_MY_COIN_ID; ASSERT_MY_PARENT_ID;
   ASSERT_MY_PUZZLEHASH; ASSERT_MY_AMOUNT; ASSERT_SECONDS_RELATIVE; ASSERT_SECONDS_ABSOLUTE;
   ASSERT_HEIGHT_RELATIVE; ASSERT_HEIGHT_ABSOLUTE].
Definition opcode_of_int (x : Z) : res ConditionOpcode :=
  of_opt ValueError (List.find (λ o, opcode_byte o =? x) all_opcodes).

Definition npc_of_raw (r : RawSpend) : res NPC :=
  conds ← for_each (λ '(op, cond_lists),
    cwa ← for_each (λ '(o, vs), op ← opcode_of_int o; Ok {| opcode := op; vars := vs |}) cond_lists;
    op ← opcode_of_int op;
    Ok (op, cwa)) (raw_conditions r);
  name ← sized_bytes_new 32 (raw_coin_name r);
  ph ← sized_bytes_new 32 (raw_puzzle_hash r);
  Ok {| npc_coin_name := name; npc_puzzle_hash := ph; conditions := conds |}.

Section Generator.
Context `{ClvmRunner}.

Definition failed_npc (e : Err.t) : NPCResult := {| npc_error := Some (Err.value e); npc_list := []; clvm_cost := 0 |}.

(** The body of the [try] statement; every exception it raises is caught below. *)
Definition run_conditions (max_cost flags : Z) (block_program : bytes) (args : list bytes) : res NPCResult :=
  '(err, result, cost) ← run_as_generator max_cost flags block_program args;
  match err with
  | Some err => e ← uint16 err; Ok {| npc_error := Some e; npc_list := []; clvm_cost := 0 |}
  | None =>
      npcs ← for_each npc_of_raw result;
      c ← uint64 cost;
      Ok {| npc_error := None; npc_list := npcs; clvm_cost := c |}
  end.

Definition get_name_puzzle_conditions (generator : BlockGenerator) (max_cost cost_per_byte : Z) (safe_mode : bool) : NPCResult :=
  let '(block_program, block_program_args) := setup_generator_args generator in
  let max_cost := max_cost - Z.of_nat (length (program generator)) * cost_per_byte in
  if max_cost <? 0 then failed_npc Err.INVALID_BLOCK_COST
  else
    let flags := if safe_mode then STRICT_MODE else 0 in
    match run_conditions max_cost flags block_program block_program_args with
    | Ok r => r
    | _ => failed_npc Err.GENERATOR_RUNTIME_ERROR
    end.

(** The order of the included reward coins is that of a Python set; [set_iter]
    gives it. *)
Definition get_block_header (set_iter : list Coin → list Coin) (block : FullBlock.t) (tx_addition_coins : list Coin)
    (removals_names : list bytes) : res HeaderBlock.t :=
  rewards ← FullBlock.get_included_reward_coins block;
  let addition_coins := tx_addition_coins ++ set_iter rewards in
  let byte_array_tx := if FullBlock.is_transaction_block block
    then (puzzle_hash <$> addition_coins) ++ removals_names else [] in
  let encoded_filter := bip158_encoded byte_array_tx in
  Ok {| HeaderBlock.finished_sub_slots := FullBlock.finished_sub_slots block;
        HeaderBlock.reward_chain_block := FullBlock.reward_chain_block block;
        HeaderBlock.challenge_chain_sp_proof := FullBlock.challenge_chain_sp_proof block;
        HeaderBlock.challenge_chain_ip_proof := FullBlock.challenge_chain_ip_proof block;
        HeaderBlock.reward_chain_sp_proof := FullBlock.reward_chain_sp_proof block;
        HeaderBlock.reward_chain_ip_proof := FullBlock.reward_chain_ip_proof block;
        HeaderBlock.infused_challenge_chain_ip_proof := FullBlock.infused_challenge_chain_ip_proof block;
        HeaderBlock.foliage := FullBlock.foliage block;
        HeaderBlock.foliage_transaction_block := FullBlock.foliage_transaction_block block;
        HeaderBlock.transactions_filter := encoded_filter;
        HeaderBlock.transactions_info := FullBlock.transactions_info block |}.
End Generator.

(** A toy runner: after its length byte a program is a sequence of spends of 66 bytes, a
    coin name, a puzzle hash, and the puzzle hash (repeated) and the amount of one new
    coin. *)
Fixpoint sample_spends (fuel : nat) (p : bytes) : list RawSpend :=
  match fuel, p with
  | S fuel, _ :: _ =>
      {| raw_coin_name := take 32 p; raw_puzzle_hash := take 32 (drop 32 p);
         raw_conditions := [(51, [(51, [replicate 32 (nth 64 p 0); [nth 65 p 0]])])] |}
      :: sample_spends fuel (drop 66 p)
  | _, _ => []
  end.
#[export] Instance sample_runner : ClvmRunner := {|
  STRICT_MODE := 1; run_as_generator := λ _ _ p _, Ok (None, sample_spends (length p) (tail p), 0);
  bip158_encoded := λ l, concat l |}.
