(* ===== verification/CachedBls.v ===== *)
(** * The cache of pairings

    Models [chia/util/cached_bls.py]: an aggregate signature is checked as a
    product of pairings, of which the ones seen before are kept in an LRU cache.

    The group operations are those of the external [blspy]; they are the fields
    of the class [Bls].  Its law is what the scheme promises: [aggregate_verify]
    on public keys that decode is the equation between the product of the
    pairings of every key with its message and the pairing of the signature. *)
From S2P Require Import Prelude PyInt PyFloat Consensus CoinStore.

Class Bls := {
  GTElement : Type;
  GT_eq_dec :: EqDecision GTElement;
  (** [G1Element.from_bytes(pk)] *)
  g1_from_bytes : bytes → res unit;
  (** [pk.pair(AugSchemeMPL.g2_from_message(aug_msg))] *)
  pair_message : bytes → bytes → GTElement;
  gt_mul : GTElement → GTElement → GTElement;
  (** [sig.pair(G1Element.generator())] *)
  pair_signature : bytes → GTElement;
  (** the truth value of a [G2Element] *)
  g2_bool : bytes → bool;
  (** [AugSchemeMPL.aggregate_verify] *)
  mpl_aggregate_verify : list bytes → list bytes → bytes → bool;
  mpl_aggregate_pairings : ∀ p pms sig, Forall (λ pm, g1_from_bytes pm.1 = Ok tt) (p :: pms) →
    mpl_aggregate_verify (p :: pms).*1 (p :: pms).*2 sig
    = bool_decide (foldl (λ g pm, gt_mul g (pair_message pm.1 (pm.1 ++ pm.2)))
                     (pair_message p.1 (p.1 ++ p.2)) pms = pair_signature sig);
}.

Section CachedBls.
Context `{StdHash} `{Bls}.

Notation PairingCache := (LRUCache bytes GTElement).

Definition cache_get (h : bytes) : ST PairingCache (option GTElement) := λ c,
  let '(r, c) := lru_get h c in (Ok r, c).

(** The first loop of [get_pairings], leaving with [[]] when too many pairings
    are missing. *)
Definition lookup_pairing (n_pks : nat) (force_cache : bool) (acc : list (option GTElement) * Z)
    (pm : bytes * bytes) : ST PairingCache ((list (option GTElement) * Z) + list GTElement) :=
  let '(pairings, missing_count) := acc in
  let aug_msg := pm.1 ++ pm.2 in
  pairing ← cache_get (std_hash aug_msg);
  if negb force_cache && bool_decide (pairing = None) then
    let missing_count := missing_count + 1 in
    if Z.of_nat n_pks / 2 <? missing_count then mret (inr [])
    else mret (inl (pairings ++ [pairing], missing_count))
  else mret (inl (pairings ++ [pairing], missing_count)).

(** The second loop: the missing pairings are computed and cached. *)
Definition fill_pairing (x : option GTElement * (bytes * bytes)) : ST PairingCache GTElement :=
  let '(pairing, (pk, msg)) := x in
  match pairing with
  | Some g => mret g
  | None =>
      let aug_msg := pk ++ msg in
      st_res (g1_from_bytes pk) ;;
      let pairing := pair_message pk aug_msg in
      st_modify (lru_put (std_hash aug_msg) pairing) ;;
      mret pairing
  end.

Definition get_pairings (pks msgs : list bytes) (force_cache : bool) : ST PairingCache (list GTElement) :=
  r ← st_early (lookup_pairing (length pks) force_cache) ([], 0) (zip pks msgs);
  match r with
  | inr v => mret v
  | inl (pairings, _) => st_each fill_pairing (zip pairings (zip pks msgs))
  end.

Definition aggregate_verify (pks msgs : list bytes) (sig : bytes) (force_cache : bool) : ST PairingCache bool :=
  pairings ← get_pairings pks msgs force_cache;
  match pairings with
  | [] =>
      st_res (for_each g1_from_bytes pks) ;;
      mret (mpl_aggregate_verify pks msgs sig)
  | g :: gs => mret (bool_decide (foldl gt_mul g gs = pair_signature sig))
  end.

(** ** The cached check is the uncached one *)

(** The messages hashed so far: the cache holds pairings of these only. *)
Definition no_collision (used : list (bytes * bytes)) : Prop :=
  ∀ p q, p ∈ used → q ∈ used → std_hash (p.1 ++ p.2) = std_hash (q.1 ++ q.2) → p = q.

Definition pairing_of (pm : bytes * bytes) : GTElement := pair_message pm.1 (pm.1 ++ pm.2).

Definition pairings_ok (used : list (bytes * bytes)) (c : PairingCache) : Prop :=
  lru_wf c ∧ ∀ h g, dget h (cache c) = Some g → ∃ pm, pm ∈ used ∧ h = std_hash (pm.1 ++ pm.2) ∧ g = pairing_of pm.

Section Cached.
Context (used : list (bytes * bytes)) (Hnc : no_collision used).

Lemma cache_get_ok pm c : pairings_ok used c → pm ∈ used →
  ∃ o c', cache_get (std_hash (pm.1 ++ pm.2)) c = (Ok o, c') ∧ pairings_ok used c'
    ∧ (∀ g, o = Some g → g = pairing_of pm).
Proof.
  intros [Hw Hc] Hpm. unfold cache_get. destruct (lru_get_spec (std_hash (pm.1 ++ pm.2)) c Hw) as (c'&->&Hw'&_&Hg).
  eexists _, _. split_and!; [done| |].
  - split; [done|]. intros h g. rewrite Hg. apply Hc.
  - intros g Hd. apply Hc in Hd as (pm'&Hin&E&->). by rewrite (Hnc _ _ Hpm Hin E).
Qed.

Lemma lookup_pairings_ok n f l : (∀ pm, pm ∈ l → pm ∈ used) → ∀ ps k c, pairings_ok used c →
  ∃ r c', st_early (lookup_pairing n f) (ps, k) l c = (Ok r, c') ∧ pairings_ok used c' ∧
    (r = inr [] ∨ ∃ qs k', r = inl (ps ++ qs, k') ∧ Forall2 (λ o pm, ∀ g, o = Some g → g = pairing_of pm) qs l).
Proof.
  induction l as [|pm l IH]; intros Hl ps k c Hc; cbn [st_early].
  - eexists _, _. split_and!; [done|done|]. right. exists [], k. by rewrite app_nil_r.
  - destruct (cache_get_ok pm c Hc ltac:(set_solver)) as (o&c1&E1&Hc1&Ho).
    assert (Hstep : (∃ k', lookup_pairing n f (ps, k) pm c = (Ok (inl (ps ++ [o], k')), c1))
                    ∨ lookup_pairing n f (ps, k) pm c = (Ok (inr []), c1)).
    { unfold lookup_pairing. rewrite (st_bind_Ok _ _ _ _ _ E1).
      destruct (negb f && bool_decide (o = None)); [|left; by eexists].
      destruct (_ <? _); [by right|left; by eexists]. }
    destruct Hstep as [[k' E]|E]; rewrite (st_bind_Ok _ _ _ _ _ E).
    + destruct (IH ltac:(set_solver) (ps ++ [o]) k' c1 Hc1) as (r&c2&E2&Hc2&[->|(qs&k2&->&HF)]).
      * eexists _, _. eauto.
      * eexists _, _. split_and!; [done|done|]. right. exists (o :: qs), k2. split; [by rewrite <- app_assoc|].
        by constructor.
    + eexists _, _. split_and!; [done|done|by left].
Qed.

Lemma fill_pairings_ok l qs : Forall (λ pm, g1_from_bytes pm.1 = Ok tt ∧ pm ∈ used) l →
  Forall2 (λ o pm, ∀ g, o = Some g → g = pairing_of pm) qs l → ∀ c, pairings_ok used c →
  ∃ c', st_each fill_pairing (zip qs l) c = (Ok (pairing_of <$> l), c') ∧ pairings_ok used c'.
Proof.
  intros Hl HF. induction HF as [|o pm qs l Ho HF IH]; intros c Hc; cbn [zip zip_with st_each].
  - by eexists.
  - apply Forall_cons in Hl as [[Hg1 Hin] Hl].
    assert (∃ c1, fill_pairing (o, pm) c = (Ok (pairing_of pm), c1) ∧ pairings_ok used c1) as (c1&E&Hc1).
    { destruct pm as [pk msg]. destruct o as [g|]; cbn [fill_pairing].
      - rewrite (Ho g eq_refl). by eexists.
      - rewrite (st_bind_Ok _ _ _ tt c) by by apply st_res_Ok. rewrite (st_bind_Ok _ _ _ _ _ (st_modify_eq _ c)).
        eexists. split; [done|]. destruct Hc as [Hw Hc]. split; [by apply lru_put_wf|].
        intros h g Hd. apply lru_put_dget in Hd; [|done]. case_decide; [|by apply Hc].
        subst. by exists (pk, msg). }
    rewrite (st_bind_Ok _ _ _ _ _ E). destruct (IH Hl c1 Hc1) as (c2&E2&Hc2).
    rewrite (st_bind_Ok _ _ _ _ _ E2). by eexists.
Qed.
End Cached.
End CachedBls.

(** C40. With distinct messages hashing apart, and public keys that decode, the
    check of an aggregate signature through the cache of pairings gives the result of
    [AugSchemeMPL.aggregate_verify], whatever the cache holds, and leaves a correct
    cache. *)
Theorem cached_aggregate_verify `{StdHash} `{Bls} (used pms : list (bytes * bytes)) (sig : bytes)
    (force_cache : bool) (c : LRUCache bytes GTElement) :
  no_collision used → pairings_ok used c →
  Forall (λ pm, g1_from_bytes pm.1 = Ok tt ∧ pm ∈ used) pms →
  ∃ c', aggregate_verify pms.*1 pms.*2 sig force_cache c = (Ok (mpl_aggregate_verify pms.*1 pms.*2 sig), c')
    ∧ pairings_ok used c'.
Proof.
  intros Hnc Hc Hp. unfold aggregate_verify, get_pairings. rewrite zip_fst_snd.
  destruct (lookup_pairings_ok used Hnc (length pms.*1) force_cache pms) with (ps := @nil (option GTElement)) (k := 0) (c := c)
    as (r&c1&E1&Hc1&Hr); [intros pm Hin; rewrite list.Forall_forall in Hp; by apply Hp|done|].
  unfold mbind at 1, st_bind at 1, mbind at 1, st_bind at 1. rewrite E1.
  assert (Hg1 : for_each g1_from_bytes pms.*1 = Ok (replicate (length pms) tt)).
  { clear -Hp. induction Hp as [|pm l [Hg _] _ IH]; [done|]. cbn. rewrite Hg. cbn. by rewrite IH. }
  destruct Hr as [->|(qs&k&->&HF)].
  - cbn. unfold st_res. rewrite Hg1. by eexists.
  - cbn [app]. destruct (fill_pairings_ok used pms qs Hp HF c1 Hc1) as (c2&->&Hc2).
    destruct pms as [|pm pms]; cbn [fmap list_fmap].
    + eexists. by split.
    + eexists. split; [|done]. rewrite (mpl_aggregate_pairings pm pms).
      * unfold mret, st_ret. f_equal. f_equal. apply bool_decide_ext.
        by rewrite foldl_fmap.
      * eapply Forall_impl; [exact Hp|]. by intros ? [? _].
Qed.

(** A toy instance: pairings are numbers, multiplied by adding them. *)
Definition sample_pairing (pk aug_msg : bytes) : Z := decode_be false pk + decode_be false aug_msg.
#[export] Program Instance sample_bls : Bls := {|
  GTElement := Z;
  g1_from_bytes := λ _, Ok tt;
  pair_message := sample_pairing;
  gt_mul := Z.add;
  pair_signature := decode_be false;
  g2_bool := λ _, true;
  mpl_aggregate_verify := λ pks msgs sig,
    bool_decide (foldl Z.add 0 (zip_with (λ pk m, sample_pairing pk (pk ++ m)) pks msgs) = decode_be false sig);
|}.
Next Obligation.
  intros p pms sig _. apply bool_decide_ext. cbn. rewrite Z.add_0_l.
  generalize (sample_pairing p.1 (p.1 ++ p.2)). induction pms as [|q pms IH]; intros g; [done|]. cbn. apply IH.
Qed.

Definition sample_cache_bls : LRUCache bytes Z := lru_put (std_hash [1; 2]) (sample_pairing [1] [1; 2]) (mk_LRUCache [] 3).

Lemma cached_aggregate_verify_witness :
  ∃ c', aggregate_verify [[1]; [3]; [1]] [[2]; [4]; [2]] [4; 9] true sample_cache_bls
        = (Ok (mpl_aggregate_verify [[1]; [3]; [1]] [[2]; [4]; [2]] [4; 9]), c') ∧ pairings_ok [([1], [2]); ([3], [4])] c'.
Proof.
  apply (cached_aggregate_verify [([1], [2]); ([3], [4])] [([1], [2]); ([3], [4]); ([1], [2])]).
  - intros p q Hp Hq. rewrite !elem_of_cons, elem_of_nil in Hp, Hq.
    destruct Hp as [->|[->|[]]], Hq as [->|[->|[]]]; try done; vm_compute; discriminate.
  - split; [apply lru_put_wf; split; [constructor|done]|].
    intros h g Hd. unfold sample_cache_bls in Hd. apply lru_put_dget in Hd; [|split; [constructor|done]].
    case_decide; [|done]. subst. exists ([1], [2]). set_solver.
  - repeat constructor; set_solver.
Defined.
