(* ===== verification/RootValidation.v ===== *)
(** * The merkle roots of a block

    Models [chia/consensus/block_root_validation.py] and [hash_coin_list] of
    [chia/types/blockchain_format/coin.py].

    The coins of a block reach this check partly from a Python set, whose order
    of iteration differs between nodes; the theorem shows that the check does not
    depend on it. *)
From S2P Require Import Prelude PyInt PyFloat Consensus Errors Coins CoinStore Sha256 MerkleSet.

Section Roots.
Context `{Sha256} `{StdHash} `{ClvmCasts}.

(** [coin_list.sort(key=lambda x: x.name_str, reverse=True)] *)
Definition name_str (c : Coin) : text := hex (coin_name c).
Definition name_ge (a b : Coin) : Prop := bytes_lt (name_str a) (name_str b) = false.
#[global] Instance name_ge_dec : RelDecision name_ge.
Proof. intros a b. unfold name_ge. apply _. Defined.

Definition hash_coin_list (coin_list : list Coin) : bytes :=
  std_hash (merge_sort name_ge coin_list ≫= coin_name).

Definition group_coin (puzzlehash_coins_map : dict bytes (list Coin)) (c : Coin) : dict bytes (list Coin) :=
  match dget (puzzle_hash c) puzzlehash_coins_map with
  | Some l => dset (puzzle_hash c) (l ++ [c]) puzzlehash_coins_map
  | None => dset (puzzle_hash c) [c] puzzlehash_coins_map
  end.

Definition validate_block_merkle_roots (block_additions_root block_removals_root : bytes)
    (tx_additions : list Coin) (tx_removals : list bytes) : res (option Err.t) :=
  removal_merkle_set ← for_fold add_already_hashed EmptyNode tx_removals;
  let puzzlehash_coins_map := foldl group_coin [] tx_additions in
  addition_merkle_set ← for_fold (λ t '(puzzle, coins),
    t ← add_already_hashed t puzzle;
    add_already_hashed t (hash_coin_list coins)) EmptyNode puzzlehash_coins_map;
  additions_root ← get_root addition_merkle_set;
  removals_root ← get_root removal_merkle_set;
  if bool_decide (block_additions_root ≠ additions_root) then Ok (Some Err.BAD_ADDITION_ROOT)
  else if bool_decide (block_removals_root ≠ removals_root) then Ok (Some Err.BAD_REMOVAL_ROOT)
  else Ok None.

(** ** Grouping by puzzle hash *)
Definition with_puzzle (ph : bytes) (l : list Coin) : list Coin := filter (λ c, puzzle_hash c = ph) l.

Lemma group_coins_get l ph :
  dget ph (foldl group_coin [] l) = (if decide (ph ∈ puzzle_hash <$> l) then Some (with_puzzle ph l) else None).
Proof.
  induction l as [|c l IH] using rev_ind; [done|].
  rewrite foldl_app. cbn [foldl]. unfold group_coin at 1. unfold with_puzzle in *.
  rewrite filter_app, fmap_app.
  destruct (decide (puzzle_hash c = ph)) as [<-|Hne].
  - rewrite IH. rewrite (decide_True (P := puzzle_hash c ∈ _ ++ _)) by set_solver.
    rewrite (filter_cons_True _ c []), filter_nil by done.
    case_decide as Hin; rewrite dget_dset_eq; [done|].
    rewrite (elem_of_nil_inv (filter (λ c', puzzle_hash c' = puzzle_hash c) l)); [done|].
    intros c' [E Hc']%list_elem_of_filter. apply Hin. apply list_elem_of_fmap. by exists c'.
  - rewrite (filter_cons_False _ c []), filter_nil, app_nil_r by done.
    assert (E : ∀ g, dget ph (dset (puzzle_hash c) g (foldl group_coin [] l)) = dget ph (foldl group_coin [] l))
      by (intros; apply dget_dset_ne; congruence).
    transitivity (dget ph (foldl group_coin [] l)); [by destruct (dget (puzzle_hash c) _)|].
    rewrite IH. destruct (decide (ph ∈ puzzle_hash <$> l)) as [Hin|Hin].
    + by rewrite decide_True by set_solver.
    + rewrite decide_False; [done|]. set_solver.
Qed.

Lemma group_coins_wf l : dict_wf (foldl group_coin [] l).
Proof.
  induction l as [|c l IH] using rev_ind; [constructor|]. rewrite foldl_app. cbn [foldl].
  unfold group_coin at 1. destruct (dget _ _); by apply dset_wf.
Qed.

(** ** Sorting by name *)
Lemma bytes_lt_trans a b c : bytes_lt a b = false → bytes_lt b c = false → bytes_lt a c = false.
Proof.
  revert b c. induction a as [|x a IH]; intros [|y b] [|z c]; cbn; try done.
  destruct (Z.ltb_spec x y), (Z.ltb_spec y x), (Z.ltb_spec y z), (Z.ltb_spec z y), (Z.ltb_spec x z), (Z.ltb_spec z x);
    try done; try lia. apply IH.
Qed.
Lemma bytes_lt_antisym a b : bytes_lt a b = false → bytes_lt b a = false → a = b.
Proof.
  revert b. induction a as [|x a IH]; intros [|y b]; cbn; try done.
  destruct (Z.ltb_spec x y), (Z.ltb_spec y x); try done; try lia.
  intros Ha Hb. f_equal; [lia|by apply IH].
Qed.

Definition bytes_ge (a b : bytes) : Prop := bytes_lt (hex a) (hex b) = false.
#[local] Instance bytes_ge_antisym : AntiSymm (=) bytes_ge.
Proof. intros a b Hab Hba. apply (inj hex). by apply bytes_lt_antisym. Qed.
#[local] Instance name_ge_trans : Transitive name_ge.
Proof. intros a b c. apply bytes_lt_trans. Qed.
#[local] Instance name_ge_total : Total name_ge.
Proof.
  intros a b. unfold name_ge. destruct (bytes_lt (name_str a) (name_str b)) eqn:E; [right|by left].
  by apply bytes_lt_asym.
Qed.

Lemma hash_coin_list_perm l l' : l ≡ₚ l' → hash_coin_list l = hash_coin_list l'.
Proof.
  intros Hp. unfold hash_coin_list. f_equal.
  assert (Hs : ∀ l, StronglySorted bytes_ge (coin_name <$> merge_sort name_ge l)).
  { intros l0. pose proof (StronglySorted_merge_sort name_ge l0) as HS.
    induction HS as [|c l1 HS IH HF]; cbn; constructor; [done|]. by apply Forall_fmap. }
  assert (E : coin_name <$> merge_sort name_ge l = coin_name <$> merge_sort name_ge l').
  { apply (StronglySorted_unique bytes_ge); [apply Hs|apply Hs|]. by rewrite !merge_sort_Permutation, Hp. }
  assert (Hb : ∀ l0 : list Coin, l0 ≫= coin_name = concat (coin_name <$> l0)).
  { induction l0 as [|c l0 IH]; [done|]. cbn. by f_equal. }
  by rewrite !Hb, E.
Qed.

(** ** Sets of hashes *)
Definition addition_hashes (l : list Coin) : list bytes :=
  foldl group_coin [] l ≫= λ '(puzzle, coins), [puzzle; hash_coin_list coins].

Lemma elem_of_addition_hashes l h :
  h ∈ addition_hashes l ↔ ∃ ph, ph ∈ puzzle_hash <$> l ∧ (h = ph ∨ h = hash_coin_list (with_puzzle ph l)).
Proof.
  unfold addition_hashes. rewrite list_elem_of_bind. split.
  - intros ([ph cs]&Hh&Hin). apply (dget_in_wf _ _ _ (group_coins_wf l)) in Hin. rewrite group_coins_get in Hin.
    case_decide; [|done]. simplify_eq. exists ph. set_solver.
  - intros (ph&Hph&Hh). exists (ph, with_puzzle ph l). split; [set_solver|].
    apply dget_Some_in. rewrite group_coins_get. by rewrite decide_True.
Qed.

Lemma addition_hashes_perm l l' h : l ≡ₚ l' → h ∈ addition_hashes l ↔ h ∈ addition_hashes l'.
Proof.
  intros Hp. rewrite !elem_of_addition_hashes.
  assert (∀ ph, hash_coin_list (with_puzzle ph l) = hash_coin_list (with_puzzle ph l')) as E.
  { intros ph. apply hash_coin_list_perm. unfold with_puzzle. by rewrite Hp. }
  setoid_rewrite E. by setoid_rewrite Hp.
Qed.

Lemma add_all_eq l t :
  for_fold (λ t '(puzzle, coins), t ← add_already_hashed t puzzle; add_already_hashed t (hash_coin_list coins)) t l
  = for_fold run_op t (AddHash <$> (l ≫= λ '(puzzle, coins), [puzzle; hash_coin_list coins])).
Proof.
  revert t. induction l as [|[ph cs] l IH]; intros t; [done|].
  cbn [for_fold mbind list_bind app fmap list_fmap run_op].
  destruct (add_already_hashed t ph) as [t1| |]; cbn [mbind res_bind]; [|done..].
  destruct (add_already_hashed t1 (hash_coin_list cs)) as [t2| |]; cbn [mbind res_bind]; [|done..]. apply IH.
Qed.

Lemma set_of_adds l h : h ∈ set_of (AddHash <$> l) ↔ h ∈ l.
Proof.
  unfold set_of. assert (∀ s : gset (list Z), h ∈ foldl apply_op s (AddHash <$> l) ↔ h ∈ s ∨ h ∈ l) as E.
  { induction l as [|x l IH]; intros s; cbn; [set_solver|]. rewrite IH. set_solver. }
  rewrite E. set_solver.
Qed.

Lemma add_hashes_root l l' : Forall hash32 l → Forall hash32 l' → (∀ h, h ∈ l ↔ h ∈ l') →
  ∃ t r, for_fold run_op EmptyNode (AddHash <$> l) = Ok t ∧ for_fold run_op EmptyNode (AddHash <$> l') = Ok t
    ∧ get_root t = Ok r.
Proof.
  intros Hl Hl' E.
  destruct (run_ops_ok (AddHash <$> l) EmptyNode ∅) as (t&Et&Hok&Hs); [done|by apply Forall_fmap|cbn; set_solver|].
  destruct (run_ops_ok (AddHash <$> l') EmptyNode ∅) as (t'&Et'&Hok'&Hs'); [done|by apply Forall_fmap|cbn; set_solver|].
  destruct (get_root_ok _ _ Hok) as (r&Er&_).
  exists t, r. rewrite Et, Et'. split_and!; [done| |done]. f_equal. apply (tree_canonical []); [done|done|].
  intros h. rewrite Hs, Hs'. pose proof (set_of_adds l h). pose proof (set_of_adds l' h). unfold set_of in *.
  rewrite H2, H3. symmetry. apply E.
Qed.

Lemma addition_hashes_32 l : Forall (λ c, hash32 (puzzle_hash c)) l → Forall hash32 (addition_hashes l).
Proof.
  intros Hl. apply list.Forall_forall. intros h (ph&Hph&Hx)%elem_of_addition_hashes; destruct Hx as [-> | ->].
  - apply list_elem_of_fmap in Hph as (c&->&Hc). rewrite list.Forall_forall in Hl. by apply Hl.
  - split; [apply std_hash_length|apply std_hash_bytes].
Qed.
End Roots.

(** Two nodes that list the same additions and removals of a block in different
    orders compute the same merkle roots: the check of the roots never raises and gives
    the same verdict. *)
Theorem merkle_roots_any_order `{Sha256} `{StdHash} `{ClvmCasts} (add_root rem_root : bytes)
    (additions additions' : list Coin) (removals removals' : list bytes) :
  Forall (λ c, hash32 (puzzle_hash c)) additions → Forall hash32 removals →
  additions ≡ₚ additions' → removals ≡ₚ removals' →
  ∃ verdict, validate_block_merkle_roots add_root rem_root additions removals = Ok verdict
    ∧ validate_block_merkle_roots add_root rem_root additions' removals' = Ok verdict.
Proof.
  intros Ha Hr Pa Pr.
  assert (Ef : ∀ l, for_fold add_already_hashed EmptyNode l = for_fold run_op EmptyNode (AddHash <$> l)).
  { intros l. generalize EmptyNode. induction l as [|h l IH]; intros t; [done|]. cbn.
    destruct (add_already_hashed t h); cbn [mbind res_bind]; [apply IH|done..]. }
  destruct (add_hashes_root removals removals') as (t&r&E&E'&Er); [done|by rewrite <- Pr|intros; by rewrite Pr|].
  destruct (add_hashes_root (addition_hashes additions) (addition_hashes additions')) as (t2&r2&E2&E2'&Er2).
  { by apply addition_hashes_32. }
  { apply addition_hashes_32. by rewrite <- Pa. }
  { intros h. by apply addition_hashes_perm. }
  exists (if bool_decide (add_root ≠ r2) then Some Err.BAD_ADDITION_ROOT
     else if bool_decide (rem_root ≠ r) then Some Err.BAD_REMOVAL_ROOT else None).
  unfold addition_hashes in E2, E2'.
  unfold validate_block_merkle_roots. rewrite !add_all_eq, !Ef, E, E', E2, E2'. cbn [mbind res_bind].
  rewrite Er2, Er. cbn [mbind res_bind]. split; repeat case_bool_decide; done.
Qed.

Lemma merkle_roots_any_order_witness :
  ∃ verdict,
    validate_block_merkle_roots [] [] [sample_coin 1 2 5; sample_coin 2 2 7; sample_coin 1 3 9] [sample_h1; sample_h2] = Ok verdict ∧
    validate_block_merkle_roots [] [] [sample_coin 1 3 9; sample_coin 1 2 5; sample_coin 2 2 7] [sample_h2; sample_h1] = Ok verdict.
Proof.
  apply merkle_roots_any_order.
  - apply (bool_decide_unpack _). vm_compute. exact I.
  - apply (bool_decide_unpack _). vm_compute. exact I.
  - apply (Permutation_app_comm [_; _] [_]).
  - apply perm_swap.
Defined.
