(* ===== verification/Ledger.v ===== *)
(** * The ledger of a chain of blocks

    The abstract specification the full node is held to: the coins a chain of
    blocks leaves are what one gets by applying the effect of each block in turn
    to the map from coin names to records.  [BodyValidation] checks a block against
    the ledger of its parent, [Blockchain] keeps the coin store equal to the
    ledger of the peak. *)
From S2P Require Import Prelude PyInt PyFloat Consensus Errors Coins CoinStore.

(** What a transaction block does to the coins *)
Record Effect := {
  ef_height : Z;
  ef_timestamp : Z;
  ef_rewards : list Coin;
  ef_additions : list Coin;
  ef_removals : list bytes;
}.

Section Ledger.
Context `{StdHash} `{ClvmCasts}.
Implicit Types (m : abs_store) (e : Effect) (l : list Effect).

Definition apply_effect m e : abs_store :=
  abs_new_block (ef_height e) (ef_timestamp e) (ef_rewards e) (ef_additions e) (ef_removals e) m.
Definition effect_fits m e : Prop :=
  block_fits (ef_height e) (ef_timestamp e) (ef_rewards e) (ef_additions e) m.

Definition replay m l : abs_store := foldl apply_effect m l.
Fixpoint replay_fits m l : Prop :=
  match l with [] => True | e :: l => effect_fits m e ∧ replay_fits (apply_effect m e) l end.

#[global] Instance effect_fits_dec m e : Decision (effect_fits m e).
Proof. unfold effect_fits. apply _. Defined.
#[global] Instance replay_fits_dec m l : Decision (replay_fits m l).
Proof. revert m. induction l as [|e l IH]; intros m; cbn; apply _. Defined.

Definition created e : list Coin := ef_additions e ++ ef_rewards e.

Lemma replay_app m l l' : replay m (l ++ l') = replay (replay m l) l'.
Proof. apply foldl_app. Qed.

Lemma replay_fits_app m l l' : replay_fits m (l ++ l') ↔ replay_fits m l ∧ replay_fits (replay m l) l'.
Proof. revert m. induction l as [|e l IH]; intros m; cbn; [tauto|]. rewrite IH. tauto. Qed.

Lemma apply_effect_keeps m e n r :
  effect_fits m e → n ∉ ef_removals e → m !! n = Some r → apply_effect m e !! n = Some r.
Proof.
  intros Hf Hn Hm. unfold apply_effect, abs_new_block. rewrite lookup_abs_spend, decide_False by done.
  destruct (lookup_block_record (ef_height e) (ef_timestamp e) _ _ m n Hf) as [(?&?&?&Hno&_)|(_&->)]; congruence.
Qed.

(** A coin no block removes stays as it is. *)
Lemma replay_keeps m l n r :
  replay_fits m l → (∀ e, e ∈ l → n ∉ ef_removals e) → m !! n = Some r → replay m l !! n = Some r.
Proof.
  revert m. induction l as [|e l IH]; intros m; cbn; [done|]. intros [Hf Hfs] Hn Hm.
  apply IH; [done|set_solver|]. apply apply_effect_keeps; [done|set_solver|done].
Qed.

(** A coin a block of the chain creates and none removes is there, unspent. *)
Lemma replay_creates m l e c :
  replay_fits m l → e ∈ l → c ∈ created e → (∀ e, e ∈ l → coin_name c ∉ ef_removals e) →
  ∃ b, replay m l !! coin_name c = Some (new_record (ef_height e) (ef_timestamp e) b c).
Proof.
  revert m. induction l as [|e' l IH]; intros m Hf Hin Hc Hn; [set_solver|]. cbn in Hf |- *. destruct Hf as [Hf Hfs].
  apply elem_of_cons in Hin as [<-|Hin].
  - assert (∃ b, new_record (ef_height e) (ef_timestamp e) b c
             ∈ block_records (ef_height e) (ef_timestamp e) (ef_rewards e) (ef_additions e)) as [b Hr].
    { unfold created in Hc. apply elem_of_app in Hc as [Hc|Hc]; [exists false|exists true]; unfold block_records;
        apply elem_of_app; [left|right]; apply list_elem_of_fmap; by exists c. }
    exists b. apply replay_keeps; [done|set_solver|]. unfold apply_effect, abs_new_block.
    rewrite lookup_abs_spend, decide_False by set_solver.
    apply (lookup_abs_add_new _ m _) in Hr; [done|].
    rewrite list_fmap_compose, block_records_coins. apply Hf.
  - apply IH; [done|done|done|set_solver].
Qed.

(** Rolling back to height [i] keeps the coins confirmed at or below it. *)
Lemma rollback_keeps i m n r :
  m !! n = Some r → confirmed_block_index r <= i → abs_rollback i m !! n = Some (unspend_after i r).
Proof.
  intros Hm Hc. unfold abs_rollback. rewrite lookup_fmap, map_lookup_filter, Hm. cbn.
  by rewrite option_guard_True by (apply Z.ltb_ge; lia).
Qed.

(** A block spends coins that are unspent when it is applied. *)
Definition spends_unspent m e : Prop := ∀ n r, n ∈ ef_removals e → m !! n = Some r → spent r = false.
Fixpoint replay_spends m l : Prop :=
  match l with [] => True | e :: l => spends_unspent m e ∧ replay_spends (apply_effect m e) l end.

Lemma replay_spends_app m l l' : replay_spends m (l ++ l') ↔ replay_spends m l ∧ replay_spends (replay m l) l'.
Proof. revert m. induction l as [|e l IH]; intros m; cbn; [tauto|]. rewrite IH. tauto. Qed.

(** An unspent coin carries the spent index 0. *)
Definition index_zero m : Prop := ∀ n r, m !! n = Some r → spent r = false → spent_block_index r = 0.

(** What is in the ledger after a block: a coin of the block, or one from before; the
    block may have spent it. *)
Lemma lookup_apply_effect m e n :
  effect_fits m e →
  (∃ r, confirmed_block_index r = ef_height e ∧ spent r = false ∧ spent_block_index r = 0 ∧ m !! n = None
        ∧ apply_effect m e !! n = Some (if decide (n ∈ ef_removals e) then mark_spent (ef_height e) r else r))
  ∨ apply_effect m e !! n = (if decide (n ∈ ef_removals e) then mark_spent (ef_height e) <$> m !! n else m !! n).
Proof.
  intros Hf. unfold apply_effect, abs_new_block. rewrite lookup_abs_spend.
  destruct (lookup_block_record (ef_height e) (ef_timestamp e) _ _ m n Hf) as [(r&Hr&<-&Hno&->)|(_&->)]; [left|by right].
  apply block_records_in in Hr as (_&Hh&Hs&Hz). exists r. split_and!; [done|done|done|done|]. by case_decide.
Qed.

Lemma apply_effect_index_zero m e : effect_fits m e → index_zero m → index_zero (apply_effect m e).
Proof.
  intros Hf Hz n r. destruct (lookup_apply_effect m e n Hf) as [(r0&_&_&Hi&_&->)| ->]; case_decide; cbn.
  - by intros [= <-].
  - by intros [= <-].
  - destruct (m !! n); cbn; [by intros [= <-]|done].
  - apply Hz.
Qed.

Lemma apply_effect_below m e h : effect_fits m e → ef_height e < h → 0 < h → below h m → below h (apply_effect m e).
Proof.
  intros Hf Hh Hpos Hb n r. destruct (lookup_apply_effect m e n Hf) as [(r0&Hc&_&Hi&_&->)| ->]; case_decide; cbn.
  - intros [= <-]. cbn. lia.
  - intros [= <-]. lia.
  - destruct (m !! n) as [r0|] eqn:En; cbn; [|done]. intros [= <-]. cbn. apply Hb in En. lia.
  - apply Hb.
Qed.

(** Rolling back below a block forgets it. *)
Lemma rollback_apply_effect i m e :
  effect_fits m e → spends_unspent m e → index_zero m → i < ef_height e →
  abs_rollback i (apply_effect m e) = abs_rollback i m.
Proof.
  intros Hf Hs Hz Hi. apply map_eq. intros n. unfold abs_rollback. rewrite !lookup_fmap, !map_lookup_filter.
  apply Z.ltb_lt in Hi. destruct (lookup_apply_effect m e n Hf) as [(r&Hc&_&_&->&->)| ->].
  - case_decide; cbn; rewrite Hc, Hi; by rewrite option_guard_False.
  - case_decide as Hin; [|done]. destruct (m !! n) as [r|] eqn:En; cbn; [|done].
    destruct (i <? confirmed_block_index r) eqn:Ec; [by rewrite !option_guard_False|]. rewrite !option_guard_True by done. cbn -[Z.ltb].
    rewrite Hi. specialize (Hs _ _ Hin En). specialize (Hz _ _ En Hs). f_equal.
    destruct (i <? spent_block_index r); [done|]. destruct r; cbn in *. by subst.
Qed.

Lemma rollback_replay i l : ∀ m,
  replay_fits m l → replay_spends m l → index_zero m → Forall (λ e, i < ef_height e) l →
  abs_rollback i (replay m l) = abs_rollback i m.
Proof.
  induction l as [|e l IH]; intros m; cbn; [done|]. intros [Hf Hfs] [Hs Hss] Hz [Hi His]%Forall_cons.
  fold (replay (apply_effect m e) l). rewrite IH by (done || by apply apply_effect_index_zero). by apply rollback_apply_effect.
Qed.

Lemma rollback_below i m : below (i + 1) m → abs_rollback i m = m.
Proof.
  intros Hb. apply map_eq. intros n. unfold abs_rollback. rewrite lookup_fmap, map_lookup_filter.
  destruct (m !! n) as [r|] eqn:En; cbn; [|done]. apply Hb in En as [Hc Hs].
  rewrite option_guard_True by (apply Z.ltb_ge; lia). cbn. by rewrite (proj2 (Z.ltb_ge _ _)) by lia.
Qed.

Lemma replay_below h l : ∀ m,
  replay_fits m l → 0 < h → Forall (λ e, ef_height e < h) l → below h m → below h (replay m l).
Proof.
  induction l as [|e l IH]; intros m; cbn; [done|]. intros [Hf Hfs] Hpos [Hi His]%Forall_cons Hb.
  apply IH; [done|done|done|]. by apply apply_effect_below.
Qed.
Lemma replay_index_zero l : ∀ m, replay_fits m l → index_zero m → index_zero (replay m l).
Proof.
  induction l as [|e l IH]; intros m; cbn; [done|]. intros [Hf Hfs] Hz. apply IH; [done|]. by apply apply_effect_index_zero.
Qed.

(** The ledger of a chain rolled back to a height is the ledger of the chain up to it. *)
Lemma rollback_ledger i l l' :
  replay_fits ∅ (l ++ l') → replay_spends ∅ (l ++ l') → 0 <= i ∨ l = [] →
  Forall (λ e, ef_height e <= i) l → Forall (λ e, i < ef_height e) l' →
  abs_rollback i (replay ∅ (l ++ l')) = replay ∅ l.
Proof.
  rewrite replay_fits_app, replay_spends_app, replay_app. intros [Hf Hf'] [Hs Hs'] Hi Hl Hl'.
  rewrite rollback_replay by (done || by apply replay_index_zero). apply rollback_below.
  destruct Hi as [Hi| ->]; [|by intros n r; cbn; rewrite lookup_empty].
  apply replay_below; [done|lia| |by intros n r; rewrite lookup_empty].
  eapply Forall_impl; [done|]. cbn. lia.
Qed.
End Ledger.
