(* ===== verification/BodyValidation.v ===== *)
(** * Validation of the body of a block

    Models [chia/consensus/block_body_validation.py]: the checks of the
    transactions, rewards, fees and signatures of a block against the coins its
    chain has created, also for a block that is not on the current best chain.

    The coin store, the block store and the cache of pairings are the state
    [Stores].  [get_block_generator] is an argument of the source function and of
    its model.  Everything else outside of the repository is a parameter: the
    CLVM runner and the filter ([ClvmRunner]), the signatures ([Bls]) and the order
    in which Python iterates over a set of coins ([SetIter]). *)
From S2P Require Import Prelude PyInt PyFloat Consensus ChainView Errors Coins CoinStore Sha256 MerkleSet Streamable.
From S2P Require Import BlockTypes BlockStore Generator CachedBls RootValidation.

Class SetIter := {
  set_iter : list Coin → list Coin;
  set_iter_perm : ∀ l, set_iter l ≡ₚ l;
}.

(** [Union[FullBlock, UnfinishedBlock]] *)
Module AnyBlock.
Inductive t := Full (b : FullBlock.t) | Unfinished (b : UnfinishedBlock.t).
Definition foliage (b : t) : Foliage.t :=
  match b with Full b => FullBlock.foliage b | Unfinished b => UnfinishedBlock.foliage b end.
Definition foliage_transaction_block (b : t) : option FoliageTransactionBlock.t :=
  match b with Full b => FullBlock.foliage_transaction_block b | Unfinished b => UnfinishedBlock.foliage_transaction_block b end.
Definition transactions_info (b : t) : option TransactionsInfo.t :=
  match b with Full b => FullBlock.transactions_info b | Unfinished b => UnfinishedBlock.transactions_info b end.
Definition transactions_generator (b : t) : option bytes :=
  match b with Full b => FullBlock.transactions_generator b | Unfinished b => UnfinishedBlock.transactions_generator b end.
Definition transactions_generator_ref_list (b : t) : list Z :=
  match b with Full b => FullBlock.transactions_generator_ref_list b | Unfinished b => UnfinishedBlock.transactions_generator_ref_list b end.
Definition prev_header_hash (b : t) : bytes := Foliage.prev_block_hash (foliage b).
Definition is_unfinished (b : t) : bool := match b with Full _ => false | Unfinished _ => true end.
End AnyBlock.

Section Body.
Context `{Packages} `{Sha256} `{StdHash} `{ClvmCasts} `{ClvmRunner} `{Bls} `{SetIter}.
Context (constants : ConsensusConstants) (blocks : BlockchainInterface) (fuel : nat).

Record Stores := {
  st_coins : CoinStore;
  st_blocks : BlockStore.BlockStore;
  st_pairings : LRUCache bytes GTElement;
}.
Definition on_coins {A} : ST CoinStore A → ST Stores A :=
  st_part st_coins (λ p s, {| st_coins := p; st_blocks := st_blocks s; st_pairings := st_pairings s |}).
Definition on_blocks {A} : ST BlockStore.BlockStore A → ST Stores A :=
  st_part st_blocks (λ p s, {| st_coins := st_coins s; st_blocks := p; st_pairings := st_pairings s |}).
Definition on_pairings {A} : ST (LRUCache bytes GTElement) A → ST Stores A :=
  st_part st_pairings (λ p s, {| st_coins := st_coins s; st_blocks := st_blocks s; st_pairings := p |}).

Context (get_block_generator : FullBlock.t → ST Stores (option BlockGenerator)).

(** ** A block without transactions (check 1) *)
Definition prev_tb_body (prev_tb : BlockRecord) : res (BlockRecord + BlockRecord) :=
  if is_transaction_block prev_tb then Ok (inr prev_tb)
  else p ← block_record blocks (prev_hash prev_tb); Ok (inl p).

Definition check_no_body (block : AnyBlock.t) : res (option Err.t) :=
  if bool_decide (is_Some (AnyBlock.foliage_transaction_block block))
     || bool_decide (is_Some (AnyBlock.transactions_info block))
     || bool_decide (is_Some (AnyBlock.transactions_generator block))
  then Ok (Some Err.NOT_BLOCK_BUT_HAS_DATA)
  else
    prev_tb ← block_record blocks (AnyBlock.prev_header_hash block);
    prev_tb ← loop fuel prev_tb_body prev_tb;
    assert_ (bool_decide (is_Some (timestamp prev_tb))) ;;
    if bool_decide (0 < length (AnyBlock.transactions_generator_ref_list block))%nat
    then Ok (Some Err.NOT_BLOCK_BUT_HAS_DATA)
    else Ok None.

(** ** Reward coins (check 5) *)

(** A Python set, as the list of its elements in order of insertion *)
Definition set_add (c : Coin) (l : list Coin) : list Coin := if decide (c ∈ l) then l else l ++ [c].
Definition same_set (l l' : list Coin) : bool := bool_decide (Forall (.∈ l') l ∧ Forall (.∈ l) l').

Definition pool_reward_coin (b : BlockRecord) : res Coin :=
  r ← calculate_pool_reward (height b);
  create_pool_coin (height b) (pool_puzzle_hash b) r (GENESIS_CHALLENGE constants).

Definition reward_body (s : BlockRecord * list Coin) : res (BlockRecord * list Coin + list Coin) :=
  let '(curr_b, expected) := s in
  if is_transaction_block curr_b then Ok (inr expected)
  else
    pool_coin ← pool_reward_coin curr_b;
    r ← calculate_base_farmer_reward (height curr_b);
    farmer_coin ← create_farmer_coin (height curr_b) (farmer_puzzle_hash curr_b) r (GENESIS_CHALLENGE constants);
    let expected := set_add farmer_coin (set_add pool_coin expected) in
    p ← block_record blocks (prev_hash curr_b);
    Ok (inl (p, expected)).

(** The expected reward coins and the height of the previous transaction block *)
Definition expected_reward_coins (h : Z) (ftb : FoliageTransactionBlock.t) : res (list Coin * Z) :=
  if 0 <? h then
    ptb ← block_record blocks (FoliageTransactionBlock.prev_transaction_block_hash ftb);
    fees ← of_opt AssertionError (fees ptb);
    pool_coin ← pool_reward_coin ptb;
    r ← calculate_base_farmer_reward (height ptb);
    a ← uint64 (r + fees);
    farmer_coin ← create_farmer_coin (height ptb) (farmer_puzzle_hash ptb) a (GENESIS_CHALLENGE constants);
    let expected := set_add farmer_coin (set_add pool_coin []) in
    if 0 <? height ptb then
      curr_b ← block_record blocks (prev_hash ptb);
      expected ← loop fuel reward_body (curr_b, expected);
      Ok (expected, height ptb)
    else Ok (expected, height ptb)
  else Ok ([], 0).

(** ** The generator and its references (checks 7a and 8a to 8c) *)
Definition check_generator_roots (h : Z) (block : AnyBlock.t) (ti : TransactionsInfo.t) : res (option Err.t) :=
  let root_ok :=
    match AnyBlock.transactions_generator block with
    | Some g => bool_decide (std_hash g = TransactionsInfo.generator_root ti)
    | None => bool_decide (TransactionsInfo.generator_root ti = replicate 32 0)
    end in
  if negb root_ok then Ok (Some Err.INVALID_TRANSACTIONS_GENERATOR_HASH)
  else
    let refs := AnyBlock.transactions_generator_ref_list block in
    match refs with
    | [] =>
        if bool_decide (TransactionsInfo.generator_refs_root ti ≠ replicate 32 1)
        then Ok (Some Err.INVALID_TRANSACTIONS_GENERATOR_REFS_ROOT) else Ok None
    | _ =>
        match AnyBlock.transactions_generator block with
        | None => Ok (Some Err.INVALID_TRANSACTIONS_GENERATOR_REFS_ROOT)
        | Some _ =>
            refs_bytes ← for_each (StructStream_stream PL) refs;
            if bool_decide (TransactionsInfo.generator_refs_root ti ≠ std_hash (concat refs_bytes))
            then Ok (Some Err.INVALID_TRANSACTIONS_GENERATOR_REFS_ROOT)
            else if MAX_GENERATOR_REF_LIST_SIZE constants <? Z.of_nat (length refs)
            then Ok (Some Err.TOO_MANY_GENERATOR_REFS)
            else if existsb (λ index, h <=? index) refs then Ok (Some Err.FUTURE_GENERATOR_REFS)
            else Ok None
        end
    end.

(** ** The coins of the chain of the block that the coin store does not have *)
Notation Additions := (gmap bytes (Coin * Z * Z)).
Notation Removals := (gset (list Z)).

Definition reorg_body (fork_h : Z) (s : FullBlock.t * gmap Z FullBlock.t) :
    ST Stores (FullBlock.t * gmap Z FullBlock.t + gmap Z FullBlock.t) :=
  let '(curr, reorg_blocks) := s in
  if FullBlock.height curr <=? fork_h then mret (inr reorg_blocks)
  else if FullBlock.height curr =? 0 then mret (inr reorg_blocks)
  else
    o ← on_blocks (get_full_block (FullBlock.prev_header_hash curr));
    curr ← st_res (of_opt AssertionError o);
    mret (inl (curr, <[FullBlock.height curr := curr]> reorg_blocks)).

(** The removals and additions of the transactions of a block of the fork *)
Definition changes_in (curr : FullBlock.t) : ST Stores (list bytes * list Coin) :=
  match FullBlock.transactions_generator curr with
  | Some _ =>
      g ← get_block_generator curr;
      g ← st_res (of_opt AssertionError g);
      ti ← st_res (of_opt AssertionError (FullBlock.transactions_info curr));
      let curr_npc_result := get_name_puzzle_conditions g
        (Z.min (MAX_BLOCK_COST_CLVM constants) (TransactionsInfo.cost ti)) (COST_PER_BYTE constants) false in
      st_res (tx_removals_and_additions (npc_list curr_npc_result))
  | None => mret ([], [])
  end.

Definition add_removal (removals_since_fork : Removals) (c_name : bytes) : res Removals :=
  assert_ (bool_decide (c_name ∉ removals_since_fork)) ;; Ok ({[c_name]} ∪ removals_since_fork).

Definition add_addition (curr : FullBlock.t) (additions_since_fork : Additions) (c : Coin) : res Additions :=
  assert_ (bool_decide (additions_since_fork !! coin_name c = None)) ;;
  ftb ← of_opt AssertionError (FullBlock.foliage_transaction_block curr);
  Ok (<[coin_name c := (c, FullBlock.height curr, FoliageTransactionBlock.timestamp ftb)]> additions_since_fork).

Definition fork_body (fork_h : Z) (reorg_blocks : gmap Z FullBlock.t) (s : FullBlock.t * Additions * Removals) :
    ST Stores (FullBlock.t * Additions * Removals + Additions * Removals) :=
  let '(curr, additions_since_fork, removals_since_fork) := s in
  if FullBlock.height curr <=? fork_h then mret (inr (additions_since_fork, removals_since_fork))
  else
    '(removals_in_curr, additions_in_curr) ← changes_in curr;
    removals_since_fork ← st_res (for_fold add_removal removals_since_fork removals_in_curr);
    additions_since_fork ← st_res (for_fold (add_addition curr) additions_since_fork additions_in_curr);
    rewards ← st_res (FullBlock.get_included_reward_coins curr);
    additions_since_fork ← st_res (for_fold (add_addition curr) additions_since_fork (set_iter rewards));
    if FullBlock.height curr =? 0 then mret (inr (additions_since_fork, removals_since_fork))
    else
      curr ← st_res (of_opt KeyError (reorg_blocks !! (FullBlock.height curr - 1)));
      mret (inl (curr, additions_since_fork, removals_since_fork)).

Definition changes_since_fork (h fork_h : Z) (prev_header_hash : bytes) : ST Stores (Additions * Removals) :=
  if 0 <? h then
    prev_block ← on_blocks (get_full_block prev_header_hash);
    curr ← st_res (of_opt AssertionError prev_block);
    reorg_blocks ← st_loop fuel (reorg_body fork_h) (curr, ∅);
    st_res (assert_ ((fork_h =? -1) || (Z.of_nat (size reorg_blocks) =? h - fork_h - 1))) ;;
    st_loop fuel (fork_body fork_h reorg_blocks) (curr, ∅, ∅)
  else mret (∅, ∅).

Definition fork_height (peak : option BlockRecord) (h : Z) (fork_point_with_peak : option Z)
    (prev_header_hash : bytes) : res Z :=
  match peak with
  | None => Ok (-1)
  | Some peak =>
      if h =? 0 then Ok (-1)
      else match fork_point_with_peak with
        | Some f => Ok f
        | None => p ← block_record blocks prev_header_hash; find_fork_point_in_chain blocks fuel peak p
        end
  end.

(** ** The removed coins (check 15) *)
Definition collect_removal (h ts fork_h : Z) (additions_dic : dict bytes Coin)
    (additions_since_fork : Additions) (removals_since_fork : Removals)
    (removal_coin_records : dict bytes CoinRecord) (rem : bytes) :
    ST Stores (dict bytes CoinRecord + Err.t) :=
  match dget rem additions_dic with
  | Some rem_coin =>
      let new_unspent := {| coin := rem_coin; confirmed_block_index := h; spent_block_index := h; spent := true;
                            coinbase := false; cr_timestamp := ts |} in
      mret (inl (dset (coin_name rem_coin) new_unspent removal_coin_records))
  | None =>
      unspent ← on_coins (get_coin_record rem);
      let in_store := match unspent with
        | Some u => if confirmed_block_index u <=? fork_h then Some u else None
        | None => None
        end in
      let found :=
        match in_store with
        | Some u => if spent u && (spent_block_index u <=? fork_h) then inr Err.DOUBLE_SPEND else inl u
        | None =>
            match additions_since_fork !! rem with
            | None => inr Err.UNKNOWN_UNSPENT
            | Some (new_coin, confirmed_height, confirmed_timestamp) =>
                inl {| coin := new_coin; confirmed_block_index := confirmed_height; spent_block_index := 0;
                       spent := false; coinbase := false; cr_timestamp := confirmed_timestamp |}
            end
        end in
      match found with
      | inr e => mret (inr e)
      | inl r =>
          let removal_coin_records := dset (coin_name (coin r)) r removal_coin_records in
          if bool_decide (rem ∈ removals_since_fork) then mret (inr Err.DOUBLE_SPEND_IN_FORK)
          else mret (inl removal_coin_records)
      end
  end.

(** ** Amounts (checks 10 and 16 to 19) *)
Definition check_addition (additions_dic : dict bytes Coin) (c : Coin) : res (dict bytes Coin + Err.t) :=
  let additions_dic := dset (coin_name c) c additions_dic in
  if amount c <? 0 then Ok (inr Err.COIN_AMOUNT_NEGATIVE)
  else if MAX_COIN_AMOUNT constants <? amount c then Ok (inr Err.COIN_AMOUNT_EXCEEDS_MAXIMUM)
  else Ok (inl additions_dic).

Definition reserve_fee (assert_fee_sum : Z) (cvp : ConditionWithArgs) : res (Z + Err.t) :=
  v ← py_index (vars cvp) 0;
  fee ← int_from_bytes v;
  if fee <? 0 then Ok (inr Err.RESERVE_FEE_CONDITION_FAILED)
  else s ← uint128 (assert_fee_sum + fee); Ok (inl s).

Definition reserve_fees (assert_fee_sum : Z) (npc : NPC) : res (Z + Err.t) :=
  d ← condition_dict npc;
  for_early reserve_fee assert_fee_sum (default [] (dget RESERVE_FEE d)).

Definition total_amount (l : list Coin) : Z := foldl (λ t c, t + amount c) 0 l.

Definition check_fees (h : Z) (ti : TransactionsInfo.t) (npcs : list NPC) (additions : list Coin)
    (records : dict bytes CoinRecord) : res (option Err.t) :=
  let removed := total_amount (coin <$> records.*2) in
  let added := total_amount additions in
  if removed <? added then Ok (Some Err.MINTING_COIN)
  else
    let fees := removed - added in
    r ← for_early reserve_fees 0 npcs;
    match r with
    | inr e => Ok (Some e)
    | inl assert_fee_sum =>
        if fees <? assert_fee_sum then Ok (Some Err.RESERVE_FEE_CONDITION_FAILED)
        else
          b ← calculate_base_farmer_reward h;
          if MAX_COIN_AMOUNT constants <? fees + b then Ok (Some Err.COIN_AMOUNT_EXCEEDS_MAXIMUM)
          else if bool_decide (TransactionsInfo.fees ti ≠ fees) then Ok (Some Err.INVALID_BLOCK_FEE_AMOUNT)
          else Ok None
    end.

(** ** Puzzle hashes and conditions (checks 20 and 21) *)
Definition check_puzzle_hash (removals_puzzle_dic : dict bytes bytes) (_ : unit) (r : CoinRecord) : res (unit + Err.t) :=
  ph ← dindex (coin_name (coin r)) removals_puzzle_dic;
  if bool_decide (puzzle_hash (coin r) ≠ ph) then Ok (inr Err.WRONG_PUZZLE_HASH) else Ok (inl tt).

Definition check_npc (records : dict bytes CoinRecord) (prev_transaction_block_height ts : Z) (_ : unit) (npc : NPC) :
    res (unit + Err.t) :=
  unspent ← dindex (npc_coin_name npc) records;
  d ← condition_dict npc;
  e ← mempool_check_conditions_dict unspent d prev_transaction_block_height ts;
  match e with Some e => Ok (inr e) | None => Ok (inl tt) end.

(** ** Transactions of the block (checks 7 to 9) *)
Definition block_npcs (block : AnyBlock.t) (npc_result : option NPCResult) : res (list NPC * list Coin * Z + Err.t) :=
  match AnyBlock.transactions_generator block with
  | Some g =>
      npc_result ← of_opt AssertionError npc_result;
      cost ← calculate_cost_of_program g npc_result (COST_PER_BYTE constants);
      if MAX_BLOCK_COST_CLVM constants <? cost then Ok (inr Err.BLOCK_COST_EXCEEDS_MAX)
      else match npc_error npc_result with
        | Some code => e ← Err.of_value code; Ok (inr e)
        | None =>
            additions ← additions_for_npc (npc_list npc_result);
            Ok (inl (npc_list npc_result, additions, cost))
        end
  | None => assert_ (bool_decide (npc_result = None)) ;; Ok (inl ([], [], 0))
  end.

(** ** Signature (check 22) *)
Definition check_signature (block : AnyBlock.t) (ti : TransactionsInfo.t) (npcs : list NPC) (validate_signature : bool) :
    ST Stores (option Err.t) :=
  pairs ← st_res (pkm_pairs npcs (AGG_SIG_ME_ADDITIONAL_DATA constants));
  if negb (g2_bool (TransactionsInfo.aggregated_signature ti)) then mret (Some Err.BAD_AGGREGATE_SIGNATURE)
  else if validate_signature then
    valid ← on_pairings (aggregate_verify pairs.*1 pairs.*2 (TransactionsInfo.aggregated_signature ti)
                           (AnyBlock.is_unfinished block));
    if (valid : bool) then mret None else mret (Some Err.BAD_AGGREGATE_SIGNATURE)
  else mret None.

(** ** All checks of a transaction block after check 9 *)
Definition check_coins (peak : option BlockRecord) (block : AnyBlock.t) (h : Z) (fork_point_with_peak : option Z)
    (ftb : FoliageTransactionBlock.t) (ti : TransactionsInfo.t) (prev_tx_height : Z)
    (npcs : list NPC) (additions coinbase_additions : list Coin) (validate_signature : bool) : ST Stores (option Err.t) :=
  let removals := npc_coin_name <$> npcs in
  let removals_puzzle_dic := foldl (λ d npc, dset (npc_coin_name npc) (npc_puzzle_hash npc) d) [] npcs in
  let all_additions := additions ++ coinbase_additions in
  r ← st_res (for_early check_addition [] all_additions);
  match r with
  | inr e => mret (Some e)
  | inl additions_dic =>
  root_error ← st_res (validate_block_merkle_roots (FoliageTransactionBlock.additions_root ftb)
                         (FoliageTransactionBlock.removals_root ftb) all_additions removals);
  match root_error with
  | Some e => mret (Some e)
  | None =>
  let filter_hash := std_hash (bip158_encoded ((puzzle_hash <$> all_additions) ++ removals)) in
  if bool_decide (filter_hash ≠ FoliageTransactionBlock.filter_hash ftb) then mret (Some Err.INVALID_TRANSACTIONS_FILTER_HASH)
  else if negb (bool_decide (NoDup (coin_name <$> all_additions))) then mret (Some Err.DUPLICATE_OUTPUT)
  else if negb (bool_decide (NoDup removals)) then mret (Some Err.DOUBLE_SPEND)
  else
    fork_h ← st_res (fork_height peak h fork_point_with_peak (AnyBlock.prev_header_hash block));
    '(additions_since_fork, removals_since_fork) ← changes_since_fork h fork_h (AnyBlock.prev_header_hash block);
    r ← st_early (collect_removal h (FoliageTransactionBlock.timestamp ftb) fork_h additions_dic
                    additions_since_fork removals_since_fork) [] removals;
    match r with
    | inr e => mret (Some e)
    | inl records =>
        fee_error ← st_res (check_fees h ti npcs additions records);
        match fee_error with
        | Some e => mret (Some e)
        | None =>
            r ← st_res (for_early (check_puzzle_hash removals_puzzle_dic) tt records.*2);
            match r with
            | inr e => mret (Some e)
            | inl _ =>
                r ← st_res (for_early (check_npc records prev_tx_height (FoliageTransactionBlock.timestamp ftb)) tt npcs);
                match r with
                | inr e => mret (Some e)
                | inl _ => check_signature block ti npcs validate_signature
                end
            end
        end
    end
  end
  end.

Definition validate_block_body (peak : option BlockRecord) (block : AnyBlock.t) (h : Z) (npc_result : option NPCResult)
    (fork_point_with_peak : option Z) (validate_signature : bool) : ST Stores (option Err.t * option NPCResult) :=
  st_res (assert_ (match block with AnyBlock.Full b => h =? FullBlock.height b | _ => true end)) ;;
  match Foliage.foliage_transaction_block_hash (AnyBlock.foliage block) with
  | None => e ← st_res (check_no_body block); mret (e, None)
  | Some ftb_hash =>
      match AnyBlock.foliage_transaction_block block, AnyBlock.transactions_info block with
      | Some ftb, Some ti =>
          ti_hash ← st_res (hash_of ti);
          if bool_decide (FoliageTransactionBlock.transactions_info_hash ftb ≠ ti_hash)
          then mret (Some Err.INVALID_TRANSACTIONS_INFO_HASH, None)
          else
          fb_hash ← st_res (hash_of ftb);
          if bool_decide (ftb_hash ≠ fb_hash) then mret (Some Err.INVALID_FOLIAGE_BLOCK_HASH, None)
          else
          '(expected, prev_tx_height) ← st_res (expected_reward_coins h ftb);
          let claims := TransactionsInfo.reward_claims_incorporated ti in
          if negb (same_set claims expected) then mret (Some Err.INVALID_REWARD_COINS, None)
          else if bool_decide (length claims ≠ length expected) then mret (Some Err.INVALID_REWARD_COINS, None)
          else
          let coinbase_additions := set_iter expected in
          root_error ← st_res (check_generator_roots h block ti);
          match root_error with
          | Some e => mret (Some e, None)
          | None =>
              r ← st_res (block_npcs block npc_result);
              match r with
              | inr e => mret (Some e, None)
              | inl (npcs, additions, cost) =>
                  if bool_decide (TransactionsInfo.cost ti ≠ cost) then mret (Some Err.INVALID_BLOCK_COST, None)
                  else
                    e ← check_coins peak block h fork_point_with_peak ftb ti prev_tx_height npcs additions
                          coinbase_additions validate_signature;
                    match e with Some e => mret (Some e, None) | None => mret (None, npc_result) end
              end
          end
      | _, _ => mret (Some Err.IS_TRANSACTION_BLOCK_BUT_NO_DATA, None)
      end
  end.
End Body.
