(* ===== verification/BodySound.v ===== *)
(** * What an accepted block body guarantees

    The theorem of this file: a transaction block whose body [validate_block_body]
    accepts spends only coins that are unspent in the ledger of its parent (or
    created by itself), spends each once, under puzzles with the right hash and
    conditions that hold, and creates no more value than it removes.  The ledger
    of the parent is the specification of [Ledger]: the coin store rolled back to
    the fork, with the blocks of the fork replayed on it. *)
From S2P Require Import Prelude PyInt PyFloat Consensus ChainView Errors Coins CoinStore Sha256 MerkleSet Streamable.
From S2P Require Import BlockTypes BlockStore Generator CachedBls RootValidation Ledger BodyValidation.

Section Sound.
Context `{Packages} `{Sha256} `{StdHash} `{ClvmCasts} `{ClvmRunner} `{Bls} `{SetIter}.
Context (constants : ConsensusConstants) (blocks : BlockchainInterface) (fuel : nat).
Context (get_block_generator : FullBlock.t → ST Stores (option BlockGenerator)).
Context (m : gmap bytes CoinRecord) (bm : gmap bytes (FullBlock.t * BlockRecord)) (pk : option bytes).

(** The stores hold the coins [m] and the blocks [bm]. *)
Definition good (s : Stores) : Prop := implements (st_coins s) m ∧ stores (st_blocks s) bm pk.

(** What the validation relies on of [get_block_generator]: it reads the stores
    only, and the generator of a block does not change between calls. *)
Definition generator_law (gen : FullBlock.t → BlockGenerator) : Prop :=
  ∀ b s o s', good s → get_block_generator b s = (Ok o, s') → good s' ∧ (∀ g, o = Some g → g = gen b).

Context (gen : FullBlock.t → BlockGenerator) (Hgen : generator_law gen) (Hclosed : closed bm).

(** The transactions of a stored block, and its effect on the ledger *)
Definition block_changes (b : FullBlock.t) : res (list bytes * list Coin) :=
  match FullBlock.transactions_generator b with
  | Some _ =>
      ti ← of_opt AssertionError (FullBlock.transactions_info b);
      tx_removals_and_additions (npc_list (get_name_puzzle_conditions (gen b)
        (Z.min (MAX_BLOCK_COST_CLVM constants) (TransactionsInfo.cost ti)) (COST_PER_BYTE constants) false))
  | None => Ok ([], [])
  end.

Definition block_effect (b : FullBlock.t) : option Effect :=
  match block_changes b, FullBlock.get_included_reward_coins b, FullBlock.foliage_transaction_block b with
  | Ok (rems, adds), Ok rewards, Some ftb =>
      Some {| ef_height := FullBlock.height b; ef_timestamp := FoliageTransactionBlock.timestamp ftb;
              ef_rewards := set_iter rewards; ef_additions := adds; ef_removals := rems |}
  | _, _, _ => None
  end.

(** The blocks from [b] down to the one after the fork, newest first *)
Inductive fork_blocks (fork_h : Z) : FullBlock.t → list FullBlock.t → Prop :=
  | fork_end b : FullBlock.height b <= fork_h → fork_blocks fork_h b []
  | fork_zero b : fork_h < FullBlock.height b → FullBlock.height b = 0 → fork_blocks fork_h b [b]
  | fork_step b p r l : fork_h < FullBlock.height b → FullBlock.height b ≠ 0 →
      bm !! FullBlock.prev_header_hash b = Some (p, r) → fork_blocks fork_h p l → fork_blocks fork_h b (b :: l).

(** The same, with the parents found in the map of reorganised blocks *)
Inductive follows (fork_h : Z) (rb : gmap Z FullBlock.t) : FullBlock.t → list FullBlock.t → Prop :=
  | follows_end b : FullBlock.height b <= fork_h → follows fork_h rb b []
  | follows_zero b : fork_h < FullBlock.height b → FullBlock.height b = 0 → follows fork_h rb b [b]
  | follows_step b p r l : fork_h < FullBlock.height b → FullBlock.height b ≠ 0 →
      bm !! FullBlock.prev_header_hash b = Some (p, r) → rb !! (FullBlock.height b - 1) = Some p →
      follows fork_h rb p l → follows fork_h rb b (b :: l).

Lemma follows_fork fork_h rb b l : follows fork_h rb b l → fork_blocks fork_h b l.
Proof. induction 1; econstructor; eauto. Qed.

Definition stored (b : FullBlock.t) : Prop := ∃ hh r, bm !! hh = Some (b, r).

Lemma parent_stored s b p r : good s → stored b → FullBlock.height b ≠ 0 →
  bm !! FullBlock.prev_header_hash b = Some (p, r) → FullBlock.height p = FullBlock.height b - 1.
Proof.
  intros [_ Hs] (hh&rb&Hb) Hh Hp. pose proof (bs_entries _ _ _ Hs _ _ Hb) as [_ _ _ _ Hpr Hhe].
  pose proof (bs_entries _ _ _ Hs _ _ Hp) as [_ _ _ _ _ Hhe']. cbn in *. destruct Hpr as [_ Hpr].
  destruct (Hclosed _ _ _ Hb) as [_ (b'&r'&Hp'&E)]; [lia|]. rewrite <- Hpr, Hp in Hp'. simplify_eq. lia.
Qed.

Lemma on_blocks_good hh s o s' : good s → on_blocks (get_full_block hh) s = (Ok o, s') →
  good s' ∧ o = fst <$> bm !! hh.
Proof.
  intros [Hc Hs] E. unfold on_blocks, st_part in E.
  destruct (get_full_block_ok (st_blocks s) bm pk hh Hs) as (s1&E1&Hs1). rewrite E1 in E. simplify_eq. done.
Qed.

Lemma on_coins_good n s o s' : good s → on_coins (get_coin_record n) s = (Ok o, s') → good s' ∧ o = m !! n.
Proof.
  intros [Hc Hs] E. unfold on_coins, st_part in E.
  destruct (get_coin_record_ok (st_coins s) m n Hc) as (s1&E1&Hs1). rewrite E1 in E. simplify_eq. done.
Qed.

Lemma reorg_body_inv fork_h curr rb s r s' : good s →
  reorg_body fork_h (curr, rb) s = (Ok r, s') →
  (r = inr rb ∧ s' = s ∧ (FullBlock.height curr <= fork_h ∨ (fork_h < FullBlock.height curr ∧ FullBlock.height curr = 0)))
  ∨ (∃ p rc, r = inl (p, <[FullBlock.height p := p]> rb) ∧ bm !! FullBlock.prev_header_hash curr = Some (p, rc)
       ∧ good s' ∧ fork_h < FullBlock.height curr ∧ FullBlock.height curr ≠ 0).
Proof.
  intros Hg E. unfold reorg_body in E. destruct (FullBlock.height curr <=? fork_h) eqn:Eh; zbool.
  { apply st_ret_inv in E as [-> ->]. left. auto. }
  destruct (FullBlock.height curr =? 0) eqn:Ez; zbool.
  { apply st_ret_inv in E as [-> ->]. left. auto. }
  apply st_bind_inv in E as (o&s1&E1&E). destruct (on_blocks_good _ _ _ _ Hg E1) as [Hg1 ->].
  apply st_bind_inv in E as (p&s2&E2&E). apply st_res_inv in E2 as [E2 ->]. apply st_ret_inv in E as [-> ->].
  apply of_opt_Ok, fmap_Some in E2 as ([p' rc]&Hp&->). right. exists p', rc. auto.
Qed.

Lemma reorg_loop fork_h n : ∀ curr rb s rb' s', good s → stored curr →
  st_loop n (reorg_body fork_h) (curr, rb) s = (Ok rb', s') →
  good s' ∧ (∃ l, follows fork_h rb' curr l) ∧ ∀ h, FullBlock.height curr <= h → rb' !! h = rb !! h.
Proof.
  induction n as [|n IH]; intros curr rb s rb' s' Hg Hst E; [done|]. cbn [st_loop] in E.
  apply st_bind_inv in E as (r&s1&E1&E).
  destruct (reorg_body_inv _ _ _ _ _ _ Hg E1) as [(->&->&Hh)|(p&rc&->&Hp&Hg1&Hlt&Hz)].
  - apply st_ret_inv in E as [-> ->]. split_and!; [done| |done].
    destruct Hh as [Hh|[Hh1 Hh2]]; [exists []|exists [curr]]; by constructor.
  - pose proof (parent_stored _ _ _ _ Hg Hst Hz Hp) as Hh.
    destruct (IH _ _ _ _ _ Hg1 ltac:(by eexists _, _) E) as (Hg2&(l&Hl)&Hrb).
    split_and!; [done| |].
    + exists (curr :: l). eapply follows_step; [done|done|done| |done]. rewrite <- Hh, (Hrb (FullBlock.height p)) by lia.
      apply lookup_insert_eq.
    + intros h Hle. rewrite Hrb by lia. apply lookup_insert_ne. lia.
Qed.

(** ** The changes of the fork *)
Notation Additions := (gmap bytes (Coin * Z * Z)).
Notation Removals := (gset (list Z)).

Lemma changes_in_inv b s rems adds s' : good s →
  changes_in constants get_block_generator b s = (Ok (rems, adds), s') → good s' ∧ block_changes b = Ok (rems, adds).
Proof.
  intros Hg E. unfold changes_in in E. unfold block_changes. destruct (FullBlock.transactions_generator b).
  - apply st_bind_inv in E as (o&s1&E1&E). destruct (Hgen _ _ _ _ Hg E1) as [Hg1 Ho].
    apply st_bind_inv in E as (g&s2&E2&E). apply st_res_inv in E2 as [E2 ->]. apply of_opt_Ok in E2. apply Ho in E2 as ->.
    apply st_bind_inv in E as (ti&s3&E3&E). apply st_res_inv in E3 as [E3 ->].
    apply st_res_inv in E as [E ->]. rewrite E3. done.
  - by apply st_ret_inv in E as [[= -> ->] ->].
Qed.

Lemma add_removals_inv (R : Removals) (l : list bytes) (R' : Removals) : for_fold add_removal R l = Ok R' → ∀ n : bytes, n ∈ R' ↔ n ∈ R ∨ n ∈ l.
Proof.
  revert R. induction l as [|x l IH]; intros R E n; cbn in E; [simplify_eq; set_solver|].
  apply bind_Ok in E as (R1&E1&E). unfold add_removal in E1. apply bind_Ok in E1 as (?&_&[= <-]).
  rewrite (IH _ E). set_solver.
Qed.

Lemma add_additions_inv (b : FullBlock.t) (A : Additions) (l : list Coin) (A' : Additions) : for_fold (add_addition b) A l = Ok A' →
  (l = [] ∨ is_Some (FullBlock.foliage_transaction_block b)) ∧
  ∀ n x, A' !! n = Some x → A !! n = Some x
    ∨ ∃ c ftb, c ∈ l ∧ FullBlock.foliage_transaction_block b = Some ftb ∧ n = coin_name c
        ∧ x = (c, FullBlock.height b, FoliageTransactionBlock.timestamp ftb).
Proof.
  revert A. induction l as [|c l IH]; intros A E; cbn in E; [simplify_eq; auto|].
  apply bind_Ok in E as (A1&E1&E). unfold add_addition in E1. apply bind_Ok in E1 as (u&_&E1).
  apply bind_Ok in E1 as (ftb&Hf&[= <-]). apply of_opt_Ok in Hf. destruct (IH _ E) as [_ IH'].
  split; [right; by rewrite Hf|]. intros n x Hx. apply IH' in Hx as [Hx|(c'&ftb'&?&?&?&?)].
  - destruct (decide (n = coin_name c)) as [->|].
    + rewrite lookup_insert_eq in Hx. simplify_eq. right. exists c, ftb. set_solver.
    + rewrite lookup_insert_ne in Hx by done. by left.
  - right. exists c', ftb'. set_solver.
Qed.

(** What the two maps mean with respect to the effects of the blocks visited *)
Definition added_by (l : list FullBlock.t) (n : bytes) (x : Coin * Z * Z) : Prop :=
  ∃ b e, b ∈ l ∧ block_effect b = Some e ∧ x.1.1 ∈ created e ∧ n = coin_name x.1.1
    ∧ x.1.2 = ef_height e ∧ x.2 = ef_timestamp e.

Lemma fork_body_inv (fork_h : Z) (rb : gmap Z FullBlock.t) (curr : FullBlock.t) (A : Additions) (R : Removals) (s : Stores) r s' : good s →
  fork_body constants get_block_generator fork_h rb (curr, A, R) s = (Ok r, s') →
  (r = inr (A, R) ∧ s' = s ∧ FullBlock.height curr <= fork_h)
  ∨ fork_h < FullBlock.height curr ∧ good s' ∧ ∃ (A' : Additions) (R' : Removals),
      (∀ n x, A' !! n = Some x → A !! n = Some x ∨ added_by [curr] n x)
      ∧ (∀ n, n ∈ R → n ∈ R') ∧ (∀ e n, block_effect curr = Some e → n ∈ ef_removals e → n ∈ R')
      ∧ ((FullBlock.height curr = 0 ∧ r = inr (A', R'))
         ∨ (FullBlock.height curr ≠ 0 ∧ ∃ p, rb !! (FullBlock.height curr - 1) = Some p ∧ r = inl (p, A', R'))).
Proof.
  intros Hg E. unfold fork_body in E. destruct (FullBlock.height curr <=? fork_h) eqn:Eh; zbool.
  { apply st_ret_inv in E as [-> ->]. by left. }
  right. apply st_bind_inv in E as ([rems adds]&s1&E1&E). destruct (changes_in_inv _ _ _ _ _ Hg E1) as [Hg1 Hch].
  apply st_bind_inv in E as (R'&s2&E2&E). apply st_res_inv in E2 as [E2 ->].
  apply st_bind_inv in E as (A1&s3&E3&E). apply st_res_inv in E3 as [E3 ->].
  apply st_bind_inv in E as (rewards&s4&E4&E). apply st_res_inv in E4 as [E4 ->].
  apply st_bind_inv in E as (A'&s5&E5&E). apply st_res_inv in E5 as [E5 ->].
  pose proof (add_removals_inv _ _ _ E2) as HR. apply add_additions_inv in E3 as [_ HA1], E5 as [_ HA2].
  assert (Heff : ∀ ftb, FullBlock.foliage_transaction_block curr = Some ftb → block_effect curr = Some
    {| ef_height := FullBlock.height curr; ef_timestamp := FoliageTransactionBlock.timestamp ftb;
       ef_rewards := set_iter rewards; ef_additions := adds; ef_removals := rems |}).
  { intros ftb Hf. unfold block_effect. by rewrite Hch, E4, Hf. }
  split_and!; [lia| |].
  { destruct (FullBlock.height curr =? 0); [by apply st_ret_inv in E as [_ ->]|].
    apply st_bind_inv in E as (p&s6&E6&E). apply st_res_inv in E6 as [_ ->]. by apply st_ret_inv in E as [_ ->]. }
  exists A', R'. split_and!.
  - intros n x Hx. apply HA2 in Hx as [Hx|(c&ftb&Hc&Hf&->&->)]; [apply HA1 in Hx as [Hx|(c&ftb&Hc&Hf&->&->)]|].
    + by left.
    + right. eexists curr, _. split_and!; [set_solver|by apply Heff|apply elem_of_app; by left|done..].
    + right. eexists curr, _. split_and!; [set_solver|by apply Heff|apply elem_of_app; by right|done..].
  - intros n Hn. apply HR. by left.
  - intros e n He Hn. apply HR. right. unfold block_effect in He. rewrite Hch, E4 in He. by case_match; simplify_eq.
  - destruct (FullBlock.height curr =? 0) eqn:Ez; zbool.
    + apply st_ret_inv in E as [-> ->]. by left.
    + right. split; [done|]. apply st_bind_inv in E as (p&s6&E6&E). apply st_res_inv in E6 as [E6 ->].
      apply st_ret_inv in E as [-> ->]. apply of_opt_Ok in E6. eauto.
Qed.

Lemma fork_loop (fork_h : Z) (rb : gmap Z FullBlock.t) n :
  ∀ (curr : FullBlock.t) (l : list FullBlock.t) (A : Additions) (R : Removals) s (A' : Additions) (R' : Removals) s', follows fork_h rb curr l → good s →
  st_loop n (fork_body constants get_block_generator fork_h rb) (curr, A, R) s = (Ok (A', R'), s') →
  good s' ∧ (∀ n x, A' !! n = Some x → A !! n = Some x ∨ added_by l n x)
  ∧ (∀ n, n ∈ R → n ∈ R') ∧ (∀ b e n, b ∈ l → block_effect b = Some e → n ∈ ef_removals e → n ∈ R').
Proof.
  induction n as [|n IH]; intros curr l A R s A' R' s' Hl Hg E; [done|]. cbn [st_loop] in E.
  apply st_bind_inv in E as (r&s1&E1&E).
  destruct (fork_body_inv _ _ _ _ _ _ _ _ Hg E1) as [(->&->&Hle)|(Hlt&Hg1&A1&R1&HA&HR&HR'&Hr)].
  { apply st_ret_inv in E as [[= <- <-] ->]. inversion Hl; subst; try lia. split_and!; [done|auto|auto|]. intros b e k Hb. by apply elem_of_nil in Hb. }
  destruct Hr as [[Hz ->]|(Hz&p&Hp&->)].
  - apply st_ret_inv in E as [[= <- <-] ->]. inversion Hl; subst; try lia.
    split_and!; [done|done|done|]. intros b e k Hb. apply list_elem_of_singleton in Hb as ->. apply HR'.
  - inversion Hl; subst; try lia. simplify_eq.
    destruct (IH _ _ _ _ _ _ _ _ ltac:(done) Hg1 E) as (Hg2&HA2&HR2&HR2').
    split_and!; [done| | |].
    + intros k x Hx. apply HA2 in Hx as [Hx|(b&e&Hb&Hx)]; [apply HA in Hx as [Hx|(b&e&Hb&Hx)]; [by left|]|].
      * apply list_elem_of_singleton in Hb as ->. right. eexists _, e. split; [by left|done].
      * right. exists b, e. split; [by right|done].
    + auto.
    + intros b e k Hb He Hk. apply elem_of_cons in Hb as [->|Hb]; eauto.
Qed.

(** ** The removed coins *)
Section Removed.
Context (h ts fork_h : Z) (additions_dic : dict bytes Coin) (l : list FullBlock.t).
Context (A : gmap bytes (Coin * Z * Z)) (R : gset (list Z)).

(** The ledger of the parent *)
Definition effects : list Effect := omap block_effect (reverse l).
Definition parent_ledger : gmap bytes CoinRecord := replay (abs_rollback fork_h m) effects.

Context (Hfits : replay_fits (abs_rollback fork_h m) effects).
Context (HA : ∀ n x, A !! n = Some x → added_by l n x).
Context (HR : ∀ b e n, b ∈ l → block_effect b = Some e → n ∈ ef_removals e → n ∈ R).

(** [found n r]: [r] is what the checks use for the removed coin [n], a coin created
    by the block itself or an unspent coin of the ledger. *)
Definition found (n : bytes) (r : CoinRecord) : Prop :=
  match dget n additions_dic with
  | Some c => r = {| coin := c; confirmed_block_index := h; spent_block_index := h; spent := true;
                     coinbase := false; cr_timestamp := ts |}
  | None => ∃ r0, parent_ledger !! n = Some r0 ∧ spent r0 = false ∧ coin r0 = coin r
              ∧ confirmed_block_index r0 = confirmed_block_index r ∧ cr_timestamp r0 = cr_timestamp r
  end.

Lemma effects_in e : e ∈ effects ↔ ∃ b, b ∈ l ∧ block_effect b = Some e.
Proof. unfold effects. rewrite list_elem_of_omap. by setoid_rewrite elem_of_reverse. Qed.

Lemma not_removed n : n ∉ R → ∀ e, e ∈ effects → n ∉ ef_removals e.
Proof. intros Hn e (b&Hb&He)%effects_in Hin. eauto. Qed.

Lemma found_in_store n u : m !! n = Some u → confirmed_block_index u <= fork_h →
  spent u && (spent_block_index u <=? fork_h) = false → n ∉ R → dget n additions_dic = None → found n u.
Proof.
  intros Hm Hc Hs Hn Hd. unfold found. rewrite Hd. exists (unspend_after fork_h u).
  split; [apply replay_keeps; [done|by apply not_removed|by apply rollback_keeps]|].
  unfold unspend_after. destruct (fork_h <? spent_block_index u) eqn:Ei; [done|].
  split_and!; [|done..]. destruct (spent u); [|done]. cbn in Hs. zbool. lia.
Qed.

Lemma found_in_fork n c ch ct : A !! n = Some (c, ch, ct) → n ∉ R → dget n additions_dic = None →
  coin_name c = n ∧ found n {| coin := c; confirmed_block_index := ch; spent_block_index := 0; spent := false;
                               coinbase := false; cr_timestamp := ct |}.
Proof.
  intros Hx Hn Hd. apply HA in Hx as (b&e&Hb&He&Hc&Hnc&Hch&Hct); cbn in *. split; [done|]. unfold found. rewrite Hd.
  destruct (replay_creates (abs_rollback fork_h m) effects e c) as [bo E]; [done|apply effects_in; eauto|done| |].
  { rewrite <- Hnc. by apply not_removed. }
  rewrite <- Hnc in E. eexists. split; [exact E|]. by rewrite Hch, Hct.
Qed.

Context (Hdic : ∀ n c, dget n additions_dic = Some c → coin_name c = n).

Lemma collect_removal_inv recs n s recs' s' : good s →
  collect_removal h ts fork_h additions_dic A R recs n s = (Ok (inl recs'), s') →
  good s' ∧ ∃ r, found n r ∧ coin_name (coin r) = n ∧ recs' = dset n r recs.
Proof.
  intros Hg E. unfold collect_removal in E. destruct (dget n additions_dic) as [c|] eqn:Hd.
  { apply st_ret_inv in E as [[= ->] ->]. split; [done|]. eexists. split; [unfold found; by rewrite Hd|].
    cbn. by rewrite (Hdic _ _ Hd). }
  apply st_bind_inv in E as (u&s1&E1&E). destruct (on_coins_good _ _ _ _ Hg E1) as [Hg1 ->].
  assert (Hx : ∀ (o : CoinRecord + Err.t), (∀ r, o = inl r → n ∉ R → found n r ∧ coin_name (coin r) = n) →
    (match o with
     | inr e => mret (inr e)
     | inl r => if bool_decide (n ∈ R) then mret (inr Err.DOUBLE_SPEND_IN_FORK)
                else mret (inl (dset (coin_name (coin r)) r recs)) end : ST Stores _) s1 = (Ok (inl recs'), s') →
    good s' ∧ ∃ r, found n r ∧ coin_name (coin r) = n ∧ recs' = dset n r recs).
  { intros [r|e] Ho E2; [|by apply st_ret_inv in E2 as [? _]].
    destruct (bool_decide (n ∈ R)) eqn:ER; apply st_ret_inv in E2 as [E2 ->]; [done|]. zbool.
    destruct (Ho r eq_refl ER) as [Hf Hn]. injection E2 as ->. split; [done|]. exists r. by rewrite Hn. }
  assert (Hfork : ∀ o, o = match A !! n with
      | None => inr Err.UNKNOWN_UNSPENT
      | Some (c, ch, ct) => inl {| coin := c; confirmed_block_index := ch; spent_block_index := 0; spent := false;
                                   coinbase := false; cr_timestamp := ct |} end →
    ∀ r : CoinRecord, o = inl r → n ∉ R → found n r ∧ coin_name (coin r) = n).
  { intros o -> r Hr HnR. destruct (A !! n) as [[[c ch] ct]|] eqn:HAn; [|done]. injection Hr as <-.
    destruct (found_in_fork _ _ _ _ HAn HnR Hd). by split. }
  destruct (m !! n) as [u|] eqn:Hm; [|by apply Hx in E; [|by eapply Hfork]].
  destruct (confirmed_block_index u <=? fork_h) eqn:Hc; [|by apply Hx in E; [|by eapply Hfork]].
  apply Hx in E; [done|]. intros r. destruct (spent u && _) eqn:Hs; [done|]. intros [= <-] HnR. zbool.
  split; [by apply found_in_store|]. destruct Hg as [[_ Hrec _ _] _]. by destruct (Hrec _ _ Hm) as [-> _].
Qed.

Lemma collect_removals_inv names : ∀ recs s recs' s', good s → NoDup (recs.*1 ++ names) →
  st_early (collect_removal h ts fork_h additions_dic A R) recs names s = (Ok (inl recs'), s') →
  good s' ∧ ∃ rs, recs' = recs ++ zip names rs ∧ Forall2 (λ n r, found n r ∧ coin_name (coin r) = n) names rs.
Proof.
  induction names as [|n names IH]; intros recs s recs' s' Hg Hnd E; cbn [st_early] in E.
  { apply st_ret_inv in E as [[= ->] ->]. split; [done|]. exists []. by rewrite app_nil_r. }
  apply st_bind_inv in E as ([recs1|e]&s1&E1&E); [|by apply st_ret_inv in E as [? _]].
  destruct (collect_removal_inv _ _ _ _ _ Hg E1) as [Hg1 (r&Hf&Hn&->)].
  rewrite dset_fresh in E.
  2:{ apply dget_None. apply NoDup_app in Hnd as (_&Hnd&_). intros Hin. apply (Hnd n Hin). by left. }
  assert (Hnd' : NoDup ((recs ++ [(n, r)]).*1 ++ names)) by (rewrite fmap_app; cbn; by rewrite <- app_assoc).
  destruct (IH _ _ _ _ Hg1 Hnd' E) as [Hg2 (rs&->&HF)].
  split; [done|]. exists (r :: rs). split; [by rewrite <- app_assoc|]. by constructor.
Qed.
End Removed.

(** ** Amounts, puzzle hashes and conditions *)
Lemma check_additions_inv l : ∀ d d', for_early (check_addition constants) d l = Ok (inl d') →
  (∀ n c, dget n d = Some c → coin_name c = n) → (∀ n c, dget n d' = Some c → coin_name c = n ∧ (dget n d = Some c ∨ c ∈ l)).
Proof.
  induction l as [|c l IH]; intros d d' E Hd n x Hx; cbn in E; [simplify_eq; auto|].
  unfold check_addition in E. destruct (amount c <? 0); [done|]. destruct (MAX_COIN_AMOUNT constants <? amount c); [done|].
  destruct (IH _ _ E) with (2 := Hx) as [Hn Hor].
  { intros k y. rewrite dget_dset. case_decide; [by intros [= ->]|apply Hd]. }
  split; [done|]. rewrite dget_dset in Hor. case_decide; [|set_solver]. destruct Hor as [[= ->]|]; set_solver.
Qed.

Lemma check_addition_dict l : ∀ d d', for_early (check_addition constants) d l = Ok (inl d') →
  ∀ n, is_Some (dget n d') ↔ is_Some (dget n d) ∨ n ∈ coin_name <$> l.
Proof.
  induction l as [|c l IH]; intros d d' E n; cbn in E; [simplify_eq; set_solver|].
  unfold check_addition in E. destruct (amount c <? 0); [done|]. destruct (MAX_COIN_AMOUNT constants <? amount c); [done|].
  rewrite (IH _ _ E n), dget_dset. case_decide; set_solver.
Qed.

Lemma check_fees_inv h ti npcs adds recs : check_fees constants h ti npcs adds recs = Ok None →
  total_amount (coin <$> recs.*2) = total_amount adds + TransactionsInfo.fees ti ∧ 0 <= TransactionsInfo.fees ti.
Proof.
  unfold check_fees. intros E. destruct (_ <? total_amount adds) eqn:Ea; [done|].
  apply bind_Ok in E as ([a|e]&_&E); [|done]. destruct (_ <? a); [done|].
  apply bind_Ok in E as (b&_&E). destruct (MAX_COIN_AMOUNT constants <? _); [done|].
  destruct (bool_decide _) eqn:Ef; [done|]. zbool. apply dec_stable in Ef. lia.
Qed.

Lemma check_puzzles_inv dic rs : for_early (check_puzzle_hash dic) tt rs = Ok (inl tt) →
  ∀ r, r ∈ rs → dget (coin_name (coin r)) dic = Some (puzzle_hash (coin r)).
Proof.
  induction rs as [|r rs IH]; intros E r' Hr'; [set_solver|]. cbn [for_early] in E.
  apply bind_Ok in E as ([[]|e]&E1&E); [|done]. unfold check_puzzle_hash in E1.
  apply bind_Ok in E1 as (ph&Hph&E1). apply of_opt_Ok in Hph.
  destruct (bool_decide _) eqn:Ep; [done|]. zbool. apply dec_stable in Ep. subst.
  apply elem_of_cons in Hr' as [->|Hr']; auto.
Qed.

Lemma check_npcs_inv recs ph ts l : for_early (check_npc recs ph ts) tt l = Ok (inl tt) →
  ∀ npc, npc ∈ l → ∃ r d, dget (npc_coin_name npc) recs = Some r ∧ condition_dict npc = Ok d
    ∧ mempool_check_conditions_dict r d ph ts = Ok None.
Proof.
  induction l as [|npc l IH]; intros E x Hx; [set_solver|]. cbn [for_early] in E.
  apply bind_Ok in E as ([[]|e]&E1&E); [|done].
  apply elem_of_cons in Hx as [->|Hx]; [|by apply IH].
  unfold check_npc in E1. apply bind_Ok in E1 as (r&Hr&E1). apply of_opt_Ok in Hr.
  apply bind_Ok in E1 as (d&Hd&E1). apply bind_Ok in E1 as ([e|]&He&E1); [done|]. eauto.
Qed.

(** The conditions depend on where and when the coin was created only. *)
Lemma check_conditions_of r r' d ph ts :
  confirmed_block_index r = confirmed_block_index r' → cr_timestamp r = cr_timestamp r' →
  mempool_check_conditions_dict r d ph ts = mempool_check_conditions_dict r' d ph ts.
Proof.
  intros Ec Et. unfold mempool_check_conditions_dict. induction (concat d.*2) as [|cvp l IH]; [done|]. cbn.
  rewrite IH. f_equal. unfold check_condition, mempool_assert_relative_block_height_exceeds,
    mempool_assert_relative_time_exceeds. by rewrite Ec, Et.
Qed.

Lemma puzzle_dic_get npcs npc : NoDup (npc_coin_name <$> npcs) → npc ∈ npcs →
  dget (npc_coin_name npc) (foldl (λ d npc, dset (npc_coin_name npc) (npc_puzzle_hash npc) d) [] npcs)
  = Some (npc_puzzle_hash npc).
Proof.
  intros Hnd Hin. apply list_elem_of_split in Hin as (l1&l2&->). rewrite foldl_app. cbn [foldl].
  rewrite fmap_app in Hnd. apply NoDup_app in Hnd as (_&_&Hnd). cbn in Hnd. apply NoDup_cons in Hnd as [Hn _].
  assert (E : ∀ d, dget (npc_coin_name npc) (foldl (λ d npc, dset (npc_coin_name npc) (npc_puzzle_hash npc) d) d l2)
    = dget (npc_coin_name npc) d).
  { induction l2 as [|x l2 IH]; intros d; [done|]. cbn in Hn |- *. rewrite IH by set_solver. apply dget_dset_ne. set_solver. }
  by rewrite E, dget_dset_eq.
Qed.

(** ** All coin checks together *)

(** The block at height [h] with timestamp [ts] spends the coin [c] rightly: the
    spend names it and reveals a puzzle with its hash, its conditions hold, and it is
    either created by the block ([own]) or unspent in the ledger of the parent. *)
Definition spends_rightly (ledger : gmap bytes CoinRecord) (own : list Coin) (h ts prev_tx_height : Z)
    (npc : NPC) (c : Coin) : Prop :=
  coin_name c = npc_coin_name npc ∧ puzzle_hash c = npc_puzzle_hash npc ∧
  ∃ r d, coin r = c ∧ condition_dict npc = Ok d ∧ mempool_check_conditions_dict r d prev_tx_height ts = Ok None ∧
    ((c ∈ own ∧ confirmed_block_index r = h ∧ cr_timestamp r = ts)
     ∨ (ledger !! npc_coin_name npc = Some r ∧ spent r = false)).

Definition fork_of (h fork_h : Z) (prev_header_hash : bytes) (l : list FullBlock.t) : Prop :=
  if 0 <? h then ∃ prev rc, bm !! prev_header_hash = Some (prev, rc) ∧ fork_blocks fork_h prev l else l = [].

Lemma changes_since_fork_inv h fork_h prev s A R s' : good s →
  changes_since_fork constants fuel get_block_generator h fork_h prev s = (Ok (A, R), s') →
  good s' ∧ ∃ l, fork_of h fork_h prev l ∧ (∀ n x, A !! n = Some x → added_by l n x)
    ∧ (∀ b e n, b ∈ l → block_effect b = Some e → n ∈ ef_removals e → n ∈ R).
Proof.
  intros Hg E. unfold changes_since_fork in E. unfold fork_of. destruct (0 <? h).
  - apply st_bind_inv in E as (o&s1&E1&E). destruct (on_blocks_good _ _ _ _ Hg E1) as [Hg1 ->].
    apply st_bind_inv in E as (b&s2&E2&E). apply st_res_inv in E2 as [E2 ->].
    apply of_opt_Ok, fmap_Some in E2 as ([b' rc]&Hp&->). cbn [fst] in E.
    apply st_bind_inv in E as (rb&s3&E3&E).
    destruct (reorg_loop _ _ _ _ _ _ _ Hg1 ltac:(by eexists _, _) E3) as (Hg3&(l&Hl)&_).
    apply st_bind_inv in E as (u&s4&E4&E). apply st_res_inv in E4 as [_ ->].
    destruct (fork_loop _ _ _ _ _ _ _ _ _ _ _ Hl Hg3 E) as (Hg4&HA&_&HR).
    split; [done|]. exists l. split_and!; [eexists _, _; split; [done|by eapply follows_fork]| |done].
    intros n x Hx. apply HA in Hx as [Hx|Hx]; [by rewrite lookup_empty in Hx|done].
  - apply st_ret_inv in E as [[= -> ->] ->]. split; [done|]. exists []. split_and!; [done| |].
    + intros n x Hx. by rewrite lookup_empty in Hx.
    + intros b e n Hb. by apply elem_of_nil in Hb.
Qed.

(** The records collected satisfy every check that comes after. *)
Lemma records_spent_rightly h ts fork_h prev_tx dic l npcs own recs rs :
  (∀ n c, dget n dic = Some c → coin_name c = n ∧ c ∈ own) → NoDup (npc_coin_name <$> npcs) →
  recs = zip (npc_coin_name <$> npcs) rs →
  Forall2 (λ n r, found h ts fork_h dic l n r ∧ coin_name (coin r) = n) (npc_coin_name <$> npcs) rs →
  for_early (check_puzzle_hash (foldl (λ d npc, dset (npc_coin_name npc) (npc_puzzle_hash npc) d) [] npcs)) tt recs.*2
    = Ok (inl tt) →
  for_early (check_npc recs prev_tx ts) tt npcs = Ok (inl tt) →
  Forall2 (spends_rightly (parent_ledger fork_h l) own h ts prev_tx) npcs (coin <$> rs).
Proof.
  intros Hdic Hnd -> HF Hpz Hnp. pose proof (check_puzzles_inv _ _ Hpz) as Hpz'. pose proof (check_npcs_inv _ _ _ _ Hnp) as Hnp'.
  pose proof (Forall2_length _ _ _ HF) as Hlen.
  apply Forall2_fmap_r, Forall2_same_length_lookup_2; [by rewrite <- Hlen, length_fmap|].
  intros i npc r Hi Hr.
  assert (Hni : (npc_coin_name <$> npcs) !! i = Some (npc_coin_name npc)) by (by rewrite list_lookup_fmap, Hi).
  pose proof (Forall2_lookup_lr _ _ _ _ _ _ HF Hni Hr) as [Hf Hname].
  assert (Hin : npc ∈ npcs) by by eapply list_elem_of_lookup_2.
  assert (Hinr : r ∈ (zip (npc_coin_name <$> npcs) rs).*2).
  { rewrite snd_zip by lia. by eapply list_elem_of_lookup_2. }
  apply Hpz' in Hinr. rewrite Hname, puzzle_dic_get in Hinr by done. injection Hinr as Hph.
  destruct (Hnp' npc Hin) as (r'&d&Hr'&Hd&Hc).
  assert (r' = r) as ->.
  { assert (Hz : (npc_coin_name npc, r) ∈ zip (npc_coin_name <$> npcs) rs).
    { eapply (list_elem_of_lookup_2 _ i). by rewrite lookup_zip_with, Hni; cbn; rewrite Hr. }
    apply dget_in_wf in Hz; [congruence|]. unfold dict_wf. by rewrite fst_zip by lia. }
  split_and!; [done|done|]. unfold found in Hf. destruct (dget (npc_coin_name npc) dic) as [c|] eqn:Hdg.
  - exists r, d. subst r. cbn. split_and!; [done|done|done|]. left. split_and!; [|done..]. by apply Hdic in Hdg as [_ ?].
  - destruct Hf as (r0&Hl&Hs&Hco&Hcf&Hts). exists r0, d. split_and!; [done|done| |by right].
    by rewrite (check_conditions_of r0 r).
Qed.

Lemma check_coins_inv peak block h fp ftb ti prev_tx npcs adds rewards vs s s' : good s →
  check_coins constants blocks fuel get_block_generator peak block h fp ftb ti prev_tx npcs adds rewards vs s
    = (Ok None, s') →
  ∃ fork_h l, fork_height blocks fuel peak h fp (AnyBlock.prev_header_hash block) = Ok fork_h
    ∧ fork_of h fork_h (AnyBlock.prev_header_hash block) l
    ∧ NoDup (npc_coin_name <$> npcs) ∧ NoDup (coin_name <$> adds ++ rewards)
    ∧ (replay_fits (abs_rollback fork_h m) (effects l) → ∃ coins,
        Forall2 (spends_rightly (parent_ledger fork_h l) (adds ++ rewards) h (FoliageTransactionBlock.timestamp ftb) prev_tx) npcs coins
        ∧ total_amount coins = total_amount adds + TransactionsInfo.fees ti ∧ 0 <= TransactionsInfo.fees ti).
Proof.
  intros Hg E. unfold check_coins in E.
  apply st_bind_inv in E as ([dic|e]&s1&E1&E); [|by apply st_ret_inv in E as [? _]]. apply st_res_inv in E1 as [E1 ->].
  apply st_bind_inv in E as ([e|]&s2&E2&E); [by apply st_ret_inv in E as [? _]|]. apply st_res_inv in E2 as [_ ->].
  destruct (bool_decide _); [by apply st_ret_inv in E as [? _]|].
  destruct (negb (bool_decide (NoDup (coin_name <$> _)))) eqn:Hda; [by apply st_ret_inv in E as [? _]|].
  destruct (negb (bool_decide (NoDup (npc_coin_name <$> _)))) eqn:Hdr; [by apply st_ret_inv in E as [? _]|]. zbool.
  apply st_bind_inv in E as (fork_h&s3&E3&E). apply st_res_inv in E3 as [E3 ->].
  apply st_bind_inv in E as ([A R]&s4&E4&E).
  destruct (changes_since_fork_inv _ _ _ _ _ _ _ Hg E4) as (Hg4&l&Hl&HA&HR).
  exists fork_h, l. split_and!; [done|done|done|done|]. intros Hfits.
  apply st_bind_inv in E as ([recs|e]&s5&E5&E); [|by apply st_ret_inv in E as [? _]].
  assert (Hdic : ∀ n c, dget n dic = Some c → coin_name c = n ∧ c ∈ adds ++ rewards).
  { intros n c Hx. destruct (check_additions_inv _ _ _ E1 ltac:(done) n c Hx) as [? [?|?]]; done. }
  destruct (collect_removals_inv h (FoliageTransactionBlock.timestamp ftb) fork_h dic l A R Hfits HA HR) with (names := npc_coin_name <$> npcs)
    (recs := @nil (bytes * CoinRecord)) (s := s4) (recs' := recs) (s' := s5) as (Hg5&rs&Hrecs&HF);
    [by intros n c Hx; apply Hdic|done|done|exact E5|].
  apply st_bind_inv in E as ([e|]&s6&E6&E); [by apply st_ret_inv in E as [? _]|]. apply st_res_inv in E6 as [E6 ->].
  apply st_bind_inv in E as ([[]|e]&s7&E7&E); [|by apply st_ret_inv in E as [? _]]. apply st_res_inv in E7 as [E7 ->].
  apply st_bind_inv in E as ([[]|e]&s8&E8&E); [|by apply st_ret_inv in E as [? _]]. apply st_res_inv in E8 as [E8 ->].
  cbn [app] in Hrecs. exists (coin <$> rs). split.
  - by eapply records_spent_rightly.
  - apply check_fees_inv in E6. subst recs. rewrite snd_zip in E6; [done|].
    apply Forall2_length in HF. lia.
Qed.

(** ** Reward coins *)
Lemma set_add_nodup c l : NoDup l → NoDup (set_add c l).
Proof. intros. unfold set_add. case_decide; [done|]. apply NoDup_app. set_solver by (apply NoDup_singleton || done). Qed.

Lemma expected_rewards_nodup h ftb l p :
  expected_reward_coins constants blocks fuel h ftb = Ok (l, p) → NoDup l.
Proof.
  unfold expected_reward_coins. intros E. destruct (0 <? h); [|simplify_eq; constructor].
  res_inv; repeat apply set_add_nodup; try constructor.
  eapply (loop_inv (reward_body constants blocks) (λ s, NoDup s.2) NoDup); [| | |done].
  - intros [b l1] s' Hn Hb. unfold reward_body in Hb. res_inv; simplify_eq. cbn. by repeat apply set_add_nodup.
  - intros [b l1] v Hn Hb. unfold reward_body in Hb. res_inv; by simplify_eq.
  - cbn. repeat apply set_add_nodup. constructor.
Qed.

Lemma same_set_perm l l' : same_set l l' = true → length l = length l' → NoDup l' → l ≡ₚ l'.
Proof.
  unfold same_set. intros [H1' H2']%bool_decide_eq_true Hlen Hnd. symmetry. apply submseteq_length_Permutation; [|lia].
  apply NoDup_submseteq; [done|]. intros x Hx. rewrite list.Forall_forall in H2'. by apply H2'.
Qed.
End Sound.

Lemma block_npcs_list `{Packages} `{StdHash} `{ClvmCasts} constants block r npcs adds cost :
  block_npcs constants block r = Ok (inl (npcs, adds, cost)) →
  npcs = default [] (npc_list <$> r) ∧ additions_for_npc npcs = Ok adds.
Proof.
  unfold block_npcs. intros E. destruct (AnyBlock.transactions_generator block).
  - apply bind_Ok in E as (x&Hx&E). apply of_opt_Ok in Hx as ->. apply bind_Ok in E as (c&_&E).
    destruct (_ <? c); [done|]. destruct (npc_error x); [by apply bind_Ok in E as (?&_&?)|].
    apply bind_Ok in E as (l&Hl&E). simplify_eq. done.
  - apply bind_Ok in E as (u&Hu&E). apply assert_Ok in Hu. zbool. by simplify_eq.
Qed.

(** A transaction block whose body is accepted has as additions what its spends create
    and as rewards the coins it claims, without repetition; it spends no coin twice; and, its
    fork being applicable to the coin store rolled back to the fork point, each spend
    is of a coin of its own or of an unspent coin of the ledger of its parent, reveals a
    puzzle of the right hash and meets its conditions there, and the coins spent are worth
    exactly the coins created and the fees. *)
Lemma body_sound `{Packages} `{Sha256} `{StdHash} `{ClvmCasts} `{ClvmRunner} `{Bls} `{SetIter}
    (constants : ConsensusConstants) (blocks : BlockchainInterface) (fuel : nat)
    (get_block_generator : FullBlock.t → ST Stores (option BlockGenerator)) (gen : FullBlock.t → BlockGenerator)
    (m : gmap bytes CoinRecord) (bm : gmap bytes (FullBlock.t * BlockRecord)) (pk : option bytes)
    (peak : option BlockRecord) (block : AnyBlock.t) (h : Z) (npc_result : option NPCResult)
    (fork_point_with_peak : option Z) (validate_signature : bool) (s s' : Stores) (r : option NPCResult) :
  good m bm pk s → closed bm → generator_law get_block_generator m bm pk gen →
  Foliage.foliage_transaction_block_hash (AnyBlock.foliage block) ≠ None →
  validate_block_body constants blocks fuel get_block_generator peak block h npc_result fork_point_with_peak
    validate_signature s = (Ok (None, r), s') →
  let npcs := default [] (npc_list <$> npc_result) in
  ∃ ftb ti adds rewards prev_tx fork_h l,
    AnyBlock.foliage_transaction_block block = Some ftb ∧ AnyBlock.transactions_info block = Some ti
    ∧ additions_for_npc npcs = Ok adds ∧ rewards ≡ₚ TransactionsInfo.reward_claims_incorporated ti
    ∧ NoDup (coin_name <$> adds ++ rewards) ∧ NoDup (npc_coin_name <$> npcs)
    ∧ fork_height blocks fuel peak h fork_point_with_peak (AnyBlock.prev_header_hash block) = Ok fork_h
    ∧ fork_of bm h fork_h (AnyBlock.prev_header_hash block) l
    ∧ (replay_fits (abs_rollback fork_h m) (effects constants gen l) → ∃ coins,
        Forall2 (spends_rightly (parent_ledger constants m gen fork_h l) (adds ++ rewards) h
                   (FoliageTransactionBlock.timestamp ftb) prev_tx) npcs coins
        ∧ total_amount coins = total_amount adds + TransactionsInfo.fees ti ∧ 0 <= TransactionsInfo.fees ti).
Proof.
  intros Hg Hcl Hgen Htx E npcs. unfold validate_block_body in E.
  apply st_bind_inv in E as (u&s1&E1&E). apply st_res_inv in E1 as [_ ->].
  destruct (Foliage.foliage_transaction_block_hash _) as [fh|]; [|done].
  destruct (AnyBlock.foliage_transaction_block block) as [ftb|]; [|by apply st_ret_inv in E as [? _]].
  destruct (AnyBlock.transactions_info block) as [ti|]; [|by apply st_ret_inv in E as [? _]].
  apply st_bind_inv in E as (th&s2&E2&E). apply st_res_inv in E2 as [_ ->].
  destruct (bool_decide (FoliageTransactionBlock.transactions_info_hash ftb ≠ th)); [by apply st_ret_inv in E as [? _]|].
  apply st_bind_inv in E as (bh&s3&E3&E). apply st_res_inv in E3 as [_ ->].
  destruct (bool_decide (fh ≠ bh)); [by apply st_ret_inv in E as [? _]|].
  apply st_bind_inv in E as ([expected ptx]&s4&E4&E). apply st_res_inv in E4 as [E4 ->].
  destruct (negb (same_set _ _)) eqn:Hset; [by apply st_ret_inv in E as [? _]|].
  destruct (bool_decide (length _ ≠ length expected)) eqn:Hlen; [by apply st_ret_inv in E as [? _]|].
  apply st_bind_inv in E as ([e|]&s5&E5&E); [by apply st_ret_inv in E as [? _]|]. apply st_res_inv in E5 as [_ ->].
  apply st_bind_inv in E as ([[[npcs' adds] cost]|e]&s6&E6&E); [|by apply st_ret_inv in E as [? _]].
  apply st_res_inv in E6 as [E6 ->]. apply block_npcs_list in E6 as [-> Hadds].
  destruct (bool_decide (TransactionsInfo.cost ti ≠ cost)); [by apply st_ret_inv in E as [? _]|].
  apply st_bind_inv in E as ([e|]&s7&E7&E); [by apply st_ret_inv in E as [? _]|].
  destruct (check_coins_inv constants blocks fuel get_block_generator m bm pk gen Hgen Hcl _ _ _ _ _ _ _ _ _ _ _ _ _ Hg E7)
    as (fork_h&l&Hf&Hl&Hnd&Hnda&Hcoins).
  zbool. apply dec_stable in Hlen.
  exists ftb, ti, adds, (set_iter expected), ptx, fork_h, l. split_and!; try done.
  rewrite set_iter_perm. symmetry. apply same_set_perm; [done|done|]. by eapply expected_rewards_nodup.
Qed.

(** ** A block of a fork that spends a coin of the fork

    The blocks 8/0 and 8/1 are a fork of the chain; the second one includes two
    reward coins.  The block validated is a child of it and spends the first of these
    coins, worth 60, to create one worth 40. *)
#[export] Program Instance sample_set_iter : SetIter := {| set_iter := λ l, l |}.
Next Obligation. done. Qed.

(** The digests of the merkle sets are evaluated with the toy hash. *)
#[local] Instance toy_sha256 : Sha256 := {| sha256 := std_hash; sha256_length := std_hash_length; sha256_bytes := std_hash_bytes |}.

Definition fork_rewards : list Coin := [sample_coin 21 3 60; sample_coin 22 3 70].
Definition fork_record : BlockRecord :=
  let r := (sample_entry 8 1).2 in {|
    header_hash := sample_id 8 1; prev_hash := sample_id 8 0; height := 1; weight := 14; total_iters := 20000000;
    signage_point_index := 1; challenge_vdf_output := challenge_vdf_output r; infused_challenge_vdf_output := None;
    reward_infusion_new_challenge := replicate 32 1; challenge_block_info_hash := replicate 32 2;
    sub_slot_iters := 2 ^ 27; pool_puzzle_hash := replicate 32 3; farmer_puzzle_hash := replicate 32 4;
    required_iters := 1000; deficit := 0; overflow := false; prev_transaction_block_height := 0;
    timestamp := Some 200; prev_transaction_block_hash := Some (sample_id 8 0); fees := Some 9;
    reward_claims_incorporated := Some fork_rewards; finished_challenge_slot_hashes := None;
    finished_infused_challenge_slot_hashes := None; finished_reward_slot_hashes := None;
    sub_epoch_summary_included := None; farmer_public_key := replicate 48 3 |}.
Definition genesis_record : BlockRecord :=
  let r := (sample_entry 8 0).2 in {|
    header_hash := sample_id 8 0; prev_hash := sample_id 8 (-1); height := 0; weight := 7; total_iters := 10000000;
    signage_point_index := 1; challenge_vdf_output := challenge_vdf_output r; infused_challenge_vdf_output := None;
    reward_infusion_new_challenge := replicate 32 1; challenge_block_info_hash := replicate 32 2;
    sub_slot_iters := 2 ^ 27; pool_puzzle_hash := replicate 32 3; farmer_puzzle_hash := replicate 32 4;
    required_iters := 1000; deficit := 0; overflow := false; prev_transaction_block_height := 0;
    timestamp := Some 100; prev_transaction_block_hash := None; fees := Some 0;
    reward_claims_incorporated := Some []; finished_challenge_slot_hashes := None;
    finished_infused_challenge_slot_hashes := None; finished_reward_slot_hashes := None;
    sub_epoch_summary_included := None; farmer_public_key := replicate 48 3 |}.
Definition fork_full_block : FullBlock.t := sample_full_block 8 1 (sample_id 8 0) (Some fork_rewards).

Definition fork_ops : list bs_op :=
  [AddFullBlock (sample_id 8 0) (sample_full_block 8 0 (sample_id 8 (-1)) (Some [])) genesis_record;
   AddFullBlock (sample_id 8 1) fork_full_block fork_record].
Definition fork_map : gmap bytes (FullBlock.t * BlockRecord) := (abs_bs_ops fork_ops (∅, None)).2.1.
Definition fork_view : BlockchainInterface := BlockCache_interface {|
  bc_block_records := snd <$> fork_map; bc_height_to_hash := ∅ |}.

(** An entry without a summary, checked by evaluation *)
Definition entry_okb (hh : bytes) (b : FullBlock.t) (r : BlockRecord) : bool :=
  validb (code FullBlock.t) (to_val b) && validb (code BlockRecord) (to_val r)
  && bool_decide (is_bytes hh ∧ header_hash r = hh ∧ sub_epoch_summary_included r = None ∧ is_bytes (prev_hash r)
                  ∧ FullBlock.prev_header_hash b = prev_hash r ∧ FullBlock.height b = height r).
Lemma entry_okb_sound hh b r : entry_okb hh b r = true → entry_ok hh (b, r).
Proof.
  intros [[Hb Hr]%andb_prop (?&?&Hse&?&?&?)%bool_decide_eq_true]%andb_prop.
  split; [done|by apply validb_sound|by apply validb_sound|cbn; by rewrite Hse|done|done].
Qed.

Lemma fork_ops_ok : bs_ops_ok fork_ops (∅, None).
Proof. split; [|split; [|done]]; apply entry_okb_sound; vm_compute; reflexivity. Qed.

(** A map of blocks closed under parents, checked by evaluation *)
Definition closedb (bm : gmap bytes (FullBlock.t * BlockRecord)) : bool :=
  bool_decide (map_Forall (λ hh x, (0 <=? height x.2)
    && ((height x.2 =? 0) || match bm !! prev_hash x.2 with
                             | Some y => height y.2 =? height x.2 - 1 | None => false end) = true) bm).
Lemma closedb_sound bm : closedb bm = true → closed bm.
Proof.
  intros Hm%bool_decide_eq_true hh b r Hr. pose proof (Hm _ _ Hr) as Hx. cbn [snd] in Hx. apply andb_prop in Hx as [H1 H2].
  apply Z.leb_le in H1. split; [exact H1|]. intros Hne. rewrite (proj2 (Z.eqb_neq _ _) Hne) in H2. cbn [orb] in H2.
  destruct (bm !! prev_hash r) as [[b' r']|]; [|done]. zbool. eauto.
Qed.
Lemma fork_map_closed : closed fork_map.
Proof. apply closedb_sound. vm_compute. reflexivity. Qed.

Definition fork_program : bytes := 66 :: coin_name (sample_coin 21 3 60) ++ encode_be 32 3 ++ [5; 40].
Definition fork_gen (b : FullBlock.t) : BlockGenerator :=
  {| program := default [] (FullBlock.transactions_generator b); generator_args := [] |}.
Definition fork_npc : NPCResult :=
  get_name_puzzle_conditions {| program := fork_program; generator_args := [] |} (2 ^ 33) 12000 false.
Definition ok_or {A} (d : A) (r : res A) : A := match r with Ok a => a | _ => d end.
Definition is_ok {A} (r : res A) : bool := match r with Ok _ => true | _ => false end.
Lemma is_ok_or {A} (d : A) (r : res A) : is_ok r = true → r = Ok (ok_or d r).
Proof. by destruct r. Qed.

Definition fork_ftb0 : FoliageTransactionBlock.t := {|
  FoliageTransactionBlock.prev_transaction_block_hash := sample_id 8 1; FoliageTransactionBlock.timestamp := 300;
  FoliageTransactionBlock.filter_hash := []; FoliageTransactionBlock.additions_root := [];
  FoliageTransactionBlock.removals_root := []; FoliageTransactionBlock.transactions_info_hash := [] |}.
Definition fork_claims : list Coin :=
  (ok_or ([], 0) (expected_reward_coins DEFAULT_CONSTANTS fork_view 5 2 fork_ftb0)).1.
Definition fork_adds : list Coin := ok_or [] (additions_for_npc (npc_list fork_npc)) ++ fork_claims.
Definition fork_roots : bytes * bytes :=
  ok_or ([], []) (
    t ← for_fold (λ t '(puzzle, coins), t ← add_already_hashed t puzzle; add_already_hashed t (hash_coin_list coins))
          EmptyNode (foldl group_coin [] fork_adds);
    a ← get_root t;
    t ← for_fold add_already_hashed EmptyNode [coin_name (sample_coin 21 3 60)];
    r ← get_root t; Ok (a, r)).
Definition fork_ti : TransactionsInfo.t := {|
  TransactionsInfo.generator_root := std_hash fork_program; TransactionsInfo.generator_refs_root := replicate 32 1;
  TransactionsInfo.aggregated_signature := replicate 96 0; TransactionsInfo.fees := 20;
  TransactionsInfo.cost := 1800000 + 67 * 12000; TransactionsInfo.reward_claims_incorporated := fork_claims |}.
Definition fork_ftb : FoliageTransactionBlock.t := {|
  FoliageTransactionBlock.prev_transaction_block_hash := sample_id 8 1; FoliageTransactionBlock.timestamp := 300;
  FoliageTransactionBlock.filter_hash := std_hash (concat ((puzzle_hash <$> fork_adds) ++ [coin_name (sample_coin 21 3 60)]));
  FoliageTransactionBlock.additions_root := fork_roots.1; FoliageTransactionBlock.removals_root := fork_roots.2;
  FoliageTransactionBlock.transactions_info_hash := ok_or [] (hash_of fork_ti) |}.
Definition child_block : FullBlock.t :=
  let b := sample_full_block 8 2 (sample_id 8 1) None in
  let f := FullBlock.foliage b in {|
    FullBlock.finished_sub_slots := FullBlock.finished_sub_slots b; FullBlock.reward_chain_block := FullBlock.reward_chain_block b;
    FullBlock.challenge_chain_sp_proof := None; FullBlock.challenge_chain_ip_proof := sample_vdf_proof;
    FullBlock.reward_chain_sp_proof := None; FullBlock.reward_chain_ip_proof := sample_vdf_proof;
    FullBlock.infused_challenge_chain_ip_proof := None;
    FullBlock.foliage := {|
      Foliage.prev_block_hash := sample_id 8 1; Foliage.reward_block_hash := Foliage.reward_block_hash f;
      Foliage.foliage_block_data := Foliage.foliage_block_data f;
      Foliage.foliage_block_data_signature := Foliage.foliage_block_data_signature f;
      Foliage.foliage_transaction_block_hash := Some (ok_or [] (hash_of fork_ftb));
      Foliage.foliage_transaction_block_signature := None |};
    FullBlock.foliage_transaction_block := Some fork_ftb; FullBlock.transactions_info := Some fork_ti;
    FullBlock.transactions_generator := Some fork_program; FullBlock.transactions_generator_ref_list := [] |}.

Definition fork_stores : Stores := {|
  st_coins := sample_store; st_blocks := (st_each run_bs_op fork_ops (block_store_create ∅ ∅)).2;
  st_pairings := mk_LRUCache [] 10 |}.
Definition fork_run : res (option Err.t * option NPCResult) * Stores :=
  validate_block_body DEFAULT_CONSTANTS fork_view 5 (λ b, mret (Some (fork_gen b))) (Some (sample_entry 9 1).2)
    (AnyBlock.Full child_block) 2 (Some fork_npc) (Some 0) true fork_stores.

Lemma fork_stores_good : good sample_map fork_map None fork_stores.
Proof.
  split; [apply sample_store_implements|].
  destruct (run_bs_ops_ok fork_ops _ _ _ stores_empty fork_ops_ok) as (s&E&Hs). unfold fork_stores. cbn [st_blocks].
  rewrite E. exact Hs.
Qed.

(** A fork of one block after genesis *)
Lemma fork_of_one (bm : gmap bytes (FullBlock.t * BlockRecord)) prev b1 r1 b0 r0 :
  bm !! prev = Some (b1, r1) → bm !! FullBlock.prev_header_hash b1 = Some (b0, r0) →
  FullBlock.height b1 = 1 → FullBlock.height b0 = 0 → ∀ l, fork_of bm 2 0 prev l → l = [b1].
Proof.
  intros E1 E0 H1 H0 l (p&rc&Hp&Hl). rewrite E1 in Hp. apply Some_inj in Hp. injection Hp as <- <-.
  inversion Hl as [b Hh|b Hh Hz|b p r l' Hh Hz Hp' Hl']; subst; [lia|lia|].
  rewrite E0 in Hp'. apply Some_inj in Hp'. injection Hp' as <- <-.
  inversion Hl' as [b Hh'|b Hh' Hz'|b ? ? ? Hh' Hz' ?]; subst; [done|lia|lia].
Qed.
Definition genesis_full_block : FullBlock.t := sample_full_block 8 0 (sample_id 8 (-1)) (Some []).
Lemma fork_parent : fork_map !! sample_id 8 1 = Some (fork_full_block, fork_record).
Proof. vm_compute. reflexivity. Qed.
Lemma fork_grandparent : fork_map !! FullBlock.prev_header_hash fork_full_block = Some (genesis_full_block, genesis_record).
Proof. vm_compute. reflexivity. Qed.
