(* ===== verification/Chain.v ===== *)
(** * The chain in memory

    Models the part of [chia/consensus/blockchain.py] that works on the dictionaries
    of [Blockchain]: the records of recent blocks with their index by height, the path
    from genesis to the peak, and the sub-epoch summaries on it.

    The theorem of this file is about [clean_block_record]: what it removes from the
    cache, and that the index by height stays exact. *)
From S2P Require Import Prelude PyInt PyFloat Consensus ChainView Difficulty.

(** [_peak_height], [__block_records], [__heights_in_cache], [__height_to_hash] and
    [__sub_epoch_summaries] *)
Record Chain := {
  peak_height : option Z;
  mem_records : gmap bytes BlockRecord;
  heights_in_cache : gmap Z (gset bytes);
  mem_height_to_hash : gmap Z bytes;
  mem_summaries : gmap Z SubEpochSummary;
}.
Definition set_peak_height (p : option Z) (c : Chain) : Chain :=
  {| peak_height := p; mem_records := mem_records c; heights_in_cache := heights_in_cache c;
     mem_height_to_hash := mem_height_to_hash c; mem_summaries := mem_summaries c |}.
Definition set_records (r : gmap bytes BlockRecord) (i : gmap Z (gset bytes)) (c : Chain) : Chain :=
  {| peak_height := peak_height c; mem_records := r; heights_in_cache := i;
     mem_height_to_hash := mem_height_to_hash c; mem_summaries := mem_summaries c |}.
Definition set_path (p : gmap Z bytes) (s : gmap Z SubEpochSummary) (c : Chain) : Chain :=
  {| peak_height := peak_height c; mem_records := mem_records c; heights_in_cache := heights_in_cache c;
     mem_height_to_hash := p; mem_summaries := s |}.

(** ** Lookups *)
Definition chain_block_record (c : Chain) (h : bytes) : res BlockRecord := of_opt KeyError (mem_records c !! h).
Definition chain_contains_block (c : Chain) (h : bytes) : bool := bool_decide (is_Some (mem_records c !! h)).
Definition chain_height_to_hash (c : Chain) (h : Z) : res bytes := of_opt KeyError (mem_height_to_hash c !! h).
Definition chain_contains_height (c : Chain) (h : Z) : bool := bool_decide (is_Some (mem_height_to_hash c !! h)).
Definition chain_height_to_block_record (c : Chain) (h : Z) : res BlockRecord :=
  hh ← chain_height_to_hash c h; chain_block_record c hh.
Definition chain_interface (c : Chain) : BlockchainInterface := {|
  block_record := chain_block_record c;
  contains_block := chain_contains_block c;
  contains_height := chain_contains_height c;
  height_to_hash := λ h, hh ← chain_height_to_hash c h; Ok (Some hh);
  height_to_block_record := chain_height_to_block_record c;
|}.

Definition contains_block_in_peak_chain (c : Chain) (header_hash : bytes) : bool :=
  match mem_records c !! header_hash with
  | None => false
  | Some block => bool_decide (mem_height_to_hash c !! height block = Some header_hash)
  end.
Definition get_peak (c : Chain) : res (option BlockRecord) :=
  match peak_height c with
  | None => Ok None
  | Some h => b ← chain_height_to_block_record c h; Ok (Some b)
  end.
Definition get_ses_heights (c : Chain) : list Z := merge_sort Z.le (map_to_list (mem_summaries c)).*1.
Definition get_ses (c : Chain) (h : Z) : res SubEpochSummary := of_opt KeyError (mem_summaries c !! h).

(** ** The cache of records *)
Definition add_block_record (b : BlockRecord) (c : Chain) : Chain :=
  let i := heights_in_cache c in
  let i := if decide (is_Some (i !! height b)) then i else <[height b := ∅]> i in
  set_records (<[header_hash b := b]> (mem_records c))
    (<[height b := {[header_hash b]} ∪ default ∅ (i !! height b)]> i) c.

Definition remove_block_record (h : bytes) (c : Chain) : res Chain :=
  sbr ← chain_block_record c h;
  s ← of_opt KeyError (heights_in_cache c !! height sbr);
  check (bool_decide (h ∈ s)) KeyError ;;
  Ok (set_records (delete h (mem_records c)) (<[height sbr := s ∖ {[h]}]> (heights_in_cache c)) c).

(** [del self.__block_records[header_hash]] for every hash of a height; the order does
    not matter, a missing hash raises. *)
Definition delete_records (hs : gset bytes) (r : gmap bytes BlockRecord) : res (gmap bytes BlockRecord) :=
  for_fold (λ r h, if decide (is_Some (r !! h)) then Ok (delete h r) else Raise KeyError) r (elements hs).

Definition clean_body (s : Z * Chain) : res (Z * Chain + Chain) :=
  let '(h, c) := s in
  match heights_in_cache c !! h with
  | Some blocks_to_remove =>
      if 0 <=? h then
        r ← delete_records blocks_to_remove (mem_records c);
        let c := set_records r (delete h (heights_in_cache c)) c in
        if h =? 0 then Ok (inr c) else Ok (inl (h - 1, c))
      else Ok (inr c)
  | None => Ok (inr c)
  end.
Definition clean_block_record (h : Z) (c : Chain) : res Chain :=
  if h <? 0 then Ok c else loop (Z.to_nat h + 1) clean_body (h, c).

Definition clean_block_records (constants : ConsensusConstants) (c : Chain) : res Chain :=
  if Z.of_nat (size (mem_records c)) <? BLOCKS_CACHE_SIZE constants then Ok c
  else
    p ← of_opt AssertionError (peak_height c);
    if p - BLOCKS_CACHE_SIZE constants <? 0 then Ok c
    else clean_block_record (p - BLOCKS_CACHE_SIZE constants) c.

(** ** Difficulty *)
Definition chain_next_difficulty (constants : ConsensusConstants) (fuel : nat) (c : Chain) (h : bytes) (new_slot : bool) : res Z :=
  assert_ (chain_contains_block c h) ;;
  curr ← chain_block_record c h;
  if height curr <=? 2 then Ok (DIFFICULTY_STARTING constants)
  else r ← get_next_sub_slot_iters_and_difficulty constants (chain_interface c) fuel new_slot (Some curr); Ok r.2.
Definition get_next_slot_iters (constants : ConsensusConstants) (fuel : nat) (c : Chain) (h : bytes) (new_slot : bool) : res Z :=
  assert_ (chain_contains_block c h) ;;
  curr ← chain_block_record c h;
  if height curr <=? 2 then Ok (SUB_SLOT_ITERS_STARTING constants)
  else r ← get_next_sub_slot_iters_and_difficulty constants (chain_interface c) fuel new_slot (Some curr); Ok r.1.

(** ** [get_recent_reward_challenges] *)

(** The ends of the sub slots before a block, newest first, stopping at genesis *)
Fixpoint slot_challenges_of (sub_slot_iters sub_slot_total_iters : Z) (hashes : list bytes) : res (list (bytes * Z)) :=
  match hashes with
  | [] => Ok []
  | rc :: hashes =>
      if sub_slot_total_iters <? sub_slot_iters then Ok []
      else
        t ← uint128 (sub_slot_total_iters - sub_slot_iters);
        l ← slot_challenges_of sub_slot_iters t hashes;
        Ok ((rc, sub_slot_total_iters) :: l)
  end.
Definition recent_body (constants : ConsensusConstants) (c : Chain) (peak : BlockRecord)
    (s : option BlockRecord * list (bytes * Z)) : res (option BlockRecord * list (bytes * Z) + list (bytes * Z)) :=
  let '(curr, recent_rc) := s in
  match curr with
  | Some curr =>
      if Z.of_nat (length recent_rc) <? 2 * MAX_SUB_SLOT_BLOCKS constants then
        let recent_rc := if bool_decide (curr ≠ peak)
          then recent_rc ++ [(reward_infusion_new_challenge curr, total_iters curr)] else recent_rc in
        recent_rc ←
          (if first_in_sub_slot curr then
             hashes ← of_opt AssertionError (finished_reward_slot_hashes curr);
             t ← ip_sub_slot_total_iters constants curr;
             l ← slot_challenges_of (sub_slot_iters curr) t (rev hashes);
             Ok (recent_rc ++ l)
           else Ok recent_rc);
        prev ← try_block_record (chain_interface c) (prev_hash curr);
        Ok (inl (prev, recent_rc))
      else Ok (inr recent_rc)
  | None => Ok (inr recent_rc)
  end.
Definition get_recent_reward_challenges (constants : ConsensusConstants) (fuel : nat) (c : Chain) : res (list (bytes * Z)) :=
  peak ← get_peak c;
  match peak with
  | None => Ok []
  | Some peak => l ← loop fuel (recent_body constants c peak) (Some peak, []); Ok (rev l)
  end.

(** ** The index by height is exact *)
Definition index_ok (c : Chain) : Prop :=
  ∀ h hh, (∃ s, heights_in_cache c !! h = Some s ∧ hh ∈ s) ↔ ∃ b, mem_records c !! hh = Some b ∧ height b = h.

Lemma add_block_record_index b c : index_ok c →
  (∀ b', mem_records c !! header_hash b = Some b' → height b' = height b) → index_ok (add_block_record b c).
Proof.
  intros Hc Hsame h hh. cbn. set (i := if decide _ then _ else _).
  assert (Hi : ∀ k, i !! k = if decide (k = height b) then Some (default ∅ (heights_in_cache c !! k)) else heights_in_cache c !! k).
  { intros k. unfold i. destruct (decide (is_Some _)) as [[s Hs]|Hn]; case_decide as Hk; subst.
    - by rewrite Hs.
    - done.
    - rewrite lookup_insert_eq. by destruct (heights_in_cache c !! height b) eqn:E; [destruct Hn|].
    - by rewrite lookup_insert_ne. }
  destruct (decide (h = height b)) as [->|Hh].
  - rewrite lookup_insert_eq, Hi, decide_True by done. cbn. destruct (decide (hh = header_hash b)) as [->|Hhh].
    + rewrite lookup_insert_eq. split; [intros _; by exists b|]. intros _. eexists. split; [done|set_solver].
    + rewrite lookup_insert_ne by done. rewrite <- (Hc (height b) hh). split.
      * intros (s&[= <-]&Hin). destruct (heights_in_cache c !! height b) as [s|]; [|set_solver]. exists s. set_solver.
      * intros (s&->&Hin). eexists. split; [done|set_solver].
  - rewrite lookup_insert_ne, Hi, decide_False by done. rewrite (Hc h hh).
    destruct (decide (hh = header_hash b)) as [->|Hhh]; [|by rewrite lookup_insert_ne].
    rewrite lookup_insert_eq. split; [intros (b'&Hb'&<-)|intros (b'&[= <-]&<-)]; [|done].
    by apply Hsame in Hb'.
Qed.

Lemma delete_records_ok (hs : gset bytes) (r : gmap bytes BlockRecord) :
  (∀ h, h ∈ hs → is_Some (r !! h)) → delete_records hs r = Ok (filter (λ kv, kv.1 ∉ hs) r).
Proof.
  unfold delete_records. intros Hr. assert (Hnd : NoDup (elements hs)) by apply NoDup_elements.
  assert (∀ h, h ∈ elements hs → is_Some (r !! h)) as Hr' by (intros h ?; apply Hr; set_solver).
  assert (for_fold (λ r h, if decide (is_Some (r !! h)) then Ok (delete h r) else Raise KeyError) r (elements hs)
          = Ok (foldl (λ r h, delete h r) r (elements hs))) as ->.
  { clear Hr. revert r Hnd Hr'. induction (elements hs) as [|h l IH]; intros r Hnd Hr'; [done|]. cbn.
    apply NoDup_cons in Hnd as [Hh Hnd]. rewrite decide_True by (apply Hr'; set_solver). cbn. apply IH; [done|].
    intros h' Hh'. rewrite lookup_delete_ne by (intros ->; done). apply Hr'. set_solver. }
  f_equal. apply map_eq. intros k.
  assert (∀ l r', foldl (λ r h, delete h r) r' l !! k = if decide (k ∈ l) then None else (r' : gmap bytes BlockRecord) !! k) as ->.
  { induction l as [|h l IH]; intros r'; cbn; [by rewrite decide_False by set_solver|]. rewrite IH.
    destruct (decide (k ∈ l)); [by rewrite decide_True by set_solver|].
    destruct (decide (k = h)) as [->|Hk]; [by rewrite lookup_delete_eq, decide_True by set_solver|].
    rewrite lookup_delete_ne by done. by rewrite decide_False by set_solver. }
  rewrite map_lookup_filter. destruct (r !! k) as [b|]; cbn; [|by case_decide].
  case_decide as Hk; rewrite elem_of_elements in Hk; by case_guard.
Qed.

(** What is left of the records when the heights above [g] up to [h] are cleaned *)
Definition keep_outside (g h : Z) (r : gmap bytes BlockRecord) : gmap bytes BlockRecord :=
  filter (λ kv, height kv.2 <= g ∨ h < height kv.2) r.

Record cleaned (h : Z) (c c' : Chain) (g : Z) : Prop := {
  cln_range : -1 <= g <= h;
  cln_stop : g = -1 ∨ heights_in_cache c !! g = None;
  cln_full : ∀ k, g < k <= h → is_Some (heights_in_cache c !! k);
  cln_records : mem_records c' = keep_outside g h (mem_records c);
  cln_path : peak_height c' = peak_height c ∧ mem_height_to_hash c' = mem_height_to_hash c
             ∧ mem_summaries c' = mem_summaries c;
  cln_index : index_ok c';
}.

Lemma clean_step h c s : index_ok c → heights_in_cache c !! h = Some s →
  let r := filter (λ kv, height kv.2 ≠ h) (mem_records c) in
  delete_records s (mem_records c) = Ok r ∧ index_ok (set_records r (delete h (heights_in_cache c)) c).
Proof.
  intros Hc Hs r.
  assert (Hin : ∀ hh, hh ∈ s ↔ ∃ b, mem_records c !! hh = Some b ∧ height b = h).
  { intros hh. rewrite <- (Hc h hh). naive_solver. }
  split.
  - rewrite delete_records_ok by (intros hh (b&Hb&_)%Hin; by exists b). f_equal. apply map_filter_ext.
    intros hh b Hb. cbn. rewrite Hin. naive_solver.
  - intros k hh. cbn. destruct (decide (k = h)) as [->|Hk].
    + rewrite lookup_delete_eq. split; [by intros (?&?&_)|]. intros (b&Hb&Hh). apply map_lookup_filter_Some in Hb as [_ Hb].
      done.
    + rewrite lookup_delete_ne by done. rewrite (Hc k hh). split; intros (b&Hb&Hh); exists b; (split; [|done]).
      * apply map_lookup_filter_Some. cbn. split; [done|congruence].
      * by apply map_lookup_filter_Some in Hb as [Hb _].
Qed.

Lemma clean_body_gap h c : heights_in_cache c !! h = None → clean_body (h, c) = Ok (inr c).
Proof. intros Hn. unfold clean_body. by rewrite Hn. Qed.

Lemma cleaned_gap h c : 0 <= h → index_ok c → heights_in_cache c !! h = None → cleaned h c c h.
Proof.
  intros Hh Hc Hn. split; [lia|by right|lia| |done|done]. symmetry. apply map_filter_id. intros hh b _. cbn. lia.
Qed.

Lemma clean_body_full h c s : 0 <= h → index_ok c → heights_in_cache c !! h = Some s →
  clean_body (h, c) = let c1 := set_records (filter (λ kv, height kv.2 ≠ h) (mem_records c)) (delete h (heights_in_cache c)) c in
                      Ok (if h =? 0 then inr c1 else inl (h - 1, c1)).
Proof.
  intros Hh Hc Hs. unfold clean_body. rewrite Hs, (proj2 (Z.leb_le _ _)) by lia.
  destruct (clean_step h c s Hc Hs) as [-> _]. cbn. by destruct (h =? 0).
Qed.

Lemma clean_loop n : ∀ c, index_ok c →
  ∃ c' g, loop (S n) clean_body (Z.of_nat n, c) = Ok c' ∧ cleaned (Z.of_nat n) c c' g.
Proof.
  induction n as [|n IH]; intros c Hc.
  - destruct (heights_in_cache c !! Z.of_nat 0) as [s|] eqn:Hs.
    + eexists _, (-1). split.
      { cbn [loop]. rewrite (clean_body_full _ c s) by done. reflexivity. }
      split; cbn; [lia|by left| |apply map_filter_ext; cbn; lia|done|by eapply clean_step].
      intros k Hk. replace k with (Z.of_nat 0) by lia. by exists s.
    + eexists c, 0. cbn [loop]. rewrite clean_body_gap by done. split; [done|]. by apply cleaned_gap.
  - destruct (heights_in_cache c !! Z.of_nat (S n)) as [s|] eqn:Hs.
    + remember (S n) as m. cbn [loop]. subst m. rewrite (clean_body_full _ c s) by (done || lia). cbv zeta.
      rewrite (proj2 (Z.eqb_neq _ _)) by lia. cbn [mbind res_bind]. replace (Z.of_nat (S n) - 1) with (Z.of_nat n) by lia.
      destruct (clean_step _ c s Hc Hs) as [_ Hc1].
      destruct (IH _ Hc1) as (c'&g&El&[H1 H2 H3 H4 H5 H6]). exists c', g. split; [exact El|]. cbn in *. split.
      * lia.
      * destruct H2 as [H2|H2]; [by left|]. right. rewrite lookup_delete_ne in H2 by lia. done.
      * intros k Hk. destruct (decide (k = Z.of_nat (S n))) as [->|Hne]; [by exists s|].
        specialize (H3 k ltac:(lia)). rewrite lookup_delete_ne in H3 by lia. done.
      * rewrite H4. unfold keep_outside. rewrite map_filter_filter. apply map_filter_ext. intros hh b _. cbn. lia.
      * done.
      * done.
    + exists c, (Z.of_nat (S n)). cbn [loop]. rewrite clean_body_gap by done. split; [done|]. apply cleaned_gap; [lia|done|done].
Qed.

(** [clean_block_record] always returns.  It removes the records of the given height
    and of all heights below it down to the first height without an entry in the index
    (none when the heights are contiguous), keeps every other record and the path to
    the peak, and leaves the index exact. *)
Theorem clean_block_record_spec (h : Z) (c : Chain) :
  index_ok c → 0 <= h → ∃ c' g, clean_block_record h c = Ok c' ∧ cleaned h c c' g.
Proof.
  intros Hc Hh. unfold clean_block_record. rewrite (proj2 (Z.ltb_ge _ _)) by lia.
  destruct (clean_loop (Z.to_nat h) c Hc) as (c'&g&El&Hcl). rewrite Z2Nat.id in El, Hcl by lia.
  exists c', g. by rewrite Nat.add_1_r.
Qed.

(** A cache of five blocks, with nothing at height 1 *)
Definition sample_chain : Chain :=
  foldr add_block_record {| peak_height := Some 4; mem_records := ∅; heights_in_cache := ∅; mem_height_to_hash := ∅;
                            mem_summaries := ∅ |}
    ((λ h, sample_block 0 h) <$> [0; 2; 3; 4]).

Lemma clean_block_record_spec_witness :
  ∃ c' g, clean_block_record 3 sample_chain = Ok c' ∧ cleaned 3 sample_chain c' g.
Proof.
  apply clean_block_record_spec; [|lia]. unfold sample_chain. cbn [foldr fmap list_fmap].
  repeat (apply add_block_record_index; [|vm_compute; by intros ? [= <-]]).
  intros h hh. cbn. rewrite !lookup_empty. split; [by intros (?&?&?)|by intros (?&?&?)].
Defined.
