(* ===== verification/Staking.v ===== *)
(** * The difficulty coefficient of a farmer

    Models [get_network_space], [get_peak_network_space], [get_peak_farmer_staking]
    and [get_farmer_difficulty_coeff] of [chia/consensus/blockchain.py]: the difficulty
    a farmer's blocks are held to is multiplied by a coefficient that depends on the
    coins the farmer holds and on the blocks the farmer has made lately.

    The puzzle hash of a public key ([create_puzzlehash_for_pk]) is a CLVM tree hash and
    is a parameter.  The theorem bounds the coefficient. *)
From S2P Require Import Prelude PyInt PyFloat PyDecimal Consensus ChainView Errors Coins CoinStore Streamable.
From S2P Require Import BlockTypes BlockStore Chain.
From Stdlib Require Import QArith Lqa.
#[local] Open Scope Z_scope.

(** [0.762] of [pos_quality.py], as Python reads it *)
Definition UI_ACTUAL_SPACE_CONSTANT_FACTOR : float := SpecFloat.S754_finite false 6863485832112636 (-53).

Section Staking.
Context `{Packages} `{StdHash} `{ClvmCasts} (constants : ConsensusConstants) (fuel : nat).
Context (create_puzzlehash_for_pk : bytes → bytes).

Definition get_network_space (blocks : BlockStore.BlockStore) (newer older : bytes) : res Z :=
  newer_block ← get_block_record newer blocks;
  newer_block ← of_opt ValueError newer_block;
  older_block ← get_block_record older blocks;
  older_block ← of_opt ValueError older_block;
  weight_div_iters ← int_truediv (weight newer_block - weight older_block)
                       (total_iters newer_block - total_iters older_block);
  constant_factor ← float_of_int (DIFFICULTY_CONSTANT_FACTOR constants);
  multiplier ← float_of_int (2 ^ NUMBER_ZERO_BITS_PLOT_FILTER constants);
  let estimate := float_mul (float_mul (float_mul UI_ACTUAL_SPACE_CONSTANT_FACTOR weight_div_iters) constant_factor)
                    multiplier in
  n ← int_of_float estimate;
  uint128 n.

Definition get_peak_network_space (c : Chain) (blocks : BlockStore.BlockStore) (block_range : Z)
    (peak : option BlockRecord) : res Z :=
  match peak with
  | Some peak =>
      if 1 <? height peak then
        h ← uint32 (Z.max 1 (height peak - block_range));
        older_header_hash ← chain_height_to_hash c h;
        get_network_space blocks (header_hash peak) older_header_hash
      else uint128 0
  | None => uint128 0
  end.

(** [sum(coin.coin.amount for coin in coins)] *)
Definition get_peak_farmer_staking (coins : CoinStore) (farmer_public_key : bytes) (peak : option BlockRecord) : res Z :=
  l ← get_unspent_coins_before_height (create_puzzlehash_for_pk farmer_public_key)
        (match peak with Some b => height b | None => 0 end) coins;
  Ok (foldl (λ t r, t + amount (coin r)) 0 l).

(** [while not self.contains_height(peak_height) and peak_height > 0] *)
Fixpoint lower_height (fuel : nat) (c : Chain) (h : Z) : Z :=
  match fuel with
  | O => h
  | S fuel => if negb (chain_contains_height c h) && (0 <? h) then lower_height fuel c (h - 1) else h
  end.

(** The blocks of the farmer above [begin_height] *)
Definition count_farmer_body (c : Chain) (farmer_public_key : bytes) (begin_height : Z) (s : option BlockRecord * Z) :
    res (option BlockRecord * Z + Z) :=
  let '(curr, blocks) := s in
  match curr with
  | Some b =>
      if begin_height <? height b then
        let blocks := if bool_decide (Consensus.farmer_public_key b = farmer_public_key) then blocks + 1 else blocks in
        p ← try_block_record (chain_interface c) (prev_hash b);
        Ok (inl (p, blocks))
      else Ok (inr blocks)
  | None => Ok (inr blocks)
  end.

(** [Decimal("0.5") + Decimal(1) / (Decimal(staking) / space + 1)] and
    [Decimal("0.05") + Decimal(1) / (Decimal(staking) / space + Decimal("0.05"))] *)
Definition dec_half : decimal := {| dcoef := 5; dexp := -1 |}.
Definition dec_twentieth : decimal := {| dcoef := 5; dexp := -2 |}.
Definition staked_coeff (staking space : Z) : res decimal :=
  ratio ← dec_div (dec_of_int staking) (dec_of_int space);
  if space <=? staking then
    q ← dec_div (dec_of_int 1) (dec_add ratio (dec_of_int 1));
    Ok (dec_add dec_half q)
  else
    q ← dec_div (dec_of_int 1) (dec_add ratio dec_twentieth);
    Ok (dec_add dec_twentieth q).

(** The coefficient from the network space, the stake and the number of blocks *)
Definition coeff_of (network_space staking blocks block_range : Z) : res decimal :=
  minimal_staking ← dec_div (dec_of_int network_space) (dec_of_int (block_range * 100));
  if (dcoef minimal_staking =? 0) || int_lt_dec staking minimal_staking then Ok (dec_of_int 20)
  else if blocks =? 0 then Ok (dec_of_int 1)
  else
    f ← int_truediv (network_space * blocks) block_range;
    n ← int_of_float f;
    space ← uint128 n;
    if space =? 0 then Ok (dec_of_int 1) else staked_coeff staking space.

Definition get_farmer_difficulty_coeff (c : Chain) (coins : CoinStore) (block_store : BlockStore.BlockStore)
    (farmer_public_key : bytes) (h blocks : option Z) : res decimal :=
  let block_range := STAKING_ESTIMATE_BLOCK_RANGE constants in
  let peak_height := match h with None => peak_height c | Some h => Some h end in
  if bool_decide (peak_height = Some 0) then Ok (dec_of_int 20)
  else
    peak ← match peak_height with
           | None => Ok None
           | Some h =>
               header_hash ← chain_height_to_hash c (lower_height (Z.to_nat h) c h);
               get_block_record header_hash block_store
           end;
    blocks ← match blocks with
             | Some n => Ok n
             | None =>
                 let begin_height := Z.max ((match peak with Some b => height b | None => 0 end) - block_range) 1 in
                 loop fuel (count_farmer_body c farmer_public_key begin_height) (peak, 0)
             end;
    network_space ← get_peak_network_space c block_store block_range peak;
    staking ← get_peak_farmer_staking coins farmer_public_key peak;
    coeff_of network_space staking blocks block_range.
End Staking.

(** ** Bounds *)
#[local] Open Scope Q_scope.

Lemma short_by k j q : (k <? 10 ^ dprec)%Z = true → q == inject_Z k * p10 j → short q.
Proof. intros Hk Hq. exists k, j. by zbool. Qed.

Lemma dval_int z : dval (dec_of_int z) == inject_Z z.
Proof. unfold dval, dec_of_int. cbn [dcoef dexp]. change (p10 0) with 1. ring. Qed.

Lemma dval_coef_pos d : 0 < dval d → (0 < dcoef d)%Z.
Proof.
  intros Hd. destruct (Z.lt_ge_cases 0 (dcoef d)) as [|Hle]; [done|]. exfalso.
  apply inject_le in Hle. pose proof (p10_pos (dexp d)) as Hp. unfold dval in Hd.
  assert (inject_Z (dcoef d) * p10 (dexp d) <= inject_Z 0 * p10 (dexp d)) as Hx
    by (apply Qmult_le_compat_r; [done|by apply Qlt_le_weak]).
  change (inject_Z 0) with 0 in Hx. rewrite Qmult_0_l in Hx. lra.
Qed.

(** The coefficient of a farmer with a stake is at least one half, at most one when
    the stake covers the farmer's estimated space, and between one and 20.05
    otherwise. *)
Lemma staked_coeff_ok staking space : (0 <= staking)%Z → (0 < space)%Z →
  ∃ d, staked_coeff staking space = Ok d
    ∧ (if (space <=? staking)%Z then (1 # 2) <= dval d <= 1 else 1 <= dval d <= 2005 # 100).
Proof.
  intros Hst Hsp. unfold staked_coeff.
  destruct (dec_div_bounds (dec_of_int staking) (dec_of_int space)) as (r&->&Hr&Hrb); [done|done|]. cbn [mbind res_bind].
  pose proof (dval_nonneg r Hr) as Hr0. destruct (space <=? staking)%Z eqn:E; zbool.
  - assert (1 <= dval r) as Hr1.
    { apply (Hrb 1); [by apply (short_by 1 0)|]. rewrite !dval_int, Qmult_1_l. by apply inject_le. }
    assert (2 <= dval (dec_add r (dec_of_int 1))) as Hx.
    { apply dec_add_bounds; [done|done|by apply (short_by 2 0)|]. rewrite dval_int. change (inject_Z 1) with 1. lra. }
    destruct (dec_div_bounds (dec_of_int 1) (dec_add r (dec_of_int 1))) as (q&->&Hq&Hqb); [done|apply dval_coef_pos; lra|].
    cbn [mbind res_bind]. pose proof (dval_nonneg q Hq) as Hq0.
    assert (dval q <= 1 # 2) as Hq1.
    { apply (Hqb (1 # 2)); [by apply (short_by 5 (-1))|]. rewrite dval_int. change (inject_Z 1) with 1. lra. }
    eexists. split; [done|].
    assert (dval dec_half == 1 # 2) as Hh by reflexivity. split.
    + apply dec_add_bounds; [done|done|by apply (short_by 5 (-1))|]. rewrite Hh. lra.
    + apply dec_add_bounds; [done|done|by apply (short_by 1 0)|]. rewrite Hh. lra.
  - assert (dval r <= 1) as Hr1.
    { apply (Hrb 1); [by apply (short_by 1 0)|]. rewrite !dval_int, Qmult_1_l. apply inject_le. lia. }
    assert (dval dec_twentieth == 5 # 100) as Hh by reflexivity.
    assert ((5 # 100) <= dval (dec_add r dec_twentieth) <= 105 # 100) as [Hx1 Hx2].
    { split; (apply dec_add_bounds; [done|done| |rewrite Hh; lra]); [by apply (short_by 5 (-2))|by apply (short_by 105 (-2))]. }
    destruct (dec_div_bounds (dec_of_int 1) (dec_add r dec_twentieth)) as (q&->&Hq&Hqb); [done|apply dval_coef_pos; lra|].
    cbn [mbind res_bind]. assert ((95 # 100) <= dval q <= 20) as [Hq1 Hq2].
    { split; [apply (Hqb (95 # 100)); [by apply (short_by 95 (-2))|]|apply (Hqb 20); [by apply (short_by 20 0)|]];
        rewrite dval_int; change (inject_Z 1) with 1; lra. }
    eexists. split; [done|]. split.
    + apply dec_add_bounds; [done|done|by apply (short_by 1 0)|]. rewrite Hh. lra.
    + apply dec_add_bounds; [done|done|by apply (short_by 2005 (-2))|]. rewrite Hh. lra.
Qed.

Section CoeffBounds.
Context `{Packages} `{StdHash} `{ClvmCasts} (constants : ConsensusConstants) (fuel : nat).
Context (create_puzzlehash_for_pk : bytes → bytes).

Lemma int_of_dec_bounds z lo hi : (lo <= z <= hi)%Z → inject_Z lo <= dval (dec_of_int z) <= inject_Z hi.
Proof. intros [Hlo Hhi]. rewrite dval_int. by split; apply inject_le. Qed.

Lemma coeff_of_bounds network_space staking blocks block_range d :
  (0 <= staking)%Z → coeff_of network_space staking blocks block_range = Ok d → (1 # 2) <= dval d <= 2005 # 100.
Proof.
  intros Hst E. unfold coeff_of in E. apply bind_Ok in E as (ms&_&E).
  assert (∀ z, (1 <= z <= 20)%Z → (1 # 2) <= dval (dec_of_int z) <= 2005 # 100) as Hz.
  { intros z Hz. apply int_of_dec_bounds in Hz as [Hz1 Hz2]. change (inject_Z 1) with 1 in Hz1.
    change (inject_Z 20) with 20 in Hz2. split; lra. }
  destruct (_ || _) in E; [injection E as <-; by apply Hz|]. destruct (_ =? _)%Z in E; [injection E as <-; by apply Hz|].
  apply bind_Ok in E as (f&_&E). apply bind_Ok in E as (n&_&E). apply bind_Ok in E as (space&Es&E).
  apply uint128_Ok in Es as [-> Hsp]. destruct (n =? 0)%Z eqn:En in E; [injection E as <-; by apply Hz|]. zbool.
  destruct (staked_coeff_ok staking n Hst ltac:(lia)) as (d'&Ed&Hb). assert (d' = d) as -> by congruence.
  destruct (n <=? staking)%Z; destruct Hb; split; lra.
Qed.

Lemma staking_nonneg coins pk peak n :
  get_peak_farmer_staking create_puzzlehash_for_pk coins pk peak = Ok n → (0 <= n)%Z.
Proof.
  unfold get_peak_farmer_staking. intros E. apply bind_Ok in E as (l&El&E). injection E as <-.
  assert (Forall (λ r, (0 <= amount (coin r))%Z) l) as Hl.
  { unfold get_unspent_coins_before_height, record_set_where, records_where in El.
    apply bind_Ok in El as (l'&El'&El). injection El as <-. apply for_each_Ok in El'.
    apply list.Forall_forall. intros r Hr. rewrite elem_of_remove_dups in Hr.
    apply list_elem_of_lookup in Hr as (i&Hi). destruct (Forall2_lookup_r _ _ _ _ _ El' Hi) as (row&_&Er).
    unfold row_to_record, row_to_coin, make_coin in Er. res_inv. cbn.
    match goal with E : uint64 _ = Ok _ |- _ => apply uint64_Ok in E as [-> ?] end. lia. }
  assert (∀ t, (0 <= t)%Z → (0 <= foldl (λ t r, t + amount (coin r)) t l)%Z) as Hf; [|by apply Hf].
  clear El. induction Hl as [|r l Hr Hl IH]; intros t Ht; cbn; [done|]. apply IH. lia.
Qed.
End CoeffBounds.

(** C25. The coefficient of a farmer is always between one half and 20.05: no stake brings
    the difficulty below half the one of the network, and a farmer without the minimal
    stake is held to at most about twenty times that difficulty. *)
Theorem difficulty_coeff_bounds `{Packages} `{StdHash} `{ClvmCasts} (constants : ConsensusConstants) (fuel : nat)
    (create_puzzlehash_for_pk : bytes → bytes) (c : Chain) (coins : CoinStore) (block_store : BlockStore.BlockStore)
    (farmer_public_key : bytes) (h blocks : option Z) (d : decimal) :
  get_farmer_difficulty_coeff constants fuel create_puzzlehash_for_pk c coins block_store farmer_public_key h blocks = Ok d →
  (1 # 2) <= dval d <= 2005 # 100.
Proof.
  unfold get_farmer_difficulty_coeff. intros E. destruct (bool_decide _) in E.
  { injection E as <-. rewrite dval_int. change (inject_Z 20) with 20. split; lra. }
  apply bind_Ok in E as (peak&_&E). apply bind_Ok in E as (n&_&E). apply bind_Ok in E as (space&_&E).
  apply bind_Ok in E as (st&Est&E). apply staking_nonneg in Est. by apply coeff_of_bounds in E.
Qed.

(** Values computed with Python's [decimal]: a farmer without the minimal stake, one
    without recent blocks, a stake below the estimated space and one above it *)
#[local] Open Scope Z_scope.
Example coeff_samples :
  coeff_of 1000000000000000 0 1 13824 = Ok (dec_of_int 20)
  ∧ coeff_of 1000000000000000 1000000000 0 13824 = Ok (dec_of_int 1)
  ∧ coeff_of 1000000000000000 1000000000 1 13824 = Ok {| dcoef := 1571808723986457569044331069; dexp := -26 |}
  ∧ coeff_of 1000000000000000 500000000000 1 13824 = Ok {| dcoef := 6263902932240104281576590024; dexp := -28 |}.
Proof. vm_compute. split_and!; reflexivity. Qed.

(** A chain of one block above genesis, whose farmer has no coins *)
Lemma difficulty_coeff_bounds_witness :
  ∃ d, get_farmer_difficulty_coeff DEFAULT_CONSTANTS 3 (λ pk, pk)
         {| peak_height := Some 1; mem_records := ∅; heights_in_cache := ∅;
            mem_height_to_hash := <[1 := [1]]> ∅; mem_summaries := ∅ |}
         (coin_store_create ∅ 10) (block_store_create ∅ ∅) (replicate 48 3) None None = Ok d
    ∧ ((1 # 2) <= dval d <= 2005 # 100)%Q.
Proof.
  eexists. split; [vm_compute; reflexivity|].
  apply (difficulty_coeff_bounds DEFAULT_CONSTANTS 3 (λ pk, pk)
         {| peak_height := Some 1; mem_records := ∅; heights_in_cache := ∅;
            mem_height_to_hash := <[1 := [1]]> ∅; mem_summaries := ∅ |}
         (coin_store_create ∅ 10) (block_store_create ∅ ∅) (replicate 48 3) None None). vm_compute. reflexivity.
Defined.
