(* ===== verification/Blockchain.v ===== *)
(** * Receiving blocks

    Models the methods of [Blockchain] of [chia/consensus/blockchain.py] that read and
    write the stores: [get_block_generator], [get_tx_removals_and_additions],
    [get_hint_list], [_reconsider_peak], [receive_block], [validate_unfinished_block],
    [_load_chain_from_store], [warmup] and the queries of header blocks and records.

    The state is the chain in memory ([Chain]), the coin and block stores with the
    cache of pairings ([Stores]), the hints and the set of compact proofs seen.  A
    database transaction that is rolled back restores the tables, not the caches of
    the stores.  The packages are the parameters of the files this one builds on. *)
From S2P Require Import Prelude PyInt PyFloat PyDecimal Consensus ChainView Difficulty Errors Coins CoinStore Sha256.
From S2P Require Import MerkleSet Streamable BlockTypes BlockToRecord BlockStore HeaderValidation Generator CachedBls.
From S2P Require Import RootValidation BodyValidation Chain Staking.

Section Blockchain.
Context `{Packages} `{Sha256} `{StdHash} `{ClvmCasts} `{ClvmRunner} `{Bls} `{SetIter} `{VDF : Vdf} `{PlotTools}.
Context (constants : ConsensusConstants) (fuel : nat) (create_puzzlehash_for_pk : bytes → bytes) (time_time : float).

Record Blockchain := {
  bc_chain : Chain;
  bc_stores : Stores;
  bc_hints : HintStore;
  bc_seen_proofs : list (VDFInfo.t * Z);
}.
Definition set_chain (c : Chain) (s : Blockchain) : Blockchain :=
  {| bc_chain := c; bc_stores := bc_stores s; bc_hints := bc_hints s; bc_seen_proofs := bc_seen_proofs s |}.
Definition set_stores (st : Stores) (s : Blockchain) : Blockchain :=
  {| bc_chain := bc_chain s; bc_stores := st; bc_hints := bc_hints s; bc_seen_proofs := bc_seen_proofs s |}.
Definition set_hints (hs : HintStore) (s : Blockchain) : Blockchain :=
  {| bc_chain := bc_chain s; bc_stores := bc_stores s; bc_hints := hs; bc_seen_proofs := bc_seen_proofs s |}.
Definition set_seen (l : list (VDFInfo.t * Z)) (s : Blockchain) : Blockchain :=
  {| bc_chain := bc_chain s; bc_stores := bc_stores s; bc_hints := bc_hints s; bc_seen_proofs := l |}.

Definition on_stores {A} : ST Stores A → ST Blockchain A := st_part bc_stores set_stores.
Definition chain_modify (f : Chain → Chain) : ST Blockchain unit := st_modify (λ s, set_chain (f (bc_chain s)) s).
Definition chain_read {A} (f : Chain → res A) : ST Blockchain A := λ s, (f (bc_chain s), s).

(** ** [get_block_generator] *)
Definition generator_arg (ref_block : FullBlock.t) : res GeneratorArg :=
  g ← of_opt ValueError (FullBlock.transactions_generator ref_block);
  Ok {| ga_block_height := FullBlock.height ref_block; ga_generator := g |}.

(** The blocks of [additional_blocks] before [block], by height *)
Definition additional_body (additional_blocks : gmap bytes FullBlock.t) (s : AnyBlock.t * gmap Z FullBlock.t) :
    res (AnyBlock.t * gmap Z FullBlock.t + AnyBlock.t * gmap Z FullBlock.t) :=
  let '(curr, chain) := s in
  match additional_blocks !! AnyBlock.prev_header_hash curr with
  | Some prev =>
      match curr with
      | AnyBlock.Full b => assert_ (FullBlock.height b =? FullBlock.height prev + 1)
      | AnyBlock.Unfinished _ => Ok tt
      end ;;
      Ok (inl (AnyBlock.Full prev, <[FullBlock.height prev := prev]> chain))
  | None => Ok (inr (curr, chain))
  end.

(** [while curr_2.height > fork and curr_2.height > 0] *)
Definition to_fork_body (fork : Z) (s : FullBlock.t * gmap Z FullBlock.t) :
    ST Stores (FullBlock.t * gmap Z FullBlock.t + gmap Z FullBlock.t) :=
  let '(curr_2, reorg_chain) := s in
  if (fork <? FullBlock.height curr_2) && (0 <? FullBlock.height curr_2) then
    o ← on_blocks (get_full_block (FullBlock.prev_header_hash curr_2));
    b ← st_res (of_opt AssertionError o);
    mret (inl (b, <[FullBlock.height b := b]> reorg_chain))
  else mret (inr reorg_chain).

Definition reorg_chain_of (c : Chain) (curr : AnyBlock.t) (reorg_chain : gmap Z FullBlock.t) : ST Stores (gmap Z FullBlock.t) :=
  peak ← st_res (get_peak c);
  match peak with
  | Some peak =>
      if chain_contains_block c (AnyBlock.prev_header_hash curr) then
        prev_block_record ← (λ s, (get_block_record (AnyBlock.prev_header_hash curr) (st_blocks s), s));
        prev_block ← on_blocks (get_full_block (AnyBlock.prev_header_hash curr));
        prev_block ← st_res (of_opt AssertionError prev_block);
        prev_block_record ← st_res (of_opt AssertionError prev_block_record);
        fork ← st_res (find_fork_point_in_chain (chain_interface c) fuel peak prev_block_record);
        st_loop fuel (to_fork_body fork) (prev_block, <[FullBlock.height prev_block := prev_block]> reorg_chain)
      else mret reorg_chain
  | None => mret reorg_chain
  end.

Definition ref_from_path (c : Chain) (ref_height : Z) : ST Stores GeneratorArg :=
  header_hash ← st_res (chain_height_to_hash c ref_height);
  ref_block ← on_blocks (get_full_block header_hash);
  ref_block ← st_res (of_opt AssertionError ref_block);
  st_res (generator_arg ref_block).

Definition ref_from_reorg (c : Chain) (reorg_chain : gmap Z FullBlock.t) (ref_height : Z) : ST Stores GeneratorArg :=
  match reorg_chain !! ref_height with
  | Some ref_block => st_res (generator_arg ref_block)
  | None => ref_from_path c ref_height
  end.

Definition get_block_generator (c : Chain) (additional_blocks : gmap bytes FullBlock.t) (block : AnyBlock.t) :
    ST Stores (option BlockGenerator) :=
  let ref_list := AnyBlock.transactions_generator_ref_list block in
  match AnyBlock.transactions_generator block with
  | None => st_res (assert_ (bool_decide (ref_list = []))) ;; mret None
  | Some generator =>
      if bool_decide (ref_list = []) then mret (Some {| program := generator; generator_args := [] |})
      else
        let previous_block_hash := AnyBlock.prev_header_hash block in
        in_path ← st_res
          (if chain_contains_block c previous_block_hash then
             b ← chain_block_record c previous_block_hash;
             h ← chain_height_to_hash c (height b);
             Ok (bool_decide (h = previous_block_hash))
           else Ok false);
        result ←
          (if (in_path : bool) then st_each (ref_from_path c) ref_list
           else
             '(curr, additional) ← st_res (loop fuel (additional_body additional_blocks) (block, ∅));
             reorg_chain ← reorg_chain_of c curr additional;
             st_each (ref_from_reorg c reorg_chain) ref_list);
        st_res (assert_ (bool_decide (length result = length ref_list))) ;;
        mret (Some {| program := generator; generator_args := result |})
  end.

(** ** [get_tx_removals_and_additions] and [get_hint_list] *)
Definition get_tx_removals_and_additions (c : Chain) (block : FullBlock.t) (npc_result : option NPCResult) :
    ST Stores (list bytes * list Coin * option NPCResult) :=
  if FullBlock.is_transaction_block block then
    match FullBlock.transactions_generator block with
    | Some _ =>
        npc_result ←
          match npc_result with
          | Some r => mret r
          | None =>
              g ← get_block_generator c ∅ (AnyBlock.Full block);
              g ← st_res (of_opt AssertionError g);
              mret (get_name_puzzle_conditions g (MAX_BLOCK_COST_CLVM constants) (COST_PER_BYTE constants) false)
          end;
        '(removals, additions) ← st_res (tx_removals_and_additions (npc_list npc_result));
        mret (removals, additions, Some npc_result)
    | None => mret ([], [], None)
    end
  else mret ([], [], None).

Definition hints_of_condition (npc : NPC) (condition : ConditionWithArgs) : res (list (bytes * bytes)) :=
  match vars condition with
  | puzzle_hash :: amount_bin :: hint :: _ =>
      if bool_decide (hint ≠ []) then
        amount ← int_from_bytes amount_bin;
        c ← make_coin (npc_coin_name npc) puzzle_hash amount;
        Ok [(coin_name c, hint)]
      else Ok []
  | _ => Ok []
  end.
Definition get_hint_list (npc_result : NPCResult) : res (list (bytes * bytes)) :=
  l ← for_each (λ npc,
    l ← for_each (λ '(opcode, cs),
      if bool_decide (opcode = CREATE_COIN) then l ← for_each (hints_of_condition npc) cs; Ok (concat l)
      else Ok []) (conditions npc);
    Ok (concat l)) (npc_list npc_result);
  Ok (concat l).

(** ** [_reconsider_peak] *)

(** [lastest_coin_state] and [hint_coin_state] *)
Notation CoinStates := (dict bytes CoinRecord).
Notation HintStates := (dict bytes (dict bytes CoinRecord)).

Definition note_record (states : CoinStates) (r : CoinRecord) : CoinStates := dset (coin_name (coin r)) r states.

Definition note_hint (states : CoinStates) (hints : HintStates) (x : bytes * bytes) : res HintStates :=
  let '(coin_id, hint) := x in
  let hints := if dmem hint hints then hints else dset hint [] hints in
  r ← dindex coin_id states;
  Ok (dset hint (dset coin_id r (default [] (dget hint hints))) hints).

(** The effect of one block between the fork and the new peak on the stores *)
Definition apply_block (c : Chain) (new_hash : bytes) (npc_result : option NPCResult)
    (acc : CoinStates * HintStates) (x : FullBlock.t * BlockRecord) : ST Blockchain (CoinStates * HintStates) :=
  let '(states, hints) := acc in
  let '(block, record) := x in
  if FullBlock.is_transaction_block block then
    '(tx_removals, tx_additions, npc_res) ←
      on_stores (get_tx_removals_and_additions c block
                   (if bool_decide (header_hash record = new_hash) then npc_result else None));
    ftb ← st_res (of_opt AssertionError (FullBlock.foliage_transaction_block block));
    rewards ← st_res (FullBlock.get_included_reward_coins block);
    added_rec ← on_stores (on_coins (new_block (FullBlock.height block) (FoliageTransactionBlock.timestamp ftb)
                                       (set_iter rewards) tx_additions tx_removals));
    removed_rec ← on_stores (on_coins (st_each get_coin_record tx_removals));
    let states := foldl note_record states added_rec in
    removed_rec ← st_res (for_each (of_opt AssertionError) removed_rec);
    let states := foldl note_record states removed_rec in
    match npc_res with
    | Some npc_res =>
        hint_list ← st_res (get_hint_list npc_res);
        st_modify (λ s, set_hints (add_hints hint_list (bc_hints s)) s) ;;
        hints ← st_res (for_fold (note_hint states) hints hint_list);
        mret (states, hints)
    | None => mret (states, hints)
    end
  else mret (states, hints).

(** The blocks from the new one back to the fork, newest first *)
Definition collect_body (c : Chain) (fork_height : Z) (s : bytes * list (FullBlock.t * BlockRecord)) :
    ST Stores (bytes * list (FullBlock.t * BlockRecord) + list (FullBlock.t * BlockRecord)) :=
  let '(curr, blocks_to_add) := s in
  continue ← st_res (if fork_height <? 0 then Ok true
                     else i ← uint32 fork_height; h ← chain_height_to_hash c i; Ok (bool_decide (curr ≠ h)));
  if (continue : bool) then
    full ← on_blocks (get_full_block curr);
    record ← (λ s, (get_block_record curr (st_blocks s), s));
    full ← st_res (of_opt AssertionError full);
    record ← st_res (of_opt AssertionError record);
    let blocks_to_add := blocks_to_add ++ [(full, record)] in
    if FullBlock.height full =? 0 then mret (inr blocks_to_add)
    else mret (inl (prev_hash record, blocks_to_add))
  else mret (inr blocks_to_add).

(** What [_reconsider_peak] returns: the fork height and the new peak height (none
    when the peak stays), the records of the new path, and the changes of the coins *)
Record PeakChange := {
  pc_fork_height : option Z;
  pc_peak_height : option Z;
  pc_records : list BlockRecord;
  pc_coins : list CoinRecord;
  pc_hints : HintStates;
}.
Definition no_change : PeakChange :=
  {| pc_fork_height := None; pc_peak_height := None; pc_records := []; pc_coins := []; pc_hints := [] |}.

Definition reconsider_genesis (block_record : BlockRecord) (npc_result : option NPCResult) : ST Blockchain PeakChange :=
  block ← on_stores (on_blocks (get_full_block (header_hash block_record)));
  block ← st_res (of_opt AssertionError block);
  '(tx_removals, tx_additions) ← st_res match npc_result with
                                        | Some r => tx_removals_and_additions (npc_list r)
                                        | None => Ok ([], [])
                                        end;
  added ←
    (if FullBlock.is_transaction_block block then
       ftb ← st_res (of_opt AssertionError (FullBlock.foliage_transaction_block block));
       rewards ← st_res (FullBlock.get_included_reward_coins block);
       on_stores (on_coins (new_block (FullBlock.height block) (FoliageTransactionBlock.timestamp ftb)
                              (set_iter rewards) tx_additions tx_removals))
     else mret []);
  on_stores (on_blocks (set_peak (header_hash block_record))) ;;
  mret {| pc_fork_height := Some 0; pc_peak_height := Some 0; pc_records := [block_record]; pc_coins := added;
          pc_hints := [] |}.

(** The fork of the new block with the peak; the source does not compare weights. *)
Definition peak_fork (c : Chain) (peak block_record : BlockRecord) (fork_point_with_peak : option Z) : res Z :=
  if bool_decide (prev_hash block_record = header_hash peak) then Ok (height peak)
  else match fork_point_with_peak with
    | Some f => Ok f
    | None => find_fork_point_in_chain (chain_interface c) fuel block_record peak
    end.

Definition reconsider_peak (block_record : BlockRecord) (genesis : bool) (fork_point_with_peak : option Z)
    (npc_result : option NPCResult) : ST Blockchain PeakChange :=
  peak ← chain_read get_peak;
  match genesis, peak with
  | true, None => reconsider_genesis block_record npc_result
  | true, Some _ => mret no_change
  | false, None => st_raise AssertionError
  | false, Some peak =>
      fork_height ← chain_read (λ c, peak_fork c peak block_record fork_point_with_peak);
      roll_changes ←
        (if bool_decide (prev_hash block_record = header_hash peak) then mret []
         else on_stores (on_coins (rollback_to_block fork_height)));
      let states := foldl note_record [] roll_changes in
      chain_modify (λ c, set_path (mem_height_to_hash c)
        (filter (λ kv, kv.1 <= fork_height) (mem_summaries c)) c) ;;
      s ← st_get;
      let c := bc_chain s in
      blocks_to_add ← on_stores (st_loop fuel (collect_body c fork_height) (header_hash block_record, []));
      '(states, hints) ← st_fold (apply_block c (header_hash block_record) npc_result) (states, []) (rev blocks_to_add);
      on_stores (on_blocks (set_peak (header_hash block_record))) ;;
      fork ← st_res (uint32 (Z.max fork_height 0));
      mret {| pc_fork_height := Some fork; pc_peak_height := Some (height block_record);
              pc_records := (rev blocks_to_add).*2; pc_coins := states.*2; pc_hints := hints |}
  end.

(** ** [receive_block] *)
Inductive ReceiveBlockResult :=
  | NEW_PEAK
  | ADDED_AS_ORPHAN
  | INVALID_BLOCK
  | ALREADY_HAVE_BLOCK
  | DISCONNECTED_BLOCK.

(** The tuple [receive_block] returns *)
Record Received := {
  rb_result : ReceiveBlockResult;
  rb_error : option Err.t;
  rb_fork_height : option Z;
  rb_coins : list CoinRecord;
  rb_hints : HintStates;
}.
Definition not_added (r : ReceiveBlockResult) (e : option Err.t) : Received :=
  {| rb_result := r; rb_error := e; rb_fork_height := None; rb_coins := []; rb_hints := [] |}.

(** [chia/consensus/multiprocess_validation.py]; the source keeps the coefficient as a
    string. *)
Record PreValidationResult := {
  pv_error : option Z;
  pv_required_iters : option Z;
  pv_npc_result : option NPCResult;
  pv_difficulty_coeff : option decimal;
}.

Definition farmer_coeff (s : Blockchain) (farmer_public_key : bytes) (h : option Z) : res decimal :=
  get_farmer_difficulty_coeff constants fuel create_puzzlehash_for_pk (bc_chain s) (st_coins (bc_stores s))
    (st_blocks (bc_stores s)) farmer_public_key h None.

(** The [except BaseException] of a transaction: the block leaves the block cache and
    the tables are those at its beginning; the other caches and the memory stay. *)
Definition rollback_transaction (hh : bytes) (s0 s : Blockchain) : Blockchain :=
  let st := bc_stores s in
  let blocks := (rollback_cache_block hh (st_blocks st)).2 in
  set_hints (bc_hints s0) (set_stores {|
    st_coins := set_db (coin_record_db (st_coins (bc_stores s0))) (st_coins st);
    st_blocks := set_full_blocks (full_blocks (st_blocks (bc_stores s0)))
                   (set_block_records (block_records (st_blocks (bc_stores s0))) blocks);
    st_pairings := st_pairings st |} s).
Definition in_transaction {A} (hh : bytes) (body : ST Blockchain A) : ST Blockchain A := λ s0,
  match body s0 with
  | (Ok a, s) => (Ok a, s)
  | (r, s) => (r, rollback_transaction hh s0 s)
  end.

(** [try: m] [except ValueError] *)
Definition catch_value_error {S A} (m : ST S A) : ST S (A + unit) := λ s,
  match m s with
  | (Ok a, s) => (Ok (inl a), s)
  | (Raise ValueError, s) => (Ok (inr tt), s)
  | (Raise e, s) => (Raise e, s)
  | (OutOfFuel, s) => (OutOfFuel, s)
  end.

(** The header of a block with the transactions its generator makes; [inr] is the
    error returned for a reference to a block without a generator. *)
Definition header_and_npc (c : Chain) (block : FullBlock.t) : ST Blockchain (HeaderBlock.t * option NPCResult + Err.t) :=
  if FullBlock.is_transaction_block block then
    match FullBlock.transactions_generator block with
    | Some _ =>
        g ← catch_value_error (on_stores (get_block_generator c ∅ (AnyBlock.Full block)));
        match g with
        | inr _ => mret (inr Err.GENERATOR_REF_HAS_NO_GENERATOR)
        | inl g =>
            g ← st_res (of_opt AssertionError g);
            ti ← st_res (of_opt AssertionError (FullBlock.transactions_info block));
            let npc_result := get_name_puzzle_conditions g
              (Z.min (MAX_BLOCK_COST_CLVM constants) (TransactionsInfo.cost ti)) (COST_PER_BYTE constants) false in
            '(removals, tx_additions) ← st_res (tx_removals_and_additions (npc_list npc_result));
            hb ← st_res (get_block_header set_iter block tx_additions removals);
            mret (inl (hb, Some npc_result))
        end
    | None => hb ← st_res (get_block_header set_iter block [] []); mret (inl (hb, None))
    end
  else hb ← st_res (get_block_header set_iter block [] []); mret (inl (hb, None)).

(** The validation of the header when it was not validated before *)
Definition validate_header (block : FullBlock.t) : ST Blockchain (Z * option NPCResult + Err.t) :=
  prev_b ← (if FullBlock.height block =? 0 then mret None
            else b ← chain_read (λ c, chain_block_record c (FullBlock.prev_header_hash block)); mret (Some b));
  '(sub_slot_iters, difficulty) ← chain_read (λ c,
    get_next_sub_slot_iters_and_difficulty constants (chain_interface c) fuel
      (bool_decide (0 < length (FullBlock.finished_sub_slots block))%nat) prev_b);
  s ← st_get;
  r ← header_and_npc (bc_chain s) block;
  match r with
  | inr e => mret (inr e)
  | inl (header_block, npc_result) =>
      s ← st_get;
      v ← st_res (validate_finished_header_block constants (chain_interface (bc_chain s)) fuel (farmer_coeff s) time_time
                    header_block false difficulty sub_slot_iters true);
      match v with
      | inr e => mret (inr e)
      | inl (required_iters, _) => mret (inl (required_iters, npc_result))
      end
  end.

(** The update of the memory after the commit *)
Definition add_to_path (c : Chain) (b : BlockRecord) : Chain :=
  set_path (<[height b := header_hash b]> (mem_height_to_hash c))
    (match sub_epoch_summary_included b with
     | Some ses => <[height b := ses]> (mem_summaries c)
     | None => mem_summaries c
     end) c.
Definition update_memory (block_record : BlockRecord) (ch : PeakChange) (c : Chain) : Chain :=
  let c := foldl add_to_path (add_block_record block_record c) (pc_records ch) in
  match pc_peak_height ch with Some h => set_peak_height (Some h) c | None => c end.

(** Adding a validated block *)
Definition store_block (block : FullBlock.t) (hh : bytes) (block_record : BlockRecord) (fork_point_with_peak : option Z)
    (npc_result : option NPCResult) : ST Blockchain PeakChange :=
  in_transaction hh (
    on_stores (on_blocks (add_full_block hh block block_record)) ;;
    ch ← reconsider_peak block_record (FullBlock.height block =? 0) fork_point_with_peak npc_result;
    chain_modify (update_memory block_record ch) ;;
    mret ch).

Definition receive_block (block : FullBlock.t) (pre_validation_result : option PreValidationResult)
    (fork_point_with_peak : option Z) : ST Blockchain Received :=
  let genesis := FullBlock.height block =? 0 in
  hh ← st_res (block_header_hash block);
  s ← st_get;
  let c := bc_chain s in
  if contains_block_in_peak_chain c hh then mret (not_added ALREADY_HAVE_BLOCK None)
  else if negb (chain_contains_block c (FullBlock.prev_header_hash block)) && negb genesis
  then mret (not_added DISCONNECTED_BLOCK (Some Err.INVALID_PREV_BLOCK_HASH))
  else
    height_ok ← st_res (if genesis then Ok true
                        else b ← chain_block_record c (FullBlock.prev_header_hash block);
                             Ok (height b + 1 =? FullBlock.height block));
    if negb height_ok then mret (not_added INVALID_BLOCK (Some Err.INVALID_HEIGHT))
    else
      v ← match pre_validation_result with
          | None => validate_header block
          | Some r =>
              st_res (assert_ (bool_decide (pv_error r = None))) ;;
              required_iters ← st_res (of_opt AssertionError (pv_required_iters r));
              mret (inl (required_iters, pv_npc_result r))
          end;
      match v with
      | inr e => mret (not_added INVALID_BLOCK (Some e))
      | inl (required_iters, npc_result) =>
          peak ← chain_read get_peak;
          '(error_code, _) ←
            on_stores (validate_block_body constants (chain_interface c) fuel
                         (λ b, get_block_generator c ∅ (AnyBlock.Full b)) peak (AnyBlock.Full block)
                         (FullBlock.height block) npc_result fork_point_with_peak true);
          match error_code with
          | Some e => mret (not_added INVALID_BLOCK (Some e))
          | None =>
              block_record ← st_res (block_to_block_record constants (chain_interface c) fuel required_iters block);
              ch ← store_block block hh block_record fork_point_with_peak npc_result;
              match pc_fork_height ch with
              | Some f => mret {| rb_result := NEW_PEAK; rb_error := None; rb_fork_height := Some f;
                                  rb_coins := pc_coins ch; rb_hints := pc_hints ch |}
              | None => mret (not_added ADDED_AS_ORPHAN None)
              end
          end
      end.

(** ** [validate_unfinished_block]

    The source passes the coin store where [skip_overflow_last_ss_validation] is
    expected, which is true in a condition, and its own flag one place later, where it
    becomes [skip_vdf_is_valid]. *)
Definition validate_unfinished_block (block : UnfinishedBlock.t) (npc_result : option NPCResult)
    (skip_overflow_ss_validation : bool) : ST Blockchain PreValidationResult :=
  let prev := UnfinishedBlock.prev_header_hash block in
  let invalid := λ e, code ← st_res (uint16 (Err.value e));
    mret {| pv_error := Some code; pv_required_iters := None; pv_npc_result := None; pv_difficulty_coeff := None |} in
  s ← st_get;
  let c := bc_chain s in
  if negb (chain_contains_block c prev) && bool_decide (prev ≠ GENESIS_CHALLENGE constants)
  then invalid Err.INVALID_PREV_BLOCK_HASH
  else
    let unfinished_header_block := {|
      UnfinishedHeaderBlock.finished_sub_slots := UnfinishedBlock.finished_sub_slots block;
      UnfinishedHeaderBlock.reward_chain_block := UnfinishedBlock.reward_chain_block block;
      UnfinishedHeaderBlock.challenge_chain_sp_proof := UnfinishedBlock.challenge_chain_sp_proof block;
      UnfinishedHeaderBlock.reward_chain_sp_proof := UnfinishedBlock.reward_chain_sp_proof block;
      UnfinishedHeaderBlock.foliage := UnfinishedBlock.foliage block;
      UnfinishedHeaderBlock.foliage_transaction_block := UnfinishedBlock.foliage_transaction_block block;
      UnfinishedHeaderBlock.transactions_filter := [] |} in
    prev_b ← st_res (try_block_record (chain_interface c) prev);
    '(sub_slot_iters, difficulty) ← st_res (get_next_sub_slot_iters_and_difficulty constants (chain_interface c) fuel
      (bool_decide (0 < length (UnfinishedBlock.finished_sub_slots block))%nat) prev_b);
    v ← st_res (validate_unfinished_header_block constants (chain_interface c) fuel (farmer_coeff s) time_time
                  unfinished_header_block false difficulty sub_slot_iters true skip_overflow_ss_validation true);
    match v with
    | inr e => invalid e
    | inl (required_iters, difficulty_coeff) =>
        prev_height ← st_res (if bool_decide (prev = GENESIS_CHALLENGE constants) then Ok (-1)
                              else b ← chain_block_record c prev; Ok (height b));
        h ← st_res (uint32 (prev_height + 1));
        peak ← st_res (get_peak c);
        '(error_code, cost_result) ←
          on_stores (validate_block_body constants (chain_interface c) fuel
                       (λ b, get_block_generator c ∅ (AnyBlock.Full b)) peak (AnyBlock.Unfinished block) h npc_result
                       None false);
        match error_code with
        | Some e => invalid e
        | None => mret {| pv_error := None; pv_required_iters := Some required_iters; pv_npc_result := cost_result;
                          pv_difficulty_coeff := Some difficulty_coeff |}
        end
    end.

(** ** Loading the chain and the cache *)
Definition load_chain_from_store : ST Blockchain unit :=
  s ← st_get;
  let store := st_blocks (bc_stores s) in
  '(height_to_hash, summaries) ← st_res (get_peak_height_dicts fuel store);
  st_modify (set_chain {| peak_height := peak_height (bc_chain s); mem_records := ∅; heights_in_cache := ∅;
                          mem_height_to_hash := height_to_hash; mem_summaries := summaries |}) ;;
  '(records, peak) ← st_res (get_block_records_close_to_peak (BLOCKS_CACHE_SIZE constants) store);
  st_for (λ b, chain_modify (add_block_record b)) records.*2 ;;
  match records with
  | [] => st_res (assert_ (bool_decide (peak = None))) ;; chain_modify (set_peak_height None)
  | _ =>
      peak ← st_res (of_opt AssertionError peak);
      b ← chain_read (λ c, chain_block_record c peak);
      chain_modify (set_peak_height (Some (height b))) ;;
      chain_read (λ c, assert_ (Z.of_nat (size (mem_height_to_hash c)) =? height b + 1))
  end.

Definition warmup (fork_point : Z) : ST Blockchain unit :=
  s ← st_get;
  match peak_height (bc_chain s) with
  | None => mret tt
  | Some _ =>
      records ← st_res (get_block_records_in_range (Z.max (fork_point - BLOCKS_CACHE_SIZE constants) 0) fork_point
                          (st_blocks (bc_stores s)));
      st_for (λ b, chain_modify (add_block_record b)) records.*2
  end.

(** ** Queries *)
Definition get_full_peak : ST Blockchain (option FullBlock.t) :=
  s ← st_get;
  match peak_height (bc_chain s) with
  | None => mret None
  | Some h =>
      hh ← chain_read (λ c, chain_height_to_hash c h);
      block ← on_stores (on_blocks (get_full_block hh));
      block ← st_res (of_opt AssertionError block);
      mret (Some block)
  end.

Definition get_block_record_from_db (hh : bytes) (s : Blockchain) : res (option BlockRecord) :=
  match mem_records (bc_chain s) !! hh with
  | Some b => Ok (Some b)
  | None => get_block_record hh (st_blocks (bc_stores s))
  end.

(** The loop of [get_block_records_at] in batches of [batch_size + 1] hashes *)
Fixpoint records_at (batch_size : nat) (s : Blockchain) (hashes : list bytes) (heights : list Z) : res (list BlockRecord) :=
  match heights with
  | [] => match hashes with [] => Ok [] | _ => get_block_records_by_hash hashes (st_blocks (bc_stores s)) end
  | h :: heights =>
      hh ← chain_height_to_hash (bc_chain s) h;
      let hashes := hashes ++ [hh] in
      if bool_decide (batch_size < length hashes)%nat then
        l ← get_block_records_by_hash hashes (st_blocks (bc_stores s));
        rest ← records_at batch_size s [] heights;
        Ok (l ++ rest)
      else records_at batch_size s hashes heights
  end.
Definition get_block_records_at (heights : list Z) (batch_size : nat) (s : Blockchain) : res (list BlockRecord) :=
  assert_ (bool_decide (batch_size < 999)%nat) ;; records_at batch_size s [] heights.

(** The header of a block of the path, with the filter of its transactions *)
Definition header_with_filter (tx_filter : bool) (block : FullBlock.t) : ST Blockchain (bytes * HeaderBlock.t) :=
  hh ← st_res (block_header_hash block);
  path ← chain_read (λ c, chain_height_to_hash c (FullBlock.height block));
  if bool_decide (path ≠ hh) then st_raise ValueError
  else
    header ←
      (if tx_filter then
         s ← st_get;
         added ← st_res (get_coins_added_at_height (FullBlock.height block) (st_coins (bc_stores s)));
         removed ← st_res (get_coins_removed_at_height (FullBlock.height block) (st_coins (bc_stores s)));
         st_res (get_block_header set_iter block (coin <$> filter (λ r, coinbase r = false) added)
                   ((λ r, coin_name (coin r)) <$> removed))
       else st_res (get_block_header set_iter block [] []));
    hash ← st_res (hash_of (HeaderBlock.foliage header));
    mret (hash, header).

(** Takes the blocks of the cache out of [hashes], in their order *)
Fixpoint take_cached (l : list bytes) (hashes : list bytes) (found : list FullBlock.t) :
    ST BlockStore.BlockStore (list bytes * list FullBlock.t) :=
  match l with
  | [] => mret (hashes, found)
  | hh :: l =>
      block ← cached_block hh;
      match block with
      | Some b =>
          let hashes := match list_find (λ x, x = hh) hashes with
                        | Some (i, _) => take i hashes ++ drop (S i) hashes
                        | None => hashes
                        end in
          take_cached l hashes (found ++ [b])
      | None => take_cached l hashes found
      end
  end.
Definition get_header_blocks_in_range (start stop : Z) (tx_filter : bool) : ST Blockchain (dict bytes HeaderBlock.t) :=
  s ← st_get;
  heights ← st_res (for_each uint32 (seqZ start (stop + 1 - start)));
  let hashes := omap (λ h, mem_height_to_hash (bc_chain s) !! h) heights in
  '(hashes, cached) ← on_stores (on_blocks (take_cached hashes hashes []));
  on_disk ← on_stores (on_blocks (get_blocks_by_hash hashes));
  headers ← st_each (header_with_filter tx_filter) (cached ++ on_disk);
  mret (foldl (λ d '(h, hb), dset h hb d) [] headers).
Definition get_header_block_by_height (h : Z) (hh : bytes) (tx_filter : bool) : ST Blockchain (option HeaderBlock.t) :=
  d ← get_header_blocks_in_range h h tx_filter; mret (dget hh d).

(** ** [get_sp_and_ip_sub_slots] *)

(** Back to the first block of the sub slot; [None] when genesis comes first *)
Definition to_slot_body (c : Chain) (curr_br : BlockRecord) : ST Stores (BlockRecord + option FullBlock.t) :=
  if first_in_sub_slot curr_br then
    curr ← on_blocks (get_full_block (header_hash curr_br));
    curr ← st_res (of_opt AssertionError curr);
    mret (inr (Some curr))
  else if height curr_br =? 0 then mret (inr None)
  else b ← st_res (chain_block_record c (prev_hash curr_br)); mret (inl b).
Definition to_earlier_slot_body (c : Chain) (prev_curr_br : BlockRecord) : ST Stores (BlockRecord + option FullBlock.t) :=
  if 0 <? height prev_curr_br then
    if first_in_sub_slot prev_curr_br then
      curr ← on_blocks (get_full_block (header_hash prev_curr_br));
      curr ← st_res (of_opt AssertionError curr);
      mret (inr (Some curr))
    else b ← st_res (chain_block_record c (prev_hash prev_curr_br)); mret (inl b)
  else mret (inr None).

Definition get_sp_and_ip_sub_slots (c : Chain) (hh : bytes) :
    ST Stores (option (option EndOfSubSlotBundle.t * option EndOfSubSlotBundle.t)) :=
  block ← on_blocks (get_full_block hh);
  match block with
  | None => mret None
  | Some block =>
      bhh ← st_res (block_header_hash block);
      curr_br ← st_res (chain_block_record c bhh);
      first ← st_loop fuel (to_slot_body c) curr_br;
      let curr := default block first in
      let slots := FullBlock.finished_sub_slots curr in
      match last slots with
      | None => mret (Some (None, None))
      | Some ip_sub_slot =>
          if negb (overflow curr_br) then mret (Some (None, Some ip_sub_slot))
          else match last (removelast slots) with
            | Some sp_sub_slot => mret (Some (Some sp_sub_slot, Some ip_sub_slot))
            | None =>
                prev_curr ← on_blocks (get_full_block (FullBlock.prev_header_hash curr));
                '(prev_curr, prev_curr_br) ←
                  match prev_curr with
                  | None =>
                      st_res (assert_ (FullBlock.height curr =? 0)) ;;
                      h ← st_res (block_header_hash curr);
                      r ← st_res (chain_block_record c h);
                      mret (curr, r)
                  | Some p => r ← st_res (chain_block_record c (FullBlock.prev_header_hash curr)); mret (p, r)
                  end;
                earlier ← st_loop fuel (to_earlier_slot_body c) prev_curr_br;
                mret (Some (last (FullBlock.finished_sub_slots (default prev_curr earlier)), Some ip_sub_slot))
            end
      end
  end.

(** ** Compact proofs *)
Definition seen_compact_proofs (vdf_info : VDFInfo.t) (h : Z) : ST Blockchain bool :=
  s ← st_get;
  let seen := bc_seen_proofs s in
  if bool_decide ((vdf_info, h) ∈ seen) then mret true
  else
    let seen := if bool_decide (10000 < length seen)%nat then [] else seen in
    st_modify (set_seen (seen ++ [(vdf_info, h)])) ;;
    mret false.
End Blockchain.
