(* ===== verification/BlockchainFrame.v ===== *)
(** * What reading the chain leaves alone

    The validation of a block reads the stores through their caches.  The lemmas of
    this file state that it changes no table and that what the caches hold stays
    right; [BlockchainSound] builds on them. *)
From S2P Require Import Prelude PyInt PyFloat PyDecimal Consensus ChainView Difficulty Errors Coins CoinStore Sha256.
From S2P Require Import MerkleSet Streamable BlockTypes BlockToRecord BlockStore HeaderValidation HeaderSound.
From S2P Require Import Generator CachedBls RootValidation BodyValidation Chain Staking Blockchain.

(** The same tables, and whatever the stores held they hold *)
Record coins_kept `{StdHash} `{ClvmCasts} (s s' : CoinStore) : Prop := {
  ck_db : coin_record_db s' = coin_record_db s;
  ck_implements : ∀ m, implements s m → implements s' m;
}.
Record blocks_kept `{Packages} (s s' : BlockStore.BlockStore) : Prop := {
  bk_blocks : full_blocks s' = full_blocks s;
  bk_records : BlockStore.block_records s' = BlockStore.block_records s;
  bk_stores : ∀ bm pk, stores s bm pk → stores s' bm pk;
}.
Definition stores_kept `{Packages} `{Bls} `{StdHash} `{ClvmCasts} (s s' : Stores) : Prop :=
  coins_kept (st_coins s) (st_coins s') ∧ blocks_kept (st_blocks s) (st_blocks s').
Definition chain_kept `{Packages} `{Bls} `{StdHash} `{ClvmCasts} (s s' : Blockchain) : Prop :=
  stores_kept (bc_stores s) (bc_stores s') ∧ bc_chain s' = bc_chain s ∧ bc_hints s' = bc_hints s
  ∧ bc_seen_proofs s' = bc_seen_proofs s.

#[global] Instance coins_kept_preorder `{StdHash} `{ClvmCasts} : PreOrder coins_kept.
Proof.
  split; [by intros s; split|]. intros s1 s2 s3 [D1 I1] [D2 I2]. split; [congruence|auto].
Qed.
#[global] Instance blocks_kept_preorder `{Packages} : PreOrder blocks_kept.
Proof.
  split; [by intros s; split|]. intros s1 s2 s3 [B1 R1 S1] [B2 R2 S2]. split; [congruence|congruence|auto].
Qed.
#[global] Instance stores_kept_preorder `{Packages} `{Bls} `{StdHash} `{ClvmCasts} : PreOrder stores_kept.
Proof. split; [by intros s; split|]. intros s1 s2 s3 [C1 B1] [C2 B2]. split; by etrans. Qed.
#[global] Instance chain_kept_preorder `{Packages} `{Bls} `{StdHash} `{ClvmCasts} : PreOrder chain_kept.
Proof.
  split; [by intros s|]. intros s1 s2 s3 (K1&C1&H1'&P1) (K2&C2&H2'&P2). split_and!; [by etrans|congruence..].
Qed.

Section Frame.
Context `{Packages} `{Sha256} `{StdHash} `{ClvmCasts} `{ClvmRunner} `{Bls} `{SetIter} `{VDF : Vdf} `{PlotTools}.
Context (constants : ConsensusConstants) (fuel : nat) (create_puzzlehash_for_pk : bytes → bytes) (time_time : float).

Lemma coin_record_keeps n : keeps coins_kept (get_coin_record n).
Proof.
  intros s. split.
  - unfold get_coin_record. destruct (lru_get n _) as [cached c]. destruct cached; [done|].
    destruct (_ !! hex n); [|done]. by destruct (row_to_record _).
  - intros m Hm. destruct (get_coin_record_ok s m n Hm) as (s'&->&Hm'). done.
Qed.
Definition same_rows (s s' : BlockStore.BlockStore) : Prop :=
  full_blocks s' = full_blocks s ∧ BlockStore.block_records s' = BlockStore.block_records s.
#[local] Instance same_rows_preorder : PreOrder same_rows.
Proof. split; [by intros s|]. intros s1 s2 s3 [B1 R1] [B2 R2]. split; congruence. Qed.
Lemma cached_block_rows hh : keeps same_rows (cached_block hh).
Proof. intros s. unfold cached_block. by destruct (lru_get hh _). Qed.
Lemma full_block_rows hh : keeps same_rows (get_full_block hh).
Proof. unfold get_full_block. keep; [apply cached_block_rows|by intros s]. Qed.
Lemma full_block_keeps hh : keeps blocks_kept (get_full_block hh).
Proof.
  intros s. destruct (full_block_rows hh s) as [E1 E2]. split; [done|done|]. intros bm pk Hs.
  destruct (get_full_block_ok s bm pk hh Hs) as (s'&->&Hs'). done.
Qed.
Hint Resolve coin_record_keeps full_block_keeps : keeps.

Lemma on_coins_keeps {A} (m : ST CoinStore A) : keeps coins_kept m → keeps stores_kept (on_coins m).
Proof. apply keeps_part. intros s p Hp. by split. Qed.
Lemma on_blocks_keeps {A} (m : ST BlockStore.BlockStore A) : keeps blocks_kept m → keeps stores_kept (on_blocks m).
Proof. apply keeps_part. intros s p Hp. by split. Qed.
Lemma on_pairings_keeps {A} (m : ST _ A) : keeps stores_kept (on_pairings m).
Proof. apply (keeps_part _ (λ _ _, True)); [by intros s p _|done]. Qed.
Lemma on_stores_keeps {A} (m : ST Stores A) : keeps stores_kept m → keeps chain_kept (on_stores m).
Proof. apply keeps_part. intros s p Hp. by split_and!. Qed.
Lemma stores_read_keeps {A} (f : Stores → res A) : keeps stores_kept (λ s, (f s, s)).
Proof. apply keeps_still; [apply _|done]. Qed.
Hint Resolve on_coins_keeps on_blocks_keeps on_pairings_keeps on_stores_keeps stores_read_keeps : keeps.

(** ** The generator *)
Lemma to_fork_keeps fork t : keeps stores_kept (to_fork_body fork t).
Proof. unfold to_fork_body. keep. Qed.
Lemma reorg_chain_keeps c curr chain : keeps stores_kept (reorg_chain_of fuel c curr chain).
Proof. unfold reorg_chain_of. keep. apply to_fork_keeps. Qed.
Lemma from_path_keeps c h : keeps stores_kept (ref_from_path c h).
Proof. unfold ref_from_path. keep. Qed.
Lemma from_reorg_keeps c chain h : keeps stores_kept (ref_from_reorg c chain h).
Proof. unfold ref_from_reorg. keep. apply from_path_keeps. Qed.
Hint Resolve to_fork_keeps reorg_chain_keeps from_path_keeps from_reorg_keeps : keeps.

Lemma generator_keeps c additional block : keeps stores_kept (get_block_generator fuel c additional block).
Proof. unfold get_block_generator. keep. Qed.
Hint Resolve generator_keeps : keeps.

(** ** The body *)
Section Body.
Context (blocks : BlockchainInterface) (gen : FullBlock.t → ST Stores (option BlockGenerator)).
Context (Hgen : ∀ b, keeps stores_kept (gen b)).

Lemma changes_in_keeps b : keeps stores_kept (changes_in constants gen b).
Proof. unfold changes_in. keep. Qed.
Lemma fork_body_keeps f rb t : keeps stores_kept (fork_body constants gen f rb t).
Proof. unfold fork_body. keep. apply changes_in_keeps. Qed.
Lemma since_fork_keeps h f prev : keeps stores_kept (changes_since_fork constants fuel gen h f prev).
Proof. unfold changes_since_fork, reorg_body. keep. apply fork_body_keeps. Qed.
Lemma removal_keeps h ts f dic A R recs n : keeps stores_kept (collect_removal h ts f dic A R recs n).
Proof. unfold collect_removal. keep. Qed.
Lemma signature_keeps block ti npcs v : keeps stores_kept (check_signature constants block ti npcs v).
Proof. unfold check_signature. keep. Qed.

Lemma body_keeps peak block h npc f v : keeps stores_kept (validate_block_body constants blocks fuel gen peak block h npc f v).
Proof.
  unfold validate_block_body, check_coins. keep; auto using since_fork_keeps, removal_keeps, signature_keeps.
Qed.
End Body.

(** ** The header *)
Lemma chain_read_keeps {A} (f : Chain → res A) : keeps chain_kept (chain_read f).
Proof. apply keeps_still; [apply _|done]. Qed.
Lemma catch_keeps {A} (m : ST Blockchain A) : keeps chain_kept m → keeps chain_kept (catch_value_error m).
Proof.
  intros Hm s. specialize (Hm s). unfold catch_value_error. destruct (m s) as [[a|e|] s']; [done| |done]. by destruct e.
Qed.
Hint Resolve chain_read_keeps catch_keeps : keeps.

Lemma header_keeps block :
  keeps chain_kept (validate_header constants fuel create_puzzlehash_for_pk time_time block).
Proof. unfold validate_header, header_and_npc. keep. Qed.

(** ** Receiving a block *)
Definition received (ch : PeakChange) : Received :=
  match pc_fork_height ch with
  | Some f => {| rb_result := NEW_PEAK; rb_error := None; rb_fork_height := Some f;
                 rb_coins := pc_coins ch; rb_hints := pc_hints ch |}
  | None => not_added ADDED_AS_ORPHAN None
  end.

(** A block is either turned down, or stored with its record after the checks. *)
Definition turned_down (r : Received) : Prop :=
  match rb_result r with NEW_PEAK | ADDED_AS_ORPHAN => False | _ => True end.
Lemma accepted (o : res Received) :
  match o with Ok r => match rb_result r with NEW_PEAK | ADDED_AS_ORPHAN => true | _ => false end | _ => false end = true →
  ∃ r, o = Ok r ∧ ¬ turned_down r.
Proof. unfold turned_down. destruct o as [r| |]; [|done..]. intros Hr. exists r. split; [done|]. destruct (rb_result r); [tauto|tauto|discriminate..]. Qed.

(** The result of the transactions [npc] comes with the block or from the check of its header. *)
Definition npc_from (block : FullBlock.t) (pre : option PreValidationResult) (s : Blockchain) (npc : option NPCResult) : Prop :=
  match pre with
  | Some p => npc = pv_npc_result p
  | None => ∃ hb s', header_and_npc constants fuel (bc_chain s) block s = (Ok (inl (hb, npc)), s')
  end.

(** The block passes the checks at [s], which leave [s1] *)
Record checked (block : FullBlock.t) (pre : option PreValidationResult) (fork : option Z) (s : Blockchain) (hh : bytes) (br : BlockRecord)
    (npc : option NPCResult) (s1 : Blockchain) : Prop := {
  cd_hash : block_header_hash block = Ok hh;
  cd_new : contains_block_in_peak_chain (bc_chain s) hh = false;
  cd_prev : FullBlock.height block ≠ 0 → ∃ b, mem_records (bc_chain s) !! FullBlock.prev_header_hash block = Some b
              ∧ FullBlock.height block = height b + 1;
  cd_record : ∃ required_iters, (∀ p, pre = Some p → pv_required_iters p = Some required_iters)
    ∧ (pre = None → 1 <= required_iters < 2 ^ 64) ∧
    block_to_block_record constants (chain_interface (bc_chain s)) fuel required_iters block = Ok br;
  cd_npc : npc_from block pre s npc;
  cd_body : ∃ s2 s3 peak cost, stores_kept (bc_stores s) s2 ∧ get_peak (bc_chain s) = Ok peak ∧
    validate_block_body constants (chain_interface (bc_chain s)) fuel
      (λ b, get_block_generator fuel (bc_chain s) ∅ (AnyBlock.Full b)) peak (AnyBlock.Full block) (FullBlock.height block) npc fork
      true s2 = (Ok (None, cost), s3);
  cd_kept : chain_kept s s1;
}.

Lemma validate_header_npc block s v req npc s1 :
  validate_header constants fuel create_puzzlehash_for_pk time_time block s = (Ok v, s1) → v = inl (req, npc) →
  npc_from block None s npc ∧ 1 <= req < 2 ^ 64.
Proof.
  unfold validate_header. intros E ->. apply st_bind_inv in E as (prev&s0&E0&E).
  assert (s0 = s) as ->.
  { destruct (FullBlock.height block =? 0); [by apply st_ret_inv in E0 as [_ ->]|].
    apply st_bind_inv in E0 as (b&sb&Eb&E0). injection Eb as _ <-. by apply st_ret_inv in E0 as [_ ->]. }
  apply st_bind_inv in E as ([ssi d]&s2&E2&E). injection E2 as _ <-. rewrite (st_bind_Ok _ _ _ _ _ (st_get_eq s)) in E.
  apply st_bind_inv in E as (r&s3&E3&E). destruct r as [[hb npc']|e]; [|by apply st_ret_inv in E as [? _]].
  rewrite (st_bind_Ok _ _ _ _ _ (st_get_eq s3)) in E. apply st_bind_inv in E as (w&s4&E4&E).
  destruct w as [[ri c]|e]; apply st_ret_inv in E as [Ev _]; [|done]. injection Ev as -> ->. split; [by exists hb, s3|].
  apply st_res_inv in E4 as [E4 _]. apply finished_inv in E4 as (hc&sp&ip&pb&start&Hac&_).
  destruct (ac_pos _ _ _ _ _ _ _ _ _ _ _ _ _ _ _ _ _ Hac) as (cc&Hpos). by apply pos_inv in Hpos as [_ Hreq].
Qed.

Lemma receive_block_cases block pre fork s o s' :
  receive_block constants fuel create_puzzlehash_for_pk time_time block pre fork s = (o, s') →
  (chain_kept s s' ∧ ∀ r, o = Ok r → turned_down r)
  ∨ ∃ hh br npc s1 o1, checked block pre fork s hh br npc s1
      ∧ store_block constants fuel block hh br fork npc s1 = (o1, s') ∧ o = (ch ← o1; Ok (received ch)).
Proof.
  unfold receive_block. intros E.
  assert (Hend : ∀ s1 r, (mret r : ST Blockchain Received) s1 = (o, s') → chain_kept s s1 → turned_down r →
    chain_kept s s' ∧ ∀ r, o = Ok r → turned_down r).
  { intros s1 r [= <- <-] Hk Hr. split; [done|]. by intros ? [= <-]. }
  assert (Hfail : chain_kept s s' → (∀ r, o ≠ Ok r) → chain_kept s s' ∧ ∀ r, o = Ok r → turned_down r).
  { intros Hk Ho. split; [done|]. intros r Er. by destruct (Ho r). }
  apply (keeps_step chain_kept) in E as [(hh&s1&E1&K1&E)|[K Ho]]; [|left; exact (Hfail K Ho)|auto with keeps].
  apply st_res_inv in E1 as [Ehh ->]. rewrite (st_bind_Ok _ _ _ _ _ (st_get_eq s)) in E.
  destruct (contains_block_in_peak_chain _ hh) eqn:Ec; [left; exact (Hend _ _ E (reflexivity s) I)|].
  destruct (negb _ && negb _) eqn:Ed; [left; exact (Hend _ _ E (reflexivity s) I)|].
  apply (keeps_step chain_kept) in E as [(hok&s1&E1&_&E)|[K Ho]]; [|left; exact (Hfail K Ho)|auto with keeps].
  apply st_res_inv in E1 as [Eh ->]. destruct (negb hok) eqn:Ehk; [left; exact (Hend _ _ E (reflexivity s) I)|].
  apply (keeps_step chain_kept) in E as [(v&s1&Ev&K1'&E)|[K Ho]]; [|left; exact (Hfail K Ho)|].
  2:{ destruct pre; [keep|apply header_keeps]. }
  destruct v as [[req npc]|e]; [|left; exact (Hend _ _ E K1' I)].
  apply (keeps_step chain_kept) in E as [(peak&s2&Epk&K2&E)|[K Ho]]; [|left; exact (Hfail (transitivity K1' K) Ho)|auto with keeps].
  assert (Hnpc : npc_from block pre s npc).
  { unfold npc_from. destruct pre as [p|]; [|by eapply validate_header_npc in Ev as [Hn _]].
    apply st_bind_inv in Ev as (u&su&Eu&Ev). apply st_res_inv in Eu as [_ ->].
    apply st_bind_inv in Ev as (ri&su&Eu&Ev). apply st_res_inv in Eu as [_ ->]. by apply st_ret_inv in Ev as [[= _ ->] _]. }
  assert (Hreq : ∀ p, pre = Some p → pv_required_iters p = Some req).
  { intros p ->. apply st_bind_inv in Ev as (u&su&Eu&Ev). apply st_res_inv in Eu as [_ ->].
    apply st_bind_inv in Ev as (ri&su&Eu&Ev). apply st_res_inv in Eu as [Eu ->]. apply st_ret_inv in Ev as [[= -> _] _].
    by apply of_opt_Ok in Eu. }
  assert (Hreq' : pre = None → 1 <= req < 2 ^ 64).
  { intros ->. by eapply validate_header_npc in Ev as [_ Hn]. }
  assert (Ks2 : chain_kept s s2) by exact (transitivity K1' K2).
  apply (keeps_step chain_kept) in E as [([err cost]&s3&Ebd&K3&E)|[K Ho]]; [|left; exact (Hfail (transitivity Ks2 K) Ho)|].
  2:{ apply on_stores_keeps, body_keeps. auto using generator_keeps. }
  assert (Ks3 : chain_kept s s3) by exact (transitivity Ks2 K3).
  destruct err as [e|]; [left; exact (Hend _ _ E Ks3 I)|].
  apply (keeps_step chain_kept) in E as [(br&s4&E4&_&E)|[K Ho]]; [|left; exact (Hfail (transitivity Ks3 K) Ho)|auto with keeps].
  apply st_res_inv in E4 as [Ebr ->]. right. exists hh, br, npc, s3.
  destruct (store_block constants fuel block hh br fork npc s3) as [o1 s5] eqn:Est. exists o1.
  assert (Hchk : checked block pre fork s hh br npc s3).
  { split; [done|done| |by eauto|done| |done].
    2:{ unfold on_stores, st_part in Ebd. destruct (validate_block_body _ _ _ _ _ _ _ _ _ _ (bc_stores s2)) as [rb stb] eqn:Eb.
        injection Ebd as -> <-. exists (bc_stores s2), stb, peak, cost. split_and!; [apply Ks2| |done].
        injection Epk as <- <-. destruct K1' as (_&->&_). done. }
    intros Hh. apply Z.eqb_neq in Hh. rewrite Hh in Ed, Eh.
    unfold chain_contains_block in Ed. destruct (mem_records _ !! _) as [b|] eqn:Eb; [|done]. exists b. split; [done|].
    unfold chain_block_record in Eh. rewrite Eb in Eh. cbn in Eh. injection Eh as <-. lia. }
  split; [done|]. unfold mbind, st_bind in E. rewrite Est in E. unfold received.
  destruct o1 as [ch|e|]; cbn; [|by injection E as <- <-|by injection E as <- <-].
  destruct (pc_fork_height ch); by injection E as <- <-.
Qed.
End Frame.
