(* ===== verification/BlockchainSound.v ===== *)
(** * The chain keeps the ledger of its peak

    Theorems about [receive_block] and what it calls.  The reading methods are first
    shown to compute pure functions of the blocks stored; then a block that becomes the
    new peak leaves in the coin store the ledger of its chain, and a block that is not
    added leaves everything as it was. *)
From S2P Require Import Prelude PyInt PyFloat PyDecimal Consensus ChainView Difficulty Errors Coins CoinStore Sha256.
From S2P Require Import MerkleSet Streamable BlockTypes BlockToRecord BlockStore RecordTypes HeaderValidation.
From S2P Require Import HeaderSound Generator CachedBls RootValidation Ledger BodyValidation BodySound Chain Staking.
From S2P Require Import Blockchain BlockchainFrame.

Section Reads.
Context `{Packages} `{Sha256} `{StdHash} `{ClvmCasts} `{ClvmRunner} `{Bls} `{SetIter}.
Context (constants : ConsensusConstants) (fuel : nat).
Context (bm : gmap bytes (FullBlock.t * BlockRecord)) (pk : option bytes) (co : CoinStore).

(** The block store holds [bm]; reading leaves the coins alone. *)
Definition reading (st : Stores) : Prop := stores (st_blocks st) bm pk ∧ st_coins st = co.

(** ** The pure functions *)
Definition to_fork_spec (fork : Z) (s : FullBlock.t * gmap Z FullBlock.t) :
    res (FullBlock.t * gmap Z FullBlock.t + gmap Z FullBlock.t) :=
  let '(curr, chain) := s in
  if (fork <? FullBlock.height curr) && (0 <? FullBlock.height curr) then
    b ← of_opt AssertionError (fst <$> bm !! FullBlock.prev_header_hash curr);
    Ok (inl (b, <[FullBlock.height b := b]> chain))
  else Ok (inr chain).
Definition reorg_chain_spec (c : Chain) (curr : AnyBlock.t) (chain : gmap Z FullBlock.t) : res (gmap Z FullBlock.t) :=
  peak ← get_peak c;
  match peak with
  | Some peak =>
      if chain_contains_block c (AnyBlock.prev_header_hash curr) then
        b ← of_opt AssertionError (fst <$> bm !! AnyBlock.prev_header_hash curr);
        r ← of_opt AssertionError (snd <$> bm !! AnyBlock.prev_header_hash curr);
        fork ← find_fork_point_in_chain (chain_interface c) fuel peak r;
        loop fuel (to_fork_spec fork) (b, <[FullBlock.height b := b]> chain)
      else Ok chain
  | None => Ok chain
  end.
Definition path_ref_spec (c : Chain) (h : Z) : res GeneratorArg :=
  hh ← chain_height_to_hash c h; b ← of_opt AssertionError (fst <$> bm !! hh); generator_arg b.
Definition reorg_ref_spec (c : Chain) (chain : gmap Z FullBlock.t) (h : Z) : res GeneratorArg :=
  match chain !! h with Some b => generator_arg b | None => path_ref_spec c h end.
Definition generator_spec (c : Chain) (additional : gmap bytes FullBlock.t) (block : AnyBlock.t) : res (option BlockGenerator) :=
  let refs := AnyBlock.transactions_generator_ref_list block in
  match AnyBlock.transactions_generator block with
  | None => assert_ (bool_decide (refs = [])) ;; Ok None
  | Some g =>
      if bool_decide (refs = []) then Ok (Some {| program := g; generator_args := [] |})
      else
        in_path ← (if chain_contains_block c (AnyBlock.prev_header_hash block) then
                     b ← chain_block_record c (AnyBlock.prev_header_hash block);
                     h ← chain_height_to_hash c (height b);
                     Ok (bool_decide (h = AnyBlock.prev_header_hash block))
                   else Ok false);
        args ← (if (in_path : bool) then for_each (path_ref_spec c) refs
                else
                  '(curr, chain) ← loop fuel (additional_body additional) (block, ∅);
                  chain ← reorg_chain_spec c curr chain;
                  for_each (reorg_ref_spec c chain) refs);
        assert_ (bool_decide (length args = length refs)) ;;
        Ok (Some {| program := g; generator_args := args |})
  end.
Definition tx_changes_spec (c : Chain) (block : FullBlock.t) (npc_result : option NPCResult) :
    res (list bytes * list Coin * option NPCResult) :=
  if FullBlock.is_transaction_block block then
    match FullBlock.transactions_generator block with
    | Some _ =>
        npc ← match npc_result with
              | Some r => Ok r
              | None => g ← generator_spec c ∅ (AnyBlock.Full block);
                        g ← of_opt AssertionError g;
                        Ok (get_name_puzzle_conditions g (MAX_BLOCK_COST_CLVM constants) (COST_PER_BYTE constants) false)
              end;
        '(rems, adds) ← tx_removals_and_additions (npc_list npc);
        Ok (rems, adds, Some npc)
    | None => Ok ([], [], None)
    end
  else Ok ([], [], None).
Definition collect_spec (c : Chain) (fork : Z) (s : bytes * list (FullBlock.t * BlockRecord)) :
    res (bytes * list (FullBlock.t * BlockRecord) + list (FullBlock.t * BlockRecord)) :=
  let '(curr, l) := s in
  continue ← (if fork <? 0 then Ok true
              else i ← uint32 fork; h ← chain_height_to_hash c i; Ok (bool_decide (curr ≠ h)));
  if (continue : bool) then
    b ← of_opt AssertionError (fst <$> bm !! curr);
    r ← of_opt AssertionError (snd <$> bm !! curr);
    if FullBlock.height b =? 0 then Ok (inr (l ++ [(b, r)])) else Ok (inl (prev_hash r, l ++ [(b, r)]))
  else Ok (inr l).

(** ** The methods compute them *)
Lemma full_block_reads hh : returns reading (on_blocks (get_full_block hh)) (Ok (fst <$> bm !! hh)).
Proof.
  intros st [Hs Hc]. unfold on_blocks, st_part. destruct (get_full_block_ok (st_blocks st) bm pk hh Hs) as (s1&->&Hs1).
  by eexists.
Qed.

Lemma record_reads hh : returns reading (λ s, (get_block_record hh (st_blocks s), s)) (Ok (snd <$> bm !! hh)).
Proof. intros st [Hs Hc]. exists st. by rewrite (get_block_record_ok _ _ _ _ Hs). Qed.

(** [x ← m; f x] where [m] only reads what is there *)
Lemma returns_read {A B} (m : ST Stores A) (a : A) (f : A → ST Stores B) (r : res B) :
  returns reading m (Ok a) → returns reading (f a) r → returns reading (x ← m; f x) r.
Proof. intros Hm Hf. apply (returns_bind reading m (Ok a) f (λ _, r) Hm). by intros x [= <-]. Qed.

Lemma to_fork_reads fork t : returns reading (to_fork_body fork t) (to_fork_spec fork t).
Proof.
  destruct t as [curr chain]. unfold to_fork_body, to_fork_spec. destruct (_ && _); [|apply returns_ret].
  eapply returns_read; [apply full_block_reads|]. apply returns_bind; [apply returns_res|]. intros b _. apply returns_ret.
Qed.

Lemma reorg_chain_reads c curr chain : returns reading (reorg_chain_of fuel c curr chain) (reorg_chain_spec c curr chain).
Proof.
  unfold reorg_chain_of, reorg_chain_spec. apply returns_bind; [apply returns_res|]. intros [peak|] _; [|apply returns_ret].
  destruct (chain_contains_block _ _); [|apply returns_ret].
  eapply returns_read; [apply record_reads|]. eapply returns_read; [apply full_block_reads|].
  apply returns_bind; [apply returns_res|]. intros b _. apply returns_bind; [apply returns_res|]. intros r _.
  apply returns_bind; [apply returns_res|]. intros fork _. apply returns_loop, to_fork_reads.
Qed.

Lemma path_ref_reads c h : returns reading (ref_from_path c h) (path_ref_spec c h).
Proof.
  unfold ref_from_path, path_ref_spec. apply returns_bind; [apply returns_res|]. intros hh _.
  eapply returns_read; [apply full_block_reads|]. apply returns_bind; [apply returns_res|]. intros b _. apply returns_res.
Qed.

Lemma generator_reads c additional block :
  returns reading (get_block_generator fuel c additional block) (generator_spec c additional block).
Proof.
  unfold get_block_generator, generator_spec. destruct (AnyBlock.transactions_generator block) as [g|].
  - destruct (bool_decide _); [apply returns_ret|]. apply returns_bind; [apply returns_res|]. intros in_path _.
    apply returns_bind.
    + destruct in_path; [apply returns_each, path_ref_reads|]. apply returns_bind; [apply returns_res|]. intros [curr chain] _.
      apply returns_bind; [apply reorg_chain_reads|]. intros ch _. apply returns_each. intros h.
      unfold ref_from_reorg, reorg_ref_spec. destruct (ch !! h); [apply returns_res|apply path_ref_reads].
    + intros args _. apply returns_bind; [apply returns_res|]. intros u _. apply returns_ret.
  - apply returns_bind; [apply returns_res|]. intros u _. apply returns_ret.
Qed.

Lemma tx_changes_reads c block npc :
  returns reading (get_tx_removals_and_additions constants fuel c block npc) (tx_changes_spec c block npc).
Proof.
  unfold get_tx_removals_and_additions, tx_changes_spec. destruct (FullBlock.is_transaction_block block); [|apply returns_ret].
  destruct (FullBlock.transactions_generator block); [|apply returns_ret]. apply returns_bind.
  - destruct npc; [apply returns_ret|]. apply returns_bind; [apply generator_reads|]. intros g' _.
    apply returns_bind; [apply returns_res|]. intros g'' _. apply returns_ret.
  - intros r _. apply returns_bind; [apply returns_res|]. intros [rems adds] _. apply returns_ret.
Qed.

Lemma collect_reads c fork t : returns reading (collect_body c fork t) (collect_spec c fork t).
Proof.
  destruct t as [curr l]. unfold collect_body, collect_spec. apply returns_bind; [apply returns_res|]. intros [] _; [|apply returns_ret].
  eapply returns_read; [apply full_block_reads|]. eapply returns_read; [apply record_reads|].
  apply returns_bind; [apply returns_res|]. intros b _. apply returns_bind; [apply returns_res|]. intros r _. cbv zeta.
  destruct (FullBlock.height b =? 0); apply returns_ret.
Qed.
End Reads.

(** ** The path in memory

    The blocks a stored block descends from, itself included, and a path from genesis
    in memory that holds exactly those of one block. *)
Inductive ancestor (bm : abs_blocks) : bytes → Z → bytes → Prop :=
  | ancestor_self hh b r : bm !! hh = Some (b, r) → ancestor bm hh (height r) hh
  | ancestor_parent hh b r h x :
      bm !! hh = Some (b, r) → height r ≠ 0 → ancestor bm (prev_hash r) h x → ancestor bm hh h x.
Definition path_to (bm : abs_blocks) (c : Chain) (hh : bytes) : Prop :=
  ∀ h x, mem_height_to_hash c !! h = Some x ↔ ancestor bm hh h x.

(** The records in memory are those stored. *)
Definition memory_stored (bm : abs_blocks) (c : Chain) : Prop :=
  ∀ hh r, mem_records c !! hh = Some r → ∃ b, bm !! hh = Some (b, r).

Section Ancestors.
Implicit Types (bm : abs_blocks).

Lemma ancestor_inv bm hh b r h x : closed bm → bm !! hh = Some (b, r) → ancestor bm hh h x →
  (h = height r ∧ x = hh) ∨ (height r ≠ 0 ∧ h < height r ∧ ancestor bm (prev_hash r) h x).
Proof.
  intros Hc Eb Ha. revert b r Eb. induction Ha as [hh1 b1 r1 E1|hh1 b1 r1 h x E1 Hz Ha IH]; intros b r Eb.
  - rewrite E1 in Eb. injection Eb as -> ->. by left.
  - rewrite E1 in Eb. injection Eb as -> ->. right. split; [done|]. split; [|done].
    destruct (Hc _ _ _ E1) as [_ Hp]. destruct (Hp Hz) as (b'&r'&E'&Hr'). destruct (IH _ _ E') as [[-> _]|(_&?&_)]; lia.
Qed.

Lemma ancestor_stored bm hh h x : ancestor bm hh h x → ∃ b r, bm !! x = Some (b, r) ∧ height r = h.
Proof. induction 1; eauto. Qed.

(** Below an ancestor the ancestors are its own. *)
Lemma ancestor_below bm hh f y : closed bm → ancestor bm hh f y →
  ∀ h x, h <= f → ancestor bm hh h x ↔ ancestor bm y h x.
Proof.
  intros Hc. induction 1 as [hh b r E|hh b r f y E Hz Ha IH]; intros h x Hh; [done|]. rewrite <- IH by done.
  assert (Hf : f < height r).
  { destruct (ancestor_inv _ _ _ _ _ _ Hc E (ancestor_parent _ _ _ _ _ _ E Hz Ha)) as [[-> ->]|(_&?&_)]; [|done].
    destruct (Hc _ _ _ E) as [_ Hp]. destruct (Hp Hz) as (b'&r'&E'&Hr').
    destruct (ancestor_inv _ _ _ _ _ _ Hc E' Ha) as [[? _]|(_&?&_)]; lia. }
  split; [|by eapply ancestor_parent]. intros Ha'. destruct (ancestor_inv _ _ _ _ _ _ Hc E Ha') as [[-> _]|(_&_&?)]; [lia|done].
Qed.

Lemma ancestor_mono bm bm' hh h x : bm ⊆ bm' → ancestor bm hh h x → ancestor bm' hh h x.
Proof.
  intros Hs. induction 1 as [hh b r E|hh b r h x E Hz _ IH]; [eapply ancestor_self|eapply ancestor_parent]; eauto using lookup_weaken.
Qed.

(** The ancestors of a block that was stored before are what they were. *)
Lemma ancestor_same bm bm' hh b r h x : closed bm → bm ⊆ bm' → bm !! hh = Some (b, r) → ancestor bm' hh h x → ancestor bm hh h x.
Proof.
  intros Hc Hs Eb Ha. revert b r Eb. induction Ha as [hh b' r' E|hh b' r' h x E Hz Ha IH]; intros b r Eb.
  all: pose proof (lookup_weaken _ _ _ _ Eb Hs) as E'; rewrite E in E'; injection E' as -> ->.
  - by eapply ancestor_self.
  - destruct (Hc _ _ _ Eb) as [_ Hp]. destruct (Hp Hz) as (b1&r1&E1&_). eapply ancestor_parent; eauto.
Qed.

Lemma closed_insert bm hh b r b' r' : closed bm → bm ⊆ <[hh := (b, r)]> bm →
  bm !! prev_hash r = Some (b', r') → height r = height r' + 1 → closed (<[hh := (b, r)]> bm).
Proof.
  intros Hc Hs Ep Hh hh1 b1 r1 E1. destruct (decide (hh1 = hh)) as [->|Hn].
  - rewrite lookup_insert_eq in E1. injection E1 as <- <-. destruct (Hc _ _ _ Ep) as [? _]. split; [lia|].
    intros _. exists b', r'. split; [by eapply lookup_weaken|lia].
  - rewrite lookup_insert_ne in E1 by done. destruct (Hc _ _ _ E1) as [? Hp]. split; [done|]. intros Hz.
    destruct (Hp Hz) as (b2&r2&E2&?). exists b2, r2. split; [by eapply lookup_weaken|done].
Qed.
End Ancestors.

(** ** A new peak *)
Section NewPeak.
Context `{Packages} `{Sha256} `{StdHash} `{ClvmCasts} `{ClvmRunner} `{Bls} `{SetIter} `{VDF : Vdf} `{PlotTools}.
Context (constants : ConsensusConstants) (fuel : nat) (create_puzzlehash_for_pk : bytes → bytes) (time_time : float).
Implicit Types (bm : gmap bytes (FullBlock.t * BlockRecord)) (pk : option bytes) (m : gmap bytes CoinRecord).

Lemma on_stores_reads {A} bm pk (m : ST Stores A) (r r' : res A) s s' :
  (∀ co, returns (reading bm pk co) m r) → stores (st_blocks (bc_stores s)) bm pk →
  on_stores m s = (r', s') →
  r' = r ∧ stores (st_blocks (bc_stores s')) bm pk ∧ st_coins (bc_stores s') = st_coins (bc_stores s)
  ∧ bc_chain s' = bc_chain s ∧ bc_hints s' = bc_hints s.
Proof.
  intros Hm Hs E. unfold on_stores, st_part in E. destruct (m (bc_stores s)) as [r1 st] eqn:Em.
  destruct (returns_inv _ _ _ _ _ _ (Hm (st_coins (bc_stores s))) (conj Hs eq_refl) Em) as [-> [Hs' Hc']].
  by injection E as <- <-.
Qed.

Lemma on_coins_part {A} (m : ST CoinStore A) s r s' :
  on_stores (on_coins m) s = (r, s') →
  (r, st_coins (bc_stores s')) = m (st_coins (bc_stores s)) ∧ st_blocks (bc_stores s') = st_blocks (bc_stores s)
  ∧ bc_chain s' = bc_chain s.
Proof.
  unfold on_stores, on_coins, st_part. destruct (m (st_coins (bc_stores s))) as [r1 c1].
  intros [= <- <-]. done.
Qed.

Lemma on_blocks_part {A} (m : ST BlockStore.BlockStore A) s r s' :
  on_stores (on_blocks m) s = (r, s') →
  (r, st_blocks (bc_stores s')) = m (st_blocks (bc_stores s)) ∧ st_coins (bc_stores s') = st_coins (bc_stores s)
  ∧ bc_chain s' = bc_chain s ∧ bc_hints s' = bc_hints s.
Proof.
  unfold on_stores, on_blocks, st_part. destruct (m (st_blocks (bc_stores s))) as [r1 c1].
  intros [= <- <-]. done.
Qed.

(** The effect of a block of the new chain on the ledger *)
Definition effect_of bm (c : Chain) (new_hash : bytes) (npc_result : option NPCResult) (x : FullBlock.t * BlockRecord) :
    res (option Effect) :=
  let '(block, record) := x in
  if FullBlock.is_transaction_block block then
    '(rems, adds, _) ← tx_changes_spec constants fuel bm c block
                         (if bool_decide (header_hash record = new_hash) then npc_result else None);
    ftb ← of_opt AssertionError (FullBlock.foliage_transaction_block block);
    rewards ← FullBlock.get_included_reward_coins block;
    Ok (Some {| ef_height := FullBlock.height block; ef_timestamp := FoliageTransactionBlock.timestamp ftb;
                ef_rewards := set_iter rewards; ef_additions := adds; ef_removals := rems |})
  else Ok None.

Lemma st_each_coins names (co : CoinStore) m : implements co m →
  ∃ co', st_each get_coin_record names co = (Ok ((λ n, m !! n) <$> names), co') ∧ implements co' m.
Proof.
  revert co. induction names as [|n names IH]; intros co Hc; [by exists co|]. cbn [st_each].
  destruct (get_coin_record_ok co m n Hc) as (c1&E1&Hc1). rewrite (st_bind_Ok _ _ _ _ _ E1).
  destruct (IH c1 Hc1) as (c2&E2&Hc2). rewrite (st_bind_Ok _ _ _ _ _ E2). by exists c2.
Qed.

Lemma apply_block_inv bm pk c new_hash npc acc x s acc' s' :
  stores (st_blocks (bc_stores s)) bm pk →
  apply_block constants fuel c new_hash npc acc x s = (Ok acc', s') →
  stores (st_blocks (bc_stores s')) bm pk ∧ bc_chain s' = bc_chain s ∧
  ∃ o, effect_of bm c new_hash npc x = Ok o ∧
    ∀ m, implements (st_coins (bc_stores s)) m → (∀ e, o = Some e → effect_fits m e) →
      implements (st_coins (bc_stores s')) (match o with Some e => apply_effect m e | None => m end).
Proof.
  intros Hs E. destruct acc as [states hints], x as [block record]. unfold apply_block in E. cbn [effect_of].
  destruct (FullBlock.is_transaction_block block) eqn:Etx.
  2:{ apply st_ret_inv in E as [_ ->]. split_and!; [done|done|]. exists None. by split_and!. }
  apply st_bind_inv in E as ([[rems adds] npc_res]&s1&E1&E).
  eapply on_stores_reads in E1 as (Er&Hs1&Hc1&Hch1&_); [|intros co; by apply tx_changes_reads|done].
  rewrite <- Er. cbn [mbind res_bind].
  apply st_bind_inv in E as (ftb&s2&E2&E). apply st_res_inv in E2 as [-> ->]. cbn [mbind res_bind].
  apply st_bind_inv in E as (rewards&s3&E3&E). apply st_res_inv in E3 as [-> ->]. cbn [mbind res_bind].
  apply st_bind_inv in E as (added&s4&E4&E). apply on_coins_part in E4 as (E4&Hb4&Hch4).
  apply st_bind_inv in E as (removed&s5&E5&E). apply on_coins_part in E5 as (E5&Hb5&Hch5).
  apply st_bind_inv in E as (removed'&s6&E6&E). apply st_res_inv in E6 as [_ ->].
  assert (st_blocks (bc_stores s') = st_blocks (bc_stores s5) ∧ st_coins (bc_stores s') = st_coins (bc_stores s5)
          ∧ bc_chain s' = bc_chain s5) as (Hb'&Hc'&Hch').
  { destruct npc_res as [npc_res|]; [|by apply st_ret_inv in E as [_ ->]].
    apply st_bind_inv in E as (hl&s7&E7&E). apply st_res_inv in E7 as [_ ->].
    apply st_bind_inv in E as (u&s8&E8&E). injection E8 as _ <-.
    apply st_bind_inv in E as (hs&s9&E9&E). apply st_res_inv in E9 as [_ ->]. by apply st_ret_inv in E as [_ ->]. }
  split_and!; [by rewrite Hb', Hb5, Hb4|by rewrite Hch', Hch5, Hch4|].
  eexists. split; [done|]. intros m Hm Hfit. rewrite Hc'. specialize (Hfit _ eq_refl).
  unfold effect_fits in Hfit. cbn [ef_height ef_timestamp ef_rewards ef_additions ef_removals] in Hfit.
  rewrite <- Hc1 in Hm. destruct (new_block_ok _ _ _ _ rems _ m Hm Hfit) as (c4&E4'&Hm4).
  rewrite E4' in E4. injection E4 as _ Hc4. destruct (st_each_coins rems c4 _ Hm4) as (c5&E5'&Hm5).
  rewrite Hc4 in E5. rewrite E5' in E5. injection E5 as _ Hc5. rewrite Hc5. exact Hm5.
Qed.

Lemma apply_blocks_inv bm pk c new_hash npc l : ∀ acc s acc' s',
  stores (st_blocks (bc_stores s)) bm pk →
  st_fold (apply_block constants fuel c new_hash npc) acc l s = (Ok acc', s') →
  stores (st_blocks (bc_stores s')) bm pk ∧ bc_chain s' = bc_chain s ∧
  ∃ es, for_each (effect_of bm c new_hash npc) l = Ok es ∧
    ∀ m, implements (st_coins (bc_stores s)) m → replay_fits m (omap id es) →
      implements (st_coins (bc_stores s')) (replay m (omap id es)).
Proof.
  induction l as [|x l IH]; intros acc s acc' s' Hs E; cbn [st_fold] in E.
  { apply st_ret_inv in E as [_ ->]. split_and!; [done|done|]. exists []. by split_and!. }
  apply st_bind_inv in E as (acc1&s1&E1&E). destruct (apply_block_inv _ _ _ _ _ _ _ _ _ _ Hs E1) as (Hs1&Hch1&o&Eo&Ho).
  destruct (IH _ _ _ _ Hs1 E) as (Hs2&Hch2&es&Ees&Hes). split_and!; [done|by rewrite Hch2|].
  exists (o :: es). cbn [for_each]. rewrite Eo, Ees. split; [done|]. intros m Hm Hf.
  destruct o as [e|]; cbn in Hf |- *.
  - destruct Hf as [He Hf]. apply Hes; [|done]. apply Ho; [done|]. by intros e' [= <-].
  - apply Hes; [|done]. by apply Ho.
Qed.

(** The stored blocks from [hh] back to the fork, newest first *)
Definition at_fork (c : Chain) (f : Z) (hh : bytes) : Prop := 0 <= f ∧ mem_height_to_hash c !! f = Some hh.
Inductive fork_path bm (c : Chain) (f : Z) : bytes → list (FullBlock.t * BlockRecord) → Prop :=
  | path_fork hh : at_fork c f hh → fork_path bm c f hh []
  | path_genesis hh b r : ¬ at_fork c f hh → bm !! hh = Some (b, r) → FullBlock.height b = 0 → fork_path bm c f hh [(b, r)]
  | path_step hh b r l : ¬ at_fork c f hh → bm !! hh = Some (b, r) → FullBlock.height b ≠ 0 →
      fork_path bm c f (prev_hash r) l → fork_path bm c f hh ((b, r) :: l).

Lemma collect_spec_path bm c f n : ∀ hh acc l,
  loop n (collect_spec bm c f) (hh, acc) = Ok l → ∃ l', l = acc ++ l' ∧ fork_path bm c f hh l'.
Proof.
  induction n as [|n IH]; intros hh acc l E; [done|]. cbn [loop] in E. apply bind_Ok in E as (r&E1&E).
  unfold collect_spec in E1. apply bind_Ok in E1 as (continue&Ec&E1).
  assert (Hfork : if continue then ¬ at_fork c f hh else at_fork c f hh).
  { unfold at_fork. destruct (Z.ltb_spec f 0) as [Hf|Hf]; [injection Ec as <-; lia|].
    apply bind_Ok in Ec as (i&Ei&Ec). apply bind_Ok in Ec as (h&Eh&[= <-]). apply uint32_Ok in Ei as [-> _]. apply of_opt_Ok in Eh.
    case_bool_decide as Hc; [|by subst]. intros [_ E']. congruence. }
  destruct continue.
  - apply bind_Ok in E1 as (b&Eb&E1). apply bind_Ok in E1 as (r'&Er&E1). apply of_opt_Ok in Eb, Er.
    destruct (bm !! hh) as [[b' rec]|] eqn:Ebm; [|done]. cbn in Eb, Er. injection Eb as ->. injection Er as ->.
    destruct (Z.eqb_spec (FullBlock.height b) 0) as [Hz|Hz]; injection E1 as <-.
    + injection E as <-. eexists. split; [done|]. by apply path_genesis.
    + destruct (IH _ _ _ E) as (l'&->&Hl'). exists ((b, r') :: l'). split; [by rewrite <- app_assoc|]. by apply path_step.
  - injection E1 as <-. injection E as <-. exists []. split; [by rewrite app_nil_r|]. by apply path_fork.
Qed.

Lemma fork_path_same bm c c' f hh l :
  fork_path bm c f hh l → mem_height_to_hash c' = mem_height_to_hash c → fork_path bm c' f hh l.
Proof.
  intros Hp E. assert (Ha : ∀ h, at_fork c' f h ↔ at_fork c f h) by (intros h; unfold at_fork; by rewrite E).
  induction Hp; [apply path_fork|apply path_genesis|apply path_step]; rewrite ?Ha; done.
Qed.

(** A path of two blocks *)
Lemma fork_path_two bm c f hh path b0 r0 b1 r1 :
  bm !! hh = Some (b0, r0) → bm !! prev_hash r0 = Some (b1, r1) → FullBlock.height b0 = 2 → FullBlock.height b1 = 1 →
  at_fork c f (prev_hash r1) → prev_hash r1 ≠ hh → prev_hash r1 ≠ prev_hash r0 →
  fork_path bm c f hh path → path = [(b0, r0); (b1, r1)].
Proof.
  intros E0 E1 Hz0 Hz1 Hf Hn0 Hn1 Hp.
  assert (Hat : ∀ h, prev_hash r1 ≠ h → ¬ at_fork c f h) by (intros h Hn [_ Ha]; destruct Hf as [_ Hf]; congruence).
  inversion Hp as [? Ha|? b r _ Eb Hz|? b r l _ Eb Hz Hl]; subst; [by apply Hat in Ha|exfalso; congruence|].
  rewrite E0 in Eb. injection Eb as <- <-. f_equal.
  inversion Hl as [? Ha|? b r _ Eb Hz'|? b r l' _ Eb Hz' Hl']; subst; [by apply Hat in Ha|exfalso; congruence|].
  rewrite E1 in Eb. injection Eb as <- <-. f_equal. by inversion Hl' as [? Ha|? b r Ha Eb _|? b r l0 Ha Eb _ _].
Qed.

(** The path overwritten by the blocks collected is that of the new block up to its height,
    and what it was above. *)
Definition rewritten (c : Chain) (path : list (FullBlock.t * BlockRecord)) : gmap Z bytes :=
  foldl (λ p b, <[height b := header_hash b]> p) (mem_height_to_hash c) (rev path).*2.

Lemma rewritten_cons c x l : rewritten c (x :: l) = <[height x.2 := header_hash x.2]> (rewritten c l).
Proof. unfold rewritten. cbn [rev]. by rewrite fmap_app, foldl_app. Qed.

Lemma rewritten_path bm bm' c old f : closed bm → closed bm' → bm ⊆ bm' → (∀ hh x, bm' !! hh = Some x → entry_ok hh x) →
  path_to bm c old → ∀ hh path, fork_path bm' c f hh path → ∀ b r, bm' !! hh = Some (b, r) →
  ∀ h x, (h <= height r → rewritten c path !! h = Some x ↔ ancestor bm' hh h x)
    ∧ (height r < h → rewritten c path !! h = mem_height_to_hash c !! h).
Proof.
  intros Hc Hc' Hsub Hent Hold. assert (Hpos : ∀ h x, mem_height_to_hash c !! h = Some x → 0 <= h).
  { intros h x Hx. apply Hold, ancestor_stored in Hx as (b&r&E&<-). by apply (Hc _ _ _ E). }
  induction 1 as [hh [Hf0 Hf]|hh b0 r0 _ E0 Hz|hh b0 r0 l _ E0 Hz _ IH]; intros b r Eb h x.
  - cbn. split; [|done]. intros Hh. apply Hold in Hf. destruct (ancestor_stored _ _ _ _ Hf) as (b1&r1&E1&Hr1).
    pose proof (lookup_weaken _ _ _ _ E1 Hsub) as E1'. rewrite Eb in E1'. injection E1' as -> ->.
    rewrite (Hold h x), (ancestor_below _ _ _ _ Hc Hf) by lia.
    split; [by apply ancestor_mono|by eapply ancestor_same].
  - rewrite E0 in Eb. injection Eb as -> ->. destruct (Hent _ _ E0) as [[_ Hhh] _ _ _ _ Hht]. cbn in Hhh, Hht.
    assert (Hr : height r = 0) by lia. rewrite rewritten_cons. cbn [snd]. rewrite Hhh, Hr. split; intros Hh; [|by rewrite lookup_insert_ne by lia].
    destruct (decide (h = 0)) as [->|Hn].
    + rewrite lookup_insert_eq. split; [intros [= <-]; rewrite <- Hr; by eapply ancestor_self|].
      intros Ha. by destruct (ancestor_inv _ _ _ _ _ _ Hc' E0 Ha) as [[_ ->]|[? _]].
    + rewrite lookup_insert_ne by done. unfold rewritten; cbn. split; [intros Hx%Hpos; lia|].
      intros (b1&r1&E1&<-)%ancestor_stored. destruct (Hc' _ _ _ E1). lia.
  - rewrite E0 in Eb. injection Eb as -> ->. destruct (Hent _ _ E0) as [[_ Hhh] _ _ _ _ Hht]. cbn in Hhh, Hht.
    destruct (Hc' _ _ _ E0) as [_ Hp]. destruct (Hp ltac:(lia)) as (b1&r1&E1&Hr1). destruct (IH _ _ E1 h x) as [IH1 IH2].
    rewrite rewritten_cons. cbn [snd]. rewrite Hhh. split; intros Hh; [|rewrite lookup_insert_ne by lia; apply IH2; lia].
    destruct (decide (h = height r)) as [->|Hn].
    + rewrite lookup_insert_eq. split; [intros [= <-]; by eapply ancestor_self|].
      intros Ha. destruct (ancestor_inv _ _ _ _ _ _ Hc' E0 Ha) as [[_ ->]|(_&?&_)]; [done|lia].
    + rewrite lookup_insert_ne by done. rewrite IH1 by lia. split; [apply (ancestor_parent _ _ _ _ _ _ E0); lia|].
      intros Ha. by destruct (ancestor_inv _ _ _ _ _ _ Hc' E0 Ha) as [[? _]|(_&_&?)].
Qed.

Lemma new_path_exact bm c peak hh block br f path c' : closed bm → memory_stored bm c →
  (∀ h x, <[hh := (block, br)]> bm !! h = Some x → entry_ok h x) → get_peak c = Ok (Some peak) →
  (∀ x, bm !! hh = Some x → x = (block, br)) →
  (∃ p, mem_records c !! prev_hash br = Some p ∧ height br = height p + 1) →
  height peak <= height br → path_to bm c (header_hash peak) → fork_path (<[hh := (block, br)]> bm) c f hh path →
  mem_height_to_hash c' = rewritten c path → path_to (<[hh := (block, br)]> bm) c' hh.
Proof.
  intros Hc Hm Hent Hpk Hnew (p&Hp&Hhp) Hle Hold Hpath Hc'.
  assert (Hsub : bm ⊆ <[hh := (block, br)]> bm).
  { apply map_subseteq_spec. intros h x Hx. destruct (decide (h = hh)) as [->|Hn]; [|by rewrite lookup_insert_ne].
    by rewrite (Hnew _ Hx), lookup_insert_eq. }
  destruct (Hm _ _ Hp) as (bp&Hbp). pose proof (closed_insert _ _ _ _ _ _ Hc Hsub Hbp Hhp) as Hcl.
  assert (Epk : ∃ b, bm !! header_hash peak = Some (b, peak)).
  { unfold get_peak in Hpk. destruct (peak_height c) as [h|]; [|done]. apply bind_Ok in Hpk as (b&Eb&[= ->]).
    apply bind_Ok in Eb as (h0&_&Eb). apply of_opt_Ok in Eb. destruct (Hm _ _ Eb) as (b&E). exists b.
    destruct (Hent _ _ (lookup_weaken _ _ _ _ E Hsub)) as [[_ Hh] _ _ _ _ _]. cbn in Hh. by rewrite Hh. }
  destruct Epk as (b&Epk). intros h x. rewrite Hc'. pose proof (lookup_insert_eq bm hh (block, br)) as Eb.
  destruct (rewritten_path _ _ _ _ _ Hc Hcl Hsub Hent Hold _ _ Hpath _ _ Eb h x) as [Hlow Hhigh].
  destruct (Z.le_gt_cases h (height br)) as [Hh|Hh]; [by apply Hlow|]. rewrite Hhigh by lia.
  split; intros Ha; exfalso.
  - apply Hold in Ha. destruct (ancestor_inv _ _ _ _ _ _ Hc Epk Ha) as [[? _]|(_&?&_)]; lia.
  - destruct (ancestor_inv _ _ _ _ _ _ Hcl Eb Ha) as [[? _]|(_&?&_)]; lia.
Qed.

(** The chain with the summaries after the fork removed *)
Definition summaries_to (f : Z) (c : Chain) : Chain :=
  set_path (mem_height_to_hash c) (filter (λ kv, kv.1 <= f) (mem_summaries c)) c.

Lemma reconsider_peak_inv bm pk br fork npc s ch s' :
  stores (st_blocks (bc_stores s)) bm pk → is_Some (bm !! header_hash br) →
  reconsider_peak constants fuel br false fork npc s = (Ok ch, s') →
  ∃ peak f path es, get_peak (bc_chain s) = Ok (Some peak) ∧ peak_fork fuel (bc_chain s) peak br fork = Ok f
    ∧ fork_path bm (bc_chain s) f (header_hash br) path
    ∧ for_each (effect_of bm (bc_chain s) (header_hash br) npc) (rev path) = Ok es
    ∧ pc_fork_height ch = Some (Z.max f 0) ∧ pc_peak_height ch = Some (height br) ∧ pc_records ch = (rev path).*2
    ∧ stores (st_blocks (bc_stores s')) bm (Some (header_hash br)) ∧ bc_chain s' = summaries_to f (bc_chain s)
    ∧ ∀ m, implements (st_coins (bc_stores s)) m →
        let base := if bool_decide (prev_hash br = header_hash peak) then m else abs_rollback f m in
        replay_fits base (omap id es) → implements (st_coins (bc_stores s')) (replay base (omap id es)).
Proof.
  intros Hs Hbr E. unfold reconsider_peak in E. apply st_bind_inv in E as (peak&s0&E0&E). injection E0 as Epk <-.
  destruct peak as [peak|]; [|done]. apply st_bind_inv in E as (f&s0&E0&E). injection E0 as Ef <-.
  apply st_bind_inv in E as (roll&s1&E1&E).
  assert (bc_chain s1 = bc_chain s ∧ st_blocks (bc_stores s1) = st_blocks (bc_stores s) ∧
    ∀ m, implements (st_coins (bc_stores s)) m →
      implements (st_coins (bc_stores s1)) (if bool_decide (prev_hash br = header_hash peak) then m else abs_rollback f m))
    as (Hc1&Hb1&Hm1).
  { destruct (bool_decide _); [by apply st_ret_inv in E1 as [_ ->]|]. apply on_coins_part in E1 as (E1&Hb1&Hc1).
    split_and!; [done|done|]. intros m Hm. destruct (rollback_ok f _ m Hm) as (l&c1&E1'&Hm1&_). rewrite E1' in E1.
    by injection E1 as _ ->. }
  cbv zeta in E. apply st_bind_inv in E as (u&s2&E2&E). injection E2 as _ <-.
  rewrite (st_bind_Ok _ _ _ _ _ (st_get_eq _)) in E. apply st_bind_inv in E as (path&s3&E3&E).
  assert (Hs1 : stores (st_blocks (bc_stores s1)) bm pk) by by rewrite Hb1.
  eapply (on_stores_reads bm pk) in E3 as (E3&Hs3&Hc3&Hch3&_); [|intros co; apply returns_loop, collect_reads|exact Hs1].
  symmetry in E3. apply collect_spec_path in E3 as (path'&->&Hpath). cbn [app] in E.
  apply st_bind_inv in E as ([states hints]&s4&E4&E).
  eapply apply_blocks_inv in E4 as (Hs4&Hch4&es&Ees&Hm4); [|exact Hs3].
  apply st_bind_inv in E as (u'&s5&E5&E). apply on_blocks_part in E5 as (E5&Hc5&Hch5&_).
  destruct (set_peak_ok _ _ _ _ Hs4 Hbr) as (b5&E5'&Hs5). rewrite E5' in E5. injection E5 as _ Eb5.
  apply st_bind_inv in E as (fk&s6&E6&E). apply st_res_inv in E6 as [Efk ->]. apply uint32_Ok in Efk as [-> _].
  apply st_ret_inv in E as [-> ->]. exists peak, f, path', es. cbn [pc_fork_height pc_peak_height pc_records].
  rewrite Hc1 in *. split_and!; [done|done| |exact Ees|done|done|done| | |].
  - by eapply fork_path_same.
  - by rewrite Eb5.
  - by rewrite Hch5, Hch4, Hch3.
  - intros m Hm Hf. rewrite Hc5. apply Hm4; [|done]. rewrite Hc3. by apply Hm1.
Qed.

Lemma reconsider_peak_changes br fork npc s ch s' :
  reconsider_peak constants fuel br false fork npc s = (Ok ch, s') →
  is_Some (pc_fork_height ch) ∧ pc_peak_height ch = Some (height br).
Proof.
  unfold reconsider_peak. intros E. apply st_bind_inv in E as ([peak|]&s0&_&E); [|done].
  apply st_bind_inv in E as (f&s1&_&E). apply st_bind_inv in E as (roll&s2&_&E). cbv zeta in E.
  apply st_bind_inv in E as (u&s3&_&E). rewrite (st_bind_Ok _ _ _ _ _ (st_get_eq _)) in E.
  apply st_bind_inv in E as (path&s4&_&E). apply st_bind_inv in E as ([states hints]&s5&_&E).
  apply st_bind_inv in E as (u'&s6&_&E). apply st_bind_inv in E as (fk&s7&_&E). apply st_ret_inv in E as [-> _]. by split.
Qed.

Lemma in_transaction_Ok {A} hh (body : ST Blockchain A) s a s' : in_transaction hh body s = (Ok a, s') → body s = (Ok a, s').
Proof. unfold in_transaction. by destruct (body s) as [[]]. Qed.

(** The header and the transactions of a block, from the blocks stored *)
Definition npc_spec bm (c : Chain) (block : FullBlock.t) : res (option NPCResult) :=
  if FullBlock.is_transaction_block block then
    match FullBlock.transactions_generator block with
    | Some _ =>
        g ← generator_spec fuel bm c ∅ (AnyBlock.Full block);
        g ← of_opt AssertionError g;
        ti ← of_opt AssertionError (FullBlock.transactions_info block);
        Ok (Some (get_name_puzzle_conditions g (Z.min (MAX_BLOCK_COST_CLVM constants) (TransactionsInfo.cost ti))
                    (COST_PER_BYTE constants) false))
    | None => Ok None
    end
  else Ok None.

Lemma header_npc_spec bm pk block s hb npc s' :
  stores (st_blocks (bc_stores s)) bm pk →
  header_and_npc constants fuel (bc_chain s) block s = (Ok (inl (hb, npc)), s') → npc_spec bm (bc_chain s) block = Ok npc.
Proof.
  intros Hs E. unfold header_and_npc in E. unfold npc_spec. destruct (FullBlock.is_transaction_block block).
  2:{ apply st_bind_inv in E as (x&s1&_&E). by apply st_ret_inv in E as [[= _ ->] _]. }
  destruct (FullBlock.transactions_generator block).
  2:{ apply st_bind_inv in E as (x&s1&_&E). by apply st_ret_inv in E as [[= _ ->] _]. }
  apply st_bind_inv in E as (g&s1&E1&E). unfold catch_value_error in E1.
  destruct (on_stores _ s) as [o s2] eqn:Eg.
  eapply on_stores_reads in Eg as (Eo&_); [|intros co; by apply generator_reads|exact Hs]. subst o.
  destruct (generator_spec _ _ _ _ _) as [og|e|]; [| |done].
  2:{ destruct e; try discriminate E1. injection E1 as <- _. by apply st_ret_inv in E as [? _]. }
  injection E1 as <- <-. cbn [mbind res_bind]. apply st_bind_inv in E as (g'&s3&E3&E). apply st_res_inv in E3 as [-> ->].
  apply st_bind_inv in E as (ti&s4&E4&E). apply st_res_inv in E4 as [-> ->]. cbn [mbind res_bind].
  apply st_bind_inv in E as ([rems adds]&s5&_&E). apply st_bind_inv in E as (x&s6&_&E). by apply st_ret_inv in E as [[= _ ->] _].
Qed.

Lemma foldl_add_to_path l : ∀ c,
  mem_records (foldl add_to_path c l) = mem_records c ∧
  mem_height_to_hash (foldl add_to_path c l) = foldl (λ p b, <[height b := header_hash b]> p) (mem_height_to_hash c) l.
Proof. induction l as [|b l IH]; intros c; [done|]. cbn [foldl]. by destruct (IH (add_to_path c b)) as [-> ->]. Qed.

Lemma store_block_inv bm pk block hh br fork npc s ch s' :
  FullBlock.height block ≠ 0 → stores (st_blocks (bc_stores s)) bm pk → entry_ok hh (block, br) →
  store_block constants fuel block hh br fork npc s = (Ok ch, s') →
  let bm' := <[hh := (block, br)]> bm in
  ∃ peak f path es, get_peak (bc_chain s) = Ok (Some peak) ∧ peak_fork fuel (bc_chain s) peak br fork = Ok f
    ∧ fork_path bm' (bc_chain s) f hh path
    ∧ for_each (effect_of bm' (bc_chain s) hh npc) (rev path) = Ok es
    ∧ pc_fork_height ch = Some (Z.max f 0)
    ∧ stores (st_blocks (bc_stores s')) bm' (Some hh) ∧ peak_height (bc_chain s') = Some (FullBlock.height block)
    ∧ mem_height_to_hash (bc_chain s')
      = foldl (λ p b, <[height b := header_hash b]> p) (mem_height_to_hash (bc_chain s)) (rev path).*2
    ∧ mem_records (bc_chain s') = <[hh := br]> (mem_records (bc_chain s))
    ∧ ∀ m, implements (st_coins (bc_stores s)) m →
        let base := if bool_decide (prev_hash br = header_hash peak) then m else abs_rollback f m in
        replay_fits base (omap id es) → implements (st_coins (bc_stores s')) (replay base (omap id es)).
Proof.
  intros Hh Hs He E bm'. apply in_transaction_Ok in E. destruct He as [[Hb Ehh] Hblk Hrec Hses Hprev Hht]. cbn in Ehh, Hht.
  apply st_bind_inv in E as (u&s1&E1&E). apply on_blocks_part in E1 as (E1&Hc1&Hch1&_).
  destruct (add_full_block_ok _ _ _ hh block br Hs) as (b1&E1'&Hs1); [done|]. rewrite E1' in E1. injection E1 as _ Eb1.
  rewrite <- Eb1 in Hs1. apply Z.eqb_neq in Hh. rewrite Hh in E.
  apply st_bind_inv in E as (ch'&s2&E2&E). apply st_bind_inv in E as (u'&s3&E3&E). injection E3 as _ <-.
  apply st_ret_inv in E as [-> ->].
  eapply reconsider_peak_inv in E2 as (peak&f&path&es&Epk&Ef&Hpath&Ees&Hfk&Hpk&Hrecs&Hs2&Hch2&Hm2);
    [|exact Hs1|rewrite Ehh, lookup_insert_eq; by eexists].
  rewrite Hch1, Ehh in *. rewrite Hc1 in Hm2. exists peak, f, path, es.
  unfold update_memory. cbn [bc_chain set_chain bc_stores]. rewrite Hpk, Hrecs. cbn [peak_height set_peak_height mem_records mem_height_to_hash].
  destruct (foldl_add_to_path (rev path).*2 (add_block_record br (bc_chain s2))) as [-> ->].
  rewrite Hch2, Hht. split_and!; try done. cbn. by rewrite Ehh.
Qed.
End NewPeak.

(** ** A block that is not added *)
Section NotAdded.
Context `{Packages} `{Sha256} `{StdHash} `{ClvmCasts} `{ClvmRunner} `{Bls} `{SetIter} `{VDF : Vdf} `{PlotTools}.
Context (constants : ConsensusConstants) (fuel : nat).

(** The memory but for the summaries *)
Definition memory_kept (s s' : Blockchain) : Prop :=
  mem_records (bc_chain s') = mem_records (bc_chain s) ∧ heights_in_cache (bc_chain s') = heights_in_cache (bc_chain s)
  ∧ mem_height_to_hash (bc_chain s') = mem_height_to_hash (bc_chain s) ∧ peak_height (bc_chain s') = peak_height (bc_chain s).
#[local] Instance memory_kept_preorder : PreOrder memory_kept.
Proof.
  split; [by intros s|]. intros s1 s2 s3 (A1&A2&A3&A4) (B1&B2&B3&B4). unfold memory_kept. split_and!; congruence.
Qed.

Lemma on_stores_memory {A} (m : ST Stores A) : keeps memory_kept (on_stores m).
Proof. apply (keeps_part _ (λ _ _, True)); [by intros s p _|done]. Qed.
Lemma chain_read_memory {A} (f : Chain → res A) : keeps memory_kept (chain_read f).
Proof. by apply keeps_still; [apply _|]. Qed.
Lemma hints_memory f : keeps memory_kept (st_modify (λ s, set_hints (f s) s)).
Proof. by intros s. Qed.
Hint Resolve on_stores_memory chain_read_memory hints_memory : keeps.

Lemma reconsider_memory br g fork npc : keeps memory_kept (reconsider_peak constants fuel br g fork npc).
Proof.
  unfold reconsider_peak, reconsider_genesis. keep; [by intros s|].
  apply st_fold_keeps; [apply _|]. unfold apply_block. keep.
Qed.

(** A transaction that fails leaves the tables and the path in memory as they were. *)
Definition rolled_back (s s' : Blockchain) : Prop :=
  coin_record_db (st_coins (bc_stores s')) = coin_record_db (st_coins (bc_stores s))
  ∧ full_blocks (st_blocks (bc_stores s')) = full_blocks (st_blocks (bc_stores s))
  ∧ BlockStore.block_records (st_blocks (bc_stores s')) = BlockStore.block_records (st_blocks (bc_stores s))
  ∧ bc_hints s' = bc_hints s ∧ memory_kept s s'.

Lemma store_block_fails block hh br fork npc s o s' :
  store_block constants fuel block hh br fork npc s = (o, s') → (∀ ch, o ≠ Ok ch) → rolled_back s s'.
Proof.
  unfold store_block, in_transaction. intros E Ho.
  destruct ((on_stores _ ;; _) s) as [r s1] eqn:Eb.
  assert (memory_kept s s1 ∨ ∃ ch, r = Ok ch) as [Hk|[ch ->]]; [| |by injection E as <- _; destruct (Ho ch)].
  { apply (keeps_step memory_kept) in Eb as [(u&s2&_&K2&Eb)|[K _]]; [|by left|auto with keeps].
    apply (keeps_step memory_kept) in Eb as [(ch&s3&_&K3&Eb)|[K _]]; [| |apply reconsider_memory].
    - right. exists ch. unfold mbind, st_bind, chain_modify, st_modify in Eb. by injection Eb as <- _.
    - left. by etrans. }
  destruct r as [ch|e|]; [injection E as <- _; by destruct (Ho ch)| |]; injection E as _ <-.
  all: unfold rolled_back; split_and!; try done.
Qed.
End NotAdded.

(** The block was not written to the stores. *)
Definition not_stored (r : Received) : Prop := rb_result r ≠ NEW_PEAK ∧ rb_result r ≠ ADDED_AS_ORPHAN.

(** C20. A block that is turned down as invalid, disconnected or already known leaves the
    chain in memory, the hints and every table as they were, and the caches of the stores
    hold only what the tables hold. *)
Theorem rejected_block_keeps_state `{Packages} `{Sha256} `{StdHash} `{ClvmCasts} `{ClvmRunner} `{Bls} `{SetIter} `{Vdf}
    `{PlotTools} (constants : ConsensusConstants) (fuel : nat) (create_puzzlehash_for_pk : bytes → bytes) (time_time : float)
    (block : FullBlock.t) (pre : option PreValidationResult) (fork : option Z) (s s' : Blockchain) (r : Received) :
  receive_block constants fuel create_puzzlehash_for_pk time_time block pre fork s = (Ok r, s') →
  not_stored r → chain_kept s s'.
Proof.
  intros E [Hn Ha]. apply receive_block_cases in E as [[Hk _]|(hh&br&npc&s1&o1&_&_&Eo)]; [done|].
  destruct o1 as [ch|e|]; [|done|done]. injection Eo as ->. unfold received in *. by destruct (pc_fork_height ch).
Qed.

(** C7. When adding a block raises an exception, no table is changed, nor the records, the
    path from genesis and the peak in memory. *)
Theorem failed_block_rolls_back `{Packages} `{Sha256} `{StdHash} `{ClvmCasts} `{ClvmRunner} `{Bls} `{SetIter} `{Vdf}
    `{PlotTools} (constants : ConsensusConstants) (fuel : nat) (create_puzzlehash_for_pk : bytes → bytes) (time_time : float)
    (block : FullBlock.t) (pre : option PreValidationResult) (fork : option Z) (s s' : Blockchain) (e : exn) :
  receive_block constants fuel create_puzzlehash_for_pk time_time block pre fork s = (Raise e, s') → rolled_back s s'.
Proof.
  intros E. apply receive_block_cases in E as [[Hk _]|(hh&br&npc&s1&o1&Hchk&Est&Eo)].
  - destruct Hk as ([[Hdb _] [Hfb Hrec _]]&Hch&Hh&_). unfold rolled_back, memory_kept. by rewrite Hch.
  - destruct (cd_kept _ _ _ _ _ _ _ _ _ _ Hchk) as ([[Hdb _] [Hfb Hrec _]]&Hch&Hh&_).
    apply store_block_fails in Est; [|by intros ch ->].
    destruct Est as (E1&E2&E3&E4&E5). unfold rolled_back, memory_kept in *. rewrite Hch in E5. split_and!; [congruence..|tauto|tauto|tauto|tauto].
Qed.

(** The record [br] is at the height of the peak in memory. *)
Definition at_peak `{Bls} (br : BlockRecord) (s : Blockchain) : Prop := peak_height (bc_chain s) = Some (height br).

(** Whatever its weight, a block after genesis that passes the checks becomes the peak:
    the result [ADDED_AS_ORPHAN] is never returned for it. *)
Theorem added_block_is_peak `{Packages} `{Sha256} `{StdHash} `{ClvmCasts} `{ClvmRunner} `{Bls} `{SetIter} `{Vdf}
    `{PlotTools} (constants : ConsensusConstants) (fuel : nat) (create_puzzlehash_for_pk : bytes → bytes) (time_time : float)
    (block : FullBlock.t) (pre : option PreValidationResult) (fork : option Z) (s s' : Blockchain) (r : Received) :
  receive_block constants fuel create_puzzlehash_for_pk time_time block pre fork s = (Ok r, s') →
  FullBlock.height block ≠ 0 → ¬ turned_down r →
  rb_result r = NEW_PEAK ∧ ∃ hh br npc s1, checked constants fuel block pre fork s hh br npc s1
    ∧ at_peak br s'.
Proof.
  intros E Hh Hr. apply receive_block_cases in E as [[_ Ht]|(hh&br&npc&s1&o1&Hchk&Est&Eo)]; [by destruct (Hr (Ht r eq_refl))|].
  destruct o1 as [ch|e|]; [|done|done]. injection Eo as ->. apply in_transaction_Ok in Est. apply Z.eqb_neq in Hh. rewrite Hh in Est.
  apply st_bind_inv in Est as (u&s2&_&Est). apply st_bind_inv in Est as (ch'&s3&Er&Est).
  apply st_bind_inv in Est as (u'&s4&E4&Est). injection E4 as _ <-. apply st_ret_inv in Est as [-> ->].
  apply reconsider_peak_changes in Er as [[f Hf] Hp]. unfold received. rewrite Hf. split; [done|]. exists hh, br, npc, s1.
  split; [done|]. unfold at_peak. cbn. unfold update_memory. by rewrite Hp.
Qed.

(** [validate_unfinished_block] as it is called checks no proof of time: its outcome
    does not depend on the VDF verifier. *)
Theorem unfinished_vdfs_unchecked `{Packages} `{Sha256} `{StdHash} `{ClvmCasts} `{ClvmRunner} `{Bls} `{SetIter} `{PlotTools}
    (verifier1 verifier2 : Vdf) (constants : ConsensusConstants) (fuel : nat) (create_puzzlehash_for_pk : bytes → bytes)
    (time_time : float) (block : UnfinishedBlock.t) (npc_result : option NPCResult) (s : Blockchain) :
  validate_unfinished_block (VDF := verifier1) constants fuel create_puzzlehash_for_pk time_time block npc_result true s
  = validate_unfinished_block (VDF := verifier2) constants fuel create_puzzlehash_for_pk time_time block npc_result true s.
Proof. reflexivity. Qed.

(** C1. When a block heavier than the peak is added on top of a chain, the coin store that
    held the ledger of the old peak holds the ledger of the new one: the effects of the
    old chain up to the fork, then those of the stored blocks from the fork to the new
    block in order.  The block store gets the block and marks it as the peak.  If the
    block is also no lower than the old peak, the path from genesis in memory, which held
    exactly the old peak and its ancestors, each at its height, holds exactly the new
    block and its ancestors. *)
Theorem new_peak_keeps_ledger `{Packages} `{Sha256} `{StdHash} `{ClvmCasts} `{ClvmRunner} `{Bls} `{SetIter} `{Vdf} `{PlotTools}
    (constants : ConsensusConstants) (fuel : nat) (create_puzzlehash_for_pk : bytes → bytes) (time_time : float)
    (block : FullBlock.t) (pre : option PreValidationResult) (fork : option Z)
    (bm : gmap bytes (FullBlock.t * BlockRecord)) (pk : option bytes) (l l' : list Effect)
    (s s' : Blockchain) (r : Received) :
  stores (st_blocks (bc_stores s)) bm pk → implements (st_coins (bc_stores s)) (replay ∅ (l ++ l')) →
  replay_fits ∅ (l ++ l') → replay_spends ∅ (l ++ l') →
  (∀ p, get_peak (bc_chain s) = Ok (Some p) →
     weight p < FullBlock.weight block ∧ Forall (λ e, ef_height e <= height p) (l ++ l')) →
  FullBlock.height block ≠ 0 →
  typed_chain constants (chain_interface (bc_chain s)) → well_formed block →
  (∀ p req, pre = Some p → pv_required_iters p = Some req → 0 <= req < 2 ^ 64) →
  receive_block constants fuel create_puzzlehash_for_pk time_time block pre fork s = (Ok r, s') → ¬ turned_down r →
  ∃ hh br npc peak f path es, let bm' := <[hh := (block, br)]> bm in
    block_header_hash block = Ok hh
    ∧ (∃ req, (∀ p, pre = Some p → pv_required_iters p = Some req)
         ∧ block_to_block_record constants (chain_interface (bc_chain s)) fuel req block = Ok br)
    ∧ (match pre with Some p => npc = pv_npc_result p | None => npc_spec constants fuel bm (bc_chain s) block = Ok npc end)
    ∧ get_peak (bc_chain s) = Ok (Some peak) ∧ peak_fork fuel (bc_chain s) peak br fork = Ok f
    ∧ fork_path bm' (bc_chain s) f hh path
    ∧ for_each (effect_of constants fuel bm' (bc_chain s) hh npc) (rev path) = Ok es
    ∧ rb_result r = NEW_PEAK ∧ rb_fork_height r = Some (Z.max f 0)
    ∧ stores (st_blocks (bc_stores s')) bm' (Some hh)
    ∧ peak_height (bc_chain s') = Some (FullBlock.height block)
    ∧ (height peak <= FullBlock.height block → closed bm → memory_stored bm (bc_chain s) →
       (∀ x, bm !! hh = Some x → x = (block, br)) →
       path_to bm (bc_chain s) (header_hash peak) → path_to bm' (bc_chain s') hh)
    ∧ (Forall (λ e, ef_height e <= f) l → Forall (λ e, f < ef_height e) l' → 0 <= f ∨ l = [] →
       replay_fits (replay ∅ l) (omap id es) → implements (st_coins (bc_stores s')) (replay ∅ (l ++ omap id es))).
Proof.
  intros Hs Hm Hfits Hspends Hpeak Hh Hty Hwf Hpre E Hr. apply receive_block_cases in E as [[_ Ht]|E]; [by destruct (Hr (Ht r eq_refl))|].
  destruct E as (hh&br&npc&s1&o1&Hchk&Est&Eo). destruct o1 as [ch|e|]; [|done|done]. injection Eo as ->.
  destruct Hchk as [Ehh _ Hprev (req&Hreq&Hreq'&Ebr) Hnpc _ (Hst&Hch&_)].
  assert (Hrange : 0 <= req < 2 ^ 64).
  { destruct pre as [p|]; [by eapply Hpre, Hreq|]. specialize (Hreq' eq_refl). lia. }
  destruct (record_entry_ok _ _ _ _ _ _ Hty Hwf Hrange Ebr) as (_&Ehh'&Hent). rewrite Ehh in Ehh'. apply Ok_inj in Ehh'. rewrite <- Ehh' in Hent.
  destruct Hst as [Hck Hbk]. apply (ck_implements _ _ Hck) in Hm. apply (bk_stores _ _ Hbk) in Hs as Hs1.
  destruct (store_block_inv _ _ _ _ _ _ _ _ _ _ _ _ Hh Hs1 Hent Est) as (peak&f&path&es&Hpk&Hf&Hpath&Hes&Hfk&Hs'&Hph&Hmh&_&Hled).
  destruct Hent as [_ _ _ _ [_ Ep] Hht]. cbn [fst snd] in Ep, Hht.
  rewrite Hch in *. exists hh, br, npc, peak, f, path, es. cbv zeta. unfold received. rewrite Hfk.
  split_and!; try done; [by exists req| | |].
  - unfold npc_from in Hnpc. destruct pre; [done|]. destruct Hnpc as (hb&s2&Hnpc). by eapply header_npc_spec.
  - intros Hle Hcl Hmem Hnew Hold. destruct (Hprev Hh) as (p&Hp&Hhp). rewrite Ep in Hp. rewrite Hht in Hle, Hhp.
    eapply new_path_exact; [done|done|exact (bs_entries _ _ _ Hs')|done|done|by exists p|done|done|exact Hpath|exact Hmh].
  - intros Hl Hl' H0' Hf'. rewrite replay_app. destruct (Hpeak peak Hpk) as [_ Hpeak'']. clear Hpeak. rename Hpeak'' into Hpeak. specialize (Hled _ Hm). cbv zeta in Hled.
    unfold peak_fork in Hf. destruct (bool_decide _).
    + injection Hf as <-. apply Forall_app in Hpeak as [_ Hpeak'].
      destruct l' as [|e l']; [rewrite app_nil_r in Hled; by apply Hled|]. apply Forall_cons in Hl' as [Hl' _].
      apply Forall_cons in Hpeak' as [Hpeak' _]. lia.
    + rewrite rollback_ledger in Hled by done. by apply Hled.
Qed.

(** The generator of a stored block, with its references resolved on the chain [c] *)
Definition chain_gen `{Packages} (fuel : nat) (bm : gmap bytes (FullBlock.t * BlockRecord)) (c : Chain) (b : FullBlock.t) :
    BlockGenerator :=
  match generator_spec fuel bm c ∅ (AnyBlock.Full b) with
  | Ok (Some g) => g
  | _ => {| program := []; generator_args := [] |}
  end.

Lemma chain_generator_law `{Packages} `{Sha256} `{StdHash} `{ClvmCasts} `{ClvmRunner} `{Bls} `{SetIter} fuel c m bm pk :
  generator_law (λ b, get_block_generator fuel c ∅ (AnyBlock.Full b)) m bm pk (chain_gen fuel bm c).
Proof.
  intros b st o st' [Hc Hs] E.
  pose proof (returns_inv _ _ _ _ _ _ (generator_reads fuel bm pk (st_coins st) c ∅ (AnyBlock.Full b)) (conj Hs eq_refl) E)
    as [Eg [Hs' Hc']].
  split; [by split; [rewrite Hc'|]|]. intros g ->. unfold chain_gen. by rewrite <- Eg.
Qed.

(** C2. Every transaction block that [receive_block] adds spends only coins of its own or
    coins unspent in the ledger of its parent, each once, with the right puzzle and its
    conditions met there, and creates coins worth what it spends less the fees; the
    ledger of the parent is that of the coin store rolled back to the fork with the
    stored blocks of the fork applied. *)
Theorem added_block_spends_unspent `{Packages} `{Sha256} `{StdHash} `{ClvmCasts} `{ClvmRunner} `{Bls} `{SetIter} `{Vdf}
    `{PlotTools} (constants : ConsensusConstants) (fuel : nat) (create_puzzlehash_for_pk : bytes → bytes) (time_time : float)
    (block : FullBlock.t) (pre : option PreValidationResult) (fork : option Z)
    (m : gmap bytes CoinRecord) (bm : gmap bytes (FullBlock.t * BlockRecord)) (pk : option bytes)
    (s s' : Blockchain) (r : Received) :
  good m bm pk (bc_stores s) → closed bm →
  receive_block constants fuel create_puzzlehash_for_pk time_time block pre fork s = (Ok r, s') → ¬ turned_down r →
  Foliage.foliage_transaction_block_hash (FullBlock.foliage block) ≠ None →
  ∃ npc peak ftb ti adds rewards prev_tx fork_h l,
    (match pre with Some p => npc = pv_npc_result p | None => npc_spec constants fuel bm (bc_chain s) block = Ok npc end)
    ∧ get_peak (bc_chain s) = Ok peak
    ∧ FullBlock.foliage_transaction_block block = Some ftb ∧ FullBlock.transactions_info block = Some ti
    ∧ additions_for_npc (default [] (npc_list <$> npc)) = Ok adds
    ∧ rewards ≡ₚ TransactionsInfo.reward_claims_incorporated ti
    ∧ NoDup (coin_name <$> adds ++ rewards) ∧ NoDup (npc_coin_name <$> default [] (npc_list <$> npc))
    ∧ fork_height (chain_interface (bc_chain s)) fuel peak (FullBlock.height block) fork (FullBlock.prev_header_hash block)
      = Ok fork_h
    ∧ fork_of bm (FullBlock.height block) fork_h (FullBlock.prev_header_hash block) l
    ∧ (replay_fits (abs_rollback fork_h m) (effects constants (chain_gen fuel bm (bc_chain s)) l) → ∃ coins,
        Forall2 (spends_rightly (parent_ledger constants m (chain_gen fuel bm (bc_chain s)) fork_h l) (adds ++ rewards)
                   (FullBlock.height block) (FoliageTransactionBlock.timestamp ftb) prev_tx)
          (default [] (npc_list <$> npc)) coins
        ∧ total_amount coins = total_amount adds + TransactionsInfo.fees ti ∧ 0 <= TransactionsInfo.fees ti).
Proof.
  intros [Hc Hs] Hcl E Hr Htx. apply receive_block_cases in E as [[_ Ht]|E]; [by destruct (Hr (Ht r eq_refl))|].
  destruct E as (hh&br&npc&s1&o1&[_ _ _ _ Hnpc (st2&st3&peak&cost&Hk&Hpk&Hbody) _]&_).
  assert (Hg : good m bm pk st2) by (destruct Hk as [[_ Hi] [_ _ Hst]]; split; auto).
  destruct (body_sound _ _ _ _ (chain_gen fuel bm (bc_chain s)) m bm pk peak (AnyBlock.Full block) _ _ _ _ _ _ _ Hg Hcl
    (chain_generator_law _ _ _ _ _) Htx Hbody) as (ftb&ti&adds&rewards&ptx&fork_h&l&Hconcl).
  exists npc, peak, ftb, ti, adds, rewards, ptx, fork_h, l. split; [|split; [done|exact Hconcl]].
  unfold npc_from in Hnpc. destruct pre; [done|]. destruct Hnpc as (hb&s2&Hnpc). by eapply header_npc_spec.
Qed.

(** ** A reorganization

    The blocks 8/0 and 9/1 are the chain of the peak, 8/1 is a block of a fork of it
    after 8/0; the block received is a child of 8/1. *)
#[local] Instance toy_sha256 : Sha256 := {| sha256 := std_hash; sha256_length := std_hash_length; sha256_bytes := std_hash_bytes |}.
Definition peak_rewards : list Coin := [sample_coin 31 3 60; sample_coin 32 3 70].
Definition peak_record : BlockRecord :=
  let r := fork_record in {|
    header_hash := sample_id 9 1; prev_hash := sample_id 8 0; height := 1; weight := 14; total_iters := 20000000;
    signage_point_index := 1; challenge_vdf_output := challenge_vdf_output r; infused_challenge_vdf_output := None;
    reward_infusion_new_challenge := replicate 32 1; challenge_block_info_hash := replicate 32 2;
    sub_slot_iters := 2 ^ 27; pool_puzzle_hash := replicate 32 3; farmer_puzzle_hash := replicate 32 4;
    required_iters := 1000; deficit := 0; overflow := false; prev_transaction_block_height := 0;
    timestamp := Some 200; prev_transaction_block_hash := Some (sample_id 8 0); fees := Some 9;
    reward_claims_incorporated := Some peak_rewards; finished_challenge_slot_hashes := None;
    finished_infused_challenge_slot_hashes := None; finished_reward_slot_hashes := None;
    sub_epoch_summary_included := None; farmer_public_key := replicate 48 3 |}.
Definition peak_ops : list bs_op :=
  fork_ops ++ [
    AddFullBlock (sample_id 9 1) (sample_full_block 9 1 (sample_id 8 0) (Some peak_rewards)) peak_record;
    SetPeak (sample_id 9 1)].
Definition reorg_map : gmap bytes (FullBlock.t * BlockRecord) := (abs_bs_ops peak_ops (∅, None)).2.1.
Definition old_effects : list Effect :=
  [{| ef_height := 0; ef_timestamp := 100; ef_rewards := []; ef_additions := []; ef_removals := [] |}].
Definition peak_effects : list Effect :=
  [{| ef_height := 1; ef_timestamp := 200; ef_rewards := peak_rewards; ef_additions := []; ef_removals := [] |}].
Definition reorg_chain : Chain := {|
  peak_height := Some 1; mem_records := snd <$> reorg_map;
  heights_in_cache := <[0 := {[sample_id 8 0]}]> (<[1 := {[sample_id 8 1; sample_id 9 1]}]> ∅);
  mem_height_to_hash := <[0 := sample_id 8 0]> (<[1 := sample_id 9 1]> ∅); mem_summaries := ∅ |}.
Definition reorg_coins : CoinStore := coin_store_create (table (replay ∅ (old_effects ++ peak_effects))) 2.
Definition reorg_start : Blockchain := {|
  bc_chain := reorg_chain;
  bc_stores := {| st_coins := reorg_coins; st_blocks := (st_each run_bs_op peak_ops (block_store_create ∅ ∅)).2;
                  st_pairings := mk_LRUCache [] 10 |};
  bc_hints := []; bc_seen_proofs := [] |}.
Definition child_result : PreValidationResult :=
  {| pv_error := None; pv_required_iters := Some 1000; pv_npc_result := Some fork_npc; pv_difficulty_coeff := None |}.
Definition reorg_run : res Received * Blockchain :=
  receive_block DEFAULT_CONSTANTS 5 (λ x, x) sample_now child_block
    (Some child_result) (Some 0) reorg_start.

Lemma reorg_run_accepted : ∃ r, reorg_run.1 = Ok r ∧ ¬ turned_down r.
Proof. apply accepted. vm_compute. reflexivity. Qed.

Lemma reorg_map_stores : stores (st_blocks (bc_stores reorg_start)) reorg_map (Some (sample_id 9 1)).
Proof.
  assert (Hok : bs_ops_ok peak_ops (∅, None)).
  { destruct fork_ops_ok as [Hok1 [Hok2 _]]. split; [exact Hok1|split; [exact Hok2|]]. split; [|split; [|done]].
    - apply entry_okb_sound. vm_compute. reflexivity.
    - vm_compute. eexists. reflexivity. }
  destruct (run_bs_ops_ok peak_ops _ _ _ stores_empty Hok) as (s&E&Hs). unfold reorg_start. cbn [st_blocks bc_stores].
  rewrite E. exact Hs.
Qed.


Lemma reorg_coins_implement : implements (st_coins (bc_stores reorg_start)) (replay ∅ (old_effects ++ peak_effects)).
Proof.
  apply implements_create.
  assert (map_Forall (λ n r, n = coin_name (coin r) ∧ record_ok r) (replay ∅ (old_effects ++ peak_effects))) as Hm; [|exact Hm].
  apply (bool_decide_unpack _). vm_compute. exact I.
Qed.
Lemma reorg_effects_fit : replay_fits ∅ (old_effects ++ peak_effects).
Proof. apply (bool_decide_unpack _). vm_compute. exact I. Qed.
Lemma reorg_effects_spend : replay_spends ∅ (old_effects ++ peak_effects).
Proof. split; [|split; [|done]]; intros n r Hn; by apply not_elem_of_nil in Hn. Qed.

Definition child_hash : bytes := ok_or [] (block_header_hash child_block).
Definition child_record : BlockRecord :=
  ok_or genesis_record (block_to_block_record DEFAULT_CONSTANTS (chain_interface (bc_chain reorg_start)) 5 1000 child_block).
Lemma child_hash_eq : block_header_hash child_block = Ok child_hash.
Proof. apply is_ok_or. vm_compute. reflexivity. Qed.
Lemma child_record_eq :
  block_to_block_record DEFAULT_CONSTANTS (chain_interface (bc_chain reorg_start)) 5 1000 child_block = Ok child_record.
Proof. apply is_ok_or. vm_compute. reflexivity. Qed.
Lemma reorg_typed : typed_chain DEFAULT_CONSTANTS (chain_interface (bc_chain reorg_start)).
Proof.
  split; [split; [apply (bool_decide_unpack _)|]; vm_compute; easy|vm_compute; easy|]. intros h b Eb. apply of_opt_Ok in Eb.
  assert (Hm : map_Forall (λ _ b, validb (code BlockRecord) (to_val b) = true) (mem_records reorg_chain)).
  { apply (bool_decide_unpack _). vm_compute. exact I. }
  apply validb_sound, (Hm _ _ Eb).
Qed.

Definition reorged_map : gmap bytes (FullBlock.t * BlockRecord) := <[child_hash := (child_block, child_record)]> reorg_map.
Definition reorg_effects : list (option Effect) :=
  ok_or [] (for_each (effect_of DEFAULT_CONSTANTS 5 reorged_map (bc_chain reorg_start) child_hash (Some fork_npc))
              (rev [(child_block, child_record); (fork_full_block, fork_record)])).
Lemma reorg_effects_eq :
  for_each (effect_of DEFAULT_CONSTANTS 5 reorged_map (bc_chain reorg_start) child_hash (Some fork_npc))
    (rev [(child_block, child_record); (fork_full_block, fork_record)]) = Ok reorg_effects.
Proof. apply is_ok_or. vm_compute. reflexivity. Qed.
Lemma reorg_peak : get_peak (bc_chain reorg_start) = Ok (Some peak_record).
Proof. vm_compute. reflexivity. Qed.
Lemma reorg_fork : peak_fork 5 (bc_chain reorg_start) peak_record child_record (Some 0) = Ok 0.
Proof. vm_compute. reflexivity. Qed.
Lemma reorg_branch_fits : replay_fits (replay ∅ old_effects) (omap id reorg_effects).
Proof. apply (bool_decide_unpack _). vm_compute. exact I. Qed.
Lemma reorg_path path :
  fork_path reorged_map (bc_chain reorg_start) 0 child_hash path → path = [(child_block, child_record); (fork_full_block, fork_record)].
Proof.
  assert (E0 : reorged_map !! child_hash = Some (child_block, child_record)) by apply lookup_insert_eq.
  assert (E1 : reorged_map !! prev_hash child_record = Some (fork_full_block, fork_record)) by (vm_compute; reflexivity).
  assert (Hz0 : FullBlock.height child_block = 2) by (vm_compute; reflexivity).
  assert (Hz1 : FullBlock.height fork_full_block = 1) by (vm_compute; reflexivity).
  assert (Hf : at_fork (bc_chain reorg_start) 0 (prev_hash fork_record)) by (split; [lia|vm_compute; reflexivity]).
  assert (Hn0 : prev_hash fork_record ≠ child_hash) by (apply (bool_decide_unpack _); vm_compute; exact I).
  assert (Hn1 : prev_hash fork_record ≠ prev_hash child_record) by (apply (bool_decide_unpack _); vm_compute; exact I).
  exact (fork_path_two _ _ _ _ path _ _ _ _ E0 E1 Hz0 Hz1 Hf Hn0 Hn1).
Qed.

Lemma reorg_map_closed : closed reorg_map.
Proof. apply closedb_sound. vm_compute. reflexivity. Qed.
Lemma reorg_memory : memory_stored reorg_map (bc_chain reorg_start).
Proof.
  intros hh r Hr. change (mem_records (bc_chain reorg_start)) with (snd <$> reorg_map) in Hr. rewrite lookup_fmap in Hr.
  apply fmap_Some in Hr as ([b r']&E&->). by exists b.
Qed.
Lemma reorg_old_path : path_to reorg_map (bc_chain reorg_start) (sample_id 9 1).
Proof.
  assert (∃ b r, reorg_map !! sample_id 9 1 = Some (b, r) ∧ height r = 1 ∧ prev_hash r = sample_id 8 0) as (b1&r1&E1&H1&Hp1).
  { exists (sample_full_block 9 1 (sample_id 8 0) (Some peak_rewards)), peak_record. vm_compute. easy. }
  assert (∃ b r, reorg_map !! sample_id 8 0 = Some (b, r) ∧ height r = 0) as (b0&r0&E0&H0).
  { exists genesis_full_block, genesis_record. vm_compute. easy. }
  intros h x.
  change (mem_height_to_hash (bc_chain reorg_start)) with (<[0 := sample_id 8 0]> (<[1 := sample_id 9 1]> (∅ : gmap Z bytes))).
  split.
  - intros Hx. apply lookup_insert_Some in Hx as [[<- <-]|[_ Hx]].
    + eapply ancestor_parent; [exact E1|lia|]. rewrite Hp1. pose proof (ancestor_self _ _ _ _ E0) as Hs. by rewrite H0 in Hs.
    + apply lookup_insert_Some in Hx as [[<- <-]|[_ Hx]]; [|by rewrite lookup_empty in Hx].
      pose proof (ancestor_self _ _ _ _ E1) as Hs. by rewrite H1 in Hs.
  - intros Ha. destruct (ancestor_inv _ _ _ _ _ _ reorg_map_closed E1 Ha) as [[-> ->]|(_&_&Ha')]; [by rewrite H1|].
    rewrite Hp1 in Ha'. destruct (ancestor_inv _ _ _ _ _ _ reorg_map_closed E0 Ha') as [[-> ->]|[? _]]; [by rewrite H0|lia].
Qed.

Lemma new_peak_keeps_ledger_witness :
  ∃ r, reorg_run.1 = Ok r ∧ rb_result r = NEW_PEAK
  ∧ path_to reorged_map (bc_chain reorg_run.2) child_hash
  ∧ implements (st_coins (bc_stores reorg_run.2)) (replay ∅ (old_effects ++ omap id reorg_effects)).
Proof.
  destruct reorg_run_accepted as (r&Er&Hr). exists r. split; [exact Er|].
  destruct (new_peak_keeps_ledger DEFAULT_CONSTANTS 5 (λ x, x) sample_now child_block (Some child_result) (Some 0)
    reorg_map (Some (sample_id 9 1)) old_effects peak_effects reorg_start reorg_run.2 r)
    as (hh&br&npc&peak&f&path&es&Ehh&(req&Hreq&Ebr)&Hnpc&Hpk&Hf&Hpath&Hes&Hnew&_&_&_&Hmem&Hled).
  - exact reorg_map_stores.
  - exact reorg_coins_implement.
  - exact reorg_effects_fit.
  - exact reorg_effects_spend.
  - intros p Hp. rewrite reorg_peak in Hp. apply Ok_inj, Some_inj in Hp as <-. repeat constructor; cbn; lia.
  - discriminate.
  - exact reorg_typed.
  - apply validb_sound. vm_compute. reflexivity.
  - intros p req [= <-] [= <-]. lia.
  - apply (run_outcome reorg_run). exact Er.
  - exact Hr.
  - split; [exact Hnew|]. specialize (Hreq _ eq_refl). apply Some_inj in Hreq as <-.
    rewrite child_hash_eq in Ehh. apply Ok_inj in Ehh as <-. rewrite child_record_eq in Ebr. apply Ok_inj in Ebr as <-.
    subst npc. rewrite reorg_peak in Hpk. apply Ok_inj, Some_inj in Hpk as <-.
    rewrite reorg_fork in Hf. apply Ok_inj in Hf as <-. apply reorg_path in Hpath as ->.
    change (pv_npc_result child_result) with (Some fork_npc) in Hes. fold reorged_map in Hes. rewrite reorg_effects_eq in Hes. apply Ok_inj in Hes as <-.
    split; [|apply Hled; [repeat constructor; cbn; lia..|left; lia|exact reorg_branch_fits]].
    apply Hmem; [discriminate|exact reorg_map_closed|exact reorg_memory| |exact reorg_old_path].
    intros x Hx. exfalso. revert Hx. change (reorg_map !! child_hash ≠ Some x).
    assert (E : reorg_map !! child_hash = None) by (vm_compute; reflexivity). rewrite E. discriminate.
Defined.

Definition refused_run : res Received * Blockchain :=
  receive_block DEFAULT_CONSTANTS 5 (λ x, x) sample_now child_block
    (Some {| pv_error := None; pv_required_iters := Some 1000;
             pv_npc_result := Some {| npc_error := Some 117; npc_list := npc_list fork_npc; clvm_cost := clvm_cost fork_npc |};
             pv_difficulty_coeff := None |}) (Some 0) reorg_start.
Lemma rejected_block_keeps_state_witness :
  ∃ r, refused_run.1 = Ok r ∧ rb_result r = INVALID_BLOCK ∧ chain_kept reorg_start refused_run.2.
Proof.
  set (r0 := {| rb_result := INVALID_BLOCK; rb_error := Some Err.GENERATOR_RUNTIME_ERROR; rb_fork_height := None;
                rb_coins := []; rb_hints := [] |}).
  assert (E : refused_run.1 = Ok r0) by (vm_compute; reflexivity).
  exists r0. split; [exact E|]. split; [reflexivity|].
  apply (rejected_block_keeps_state DEFAULT_CONSTANTS 5 (λ x, x) sample_now child_block
    (Some {| pv_error := None; pv_required_iters := Some 1000;
             pv_npc_result := Some {| npc_error := Some 117; npc_list := npc_list fork_npc; clvm_cost := clvm_cost fork_npc |};
             pv_difficulty_coeff := None |}) (Some 0) reorg_start refused_run.2 r0);
    [exact (run_outcome refused_run _ E)|split; discriminate].
Defined.

(** The record of this block cannot be written: the transaction fails after the block
    was inserted. *)
Definition failed_run : res Received * Blockchain :=
  receive_block DEFAULT_CONSTANTS 5 (λ x, x) sample_now child_block
    (Some {| pv_error := None; pv_required_iters := Some (2 ^ 70); pv_npc_result := Some fork_npc;
             pv_difficulty_coeff := None |}) (Some 0) reorg_start.
Lemma failed_block_rolls_back_witness :
  failed_run.1 = Raise StructError ∧ rolled_back reorg_start failed_run.2.
Proof.
  assert (E : failed_run.1 = Raise StructError) by (vm_compute; reflexivity). split; [exact E|].
  apply (failed_block_rolls_back DEFAULT_CONSTANTS 5 (λ x, x) sample_now child_block
    (Some {| pv_error := None; pv_required_iters := Some (2 ^ 70); pv_npc_result := Some fork_npc;
             pv_difficulty_coeff := None |}) (Some 0) reorg_start failed_run.2 StructError).
  exact (run_outcome failed_run _ E).
Defined.

(** The block of the fork has weight 21, the peak here 1000. *)
Definition heavy_peak : BlockRecord :=
  let r := peak_record in {|
    header_hash := header_hash r; prev_hash := prev_hash r; height := height r; weight := 1000; total_iters := total_iters r;
    signage_point_index := signage_point_index r; challenge_vdf_output := challenge_vdf_output r;
    infused_challenge_vdf_output := infused_challenge_vdf_output r;
    reward_infusion_new_challenge := reward_infusion_new_challenge r; challenge_block_info_hash := challenge_block_info_hash r;
    sub_slot_iters := sub_slot_iters r; pool_puzzle_hash := pool_puzzle_hash r; farmer_puzzle_hash := farmer_puzzle_hash r;
    required_iters := required_iters r; deficit := deficit r; overflow := overflow r;
    prev_transaction_block_height := prev_transaction_block_height r; timestamp := timestamp r;
    prev_transaction_block_hash := prev_transaction_block_hash r; fees := fees r;
    reward_claims_incorporated := reward_claims_incorporated r; finished_challenge_slot_hashes := finished_challenge_slot_hashes r;
    finished_infused_challenge_slot_hashes := finished_infused_challenge_slot_hashes r;
    finished_reward_slot_hashes := finished_reward_slot_hashes r; sub_epoch_summary_included := sub_epoch_summary_included r;
    farmer_public_key := farmer_public_key r |}.
Definition heavy_start : Blockchain :=
  set_chain (set_records (<[sample_id 9 1 := heavy_peak]> (mem_records reorg_chain)) (heights_in_cache reorg_chain) reorg_chain)
    reorg_start.
Definition heavy_run : res Received * Blockchain :=
  receive_block DEFAULT_CONSTANTS 5 (λ x, x) sample_now child_block (Some child_result) (Some 0) heavy_start.
Lemma added_block_is_peak_witness :
  ∃ r, heavy_run.1 = Ok r ∧ rb_result r = NEW_PEAK ∧ FullBlock.weight child_block < 1000
    ∧ get_peak (bc_chain heavy_start) = Ok (Some heavy_peak).
Proof.
  destruct (accepted heavy_run.1) as (r&E&Ht); [vm_compute; reflexivity|].
  exists r. split; [exact E|].
  destruct (added_block_is_peak DEFAULT_CONSTANTS 5 (λ x, x) sample_now child_block (Some child_result) (Some 0) heavy_start
    heavy_run.2 r (run_outcome heavy_run _ E) ltac:(discriminate) Ht) as [Hp _].
  split; [exact Hp|]. split; vm_compute; reflexivity.
Defined.

Lemma added_block_spends_unspent_witness :
  ∃ adds rewards prev_tx coins,
    Forall2 (spends_rightly (parent_ledger DEFAULT_CONSTANTS (replay ∅ (old_effects ++ peak_effects))
               (chain_gen 5 reorg_map (bc_chain reorg_start)) 0 [fork_full_block]) (adds ++ rewards) 2 300 prev_tx)
      (npc_list fork_npc) coins
    ∧ total_amount coins = total_amount adds + 20.
Proof.
  assert (Hp : reorg_map !! sample_id 8 1 = Some (fork_full_block, fork_record)) by (vm_compute; reflexivity).
  assert (Hgp : reorg_map !! FullBlock.prev_header_hash fork_full_block = Some (genesis_full_block, genesis_record))
    by (vm_compute; reflexivity).
  destruct reorg_run_accepted as (r&E&Ht).
  destruct (added_block_spends_unspent DEFAULT_CONSTANTS 5 (λ x, x) sample_now child_block (Some child_result) (Some 0)
    (replay ∅ (old_effects ++ peak_effects)) reorg_map (Some (sample_id 9 1)) reorg_start reorg_run.2 r
    (conj reorg_coins_implement reorg_map_stores) (closedb_sound reorg_map ltac:(vm_compute; reflexivity))
    (run_outcome reorg_run _ E) Ht ltac:(discriminate))
    as (npc&peak&ftb&ti&adds&rewards&ptx&fork_h&l&Hnpc&Hpk&Hftb&Hti&_&_&_&_&Hf&Hl&Hc).
  subst npc. rewrite reorg_peak in Hpk. apply Ok_inj in Hpk as <-. apply Some_inj in Hftb as <-. apply Some_inj in Hti as <-.
  apply Ok_inj in Hf as <-. apply (fork_of_one _ _ _ _ _ _ Hp Hgp) in Hl as ->; [|reflexivity..].
  destruct Hc as (coins&HF&Hsum&_); [apply (bool_decide_unpack _); vm_compute; exact I|].
  exists adds, rewards, ptx, coins. split; [exact HF|exact Hsum].
Defined.

Lemma record_well_formed_witness :
  well_formed child_record ∧ block_header_hash child_block = Ok (header_hash child_record)
  ∧ entry_ok (header_hash child_record) (child_block, child_record).
Proof.
  apply (record_well_formed DEFAULT_CONSTANTS (chain_interface (bc_chain reorg_start)) 5 1000 child_block child_record).
  - exact reorg_typed.
  - apply validb_sound. vm_compute. reflexivity.
  - lia.
  - exact child_record_eq.
Defined.
