(* ===== verification/PreValidation.v ===== *)
(** * Pre-validation of a batch of blocks

    Models [chia/consensus/multiprocess_validation.py] for full blocks: the headers of
    the blocks of a batch are validated before the blocks are added one by one.  The
    records of the batch are computed from the blocks, each with the iterations of its
    proof of space, and put into the memory of the chain while the next one is computed;
    then they are taken out again and every header is validated against a cache of
    recent records.

    What the source passes to the validation as bytes is passed as the value: the
    conversions of these classes are inverse ([Streamable]).  The batches of header
    blocks of a wallet are not modelled.

    The theorems: a batch that is not refused leaves the memory as it was, and a result
    without error comes from an accepted header; a failure half-way through leaves
    records of blocks that were never validated in memory. *)
From S2P Require Import Prelude PyInt PyFloat PyDecimal Consensus ChainView Difficulty Errors Coins CoinStore Sha256.
From S2P Require Import MerkleSet Streamable BlockTypes BlockToRecord BlockStore HeaderValidation HeaderSound Generator.
From S2P Require Import CachedBls RootValidation BodyValidation BodySound Chain Staking Blockchain BlockchainFrame.

Section PreValidation.
Context `{Packages} `{Sha256} `{StdHash} `{ClvmCasts} `{ClvmRunner} `{Bls} `{SetIter} `{VDF : Vdf} `{PlotTools}.
Context (constants : ConsensusConstants) (fuel : nat) (create_puzzlehash_for_pk : bytes → bytes) (time_time : float).

(** ** The recent records *)

(** [BlockCache(blocks, inner=block_records)] *)
Definition recent_view (blocks : gmap bytes BlockRecord) : BlockchainInterface :=
  BlockCache_interface {| bc_block_records := blocks; bc_height_to_hash := ∅ |}.

Record RecentScan := {
  rs_curr : BlockRecord;
  rs_recent : gmap bytes BlockRecord;
  rs_compressed : gmap bytes BlockRecord;
  rs_sub_slots_found : Z;
  rs_blocks_seen : Z;
}.

(** The loop back to the last sub-epoch summary, or as far as timestamps and sub slots
    are needed *)
Definition recent_scan_body (c : Chain) (num_sub_slots_to_look_for : Z) (s : RecentScan) :
    res (RecentScan + RecentScan) :=
  let curr := rs_curr s in
  let more := (rs_blocks_seen s <? NUMBER_OF_TIMESTAMPS constants)
              || (rs_sub_slots_found s <? num_sub_slots_to_look_for) in
  if (is_None (sub_epoch_summary_included curr) || more) && (0 <? height curr) then
    let compressed := if more then <[header_hash curr := curr]> (rs_compressed s) else rs_compressed s in
    found ← (if first_in_sub_slot curr then
               hashes ← of_opt AssertionError (finished_challenge_slot_hashes curr);
               Ok (rs_sub_slots_found s + Z.of_nat (length hashes))
             else Ok (rs_sub_slots_found s));
    let seen := if is_transaction_block curr then rs_blocks_seen s + 1 else rs_blocks_seen s in
    prev ← chain_block_record c (prev_hash curr);
    Ok (inl {| rs_curr := prev; rs_recent := <[header_hash curr := curr]> (rs_recent s);
               rs_compressed := compressed; rs_sub_slots_found := found; rs_blocks_seen := seen |})
  else Ok (inr s).
Definition recent_records (c : Chain) (prev_header_hash : bytes) : res (gmap bytes BlockRecord * gmap bytes BlockRecord) :=
  curr ← chain_block_record c prev_header_hash;
  s ← loop fuel (recent_scan_body c (if overflow curr then 3 else 2))
        {| rs_curr := curr; rs_recent := ∅; rs_compressed := ∅; rs_sub_slots_found := 0; rs_blocks_seen := 0 |};
  let curr := rs_curr s in
  Ok (<[header_hash curr := curr]> (rs_recent s), <[header_hash curr := curr]> (rs_compressed s)).

(** ** The records of the batch *)

(** [block_records.remove_block_record]; the two dictionaries of the chain agree, so
    that the second removal does not fail after the first. *)
Definition remove_record (hh : bytes) : ST Blockchain unit := λ s,
  match remove_block_record hh (bc_chain s) with
  | Ok c => (Ok tt, set_chain c s)
  | Raise e => (Raise e, s)
  | OutOfFuel => (OutOfFuel, s)
  end.
Definition remove_if_left (x : bytes * bool) : ST Blockchain unit :=
  let '(hh, was_present) := x in
  s ← st_get;
  if negb was_present && chain_contains_block (bc_chain s) hh then remove_record hh else mret tt.
Definition remove_added (x : bytes * bool) : ST Blockchain unit :=
  let '(hh, was_present) := x in if was_present then mret tt else remove_record hh.

Record BatchState := {
  ba_prev_b : option BlockRecord;
  ba_recent : gmap bytes BlockRecord;
  ba_compressed : gmap bytes BlockRecord;
  ba_diff_ssis : list (Z * Z);
}.

(** The required iterations of a block; [None] is an invalid proof of space. *)
Definition block_required_iters (prev_b : option BlockRecord) (recent : gmap bytes BlockRecord) (difficulty : Z)
    (block : FullBlock.t) : ST Blockchain (option Z) :=
  let rcb := FullBlock.reward_chain_block block in
  let pos := RewardChainBlock.proof_of_space rcb in
  overflow ← st_res (is_overflow_block constants (RewardChainBlock.signage_point_index rcb));
  challenge ← st_res (get_block_challenge constants (recent_view recent) fuel (full_block_view block) (is_None prev_b)
                        overflow false);
  cc_sp_hash ← st_res match RewardChainBlock.challenge_chain_sp_vdf rcb with
                      | None => Ok challenge
                      | Some vdf => hash_of (VDFInfo.output vdf)
                      end;
  q_str ← st_res (verify_and_get_quality_string constants pos challenge cc_sp_hash);
  match q_str with
  | None => mret None
  | Some q_str =>
      s ← st_get;
      let h := FullBlock.height block in
      coeff ← st_res (farmer_coeff constants fuel create_puzzlehash_for_pk s (ProofOfSpace.farmer_public_key pos)
                        (Some (if 0 <? h then h - 1 else 0)));
      required_iters ← st_res (calculate_iterations_quality (DIFFICULTY_CONSTANT_FACTOR constants) q_str
                                 (ProofOfSpace.size pos) (int_of_dec (dec_mul (dec_of_int difficulty) coeff)) cc_sp_hash);
      mret (Some required_iters)
  end.

(** The summary of a record against the summaries of a weight proof *)
Definition summary_matches (wp_summaries : option (list SubEpochSummary)) (block : FullBlock.t) (block_rec : BlockRecord) :
    res bool :=
  match sub_epoch_summary_included block_rec, wp_summaries with
  | Some ses, Some wp_summaries =>
      q ← int_truediv (FullBlock.height block) (SUB_EPOCH_BLOCKS constants);
      i ← int_of_float q;
      next_ses ← py_index wp_summaries (i - 1);
      h ← hash_of ses;
      h' ← hash_of next_ses;
      Ok (bool_decide (h = h'))
  | _, _ => Ok true
  end.

(** One round of the loop over the blocks; [inr] is [return None]. *)
Definition batch_step (presence : list (bytes * bool)) (wp_summaries : option (list SubEpochSummary))
    (t : BatchState) (block : FullBlock.t) : ST Blockchain (BatchState + unit) :=
  prev_b ←
    (if FullBlock.height block =? 0 then mret (ba_prev_b t)
     else
       chain_read (λ c, assert_ (chain_contains_block c (FullBlock.prev_header_hash block))) ;;
       match ba_prev_b t with
       | Some b => mret (Some b)
       | None => b ← chain_read (λ c, chain_block_record c (FullBlock.prev_header_hash block)); mret (Some b)
       end);
  '(sub_slot_iters, difficulty) ← chain_read (λ c,
    get_next_sub_slot_iters_and_difficulty constants (chain_interface c) fuel
      (bool_decide (0 < length (FullBlock.finished_sub_slots block))%nat) prev_b);
  required ← block_required_iters prev_b (ba_recent t) difficulty block;
  match required with
  | None => st_for remove_if_left presence ;; mret (inr tt)
  | Some required_iters =>
      block_rec ← chain_read (λ c, block_to_block_record constants (chain_interface c) fuel required_iters block);
      ok ← st_res (summary_matches wp_summaries block block_rec);
      if negb ok then mret (inr tt)
      else
        s ← st_get;
        let hh := header_hash block_rec in
        kept ←
          (if chain_contains_block (bc_chain s) hh then chain_read (λ c, chain_block_record c hh)
           else chain_modify (add_block_record block_rec) ;; mret block_rec);
        mret (inl {| ba_prev_b := Some block_rec; ba_recent := <[hh := kept]> (ba_recent t);
                     ba_compressed := <[hh := kept]> (ba_compressed t);
                     ba_diff_ssis := ba_diff_ssis t ++ [(difficulty, sub_slot_iters)] |})
  end.

(** ** The validation of the headers *)

(** [try: m] [except Exception: v] *)
Definition on_exception {A} (v : A) (m : res A) : res A :=
  match m with Raise _ => Ok v | _ => m end.
Definition failed_result (e : Err.t) : PreValidationResult :=
  {| pv_error := Some (Err.value e); pv_required_iters := None; pv_npc_result := None; pv_difficulty_coeff := None |}.

(** The transactions of a block: those given by its height, or those its generator makes *)
Definition block_transactions (npc_results : gmap Z NPCResult) (block : FullBlock.t) (generator : option BlockGenerator) :
    res (list bytes * list Coin * option NPCResult) :=
  match npc_results !! FullBlock.height block with
  | Some npc_result =>
      '(removals, tx_additions) ← tx_removals_and_additions (npc_list npc_result);
      Ok (removals, tx_additions, Some npc_result)
  | None =>
      match FullBlock.transactions_generator block with
      | Some transactions_generator =>
          block_generator ← of_opt AssertionError generator;
          ti ← of_opt AssertionError (FullBlock.transactions_info block);
          assert_ (bool_decide (program block_generator = transactions_generator)) ;;
          let npc_result := get_name_puzzle_conditions block_generator
            (Z.min (MAX_BLOCK_COST_CLVM constants) (TransactionsInfo.cost ti)) (COST_PER_BYTE constants) true in
          '(removals, tx_additions) ← tx_removals_and_additions (npc_list npc_result);
          Ok (removals, tx_additions, Some npc_result)
      | None => Ok ([], [], None)
      end
  end.

(** The [try] block of [batch_pre_validate_blocks].  The source writes the coefficient
    as a string, also a missing one. *)
Definition pre_validate_block (s : Blockchain) (blocks : gmap bytes BlockRecord) (npc_results : gmap Z NPCResult)
    (check_filter : bool) (block : FullBlock.t) (generator : option BlockGenerator) (diff_ssi : Z * Z) :
    res PreValidationResult :=
  '(removals, tx_additions, npc_result) ← block_transactions npc_results block generator;
  header_block ← get_block_header set_iter block tx_additions removals;
  v ← validate_finished_header_block constants (recent_view blocks) fuel
        (farmer_coeff constants fuel create_puzzlehash_for_pk s) time_time header_block check_filter diff_ssi.1 diff_ssi.2 true;
  match v with
  | inr e =>
      code ← uint16 (Err.value e);
      Ok {| pv_error := Some code; pv_required_iters := None; pv_npc_result := npc_result; pv_difficulty_coeff := None |}
  | inl (required_iters, difficulty_coeff) =>
      Ok {| pv_error := None; pv_required_iters := Some required_iters; pv_npc_result := npc_result;
            pv_difficulty_coeff := Some difficulty_coeff |}
  end.
Definition batch_pre_validate_blocks (s : Blockchain) (blocks : gmap bytes BlockRecord) (npc_results : gmap Z NPCResult)
    (check_filter : bool) (l : list (FullBlock.t * option BlockGenerator * (Z * Z))) : res (list PreValidationResult) :=
  for_each (λ '(block, generator, diff_ssi),
    on_exception (failed_result Err.UNKNOWN)
      (pre_validate_block s blocks npc_results check_filter block generator diff_ssi)) l.

(** The blocks of the batch a block follows *)
Definition prev_blocks_body (block_dict : gmap bytes FullBlock.t) (s : FullBlock.t * gmap bytes FullBlock.t) :
    res (FullBlock.t * gmap bytes FullBlock.t + gmap bytes FullBlock.t) :=
  let '(curr_b, prev_blocks_dict) := s in
  match block_dict !! FullBlock.prev_header_hash curr_b with
  | Some b => hh ← block_header_hash b; Ok (inl (b, <[hh := b]> prev_blocks_dict))
  | None => Ok (inr prev_blocks_dict)
  end.

(** The generator of one block; [inr] is [return None] on a [ValueError]. *)
Definition generator_step (block_dict : gmap bytes FullBlock.t) (generators : list (option BlockGenerator)) (block : FullBlock.t) :
    ST Blockchain (list (option BlockGenerator) + unit) :=
  prev_blocks_dict ← st_res (loop fuel (prev_blocks_body block_dict) (block, ∅));
  s ← st_get;
  g ← catch_value_error (on_stores (get_block_generator fuel (bc_chain s) prev_blocks_dict (AnyBlock.Full block)));
  match g with
  | inr _ => mret (inr tt)
  | inl g => mret (inl (generators ++ [g]))
  end.

(** One batch: its generators, then its headers *)
Definition validate_batch (t : BatchState) (block_dict : gmap bytes FullBlock.t) (npc_results : gmap Z NPCResult)
    (check_filter : bool) (results : list PreValidationResult) (batch : list (FullBlock.t * (Z * Z))) :
    ST Blockchain (list PreValidationResult + unit) :=
  let blocks_to_validate := batch.*1 in
  let final := if existsb (λ b, bool_decide (0 < length (FullBlock.finished_sub_slots b))%nat) blocks_to_validate
    then ba_recent t else ba_compressed t in
  r ← st_early (generator_step block_dict) [] blocks_to_validate;
  match r with
  | inr _ => mret (inr tt)
  | inl generators =>
      s ← st_get;
      l ← st_res (batch_pre_validate_blocks s final npc_results check_filter
                    (zip (zip blocks_to_validate generators) batch.*2));
      mret (inl (results ++ l))
  end.

(** [l[i : i + n]] for [i] in [range(0, len(l), n)] *)
Fixpoint batches {A} (fuel n : nat) (l : list A) : list (list A) :=
  match fuel, l with
  | S fuel, _ :: _ => take n l :: batches fuel n (drop n l)
  | _, _ => []
  end.

Definition pre_validate_blocks_multiprocessing (blocks : list FullBlock.t) (check_filter : bool)
    (npc_results : gmap Z NPCResult) (batch_size : nat) (wp_summaries : option (list SubEpochSummary)) :
    ST Blockchain (option (list PreValidationResult)) :=
  first ← st_res (py_index blocks 0);
  let prev := FullBlock.prev_header_hash first in
  recent ←
    (if 0 <? FullBlock.height first then
       s ← st_get;
       if chain_contains_block (bc_chain s) prev then
         r ← st_res (recent_records (bc_chain s) prev); mret (Some r)
       else mret None
     else mret (Some (∅, ∅)));
  match recent with
  | None => mret (Some [failed_result Err.INVALID_PREV_BLOCK_HASH])
  | Some (recent, compressed) =>
      hashes ← st_res (for_each block_header_hash blocks);
      s ← st_get;
      let presence := (λ hh, (hh, chain_contains_block (bc_chain s) hh)) <$> hashes in
      r ← st_early (batch_step presence wp_summaries)
            {| ba_prev_b := None; ba_recent := recent; ba_compressed := compressed; ba_diff_ssis := [] |} blocks;
      match r with
      | inr _ => mret None
      | inl t =>
          st_for remove_added presence ;;
          st_res (check (negb (batch_size =? 0)%nat) ValueError) ;;
          let block_dict := foldl (λ d x, <[x.1 := x.2]> d) ∅ (zip hashes blocks) in
          r ← st_early (validate_batch t block_dict npc_results check_filter) []
                (batches (length blocks) batch_size (zip blocks (ba_diff_ssis t)));
          match r with inl results => mret (Some results) | inr _ => mret None end
      end
  end.

(** [_run_generator], run in a worker process: [inr] is the error *)
Definition run_generator_body (unfinished_block : UnfinishedBlock.t) (block_generator : BlockGenerator) :
    res (NPCResult + Err.t) :=
  ti ← of_opt AssertionError (UnfinishedBlock.transactions_info unfinished_block);
  assert_ (bool_decide (Some (program block_generator) = UnfinishedBlock.transactions_generator unfinished_block)) ;;
  let npc_result := get_name_puzzle_conditions block_generator
    (Z.min (MAX_BLOCK_COST_CLVM constants) (TransactionsInfo.cost ti)) (COST_PER_BYTE constants) false in
  match npc_error npc_result with
  | Some code => e ← Err.of_value code; Ok (inr e)
  | None => Ok (inl npc_result)
  end.
Definition run_generator (unfinished_block : UnfinishedBlock.t) (block_generator : BlockGenerator) : res (NPCResult + Err.t) :=
  on_exception (inr Err.UNKNOWN) (run_generator_body unfinished_block block_generator).
End PreValidation.

(** ** Records put into memory for a while *)

(** The chain [c] is [c0] with records added that satisfy [Q] and whose hashes are in
    [hs]. *)
Record extended (Q : BlockRecord → Prop) (c0 : Chain) (hs : list bytes) (c : Chain) : Prop := {
  ex_records : mem_records c0 ⊆ mem_records c;
  ex_added : ∀ h, is_Some (mem_records c !! h) → is_Some (mem_records c0 !! h) ∨ h ∈ hs;
  ex_made : ∀ h b, mem_records c !! h = Some b → mem_records c0 !! h = Some b ∨ header_hash b = h ∧ Q b;
  ex_path : peak_height c = peak_height c0 ∧ mem_height_to_hash c = mem_height_to_hash c0
            ∧ mem_summaries c = mem_summaries c0;
  ex_index : index_ok c;
}.

Lemma extended_refl Q c hs : index_ok c → extended Q c hs c.
Proof. intros Hc. split; [done|by left|by left|done|done]. Qed.

Lemma extended_nil Q c0 c : extended Q c0 [] c → mem_records c = mem_records c0.
Proof.
  intros [Hsub Hadd _ _ _]. apply map_eq. intros h. destruct (mem_records c !! h) as [b|] eqn:E.
  - destruct (Hadd h) as [[b0 E0]|?]; [by exists b| |set_solver]. rewrite E0.
    by rewrite (lookup_weaken _ _ _ _ E0 Hsub) in E.
  - destruct (mem_records c0 !! h) as [b0|] eqn:E0; [|done]. by rewrite (lookup_weaken _ _ _ _ E0 Hsub) in E.
Qed.

Lemma extended_add Q c0 hs c b : extended Q c0 hs c → mem_records c !! header_hash b = None → header_hash b ∈ hs → Q b →
  extended Q c0 hs (add_block_record b c).
Proof.
  intros [Hsub Hadd Hm Hp Hi] Hn Hin HQ. split; [|intros h|intros h b'|done|].
  - cbn. etrans; [exact Hsub|]. by apply insert_subseteq.
  - cbn. destruct (decide (h = header_hash b)) as [->|Hne]; [by right|]. rewrite lookup_insert_ne by done. apply Hadd.
  - cbn. destruct (decide (h = header_hash b)) as [->|Hne].
    + rewrite lookup_insert_eq. intros [= <-]. by right.
    + rewrite lookup_insert_ne by done. apply Hm.
  - apply add_block_record_index; [done|]. intros b' Hb'. congruence.
Qed.

Lemma remove_block_record_index h c c' : index_ok c → remove_block_record h c = Ok c' → index_ok c'.
Proof.
  unfold remove_block_record, chain_block_record. intros Hc E. res_inv.
  match goal with H : mem_records c !! h = Some ?b |- _ => rename b into sbr, H into Hb end.
  match goal with H : heights_in_cache c !! _ = Some ?x |- _ => rename x into hs, H into Hhs end.
  intros k hh. cbn. destruct (decide (hh = h)) as [->|Hne].
  - rewrite lookup_delete_eq. split; [|by intros (?&?&_)]. intros (s&Hs&Hin). exfalso.
    destruct (decide (k = height sbr)) as [->|Hk].
    + rewrite lookup_insert_eq in Hs. injection Hs as <-. set_solver.
    + rewrite lookup_insert_ne in Hs by done.
      destruct (proj1 (Hc k h)) as (b'&Hb'&Hh'); [by exists s|]. congruence.
  - rewrite lookup_delete_ne by done. rewrite <- (Hc k hh). destruct (decide (k = height sbr)) as [->|Hk].
    + rewrite lookup_insert_eq, Hhs. split; (intros (s&[= <-]&Hin); eexists; split; [done|set_solver]).
    + by rewrite lookup_insert_ne by done.
Qed.

Lemma extended_remove Q c0 h hs c c' : extended Q c0 (h :: hs) c → mem_records c0 !! h = None →
  remove_block_record h c = Ok c' → extended Q c0 hs c'.
Proof.
  intros [Hsub Hadd Hm Hp Hi] Hn E. pose proof (remove_block_record_index _ _ _ Hi E) as Hi'.
  unfold remove_block_record in E. res_inv. split; [|intros k|intros k b|done|done].
  - cbn. apply map_subseteq_spec. intros k b Hk. rewrite lookup_delete_ne by (intros ->; congruence).
    by apply (lookup_weaken _ _ _ _ Hk).
  - cbn. destruct (decide (k = h)) as [->|Hne]; [rewrite lookup_delete_eq; by intros []|].
    rewrite lookup_delete_ne by done. intros [?|Hin]%Hadd; [by left|]. right. set_solver.
  - cbn. intros [Hne Hk]%lookup_delete_Some. by apply Hm.
Qed.

Lemma extended_drop Q c0 h hs c : extended Q c0 (h :: hs) c →
  is_Some (mem_records c0 !! h) ∨ mem_records c !! h = None → extended Q c0 hs c.
Proof.
  intros [Hsub Hadd Hm Hp Hi] Hh. split; [done| |done|done|done]. intros k Hk. destruct (Hadd k Hk) as [?|Hin]; [by left|].
  apply elem_of_cons in Hin as [->|?]; [|by right]. destruct Hh as [?|Hh]; [by left|]. rewrite Hh in Hk. by destruct Hk.
Qed.

(** The hashes with whether the chain had their records *)
Definition presence_in (c : Chain) (hashes : list bytes) : list (bytes * bool) :=
  (λ hh, (hh, chain_contains_block c hh)) <$> hashes.

Lemma contains_block_true c h : chain_contains_block c h = true ↔ is_Some (mem_records c !! h).
Proof. unfold chain_contains_block. by rewrite bool_decide_eq_true. Qed.
Lemma contains_block_false c h : chain_contains_block c h = false ↔ mem_records c !! h = None.
Proof. unfold chain_contains_block. by rewrite bool_decide_eq_false, eq_None_not_Some. Qed.

Section Sound.
Context `{Packages} `{Sha256} `{StdHash} `{ClvmCasts} `{ClvmRunner} `{Bls} `{SetIter} `{VDF : Vdf} `{PlotTools}.
Context (constants : ConsensusConstants) (fuel : nat) (create_puzzlehash_for_pk : bytes → bytes) (time_time : float).

Lemma remove_record_inv h s s' : remove_record h s = (Ok tt, s') →
  ∃ c', remove_block_record h (bc_chain s) = Ok c' ∧ s' = set_chain c' s.
Proof. unfold remove_record. destruct (remove_block_record _ _) as [c'| |]; intros [=]; by exists c'. Qed.

Lemma remove_if_left_inv Q c0 h hs s s' : extended Q c0 (h :: hs) (bc_chain s) →
  remove_if_left (h, chain_contains_block c0 h) s = (Ok tt, s') →
  ∃ c', s' = set_chain c' s ∧ extended Q c0 hs c'.
Proof.
  intros Hx E. unfold remove_if_left in E. rewrite (st_bind_Ok _ _ _ _ _ (st_get_eq s)) in E.
  destruct (negb _ && _) eqn:Eb.
  - apply andb_prop in Eb as [E0 E1]. apply negb_true_iff, contains_block_false in E0.
    apply remove_record_inv in E as (c'&E&->). exists c'. split; [done|]. by eapply extended_remove.
  - apply st_ret_inv in E as [_ ->]. exists (bc_chain s). split; [by destruct s|]. eapply extended_drop; [done|].
    apply andb_false_iff in Eb as [E0|E1]; [left|right; by apply contains_block_false].
    by apply negb_false_iff, contains_block_true in E0.
Qed.

Lemma remove_added_inv Q c0 h hs s s' : extended Q c0 (h :: hs) (bc_chain s) →
  remove_added (h, chain_contains_block c0 h) s = (Ok tt, s') →
  ∃ c', s' = set_chain c' s ∧ extended Q c0 hs c'.
Proof.
  intros Hx E. unfold remove_added in E. destruct (chain_contains_block c0 h) eqn:E0.
  - apply st_ret_inv in E as [_ ->]. exists (bc_chain s). split; [by destruct s|]. eapply extended_drop; [done|].
    left. by apply contains_block_true.
  - apply contains_block_false in E0. apply remove_record_inv in E as (c'&E&->). exists c'. split; [done|].
    by eapply extended_remove.
Qed.

(** Either loop of removals takes out what was added. *)
Lemma removals_inv (f : bytes * bool → ST Blockchain unit) Q c0
  (Hf : ∀ h hs s s', extended Q c0 (h :: hs) (bc_chain s) → f (h, chain_contains_block c0 h) s = (Ok tt, s') →
        ∃ c', s' = set_chain c' s ∧ extended Q c0 hs c') :
  ∀ hs s s', extended Q c0 hs (bc_chain s) → st_for f (presence_in c0 hs) s = (Ok tt, s') →
  ∃ c', s' = set_chain c' s ∧ extended Q c0 [] c'.
Proof.
  induction hs as [|h hs IH]; intros s s' Hx E; cbn [presence_in fmap list_fmap st_for] in E.
  - apply st_ret_inv in E as [_ ->]. exists (bc_chain s). split; [by destruct s|done].
  - apply st_bind_inv in E as ([]&s1&E1&E). destruct (Hf _ _ _ _ Hx E1) as (c1&->&Hx1).
    destruct (IH (set_chain c1 s) _ Hx1 E) as (c'&->&Hx'). by exists c'.
Qed.

(** ** The loop over the blocks *)

(** A record computed from a block of the batch *)
Definition made_from (blocks : list FullBlock.t) (b : BlockRecord) : Prop :=
  ∃ block ri c, block ∈ blocks ∧ block_to_block_record constants (chain_interface c) fuel ri block = Ok b.

(** The record the difficulty of a block is computed from *)
Definition batch_prev (c : Chain) (prev : option BlockRecord) (block : FullBlock.t) : option BlockRecord :=
  if FullBlock.height block =? 0 then prev
  else match prev with Some b => Some b | None => mem_records c !! FullBlock.prev_header_hash block end.

(** The difficulty and the sub slot iterations of the blocks of a batch: each from the
    record of the block before it *)
Inductive batch_diffs (Q : BlockRecord → Prop) (c0 : Chain) (hs : list bytes) :
    option BlockRecord → list FullBlock.t → list (Z * Z) → Prop :=
  | batch_diffs_nil prev : batch_diffs Q c0 hs prev [] []
  | batch_diffs_cons prev block blocks c ri d ssi b diffs :
      extended Q c0 hs c →
      get_next_sub_slot_iters_and_difficulty constants (chain_interface c) fuel
        (bool_decide (0 < length (FullBlock.finished_sub_slots block))%nat) (batch_prev c prev block) = Ok (ssi, d) →
      block_to_block_record constants (chain_interface c) fuel ri block = Ok b →
      batch_diffs Q c0 hs (Some b) blocks diffs →
      batch_diffs Q c0 hs prev (block :: blocks) ((d, ssi) :: diffs).

(** A cache of records of the chain and of the batch, under their hashes *)
Definition view_ok (Q : BlockRecord → Prop) (c0 : Chain) (v : gmap bytes BlockRecord) : Prop :=
  ∀ h b, v !! h = Some b → header_hash b = h ∧ (mem_records c0 !! h = Some b ∨ Q b).
Definition records_keyed (c : Chain) : Prop := ∀ h b, mem_records c !! h = Some b → header_hash b = h.

Lemma view_ok_empty Q c0 : view_ok Q c0 ∅.
Proof. intros h b E. by rewrite lookup_empty in E. Qed.
Lemma view_ok_insert Q c0 v b : view_ok Q c0 v → mem_records c0 !! header_hash b = Some b ∨ Q b →
  view_ok Q c0 (<[header_hash b := b]> v).
Proof. intros Hv Hb h b' [[<- <-]|[_ E]]%lookup_insert_Some; [done|]. by apply Hv. Qed.

Lemma required_iters_still prev recent d block s r s' :
  block_required_iters constants fuel create_puzzlehash_for_pk prev recent d block s = (r, s') → s' = s.
Proof.
  intros E. symmetry. revert E. apply (keeps_at eq). unfold block_required_iters. keep.
Qed.

Lemma batch_prev_read c prev block r s s' : bc_chain s = c →
  (if FullBlock.height block =? 0 then mret prev
   else chain_read (λ c, assert_ (chain_contains_block c (FullBlock.prev_header_hash block))) ;;
     match prev with
     | Some b => mret (Some b)
     | None => b ← chain_read (λ c, chain_block_record c (FullBlock.prev_header_hash block)); mret (Some b)
     end) s = (Ok r, s') → r = batch_prev c prev block ∧ s' = s.
Proof.
  intros <- E. unfold batch_prev. destruct (_ =? 0); [by apply st_ret_inv in E|].
  apply st_bind_inv in E as ([]&s1&E1&E). injection E1 as _ <-. destruct prev as [b|]; [by apply st_ret_inv in E|].
  apply st_bind_inv in E as (b&s1&E1&E). injection E1 as E1 <-. apply st_ret_inv in E as [-> ->].
  unfold chain_block_record in E1. by apply of_opt_Ok in E1.
Qed.

(** What one round does to the memory and to its variables *)
Lemma batch_step_inv Q c0 hs wp t block s r s' :
  batch_step constants fuel create_puzzlehash_for_pk (presence_in c0 hs) wp t block s = (Ok r, s') →
  extended Q c0 hs (bc_chain s) → (∀ hh, block_header_hash block = Ok hh → hh ∈ hs) →
  (∀ ri b c, block_to_block_record constants (chain_interface c) fuel ri block = Ok b → Q b) → records_keyed c0 →
  ∃ c', s' = set_chain c' s ∧
  match r with
  | inr _ => wp = None → extended Q c0 [] c'
  | inl t' => extended Q c0 hs c' ∧ ∃ d ssi ri b,
      get_next_sub_slot_iters_and_difficulty constants (chain_interface (bc_chain s)) fuel
        (bool_decide (0 < length (FullBlock.finished_sub_slots block))%nat)
        (batch_prev (bc_chain s) (ba_prev_b t) block) = Ok (ssi, d)
      ∧ block_to_block_record constants (chain_interface (bc_chain s)) fuel ri block = Ok b
      ∧ ba_prev_b t' = Some b ∧ ba_diff_ssis t' = ba_diff_ssis t ++ [(d, ssi)]
      ∧ is_Some (mem_records c' !! header_hash b)
      ∧ (view_ok Q c0 (ba_recent t) → view_ok Q c0 (ba_recent t'))
      ∧ (view_ok Q c0 (ba_compressed t) → view_ok Q c0 (ba_compressed t'))
  end.
Proof.
  intros E Hx Hin HQ Hk. unfold batch_step in E. apply st_bind_inv in E as (prev&s1&E1&E).
  apply (batch_prev_read (bc_chain s)) in E1 as [-> ->]; [|done]. apply st_bind_inv in E as ([ssi d]&s1&E1&E).
  injection E1 as E1 <-. apply st_bind_inv in E as (required&s1&E2&E). apply required_iters_still in E2 as ->.
  destruct required as [ri|].
  - apply st_bind_inv in E as (b&s1&E3&E). injection E3 as E3 <-. apply st_bind_inv in E as (ok&s1&E4&E).
    apply st_res_inv in E4 as [E4 ->]. destruct ok; cbn [negb] in E.
    + rewrite (st_bind_Ok _ _ _ _ _ (st_get_eq s)) in E. apply st_bind_inv in E as (kept&s1&E5&E).
      apply st_ret_inv in E as [-> ->].
      assert (Hbh : header_hash b ∈ hs).
      { apply Hin. apply record_inv in E3 as (?&?&?&?&?&?&Er&_). by apply header_record_fields in Er as [? _]. }
      destruct (chain_contains_block (bc_chain s) (header_hash b)) eqn:Ec.
      * injection E5 as E5 <-. unfold chain_block_record in E5. apply of_opt_Ok in E5. exists (bc_chain s).
        split; [by destruct s|]. split; [done|]. exists d, ssi, ri, b. cbn. split_and!; try done; try by exists kept.
        all: intros Hv; destruct (ex_made _ _ _ _ Hx _ _ E5) as [Hc|[He Hq]];
          [pose proof (Hk _ _ Hc) as He|]; rewrite <- He in *; apply view_ok_insert; auto.
      * apply contains_block_false in Ec. apply st_bind_inv in E5 as ([]&s2&E5&E6). injection E5 as <-.
        apply st_ret_inv in E6 as [-> ->]. eexists. split; [done|]. split; [by apply extended_add; eauto|].
        exists d, ssi, ri, b. cbn. split_and!; try done; [rewrite lookup_insert_eq; by exists b|..];
          intros Hv; apply view_ok_insert; eauto.
    + apply st_ret_inv in E as [-> ->]. exists (bc_chain s). split; [by destruct s|]. intros ->. unfold summary_matches in E4.
      by destruct (sub_epoch_summary_included b).
  - apply st_bind_inv in E as ([]&s1&E3&E). apply st_ret_inv in E as [-> ->].
    destruct (removals_inv _ Q c0 (remove_if_left_inv Q c0) _ _ _ Hx E3) as (c'&->&Hx'). by exists c'.
Qed.

Lemma batch_loop_inv Q c0 hs wp blocks : records_keyed c0 →
  (∀ block hh, block ∈ blocks → block_header_hash block = Ok hh → hh ∈ hs) →
  (∀ block ri b c, block ∈ blocks → block_to_block_record constants (chain_interface c) fuel ri block = Ok b → Q b) →
  ∀ t s r s', st_early (batch_step constants fuel create_puzzlehash_for_pk (presence_in c0 hs) wp) t blocks s = (Ok r, s') →
  extended Q c0 hs (bc_chain s) →
  ∃ c', s' = set_chain c' s ∧
  match r with
  | inr _ => wp = None → extended Q c0 [] c'
  | inl t' => extended Q c0 hs c' ∧ ∃ diffs,
      ba_diff_ssis t' = ba_diff_ssis t ++ diffs ∧ batch_diffs Q c0 hs (ba_prev_b t) blocks diffs
      ∧ (view_ok Q c0 (ba_recent t) → view_ok Q c0 (ba_recent t'))
      ∧ (view_ok Q c0 (ba_compressed t) → view_ok Q c0 (ba_compressed t'))
  end.
Proof.
  intros Hk. induction blocks as [|block blocks IH]; intros Hin HQ t s r s' E Hx; cbn [st_early] in E.
  - apply st_ret_inv in E as [-> ->]. exists (bc_chain s). split; [by destruct s|]. split; [done|]. exists [].
    rewrite app_nil_r. split_and!; [done|constructor|done|done].
  - apply st_bind_inv in E as (r1&s1&E1&E). destruct (batch_step_inv Q c0 hs wp t block s r1 s1 E1 Hx) as (c1&->&H1').
    { intros hh Hhh. by apply (Hin block); [left|]. }
    { intros ri b c Eb. by apply (HQ block ri b c); [left|]. }
    { done. }
    destruct r1 as [t1|[]].
    + destruct H1' as (Hx1&d&ssi&ri&b&Ed&Eb&Ep&El&_&Hr1&Hc1).
      destruct (IH (λ b hh Hb, Hin b hh (list_elem_of_further _ _ _ Hb))
        (λ b' ri' b0 c2 Hb, HQ b' ri' b0 c2 (list_elem_of_further _ _ _ Hb)) t1 (set_chain c1 s) r s' E Hx1) as (c'&->&H2'). exists c'. split; [done|].
      destruct r as [t'|u]; [|done]. destruct H2' as (Hx'&diffs&El'&Hd&Hr2&Hc2). split; [done|].
      exists ((d, ssi) :: diffs). split_and!; [| |auto|auto]; cycle 1.
      { rewrite Ep in Hd. exact (batch_diffs_cons Q c0 hs _ block blocks (bc_chain s) ri d ssi b diffs Hx Ed Eb Hd). }
      rewrite El', El, <- app_assoc. done.
    + apply st_ret_inv in E as [-> ->]. by exists c1.
Qed.

(** ** The validation of the batches *)
Lemma generator_step_keeps dict gens block : keeps chain_kept (generator_step fuel dict gens block).
Proof.
  unfold generator_step. keep. apply catch_keeps, on_stores_keeps, generator_keeps.
Qed.
Lemma generators_length dict blocks : ∀ gens s gens' s',
  st_early (generator_step fuel dict) gens blocks s = (Ok (inl gens'), s') →
  length gens' = (length gens + length blocks)%nat.
Proof.
  induction blocks as [|b blocks IH]; intros gens s gens' s' E; cbn [st_early] in E.
  - apply st_ret_inv in E as [[= ->] _]. cbn. lia.
  - apply st_bind_inv in E as (r&s1&E1&E). unfold generator_step in E1. apply st_bind_inv in E1 as (prevs&s2&_&E1).
    rewrite (st_bind_Ok _ _ _ _ _ (st_get_eq s2)) in E1. apply st_bind_inv in E1 as ([g|[]]&s3&_&E1);
      apply st_ret_inv in E1 as [-> ->]; [|by apply st_ret_inv in E as [[=] _]].
    apply IH in E. rewrite E, length_app. cbn. lia.
Qed.

Lemma zip_items {A B C R} (P : A → C → R → Prop) (batch : list (A * C)) (gens : list B) (l : list R) :
  length gens = length batch →
  Forall2 (λ x r, P x.1.1 x.2 r) (zip (zip batch.*1 gens) batch.*2) l → Forall2 (λ x r, P x.1 x.2 r) batch l.
Proof.
  revert gens l. induction batch as [|[a c] batch IH]; intros [|g gens] l Hl HF; cbn in *; try discriminate Hl.
  - inversion HF. constructor.
  - inversion HF; subst. constructor; [done|]. eapply IH; [|done]. lia.
Qed.

(** A result without error comes from a header that was accepted with one of the
    caches of [t]. *)
Definition item_accepted (t : BatchState) (check_filter : bool) (s : Blockchain) (block : FullBlock.t) (diff_ssi : Z * Z)
    (r : PreValidationResult) : Prop :=
  pv_error r = None → ∃ s1 v hb ri coeff,
    chain_kept s s1 ∧ (v = ba_recent t ∨ v = ba_compressed t) ∧ header_of_block block hb
    ∧ validate_finished_header_block constants (recent_view v) fuel (farmer_coeff constants fuel create_puzzlehash_for_pk s1)
        time_time hb check_filter diff_ssi.1 diff_ssi.2 true = Ok (inl (ri, coeff))
    ∧ pv_required_iters r = Some ri.

Lemma pre_validate_block_inv s v npcs check_filter block g d r :
  on_exception (failed_result Err.UNKNOWN)
    (pre_validate_block constants fuel create_puzzlehash_for_pk time_time s v npcs check_filter block g d) = Ok r →
  pv_error r = None → ∃ hb ri coeff, header_of_block block hb
    ∧ validate_finished_header_block constants (recent_view v) fuel (farmer_coeff constants fuel create_puzzlehash_for_pk s)
        time_time hb check_filter d.1 d.2 true = Ok (inl (ri, coeff))
    ∧ pv_required_iters r = Some ri.
Proof.
  intros E Hr. destruct (pre_validate_block _ _ _ _ _ _ _ _ _ _ _) as [r'|e|] eqn:Ep; cbn in E; [|by injection E as <-|done].
  injection E as ->. unfold pre_validate_block in Ep. apply bind_Ok in Ep as ([[rem add] npc]&_&Ep).
  apply bind_Ok in Ep as (hb&Eh&Ep). apply bind_Ok in Ep as ([[ri coeff]|e]&Ev&Ep); cycle 1.
  { apply bind_Ok in Ep as (code&_&Ep). by injection Ep as <-. }
  injection Ep as <-. exists hb, ri, coeff. split_and!; [|exact Ev|done].
  unfold get_block_header in Eh. apply bind_Ok in Eh as (rw&_&Eh). by injection Eh as <-.
Qed.

Lemma validate_batch_keeps t dict npcs cf results batch :
  keeps chain_kept (validate_batch constants fuel create_puzzlehash_for_pk time_time t dict npcs cf results batch).
Proof. unfold validate_batch. keep. apply generator_step_keeps. Qed.

Lemma validate_batch_inv t dict npcs cf results batch s results' s' :
  validate_batch constants fuel create_puzzlehash_for_pk time_time t dict npcs cf results batch s = (Ok (inl results'), s') →
  ∃ l, results' = results ++ l ∧ Forall2 (λ x r, item_accepted t cf s x.1 x.2 r) batch l.
Proof.
  intros E. unfold validate_batch in E. apply st_bind_inv in E as (r&s1&E1&E).
  assert (K : chain_kept s s1). { eapply (keeps_at chain_kept); [|exact E1]. keep. apply generator_step_keeps. }
  destruct r as [gens|[]]; [|by apply st_ret_inv in E as [[=] _]]. apply generators_length in E1. rewrite length_fmap in E1.
  rewrite (st_bind_Ok _ _ _ _ _ (st_get_eq s1)) in E. apply st_bind_inv in E as (l&s2&E2&E).
  apply st_res_inv in E2 as [E2 ->]. apply st_ret_inv in E as [[= ->] ->]. exists l. split; [done|].
  apply (zip_items _ _ gens); [done|]. unfold batch_pre_validate_blocks in E2. apply for_each_Ok in E2.
  eapply Forall2_impl; [exact E2|]. intros [[block g] d] r E. cbn. intros Hr.
  apply pre_validate_block_inv in E as (hb&ri&coeff&Hh&Hv&Hri); [|done].
  exists s1. eexists _, hb, ri, coeff. split_and!; [done| |done|exact Hv|done]. destruct (existsb _ _); auto.
Qed.

Lemma batches_concat {A} (n : nat) fuel' : ∀ (l : list A), (length l ≤ fuel')%nat → (n ≠ 0)%nat → concat (batches fuel' n l) = l.
Proof.
  induction fuel' as [|f IH]; intros [|x l] Hl Hn; cbn [batches concat]; cbn in Hl; try done; try lia.
  rewrite IH; [apply take_drop|rewrite length_drop; cbn; lia|done].
Qed.

Lemma batches_inv t dict npcs cf : ∀ bs results s results' s',
  st_early (validate_batch constants fuel create_puzzlehash_for_pk time_time t dict npcs cf) results bs s
    = (Ok (inl results'), s') →
  ∃ l, results' = results ++ l ∧ Forall2 (λ x r, item_accepted t cf s x.1 x.2 r) (concat bs) l.
Proof.
  induction bs as [|b bs IH]; intros results s results' s' E; cbn [st_early] in E.
  - apply st_ret_inv in E as [[= ->] _]. exists []. rewrite app_nil_r. split; [done|constructor].
  - apply st_bind_inv in E as ([r1|[]]&s1&E1&E); [|by apply st_ret_inv in E as [[=] _]].
    assert (K : chain_kept s s1) by (eapply (keeps_at chain_kept); [apply validate_batch_keeps|exact E1]).
    apply validate_batch_inv in E1 as (l1&->&H1'). apply IH in E as (l2&->&H2'). exists (l1 ++ l2).
    rewrite <- app_assoc. split; [done|]. cbn [concat]. apply Forall2_app; [done|].
    eapply Forall2_impl; [exact H2'|]. intros x r Hx Hr. destruct (Hx Hr) as (s2&v&hb&ri&coeff&K2&?).
    exists s2, v, hb, ri, coeff. split; [by etrans|done].
Qed.

(** ** The caches of recent records *)
Lemma recent_scan_view Q c look : records_keyed c → ∀ n s s',
  loop n (recent_scan_body constants c look) s = Ok s' →
  (∃ h, mem_records c !! h = Some (rs_curr s)) → view_ok Q c (rs_recent s) → view_ok Q c (rs_compressed s) →
  (∃ h, mem_records c !! h = Some (rs_curr s')) ∧ view_ok Q c (rs_recent s') ∧ view_ok Q c (rs_compressed s').
Proof.
  intros Hk. induction n as [|n IH]; intros s s' E [h Hh] Hr Hc; cbn [loop] in E; [done|].
  apply bind_Ok in E as (r&Eb&E). unfold recent_scan_body in Eb.
  assert (Hs : mem_records c !! header_hash (rs_curr s) = Some (rs_curr s)) by by rewrite (Hk _ _ Hh).
  destruct (_ && _) in Eb; [|injection Eb as <-; injection E as <-; eauto].
  apply bind_Ok in Eb as (found&_&Eb). apply bind_Ok in Eb as (prev&Ep&Eb). injection Eb as <-.
  unfold chain_block_record in Ep. apply of_opt_Ok in Ep. eapply IH; [exact E|by eexists| |]; cbn.
  - apply view_ok_insert; auto.
  - destruct (_ || _); [apply view_ok_insert; auto|done].
Qed.

Lemma recent_records_view Q c prev recent compressed : records_keyed c →
  recent_records constants fuel c prev = Ok (recent, compressed) → view_ok Q c recent ∧ view_ok Q c compressed.
Proof.
  intros Hk E. unfold recent_records in E. apply bind_Ok in E as (curr&Ec&E). unfold chain_block_record in Ec.
  apply of_opt_Ok in Ec. apply bind_Ok in E as (s&Es&E). injection E as <- <-.
  apply (recent_scan_view Q) in Es as ((h&Hh)&Hr&Hcm); [|done|by eexists|apply view_ok_empty..].
  pose proof (Hk _ _ Hh). subst h. split; apply view_ok_insert; auto.
Qed.

(** ** The whole function *)

(** The tables, the hints, the records in memory and the path to the peak are those
    before; the index of the records is exact. *)
Definition restored (s s' : Blockchain) : Prop :=
  stores_kept (bc_stores s) (bc_stores s') ∧ bc_hints s' = bc_hints s ∧ bc_seen_proofs s' = bc_seen_proofs s
  ∧ mem_records (bc_chain s') = mem_records (bc_chain s) ∧ peak_height (bc_chain s') = peak_height (bc_chain s)
  ∧ mem_height_to_hash (bc_chain s') = mem_height_to_hash (bc_chain s)
  ∧ mem_summaries (bc_chain s') = mem_summaries (bc_chain s) ∧ index_ok (bc_chain s').

Lemma extended_restored Q c0 s c' s' : bc_chain s = c0 → extended Q c0 [] c' → chain_kept (set_chain c' s) s' → restored s s'.
Proof.
  intros <- Hx (K&Ec&Eh&Es). cbn in *. pose proof (extended_nil _ _ _ Hx). destruct (ex_path _ _ _ _ Hx) as (?&?&?).
  unfold restored. rewrite Ec. split_and!; try done. by destruct Hx.
Qed.

(** A result without error comes from a header accepted, with the difficulty and the
    iterations of its place in the batch, against records of the chain and of the
    batch; it carries the iterations [receive_block] asks for; and the block is one
    higher and by the difficulty heavier than the record of its parent. *)
Definition validated (Q : BlockRecord → Prop) (check_filter : bool) (s : Blockchain) (block : FullBlock.t) (diff_ssi : Z * Z)
    (r : PreValidationResult) : Prop :=
  pv_error r = None → ∃ s1 v hb ri coeff,
    restored s s1 ∧ view_ok Q (bc_chain s) v ∧ header_of_block block hb
    ∧ validate_finished_header_block constants (recent_view v) fuel (farmer_coeff constants fuel create_puzzlehash_for_pk s1)
        time_time hb check_filter diff_ssi.1 diff_ssi.2 true = Ok (inl (ri, coeff))
    ∧ pv_required_iters r = Some ri
    ∧ (FullBlock.height block = 0
       ∨ ∃ p, v !! FullBlock.prev_header_hash block = Some p ∧ FullBlock.height block = height p + 1
           ∧ FullBlock.weight block = weight p + diff_ssi.1).

Lemma item_validated Q c' t cf s s1 block d r : extended Q (bc_chain s) [] c' → chain_kept (set_chain c' s) s1 →
  view_ok Q (bc_chain s) (ba_recent t) → view_ok Q (bc_chain s) (ba_compressed t) →
  item_accepted t cf s1 block d r → validated Q cf s block d r.
Proof.
  intros Hx K Hr Hc Hi Herr. destruct (Hi Herr) as (s2&v&hb&ri&coeff&K2&Hv&Hh&Ev&Eri).
  exists s2, v, hb, ri, coeff. split_and!; [|by destruct Hv as [-> | ->]|done|done|done|].
  - eapply extended_restored; [done|exact Hx|by etrans].
  - destruct Hh as (_&E1&E2&_). apply finished_inv in Ev as (_&_&_&prev_b&_&_&Hp&_&_&Hhw&_).
    apply height_weight_inv in Hhw. unfold FullBlock.height, FullBlock.weight, FullBlock.prev_header_hash.
    unfold HeaderBlock.height, HeaderBlock.weight, HeaderBlock.prev_header_hash in *. rewrite E1, ?E2 in *.
    destruct Hp as [[-> Hz]|(_&p&->&Ep)]; [by left|]. right. exists p. cbn in Ep. unfold bc_block_record in Ep.
    by apply of_opt_Ok in Ep.
Qed.

Lemma batch_diffs_length Q c0 hs prev blocks diffs : batch_diffs Q c0 hs prev blocks diffs → length diffs = length blocks.
Proof. induction 1; cbn; congruence. Qed.

Lemma pre_validate_inv blocks cf npcs bs wp s o s' :
  index_ok (bc_chain s) → records_keyed (bc_chain s) →
  pre_validate_blocks_multiprocessing constants fuel create_puzzlehash_for_pk time_time blocks cf npcs bs wp s = (Ok o, s') →
  (∃ first, blocks !! 0%nat = Some first ∧ o = Some [failed_result Err.INVALID_PREV_BLOCK_HASH] ∧ s' = s
     ∧ chain_contains_block (bc_chain s) (FullBlock.prev_header_hash first) = false)
  ∨ (is_Some o ∨ wp = None → restored s s')
    ∧ ∀ l, o = Some l → ∃ hashes diffs, for_each block_header_hash blocks = Ok hashes
        ∧ batch_diffs (made_from blocks) (bc_chain s) hashes None blocks diffs
        ∧ Forall2 (λ x r, validated (made_from blocks) cf s x.1 x.2 r) (zip blocks diffs) l.
Proof.
  intros Hi Hk E. unfold pre_validate_blocks_multiprocessing in E. apply st_bind_inv in E as (first&s1&E1&E).
  apply st_res_inv in E1 as [E1 ->]. apply st_bind_inv in E as (recent&s1&E2&E).
  assert (s1 = s ∧ match recent with
          | None => chain_contains_block (bc_chain s) (FullBlock.prev_header_hash first) = false
          | Some (r, c) => view_ok (made_from blocks) (bc_chain s) r ∧ view_ok (made_from blocks) (bc_chain s) c end) as [-> Hrec].
  { destruct (0 <? _); [|apply st_ret_inv in E2 as [-> ->]; split; [done|]; split; apply view_ok_empty].
    rewrite (st_bind_Ok _ _ _ _ _ (st_get_eq s)) in E2.
    destruct (chain_contains_block _ _) eqn:Ec; [|by apply st_ret_inv in E2 as [-> ->]].
    apply st_bind_inv in E2 as ([r c]&s2&E2&E3). apply st_res_inv in E2 as [E2 ->]. apply st_ret_inv in E3 as [-> ->].
    split; [done|]. by eapply recent_records_view. }
  destruct recent as [[recent compressed]|].
  2: { apply st_ret_inv in E as [-> ->]. left. exists first. split_and!; [|done..].
       destruct blocks as [|b blocks]; [done|]. by injection E1 as ->. }
  right. destruct Hrec as [Hr Hc]. apply st_bind_inv in E as (hashes&s1&E3&E). apply st_res_inv in E3 as [E3 ->].
  rewrite (st_bind_Ok _ _ _ _ _ (st_get_eq s)) in E. fold (presence_in (bc_chain s) hashes) in E.
  apply st_bind_inv in E as (r&s1&E4&E).
  apply (batch_loop_inv (made_from blocks) _ _ _ _ Hk) in E4 as (c1&->&H4'); [| | |by apply extended_refl].
  2: { intros block hh Hb Ehh. apply for_each_Ok in E3. apply list_elem_of_lookup in Hb as [i Hb].
       destruct (Forall2_lookup_l _ _ _ _ _ E3 Hb) as (hh'&Hl&Ehh'). rewrite Ehh in Ehh'. injection Ehh' as <-.
       by apply list_elem_of_lookup_2 in Hl. }
  2: { intros block ri b c Hb Eb. by exists block, ri, c. }
  destruct r as [t|[]].
  2: { apply st_ret_inv in E as [-> ->]. split; [|done]. intros [[? [=]]|Hw].
       eapply extended_restored; [done|by apply H4'|done]. }
  destruct H4' as (Hx&diffs&El&Hd&Hvr&Hvc). specialize (Hvr Hr). specialize (Hvc Hc). cbn [ba_diff_ssis app ba_prev_b] in El, Hd.
  apply st_bind_inv in E as ([]&s1&E4&E).
  destruct (removals_inv _ _ _ (remove_added_inv (made_from blocks) (bc_chain s)) _ (set_chain c1 s) _ Hx E4) as (c2&->&Hx2).
  change (set_chain c2 (set_chain c1 s)) with (set_chain c2 s) in E.
  apply st_bind_inv in E as ([]&s1&E5&E). apply st_res_inv in E5 as [E5 ->]. apply check_Ok, negb_true_iff, Nat.eqb_neq in E5.
  apply st_bind_inv in E as (r&s1&E6&E).
  assert (K : chain_kept (set_chain c2 s) s1).
  { eapply (keeps_at chain_kept); [|exact E6]. keep. apply validate_batch_keeps. }
  destruct r as [results|[]].
  - apply st_ret_inv in E as [-> ->]. split; [intros _; by eapply extended_restored|].
    intros l [= <-]. exists hashes, diffs. split_and!; [done|done|]. apply batches_inv in E6 as (l&->&HF).
    rewrite El, batches_concat in HF; [|rewrite length_zip, (batch_diffs_length _ _ _ _ _ _ Hd); lia|done].
    eapply Forall2_impl; [exact HF|]. intros x r. by apply (item_validated _ c2).
  - apply st_ret_inv in E as [-> ->]. split; [intros _; by eapply extended_restored|done].
Qed.

(** ** A batch that fails half-way *)
Lemma bind_read {S A B} (m : ST S A) (f : A → ST S B) s : keeps eq m →
  (x ← m; f x) s = match (m s).1 with Ok a => f a s | Raise e => (Raise e, s) | OutOfFuel => (OutOfFuel, s) end.
Proof. intros Hm. specialize (Hm s). unfold mbind, st_bind. by destruct (m s) as [[a|e|] s']; cbn in Hm; subst. Qed.

Lemma batch_step_presence presence presence' wp t block s t' s' :
  batch_step constants fuel create_puzzlehash_for_pk presence wp t block s = (Ok (inl t'), s') →
  batch_step constants fuel create_puzzlehash_for_pk presence' wp t block s = (Ok (inl t'), s').
Proof.
  unfold batch_step. intros E. apply st_bind_inv in E as (prev&s1&E1&E). rewrite (st_bind_Ok _ _ _ _ _ E1).
  apply st_bind_inv in E as ([ssi d]&s2&E2&E). rewrite (st_bind_Ok _ _ _ _ _ E2).
  apply st_bind_inv in E as ([ri|]&s3&E3&E); rewrite (st_bind_Ok _ _ _ _ _ E3); [exact E|].
  apply st_bind_inv in E as ([]&s4&_&E). by apply st_ret_inv in E as [[=] _].
Qed.

Lemma bad_index_fails presence wp t block s :
  NUM_SPS_SUB_SLOT constants <= RewardChainBlock.signage_point_index (FullBlock.reward_chain_block block) →
  ∃ o, batch_step constants fuel create_puzzlehash_for_pk presence wp t block s = (o, s) ∧ ∀ r, o ≠ Ok r.
Proof.
  intros Hi. unfold batch_step. rewrite bind_read by (keep; by intros ?).
  destruct (_ s).1 as [prev|e|]; [|by eexists..]. rewrite bind_read by (by intros ?).
  destruct (chain_read _ _).1 as [[ssi d]|e|]; [|by eexists..]. unfold block_required_iters at 1, is_overflow_block at 1.
  rewrite (proj2 (Z.leb_le _ _)) by done. by eexists.
Qed.

Lemma early_two {A S T R} (body : T → A → ST S (T + R)) t x y s t' s' o s'' :
  body t x s = (Ok (inl t'), s') → body t' y s' = (o, s'') → (∀ r, o ≠ Ok r) →
  ∃ o', st_early body t [x; y] s = (o', s'') ∧ ∀ r, o' ≠ Ok r.
Proof.
  intros E1 E2 Ho. cbn [st_early]. rewrite (st_bind_Ok _ _ _ _ _ E1). unfold mbind, st_bind. rewrite E2.
  destruct o; [by destruct (Ho a)|by eexists..].
Qed.

(** The loop over the blocks of an accepted batch of one *)
Lemma single_step_inv block cf npcs bs wp s r s' :
  pre_validate_blocks_multiprocessing constants fuel create_puzzlehash_for_pk time_time [block] cf npcs bs wp s
    = (Ok (Some [r]), s') → pv_error r = None →
  ∃ recent hh t s1,
    (if 0 <? FullBlock.height block then
       s ← st_get;
       if chain_contains_block (bc_chain s) (FullBlock.prev_header_hash block) then
         r ← st_res (recent_records constants fuel (bc_chain s) (FullBlock.prev_header_hash block)); mret (Some r)
       else mret None
     else mret (Some (∅, ∅))) s = (Ok (Some recent), s)
    ∧ block_header_hash block = Ok hh
    ∧ batch_step constants fuel create_puzzlehash_for_pk (presence_in (bc_chain s) [hh]) wp
        {| ba_prev_b := None; ba_recent := recent.1; ba_compressed := recent.2; ba_diff_ssis := [] |} block s
      = (Ok (inl t), s1).
Proof.
  intros E Hr. unfold pre_validate_blocks_multiprocessing in E. apply st_bind_inv in E as (first&s1&E1&E).
  apply st_res_inv in E1 as [E1 ->]. injection E1 as ->. apply st_bind_inv in E as (recent&s1&E2&E).
  assert (s1 = s) as -> by (symmetry; eapply (keeps_at eq); [|exact E2]; keep).
  destruct recent as [[recent compressed]|]; [|apply st_ret_inv in E as [[= ->] _]; done].
  apply st_bind_inv in E as (hashes&s1&E3&E). apply st_res_inv in E3 as [E3 ->].
  apply for_each_Ok in E3. inversion E3 as [|? hh ? l Hh Hl]; subst. inversion Hl; subst. clear Hl E3.
  rewrite (st_bind_Ok _ _ _ _ _ (st_get_eq s)) in E. apply st_bind_inv in E as ([t|[]]&s1&E4&E);
    [|by apply st_ret_inv in E as [[=] _]].
  cbn [st_early] in E4. apply st_bind_inv in E4 as ([t1|[]]&s2&E4&E5); [|by apply st_ret_inv in E5 as [[=] _]].
  apply st_ret_inv in E5 as [[= ->] ->]. exists (recent, compressed), hh, t1, s2. by split_and!.
Qed.

Lemma leak block bad cf npcs bs wp s r s' hb :
  index_ok (bc_chain s) → records_keyed (bc_chain s) →
  pre_validate_blocks_multiprocessing constants fuel create_puzzlehash_for_pk time_time [block] cf npcs bs wp s
    = (Ok (Some [r]), s') → pv_error r = None → block_header_hash bad = Ok hb →
  NUM_SPS_SUB_SLOT constants <= RewardChainBlock.signage_point_index (FullBlock.reward_chain_block bad) →
  ∃ o s'' hh, pre_validate_blocks_multiprocessing constants fuel create_puzzlehash_for_pk time_time [block; bad] cf npcs bs wp s
      = (o, s'') ∧ (∀ l, o ≠ Ok l) ∧ block_header_hash block = Ok hh ∧ chain_contains_block (bc_chain s'') hh = true.
Proof.
  intros Hi Hk E Hr Hb Hbad. destruct (single_step_inv _ _ _ _ _ _ _ _ E Hr) as ([recent compressed]&hh&t&s1&E1&E2&E3).
  destruct (batch_step_inv (λ _, True) _ _ _ _ _ _ _ _ E3) as (c1&Es1&_&d&ssi&ri&b&_&Eb&_&_&Hin&_); try done.
  { by apply extended_refl. }
  { intros hh' Hhh'. rewrite E2 in Hhh'. injection Hhh' as <-. by left. }
  destruct (bad_index_fails (presence_in (bc_chain s) [hh; hb]) wp t bad s1 Hbad) as (o&E4&Ho).
  apply (batch_step_presence _ (presence_in (bc_chain s) [hh; hb])) in E3.
  destruct (early_two _ _ _ _ _ _ _ _ _ E3 E4 Ho) as (o'&E5&Ho').
  assert (header_hash b = hh) as <-.
  { apply record_inv in Eb as (?&?&?&?&?&?&Er&_). apply header_record_fields in Er as [Er _]. congruence. }
  exists (match o' with Ok _ => Raise KeyError | Raise e => Raise e | OutOfFuel => OutOfFuel end), s1, (header_hash b).
  split_and!; [|by destruct o'|done|apply contains_block_true; by rewrite Es1].
  unfold pre_validate_blocks_multiprocessing. rewrite (st_bind_Ok _ _ s block s eq_refl), (st_bind_Ok _ _ _ _ _ E1).
  cbn [fst snd]. erewrite st_bind_Ok; [|apply st_res_Ok, for_each_Ok; repeat constructor; [exact E2|exact Hb]].
  rewrite (st_bind_Ok _ _ _ _ _ (st_get_eq s)). cbv zeta. fold (presence_in (bc_chain s) [header_hash b; hb]).
  unfold mbind at 1, st_bind. cbn [ba_prev_b fst snd] in E5. rewrite E5. by destruct o' as [l| |]; [destruct (Ho' l)|..].
Qed.
End Sound.


(** A block that passes pre-validation on its own, followed by one with a signage point
    index out of range: the batch raises, and the record of the first block, which was
    never added to the chain, stays in memory as a block the node has. *)
Theorem failed_batch_leaves_record `{Packages} `{Sha256} `{StdHash} `{ClvmCasts} `{ClvmRunner} `{Bls} `{SetIter} `{Vdf}
    `{PlotTools} (constants : ConsensusConstants) (fuel : nat) (create_puzzlehash_for_pk : bytes → bytes) (time_time : float)
    (block bad : FullBlock.t) (check_filter : bool) (npc_results : gmap Z NPCResult) (batch_size : nat)
    (wp_summaries : option (list SubEpochSummary)) (s : Blockchain) (r : PreValidationResult) (s' : Blockchain) (bad_hash : bytes) :
  index_ok (bc_chain s) → records_keyed (bc_chain s) →
  pre_validate_blocks_multiprocessing constants fuel create_puzzlehash_for_pk time_time [block] check_filter npc_results
    batch_size wp_summaries s = (Ok (Some [r]), s') → pv_error r = None → block_header_hash bad = Ok bad_hash →
  NUM_SPS_SUB_SLOT constants <= RewardChainBlock.signage_point_index (FullBlock.reward_chain_block bad) →
  ∃ o s'' hh, pre_validate_blocks_multiprocessing constants fuel create_puzzlehash_for_pk time_time [block; bad] check_filter
      npc_results batch_size wp_summaries s = (o, s'') ∧ (∀ l, o ≠ Ok l)
    ∧ block_header_hash block = Ok hh ∧ chain_contains_block (bc_chain s'') hh = true.
Proof. apply leak. Qed.

(** ** A sample batch: a genesis block and its child, on an empty chain *)
#[local] Instance toy_sha256 : Sha256 := {| sha256 := std_hash; sha256_length := std_hash_length; sha256_bytes := std_hash_bytes |}.
Definition empty_info : TransactionsInfo.t := {|
  TransactionsInfo.generator_root := replicate 32 0; TransactionsInfo.generator_refs_root := replicate 32 1;
  TransactionsInfo.aggregated_signature := replicate 96 0; TransactionsInfo.fees := 0; TransactionsInfo.cost := 0;
  TransactionsInfo.reward_claims_incorporated := [] |}.
Definition with_info (b : FullBlock.t) : FullBlock.t := {|
  FullBlock.finished_sub_slots := FullBlock.finished_sub_slots b; FullBlock.reward_chain_block := FullBlock.reward_chain_block b;
  FullBlock.challenge_chain_sp_proof := FullBlock.challenge_chain_sp_proof b;
  FullBlock.challenge_chain_ip_proof := FullBlock.challenge_chain_ip_proof b;
  FullBlock.reward_chain_sp_proof := FullBlock.reward_chain_sp_proof b;
  FullBlock.reward_chain_ip_proof := FullBlock.reward_chain_ip_proof b;
  FullBlock.infused_challenge_chain_ip_proof := FullBlock.infused_challenge_chain_ip_proof b;
  FullBlock.foliage := FullBlock.foliage b; FullBlock.foliage_transaction_block := FullBlock.foliage_transaction_block b;
  FullBlock.transactions_info := Some empty_info; FullBlock.transactions_generator := None;
  FullBlock.transactions_generator_ref_list := [] |}.
Definition empty_chain : Chain :=
  {| peak_height := None; mem_records := ∅; heights_in_cache := ∅; mem_height_to_hash := ∅; mem_summaries := ∅ |}.
Definition start_state : Blockchain := {|
  bc_chain := empty_chain;
  bc_stores := {| st_coins := coin_store_create ∅ 2; st_blocks := block_store_create ∅ ∅; st_pairings := mk_LRUCache [] 10 |};
  bc_hints := []; bc_seen_proofs := [] |}.
Definition batch_sample : list FullBlock.t := [with_info genesis_block_sample; with_info second_block_sample].
Definition batch_run : res (option (list PreValidationResult)) * Blockchain :=
  pre_validate_blocks_multiprocessing DEFAULT_CONSTANTS 5 (λ x, x) sample_now batch_sample true ∅ 4 None start_state.
Definition good_result : PreValidationResult :=
  {| pv_error := None; pv_required_iters := Some 1; pv_npc_result := None; pv_difficulty_coeff := Some (dec_of_int 20) |}.
Lemma batch_run_results : batch_run.1 = Ok (Some [good_result; good_result]).
Proof. vm_compute. reflexivity. Qed.
Lemma start_index : index_ok (bc_chain start_state).
Proof. intros h hh. cbn. rewrite !lookup_empty. split; by intros (?&?&?). Qed.
Lemma start_keyed : records_keyed (bc_chain start_state).
Proof. intros h b E. cbn in E. by rewrite lookup_empty in E. Qed.


(** The child with a signage point index out of range *)
Definition with_index (i : Z) (r : RewardChainBlock.t) : RewardChainBlock.t := {|
  RewardChainBlock.weight := RewardChainBlock.weight r; RewardChainBlock.height := RewardChainBlock.height r;
  RewardChainBlock.total_iters := RewardChainBlock.total_iters r; RewardChainBlock.signage_point_index := i;
  RewardChainBlock.pos_ss_cc_challenge_hash := RewardChainBlock.pos_ss_cc_challenge_hash r;
  RewardChainBlock.proof_of_space := RewardChainBlock.proof_of_space r;
  RewardChainBlock.challenge_chain_sp_vdf := RewardChainBlock.challenge_chain_sp_vdf r;
  RewardChainBlock.challenge_chain_sp_signature := RewardChainBlock.challenge_chain_sp_signature r;
  RewardChainBlock.challenge_chain_ip_vdf := RewardChainBlock.challenge_chain_ip_vdf r;
  RewardChainBlock.reward_chain_sp_vdf := RewardChainBlock.reward_chain_sp_vdf r;
  RewardChainBlock.reward_chain_sp_signature := RewardChainBlock.reward_chain_sp_signature r;
  RewardChainBlock.reward_chain_ip_vdf := RewardChainBlock.reward_chain_ip_vdf r;
  RewardChainBlock.infused_challenge_chain_ip_vdf := RewardChainBlock.infused_challenge_chain_ip_vdf r;
  RewardChainBlock.is_transaction_block := RewardChainBlock.is_transaction_block r |}.
Definition bad_block : FullBlock.t := {|
  FullBlock.finished_sub_slots := []; FullBlock.reward_chain_block := with_index 64 (FullBlock.reward_chain_block second_block_sample);
  FullBlock.challenge_chain_sp_proof := None; FullBlock.challenge_chain_ip_proof := sample_vdf_proof;
  FullBlock.reward_chain_sp_proof := None; FullBlock.reward_chain_ip_proof := sample_vdf_proof;
  FullBlock.infused_challenge_chain_ip_proof := None; FullBlock.foliage := FullBlock.foliage second_block_sample;
  FullBlock.foliage_transaction_block := FullBlock.foliage_transaction_block second_block_sample;
  FullBlock.transactions_info := Some empty_info; FullBlock.transactions_generator := None;
  FullBlock.transactions_generator_ref_list := [] |}.
Definition genesis_run : res (option (list PreValidationResult)) * Blockchain :=
  pre_validate_blocks_multiprocessing DEFAULT_CONSTANTS 5 (λ x, x) sample_now [with_info genesis_block_sample] true ∅ 4 None
    start_state.
Lemma genesis_run_result : genesis_run.1 = Ok (Some [good_result]).
Proof. vm_compute. reflexivity. Qed.
Definition bad_hash : bytes := or_nil (block_header_hash bad_block).
Lemma bad_hash_eq : block_header_hash bad_block = Ok bad_hash.
Proof. vm_compute. reflexivity. Qed.

Lemma failed_batch_leaves_record_witness :
  ∃ o s'' hh, pre_validate_blocks_multiprocessing DEFAULT_CONSTANTS 5 (λ x, x) sample_now
      [with_info genesis_block_sample; bad_block] true ∅ 4 None start_state = (o, s'') ∧ (∀ l, o ≠ Ok l)
    ∧ block_header_hash (with_info genesis_block_sample) = Ok hh ∧ chain_contains_block (bc_chain s'') hh = true.
Proof.
  apply (failed_batch_leaves_record DEFAULT_CONSTANTS 5 (λ x, x) sample_now (with_info genesis_block_sample) bad_block true ∅ 4
    None start_state good_result genesis_run.2 bad_hash start_index start_keyed
    (run_outcome genesis_run _ genesis_run_result) eq_refl bad_hash_eq).
  vm_compute. discriminate.
Defined.
