(* ===== verification/FullNodeStore.v ===== *)
(** * The store of unfinished blocks, signage points and sub slots

    Models [chia/full_node/full_node_store.py] and [chia/full_node/signage_point.py]:
    what a node keeps in memory between two peaks.  The candidate and unfinished blocks
    are maps; the sub slots finished since the slot of the peak are a list with the
    signage points of each; what depends on a block that has not arrived yet waits in
    the future caches, keyed by the reward chain challenge that block will infuse.

    The lists of signage points are shared objects ([new_peak] may put one list into two
    sub slots): a list is kept with the identity of the object, and an assignment
    reaches every sub slot that holds the object.  [time_time n] is the [n]-th reading of
    the clock.  The transaction requests and the message caches that only
    [full_node.py] uses are not part of the state. *)
From S2P Require Import Prelude PyInt PyFloat PyDecimal Consensus ChainView Difficulty Errors Coins CoinStore Streamable.
From S2P Require Import BlockTypes BlockToRecord HeaderValidation Generator CachedBls BodyValidation Chain Blockchain.

#[export] Instance VDFProof_eq_dec : EqDecision VDFProof.t.
Proof. solve_decision. Defined.
#[export] Instance ChallengeChainSubSlot_eq_dec : EqDecision ChallengeChainSubSlot.t.
Proof. solve_decision. Defined.
#[export] Instance InfusedChallengeChainSubSlot_eq_dec : EqDecision InfusedChallengeChainSubSlot.t.
Proof. solve_decision. Defined.
#[export] Instance RewardChainSubSlot_eq_dec : EqDecision RewardChainSubSlot.t.
Proof. solve_decision. Defined.
#[export] Instance SubSlotProofs_eq_dec : EqDecision SubSlotProofs.t.
Proof. solve_decision. Defined.
#[export] Instance EndOfSubSlotBundle_eq_dec : EqDecision EndOfSubSlotBundle.t.
Proof. solve_decision. Defined.

Module SignagePoint.
Record t := {
  cc_vdf : option VDFInfo.t;
  cc_proof : option VDFProof.t;
  rc_vdf : option VDFInfo.t;
  rc_proof : option VDFProof.t;
}.
Definition none : t := {| cc_vdf := None; cc_proof := None; rc_vdf := None; rc_proof := None |}.
End SignagePoint.

(** [chia/protocols/timelord_protocol.py] *)
Module NewInfusionPointVDF.
Record t := {
  unfinished_reward_hash : bytes;
  challenge_chain_ip_vdf : VDFInfo.t;
  challenge_chain_ip_proof : VDFProof.t;
  reward_chain_ip_vdf : VDFInfo.t;
  reward_chain_ip_proof : VDFProof.t;
  infused_challenge_chain_ip_vdf : option VDFInfo.t;
  infused_challenge_chain_ip_proof : option VDFProof.t;
}.
End NewInfusionPointVDF.

(** A list object: its identity and what it holds *)
Record SpArray := { sa_id : nat; sa_sps : list (option SignagePoint.t) }.
Record SubSlot := {
  ss_eos : option EndOfSubSlotBundle.t;
  ss_array : SpArray;
  ss_total_iters : Z;
}.

Record FullNodeStore := {
  candidate_blocks : gmap bytes (Z * UnfinishedBlock.t);
  candidate_backup_blocks : gmap bytes (Z * UnfinishedBlock.t);
  seen_unfinished_blocks : gset bytes;
  unfinished_blocks : gmap bytes (Z * UnfinishedBlock.t * PreValidationResult);
  finished_sub_slots : list SubSlot;
  future_eos_cache : gmap bytes (list EndOfSubSlotBundle.t);
  future_sp_cache : gmap bytes (list (Z * SignagePoint.t));
  future_ip_cache : gmap bytes (list NewInfusionPointVDF.t);
  future_cache_key_times : gmap bytes Z;
  recent_signage_points : LRUCache bytes (SignagePoint.t * float);
  recent_eos : LRUCache bytes (EndOfSubSlotBundle.t * float);
  arrays_made : nat;
  clock_reads : nat;
}.

Record FullNodeStorePeakResult := {
  added_eos : option EndOfSubSlotBundle.t;
  new_signage_points : list (Z * SignagePoint.t);
  new_infusion_points : list NewInfusionPointVDF.t;
}.

Definition set_candidates (c b : gmap bytes (Z * UnfinishedBlock.t)) (s : FullNodeStore) : FullNodeStore := {|
  candidate_blocks := c; candidate_backup_blocks := b; seen_unfinished_blocks := seen_unfinished_blocks s;
  unfinished_blocks := unfinished_blocks s; finished_sub_slots := finished_sub_slots s;
  future_eos_cache := future_eos_cache s; future_sp_cache := future_sp_cache s; future_ip_cache := future_ip_cache s;
  future_cache_key_times := future_cache_key_times s; recent_signage_points := recent_signage_points s;
  recent_eos := recent_eos s; arrays_made := arrays_made s; clock_reads := clock_reads s |}.
Definition set_unfinished (u : gmap bytes (Z * UnfinishedBlock.t * PreValidationResult)) (seen : gset bytes)
    (s : FullNodeStore) : FullNodeStore := {|
  candidate_blocks := candidate_blocks s; candidate_backup_blocks := candidate_backup_blocks s;
  seen_unfinished_blocks := seen; unfinished_blocks := u; finished_sub_slots := finished_sub_slots s;
  future_eos_cache := future_eos_cache s; future_sp_cache := future_sp_cache s; future_ip_cache := future_ip_cache s;
  future_cache_key_times := future_cache_key_times s; recent_signage_points := recent_signage_points s;
  recent_eos := recent_eos s; arrays_made := arrays_made s; clock_reads := clock_reads s |}.
Definition set_slots (l : list SubSlot) (made : nat) (s : FullNodeStore) : FullNodeStore := {|
  candidate_blocks := candidate_blocks s; candidate_backup_blocks := candidate_backup_blocks s;
  seen_unfinished_blocks := seen_unfinished_blocks s; unfinished_blocks := unfinished_blocks s; finished_sub_slots := l;
  future_eos_cache := future_eos_cache s; future_sp_cache := future_sp_cache s; future_ip_cache := future_ip_cache s;
  future_cache_key_times := future_cache_key_times s; recent_signage_points := recent_signage_points s;
  recent_eos := recent_eos s; arrays_made := made; clock_reads := clock_reads s |}.
Definition set_future (e : gmap bytes (list EndOfSubSlotBundle.t)) (p : gmap bytes (list (Z * SignagePoint.t)))
    (i : gmap bytes (list NewInfusionPointVDF.t)) (t : gmap bytes Z) (s : FullNodeStore) : FullNodeStore := {|
  candidate_blocks := candidate_blocks s; candidate_backup_blocks := candidate_backup_blocks s;
  seen_unfinished_blocks := seen_unfinished_blocks s; unfinished_blocks := unfinished_blocks s;
  finished_sub_slots := finished_sub_slots s; future_eos_cache := e; future_sp_cache := p; future_ip_cache := i;
  future_cache_key_times := t; recent_signage_points := recent_signage_points s;
  recent_eos := recent_eos s; arrays_made := arrays_made s; clock_reads := clock_reads s |}.
Definition set_recent (p : LRUCache bytes (SignagePoint.t * float)) (e : LRUCache bytes (EndOfSubSlotBundle.t * float))
    (s : FullNodeStore) : FullNodeStore := {|
  candidate_blocks := candidate_blocks s; candidate_backup_blocks := candidate_backup_blocks s;
  seen_unfinished_blocks := seen_unfinished_blocks s; unfinished_blocks := unfinished_blocks s;
  finished_sub_slots := finished_sub_slots s; future_eos_cache := future_eos_cache s;
  future_sp_cache := future_sp_cache s; future_ip_cache := future_ip_cache s;
  future_cache_key_times := future_cache_key_times s; recent_signage_points := p; recent_eos := e;
  arrays_made := arrays_made s; clock_reads := clock_reads s |}.
Definition count_read (s : FullNodeStore) : FullNodeStore := {|
  candidate_blocks := candidate_blocks s; candidate_backup_blocks := candidate_backup_blocks s;
  seen_unfinished_blocks := seen_unfinished_blocks s; unfinished_blocks := unfinished_blocks s;
  finished_sub_slots := finished_sub_slots s; future_eos_cache := future_eos_cache s;
  future_sp_cache := future_sp_cache s; future_ip_cache := future_ip_cache s;
  future_cache_key_times := future_cache_key_times s; recent_signage_points := recent_signage_points s;
  recent_eos := recent_eos s; arrays_made := arrays_made s; clock_reads := S (clock_reads s) |}.

(** ** Candidate and unfinished blocks *)
Section Blocks.
Context `{Packages} `{StdHash}.

Definition add_candidate_block (quality_string : bytes) (h : Z) (unfinished_block : UnfinishedBlock.t) (backup : bool)
    (s : FullNodeStore) : FullNodeStore :=
  if backup
  then set_candidates (candidate_blocks s) (<[quality_string := (h, unfinished_block)]> (candidate_backup_blocks s)) s
  else set_candidates (<[quality_string := (h, unfinished_block)]> (candidate_blocks s)) (candidate_backup_blocks s) s.

Definition get_candidate_block (quality_string : bytes) (backup : bool) (s : FullNodeStore) : option (Z * UnfinishedBlock.t) :=
  if backup then candidate_backup_blocks s !! quality_string else candidate_blocks s !! quality_string.

(** [for key in del_keys: del m[key]], the keys being those of [m] whose value satisfies [old] *)
Definition del_keys {A} (old : A → bool) (m : gmap bytes A) : gmap bytes A :=
  let keys := (filter (λ kv : bytes * A, old kv.2) (map_to_list m)).*1 in
  foldr delete m keys.

Definition clear_candidate_blocks_below (h : Z) (s : FullNodeStore) : FullNodeStore :=
  let below (v : Z * UnfinishedBlock.t) := v.1 <? h in
  set_candidates (del_keys below (candidate_blocks s)) (del_keys below (candidate_backup_blocks s)) s.

Definition seen_unfinished_block (object_hash : bytes) (s : FullNodeStore) : bool * FullNodeStore :=
  if bool_decide (object_hash ∈ seen_unfinished_blocks s) then (true, s)
  else (false, set_unfinished (unfinished_blocks s) ({[object_hash]} ∪ seen_unfinished_blocks s) s).

Definition clear_seen_unfinished_blocks (s : FullNodeStore) : FullNodeStore := set_unfinished (unfinished_blocks s) ∅ s.

(** [UnfinishedBlock.partial_hash] *)
Definition partial_hash (b : UnfinishedBlock.t) : res bytes := hash_of (UnfinishedBlock.reward_chain_block b).

Definition add_unfinished_block (h : Z) (unfinished_block : UnfinishedBlock.t) (result : PreValidationResult) :
    ST FullNodeStore unit :=
  k ← st_res (partial_hash unfinished_block);
  st_modify (λ s, set_unfinished (<[k := (h, unfinished_block, result)]> (unfinished_blocks s)) (seen_unfinished_blocks s) s).

Definition get_unfinished_block (unfinished_reward_hash : bytes) (s : FullNodeStore) : option UnfinishedBlock.t :=
  '(_, b, _) ← unfinished_blocks s !! unfinished_reward_hash; Some b.
Definition get_unfinished_block_result (unfinished_reward_hash : bytes) (s : FullNodeStore) : option PreValidationResult :=
  '(_, _, r) ← unfinished_blocks s !! unfinished_reward_hash; Some r.

Definition clear_unfinished_blocks_below (h : Z) (s : FullNodeStore) : FullNodeStore :=
  set_unfinished (del_keys (λ v : Z * UnfinishedBlock.t * PreValidationResult, v.1.1 <? h) (unfinished_blocks s))
    (seen_unfinished_blocks s) s.

Definition remove_unfinished_block (partial_reward_hash : bytes) (s : FullNodeStore) : FullNodeStore :=
  match unfinished_blocks s !! partial_reward_hash with
  | Some _ => set_unfinished (delete partial_reward_hash (unfinished_blocks s)) (seen_unfinished_blocks s) s
  | None => s
  end.
End Blocks.

(** ** The future caches *)
Section Store.
Context `{Packages} `{StdHash} `{Vdf} (constants : ConsensusConstants) (blocks : BlockchainInterface) (fuel : nat).
Context (time_time : nat → float).

(** [time.time()] *)
Definition read_clock : ST FullNodeStore float := λ s, (Ok (time_time (clock_reads s)), count_read s).
Definition read_seconds : ST FullNodeStore Z := t ← read_clock; st_res (int_of_float t).

Definition future_list {A} (ch : bytes) (m : gmap bytes (list A)) : list A := default [] (m !! ch).

Definition add_to_future_ip (infusion_point : NewInfusionPointVDF.t) (s : FullNodeStore) : FullNodeStore :=
  let ch := VDFInfo.challenge (NewInfusionPointVDF.reward_chain_ip_vdf infusion_point) in
  set_future (future_eos_cache s) (future_sp_cache s)
    (<[ch := future_list ch (future_ip_cache s) ++ [infusion_point]]> (future_ip_cache s)) (future_cache_key_times s) s.

Definition in_future_sp_cache (signage_point : SignagePoint.t) (index : Z) (s : FullNodeStore) : bool :=
  match SignagePoint.rc_vdf signage_point with
  | None => false
  | Some rc_vdf =>
      match future_sp_cache s !! VDFInfo.challenge rc_vdf with
      | None => false
      | Some l => existsb (λ '(cache_index, cache_sp),
          (cache_index =? index) && bool_decide (SignagePoint.rc_vdf cache_sp = SignagePoint.rc_vdf signage_point)) l
      end
  end.

Definition add_to_future_sp (signage_point : SignagePoint.t) (index : Z) : ST FullNodeStore unit :=
  match SignagePoint.cc_vdf signage_point, SignagePoint.rc_vdf signage_point,
        SignagePoint.cc_proof signage_point, SignagePoint.rc_proof signage_point with
  | Some _, Some rc_vdf, Some _, Some _ =>
      let ch := VDFInfo.challenge rc_vdf in
      st_modify (λ s, set_future (future_eos_cache s)
        (match future_sp_cache s !! ch with Some _ => future_sp_cache s | None => <[ch := []]> (future_sp_cache s) end)
        (future_ip_cache s) (future_cache_key_times s) s) ;;
      s ← st_get;
      if in_future_sp_cache signage_point index s then mret tt
      else
        t ← read_seconds;
        st_modify (λ s, set_future (future_eos_cache s)
          (<[ch := future_list ch (future_sp_cache s) ++ [(index, signage_point)]]> (future_sp_cache s))
          (future_ip_cache s) (<[ch := t]> (future_cache_key_times s)) s)
  | _, _, _, _ => mret tt
  end.

Definition get_future_ip (rc_challenge_hash : bytes) (s : FullNodeStore) : list NewInfusionPointVDF.t :=
  future_list rc_challenge_hash (future_ip_cache s).

(** [future_eos_cache[rc_challenge].append(eos)] and the time of the key *)
Definition add_to_future_eos (rc_challenge : bytes) (eos : EndOfSubSlotBundle.t) : ST FullNodeStore unit :=
  st_modify (λ s, set_future (<[rc_challenge := future_list rc_challenge (future_eos_cache s) ++ [eos]]> (future_eos_cache s))
    (future_sp_cache s) (future_ip_cache s) (future_cache_key_times s) s) ;;
  t ← read_seconds;
  st_modify (λ s, set_future (future_eos_cache s) (future_sp_cache s) (future_ip_cache s)
    (<[rc_challenge := t]> (future_cache_key_times s)) s).

Definition clear_old_cache_entries : ST FullNodeStore unit :=
  current_time ← read_seconds;
  st_modify (λ s,
    let remove_keys := (filter (λ kv : bytes * Z, 3600 < current_time - kv.2) (map_to_list (future_cache_key_times s))).*1 in
    set_future (foldr delete (future_eos_cache s) remove_keys) (foldr delete (future_sp_cache s) remove_keys)
      (foldr delete (future_ip_cache s) remove_keys) (foldr delete (future_cache_key_times s) remove_keys) s).

(** ** Sub slots *)
Definition empty_sps : list (option SignagePoint.t) := replicate (Z.to_nat (NUM_SPS_SUB_SLOT constants)) None.

Definition clear_slots : ST FullNodeStore unit := st_modify (λ s, set_slots [] (arrays_made s) s).

Definition initialize_genesis_sub_slot : ST FullNodeStore unit :=
  clear_slots ;;
  st_modify (λ s, set_slots [{| ss_eos := None; ss_array := {| sa_id := arrays_made s; sa_sps := empty_sps |};
                                ss_total_iters := 0 |}] (S (arrays_made s)) s).

(** [FullNodeStore(constants)] *)
Definition new_store : FullNodeStore := (initialize_genesis_sub_slot {|
  candidate_blocks := ∅; candidate_backup_blocks := ∅; seen_unfinished_blocks := ∅; unfinished_blocks := ∅;
  finished_sub_slots := []; future_eos_cache := ∅; future_sp_cache := ∅; future_ip_cache := ∅;
  future_cache_key_times := ∅; recent_signage_points := mk_LRUCache [] 500; recent_eos := mk_LRUCache [] 50;
  arrays_made := 0; clock_reads := 0 |}).2.

Definition cc_slot_hash (eos : EndOfSubSlotBundle.t) : res bytes := hash_of (EndOfSubSlotBundle.challenge_chain eos).
Definition rc_slot_hash (eos : EndOfSubSlotBundle.t) : res bytes := hash_of (EndOfSubSlotBundle.reward_chain eos).
(** The challenge of a slot: the hash of the sub slot, or the genesis challenge *)
Definition cc_of (slot : option EndOfSubSlotBundle.t) : res bytes :=
  match slot with Some eos => cc_slot_hash eos | None => Ok (GENESIS_CHALLENGE constants) end.
Definition rc_of (slot : option EndOfSubSlotBundle.t) : res bytes :=
  match slot with Some eos => rc_slot_hash eos | None => Ok (GENESIS_CHALLENGE constants) end.

Fixpoint find_sub_slot (challenge_hash : bytes) (index : Z) (l : list SubSlot) : res (option (EndOfSubSlotBundle.t * Z * Z)) :=
  match l with
  | [] => Ok None
  | slot :: l =>
      match ss_eos slot with
      | Some eos =>
          h ← cc_slot_hash eos;
          if bool_decide (h = challenge_hash) then Ok (Some (eos, index, ss_total_iters slot))
          else find_sub_slot challenge_hash (index + 1) l
      | None => find_sub_slot challenge_hash (index + 1) l
      end
  end.
Definition get_sub_slot (challenge_hash : bytes) (s : FullNodeStore) : res (option (EndOfSubSlotBundle.t * Z * Z)) :=
  assert_ (bool_decide (1 <= length (finished_sub_slots s))%nat) ;;
  find_sub_slot challenge_hash 0 (finished_sub_slots s).

(** ** [new_finished_sub_slot] *)

(** Where the VDFs of an end of slot start *)
Record EosStart := {
  es_rc_challenge : bytes;
  es_cc_start : bytes;
  es_icc_start : option bytes;
  es_iters : Z;
  es_icc_challenge : option bytes;
  es_icc_iters : option Z;
}.

(** The walk to the block that starts the infused challenge chain *)
Definition icc_walk_body (curr : BlockRecord) : res (BlockRecord + BlockRecord) :=
  if negb (first_in_sub_slot curr) && negb (is_challenge_block constants curr)
  then p ← block_record blocks (prev_hash curr); Ok (inl p)
  else Ok (inr curr).

(** The challenge and the iterations of the infused challenge chain when the peak is in the slot *)
Definition peak_icc (peak : BlockRecord) (sub_slot_iters total_iters : Z) : res (option (bytes * Z)) :=
  if deficit peak <? MIN_BLOCKS_PER_CHALLENGE_BLOCK constants then
    curr ← loop fuel icc_walk_body peak;
    if is_challenge_block constants curr then
      i ← uint64 (total_iters - Consensus.total_iters curr);
      Ok (Some (challenge_block_info_hash curr, i))
    else
      hashes ← of_opt AssertionError (finished_infused_challenge_slot_hashes curr);
      h ← py_index hashes (-1);
      Ok (Some (h, sub_slot_iters))
  else Ok None.

Definition peak_icc_start (peak : BlockRecord) : option bytes :=
  if deficit peak =? MIN_BLOCKS_PER_CHALLENGE_BLOCK constants then None
  else if deficit peak =? MIN_BLOCKS_PER_CHALLENGE_BLOCK constants - 1 then Some default_element
  else infused_challenge_vdf_output peak.

(** The summary an end of slot must carry when the peak may finish a sub-epoch *)
Definition summary_right (peak : BlockRecord) (peak_full_block : option FullBlock.t) (eos : EndOfSubSlotBundle.t) : res bool :=
  '(can_finish_se, _) ← can_finish_sub_and_full_epoch constants blocks fuel (height peak) (Some (prev_hash peak))
     (deficit peak) (negb (is_None (sub_epoch_summary_included peak)));
  if can_finish_se : bool then
    full ← of_opt AssertionError peak_full_block;
    ses ← next_sub_epoch_summary constants blocks fuel (required_iters peak) full true;
    let committed := ChallengeChainSubSlot.subepoch_summary_hash (EndOfSubSlotBundle.challenge_chain eos) in
    match ses with
    | Some ses => h ← hash_of ses; Ok (bool_decide (committed = Some h))
    | None => Ok (is_None committed)
    end
  else Ok true.

(** The checks of the VDFs of an end of slot *)
Definition eos_vdfs_valid (cc_challenge : bytes) (sub_slot_iters : Z) (es : EosStart) (eos : EndOfSubSlotBundle.t) : res bool :=
  let proofs := EndOfSubSlotBundle.proofs eos in
  let cc_vdf := ChallengeChainSubSlot.challenge_chain_end_of_slot_vdf (EndOfSubSlotBundle.challenge_chain eos) in
  let rc_vdf := RewardChainSubSlot.end_of_slot_vdf (EndOfSubSlotBundle.reward_chain eos) in
  let partial_cc_vdf_info := with_output cc_challenge (es_iters es) cc_vdf in
  if bool_decide (cc_vdf ≠ with_output cc_challenge sub_slot_iters cc_vdf) then Ok false
  else if negb (proof_checks constants (SubSlotProofs.challenge_chain_slot_proof proofs) (es_cc_start es)
                  partial_cc_vdf_info cc_vdf) then Ok false
  else if negb (is_valid constants (SubSlotProofs.reward_chain_slot_proof proofs) default_element rc_vdf
                  (Some (with_output (es_rc_challenge es) (es_iters es) rc_vdf))) then Ok false
  else
    match es_icc_challenge es with
    | Some icc_challenge =>
        icc_start ← of_opt AssertionError (es_icc_start es);
        icc_iters ← of_opt AssertionError (es_icc_iters es);
        icc ← of_opt AssertionError (EndOfSubSlotBundle.infused_challenge_chain eos);
        proof ← of_opt AssertionError (SubSlotProofs.infused_challenge_chain_slot_proof proofs);
        let icc_vdf := InfusedChallengeChainSubSlot.infused_challenge_chain_end_of_slot_vdf icc in
        if bool_decide (icc_vdf ≠ with_output icc_challenge icc_iters icc_vdf) then Ok false
        else Ok (proof_checks constants proof icc_start (with_output icc_challenge (es_iters es) icc_vdf) icc_vdf)
    | None =>
        Ok (is_None (EndOfSubSlotBundle.infused_challenge_chain eos)
            && is_None (SubSlotProofs.infused_challenge_chain_slot_proof proofs))
    end.

(** What comes of the part of the method before the VDFs are checked: nothing to add,
    something to keep for later, or the start of the VDFs *)
Inductive EosCheck :=
  | EosReject
  | EosFuture (rc_challenge : bytes)
  | EosFrom (es : EosStart).

Definition eos_start_of (last_slot : option EndOfSubSlotBundle.t) (last_slot_iters sub_slot_iters total_iters : Z)
    (rc_challenge : bytes) (peak : option BlockRecord) (peak_full_block : option FullBlock.t) (eos : EndOfSubSlotBundle.t) :
    res EosCheck :=
  let on_empty_slot :=
    icc_challenge ←
      match last_slot with
      | Some last =>
          match EndOfSubSlotBundle.infused_challenge_chain last with
          | Some icc =>
              if bool_decide (RewardChainSubSlot.deficit (EndOfSubSlotBundle.reward_chain last)
                              ≠ MIN_BLOCKS_PER_CHALLENGE_BLOCK constants)
              then h ← hash_of icc; Ok (Some h) else Ok None
          | None => Ok None
          end
      | None => Ok None
      end;
    Ok (EosFrom {| es_rc_challenge := rc_challenge; es_cc_start := default_element; es_icc_start := Some default_element;
                   es_iters := sub_slot_iters; es_icc_challenge := icc_challenge; es_icc_iters := Some sub_slot_iters |}) in
  match peak with
  | Some peak =>
      if last_slot_iters <? Consensus.total_iters peak then
        if total_iters <? Consensus.total_iters peak then Ok EosReject
        else
          let rc_challenge := VDFInfo.challenge (RewardChainSubSlot.end_of_slot_vdf (EndOfSubSlotBundle.reward_chain eos)) in
          iters ← uint64 (total_iters - Consensus.total_iters peak);
          if bool_decide (reward_infusion_new_challenge peak ≠ rc_challenge) then Ok (EosFuture rc_challenge)
          else
            icc ← peak_icc peak sub_slot_iters total_iters;
            right ← summary_right peak peak_full_block eos;
            if (right : bool) then
              Ok (EosFrom {| es_rc_challenge := rc_challenge; es_cc_start := challenge_vdf_output peak;
                             es_icc_start := peak_icc_start peak; es_iters := iters;
                             es_icc_challenge := fst <$> icc; es_icc_iters := snd <$> icc |})
            else Ok EosReject
      else on_empty_slot
  | None => on_empty_slot
  end.

Definition new_finished_sub_slot (eos : EndOfSubSlotBundle.t) (peak : option BlockRecord) (peak_full_block : option FullBlock.t) :
    ST FullNodeStore (option (list NewInfusionPointVDF.t)) :=
  s ← st_get;
  st_res (assert_ (bool_decide (1 <= length (finished_sub_slots s))%nat)) ;;
  st_res (assert_ (Bool.eqb (is_None peak) (is_None peak_full_block))) ;;
  last ← st_res (py_index (finished_sub_slots s) (-1));
  cc_challenge ← st_res (cc_of (ss_eos last));
  rc_challenge ← st_res (rc_of (ss_eos last));
  if existsb (λ slot, bool_decide (ss_eos slot = Some eos)) (finished_sub_slots s) then mret (Some [])
  else if bool_decide (VDFInfo.challenge (ChallengeChainSubSlot.challenge_chain_end_of_slot_vdf
                         (EndOfSubSlotBundle.challenge_chain eos)) ≠ cc_challenge) then mret None
  else
    let sub_slot_iters := match peak with None => SUB_SLOT_ITERS_STARTING constants | Some p => sub_slot_iters p end in
    total_iters ← st_res (uint128 (ss_total_iters last + sub_slot_iters));
    check ← st_res (eos_start_of (ss_eos last) (ss_total_iters last) sub_slot_iters total_iters rc_challenge
                      peak peak_full_block eos);
    match check with
    | EosReject => mret None
    | EosFuture rc_challenge => add_to_future_eos rc_challenge eos ;; mret None
    | EosFrom es =>
        valid ← st_res (eos_vdfs_valid cc_challenge sub_slot_iters es eos);
        if (valid : bool) then
          st_modify (λ s, set_slots (finished_sub_slots s ++
            [{| ss_eos := Some eos; ss_array := {| sa_id := arrays_made s; sa_sps := empty_sps |};
                ss_total_iters := total_iters |}]) (S (arrays_made s)) s) ;;
          new_cc_hash ← st_res (cc_slot_hash eos);
          t ← read_clock;
          st_modify (λ s, set_recent (recent_signage_points s) (lru_put new_cc_hash (eos, t) (recent_eos s)) s) ;;
          rc_hash ← st_res (rc_slot_hash eos);
          s ← st_get;
          mret (Some (future_list rc_hash (future_ip_cache s)))
        else mret None
    end.

(** ** [new_signage_point] *)

(** [lst[index] = v] *)
Definition list_assign {A} (l : list A) (index : Z) (v : A) : res (list A) :=
  let i := if index <? 0 then index + Z.of_nat (length l) else index in
  if (i <? 0) || (Z.of_nat (length l) <=? i) then Raise IndexError else Ok (<[Z.to_nat i := v]> l).

(** The assignment through one reference to a list: every sub slot that holds the list sees it. *)
Definition assign_array (slot : SubSlot) (index : Z) (sp : SignagePoint.t) (l : list SubSlot) : res (list SubSlot) :=
  sps ← list_assign (sa_sps (ss_array slot)) index (Some sp);
  Ok ((λ x, if bool_decide (sa_id (ss_array x) = sa_id (ss_array slot))
            then {| ss_eos := ss_eos x; ss_array := {| sa_id := sa_id (ss_array x); sa_sps := sps |};
                    ss_total_iters := ss_total_iters x |}
            else x) <$> l).

(** The walk to the last block before the signage point; [true] when there is none in the slot *)
Definition sp_walk_body (start_ss_total_iters sp_total_iters : Z) (curr : BlockRecord) :
    res (BlockRecord + (bool * BlockRecord)) :=
  if (start_ss_total_iters <? Consensus.total_iters curr) && (sp_total_iters <? Consensus.total_iters curr) then
    if first_in_sub_slot curr then Ok (inr (true, curr))
    else p ← block_record blocks (prev_hash curr); Ok (inl p)
  else Ok (inr (false, curr)).

(** The checks of a signage point against the slot that starts at [start] *)
Definition sp_valid (slot : SubSlot) (ss_challenge_hash ss_reward_hash : bytes) (index : Z) (peak : option BlockRecord)
    (sub_slot_iters next_sub_slot_iters : Z) (cc_vdf : VDFInfo.t) (cc_proof : VDFProof.t) (rc_vdf : VDFInfo.t)
    (rc_proof : VDFProof.t) (skip_vdf_validation : bool) : res bool :=
  let start := ss_total_iters slot in
  let future_sub_slot := match peak with Some p => Consensus.total_iters p <? start | None => false end in
  q ← pydiv (if future_sub_slot then next_sub_slot_iters else sub_slot_iters) (NUM_SPS_SUB_SLOT constants);
  checkpoint_size ← uint64 q;
  delta_iters ← uint64 (checkpoint_size * index);
  let sp_total_iters := start + delta_iters in
  from ← match peak with
         | Some p =>
             if future_sub_slot then Ok None
             else '(from_start, curr) ← loop fuel (sp_walk_body start sp_total_iters) p;
                  Ok (if from_start : bool then None else Some curr)
         | None => Ok None
         end;
  '(cc_expected, rc_expected) ←
    match from with
    | None => Ok (with_output ss_challenge_hash delta_iters cc_vdf, with_output ss_reward_hash delta_iters rc_vdf)
    | Some curr =>
        i ← uint64 (sp_total_iters - Consensus.total_iters curr);
        Ok (with_output ss_challenge_hash i cc_vdf, with_output (reward_infusion_new_challenge curr) i rc_vdf)
    end;
  let start_ele := match from with None => default_element | Some curr => challenge_vdf_output curr end in
  if bool_decide (cc_vdf ≠ with_output (VDFInfo.challenge cc_expected) delta_iters cc_expected) then Ok false
  else if negb skip_vdf_validation && negb (proof_checks constants cc_proof start_ele cc_expected cc_vdf) then Ok false
  else if bool_decide (VDFInfo.challenge rc_expected ≠ VDFInfo.challenge rc_vdf) then Ok false
  else if negb skip_vdf_validation && negb (is_valid constants rc_proof default_element rc_vdf (Some rc_expected)) then Ok false
  else Ok true.

(** The sub slot with the challenge of the signage point *)
Fixpoint find_sp_slot (challenge : bytes) (l : list SubSlot) : res (option (SubSlot * bytes)) :=
  match l with
  | [] => Ok None
  | slot :: l =>
      '(ss_challenge_hash, ss_reward_hash) ←
        match ss_eos slot with
        | None => assert_ (ss_total_iters slot =? 0) ;; Ok (GENESIS_CHALLENGE constants, GENESIS_CHALLENGE constants)
        | Some eos => c ← cc_slot_hash eos; r ← rc_slot_hash eos; Ok (c, r)
        end;
      if bool_decide (ss_challenge_hash = challenge) then Ok (Some (slot, ss_reward_hash)) else find_sp_slot challenge l
  end.

Definition new_signage_point (index : Z) (peak : option BlockRecord) (next_sub_slot_iters : Z)
    (signage_point : SignagePoint.t) (skip_vdf_validation : bool) : ST FullNodeStore bool :=
  s ← st_get;
  st_res (assert_ (bool_decide (1 <= length (finished_sub_slots s))%nat)) ;;
  let sub_slot_iters :=
    match peak with
    | Some p => if height p <? 2 then SUB_SLOT_ITERS_STARTING constants else sub_slot_iters p
    | None => SUB_SLOT_ITERS_STARTING constants
    end in
  if (index =? 0) || (NUM_SPS_SUB_SLOT constants <=? index) then mret false
  else
    cc_vdf ← st_res (of_opt AssertionError (SignagePoint.cc_vdf signage_point));
    cc_proof ← st_res (of_opt AssertionError (SignagePoint.cc_proof signage_point));
    rc_vdf ← st_res (of_opt AssertionError (SignagePoint.rc_vdf signage_point));
    rc_proof ← st_res (of_opt AssertionError (SignagePoint.rc_proof signage_point));
    found ← st_res (find_sp_slot (VDFInfo.challenge cc_vdf) (finished_sub_slots s));
    match found with
    | None => add_to_future_sp signage_point index ;; mret false
    | Some (slot, ss_reward_hash) =>
        valid ← st_res (sp_valid slot (VDFInfo.challenge cc_vdf) ss_reward_hash index peak sub_slot_iters
                          next_sub_slot_iters cc_vdf cc_proof rc_vdf rc_proof skip_vdf_validation);
        if (valid : bool) then
          l ← st_res (assign_array slot index signage_point (finished_sub_slots s));
          st_modify (λ s, set_slots l (arrays_made s) s) ;;
          h ← st_res (hash_of (VDFInfo.output cc_vdf));
          t ← read_clock;
          st_modify (λ s, set_recent (lru_put h (signage_point, t) (recent_signage_points s)) (recent_eos s) s) ;;
          mret true
        else add_to_future_sp signage_point index ;; mret false
    end.

(** ** Lookups of signage points *)
Fixpoint find_sp (cc_signage_point : bytes) (sps : list (option SignagePoint.t)) : res (option SignagePoint.t) :=
  match sps with
  | [] => Ok None
  | None :: sps => find_sp cc_signage_point sps
  | Some sp :: sps =>
      cc_vdf ← of_opt AssertionError (SignagePoint.cc_vdf sp);
      h ← hash_of (VDFInfo.output cc_vdf);
      if bool_decide (h = cc_signage_point) then Ok (Some sp) else find_sp cc_signage_point sps
  end.
Fixpoint find_signage_point (cc_signage_point : bytes) (l : list SubSlot) : res (option SignagePoint.t) :=
  match l with
  | [] => Ok None
  | slot :: l =>
      start ← match ss_eos slot with
              | Some eos => h ← cc_slot_hash eos; Ok (bool_decide (h = cc_signage_point))
              | None => Ok false
              end;
      if (start : bool) then Ok (Some SignagePoint.none)
      else
        found ← find_sp cc_signage_point (sa_sps (ss_array slot));
        match found with Some sp => Ok (Some sp) | None => find_signage_point cc_signage_point l end
  end.
Definition get_signage_point (cc_signage_point : bytes) (s : FullNodeStore) : res (option SignagePoint.t) :=
  assert_ (bool_decide (1 <= length (finished_sub_slots s))%nat) ;;
  if bool_decide (cc_signage_point = GENESIS_CHALLENGE constants) then Ok (Some SignagePoint.none)
  else find_signage_point cc_signage_point (finished_sub_slots s).

Fixpoint find_by_index (challenge_hash : bytes) (index : Z) (last_rc_infusion : bytes) (l : list SubSlot) :
    res (option SignagePoint.t) :=
  match l with
  | [] => Ok None
  | slot :: l =>
      cc_hash ← cc_of (ss_eos slot);
      if bool_decide (cc_hash = challenge_hash) then
        if index =? 0 then Ok (Some SignagePoint.none)
        else
          sp ← py_index (sa_sps (ss_array slot)) index;
          match sp with
          | Some sp =>
              rc_vdf ← of_opt AssertionError (SignagePoint.rc_vdf sp);
              Ok (if bool_decide (VDFInfo.challenge rc_vdf = last_rc_infusion) then Some sp else None)
          | None => Ok None
          end
      else find_by_index challenge_hash index last_rc_infusion l
  end.
Definition get_signage_point_by_index (challenge_hash : bytes) (index : Z) (last_rc_infusion : bytes) (s : FullNodeStore) :
    res (option SignagePoint.t) :=
  assert_ (bool_decide (1 <= length (finished_sub_slots s))%nat) ;;
  find_by_index challenge_hash index last_rc_infusion (finished_sub_slots s).

Definition based_on (rc : bytes) (sp : option SignagePoint.t) : option bool :=
  sp ← sp; v ← SignagePoint.rc_vdf sp; Some (bool_decide (VDFInfo.challenge v = rc)).
Fixpoint find_newer (challenge_hash : bytes) (index : Z) (last_rc_infusion : bytes) (l : list SubSlot) : res bool :=
  match l with
  | [] => Ok false
  | slot :: l =>
      cc_hash ← cc_of (ss_eos slot);
      if bool_decide (cc_hash = challenge_hash) then
        found_rc_hash ← for_fold (λ found i,
          sp ← py_index (sa_sps (ss_array slot)) i;
          Ok (found || bool_decide (based_on last_rc_infusion sp = Some true))) false (seqZ 0 index);
        sp ← py_index (sa_sps (ss_array slot)) index;
        if (found_rc_hash : bool) && bool_decide (based_on last_rc_infusion sp = Some false) then Ok true
        else find_newer challenge_hash index last_rc_infusion l
      else find_newer challenge_hash index last_rc_infusion l
  end.
Definition have_newer_signage_point (challenge_hash : bytes) (index : Z) (last_rc_infusion : bytes) (s : FullNodeStore) : res bool :=
  assert_ (bool_decide (1 <= length (finished_sub_slots s))%nat) ;;
  find_newer challenge_hash index last_rc_infusion (finished_sub_slots s).

(** ** [new_peak] *)

(** The signage points of a slot that are before the fork *)
Definition replaced_sps (total_iters interval_iters fork_total_iters : Z) (sps : list (option SignagePoint.t)) :
    list (option SignagePoint.t) :=
  imap (λ i sp, if total_iters + Z.of_nat i * interval_iters <? fork_total_iters then sp else None) sps.

(** The loop over the old slots: the lists kept for the two slots of the peak; every slot makes a list *)
Definition keep_sps (interval_iters fork_total_iters : Z) (sp_sub_slot : option EndOfSubSlotBundle.t)
    (ip_sub_slot : EndOfSubSlotBundle.t) (acc : SpArray * SpArray * nat) (slot : SubSlot) : SpArray * SpArray * nat :=
  let '(sp_array, ip_array, made) := acc in
  match ss_eos slot with
  | None => acc
  | Some eos =>
      let replaced := {| sa_id := made; sa_sps := replaced_sps (ss_total_iters slot) interval_iters fork_total_iters
                                                    (sa_sps (ss_array slot)) |} in
      (if bool_decide (Some eos = sp_sub_slot) then replaced else sp_array,
       if bool_decide (eos = ip_sub_slot) then replaced else ip_array, S made)
  end.

(** The slots of a peak outside the first slot of the chain *)
Definition move_slots (peak : BlockRecord) (sp_sub_slot : option EndOfSubSlotBundle.t) (ip_sub_slot : EndOfSubSlotBundle.t)
    (fork_block : option BlockRecord) : ST FullNodeStore unit :=
  s ← st_get;
  let sp0 := {| sa_id := arrays_made s; sa_sps := empty_sps |} in
  let ip0 := {| sa_id := S (arrays_made s); sa_sps := empty_sps |} in
  let made0 := S (S (arrays_made s)) in
  '(sp_array, ip_array, made) ←
    (if match fork_block with Some f => bool_decide (sub_slot_iters f ≠ sub_slot_iters peak) | None => false end
     then clear_slots ;; mret (sp0, ip0, made0)
     else
       interval_iters ← st_res (calculate_sp_interval_iters constants (sub_slot_iters peak));
       let fork_total_iters := Consensus.total_iters (default peak fork_block) in
       mret (foldl (keep_sps interval_iters fork_total_iters sp_sub_slot ip_sub_slot) (sp0, ip0, made0)
               (finished_sub_slots s)));
  st_modify (set_slots [] made) ;;
  prev_sub_slot_total_iters ← st_res (sp_sub_slot_total_iters constants peak);
  (if negb (is_None sp_sub_slot) || (prev_sub_slot_total_iters =? 0) then
     st_res (assert_ (overflow peak || negb (prev_sub_slot_total_iters =? 0))) ;;
     st_modify (λ s, set_slots (finished_sub_slots s ++
       [{| ss_eos := sp_sub_slot; ss_array := sp_array; ss_total_iters := prev_sub_slot_total_iters |}]) (arrays_made s) s)
   else mret tt) ;;
  ip_sub_slot_total_iters ← st_res (ip_sub_slot_total_iters constants peak);
  st_modify (λ s, set_slots (finished_sub_slots s ++
    [{| ss_eos := Some ip_sub_slot; ss_array := ip_array; ss_total_iters := ip_sub_slot_total_iters |}]) (arrays_made s) s).

(** The ends of slot that were waiting for the peak: the first one that is added *)
Definition add_future_eos (peak : BlockRecord) (peak_full_block : FullBlock.t) :
    list EndOfSubSlotBundle.t → ST FullNodeStore (unit + EndOfSubSlotBundle.t) :=
  st_early (λ _ eos,
    r ← new_finished_sub_slot eos (Some peak) (Some peak_full_block);
    match r with Some _ => mret (inr eos) | None => mret (inl tt) end) tt.

Definition add_future_sps (peak : BlockRecord) : list (Z * SignagePoint.t) → ST FullNodeStore (list (Z * SignagePoint.t)) :=
  st_fold (λ new_sps '(index, sp),
    st_res (assert_ (negb (is_None (SignagePoint.cc_vdf sp)))) ;;
    added ← new_signage_point index (Some peak) (sub_slot_iters peak) sp false;
    mret (if added : bool then new_sps ++ [(index, sp)] else new_sps)) [].

Definition note_recent_eos (slot : SubSlot) : ST FullNodeStore unit :=
  match ss_eos slot with
  | Some eos =>
      h ← st_res (cc_slot_hash eos);
      t ← read_clock;
      st_modify (λ s, set_recent (recent_signage_points s) (lru_put h (eos, t) (recent_eos s)) s)
  | None => mret tt
  end.

Definition new_peak (peak : BlockRecord) (peak_full_block : FullBlock.t) (sp_sub_slot ip_sub_slot : option EndOfSubSlotBundle.t)
    (fork_block : option BlockRecord) : ST FullNodeStore FullNodeStorePeakResult :=
  s ← st_get;
  st_res (assert_ (bool_decide (1 <= length (finished_sub_slots s))%nat)) ;;
  match ip_sub_slot with
  | None => initialize_genesis_sub_slot
  | Some ip_sub_slot => move_slots peak sp_sub_slot ip_sub_slot fork_block
  end ;;
  let ch := reward_infusion_new_challenge peak in
  s ← st_get;
  r ← add_future_eos peak peak_full_block (future_list ch (future_eos_cache s));
  s ← st_get;
  new_sps ← add_future_sps peak (future_list ch (future_sp_cache s));
  s ← st_get;
  let new_ips := future_list ch (future_ip_cache s) in
  st_modify (λ s, set_future (delete ch (future_eos_cache s)) (delete ch (future_sp_cache s)) (delete ch (future_ip_cache s))
    (future_cache_key_times s) s) ;;
  s ← st_get;
  st_for note_recent_eos (finished_sub_slots s) ;;
  mret {| added_eos := match r with inr eos => Some eos | inl _ => None end;
          new_signage_points := new_sps; new_infusion_points := new_ips |}.

(** ** [get_finished_sub_slots] *)
Definition to_first_body (curr : BlockRecord) : res (BlockRecord + BlockRecord) :=
  if first_in_sub_slot curr then Ok (inr curr) else p ← block_record blocks (prev_hash curr); Ok (inl p).

Definition challenge_in_chain (prev_b : option BlockRecord) (s : FullNodeStore) : res bytes :=
  match prev_b with
  | None =>
      first ← py_index (finished_sub_slots s) 0;
      assert_ (is_None (ss_eos first)) ;;
      Ok (GENESIS_CHALLENGE constants)
  | Some prev_b =>
      curr ← loop fuel to_first_body prev_b;
      hashes ← of_opt AssertionError (finished_challenge_slot_hashes curr);
      py_index hashes (-1)
  end.

(** One step of the collection: the slots collected so far once the connecting challenge
    was found; the exit carries the result. *)
Definition collect_slot (in_chain last_challenge_to_add : bytes) (acc : option (list EndOfSubSlotBundle.t)) (slot : SubSlot) :
    res (option (list EndOfSubSlotBundle.t) + list EndOfSubSlotBundle.t) :=
  eos ← of_opt AssertionError (ss_eos slot);
  let connects := bool_decide (VDFInfo.challenge (ChallengeChainSubSlot.challenge_chain_end_of_slot_vdf
                     (EndOfSubSlotBundle.challenge_chain eos)) = in_chain) in
  match (match acc with Some l => Some l | None => if connects then Some [] else None end) with
  | Some l =>
      h ← cc_slot_hash eos;
      Ok (if bool_decide (h = last_challenge_to_add) then inr (l ++ [eos]) else inl (Some (l ++ [eos])))
  | None => Ok (inl None)
  end.

Definition get_finished_sub_slots (prev_b : option BlockRecord) (last_challenge_to_add : bytes) (s : FullNodeStore) :
    res (option (list EndOfSubSlotBundle.t)) :=
  in_chain ← challenge_in_chain prev_b s;
  if bool_decide (last_challenge_to_add = in_chain) then Ok (Some [])
  else
    r ← for_early (collect_slot in_chain last_challenge_to_add) None (tail (finished_sub_slots s));
    Ok (match r with inr l => Some l | inl _ => None end).
End Store.
