(* ===== verification/FullNodeStoreSound.v ===== *)
(** * What the store of sub slots and signage points guarantees

    The invariant [store_ok] of the sub slots (linked by their challenges, every signage
    point complete and in the slot of its challenge) holds in every reachable store; a
    signage point that is accepted is found again under its slot and index; the slots
    collected for a new block lead from the challenge of its parent to the one asked
    for; an end of slot that arrives before its block waits until that block is the peak. *)
From S2P Require Import Prelude PyInt PyFloat PyDecimal Consensus ChainView Difficulty Errors Coins CoinStore Streamable.
From S2P Require Import BlockTypes BlockToRecord HeaderValidation Generator CachedBls BodyValidation Chain Blockchain.
From S2P Require Import BlockStore HeaderSound BodySound BlockchainFrame FullNodeStore.

Section Invariant.
Context `{Packages} `{StdHash} `{Vdf} (constants : ConsensusConstants) (blocks : BlockchainInterface) (fuel : nat).
Context (time_time : nat → float).

Definition slot_challenge (eos : EndOfSubSlotBundle.t) : bytes :=
  VDFInfo.challenge (ChallengeChainSubSlot.challenge_chain_end_of_slot_vdf (EndOfSubSlotBundle.challenge_chain eos)).

(** A signage point of a slot: all its parts are there and its challenge is that of the slot *)
Definition sp_in_slot (slot : option EndOfSubSlotBundle.t) (sp : SignagePoint.t) : Prop :=
  ∃ cc cp rc rp, sp = {| SignagePoint.cc_vdf := Some cc; SignagePoint.cc_proof := Some cp;
                         SignagePoint.rc_vdf := Some rc; SignagePoint.rc_proof := Some rp |}
    ∧ cc_of constants slot = Ok (VDFInfo.challenge cc).
Definition sps_ok (slot : option EndOfSubSlotBundle.t) (sps : list (option SignagePoint.t)) : Prop :=
  length sps = Z.to_nat (NUM_SPS_SUB_SLOT constants)
  ∧ ∀ i sp, sps !! i = Some (Some sp) → sp_in_slot slot sp.
Record slot_ok (slot : SubSlot) : Prop := {
  so_sps : sps_ok (ss_eos slot) (sa_sps (ss_array slot));
  so_genesis : ss_eos slot = None → ss_total_iters slot = 0;
}.
(** Each slot after the first starts from the challenge of the one before. *)
Fixpoint linked (l : list SubSlot) : Prop :=
  match l with
  | a :: (b :: _) as l' => (∃ eos, ss_eos b = Some eos ∧ cc_of constants (ss_eos a) = Ok (slot_challenge eos)) ∧ linked l'
  | _ => True
  end.
(** Two slots that hold the same list are the same slot. *)
Definition arrays_ok (made : nat) (l : list SubSlot) : Prop :=
  Forall (λ x, (sa_id (ss_array x) < made)%nat) l
  ∧ ∀ x y, x ∈ l → y ∈ l → sa_id (ss_array x) = sa_id (ss_array y) →
      ss_eos x = ss_eos y ∧ ss_array x = ss_array y.
Record slots_ok (made : nat) (l : list SubSlot) : Prop := {
  sl_some : l ≠ [];
  sl_slots : Forall slot_ok l;
  sl_linked : linked l;
  sl_arrays : arrays_ok made l;
}.
Definition store_ok (s : FullNodeStore) : Prop := slots_ok (arrays_made s) (finished_sub_slots s).

Lemma empty_sps_ok slot : sps_ok slot (empty_sps constants).
Proof.
  split; [apply length_replicate|]. intros i sp Hi. apply lookup_replicate in Hi as [? _]. done.
Qed.

Lemma linked_snoc l x eos : linked l → ss_eos x = Some eos →
  (∀ y, last l = Some y → cc_of constants (ss_eos y) = Ok (slot_challenge eos)) → linked (l ++ [x]).
Proof.
  intros Hl Hx. induction l as [|a l IH]; intros Hy; [done|]. destruct l as [|b l].
  - cbn. split; [|done]. exists eos. split; [exact Hx|]. by apply Hy.
  - destruct Hl as [Hb Hl]. cbn [app]. split; [exact Hb|]. apply IH; [exact Hl|]. intros y E. apply Hy. exact E.
Qed.

Lemma linked_eos l l' : ss_eos <$> l = ss_eos <$> l' → linked l → linked l'.
Proof.
  revert l'. induction l as [|a l IH]; intros [|a' l'] E; [done..|]. injection E as Ea E.
  destruct l as [|b l], l' as [|b' l']; [done..|]. pose proof E as E'. injection E' as Eb _. intros [Hb Hl].
  split; [|by apply IH]. by rewrite <- Ea, <- Eb.
Qed.

Lemma list_assign_Ok {A} (l : list A) i v l' : 0 <= i →
  list_assign l i v = Ok l' ↔ (Z.to_nat i < length l)%nat ∧ l' = <[Z.to_nat i := v]> l.
Proof.
  intros Hi. unfold list_assign. rewrite (proj2 (Z.ltb_ge i 0)) by lia.
  rewrite (proj2 (Z.ltb_ge i 0)) by lia. cbn [orb].
  destruct (Z.leb_spec (Z.of_nat (length l)) i); split; [done|lia|intros [= <-]; split; [lia|done]|intros [_ ->]; done].
Qed.

Lemma list_assign_is {A} (l : list A) i v l' : list_assign l i v = Ok l' → ∃ k, l' = <[k := v]> l.
Proof. unfold list_assign. destruct (_ || _); [done|]. intros [= <-]. eauto. Qed.

Lemma sps_ok_insert slot sps i sp : sps_ok slot sps → sp_in_slot slot sp → sps_ok slot (<[i := Some sp]> sps).
Proof.
  intros [Hl Hs] Hsp. split; [by rewrite length_insert|]. intros j sp' Hj.
  apply list_lookup_insert_Some in Hj as [(->&[= <-]&_)|[_ Hj]]; [done|by apply (Hs j)].
Qed.

(** ** The operations keep the invariant *)
Lemma slots_ok_genesis made : slots_ok (S made)
  [{| ss_eos := None; ss_array := {| sa_id := made; sa_sps := empty_sps constants |}; ss_total_iters := 0 |}].
Proof.
  split; [done| |done|].
  - constructor; [|done]. split; [apply empty_sps_ok|done].
  - split; [constructor; [cbn; lia|done]|]. intros x y ->%list_elem_of_singleton ->%list_elem_of_singleton. done.
Qed.

Lemma slots_ok_snoc made l eos total :
  slots_ok made l → (∀ y, last l = Some y → cc_of constants (ss_eos y) = Ok (slot_challenge eos)) →
  slots_ok (S made) (l ++ [{| ss_eos := Some eos; ss_array := {| sa_id := made; sa_sps := empty_sps constants |};
                              ss_total_iters := total |}]).
Proof.
  intros [Hn Hs Hl [Ha Hb]] Hc. split; [by destruct l| | |].
  - apply Forall_app. split; [done|]. constructor; [|done]. split; [apply empty_sps_ok|done].
  - by eapply linked_snoc.
  - split; [apply Forall_app; split; [eapply Forall_impl; [exact Ha|cbn; lia]|constructor; [cbn; lia|done]]|].
    rewrite Forall_forall in Ha. intros x y Hx%elem_of_app Hy%elem_of_app. rewrite !list_elem_of_singleton in Hx, Hy.
    destruct Hx as [Hx| ->], Hy as [Hy| ->]; cbn; [by apply Hb|..|done].
    + specialize (Ha x Hx). cbn in Ha. lia.
    + specialize (Ha y Hy). cbn in Ha. lia.
Qed.

Lemma assign_array_ok made l slot i sp l' :
  slots_ok made l → slot ∈ l → sp_in_slot (ss_eos slot) sp → assign_array slot i sp l = Ok l' → slots_ok made l'.
Proof.
  intros [Hn Hs Hl [Ha Hb]] Hin Hsp E. unfold assign_array in E. res_inv.
  match goal with E : list_assign _ _ _ = Ok _ |- _ => apply list_assign_is in E as (k&->) end.
  set (put := λ x : SubSlot, _).
  assert (He : ∀ x, ss_eos (put x) = ss_eos x) by (intros x; unfold put; by case_bool_decide).
  assert (Hid : ∀ x, sa_id (ss_array (put x)) = sa_id (ss_array x)) by (intros x; unfold put; by case_bool_decide).
  split; [by destruct l| | |].
  - rewrite Forall_fmap. apply Forall_forall. intros x Hx. unfold compose, put. rewrite Forall_forall in Hs.
    destruct (Hs x Hx) as [Hx1 Hx2]. case_bool_decide as Ei; [|done]. split; [|exact Hx2]. cbn.
    destruct (Hb x slot Hx Hin Ei) as [Ee Ea]. rewrite Ee, Ea in *. rewrite <- Ea.
    apply sps_ok_insert; [by rewrite Ea|exact Hsp].
  - eapply linked_eos; [|exact Hl]. rewrite <- list_fmap_compose. apply list_fmap_ext. intros ? x _. symmetry. apply He.
  - split; [rewrite Forall_fmap; eapply Forall_impl; [exact Ha|]; intros x Hx; cbn; by rewrite Hid|].
    intros x' y' (x&->&Hx)%list_elem_of_fmap (y&->&Hy)%list_elem_of_fmap. rewrite !He, !Hid. intros E.
    destruct (Hb x y Hx Hy E) as [Ee Ea]. split; [exact Ee|]. unfold put. rewrite <- E.
    case_bool_decide; [|exact Ea]. cbn. by rewrite E.
Qed.

(** The slots are as they were. *)
Definition slots_same (s s' : FullNodeStore) : Prop :=
  finished_sub_slots s' = finished_sub_slots s ∧ arrays_made s' = arrays_made s.
#[global] Instance slots_same_preorder : PreOrder slots_same.
Proof. split; [done|]. intros a b c [E1 E2] [F1 F2]. split; congruence. Qed.
Lemma store_ok_same s s' : slots_same s s' → store_ok s → store_ok s'.
Proof. unfold store_ok. by intros [-> ->]. Qed.

Lemma st_res_bind_inv {S A B} (r : res A) (f : A → ST S B) (s s' : S) o :
  (x ← st_res r; f x) s = (o, s') → (∃ a, r = Ok a ∧ f a s = (o, s')) ∨ (s' = s ∧ ∀ b, o ≠ Ok b).
Proof.
  unfold mbind, st_bind, st_res. destruct r as [a|e|]; [left; eauto|intros [= <- <-]; by right..].
Qed.

Lemma read_clock_slots : keeps slots_same (read_clock time_time).
Proof. by intros s. Qed.
Lemma set_future_slots f g h k : keeps slots_same (st_modify (λ s, set_future (f s) (g s) (h s) (k s) s)).
Proof. by intros s. Qed.
Lemma set_recent_slots f g : keeps slots_same (st_modify (λ s, set_recent (f s) (g s) s)).
Proof. by intros s. Qed.
Hint Resolve read_clock_slots set_future_slots set_recent_slots : keeps.
Lemma future_sp_slots sp i : keeps slots_same (add_to_future_sp time_time sp i).
Proof. unfold add_to_future_sp, read_seconds. keep. Qed.
Lemma future_eos_slots ch eos : keeps slots_same (add_to_future_eos time_time ch eos).
Proof. unfold add_to_future_eos, read_seconds. keep. Qed.
Lemma note_recent_slots slot : keeps slots_same (note_recent_eos time_time slot).
Proof. unfold note_recent_eos. keep. Qed.
Lemma clear_old_slots : keeps slots_same (clear_old_cache_entries time_time).
Proof. unfold clear_old_cache_entries, read_seconds. keep. Qed.
Hint Resolve future_sp_slots future_eos_slots note_recent_slots : keeps.

(** An end of slot that is checked is appended after the last slot, whose challenge it continues. *)
Definition slot_appended (eos : EndOfSubSlotBundle.t) (s s' : FullNodeStore) : Prop :=
  ∃ y total, last (finished_sub_slots s) = Some y ∧ cc_of constants (ss_eos y) = Ok (slot_challenge eos)
    ∧ finished_sub_slots s' = finished_sub_slots s ++
        [{| ss_eos := Some eos; ss_array := {| sa_id := arrays_made s; sa_sps := empty_sps constants |}; ss_total_iters := total |}]
    ∧ arrays_made s' = S (arrays_made s).

Lemma new_finished_cases eos peak full s o s' :
  new_finished_sub_slot constants blocks fuel time_time eos peak full s = (o, s') →
  slots_same s s' ∧ (∀ r, o = Ok (Some r) → ∃ slot, slot ∈ finished_sub_slots s ∧ ss_eos slot = Some eos)
  ∨ slot_appended eos s s' ∧ o ≠ Ok None.
Proof.
  intros E. unfold new_finished_sub_slot in E. rewrite (st_bind_Ok _ _ _ _ _ (st_get_eq s)) in E.
  repeat (apply st_res_bind_inv in E as [(?&?&E)|[-> ?]]; [|left; split; [done|naive_solver]]).
  match goal with E : py_index _ _ = Ok ?y |- _ => apply py_index_last in E; rename y into z; rename E into Hlast end.
  match goal with E : cc_of _ _ = Ok _ |- _ => rename E into Hcc end.
  destruct (existsb _ _) eqn:Hex.
  { injection E as <- <-. left. split; [done|]. intros r _. apply existsb_exists in Hex as (slot&Hin&Hd).
    apply bool_decide_eq_true in Hd. exists slot. split; [by apply list_elem_of_In|done]. }
  case_bool_decide as Hch; [injection E as <- <-; left; split; [done|naive_solver]|].
  rewrite <- Hch in Hcc.
  apply st_res_bind_inv in E as [(total&_&E)|[-> ?]]; [|left; split; [done|naive_solver]].
  apply st_res_bind_inv in E as [(check&_&E)|[-> ?]]; [|left; split; [done|naive_solver]].
  destruct check as [|ch|es].
  - injection E as <- <-. left. split; [done|naive_solver].
  - left. apply (keeps_step slots_same) in E as [(a&s1&E1&Hs&E)|[Hs Ho]]; [| |apply future_eos_slots].
    + injection E as <- <-. split; [exact Hs|naive_solver].
    + split; [exact Hs|naive_solver].
  - apply st_res_bind_inv in E as [(valid&_&E)|[-> ?]]; [|left; split; [done|naive_solver]].
    destruct valid; [|injection E as <- <-; left; split; [done|naive_solver]].
    rewrite (st_bind_Ok _ _ _ _ _ (st_modify_eq _ s)) in E. right. set (s1 := set_slots _ _ s) in E.
    assert (Hk : slots_same s1 s' ∧ o ≠ Ok None).
    { apply (keeps_step slots_same) in E as [(h1&s2&E1&K1&E)|[K1 Ho]]; [|by split|apply keeps_res; apply _].
      apply (keeps_step slots_same) in E as [(t&s3&E2&K2&E)|[K2 Ho]]; [|split; [by etrans|done]|apply read_clock_slots].
      apply (keeps_step slots_same) in E as [(u&s4&E3&K3&E)|[K3 Ho]]; [|split; [by repeat (etrans; [eassumption|])|done]|apply set_recent_slots].
      apply (keeps_step slots_same) in E as [(h2&s5&E4&K4&E)|[K4 Ho]]; [|split; [by repeat (etrans; [eassumption|])|done]|apply keeps_res; apply _].
      rewrite (st_bind_Ok _ _ _ _ _ (st_get_eq _)) in E. injection E as <- <-.
      split; [by repeat (etrans; [eassumption|])|done]. }
    destruct Hk as [[K1 K2] Ho]. split; [|exact Ho]. exists z, total. rewrite K1, K2. done.
Qed.

Lemma slot_appended_ok eos s s' : slot_appended eos s s' → store_ok s → store_ok s'.
Proof.
  intros (y&total&Hl&Hc&E1&E2) Hs. unfold store_ok. rewrite E1, E2. apply slots_ok_snoc; [exact Hs|].
  intros y' Hy. by simplify_eq.
Qed.

Lemma new_finished_ok eos peak full s o s' :
  new_finished_sub_slot constants blocks fuel time_time eos peak full s = (o, s') → store_ok s → store_ok s'.
Proof.
  intros [[Hs _]|[Ha _]]%new_finished_cases; [by apply store_ok_same|by eapply slot_appended_ok].
Qed.

(** [slot] is the first of the slots with the challenge [ch]. *)
Definition first_slot (ch : bytes) (l pre : list SubSlot) (slot : SubSlot) (post : list SubSlot) : Prop :=
  l = pre ++ slot :: post ∧ cc_of constants (ss_eos slot) = Ok ch
  ∧ Forall (λ x, ∃ c, cc_of constants (ss_eos x) = Ok c ∧ c ≠ ch) pre.

Lemma find_sp_slot_Ok ch l slot rh :
  find_sp_slot constants ch l = Ok (Some (slot, rh)) → ∃ pre post, first_slot ch l pre slot post.
Proof.
  induction l as [|x l IH]; [done|]. intros E. cbn [find_sp_slot] in E. apply bind_Ok in E as ([c r]&E1&E).
  assert (Hc : cc_of constants (ss_eos x) = Ok c).
  { unfold cc_of. destruct (ss_eos x); res_inv; congruence. }
  case_bool_decide as Hd; [injection E as <- <-; subst c; exists [], l; by repeat split|].
  destruct (IH E) as (pre&post&->&Hs&HF). exists (x :: pre), post. split_and!; [done|done|]. constructor; eauto.
Qed.

Definition complete_sp (cc : VDFInfo.t) (cp : VDFProof.t) (rc : VDFInfo.t) (rp : VDFProof.t) : SignagePoint.t := {|
  SignagePoint.cc_vdf := Some cc; SignagePoint.cc_proof := Some cp; SignagePoint.rc_vdf := Some rc; SignagePoint.rc_proof := Some rp |}.

(** The signage point is put at its index into the first slot of its challenge. *)
Definition sp_put (index : Z) (sp : SignagePoint.t) (s s' : FullNodeStore) : Prop :=
  index ≠ 0 ∧ index < NUM_SPS_SUB_SLOT constants
  ∧ ∃ cc cp rc rp pre slot post, sp = complete_sp cc cp rc rp
    ∧ first_slot (VDFInfo.challenge cc) (finished_sub_slots s) pre slot post
    ∧ assign_array slot index sp (finished_sub_slots s) = Ok (finished_sub_slots s') ∧ arrays_made s' = arrays_made s.
(** The signage point waits in [s'] with its index under the challenge of its reward chain
    VDF, unless one of that VDF and index was waiting before, in [s]. *)
Definition sp_waits (index : Z) (sp : SignagePoint.t) (s s' : FullNodeStore) : Prop :=
  ∃ rc, SignagePoint.rc_vdf sp = Some rc ∧
    ((index, sp) ∈ future_list (VDFInfo.challenge rc) (future_sp_cache s')
     ∨ ∃ sp', SignagePoint.rc_vdf sp' = Some rc ∧ (index, sp') ∈ future_list (VDFInfo.challenge rc) (future_sp_cache s)).

Lemma add_to_future_sp_waits sp i s o s' : (∃ cc cp rc rp, sp = complete_sp cc cp rc rp) →
  add_to_future_sp time_time sp i s = (Ok o, s') → sp_waits i sp s s'.
Proof.
  intros (cc&cp&rc&rp&->) E. cbn [add_to_future_sp complete_sp SignagePoint.cc_vdf SignagePoint.cc_proof SignagePoint.rc_vdf
    SignagePoint.rc_proof] in E.
  rewrite (st_bind_Ok _ _ _ _ _ (st_modify_eq _ s)) in E. set (s1 := set_future _ _ _ _ s) in E.
  rewrite (st_bind_Ok _ _ _ _ _ (st_get_eq _)) in E. destruct (in_future_sp_cache _ _ _) eqn:Hin.
  - injection E as <- <-. unfold in_future_sp_cache in Hin. cbn [complete_sp SignagePoint.rc_vdf] in Hin.
    destruct (future_sp_cache s1 !! _) as [l|] eqn:El; [|done].
    apply existsb_exists in Hin as ([j sp']&Hj&Hd). zbool. subst j. apply list_elem_of_In in Hj.
    exists rc. split; [done|]. right. exists sp'. split; [done|]. unfold future_list. subst s1. cbn in El.
    destruct (future_sp_cache s !! VDFInfo.challenge rc) as [l0|] eqn:El0; [rewrite El0 in El; by injection El as ->|].
    rewrite lookup_insert_eq in El. injection El as <-. by apply not_elem_of_nil in Hj.
  - unfold read_seconds in E. apply st_bind_inv in E as (t&s2&E1&E).
    apply st_bind_inv in E1 as (f&s3&E2&E1). injection E2 as <- <-. apply st_res_inv in E1 as [_ ->].
    injection E as <- <-. exists rc. split; [done|]. left. cbn.
    unfold future_list at 1. rewrite lookup_insert_eq. cbn. apply elem_of_app. right. by apply list_elem_of_singleton.
Qed.

Lemma new_signage_cases index peak next sp skip s o s' :
  new_signage_point constants blocks fuel time_time index peak next sp skip s = (o, s') →
  slots_same s s' ∧ o ≠ Ok true
    ∧ (o = Ok false → if (index =? 0) || (NUM_SPS_SUB_SLOT constants <=? index) then s' = s else sp_waits index sp s s')
  ∨ sp_put index sp s s' ∧ o ≠ Ok false.
Proof.
  intros E. unfold new_signage_point in E. rewrite (st_bind_Ok _ _ _ _ _ (st_get_eq s)) in E.
  apply st_res_bind_inv in E as [(?&_&E)|[-> Ho]]; [|left; naive_solver]. cbv zeta in E.
  destruct ((index =? 0) || (NUM_SPS_SUB_SLOT constants <=? index)) eqn:Hidx.
  { injection E as <- <-. left. by split_and!. }
  zbool. set (ssi := match peak with Some _ => _ | None => _ end) in E. clearbody ssi.
  apply st_res_bind_inv in E as [(cc&Ecc%of_opt_Ok&E)|[-> Ho]]; [|left; naive_solver].
  apply st_res_bind_inv in E as [(cp&Ecp%of_opt_Ok&E)|[-> Ho]]; [|left; naive_solver].
  apply st_res_bind_inv in E as [(rc&Erc%of_opt_Ok&E)|[-> Ho]]; [|left; naive_solver].
  apply st_res_bind_inv in E as [(rp&Erp%of_opt_Ok&E)|[-> Ho]]; [|left; naive_solver].
  assert (Hsp : sp = complete_sp cc cp rc rp) by (destruct sp; cbn in *; by subst).
  assert (Hfut : (add_to_future_sp time_time sp index ;; mret false) s = (o, s') →
    slots_same s s' ∧ o ≠ Ok true ∧ (o = Ok false → sp_waits index sp s s')).
  { intros F. apply (keeps_step slots_same) in F as [(a&s1&F1&Hs&F)|[Hs Ho]]; [|naive_solver|apply future_sp_slots].
    injection F as <- <-. split_and!; [exact Hs|done|]. intros _. eapply add_to_future_sp_waits; [|exact F1].
    by exists cc, cp, rc, rp. }
  apply st_res_bind_inv in E as [([[slot rh]|]&Ef&E)|[-> Ho]]; [|by left; apply Hfut|left; naive_solver].
  apply st_res_bind_inv in E as [(valid&_&E)|[-> Ho]]; [|left; naive_solver].
  destruct valid; [|by left; apply Hfut].
  apply st_res_bind_inv in E as [(l&El&E)|[-> Ho]]; [|left; naive_solver].
  rewrite (st_bind_Ok _ _ _ _ _ (st_modify_eq _ s)) in E. set (s1 := set_slots _ _ s) in E.
  assert (Hk : slots_same s1 s' ∧ o ≠ Ok false).
  { apply (keeps_step slots_same) in E as [(h1&s2&E1&K1&E)|[K1 Ho]]; [|by split|apply keeps_res; apply _].
    apply (keeps_step slots_same) in E as [(t&s3&E2&K2&E)|[K2 Ho]]; [|split; [by etrans|done]|apply read_clock_slots].
    apply (keeps_step slots_same) in E as [(u&s4&E3&K3&E)|[K3 Ho]]; [|split; [by repeat (etrans; [eassumption|])|done]|apply set_recent_slots].
    injection E as <- <-. split; [by repeat (etrans; [eassumption|])|done]. }
  destruct Hk as [[K1 K2] Ho]. right. split; [|exact Ho]. split; [done|]. split; [done|].
  apply find_sp_slot_Ok in Ef as (pre&post&Hf). exists cc, cp, rc, rp, pre, slot, post. rewrite K1, K2. by split_and!.
Qed.

Lemma sp_put_ok index sp s s' : sp_put index sp s s' → store_ok s → store_ok s'.
Proof.
  intros (_&_&cc&cp&rc&rp&pre&slot&post&->&(El&Hc&_)&Ea&Em) Hs. unfold store_ok. rewrite Em.
  eapply assign_array_ok; [exact Hs| | |exact Ea].
  - rewrite El. apply elem_of_app. right. apply list_elem_of_here.
  - exists cc, cp, rc, rp. by split.
Qed.

Lemma new_signage_ok index peak next sp skip s o s' :
  new_signage_point constants blocks fuel time_time index peak next sp skip s = (o, s') → store_ok s → store_ok s'.
Proof.
  intros [[Hs _]|[Hp _]]%new_signage_cases; [by apply store_ok_same|by eapply sp_put_ok].
Qed.

(** ** The slots of a new peak *)

(** The two slots given with a peak: the second continues the first. *)
Definition slots_fit (peak : BlockRecord) (sp_sub_slot : option EndOfSubSlotBundle.t) (ip_sub_slot : EndOfSubSlotBundle.t) : Prop :=
  ∀ total, sp_sub_slot_total_iters constants peak = Ok total → sp_sub_slot ≠ None ∨ total = 0 →
    cc_of constants sp_sub_slot = Ok (slot_challenge ip_sub_slot).

Lemma replaced_sps_ok slot total interval fork sps : sps_ok slot sps → sps_ok slot (replaced_sps total interval fork sps).
Proof.
  intros [Hl Hs]. unfold replaced_sps. split; [by rewrite length_imap|]. intros i sp Hi.
  rewrite list_lookup_imap in Hi. destruct (sps !! i) as [sp'|] eqn:E; [|done]. cbn in Hi.
  destruct (_ <? _); [|done]. apply (Hs i). by simplify_eq.
Qed.

(** The lists found for the two slots are good for them, and are the same object only for one slot. *)
Definition kept_ok (sp_slot : option EndOfSubSlotBundle.t) (ip_slot : EndOfSubSlotBundle.t) (acc : SpArray * SpArray * nat) : Prop :=
  let '(sp, ip, made) := acc in
  (sa_id sp < made)%nat ∧ (sa_id ip < made)%nat ∧ sps_ok sp_slot (sa_sps sp) ∧ sps_ok (Some ip_slot) (sa_sps ip)
  ∧ (sa_id sp = sa_id ip → sp_slot = Some ip_slot ∧ sp = ip).

Lemma keep_sps_ok interval fork sp_slot ip_slot l acc : Forall slot_ok l → kept_ok sp_slot ip_slot acc →
  kept_ok sp_slot ip_slot (foldl (keep_sps interval fork sp_slot ip_slot) acc l).
Proof.
  intros Hl. revert acc. induction Hl as [|x l Hx Hl IH]; intros [[sp ip] made] Hacc; [exact Hacc|]. cbn [foldl]. apply IH.
  destruct Hacc as (K1&K2&K3&K4&K5). cbn [keep_sps]. destruct (ss_eos x) as [eos|] eqn:Ex; [|by split_and!].
  assert (Hr : sps_ok (Some eos) (replaced_sps (ss_total_iters x) interval fork (sa_sps (ss_array x)))).
  { apply replaced_sps_ok. rewrite <- Ex. apply Hx. }
  destruct (decide (Some eos = sp_slot)) as [E1|E1], (decide (eos = ip_slot)) as [E2|E2];
    rewrite ?(bool_decide_eq_true_2 _ E1), ?(bool_decide_eq_false_2 _ E1), ?(bool_decide_eq_true_2 _ E2),
      ?(bool_decide_eq_false_2 _ E2); cbn; split_and!; cbn in *; try lia; try done; subst; try done; intros; try lia.
Qed.

Lemma move_slots_ok peak sp_slot ip_slot fork s u s' : store_ok s → slots_fit peak sp_slot ip_slot →
  move_slots constants peak sp_slot ip_slot fork s = (Ok u, s') → store_ok s'.
Proof.
  intros Hs Hfit E. unfold move_slots in E. rewrite (st_bind_Ok _ _ _ _ _ (st_get_eq s)) in E. cbv zeta in E.
  apply st_bind_inv in E as ([[sp ip] made]&s1&E1&E).
  assert (Hk : kept_ok sp_slot ip_slot (sp, ip, made)).
  { set (a0 := (_, _, _)) in E1. assert (H0' : kept_ok sp_slot ip_slot a0).
    { split_and!; cbn; [lia|lia|apply empty_sps_ok|apply empty_sps_ok|lia]. }
    destruct (match fork with Some _ => _ | None => _ end).
    - apply st_bind_inv in E1 as (?&s2&_&E1). apply st_ret_inv in E1 as [E1 _]; rewrite E1. exact H0'.
    - apply st_bind_inv in E1 as (interval&s2&E2&E1). apply st_ret_inv in E1 as [Ek _]. rewrite Ek.
      apply keep_sps_ok; [apply Hs|exact H0']. }
  clear E1. destruct Hk as (H1'&H2'&H3'&H4'&H5').
  rewrite (st_bind_Ok _ _ _ _ _ (st_modify_eq _ s1)) in E.
  apply st_bind_inv in E as (total&s2&E1&E). apply st_res_inv in E1 as [Et ->].
  specialize (Hfit _ Et). apply st_bind_inv in E as (v&s2&E1&E).
  apply st_bind_inv in E as (ip_total&s3&E2&E). apply st_res_inv in E2 as [Eip ->]. injection E as <- <-.
  assert (Hip : slot_ok {| ss_eos := Some ip_slot; ss_array := ip; ss_total_iters := ip_total |}) by (split; [exact H4'|done]).
  destruct (negb (is_None sp_slot) || (total =? 0)) eqn:Hc.
  - apply st_bind_inv in E1 as (w&s4&E3&E1). apply st_res_inv in E3 as [_ ->]. injection E1 as <- <-. cbn.
    assert (Hor : sp_slot ≠ None ∨ total = 0).
    { apply orb_true_iff in Hc as [Hc|Hc]; zbool; [left; by destruct sp_slot|by right]. }
    split; [done| | |].
    + constructor; [|constructor; [exact Hip|done]]. split; [exact H3'|]. cbn. intros ->. by destruct Hor.
    + cbn. split; [|done]. exists ip_slot. split; [done|]. by apply Hfit.
    + split; [repeat constructor; done|]. intros x y Hx Hy.
      apply list_elem_of_In in Hx as [<-|[<-|[]]], Hy as [<-|[<-|[]]]; cbn; intros Hid; [done| | |done].
      * destruct (H5' Hid) as [-> ->]. done.
      * symmetry in Hid. destruct (H5' Hid) as [-> ->]. done.
  - apply st_ret_inv in E1 as [_ ->]. cbn. split; [done| |done|].
    + by constructor.
    + split; [by repeat constructor|]. intros x y ->%list_elem_of_singleton ->%list_elem_of_singleton. done.
Qed.

Definition keeps_ok (s s' : FullNodeStore) : Prop := store_ok s → store_ok s'.
#[local] Instance keeps_ok_preorder : PreOrder keeps_ok.
Proof. unfold keeps_ok. split; [by intros s Hs|]. intros a b c Hab Hbc Ha. auto. Qed.
Lemma same_keeps_ok {A} (m : ST FullNodeStore A) : keeps slots_same m → keeps keeps_ok m.
Proof. intros Hm s. unfold keeps_ok. by apply store_ok_same. Qed.
Lemma new_finished_keeps eos peak full : keeps keeps_ok (new_finished_sub_slot constants blocks fuel time_time eos peak full).
Proof. intros s. destruct (new_finished_sub_slot _ _ _ _ _ _ _ s) as [o s'] eqn:E. exact (new_finished_ok _ _ _ _ _ _ E). Qed.
Lemma new_signage_keeps index peak next sp skip :
  keeps keeps_ok (new_signage_point constants blocks fuel time_time index peak next sp skip).
Proof. intros s. destruct (new_signage_point _ _ _ _ _ _ _ _ _ s) as [o s'] eqn:E. exact (new_signage_ok _ _ _ _ _ _ _ _ E). Qed.

Lemma add_future_eos_keeps peak full l : keeps keeps_ok (add_future_eos constants blocks fuel time_time peak full l).
Proof.
  unfold add_future_eos. apply keeps_early; [apply _|]. intros _ eos. apply keeps_bind; [apply _|apply new_finished_keeps|]. keep.
Qed.
Lemma add_future_sps_keeps peak l : keeps keeps_ok (add_future_sps constants blocks fuel time_time peak l).
Proof.
  unfold add_future_sps. apply st_fold_keeps; [apply _|]. intros t [index sp].
  apply keeps_bind; [apply _|apply keeps_res; apply _|]. intros _.
  apply keeps_bind; [apply _|apply new_signage_keeps|]. keep.
Qed.

Definition futures_same (s s' : FullNodeStore) : Prop :=
  future_eos_cache s' = future_eos_cache s ∧ future_sp_cache s' = future_sp_cache s.
#[local] Instance futures_same_preorder : PreOrder futures_same.
Proof. split; [done|]. intros a b c [E1 E2] [F1 F2]. split; congruence. Qed.
Lemma note_recent_futures slot : keeps futures_same (note_recent_eos time_time slot).
Proof. unfold note_recent_eos. keep; by intros ?. Qed.
Lemma genesis_futures : keeps futures_same (initialize_genesis_sub_slot constants).
Proof. unfold initialize_genesis_sub_slot, clear_slots. keep; by intros ?. Qed.
Lemma move_futures peak sp_slot ip_slot fork : keeps futures_same (move_slots constants peak sp_slot ip_slot fork).
Proof. unfold move_slots, clear_slots. keep; by intros ?. Qed.

(** The part of [new_peak] after the slots are moved *)
Lemma new_peak_slots peak full sp_slot ip_slot fork s r s' :
  new_peak constants blocks fuel time_time peak full sp_slot ip_slot fork s = (Ok r, s') →
  ∃ s1 s2 s3 found, (match ip_slot with None => initialize_genesis_sub_slot constants
                       | Some ip => move_slots constants peak sp_slot ip fork end) s = (Ok tt, s1)
    ∧ add_future_eos constants blocks fuel time_time peak full
        (future_list (reward_infusion_new_challenge peak) (future_eos_cache s1)) s1 = (Ok found, s2)
    ∧ added_eos r = match found with inr eos => Some eos | inl _ => None end
    ∧ add_future_sps constants blocks fuel time_time peak
        (future_list (reward_infusion_new_challenge peak) (future_sp_cache s2)) s2 = (Ok (new_signage_points r), s3)
    ∧ slots_same s3 s'
    ∧ new_infusion_points r = future_list (reward_infusion_new_challenge peak) (future_ip_cache s3)
    ∧ future_eos_cache s' = delete (reward_infusion_new_challenge peak) (future_eos_cache s3)
    ∧ future_sp_cache s' = delete (reward_infusion_new_challenge peak) (future_sp_cache s3).
Proof.
  intros E. unfold new_peak in E. apply st_bind_inv in E as (?&?&E0&E). injection E0 as <- <-.
  apply st_bind_inv in E as (?&?&E0&E). apply st_res_inv in E0 as [_ ->].
  apply st_bind_inv in E as ([]&s1&E1&E). exists s1.
  apply st_bind_inv in E as (?&?&E0&E). injection E0 as <- <-.
  apply st_bind_inv in E as (found&s2&E2&E). exists s2.
  apply st_bind_inv in E as (?&?&E0&E). injection E0 as <- <-.
  apply st_bind_inv in E as (new_sps&s3&E3&E). exists s3, found.
  apply st_bind_inv in E as (?&?&E0&E). injection E0 as <- <-.
  apply st_bind_inv in E as (?&s4&E4&E). injection E4 as _ <-.
  apply st_bind_inv in E as (?&?&E0&E). injection E0 as <- <-.
  apply st_bind_inv in E as (?&s5&E5&E). injection E as <- <-.
  pose proof (keeps_at futures_same _ _ _ _ (keeps_for _ _ _ note_recent_futures) E5) as (F1&F2).
  apply (keeps_at slots_same) in E5; [|apply keeps_for; [apply _|apply note_recent_slots]].
  split_and!; [by destruct ip_slot|exact E2|done|exact E3|exact E5|done|exact F1|exact F2].
Qed.

Lemma new_peak_ok peak full sp_slot ip_slot fork s r s' :
  store_ok s → (∀ ip, ip_slot = Some ip → slots_fit peak sp_slot ip) →
  new_peak constants blocks fuel time_time peak full sp_slot ip_slot fork s = (Ok r, s') → store_ok s'.
Proof.
  intros Hs Hfit (s1&s2&s3&found&E1&E2&_&E3&E4&_&_&_)%new_peak_slots.
  assert (Hs1 : store_ok s1).
  { destruct ip_slot as [ip|]; [by eapply move_slots_ok; [|apply Hfit|]|]. injection E1 as <-. apply slots_ok_genesis. }
  pose proof (keeps_at keeps_ok _ _ _ _ (add_future_eos_keeps peak full _) E2 Hs1) as Hs2.
  eapply store_ok_same; [exact E4|]. exact (keeps_at keeps_ok _ _ _ _ (add_future_sps_keeps peak _) E3 Hs2).
Qed.
End Invariant.

(** ** Reachable stores

    The calls the node makes on its store; the chain, the clock and the fuel may be
    different at each.  A call of [new_peak] that raises is not a step: it may leave no
    slot behind. *)
Inductive store_step `{Packages} `{StdHash} `{Vdf} (constants : ConsensusConstants) : FullNodeStore → FullNodeStore → Prop :=
  | step_candidate quality h b backup s : store_step constants s (add_candidate_block quality h b backup s)
  | step_clear_candidates h s : store_step constants s (clear_candidate_blocks_below h s)
  | step_seen hash s : store_step constants s (seen_unfinished_block hash s).2
  | step_clear_seen s : store_step constants s (clear_seen_unfinished_blocks s)
  | step_unfinished h b result s : store_step constants s (add_unfinished_block h b result s).2
  | step_clear_unfinished h s : store_step constants s (clear_unfinished_blocks_below h s)
  | step_remove_unfinished hash s : store_step constants s (remove_unfinished_block hash s)
  | step_future_ip ip s : store_step constants s (add_to_future_ip ip s)
  | step_clear_old time_time s : store_step constants s (clear_old_cache_entries time_time s).2
  | step_eos blocks fuel time_time eos peak full s :
      store_step constants s (new_finished_sub_slot constants blocks fuel time_time eos peak full s).2
  | step_sp blocks fuel time_time index peak next sp skip s :
      store_step constants s (new_signage_point constants blocks fuel time_time index peak next sp skip s).2
  | step_peak blocks fuel time_time peak full sp_slot ip_slot fork s r s' :
      (∀ ip, ip_slot = Some ip → slots_fit constants peak sp_slot ip) →
      new_peak constants blocks fuel time_time peak full sp_slot ip_slot fork s = (Ok r, s') → store_step constants s s'.

Lemma store_step_ok `{Packages} `{StdHash} `{Vdf} constants s s' :
  store_step constants s s' → store_ok constants s → store_ok constants s'.
Proof.
  destruct 1; intros Hs; try exact Hs.
  - by destruct backup.
  - unfold seen_unfinished_block. by case_bool_decide.
  - unfold add_unfinished_block, mbind, st_bind, st_res. by destruct (partial_hash b).
  - unfold remove_unfinished_block. by destruct (unfinished_blocks s !! hash).
  - eapply store_ok_same; [apply clear_old_slots|exact Hs].
  - by apply new_finished_keeps.
  - by apply new_signage_keeps.
  - by eapply new_peak_ok.
Qed.

(** C27. In every store the node can reach from a new one, the sub slots are linked by their
    challenges, each holds one list of the right length, and every signage point in it is
    complete and belongs to the challenge of its slot. *)
Theorem reachable_store_ok `{Packages} `{StdHash} `{Vdf} (constants : ConsensusConstants) (s : FullNodeStore) :
  rtc (store_step constants) (new_store constants) s → store_ok constants s.
Proof.
  intros Hr. assert (Hn : store_ok constants (new_store constants)) by apply slots_ok_genesis.
  revert Hn. induction Hr as [s|s1 s2 s3 Hst _ IH]; [done|]. intros Hs. apply IH. by eapply store_step_ok.
Qed.

(** ** A signage point that is added is found again *)
Section Found.
Context `{Packages} `{StdHash} `{Vdf} (constants : ConsensusConstants).

Lemma find_by_index_at ch index rc l pre slot post : first_slot constants ch l pre slot post → index ≠ 0 →
  find_by_index constants ch index rc l =
    (sp ← py_index (sa_sps (ss_array slot)) index;
     match sp with
     | Some sp => rc_vdf ← of_opt AssertionError (SignagePoint.rc_vdf sp);
                  Ok (if bool_decide (VDFInfo.challenge rc_vdf = rc) then Some sp else None)
     | None => Ok None
     end).
Proof.
  intros (->&Hc&Hpre) Hi. induction Hpre as [|x pre (c&Ec&Hne) _ IH]; cbn [app find_by_index].
  - rewrite Hc. cbn [mbind res_bind]. rewrite bool_decide_eq_true_2 by done. by rewrite (proj2 (Z.eqb_neq _ _) Hi).
  - rewrite Ec. cbn [mbind res_bind]. by rewrite bool_decide_eq_false_2.
Qed.

(** Slots with other points at [index] of the slots of [ch] only *)
Definition differ_at (ch : bytes) (index : Z) (x y : SubSlot) : Prop :=
  ss_eos y = ss_eos x ∧ (sa_sps (ss_array y) = sa_sps (ss_array x)
    ∨ cc_of constants (ss_eos x) = Ok ch ∧ ∃ sp, sa_sps (ss_array y) = <[Z.to_nat index := sp]> (sa_sps (ss_array x))).

Lemma py_index_insert_ne {A} (l : list A) i j x : 0 <= i → 0 <= j → i ≠ j → py_index (<[Z.to_nat i := x]> l) j = py_index l j.
Proof.
  intros Hi Hj Hne. unfold py_index. rewrite length_insert. rewrite (proj2 (Z.ltb_ge j 0)) by lia.
  rewrite (proj2 (Z.ltb_ge j 0)) by lia. rewrite list_lookup_insert_ne; [done|]. lia.
Qed.

Lemma find_by_index_same ch index ch' index' rc l l' : 0 <= index → 0 <= index' → (ch', index') ≠ (ch, index) →
  Forall2 (differ_at ch index) l l' → find_by_index constants ch' index' rc l' = find_by_index constants ch' index' rc l.
Proof.
  intros Hi Hi' Hne. induction 1 as [|x y l l' [He Hs] _ IH]; [done|]. cbn [find_by_index]. rewrite He.
  destruct (cc_of constants (ss_eos x)) as [c|e|] eqn:Ec; cbn [mbind res_bind]; [|done|done].
  case_bool_decide as Hd; [|apply IH]. destruct (index' =? 0); [done|]. destruct Hs as [->|[Ech (sp&->)]]; [done|].
  rewrite py_index_insert_ne; [done|lia|lia|]. simplify_eq. congruence.
Qed.

Lemma assign_array_differ made l pre slot post ch i sp l' : 0 <= i → first_slot constants ch l pre slot post →
  arrays_ok made l → assign_array slot i sp l = Ok l' →
  Forall2 (differ_at ch i) l l' ∧ ∃ pre' slot' post', first_slot constants ch l' pre' slot' post'
    ∧ sa_sps (ss_array slot') !! Z.to_nat i = Some (Some sp).
Proof.
  intros Hi (El&Hc&Hpre) [_ Hb] E. unfold assign_array in E. apply bind_Ok in E as (sps&E1&E).
  apply list_assign_Ok in E1 as [Hlen ->]; [|lia]. apply Ok_inj in E. subst l'. set (put := λ x : SubSlot, _).
  assert (Hin : slot ∈ l) by (rewrite El; apply elem_of_app; right; apply list_elem_of_here).
  assert (He : ∀ x, ss_eos (put x) = ss_eos x) by (intros x; unfold put; by case_bool_decide).
  split.
  - apply Forall2_fmap_r. apply Forall_Forall2_diag, Forall_forall. intros x Hx. split; [apply He|].
    unfold put. case_bool_decide as Ei; [|by left]. right. destruct (Hb x slot Hx Hin Ei) as [Ee Ea].
    rewrite Ee, Ea. split; [exact Hc|]. by exists (Some sp).
  - exists (put <$> pre), (put slot), (put <$> post). split.
    + split; [by rewrite El, fmap_app|]. split; [by rewrite He|]. rewrite Forall_fmap. eapply Forall_impl; [exact Hpre|].
      intros x. cbn. by rewrite He.
    + unfold put. rewrite bool_decide_eq_true_2 by done. cbn. by apply list_lookup_insert_eq.
Qed.

(** C28. When [new_signage_point] accepts a signage point, [get_signage_point_by_index]
    returns it for its challenge, its index and the infusion it is based on, and nothing
    for that challenge and index with another infusion; the answers for every other
    challenge or index are as they were.  When it refuses one, the slots are as they
    were; the point then waits in the future cache, unless one with the same reward
    chain VDF and index was waiting there, and nothing at all changes when its index is
    not one of a slot's. *)
Theorem signage_point_found blocks fuel time_time index peak next sp skip s added s' :
  store_ok constants s → 0 <= index →
  new_signage_point constants blocks fuel time_time index peak next sp skip s = (Ok added, s') →
  if added then
    ∃ cc rc, SignagePoint.cc_vdf sp = Some cc ∧ SignagePoint.rc_vdf sp = Some rc
      ∧ get_signage_point_by_index constants (VDFInfo.challenge cc) index (VDFInfo.challenge rc) s' = Ok (Some sp)
      ∧ (∀ rc', rc' ≠ VDFInfo.challenge rc →
          get_signage_point_by_index constants (VDFInfo.challenge cc) index rc' s' = Ok None)
      ∧ ∀ ch i rc', 0 <= i → (ch, i) ≠ (VDFInfo.challenge cc, index) →
          get_signage_point_by_index constants ch i rc' s' = get_signage_point_by_index constants ch i rc' s
  else finished_sub_slots s' = finished_sub_slots s
    ∧ (0 < index < NUM_SPS_SUB_SLOT constants → sp_waits index sp s s')
    ∧ (index = 0 ∨ NUM_SPS_SUB_SLOT constants <= index → s' = s).
Proof.
  intros Hs Hi E. apply new_signage_cases in E as [([E1 _]&Ho&Hw)|[Hp Ho]]; destruct added; [done| | |done].
  { specialize (Hw eq_refl). split; [exact E1|]. split; intros Hidx.
    - by rewrite (proj2 (Z.eqb_neq _ _)), (proj2 (Z.leb_gt _ _)) in Hw by lia.
    - destruct Hidx as [->|Hidx]; [exact Hw|]. by rewrite (proj2 (Z.leb_le _ _) Hidx), orb_true_r in Hw. }
  destruct Hp as (Hi0&_&cc&cp&rc&rp&pre&slot&post&->&Hf&Ea&_). exists cc, rc. split; [done|]. split; [done|].
  destruct (assign_array_differ _ _ _ _ _ _ _ _ _ Hi Hf (sl_arrays _ _ _ Hs) Ea) as (Hd&pre'&slot'&post'&Hf'&Hl).
  unfold get_signage_point_by_index. rewrite (Forall2_length _ _ _ Hd).
  assert (Hn : bool_decide (1 <= length (finished_sub_slots s'))%nat = true).
  { apply bool_decide_eq_true_2. destruct Hf' as (->&_). rewrite length_app. cbn. lia. }
  rewrite Hn. cbn [assert_ check mbind res_bind].
  assert (Hget : ∀ rc', find_by_index constants (VDFInfo.challenge cc) index rc' (finished_sub_slots s')
                        = Ok (if bool_decide (VDFInfo.challenge rc = rc') then Some (complete_sp cc cp rc rp) else None)).
  { intros rc'. rewrite (find_by_index_at _ _ _ _ _ _ _ Hf' Hi0). by rewrite (proj2 (py_index_Ok _ _ _ Hi) Hl). }
  split_and!.
  - by rewrite Hget, bool_decide_eq_true_2.
  - intros rc' Hne. by rewrite Hget, bool_decide_eq_false_2.
  - intros ch i rc' Hi' Hne. exact (find_by_index_same _ _ _ _ _ _ _ Hi Hi' Hne Hd).
Qed.
End Found.

(** ** The slots between a block and a challenge *)
Section Connect.
Context `{Packages} `{StdHash} (constants : ConsensusConstants) (blocks : BlockchainInterface) (fuel : nat).

(** The slots [l] lead from the challenge [from] to the challenge [to]. *)
Fixpoint slots_chain (from : bytes) (l : list EndOfSubSlotBundle.t) (to : bytes) : Prop :=
  match l with
  | [] => from = to
  | e :: l => slot_challenge e = from ∧ ∃ h, cc_slot_hash e = Ok h ∧ slots_chain h l to
  end.
Fixpoint eos_linked (l : list EndOfSubSlotBundle.t) : Prop :=
  match l with
  | a :: (b :: _) as l' => cc_slot_hash a = Ok (slot_challenge b) ∧ eos_linked l'
  | _ => True
  end.
Definition holds (slots : list SubSlot) (es : list EndOfSubSlotBundle.t) : Prop := Forall2 (λ x e, ss_eos x = Some e) slots es.

Lemma linked_tail x l : linked constants (x :: l) → ∃ es, holds l es ∧ eos_linked es.
Proof.
  revert x. induction l as [|y l IH]; intros x Hl; [exists []; split; [constructor|done]|]. destruct Hl as [(eos&Ey&_) Hl].
  destruct (IH y Hl) as (es&Hes&Hlk). exists (eos :: es). split; [by constructor|].
  destruct es as [|e es]; [done|]. split; [|exact Hlk]. inversion Hes as [|z ? l' ? Ez]; subst.
  destruct Hl as [(e'&Ee&Hc) _]. rewrite Ey in Hc. cbn [cc_of] in Hc. congruence.
Qed.

Lemma slots_chain_snoc from l mid e h : slots_chain from l mid → slot_challenge e = mid → cc_slot_hash e = Ok h →
  slots_chain from (l ++ [e]) h.
Proof.
  revert from. induction l as [|a l IH]; intros from; cbn.
  - intros -> He Hh. split; [done|]. eauto.
  - intros (Ha&h'&Eh&Hl) He Hh. split; [done|]. exists h'. split; [done|]. by apply IH.
Qed.

(** One round of the loop *)
Lemma collect_round in_chain to acc x e slots : ss_eos x = Some e →
  for_early (collect_slot in_chain to) acc (x :: slots) =
    match (match acc with Some l => Some l | None => if bool_decide (slot_challenge e = in_chain) then Some [] else None end) with
    | Some l => h ← cc_slot_hash e;
                if bool_decide (h = to) then Ok (inr (l ++ [e])) else for_early (collect_slot in_chain to) (Some (l ++ [e])) slots
    | None => for_early (collect_slot in_chain to) None slots
    end.
Proof.
  intros Hx. cbn [for_early]. unfold collect_slot at 2. rewrite Hx. cbn [of_opt mbind res_bind]. fold (slot_challenge e).
  destruct (match acc with Some _ => _ | None => _ end); [|done]. destruct (cc_slot_hash e); [|done|done].
  cbn [mbind res_bind]. by case_bool_decide.
Qed.

(** What the loop finds from a slot on, once the slots [l0] are collected *)
Lemma collect_from in_chain to slots es l0 mid r : holds slots es → eos_linked es →
  slots_chain in_chain l0 mid → (∀ e, head es = Some e → slot_challenge e = mid) →
  for_early (collect_slot in_chain to) (Some l0) slots = Ok (inr r) →
  ∃ l post, es = l ++ post ∧ r = l0 ++ l ∧ slots_chain in_chain r to.
Proof.
  intros Hs. revert l0 mid. induction Hs as [|x e slots es Hx _ IH]; intros l0 mid Hlk Hc Hh E; [done|].
  rewrite (collect_round _ _ _ _ _ _ Hx) in E. cbn [mbind res_bind] in E.
  destruct (cc_slot_hash e) as [h| |] eqn:Eh; cbn [mbind res_bind] in E; [|done|done].
  pose proof (slots_chain_snoc _ _ _ _ _ Hc (Hh e eq_refl) Eh) as Hc'.
  case_bool_decide as Hd; cbn [mbind res_bind] in E.
  - injection E as <-. exists [e], es. subst. by split_and!.
  - destruct (IH (l0 ++ [e]) h) as (l&post&->&->&Hr); [by destruct es as [|e' es]; [|destruct Hlk]|exact Hc'| |exact E|].
    + intros e' He'. destruct es as [|e1 es]; [done|]. injection He' as ->. destruct Hlk as [Hlk _]. congruence.
    + exists (e :: l), post. split; [done|]. split; [by rewrite <- app_assoc|exact Hr].
Qed.

Lemma collect_finds in_chain to slots es r : holds slots es → eos_linked es →
  for_early (collect_slot in_chain to) None slots = Ok (inr r) →
  ∃ pre post, es = pre ++ r ++ post ∧ slots_chain in_chain r to.
Proof.
  intros Hs. induction Hs as [|x e slots es Hx Hs IH]; intros Hlk E; [done|].
  rewrite (collect_round _ _ _ _ _ _ Hx) in E. cbn [mbind res_bind] in E.
  case_bool_decide as Hin; cbn [mbind res_bind] in E.
  - destruct (cc_slot_hash e) as [h| |] eqn:Eh; cbn [mbind res_bind] in E; [|done|done].
    assert (Hc : slots_chain in_chain [e] h) by (split; [done|by exists h]).
    case_bool_decide as Hd; cbn [mbind res_bind app] in E.
    + injection E as <-. exists [], es. subst. by split_and!.
    + destruct (collect_from in_chain to slots es [e] h r) as (l&post&->&->&Hr);
        [exact Hs|by destruct es as [|e' es]; [|destruct Hlk]|exact Hc| |exact E|].
      * intros e' He'. destruct es as [|e1 es]; [done|]. injection He' as ->. destruct Hlk as [Hlk _]. congruence.
      * by exists [], post.
  - destruct IH as (pre&post&->&Hr); [by destruct es as [|e' es]; [|destruct Hlk]|exact E|]. by exists (e :: pre), post.
Qed.

(** The loop comes to an end at the latest where a slot has the hash [to]. *)
Lemma collect_ends in_chain to slots pre e post l0 : holds slots (pre ++ e :: post) → eos_linked (pre ++ e :: post) →
  cc_slot_hash e = Ok to → ∃ r, for_early (collect_slot in_chain to) (Some l0) slots = Ok (inr r).
Proof.
  revert slots l0. induction pre as [|a pre IH]; intros slots l0 Hs Hlk He; inversion Hs as [|x ? slots' ? Hx Hs']; subst;
    rewrite (collect_round _ _ _ _ _ _ Hx); cbn [mbind res_bind].
  - rewrite He. cbn [mbind res_bind]. rewrite bool_decide_eq_true_2 by done. cbn. eauto.
  - assert (Ha : ∃ h, cc_slot_hash a = Ok h) by (destruct pre; destruct Hlk as [Hlk _]; eauto).
    destruct Ha as (h&->). cbn [mbind res_bind]. case_bool_decide; cbn [mbind res_bind]; [eauto|].
    apply IH; [done|by destruct pre; destruct Hlk|done].
Qed.

Lemma collect_complete in_chain to slots pre e l post : holds slots (pre ++ (e :: l) ++ post) →
  eos_linked (pre ++ (e :: l) ++ post) → slots_chain in_chain (e :: l) to →
  ∃ r, for_early (collect_slot in_chain to) None slots = Ok (inr r).
Proof.
  intros Hs Hlk Hc. assert (Hlast : ∃ l1 z, e :: l = l1 ++ [z] ∧ cc_slot_hash z = Ok to).
  { clear Hs Hlk. revert in_chain e Hc. induction l as [|a l IH]; intros c e (He&h&Eh&Hc).
    - exists [], e. split; [done|]. cbn in Hc. congruence.
    - destruct (IH _ _ Hc) as (l1&z&El&Hz). exists (e :: l1), z. by rewrite El. }
  destruct Hlast as (l1&z&El&Hz). destruct Hc as [He _].
  revert slots Hs. induction pre as [|a pre IH]; intros slots Hs; inversion Hs as [|x ? slots' ? Hx Hs']; subst;
    rewrite (collect_round _ _ _ _ _ _ Hx); cbn [mbind res_bind].
  - rewrite bool_decide_eq_true_2 by done. destruct l1 as [|e1 l1].
    + injection El as -> ->. rewrite Hz. cbn [mbind res_bind]. rewrite bool_decide_eq_true_2 by done. cbn. eauto.
    + injection El as -> ->. assert (Hh : ∃ h, cc_slot_hash e1 = Ok h) by (destruct l1; destruct Hlk as [Hlk _]; eauto).
      destruct Hh as (h&->). cbn [mbind res_bind]. case_bool_decide; cbn [mbind res_bind]; [eauto|].
      rewrite <- app_assoc in Hs'. cbn [app] in Hs'. eapply collect_ends; [exact Hs'| |exact Hz].
      cbn [app] in Hlk. rewrite <- app_assoc in Hlk. by destruct l1; destruct Hlk.
  - case_bool_decide; [|cbn [mbind res_bind]; apply IH; [by destruct pre; destruct Hlk|done]].
    assert (Ha : ∃ h, cc_slot_hash a = Ok h) by (destruct pre; destruct Hlk as [Hlk _]; eauto).
    destruct Ha as (h&->). cbn [mbind res_bind]. case_bool_decide; cbn [mbind res_bind]; [eauto|].
    assert (Eq : pre ++ (e :: l) ++ post = (pre ++ l1) ++ z :: post) by (rewrite El, <- !app_assoc; done).
    change (holds slots' (pre ++ (e :: l) ++ post)) in Hs'. rewrite Eq in Hs'.
    eapply collect_ends; [exact Hs'| |exact Hz]. rewrite <- Eq. by destruct pre; destruct Hlk.
Qed.

(** C29. [get_finished_sub_slots] searches the slots after the first one of the store.  The
    slots it returns follow each other there and lead from the challenge of the slot of
    the parent to the challenge asked for (none when these are the same); and whenever
    slots after the first one lead there, it returns some. *)
Theorem finished_sub_slots_connect prev_b to s in_chain :
  store_ok constants s → challenge_in_chain constants blocks fuel prev_b s = Ok in_chain →
  (∀ l, get_finished_sub_slots constants blocks fuel prev_b to s = Ok (Some l) →
     slots_chain in_chain l to ∧ ∃ pre post, omap ss_eos (tail (finished_sub_slots s)) = pre ++ l ++ post)
  ∧ (∀ pre l post, omap ss_eos (tail (finished_sub_slots s)) = pre ++ l ++ post → slots_chain in_chain l to →
       ∃ l', get_finished_sub_slots constants blocks fuel prev_b to s = Ok (Some l')).
Proof.
  intros Hs Hin. unfold get_finished_sub_slots. rewrite Hin. cbn [mbind res_bind].
  destruct (finished_sub_slots s) as [|x slots] eqn:El; [by destruct (sl_some _ _ _ Hs)|]. cbn [tail].
  destruct (linked_tail x slots) as (es&Hes&Hlk); [rewrite <- El; apply Hs|].
  assert (Eo : omap ss_eos slots = es).
  { clear -Hes. induction Hes as [|y e slots es Hy _ IH]; [done|]. cbn. rewrite Hy. by f_equal. }
  rewrite Eo. split.
  - intros l E. case_bool_decide as Hd; [injection E as <-; split; [by symmetry|by exists [], es]|].
    apply bind_Ok in E as ([?|r]&E1&E); [done|]. injection E as <-.
    destruct (collect_finds _ _ _ _ _ Hes Hlk E1) as (pre&post&->&Hc). split; [exact Hc|eauto].
  - intros pre l post -> Hc. case_bool_decide as Hd; [eauto|]. destruct l as [|e l]; [by destruct Hd|].
    destruct (collect_complete _ _ _ _ _ _ _ Hes Hlk Hc) as (r&->). cbn. eauto.
Qed.
End Connect.

(** ** What arrives before its block *)
Section Early.
Context `{Packages} `{StdHash} `{Vdf} (constants : ConsensusConstants).

(** [eos] waits for the peak that infuses the challenge [ch]. *)
Definition eos_waits (ch : bytes) (eos : EndOfSubSlotBundle.t) (s : FullNodeStore) : Prop :=
  eos ∈ future_list ch (future_eos_cache s).
Definition keeps_waiting (ch : bytes) (eos : EndOfSubSlotBundle.t) (s s' : FullNodeStore) : Prop :=
  eos_waits ch eos s → eos_waits ch eos s'.
#[local] Instance keeps_waiting_preorder ch eos : PreOrder (keeps_waiting ch eos).
Proof. unfold keeps_waiting. split; [by intros s Hs|]. intros a b c Hab Hbc Ha. auto. Qed.

Section Kept.
Context (blocks : BlockchainInterface) (fuel : nat) (time_time : nat → float) (ch : bytes) (eos : EndOfSubSlotBundle.t).
Notation K := (keeps (keeps_waiting ch eos)).

Lemma waiting_clock : K (read_clock time_time).
Proof. by intros s Hs. Qed.
Lemma waiting_slots f g : K (st_modify (λ s, set_slots (f s) (g s) s)).
Proof. by intros s Hs. Qed.
Lemma waiting_recent f g : K (st_modify (λ s, set_recent (f s) (g s) s)).
Proof. by intros s Hs. Qed.
Lemma waiting_future f g h : K (st_modify (λ s, set_future (future_eos_cache s) (f s) (g s) (h s) s)).
Proof. by intros s Hs. Qed.
Lemma waiting_added ch' e :
  K (st_modify (λ s, set_future (<[ch' := future_list ch' (future_eos_cache s) ++ [e]]> (future_eos_cache s))
       (future_sp_cache s) (future_ip_cache s) (future_cache_key_times s) s)).
Proof.
  intros s Hs. unfold eos_waits, future_list in *. cbn. destruct (decide (ch = ch')) as [->|Hne].
  - rewrite lookup_insert_eq. cbn. apply elem_of_app. by left.
  - by rewrite lookup_insert_ne.
Qed.
Hint Resolve waiting_clock waiting_slots waiting_recent waiting_future waiting_added : keeps.
Lemma waiting_eos e peak full : K (new_finished_sub_slot constants blocks fuel time_time e peak full).
Proof. unfold new_finished_sub_slot, add_to_future_eos, read_seconds. keep. Qed.
Lemma waiting_sp index peak next sp skip : K (new_signage_point constants blocks fuel time_time index peak next sp skip).
Proof. unfold new_signage_point, add_to_future_sp, read_seconds. keep. Qed.
Hint Resolve waiting_eos waiting_sp : keeps.
Lemma waiting_genesis : K (initialize_genesis_sub_slot constants).
Proof. unfold initialize_genesis_sub_slot, clear_slots. keep. Qed.
Lemma waiting_move peak sp_slot ip_slot fork : K (move_slots constants peak sp_slot ip_slot fork).
Proof. unfold move_slots, clear_slots. keep. Qed.
Hint Resolve waiting_genesis waiting_move : keeps.
Lemma waiting_future_eos peak full l : K (add_future_eos constants blocks fuel time_time peak full l).
Proof. unfold add_future_eos. keep. Qed.
Lemma waiting_future_sps peak l : K (add_future_sps constants blocks fuel time_time peak l).
Proof. unfold add_future_sps. apply st_fold_keeps; [apply _|]. keep. Qed.
Lemma waiting_deleted ch' f g h : ch' ≠ ch →
  K (st_modify (λ s, set_future (delete ch' (future_eos_cache s)) (f s) (g s) (h s) s)).
Proof. intros Hne s. unfold keeps_waiting, eos_waits, future_list. cbn. by rewrite lookup_delete_ne. Qed.
Lemma waiting_peak peak full sp_slot ip_slot fork : reward_infusion_new_challenge peak ≠ ch →
  K (new_peak constants blocks fuel time_time peak full sp_slot ip_slot fork).
Proof.
  intros Hne. unfold new_peak. keep; eauto using waiting_future_eos, waiting_future_sps, waiting_deleted.
  apply keeps_for; [apply _|]. unfold note_recent_eos. keep.
Qed.

(** A key whose time is at most an hour old is not cleared. *)
Lemma waiting_clear s : (∀ t now, future_cache_key_times s !! ch = Some t → int_of_float (time_time (clock_reads s)) = Ok now →
    now - t <= 3600) → keeps_waiting ch eos s (clear_old_cache_entries time_time s).2.
Proof.
  intros Hfresh Hs. unfold clear_old_cache_entries, read_seconds, read_clock, mbind, st_bind, st_res. cbn.
  destruct (int_of_float (time_time (clock_reads s))) as [now| |] eqn:Et; [|exact Hs|exact Hs]. cbn.
  unfold eos_waits, future_list. cbn. rewrite lookup_foldr_delete_not_elem_of; [exact Hs|].
  intros ([k t]&Ek&Hk)%list_elem_of_fmap. cbn in Ek. subst k. apply list_elem_of_filter in Hk as [Hold Hk].
  apply elem_of_map_to_list in Hk. cbn in Hold. specialize (Hfresh t now Hk eq_refl). lia.
Qed.
End Kept.

(** The calls the node makes while no peak with the challenge [ch] arrives and the key [ch] is not an hour old *)
Inductive quiet_step (ch : bytes) : FullNodeStore → FullNodeStore → Prop :=
  | quiet_eos blocks fuel time_time e peak full s :
      quiet_step ch s (new_finished_sub_slot constants blocks fuel time_time e peak full s).2
  | quiet_sp blocks fuel time_time index peak next sp skip s :
      quiet_step ch s (new_signage_point constants blocks fuel time_time index peak next sp skip s).2
  | quiet_peak blocks fuel time_time peak full sp_slot ip_slot fork s :
      reward_infusion_new_challenge peak ≠ ch →
      quiet_step ch s (new_peak constants blocks fuel time_time peak full sp_slot ip_slot fork s).2
  | quiet_future_ip ip s : quiet_step ch s (add_to_future_ip ip s)
  | quiet_clear time_time s :
      (∀ t now, future_cache_key_times s !! ch = Some t → int_of_float (time_time (clock_reads s)) = Ok now → now - t <= 3600) →
      quiet_step ch s (clear_old_cache_entries time_time s).2.

Lemma quiet_waiting ch eos s s' : rtc (quiet_step ch) s s' → eos_waits ch eos s → eos_waits ch eos s'.
Proof.
  induction 1 as [s|s1 s2 s3 Hst _ IH]; [done|]. intros Hs. apply IH. destruct Hst.
  - by apply waiting_eos.
  - by apply waiting_sp.
  - by apply waiting_peak.
  - exact Hs.
  - by apply waiting_clear.
Qed.

(** Each waiting end of slot is tried until one is added. *)
Lemma add_future_eos_tries blocks fuel time_time peak full l s r s' :
  add_future_eos constants blocks fuel time_time peak full l s = (Ok r, s') →
  match r with
  | inr e => e ∈ l ∧ ∃ slot, slot ∈ finished_sub_slots s' ∧ ss_eos slot = Some e
  | inl _ => slots_same s s' ∧ ∀ e, e ∈ l → ∃ s1 s2, slots_same s s1
      ∧ new_finished_sub_slot constants blocks fuel time_time e (Some peak) (Some full) s1 = (Ok None, s2)
  end.
Proof.
  unfold add_future_eos. revert s. induction l as [|e l IH]; intros s E; cbn [st_early] in E.
  { injection E as <- <-. split; [done|]. intros e He. by apply not_elem_of_nil in He. }
  apply st_bind_inv in E as (x&s1&E1&E). apply st_bind_inv in E1 as (o&s2&E1&E2).
  pose proof (new_finished_cases _ _ _ _ _ _ _ _ _ _ E1) as Hc. destruct o as [ips|].
  - injection E2 as <- <-. injection E as <- <-. split; [apply list_elem_of_here|].
    destruct Hc as [[[Hs _] Hin]|[(y&total&_&_&Hs&_) _]]; rewrite Hs; [by eapply Hin|].
    eexists. split; [apply elem_of_app; right; apply list_elem_of_here|done].
  - injection E2 as <- <-. destruct Hc as [[Hs _]|[_ Hn]]; [|done]. specialize (IH _ E). destruct r as [u|e'].
    + destruct IH as [Hs' Ht]. split; [by etrans|]. intros e' [->|He]%elem_of_cons; [by exists s, s2|].
      destruct (Ht e' He) as (s3&s4&K3&E3). exists s3, s4. split; [by etrans|done].
    + destruct IH as [He' Hslot]. split; [by apply list_elem_of_further|exact Hslot].
Qed.

Lemma add_future_sps_slots blocks fuel time_time peak l : ∀ s r s',
  add_future_sps constants blocks fuel time_time peak l s = (Ok r, s') →
  (ss_eos <$> finished_sub_slots s') = (ss_eos <$> finished_sub_slots s).
Proof.
  unfold add_future_sps. match goal with |- context [st_fold ?b _ _] => set (body := b) end.
  generalize (@nil (Z * SignagePoint.t)) as acc. induction l as [|[index sp] l IH]; intros acc s r s' E; cbn [st_fold] in E; [by injection E as _ <-|].
  apply st_bind_inv in E as (acc'&s1&E1&E). apply IH in E. rewrite E. clear E IH.
  apply st_bind_inv in E1 as (?&?&E0&E1). apply st_res_inv in E0 as [_ ->].
  apply st_bind_inv in E1 as (o&s2&E2&E1). injection E1 as _ <-.
  apply new_signage_cases in E2 as [([-> _]&_)|[(_&_&cc&cp&rc&rp&pre&slot&post&_&_&Ea&_) _]]; [done|].
  unfold assign_array in Ea. apply bind_Ok in Ea as (sps&_&Ea). apply Ok_inj in Ea. rewrite <- Ea.
  rewrite <- list_fmap_compose. apply list_fmap_ext. intros i x0 _. cbn. by case_bool_decide.
Qed.
End Early.


(** ** Stores to evaluate the theorems on *)
Definition sample_eos (cc rc : bytes) (rc_iters : Z) : EndOfSubSlotBundle.t := {|
  EndOfSubSlotBundle.challenge_chain := {|
    ChallengeChainSubSlot.challenge_chain_end_of_slot_vdf := vdf_at cc (2 ^ 27);
    ChallengeChainSubSlot.infused_challenge_chain_sub_slot_hash := None; ChallengeChainSubSlot.subepoch_summary_hash := None;
    ChallengeChainSubSlot.new_sub_slot_iters := None; ChallengeChainSubSlot.new_difficulty := None |};
  EndOfSubSlotBundle.infused_challenge_chain := None;
  EndOfSubSlotBundle.reward_chain := {|
    RewardChainSubSlot.end_of_slot_vdf := vdf_at rc rc_iters; RewardChainSubSlot.challenge_chain_sub_slot_hash := replicate 32 1;
    RewardChainSubSlot.infused_challenge_chain_sub_slot_hash := None; RewardChainSubSlot.deficit := 16 |};
  EndOfSubSlotBundle.proofs := {|
    SubSlotProofs.challenge_chain_slot_proof := sample_vdf_proof; SubSlotProofs.infused_challenge_chain_slot_proof := None;
    SubSlotProofs.reward_chain_slot_proof := sample_vdf_proof |} |}.
Definition store_time (n : nat) : float := SpecFloat.S754_finite false 1000 0.
Definition no_blocks : BlockchainInterface := chain_interface
  {| peak_height := None; mem_records := ∅; heights_in_cache := ∅; mem_height_to_hash := ∅; mem_summaries := ∅ |}.
Definition genesis_challenge : bytes := GENESIS_CHALLENGE DEFAULT_CONSTANTS.
Definition first_eos : EndOfSubSlotBundle.t := sample_eos genesis_challenge genesis_challenge (2 ^ 27).
Notation one_slot_run := (
  new_finished_sub_slot DEFAULT_CONSTANTS no_blocks 5 store_time first_eos None None (new_store DEFAULT_CONSTANTS)) (only parsing).
Definition first_sp : SignagePoint.t := complete_sp (vdf_at genesis_challenge (2 ^ 21 * 3)) sample_vdf_proof
  (vdf_at genesis_challenge (2 ^ 21 * 3)) sample_vdf_proof.
Notation sp_run := (
  new_signage_point DEFAULT_CONSTANTS no_blocks 5 store_time 3 None (2 ^ 27) first_sp false one_slot_run.2) (only parsing).

Lemma one_slot_ok : store_ok DEFAULT_CONSTANTS one_slot_run.2.
Proof. apply new_finished_keeps. apply slots_ok_genesis. Qed.

Lemma reachable_store_ok_witness :
  store_ok DEFAULT_CONSTANTS sp_run.2 ∧ length (finished_sub_slots sp_run.2) = 2%nat ∧ sp_run.1 = Ok true.
Proof.
  split; [|split; vm_compute; reflexivity].
  apply (reachable_store_ok DEFAULT_CONSTANTS). eapply rtc_l; [|apply rtc_once].
  - apply (step_eos DEFAULT_CONSTANTS no_blocks 5 store_time first_eos None None).
  - apply (step_sp DEFAULT_CONSTANTS no_blocks 5 store_time 3 None (2 ^ 27) first_sp false).
Defined.

Lemma signage_point_found_witness :
  ∃ cc rc, SignagePoint.cc_vdf first_sp = Some cc ∧ SignagePoint.rc_vdf first_sp = Some rc
    ∧ get_signage_point_by_index DEFAULT_CONSTANTS (VDFInfo.challenge cc) 3 (VDFInfo.challenge rc) sp_run.2 = Ok (Some first_sp).
Proof.
  assert (E : sp_run.1 = Ok true) by (vm_compute; reflexivity).
  pose proof (run_outcome sp_run _ E) as E'.
  destruct (signage_point_found DEFAULT_CONSTANTS no_blocks 5 store_time 3 None (2 ^ 27) first_sp false one_slot_run.2 true sp_run.2)
    as (cc&rc&Hcc&Hrc&Hg&_); [exact one_slot_ok|lia|exact E'|].
  exists cc, rc. split; [exact Hcc|]. split; [exact Hrc|exact Hg].
Defined.

Lemma finished_sub_slots_connect_witness :
  ∃ to l, cc_slot_hash first_eos = Ok to
    ∧ get_finished_sub_slots DEFAULT_CONSTANTS no_blocks 5 None to one_slot_run.2 = Ok (Some l).
Proof.
  assert (Hto : ∃ to, cc_slot_hash first_eos = Ok to) by (vm_compute; eexists; reflexivity).
  destruct Hto as (to&Hto). exists to.
  destruct (finished_sub_slots_connect DEFAULT_CONSTANTS no_blocks 5 None to one_slot_run.2 genesis_challenge) as [_ Hc];
    [exact one_slot_ok|vm_compute; reflexivity|].
  destruct (Hc [] [first_eos] []) as (l&Hl); [vm_compute; reflexivity| |exists l; split; [exact Hto|exact Hl]].
  split; [vm_compute; reflexivity|]. exists to. split; [exact Hto|reflexivity].
Defined.

Definition early_peak_of (left total : Z) (challenge : bytes) : BlockRecord :=
  let r := genesis_record in {|
    header_hash := sample_id 8 1; prev_hash := sample_id 8 0; height := 1; weight := 14; total_iters := total;
    signage_point_index := 1; challenge_vdf_output := challenge_vdf_output r; infused_challenge_vdf_output := None;
    reward_infusion_new_challenge := challenge; challenge_block_info_hash := replicate 32 2;
    sub_slot_iters := 2 ^ 27; pool_puzzle_hash := replicate 32 3; farmer_puzzle_hash := replicate 32 4;
    required_iters := 1000; deficit := left; overflow := false; prev_transaction_block_height := 0;
    timestamp := None; prev_transaction_block_hash := None; fees := None; reward_claims_incorporated := None;
    finished_challenge_slot_hashes := None; finished_infused_challenge_slot_hashes := None;
    finished_reward_slot_hashes := None; sub_epoch_summary_included := None; farmer_public_key := replicate 48 3 |}.
Notation early_peak := (early_peak_of 16) (only parsing).
Definition early_challenge : bytes := replicate 32 9.
Definition early_eos : EndOfSubSlotBundle.t := sample_eos genesis_challenge early_challenge (2 ^ 27 - 30000000).
(** The end of slot arrives at the peak before its block, a signage point after it, then its block. *)
Notation early_run := (
  new_finished_sub_slot DEFAULT_CONSTANTS no_blocks 5 store_time early_eos (Some (early_peak 20000000 (replicate 32 1)))
    (Some fork_full_block) (new_store DEFAULT_CONSTANTS)) (only parsing).
Notation early_sp_run := (
  new_signage_point DEFAULT_CONSTANTS no_blocks 5 store_time 3 None (2 ^ 27) first_sp false early_run.2) (only parsing).
Notation early_peak_run := (
  new_peak DEFAULT_CONSTANTS no_blocks 5 store_time (early_peak 30000000 early_challenge) fork_full_block None None None
    early_sp_run.2) (only parsing).

(** The block may also have a deficit of 15: the end of slot then needs an infused
    challenge chain.  One without is not refused: an assertion fails, the call of
    [new_peak] raises, and the end of slot stays, for the next call with that
    block to fail on. *)
Notation unfit_run := (
  new_peak DEFAULT_CONSTANTS no_blocks 5 store_time (early_peak_of 15 30000000 early_challenge) fork_full_block None None None
    early_sp_run.2) (only parsing).
Lemma unfit_eos_raises : unfit_run.1 = Raise AssertionError ∧ eos_waits early_challenge early_eos unfit_run.2.
Proof. split; [vm_compute; reflexivity|]. unfold eos_waits. apply (bool_decide_unpack _). vm_compute. exact I. Qed.

(** The infusion points that wait are not covered by the times of the keys: the clearing
    of old entries does not reach a challenge that only infusion points wait for. *)
Lemma infusion_points_not_cleared (time_time : nat → float) (ip : NewInfusionPointVDF.t) (s : FullNodeStore) :
  let ch := VDFInfo.challenge (NewInfusionPointVDF.reward_chain_ip_vdf ip) in
  future_cache_key_times s !! ch = None →
  ip ∈ get_future_ip ch (clear_old_cache_entries time_time (add_to_future_ip ip s)).2.
Proof.
  intros ch Hk. unfold get_future_ip, future_list.
  assert (Hin : ip ∈ default [] (future_ip_cache (add_to_future_ip ip s) !! ch)).
  { cbn. rewrite lookup_insert_eq. cbn. apply elem_of_app. right. apply list_elem_of_here. }
  unfold clear_old_cache_entries, read_seconds, read_clock, mbind, st_bind, st_res. cbn -[add_to_future_ip].
  destruct (int_of_float _); [|exact Hin..]. cbn -[add_to_future_ip].
  rewrite lookup_foldr_delete_not_elem_of; [exact Hin|].
  intros ([k t]&Ek&Hf)%list_elem_of_fmap. cbn in Ek. subst k. apply list_elem_of_filter in Hf as [_ Hf].
  apply elem_of_map_to_list in Hf. cbn in Hf. congruence.
Qed.
