(* ===== verification/BlockCreation.v ===== *)
(** * Making blocks

    Models [chia/consensus/block_creation.py], [chia/util/prev_transaction_block.py] and
    the use of [chia/util/recursive_replace.py] in it: an unfinished block is made at a
    signage point from the transactions of the mempool, and finished at its infusion
    point, where it may have to drop its transactions because another transaction block
    was infused in between.

    The signatures come from callbacks; [randint seed] is the number
    [random.randint(0, 100000000)] gives after [random.seed(seed)].  The list of
    additions of the caller, which the source extends in place, is a value here.

    The theorems state that what is made passes the checks of the validation that do not
    depend on the proofs of space and time or on the coins spent. *)
From S2P Require Import Prelude PyInt PyFloat PyDecimal Consensus ChainView Difficulty Errors Coins CoinStore Sha256.
From S2P Require Import MerkleSet Streamable BlockTypes BlockToRecord BlockStore HeaderValidation HeaderSound Generator.
From S2P Require Import CachedBls RootValidation BodyValidation BodySound PreValidation FullNodeStore.

Section BlockCreation.
Context `{Packages} `{Sha256} `{StdHash} `{ClvmCasts} `{ClvmRunner} `{PlotTools}.
Context (constants : ConsensusConstants) (blocks : BlockchainInterface) (fuel : nat).
Context (randint : bytes → Z).

Definition get_prev_transaction_block (curr : BlockRecord) (total_iters_sp : Z) : res (bool * BlockRecord) :=
  tx ← walk_back blocks fuel is_transaction_block curr;
  Ok (if total_iters tx <? total_iters_sp then (true, tx) else (false, curr)).

(** ** The foliage *)

(** The coins of the blocks that are no transaction blocks, back to the transaction
    block before them *)
Definition claims_body (s : BlockRecord * list Coin) : res (BlockRecord * list Coin + list Coin) :=
  let '(curr, reward_claims_incorporated) := s in
  if is_transaction_block curr then Ok (inr reward_claims_incorporated)
  else
    pool_coin ← pool_reward_coin constants curr;
    r ← calculate_base_farmer_reward (height curr);
    farmer_coin ← create_farmer_coin (height curr) (farmer_puzzle_hash curr) r (GENESIS_CHALLENGE constants);
    p ← block_record blocks (prev_hash curr);
    Ok (inl (p, reward_claims_incorporated ++ [pool_coin; farmer_coin])).

(** The rewards a transaction block after [prev_block] claims *)
Definition reward_claims (h : Z) (prev_block prev_transaction_block : option BlockRecord) : res (list Coin) :=
  if 0 <? h then
    ptb ← of_opt AssertionError prev_transaction_block;
    prev_block ← of_opt AssertionError prev_block;
    curr ← walk_back blocks fuel is_transaction_block prev_block;
    curr_fees ← of_opt AssertionError (fees curr);
    pool_coin ← pool_reward_coin constants curr;
    r ← calculate_base_farmer_reward (height curr);
    a ← uint64 (r + curr_fees);
    farmer_coin ← create_farmer_coin (height curr) (farmer_puzzle_hash curr) a (GENESIS_CHALLENGE constants);
    assert_ (bool_decide (header_hash curr = header_hash ptb)) ;;
    if 0 <? height curr then
      curr ← block_record blocks (prev_hash curr);
      loop fuel claims_body (curr, [pool_coin; farmer_coin])
    else Ok [pool_coin; farmer_coin]
  else Ok [].

(** The cost and the fees of the transactions *)
Definition generator_cost (block_generator : option BlockGenerator) (additions removals : list Coin) : res (Z * Z) :=
  match block_generator with
  | None => Ok (0, 0)
  | Some g =>
      let result := get_name_puzzle_conditions g (MAX_BLOCK_COST_CLVM constants) (COST_PER_BYTE constants) true in
      cost ← calculate_cost_of_program (program g) result (COST_PER_BYTE constants);
      Ok (cost, total_amount removals - total_amount additions)
  end.

Definition merkle_roots (tx_additions : list Coin) (tx_removals : list bytes) : res (bytes * bytes) :=
  removal_merkle_set ← for_fold add_already_hashed EmptyNode tx_removals;
  addition_merkle_set ← for_fold (λ t '(puzzle, coins),
    t ← add_already_hashed t puzzle;
    add_already_hashed t (hash_coin_list coins)) EmptyNode (foldl group_coin [] tx_additions);
  additions_root ← get_root addition_merkle_set;
  removals_root ← get_root removal_merkle_set;
  Ok (additions_root, removals_root).

Definition generator_refs_hash (refs : list Z) : res bytes :=
  match refs with
  | [] => Ok (replicate 32 1)
  | _ => l ← for_each (StructStream_stream PL) refs; Ok (std_hash (concat l))
  end.

(** The transactions info and the transaction block of the foliage *)
Definition create_transaction_block (block_generator : option BlockGenerator) (aggregate_sig : bytes)
    (additions removals : list Coin) (h : Z) (prev_block prev_transaction_block : option BlockRecord) (ts : Z) :
    res (FoliageTransactionBlock.t * TransactionsInfo.t) :=
  '(cost, spend_bundle_fees) ← generator_cost block_generator additions removals;
  claims ← reward_claims h prev_block prev_transaction_block;
  let tx_additions := additions ++ claims in
  let tx_removals := coin_name <$> removals in
  let encoded := bip158_encoded ((puzzle_hash <$> tx_additions) ++ tx_removals) in
  '(additions_root, removals_root) ← merkle_roots tx_additions tx_removals;
  let generator_hash := match block_generator with Some g => std_hash (program g) | None => replicate 32 0 end in
  refs_hash ← generator_refs_hash (match block_generator with Some g => block_height_list g | None => [] end);
  fees ← uint64 spend_bundle_fees;
  let ti := {|
    TransactionsInfo.generator_root := generator_hash; TransactionsInfo.generator_refs_root := refs_hash;
    TransactionsInfo.aggregated_signature := aggregate_sig; TransactionsInfo.fees := fees;
    TransactionsInfo.cost := cost; TransactionsInfo.reward_claims_incorporated := claims |} in
  ti_hash ← hash_of ti;
  Ok ({| FoliageTransactionBlock.prev_transaction_block_hash :=
           match prev_transaction_block with Some b => header_hash b | None => GENESIS_CHALLENGE constants end;
         FoliageTransactionBlock.timestamp := ts; FoliageTransactionBlock.filter_hash := std_hash encoded;
         FoliageTransactionBlock.additions_root := additions_root;
         FoliageTransactionBlock.removals_root := removals_root;
         FoliageTransactionBlock.transactions_info_hash := ti_hash |}, ti).

Section Callbacks.
Context (get_plot_signature : bytes → bytes → bytes) (get_pool_signature : PoolTarget.t → option bytes → option bytes).

Definition create_foliage (rcb : RewardChainBlockUnfinished.t) (block_generator : option BlockGenerator)
    (aggregate_sig : bytes) (additions removals : list Coin) (prev_block : option BlockRecord)
    (total_iters_sp ts : Z) (farmer_reward_puzzlehash : bytes) (pool_target : PoolTarget.t) (seed : bytes) :
    res (Foliage.t * option FoliageTransactionBlock.t * option TransactionsInfo.t) :=
  let pos := RewardChainBlockUnfinished.proof_of_space rcb in
  '(is_tx, ptb) ←
    match prev_block with
    | Some b => '(is_tx, ptb) ← get_prev_transaction_block b total_iters_sp; Ok (is_tx, Some ptb)
    | None => Ok (true, None)
    end;
  extension_data ← py_to_bytes 32 false (randint seed);
  h ← match prev_block with Some b => uint32 (height b + 1) | None => Ok 0 end;
  rcb_hash ← hash_of rcb;
  let data := {|
    FoliageBlockData.unfinished_reward_block_hash := rcb_hash; FoliageBlockData.pool_target := pool_target;
    FoliageBlockData.pool_signature := get_pool_signature pool_target (ProofOfSpace.pool_public_key pos);
    FoliageBlockData.farmer_reward_puzzle_hash := farmer_reward_puzzlehash;
    FoliageBlockData.extension_data := extension_data |} in
  data_hash ← hash_of data;
  prev_block_hash ←
    (if h =? 0 then Ok (GENESIS_CHALLENGE constants)
     else b ← of_opt AssertionError prev_block; Ok (header_hash b));
  let foliage := λ ftb_hash, {|
    Foliage.prev_block_hash := prev_block_hash; Foliage.reward_block_hash := rcb_hash;
    Foliage.foliage_block_data := data;
    Foliage.foliage_block_data_signature := get_plot_signature data_hash (plot_public_key pos);
    Foliage.foliage_transaction_block_hash := ftb_hash;
    Foliage.foliage_transaction_block_signature := (λ h, get_plot_signature h (plot_public_key pos)) <$> ftb_hash |} in
  if (is_tx : bool) then
    '(ftb, ti) ← create_transaction_block block_generator aggregate_sig additions removals h prev_block ptb ts;
    ftb_hash ← hash_of ftb;
    Ok (foliage (Some ftb_hash), Some ftb, Some ti)
  else Ok (foliage None, None, None).

(** ** The unfinished block *)
Definition reward_sp_hash (signage_point : SignagePoint.t) (finished_sub_slots : list EndOfSubSlotBundle.t)
    (prev_block : option BlockRecord) : res bytes :=
  match SignagePoint.cc_vdf signage_point with
  | Some _ => rc_vdf ← of_opt AssertionError (SignagePoint.rc_vdf signage_point); hash_of (VDFInfo.output rc_vdf)
  | None =>
      if bool_decide (0 < length finished_sub_slots)%nat then
        last ← py_index finished_sub_slots (-1); hash_of (EndOfSubSlotBundle.reward_chain last)
      else match prev_block with
        | None => Ok (GENESIS_CHALLENGE constants)
        | Some b => curr ← sub_slot_start blocks fuel b; last_hash (finished_reward_slot_hashes curr)
        end
  end.

Definition create_unfinished_block (sub_slot_start_total_iters sub_slot_iters signage_point_index sp_iters ip_iters : Z)
    (proof_of_space : ProofOfSpace.t) (slot_cc_challenge farmer_reward_puzzle_hash : bytes) (pool_target : PoolTarget.t)
    (signage_point : SignagePoint.t) (ts : Z) (seed : bytes) (block_generator : option BlockGenerator)
    (aggregate_sig : bytes) (additions removals : option (list Coin)) (prev_block : option BlockRecord)
    (finished_sub_slots_input : option (list EndOfSubSlotBundle.t)) : res UnfinishedBlock.t :=
  let finished_sub_slots := default [] finished_sub_slots_input in
  let overflow := ip_iters <? sp_iters in
  total_iters_sp ← uint128 (sub_slot_start_total_iters + sp_iters);
  cc_sp_hash ← match SignagePoint.cc_vdf signage_point with
               | Some vdf => hash_of (VDFInfo.output vdf)
               | None => Ok slot_cc_challenge
               end;
  rc_sp_hash ← reward_sp_hash signage_point finished_sub_slots prev_block;
  let signage_point := match SignagePoint.cc_vdf signage_point with Some _ => signage_point | None => SignagePoint.none end in
  let cc_sp_signature := get_plot_signature cc_sp_hash (plot_public_key proof_of_space) in
  let rc_sp_signature := get_plot_signature rc_sp_hash (plot_public_key proof_of_space) in
  assert_ (mpl_verify (plot_public_key proof_of_space) cc_sp_hash cc_sp_signature) ;;
  total_iters ← uint128 (sub_slot_start_total_iters + ip_iters + (if overflow then sub_slot_iters else 0));
  let rc_block := {|
    RewardChainBlockUnfinished.total_iters := total_iters;
    RewardChainBlockUnfinished.signage_point_index := signage_point_index;
    RewardChainBlockUnfinished.pos_ss_cc_challenge_hash := slot_cc_challenge;
    RewardChainBlockUnfinished.proof_of_space := proof_of_space;
    RewardChainBlockUnfinished.challenge_chain_sp_vdf := SignagePoint.cc_vdf signage_point;
    RewardChainBlockUnfinished.challenge_chain_sp_signature := cc_sp_signature;
    RewardChainBlockUnfinished.reward_chain_sp_vdf := SignagePoint.rc_vdf signage_point;
    RewardChainBlockUnfinished.reward_chain_sp_signature := rc_sp_signature |} in
  '(foliage, ftb, ti) ←
    create_foliage rc_block block_generator aggregate_sig (default [] additions) (default [] removals) prev_block
      total_iters_sp ts farmer_reward_puzzle_hash pool_target seed;
  Ok {| UnfinishedBlock.finished_sub_slots := finished_sub_slots; UnfinishedBlock.reward_chain_block := rc_block;
        UnfinishedBlock.challenge_chain_sp_proof := SignagePoint.cc_proof signage_point;
        UnfinishedBlock.reward_chain_sp_proof := SignagePoint.rc_proof signage_point;
        UnfinishedBlock.foliage := foliage; UnfinishedBlock.foliage_transaction_block := ftb;
        UnfinishedBlock.transactions_info := ti; UnfinishedBlock.transactions_generator := program <$> block_generator;
        UnfinishedBlock.transactions_generator_ref_list :=
          match block_generator with Some g => block_height_list g | None => [] end |}.
End Callbacks.

(** ** The full block *)
Definition with_foliage_hashes (prev_block_hash : bytes) (fbh fbs : option bytes) (f : Foliage.t) : Foliage.t := {|
  Foliage.prev_block_hash := prev_block_hash; Foliage.reward_block_hash := Foliage.reward_block_hash f;
  Foliage.foliage_block_data := Foliage.foliage_block_data f;
  Foliage.foliage_block_data_signature := Foliage.foliage_block_data_signature f;
  Foliage.foliage_transaction_block_hash := fbh; Foliage.foliage_transaction_block_signature := fbs |}.

(** [recursive_replace(ret, "foliage.reward_block_hash", h)] *)
Definition with_reward_block_hash (h : bytes) (f : Foliage.t) : Foliage.t := {|
  Foliage.prev_block_hash := Foliage.prev_block_hash f; Foliage.reward_block_hash := h;
  Foliage.foliage_block_data := Foliage.foliage_block_data f;
  Foliage.foliage_block_data_signature := Foliage.foliage_block_data_signature f;
  Foliage.foliage_transaction_block_hash := Foliage.foliage_transaction_block_hash f;
  Foliage.foliage_transaction_block_signature := Foliage.foliage_transaction_block_signature f |}.

(** What the infusion point decides of a block *)
Record Infusion := {
  in_is_tx : bool;
  in_weight : Z;
  in_height : Z;
  in_foliage : Foliage.t;
}.
Definition infusion (ub : UnfinishedBlock.t) (prev_block : option BlockRecord) (total_iters_sp difficulty : Z) : res Infusion :=
  let foliage := UnfinishedBlock.foliage ub in
  match prev_block with
  | None =>
      w ← uint128 difficulty;
      Ok {| in_is_tx := true; in_weight := w; in_height := 0; in_foliage := foliage |}
  | Some b =>
      '(is_tx, _) ← get_prev_transaction_block b total_iters_sp;
      w ← uint128 (weight b + difficulty);
      h ← uint32 (height b + 1);
      let '(fbh, fbs) := if (is_tx : bool)
        then (Foliage.foliage_transaction_block_hash foliage, Foliage.foliage_transaction_block_signature foliage)
        else (None, None) in
      assert_ (eqb (is_None fbh) (is_None fbs)) ;;
      Ok {| in_is_tx := is_tx; in_weight := w; in_height := h; in_foliage := with_foliage_hashes (header_hash b) fbh fbs foliage |}
  end.

Definition unfinished_block_to_full_block (ub : UnfinishedBlock.t) (cc_ip_vdf : VDFInfo.t) (cc_ip_proof : VDFProof.t)
    (rc_ip_vdf : VDFInfo.t) (rc_ip_proof : VDFProof.t) (icc_ip_vdf : option VDFInfo.t) (icc_ip_proof : option VDFProof.t)
    (finished_sub_slots : list EndOfSubSlotBundle.t) (prev_block : option BlockRecord) (total_iters_sp difficulty : Z) :
    res FullBlock.t :=
  i ← infusion ub prev_block total_iters_sp difficulty;
  let urcb := UnfinishedBlock.reward_chain_block ub in
  let rcb := {|
    RewardChainBlock.weight := in_weight i; RewardChainBlock.height := in_height i;
    RewardChainBlock.total_iters := RewardChainBlockUnfinished.total_iters urcb;
    RewardChainBlock.signage_point_index := RewardChainBlockUnfinished.signage_point_index urcb;
    RewardChainBlock.pos_ss_cc_challenge_hash := RewardChainBlockUnfinished.pos_ss_cc_challenge_hash urcb;
    RewardChainBlock.proof_of_space := RewardChainBlockUnfinished.proof_of_space urcb;
    RewardChainBlock.challenge_chain_sp_vdf := RewardChainBlockUnfinished.challenge_chain_sp_vdf urcb;
    RewardChainBlock.challenge_chain_sp_signature := RewardChainBlockUnfinished.challenge_chain_sp_signature urcb;
    RewardChainBlock.challenge_chain_ip_vdf := cc_ip_vdf;
    RewardChainBlock.reward_chain_sp_vdf := RewardChainBlockUnfinished.reward_chain_sp_vdf urcb;
    RewardChainBlock.reward_chain_sp_signature := RewardChainBlockUnfinished.reward_chain_sp_signature urcb;
    RewardChainBlock.reward_chain_ip_vdf := rc_ip_vdf;
    RewardChainBlock.infused_challenge_chain_ip_vdf := icc_ip_vdf;
    RewardChainBlock.is_transaction_block := in_is_tx i |} in
  rcb_hash ← hash_of rcb;
  Ok {| FullBlock.finished_sub_slots := finished_sub_slots; FullBlock.reward_chain_block := rcb;
        FullBlock.challenge_chain_sp_proof := UnfinishedBlock.challenge_chain_sp_proof ub;
        FullBlock.challenge_chain_ip_proof := cc_ip_proof;
        FullBlock.reward_chain_sp_proof := UnfinishedBlock.reward_chain_sp_proof ub;
        FullBlock.reward_chain_ip_proof := rc_ip_proof; FullBlock.infused_challenge_chain_ip_proof := icc_ip_proof;
        FullBlock.foliage := with_reward_block_hash rcb_hash (in_foliage i);
        FullBlock.foliage_transaction_block := if in_is_tx i then UnfinishedBlock.foliage_transaction_block ub else None;
        FullBlock.transactions_info := if in_is_tx i then UnfinishedBlock.transactions_info ub else None;
        FullBlock.transactions_generator := if in_is_tx i then UnfinishedBlock.transactions_generator ub else None;
        FullBlock.transactions_generator_ref_list :=
          if in_is_tx i then UnfinishedBlock.transactions_generator_ref_list ub else [] |}.
End BlockCreation.

(** ** What a made block consists of *)
Section Made.
Context `{Packages} `{Sha256} `{StdHash} `{ClvmCasts} `{ClvmRunner} `{PlotTools}.
Context (constants : ConsensusConstants) (blocks : BlockchainInterface) `{!ChainLaws blocks} (fuel : nat) (randint : bytes → Z).
Context (get_plot_signature : bytes → bytes → bytes) (get_pool_signature : PoolTarget.t → option bytes → option bytes).

(** A record the chain has under its hash *)
Definition on_chain (b : BlockRecord) : Prop := block_record blocks (header_hash b) = Ok b.

Lemma parent_on_chain b h : block_record blocks h = Ok b → on_chain b.
Proof. intros E. unfold on_chain. by rewrite (cl_hash (blocks := blocks) _ _ E). Qed.

Lemma walk_back_on_chain stop n : ∀ b tx, loop n (walk_back_body blocks stop) b = Ok tx → on_chain b →
  on_chain tx ∧ stop tx = true.
Proof.
  induction n as [|n IH]; intros b tx E Hb; cbn [loop] in E; [done|]. unfold walk_back_body in E.
  destruct (stop b) eqn:Es; cbn in E; [by injection E as <-|].
  apply bind_Ok in E as (r&Er&E). apply bind_Ok in Er as (p&Ep&Er). injection Er as <-.
  apply (IH p); [done|]. by eapply parent_on_chain.
Qed.

(** The transaction block a block made after [prev] follows, when it is a transaction
    block itself; [None] when it is not *)
Definition tx_parent (prev : option BlockRecord) (total_iters_sp : Z) : res (option (option BlockRecord)) :=
  match prev with
  | None => Ok (Some None)
  | Some b => tx ← walk_back blocks fuel is_transaction_block b;
              Ok (if total_iters tx <? total_iters_sp then Some (Some tx) else None)
  end.
Definition block_height_after (prev : option BlockRecord) : Z := match prev with Some b => height b + 1 | None => 0 end.
Definition hash_after (prev : option BlockRecord) : bytes :=
  match prev with Some b => header_hash b | None => GENESIS_CHALLENGE constants end.

Definition transaction_part (pk : bytes) (prev : option BlockRecord) (gen : option BlockGenerator) (sig : bytes)
    (additions removals : list Coin) (ts : Z) (ptb : option BlockRecord) (f : Foliage.t)
    (ftb : option FoliageTransactionBlock.t) (ti : option TransactionsInfo.t) : Prop :=
  ∃ ftb' ti' fh, ftb = Some ftb' ∧ ti = Some ti' ∧ hash_of ftb' = Ok fh
    ∧ Foliage.foliage_transaction_block_hash f = Some fh
    ∧ Foliage.foliage_transaction_block_signature f = Some (get_plot_signature fh pk)
    ∧ create_transaction_block constants blocks fuel gen sig additions removals (block_height_after prev) prev ptb ts
      = Ok (ftb', ti').
Definition no_transaction_part (f : Foliage.t) (ftb : option FoliageTransactionBlock.t) (ti : option TransactionsInfo.t) : Prop :=
  ftb = None ∧ ti = None ∧ Foliage.foliage_transaction_block_hash f = None
  ∧ Foliage.foliage_transaction_block_signature f = None.

Record made (prev : option BlockRecord) (total_iters_sp ts : Z) (gen : option BlockGenerator) (sig : bytes)
    (additions removals : list Coin) (target : PoolTarget.t) (farmer : bytes) (ub : UnfinishedBlock.t) : Prop := {
  md_sp : 0 <= total_iters_sp < 2 ^ 128;
  md_hash : hash_of (UnfinishedBlock.reward_chain_block ub)
            = Ok (FoliageBlockData.unfinished_reward_block_hash (Foliage.foliage_block_data (UnfinishedBlock.foliage ub)));
  md_target : FoliageBlockData.pool_target (Foliage.foliage_block_data (UnfinishedBlock.foliage ub)) = target;
  md_farmer : FoliageBlockData.farmer_reward_puzzle_hash (Foliage.foliage_block_data (UnfinishedBlock.foliage ub)) = farmer;
  md_pool : FoliageBlockData.pool_signature (Foliage.foliage_block_data (UnfinishedBlock.foliage ub))
            = get_pool_signature target
                (ProofOfSpace.pool_public_key (RewardChainBlockUnfinished.proof_of_space (UnfinishedBlock.reward_chain_block ub)));
  md_data : ∃ dh, hash_of (Foliage.foliage_block_data (UnfinishedBlock.foliage ub)) = Ok dh
              ∧ Foliage.foliage_block_data_signature (UnfinishedBlock.foliage ub)
                = get_plot_signature dh
                    (plot_public_key (RewardChainBlockUnfinished.proof_of_space (UnfinishedBlock.reward_chain_block ub)));
  md_prev : Foliage.prev_block_hash (UnfinishedBlock.foliage ub) = hash_after prev;
  md_tx : ∃ p, tx_parent prev total_iters_sp = Ok p ∧
    match p with
    | Some ptb => transaction_part
        (plot_public_key (RewardChainBlockUnfinished.proof_of_space (UnfinishedBlock.reward_chain_block ub)))
        prev gen sig additions removals ts ptb (UnfinishedBlock.foliage ub) (UnfinishedBlock.foliage_transaction_block ub)
        (UnfinishedBlock.transactions_info ub)
    | None => no_transaction_part (UnfinishedBlock.foliage ub) (UnfinishedBlock.foliage_transaction_block ub)
                (UnfinishedBlock.transactions_info ub)
    end;
  md_gen : UnfinishedBlock.transactions_generator ub = program <$> gen
           ∧ UnfinishedBlock.transactions_generator_ref_list ub = match gen with Some g => block_height_list g | None => [] end;
}.

Lemma create_foliage_inv rcb gen sig adds rems prev sp ts farmer target seed f ftb ti :
  (∀ b, prev = Some b → on_chain b) →
  create_foliage constants blocks fuel randint get_plot_signature get_pool_signature rcb gen sig adds rems prev sp ts farmer
    target seed = Ok (f, ftb, ti) →
  ∃ rh dh p ed, hash_of rcb = Ok rh ∧ tx_parent prev sp = Ok p
    ∧ Foliage.foliage_block_data f = {|
        FoliageBlockData.unfinished_reward_block_hash := rh; FoliageBlockData.pool_target := target;
        FoliageBlockData.pool_signature := get_pool_signature target
          (ProofOfSpace.pool_public_key (RewardChainBlockUnfinished.proof_of_space rcb));
        FoliageBlockData.farmer_reward_puzzle_hash := farmer; FoliageBlockData.extension_data := ed |}
    ∧ hash_of (Foliage.foliage_block_data f) = Ok dh
    ∧ Foliage.foliage_block_data_signature f
      = get_plot_signature dh (plot_public_key (RewardChainBlockUnfinished.proof_of_space rcb))
    ∧ Foliage.prev_block_hash f = hash_after prev
    ∧ match p with
      | Some ptb => transaction_part (plot_public_key (RewardChainBlockUnfinished.proof_of_space rcb)) prev gen sig adds rems ts
                      ptb f ftb ti
      | None => no_transaction_part f ftb ti
      end.
Proof.
  intros Hon E. unfold create_foliage in E. apply bind_Ok in E as ([is_tx ptb]&Et&E). apply bind_Ok in E as (ed&_&E).
  apply bind_Ok in E as (h&Eh&E). apply bind_Ok in E as (rh&Erh&E). apply bind_Ok in E as (dh&Edh&E).
  apply bind_Ok in E as (ph&Eph&E).
  assert (h = block_height_after prev ∧ ph = hash_after prev) as [-> ->].
  { destruct prev as [b|]; cbn in *.
    - apply uint32_Ok in Eh as [-> _]. pose proof (cl_height (blocks := blocks) _ _ (Hon b eq_refl)).
      rewrite (proj2 (Z.eqb_neq _ _)) in Eph by lia. by injection Eph as <-.
    - injection Eh as <-. by injection Eph as <-. }
  assert (tx_parent prev sp = Ok (if is_tx then Some ptb else None)) as Hp.
  { destruct prev as [b|]; cbn in *; [|by injection Et as <- <-].
    apply bind_Ok in Et as ([t p]&Et&Et'). injection Et' as <- <-. unfold get_prev_transaction_block in Et.
    destruct (walk_back blocks fuel is_transaction_block b) as [tx| |]; cbn in *; [|done..]. injection Et as Et.
    by destruct (total_iters tx <? sp); injection Et as <- <-. }
  exists rh, dh, (if is_tx then Some ptb else None), ed. split_and!; [done|done|..].
  all: destruct is_tx; [apply bind_Ok in E as ([ftb' ti']&Ec&E); apply bind_Ok in E as (fh&Efh&E)|]; injection E as <- <- <-;
    try done.
  exists ftb', ti', fh. by split_and!.
Qed.

Lemma create_inv sss ssi idx sp_it ip_it pos cc farmer target sp ts seed gen sig adds rems prev slots ub :
  (∀ b, prev = Some b → on_chain b) →
  create_unfinished_block constants blocks fuel randint get_plot_signature get_pool_signature sss ssi idx sp_it ip_it pos cc
    farmer target sp ts seed gen sig adds rems prev slots = Ok ub →
  made prev (sss + sp_it) ts gen sig (default [] adds) (default [] rems) target farmer ub.
Proof.
  intros Hon E. unfold create_unfinished_block in E. apply bind_Ok in E as (tsp&Etsp&E). apply uint128_Ok in Etsp as [-> Hsp].
  apply bind_Ok in E as (cch&_&E). apply bind_Ok in E as (rch&_&E). apply bind_Ok in E as ([]&_&E).
  apply bind_Ok in E as (tot&_&E). apply bind_Ok in E as ([[f ftb] ti]&Ef&E). injection E as <-.
  apply create_foliage_inv in Ef as (rh&dh&p&ed&Erh&Hp&Ed&Edh&Hsig&Hprev&Htx); [|done].
  split; cbn in *; rewrite ?Ed in *; try done; [by exists dh|by exists p].
Qed.

(** ** The rewards *)
Context (Hgenesis : take 16 (GENESIS_CHALLENGE constants) ≠ drop 16 (GENESIS_CHALLENGE constants)).

(** A reward coin of the block of height [h] *)
Definition reward_of (h : Z) (c : Coin) : Prop :=
  pool_parent_id h (GENESIS_CHALLENGE constants) = Ok (parent_coin_info c)
  ∨ farmer_parent_id h (GENESIS_CHALLENGE constants) = Ok (parent_coin_info c).

Lemma make_coin_parent p ph a c : make_coin p ph a = Ok c → parent_coin_info c = p.
Proof. unfold make_coin, sized_bytes_new. intros E. by res_inv. Qed.
Lemma pool_coin_parent b c : pool_reward_coin constants b = Ok c →
  pool_parent_id (height b) (GENESIS_CHALLENGE constants) = Ok (parent_coin_info c).
Proof.
  unfold pool_reward_coin, create_pool_coin. intros E. apply bind_Ok in E as (r&_&E). apply bind_Ok in E as (p&Ep&E).
  by rewrite (make_coin_parent _ _ _ _ E).
Qed.
Lemma farmer_coin_parent h ph a c : create_farmer_coin h ph a (GENESIS_CHALLENGE constants) = Ok c →
  farmer_parent_id h (GENESIS_CHALLENGE constants) = Ok (parent_coin_info c).
Proof.
  unfold create_farmer_coin. intros E. apply bind_Ok in E as (p&Ep&E). by rewrite (make_coin_parent _ _ _ _ E).
Qed.

Lemma pool_farmer_distinct h h' p f : pool_parent_id h (GENESIS_CHALLENGE constants) = Ok (parent_coin_info p) →
  farmer_parent_id h' (GENESIS_CHALLENGE constants) = Ok (parent_coin_info f) → p ≠ f.
Proof. intros Ep Ef ->. by apply (proj2 (proj2 (reward_parents_distinct _ h h' _ _)) Ep Ef Hgenesis). Qed.

Lemma pair_fresh h acc p f :
  pool_parent_id h (GENESIS_CHALLENGE constants) = Ok (parent_coin_info p) →
  farmer_parent_id h (GENESIS_CHALLENGE constants) = Ok (parent_coin_info f) →
  (∀ c, c ∈ acc → ∃ h', h < h' ∧ reward_of h' c) → p ∉ acc ∧ f ∉ acc ++ [p].
Proof.
  intros Ep Ef Hacc. split.
  - intros (h'&Hlt&[Ep'|Ef'])%Hacc; [|by eapply pool_farmer_distinct].
    pose proof (proj1 (reward_parents_distinct _ h h' _ _) Ep Ep' eq_refl). lia.
  - rewrite elem_of_app, list_elem_of_singleton. intros [(h'&Hlt&[Ep'|Ef'])%Hacc|E].
    + by eapply pool_farmer_distinct.
    + pose proof (proj1 (proj2 (reward_parents_distinct _ h h' _ _)) Ef Ef' eq_refl). lia.
    + symmetry in E. by eapply pool_farmer_distinct.
Qed.

Lemma set_add_fresh c l : c ∉ l → set_add c l = l ++ [c].
Proof. intros Hc. unfold set_add. by rewrite decide_False. Qed.
Lemma set_add_pair p f l : p ∉ l → f ∉ l ++ [p] → set_add f (set_add p l) = l ++ [p; f].
Proof. intros Hp Hf. rewrite (set_add_fresh p), set_add_fresh by done. by rewrite <- app_assoc. Qed.
Lemma NoDup_pair (p f : Coin) l : NoDup l → p ∉ l → f ∉ l ++ [p] → NoDup (l ++ [p; f]).
Proof.
  intros Hl Hp Hf. rewrite elem_of_app, list_elem_of_singleton in Hf. apply NoDup_app. split_and!; [done| |].
  - intros x Hx [->|[->|[]%elem_of_nil]%elem_of_cons]%elem_of_cons; naive_solver.
  - apply NoDup_cons. rewrite list_elem_of_singleton. split; [naive_solver|apply NoDup_singleton].
Qed.

Lemma claims_loop n : ∀ b acc claims, loop n (claims_body constants blocks) (b, acc) = Ok claims → on_chain b →
  (∀ c, c ∈ acc → ∃ h, height b < h ∧ reward_of h c) → NoDup acc →
  NoDup claims ∧ loop n (reward_body constants blocks) (b, acc) = Ok claims.
Proof.
  induction n as [|n IH]; intros b acc claims E Hb Hacc Hnd; cbn [loop] in *; [done|].
  unfold claims_body, reward_body in *. destruct (is_transaction_block b); cbn [mbind res_bind] in *; [by injection E as <-|].
  apply bind_Ok in E as (r&Er&E). apply bind_Ok in Er as (p&Ep&Er). rewrite Ep. cbn [mbind res_bind].
  apply bind_Ok in Er as (a&Ea&Er). rewrite Ea. cbn [mbind res_bind].
  apply bind_Ok in Er as (f&Ef&Er). rewrite Ef. cbn [mbind res_bind].
  apply bind_Ok in Er as (q&Eq&Er). rewrite Eq. cbn [mbind res_bind]. injection Er as <-.
  apply pool_coin_parent in Ep. apply farmer_coin_parent in Ef. destruct (pair_fresh _ _ _ _ Ep Ef Hacc) as [Hp Hf].
  rewrite set_add_pair by done. pose proof (cl_parent (blocks := blocks) _ _ _ Hb Eq).
  apply IH; [done|by eapply parent_on_chain| |by apply NoDup_pair].
  intros c [(h&Hlt&Hr)%Hacc|[->|[->|[]%elem_of_nil]%elem_of_cons]%elem_of_cons]%elem_of_app.
  - exists h. split; [lia|done].
  - exists (height b). split; [lia|by left].
  - exists (height b). split; [lia|by right].
Qed.

(** The claims of a transaction block are the rewards the validation expects. *)
Lemma claims_expected prev sp ptb claims ftb : (∀ b, prev = Some b → on_chain b) →
  tx_parent prev sp = Ok (Some ptb) → reward_claims constants blocks fuel (block_height_after prev) prev ptb = Ok claims →
  FoliageTransactionBlock.prev_transaction_block_hash ftb = hash_after ptb →
  NoDup claims ∧ ∀ h, (0 <? h) = (0 <? block_height_after prev) →
    ∃ th, expected_reward_coins constants blocks fuel h ftb = Ok (claims, th).
Proof.
  intros Hon Ht E Hh. unfold reward_claims in E. destruct prev as [b|]; cbn in Ht, E.
  2: { injection E as <-. split; [constructor|]. intros h Hz. cbn in Hz. unfold expected_reward_coins. rewrite Hz. by eexists. }
  specialize (Hon b eq_refl). pose proof (cl_height (blocks := blocks) _ _ Hon). rewrite (proj2 (Z.ltb_lt _ _)) in E by lia.
  apply bind_Ok in E as (ptb'&Eptb&E). apply of_opt_Ok in Eptb as ->. cbn in E.
  apply bind_Ok in Ht as (tx&Ew&Ht). rewrite Ew in E. cbn [mbind res_bind] in E.
  destruct (walk_back_on_chain _ _ _ _ Ew Hon) as [Htx _].
  destruct (total_iters tx <? sp); [|done]. injection Ht as <-. cbn in Hh.
  apply bind_Ok in E as (fe&Efe&E). apply bind_Ok in E as (p&Ep&E). apply bind_Ok in E as (r&Er&E).
  apply bind_Ok in E as (a&Ea&E). apply bind_Ok in E as (f&Ef&E). apply bind_Ok in E as ([]&_&E).
  pose proof (pool_coin_parent _ _ Ep) as Hp. pose proof (farmer_coin_parent _ _ _ _ Ef) as Hf.
  destruct (pair_fresh _ [] _ _ Hp Hf) as [Hpn Hfn]; [by intros c Hc%elem_of_nil|].
  assert (Hpair : NoDup claims ∧ (if 0 <? height tx then
      curr_b ← block_record blocks (prev_hash tx); expected ← loop fuel (reward_body constants blocks) (curr_b, [p; f]);
      Ok (expected, height tx) else Ok ([p; f], height tx)) = Ok (claims, height tx)).
  { destruct (0 <? height tx); [|injection E as <-; split; [exact (NoDup_pair p f [] (NoDup_nil_2) Hpn Hfn)|done]].
    apply bind_Ok in E as (q&Eq&E). rewrite Eq. cbn [mbind res_bind].
    pose proof (cl_parent (blocks := blocks) _ _ _ Htx Eq). apply claims_loop in E as [Hnd ->].
    - done.
    - by eapply parent_on_chain.
    - intros c [->|[->|[]%elem_of_nil]%elem_of_cons]%elem_of_cons; exists (height tx); (split; [lia|]); [by left|by right].
    - exact (NoDup_pair p f [] (NoDup_nil_2) Hpn Hfn). }
  destruct Hpair as [Hnd El]. split; [done|]. intros h Hz. exists (height tx). unfold expected_reward_coins. rewrite Hz.
  cbn [block_height_after]. rewrite (proj2 (Z.ltb_lt _ _)) by lia. rewrite Hh. unfold on_chain in Htx. rewrite Htx. cbn [mbind res_bind].
  rewrite Efe. cbn [mbind res_bind]. rewrite Ep. cbn [mbind res_bind]. rewrite Er. cbn [mbind res_bind]. rewrite Ea. cbn [mbind res_bind].
  rewrite Ef. cbn [mbind res_bind]. rewrite set_add_pair by done. exact El.
Qed.

(** ** Between the signage point and the infusion point *)

(** [b] is [b0], or follows it by blocks infused after the signage point. *)
Inductive infused_since (total_iters_sp : Z) (b0 : BlockRecord) : BlockRecord → Prop :=
  | since_same : infused_since total_iters_sp b0 b0
  | since_next b p : infused_since total_iters_sp b0 p → block_record blocks (prev_hash b) = Ok p →
      total_iters_sp <= total_iters b → infused_since total_iters_sp b0 b.
Definition prev_since (total_iters_sp : Z) (prev prev' : option BlockRecord) : Prop :=
  match prev, prev' with
  | Some b0, Some b => infused_since total_iters_sp b0 b
  | None, None => True
  | _, _ => False
  end.

Lemma since_tx sp b0 b tx0 n : infused_since sp b0 b → loop n (walk_back_body blocks is_transaction_block) b0 = Ok tx0 →
  ∀ m tx, loop m (walk_back_body blocks is_transaction_block) b = Ok tx → tx = tx0 ∨ sp <= total_iters tx.
Proof.
  intros Hs E0. induction Hs as [|b p Hs IH Hp Hsp]; intros m tx E.
  - left. destruct (Nat.le_ge_cases n m) as [Hle|Hle].
    + rewrite (loop_mono _ n m _ _ Hle E0) in E by done. by injection E.
    + rewrite (loop_mono _ m n _ _ Hle E) in E0 by done. by injection E0.
  - destruct m as [|m]; cbn [loop] in E; [done|]. apply bind_Ok in E as (r&Er&E). unfold walk_back_body in Er.
    destruct (is_transaction_block b); [injection Er as <-; injection E as <-; by right|].
    rewrite Hp in Er. injection Er as <-. by apply (IH m).
Qed.

(** A block that is a transaction block at its infusion point follows the transaction
    block it followed at its signage point. *)
Lemma tx_parent_since sp prev prev' p p' : prev_since sp prev prev' → tx_parent prev sp = Ok p → tx_parent prev' sp = Ok (Some p') →
  p = Some p'.
Proof.
  unfold tx_parent. destruct prev as [b0|], prev' as [b|]; cbn; try done; [|congruence].
  intros Hs E0 E. apply bind_Ok in E0 as (tx0&Ew0&[= <-]). apply bind_Ok in E as (tx&Ew&E).
  destruct (total_iters tx <? sp) eqn:El; [|done]. injection E as <-. zbool.
  destruct (since_tx _ _ _ _ _ Hs Ew0 _ _ Ew) as [-> |?]; [|lia]. by rewrite (proj2 (Z.ltb_lt _ _)).
Qed.

Lemma infusion_inv ub prev sp d i : infusion blocks fuel ub prev sp d = Ok i →
  ∃ p, tx_parent prev sp = Ok p ∧ in_is_tx i = negb (is_None p) ∧ in_height i = block_height_after prev
    ∧ in_weight i = match prev with Some b => weight b + d | None => d end
    ∧ Foliage.foliage_block_data (in_foliage i) = Foliage.foliage_block_data (UnfinishedBlock.foliage ub)
    ∧ Foliage.foliage_block_data_signature (in_foliage i) = Foliage.foliage_block_data_signature (UnfinishedBlock.foliage ub)
    ∧ Foliage.prev_block_hash (in_foliage i)
      = (if is_None prev then Foliage.prev_block_hash (UnfinishedBlock.foliage ub) else hash_after prev)
    ∧ Foliage.foliage_transaction_block_hash (in_foliage i)
      = (if in_is_tx i then Foliage.foliage_transaction_block_hash (UnfinishedBlock.foliage ub) else None)
    ∧ Foliage.foliage_transaction_block_signature (in_foliage i)
      = (if in_is_tx i then Foliage.foliage_transaction_block_signature (UnfinishedBlock.foliage ub) else None).
Proof.
  unfold infusion. destruct prev as [b|]; intros E.
  - apply bind_Ok in E as ([t q]&Et&E). apply bind_Ok in E as (w&Ew&E). apply bind_Ok in E as (h&Eh&E).
    apply uint128_Ok in Ew as [-> _]. apply uint32_Ok in Eh as [-> _]. unfold get_prev_transaction_block in Et.
    apply bind_Ok in Et as (tx&Etx&Et). cbn. rewrite Etx. cbn [mbind res_bind]. injection Et as Et.
    destruct (total_iters tx <? sp); injection Et as <- <-; apply bind_Ok in E as ([]&_&E); injection E as <-;
      eexists; split; done.
  - apply bind_Ok in E as (w&Ew&E). apply uint128_Ok in Ew as [-> _]. injection E as <-. by exists (Some None).
Qed.

Lemma finish_inv ub cv cp rv rp iv ipf slots prev sp d fb :
  unfinished_block_to_full_block blocks fuel ub cv cp rv rp iv ipf slots prev sp d = Ok fb →
  ∃ i rh, infusion blocks fuel ub prev sp d = Ok i
    ∧ FullBlock.foliage fb = with_reward_block_hash rh (in_foliage i)
    ∧ hash_of (FullBlock.reward_chain_block fb) = Ok rh
    ∧ RewardChainBlock.get_unfinished (FullBlock.reward_chain_block fb) = UnfinishedBlock.reward_chain_block ub
    ∧ RewardChainBlock.weight (FullBlock.reward_chain_block fb) = in_weight i
    ∧ RewardChainBlock.height (FullBlock.reward_chain_block fb) = in_height i
    ∧ RewardChainBlock.is_transaction_block (FullBlock.reward_chain_block fb) = in_is_tx i
    ∧ FullBlock.foliage_transaction_block fb = (if in_is_tx i then UnfinishedBlock.foliage_transaction_block ub else None)
    ∧ FullBlock.transactions_info fb = (if in_is_tx i then UnfinishedBlock.transactions_info ub else None)
    ∧ FullBlock.transactions_generator fb = (if in_is_tx i then UnfinishedBlock.transactions_generator ub else None)
    ∧ FullBlock.transactions_generator_ref_list fb
      = (if in_is_tx i then UnfinishedBlock.transactions_generator_ref_list ub else []).
Proof.
  unfold unfinished_block_to_full_block. intros E. apply bind_Ok in E as (i&Ei&E). apply bind_Ok in E as (rh&Erh&E).
  injection E as <-. exists i, rh. cbn. split_and!; try done. by destruct (UnfinishedBlock.reward_chain_block ub).
Qed.

(** ** The checks of the header *)
Lemma neq_refl_false {A} (x : A) `{!Decision (x ≠ x)} : bool_decide (x ≠ x) = false.
Proof. apply bool_decide_eq_false_2. by intros Hx. Qed.
Lemma tx_block_inv gen sig adds rems h prev ptb ts ftb ti :
  create_transaction_block constants blocks fuel gen sig adds rems h prev ptb ts = Ok (ftb, ti) →
  ∃ claims cost fees ar rr refs, reward_claims constants blocks fuel h prev ptb = Ok claims
    ∧ generator_cost constants gen adds rems = Ok (cost, fees) ∧ 0 <= fees < 2 ^ 64
    ∧ merkle_roots (adds ++ claims) (coin_name <$> rems) = Ok (ar, rr)
    ∧ generator_refs_hash (match gen with Some g => block_height_list g | None => [] end) = Ok refs
    ∧ ti = {| TransactionsInfo.generator_root := match gen with Some g => std_hash (program g) | None => replicate 32 0 end;
              TransactionsInfo.generator_refs_root := refs; TransactionsInfo.aggregated_signature := sig;
              TransactionsInfo.fees := fees; TransactionsInfo.cost := cost;
              TransactionsInfo.reward_claims_incorporated := claims |}
    ∧ hash_of ti = Ok (FoliageTransactionBlock.transactions_info_hash ftb)
    ∧ FoliageTransactionBlock.prev_transaction_block_hash ftb = hash_after ptb ∧ FoliageTransactionBlock.timestamp ftb = ts
    ∧ FoliageTransactionBlock.filter_hash ftb
      = std_hash (bip158_encoded ((puzzle_hash <$> adds ++ claims) ++ (coin_name <$> rems)))
    ∧ FoliageTransactionBlock.additions_root ftb = ar ∧ FoliageTransactionBlock.removals_root ftb = rr.
Proof.
  unfold create_transaction_block. intros E. apply bind_Ok in E as ([cost fees]&Ecost&E). apply bind_Ok in E as (claims&Ec&E).
  apply bind_Ok in E as ([ar rr]&Er&E). apply bind_Ok in E as (refs&Erefs&E). apply bind_Ok in E as (f&Ef&E).
  apply uint64_Ok in Ef as [-> Hf]. apply bind_Ok in E as (th&Eth&E). injection E as <- <-.
  exists claims, cost, fees, ar, rr, refs. split_and!; (done || lia).
Qed.

(** What the caller must choose rightly: a pool target that fits the proof of space,
    and a time after the last transaction block and not too far ahead *)
Definition pool_fits (target : PoolTarget.t) (farmer : bytes) (pos : ProofOfSpace.t) (prev : option BlockRecord) : Prop :=
  (PoolTarget.max_height target = 0 ∨ block_height_after prev <= PoolTarget.max_height target)
  ∧ match prev with
    | None => PoolTarget.puzzle_hash target = GENESIS_PRE_FARM_POOL_PUZZLE_HASH constants
              ∧ farmer = GENESIS_PRE_FARM_FARMER_PUZZLE_HASH constants
    | Some _ =>
        match ProofOfSpace.pool_public_key pos with
        | Some pk => ProofOfSpace.pool_contract_puzzle_hash pos = None
            ∧ ∃ msg sig, to_bytes target = Ok msg ∧ get_pool_signature target (Some pk) = Some sig ∧ mpl_verify pk msg sig = true
        | None => ProofOfSpace.pool_contract_puzzle_hash pos = Some (PoolTarget.puzzle_hash target)
        end
    end.
Definition timely (time_time : float) (ts : Z) (prev : option BlockRecord) : Prop :=
  (∃ m limit, float_of_int (MAX_FUTURE_TIME constants) = Ok m ∧ int_of_float (float_add time_time m) = Ok limit ∧ ts <= limit)
  ∧ ∀ b tx, prev = Some b → walk_back blocks fuel is_transaction_block b = Ok tx → ∃ t, timestamp tx = Some t ∧ t < ts.
Context (Hsigns : ∀ pk m, mpl_verify pk m (get_plot_signature m pk) = true).

(** The unfinished header of the finished block: what the checks read *)
Record finished_header (p : option (option BlockRecord)) (ts : Z) (gen : option BlockGenerator) (sig : bytes)
    (adds rems : list Coin) (prev_sp : option BlockRecord) (ub : UnfinishedBlock.t) (hb : UnfinishedHeaderBlock.t) : Prop := {
  fh_rcb : UnfinishedHeaderBlock.reward_chain_block hb = UnfinishedBlock.reward_chain_block ub;
  fh_data : Foliage.foliage_block_data (UnfinishedHeaderBlock.foliage hb) = Foliage.foliage_block_data (UnfinishedBlock.foliage ub);
  fh_sig : Foliage.foliage_block_data_signature (UnfinishedHeaderBlock.foliage hb)
           = Foliage.foliage_block_data_signature (UnfinishedBlock.foliage ub);
  fh_tx : match p with
          | Some ptb => transaction_part
              (plot_public_key (RewardChainBlockUnfinished.proof_of_space (UnfinishedBlock.reward_chain_block ub)))
              prev_sp gen sig adds rems ts ptb (UnfinishedHeaderBlock.foliage hb)
              (UnfinishedHeaderBlock.foliage_transaction_block hb) (UnfinishedBlock.transactions_info ub)
          | None => UnfinishedHeaderBlock.foliage_transaction_block hb = None
                    ∧ Foliage.foliage_transaction_block_hash (UnfinishedHeaderBlock.foliage hb) = None
                    ∧ Foliage.foliage_transaction_block_signature (UnfinishedHeaderBlock.foliage hb) = None
          end;
}.

Section Checks.
Context (prev prev_sp : option BlockRecord) (p : option (option BlockRecord)) (sp ts : Z) (gen : option BlockGenerator) (sig : bytes).
Context (adds rems : list Coin) (target : PoolTarget.t) (farmer : bytes) (ub : UnfinishedBlock.t) (hb : UnfinishedHeaderBlock.t).
Context (Hmade : made prev_sp sp ts gen sig adds rems target farmer ub) (Hp : tx_parent prev sp = Ok p).
Context (Hfh : finished_header p ts gen sig adds rems prev_sp ub hb).
Context (c : HeaderContext) (Hc : hc_prev_b c = prev) (Hh : hc_height c = block_height_after prev).

Lemma is_tx_accepted : check_is_transaction_block blocks fuel c hb sp = accept tt.
Proof.
  unfold check_is_transaction_block. rewrite Hc. destruct Hfh as [_ _ _ Ht].
  destruct prev as [b|]; cbn in Hp.
  - apply bind_Ok in Hp as (tx&Etx&Hp'). unfold prev_transaction_block. rewrite Etx. cbn [mbind res_bind].
    rewrite (proj2 (uint128_Ok _ _) (conj eq_refl (md_sp _ _ _ _ _ _ _ _ _ _ Hmade))). cbn [mbind res_bind].
    destruct (total_iters tx <? sp); injection Hp' as <-.
    + destruct Ht as (?&?&?&_&_&_&->&->&_). done.
    + destruct Ht as (_&->&->). done.
  - injection Hp as <-. destruct Ht as (?&?&?&_&_&_&->&_). done.
Qed.

Lemma foliage_accepted :
  pool_fits target farmer (RewardChainBlockUnfinished.proof_of_space (UnfinishedBlock.reward_chain_block ub)) prev →
  check_foliage constants c hb = accept tt.
Proof.
  intros [Hmax Hpool]. unfold check_foliage. destruct Hfh as [Er Ed Es Ht]. destruct Hmade as [_ Mh Mt Mf Mp (dh&Mdh&Ms) _ _ _].
  rewrite Er, Ed, Es, Mdh, Ms. cbn [mbind res_bind]. rewrite Hsigns. cbn [negb].
  assert (match Foliage.foliage_transaction_block_hash (UnfinishedHeaderBlock.foliage hb) with
          | None => Ok true
          | Some h => s ← of_opt TypeError (Foliage.foliage_transaction_block_signature (UnfinishedHeaderBlock.foliage hb));
              Ok (mpl_verify (plot_public_key
                (RewardChainBlockUnfinished.proof_of_space (UnfinishedBlock.reward_chain_block ub))) h s) end = Ok true) as ->.
  { destruct p as [ptb|].
    - destruct Ht as (?&?&?&_&_&_&->&->&_). cbn. by rewrite Hsigns.
    - by destruct Ht as (_&->&_). }
  cbn [mbind res_bind negb]. rewrite Mh. cbn [mbind res_bind]. rewrite neq_refl_false. rewrite Mt, Mf, Mp.
  destruct (negb _ && _) eqn:E.
  { apply andb_prop in E as [E1 E2]. zbool. rewrite Hh in E2. destruct Hmax; lia. }
  rewrite Hc. destruct prev as [b|]; cbn [is_None].
  - destruct (ProofOfSpace.pool_public_key _) as [pk|].
    + destruct Hpool as (->&msg&s&->&->&Hv). cbn. by rewrite Hv.
    + rewrite Hpool. cbn. by rewrite neq_refl_false.
  - destruct Hpool as [-> ->]. by rewrite !neq_refl_false.
Qed.

Lemma transaction_foliage_accepted check_filter time_time : (∀ b, prev = Some b → on_chain b) → timely time_time ts prev →
  (∀ ftb, UnfinishedHeaderBlock.foliage_transaction_block hb = Some ftb →
     FoliageTransactionBlock.filter_hash ftb = std_hash (UnfinishedHeaderBlock.transactions_filter hb)) →
  check_transaction_foliage constants blocks fuel time_time check_filter c hb = accept tt.
Proof.
  intros Hon [(m&limit&Em&El&Hl) Hprev] Hfilter. unfold check_transaction_foliage.
  destruct Hfh as [_ _ _ Ht]. destruct p as [ptb|]; [|by destruct Ht as (->&->&->)].
  destruct Ht as (ftb&ti&fh&Eftb&_&Efh&E1&E2&Ec). rewrite Eftb, E1, E2. cbn [is_None eqb negb]. rewrite Efh. cbn [mbind res_bind].
  rewrite neq_refl_false. rewrite Hc.
  apply tx_block_inv in Ec as (claims&cost&fees&ar&rr&refs&_&_&_&_&_&_&_&Hpt&Hts&_).
  assert (match prev with None => Ok (GENESIS_CHALLENGE constants)
          | Some b => b ← prev_transaction_block blocks fuel b; Ok (header_hash b) end = Ok (hash_after ptb)) as ->.
  { destruct prev as [b|]; cbn in Hp; [|by injection Hp as <-]. apply bind_Ok in Hp as (tx&Etx&Hp').
    unfold prev_transaction_block. rewrite Etx. cbn. destruct (total_iters tx <? sp); [|done]. by injection Hp' as <-. }
  cbn [mbind res_bind]. rewrite Hpt. rewrite neq_refl_false. rewrite (Hfilter ftb Eftb).
  rewrite neq_refl_false. rewrite andb_false_r, Em. cbn [mbind res_bind]. rewrite El. cbn [mbind res_bind]. rewrite Hts.
  rewrite (proj2 (Z.ltb_ge _ _)) by done. destruct prev as [b|]; cbn [is_None]; [|done].
  cbn in Hp. apply bind_Ok in Hp as (tx&Etx&Hp'). destruct (total_iters tx <? sp); [|done]. injection Hp' as <-.
  destruct (walk_back_on_chain _ _ _ _ Etx (Hon b eq_refl)) as [Htx _]. cbn [hash_after]. rewrite Htx. cbn [mbind res_bind].
  destruct (Hprev b tx eq_refl Etx) as (t&->&Hlt). cbn [of_opt mbind res_bind]. by rewrite (proj2 (Z.leb_gt _ _)).
Qed.
End Checks.

Lemma finished_header_of prev prev_sp sp ts gen sig adds rems target farmer ub cv cp rv rp iv ipf slots d fb hb p :
  made prev_sp sp ts gen sig adds rems target farmer ub → prev_since sp prev_sp prev → tx_parent prev sp = Ok p →
  unfinished_block_to_full_block blocks fuel ub cv cp rv rp iv ipf slots prev sp d = Ok fb → header_of_block fb hb →
  finished_header p ts gen sig adds rems prev_sp ub (unfinished_of hb).
Proof.
  intros Hm Hs Hp E (_&E1&E2&E3). apply finish_inv in E as (i&rh&Ei&Ef&_&Eu&_&_&_&Eftb&_).
  apply infusion_inv in Ei as (p'&Ep'&Etx&_&_&Ed&Esig&_&Eh&Ehs). rewrite Hp in Ep'. injection Ep' as <-.
  split; [by cbn; rewrite E1|by cbn; rewrite E2, Ef|by cbn; rewrite E2, Ef|]. unfold transaction_part. cbn.
  rewrite E2, E3, Ef, Eftb. cbn. rewrite Eh, Ehs, Etx. destruct p as [ptb|]; [|done]. cbn [is_None negb].
  destruct (md_tx _ _ _ _ _ _ _ _ _ _ Hm) as (p0&Ep0&Ht). by rewrite (tx_parent_since _ _ _ _ _ Hs Ep0 Hp) in Ht.
Qed.

(** The rewards pay to puzzle hashes of the records. *)
Context (Hpuzzles : ∀ h b, block_record blocks h = Ok b → hash32 (pool_puzzle_hash b) ∧ hash32 (farmer_puzzle_hash b)).

Lemma make_coin_puzzle p ph a c : make_coin p ph a = Ok c → puzzle_hash c = ph.
Proof. unfold make_coin, sized_bytes_new. intros E. by res_inv. Qed.
Lemma pair_puzzles b a p f l : on_chain b → pool_reward_coin constants b = Ok p →
  create_farmer_coin (height b) (farmer_puzzle_hash b) a (GENESIS_CHALLENGE constants) = Ok f →
  Forall (λ c, hash32 (puzzle_hash c)) l → Forall (λ c, hash32 (puzzle_hash c)) (l ++ [p; f]).
Proof.
  intros Hb Ep Ef Hl. destruct (Hpuzzles _ _ Hb) as [H1' H2'].
  unfold pool_reward_coin, create_pool_coin in Ep. apply bind_Ok in Ep as (r&_&Ep). apply bind_Ok in Ep as (q&_&Ep).
  unfold create_farmer_coin in Ef. apply bind_Ok in Ef as (q'&_&Ef). apply Forall_app. split; [done|].
  apply Forall_cons. rewrite (make_coin_puzzle _ _ _ _ Ep). split; [done|]. apply Forall_singleton.
  by rewrite (make_coin_puzzle _ _ _ _ Ef).
Qed.
Lemma claims_loop_puzzles n : ∀ b acc claims, loop n (claims_body constants blocks) (b, acc) = Ok claims → on_chain b →
  Forall (λ c, hash32 (puzzle_hash c)) acc → Forall (λ c, hash32 (puzzle_hash c)) claims.
Proof.
  induction n as [|n IH]; intros b acc claims E Hb Hacc; cbn [loop] in *; [done|].
  apply bind_Ok in E as (r&Er&E). unfold claims_body in Er.
  destruct (is_transaction_block b); [injection Er as <-; by injection E as <-|].
  apply bind_Ok in Er as (p&Ep&Er). apply bind_Ok in Er as (a&_&Er). apply bind_Ok in Er as (f&Ef&Er).
  apply bind_Ok in Er as (q&Eq&Er). injection Er as <-. apply (IH _ _ _ E); [by eapply parent_on_chain|by eapply pair_puzzles].
Qed.
Lemma claims_puzzles h prev ptb claims : (∀ b, prev = Some b → on_chain b) →
  reward_claims constants blocks fuel h prev ptb = Ok claims → Forall (λ c, hash32 (puzzle_hash c)) claims.
Proof.
  intros Hon E. unfold reward_claims in E. destruct (0 <? h); [|injection E as <-; constructor].
  apply bind_Ok in E as (ptb'&_&E). apply bind_Ok in E as (b&Eb&E). apply of_opt_Ok in Eb.
  apply bind_Ok in E as (tx&Ew&E). destruct (walk_back_on_chain _ _ _ _ Ew (Hon b Eb)) as [Htx _].
  apply bind_Ok in E as (fe&_&E). apply bind_Ok in E as (p&Ep&E). apply bind_Ok in E as (r&_&E).
  apply bind_Ok in E as (a&_&E). apply bind_Ok in E as (f&Ef&E). apply bind_Ok in E as ([]&_&E).
  pose proof (pair_puzzles _ _ _ _ [] Htx Ep Ef (Forall_nil_2 _)) as Hpf. cbn in Hpf.
  destruct (0 <? height tx); [|by injection E as <-]. apply bind_Ok in E as (q&Eq&E).
  eapply claims_loop_puzzles; [exact E|by eapply parent_on_chain|done].
Qed.

(** ** The checks of the body *)
Lemma merkle_roots_valid adds names ar rr : merkle_roots adds names = Ok (ar, rr) →
  validate_block_merkle_roots ar rr adds names = Ok None.
Proof.
  unfold merkle_roots, validate_block_merkle_roots. intros E. apply bind_Ok in E as (rt&->&E). cbn [mbind res_bind].
  apply bind_Ok in E as (at_&->&E). cbn [mbind res_bind]. apply bind_Ok in E as (ar'&->&E). cbn [mbind res_bind].
  apply bind_Ok in E as (rr'&->&E). injection E as -> ->. cbn [mbind res_bind]. by rewrite !neq_refl_false.
Qed.

(** References to earlier blocks only, and not too many of them *)
Definition refs_fit (gen : option BlockGenerator) (h : Z) : Prop :=
  match gen with
  | Some g => Z.of_nat (length (block_height_list g)) <= MAX_GENERATOR_REF_LIST_SIZE constants
              ∧ Forall (λ i, i < h) (block_height_list g)
  | None => True
  end.
Lemma generator_roots_valid gen h fb ti refs : refs_fit gen h →
  generator_refs_hash (match gen with Some g => block_height_list g | None => [] end) = Ok refs →
  FullBlock.transactions_generator fb = program <$> gen →
  FullBlock.transactions_generator_ref_list fb = match gen with Some g => block_height_list g | None => [] end →
  TransactionsInfo.generator_root ti = match gen with Some g => std_hash (program g) | None => replicate 32 0 end →
  TransactionsInfo.generator_refs_root ti = refs → check_generator_roots constants h (AnyBlock.Full fb) ti = Ok None.
Proof.
  intros Hfit Eh Eg Er Eroot Erefs. unfold check_generator_roots. cbn. rewrite Eg, Er, Eroot, Erefs.
  destruct gen as [g|]; cbn [fmap option_fmap option_map] in *; rewrite bool_decide_true by done; cbn [negb].
  - destruct Hfit as [Hn Hl]. unfold generator_refs_hash in Eh. destruct (block_height_list g) as [|i l] eqn:El.
    + injection Eh as <-. by rewrite neq_refl_false.
    + apply bind_Ok in Eh as (bs&->&Eh). injection Eh as <-. cbn [mbind res_bind]. rewrite neq_refl_false.
      rewrite (proj2 (Z.ltb_ge _ _)) by done. destruct (existsb _ _) eqn:Ex; [|done].
      apply existsb_exists in Ex as (x&Hx&Hle). zbool. rewrite Forall_forall in Hl.
      specialize (Hl x (proj2 (list_elem_of_In _ _) Hx)). lia.
  - cbn in Eh. injection Eh as <-. by rewrite neq_refl_false.
Qed.

(** The checks of the header that concern the foliage and the place of the block *)
Record header_checks (time_time : float) (check_filter : bool) (c : HeaderContext) (sp d : Z) (hb : HeaderBlock.t) : Prop := {
  hk_is_tx : check_is_transaction_block blocks fuel c (unfinished_of hb) sp = accept tt;
  hk_foliage : check_foliage constants c (unfinished_of hb) = accept tt;
  hk_transaction : check_transaction_foliage constants blocks fuel time_time check_filter c (unfinished_of hb) = accept tt;
  hk_place : check_height_weight constants d (hc_prev_b c) hb = accept tt;
  hk_reward : hash_of (HeaderBlock.reward_chain_block hb) = Ok (Foliage.reward_block_hash (HeaderBlock.foliage hb));
  hk_flag : RewardChainBlock.is_transaction_block (HeaderBlock.reward_chain_block hb)
            = negb (is_None (Foliage.foliage_transaction_block_hash (HeaderBlock.foliage hb)));
}.

(** What CLVM promises: a program that runs in strict mode runs to the same result at the
    same cost in either mode, under every limit the cost meets. *)
Definition strict_runs_same : Prop := ∀ max_cost p args l c,
  run_as_generator max_cost STRICT_MODE p args = Ok (None, l, c) →
  ∀ max_cost' flags, c <= max_cost' → flags = 0 ∨ flags = STRICT_MODE → run_as_generator max_cost' flags p args = Ok (None, l, c).

Lemma total_amount_perm l l' : l ≡ₚ l' → total_amount l = total_amount l'.
Proof.
  unfold total_amount. generalize 0. intros z Hl. revert z.
  induction Hl as [|x l l' _ IH|x y l|l1 l2 l3 _ IH1 _ IH2]; intros z; cbn [foldl]; [done|apply IH|f_equal; lia|by rewrite IH1].
Qed.

Lemma cost_covers program r c : calculate_cost_of_program program r (COST_PER_BYTE constants) = Ok c →
  clvm_cost r <= c - Z.of_nat (length program) * COST_PER_BYTE constants.
Proof.
  unfold calculate_cost_of_program. intros E. apply bind_Ok in E as (total&Et&E). apply uint64_Ok in E as [-> _].
  enough (clvm_cost r <= total) by lia. revert Et. generalize (clvm_cost r). induction (npc_list r) as [|npc l IH]; intros z Et.
  - injection Et as ->. lia.
  - cbn [for_fold] in Et. apply bind_Ok in Et as (z'&Ez&Et). apply IH in Et. apply bind_Ok in Ez as (d&_&[= <-]).
    etrans; [|exact Et]. clear. revert z. induction d as [|[o cs] d IH]; intros z; cbn [foldl]; [lia|].
    etrans; [|apply IH]. destruct o; cbn; lia.
Qed.

(** Creation's run of a generator, and the validator's: it may be in the other mode, and
    the cost the block states is its limit. *)
Definition created_run (g : BlockGenerator) : NPCResult :=
  get_name_puzzle_conditions g (MAX_BLOCK_COST_CLVM constants) (COST_PER_BYTE constants) true.
Definition validator_run (gen : option BlockGenerator) (ti : TransactionsInfo.t) (safe_mode : bool) : option NPCResult :=
  g ← gen; Some (get_name_puzzle_conditions g (Z.min (MAX_BLOCK_COST_CLVM constants) (TransactionsInfo.cost ti))
                   (COST_PER_BYTE constants) safe_mode).

Lemma validator_run_same g c safe_mode : strict_runs_same → npc_error (created_run g) = None →
  calculate_cost_of_program (program g) (created_run g) (COST_PER_BYTE constants) = Ok c → c <= MAX_BLOCK_COST_CLVM constants →
  get_name_puzzle_conditions g (Z.min (MAX_BLOCK_COST_CLVM constants) c) (COST_PER_BYTE constants) safe_mode = created_run g.
Proof.
  intros Hlaw He Hc Hmax. apply cost_covers in Hc. rewrite Z.min_r by done. revert He Hc.
  unfold created_run, get_name_puzzle_conditions, run_conditions. cbn [setup_generator_args].
  destruct (_ <? 0) eqn:E0; [done|].
  destruct (run_as_generator _ STRICT_MODE _ _) as [[[[e|] l] cost]|e|] eqn:Er; cbn [mbind res_bind].
  - by destruct (uint16 e).
  - destruct (for_each npc_of_raw l) as [npcs|e|] eqn:El; cbn [mbind res_bind]; [|done..].
    destruct (uint64 cost) as [z|e|] eqn:Ez; [|done..]. cbn [mbind res_bind npc_error clvm_cost]. intros _ Hle.
    apply uint64_Ok in Ez as Ez'. destruct Ez' as [-> Hz]. rewrite (proj2 (Z.ltb_ge _ _)) by lia.
    rewrite (Hlaw _ _ _ _ _ Er) by (done || destruct safe_mode; auto). cbn [mbind res_bind]. rewrite El. cbn [mbind res_bind].
    by rewrite Ez.
  - done.
  - done.
Qed.

(** What the caller must choose rightly for the transactions: a generator that runs, whose
    spends remove and add the coins given, at a cost that fits a block; fees that cover
    those reserved and fit a coin with the reward. *)
Definition spends_fit (gen : option BlockGenerator) (adds rems : list Coin) (h : Z) : Prop :=
  (∃ reward, calculate_base_farmer_reward h = Ok reward
     ∧ total_amount rems - total_amount adds + reward <= MAX_COIN_AMOUNT constants)
  ∧ match gen with
    | None => adds = [] ∧ rems = []
    | Some g =>
        npc_error (created_run g) = None
        ∧ (∃ l, additions_for_npc (npc_list (created_run g)) = Ok l ∧ l ≡ₚ adds)
        ∧ npc_coin_name <$> npc_list (created_run g) ≡ₚ coin_name <$> rems
        ∧ (∃ c, calculate_cost_of_program (program g) (created_run g) (COST_PER_BYTE constants) = Ok c
             ∧ c <= MAX_BLOCK_COST_CLVM constants)
        ∧ (∃ reserved, for_early reserve_fees 0 (npc_list (created_run g)) = Ok (inl reserved)
             ∧ reserved <= total_amount rems - total_amount adds)
    end.

(** The checks of the body up to those that look up coins: a block without transactions
    has no body; one with transactions commits to its transactions info, its claims are
    the expected rewards, and its generator root and references are right.  Its
    generator, run by the validator, has no error and costs what the block states; the
    additions and removals of that run give the roots and the filter, whatever the order
    of the claims; and the check of the fees passes on the coins removed. *)
Definition body_checks `{SetIter} (fb : FullBlock.t) (gen : option BlockGenerator) (rems : list Coin) : Prop :=
  match Foliage.foliage_transaction_block_hash (FullBlock.foliage fb) with
  | None => check_no_body blocks fuel (AnyBlock.Full fb) = Ok None
  | Some fh => ∃ ftb ti th, FullBlock.foliage_transaction_block fb = Some ftb ∧ FullBlock.transactions_info fb = Some ti
      ∧ hash_of ti = Ok (FoliageTransactionBlock.transactions_info_hash ftb) ∧ hash_of ftb = Ok fh
      ∧ expected_reward_coins constants blocks fuel (FullBlock.height fb) ftb
        = Ok (TransactionsInfo.reward_claims_incorporated ti, th)
      ∧ check_generator_roots constants (FullBlock.height fb) (AnyBlock.Full fb) ti = Ok None
      ∧ let claims := set_iter (TransactionsInfo.reward_claims_incorporated ti) in
        ∀ safe_mode, ∃ npcs additions,
          block_npcs constants (AnyBlock.Full fb) (validator_run gen ti safe_mode)
          = Ok (inl (npcs, additions, TransactionsInfo.cost ti))
          ∧ validate_block_merkle_roots (FoliageTransactionBlock.additions_root ftb) (FoliageTransactionBlock.removals_root ftb)
              (additions ++ claims) (npc_coin_name <$> npcs) = Ok None
          ∧ std_hash (bip158_encoded ((puzzle_hash <$> additions ++ claims) ++ (npc_coin_name <$> npcs)))
            = FoliageTransactionBlock.filter_hash ftb
          ∧ ∀ records, coin <$> records.*2 ≡ₚ rems →
              check_fees constants (FullBlock.height fb) ti npcs additions records = Ok None
  end.

(** The validator's run of the transactions of a block made with the fees and the cost of
    creation's run *)
Lemma spends_accepted gen adds rems fb ti cost fees safe_mode : strict_runs_same → spends_fit gen adds rems (FullBlock.height fb) →
  generator_cost constants gen adds rems = Ok (cost, fees) → 0 <= fees →
  TransactionsInfo.cost ti = cost → TransactionsInfo.fees ti = fees → FullBlock.transactions_generator fb = program <$> gen →
  ∃ npcs additions, block_npcs constants (AnyBlock.Full fb) (validator_run gen ti safe_mode) = Ok (inl (npcs, additions, cost))
    ∧ additions ≡ₚ adds ∧ npc_coin_name <$> npcs ≡ₚ coin_name <$> rems
    ∧ ∀ records, coin <$> records.*2 ≡ₚ rems → check_fees constants (FullBlock.height fb) ti npcs additions records = Ok None.
Proof.
  intros Hlaw [(reward&Ereward&Hreward) Hgen] Ec Hfees Eti Efees Eg.
  assert (Hcheck : ∀ npcs additions reserved, additions ≡ₚ adds → fees = total_amount rems - total_amount adds →
    for_early reserve_fees 0 npcs = Ok (inl reserved) → reserved <= fees →
    ∀ records, coin <$> records.*2 ≡ₚ rems → check_fees constants (FullBlock.height fb) ti npcs additions records = Ok None).
  { intros npcs additions reserved Ha Hf Er Hle records Hrec. unfold check_fees.
    rewrite (total_amount_perm _ _ Ha), (total_amount_perm _ _ Hrec), (proj2 (Z.ltb_ge _ _)), Er by lia. cbn [mbind res_bind].
    rewrite (proj2 (Z.ltb_ge _ _)), Ereward by lia. cbn [mbind res_bind]. rewrite (proj2 (Z.ltb_ge _ _)) by lia.
    rewrite bool_decide_eq_false_2; [done|]. intros Hn. apply Hn. lia. }
  unfold block_npcs, validator_run. cbn [AnyBlock.transactions_generator]. rewrite Eg.
  destruct gen as [g|]; cbn [fmap option_fmap option_map mbind option_bind of_opt res_bind].
  - destruct Hgen as (He&(l&El&Hl)&Hrems&(c&Ecost&Hmax)&(reserved&Eres&Hres)).
    unfold generator_cost in Ec. fold (created_run g) in Ec. rewrite Ecost in Ec. cbn in Ec. injection Ec as -> Ef. rewrite Eti.
    rewrite (validator_run_same g cost) by done. rewrite Ecost. cbn [mbind res_bind]. rewrite (proj2 (Z.ltb_ge _ _)), He, El by done.
    cbn. exists (npc_list (created_run g)), l. split_and!; [done..|]. eapply Hcheck; [done|lia|done|lia].
  - destruct Hgen as [-> ->]. unfold generator_cost in Ec. injection Ec as <- <-. exists [], []. split_and!; [done..|].
    by apply (Hcheck _ _ 0).
Qed.

Section Whole.
Context `{SetIter} (Hbip : ∀ l l', l ≡ₚ l' → bip158_encoded l = bip158_encoded l').
Context (prev prev_sp : option BlockRecord) (sp ts d : Z) (gen : option BlockGenerator) (sig : bytes) (adds rems : list Coin).
Context (target : PoolTarget.t) (farmer : bytes) (ub : UnfinishedBlock.t) (fb : FullBlock.t) (hb : HeaderBlock.t).
Context (Hon : ∀ b, prev = Some b → on_chain b) (Hon_sp : ∀ b, prev_sp = Some b → on_chain b) (Hsince : prev_since sp prev_sp prev).
Context (Hmade : made prev_sp sp ts gen sig adds rems target farmer ub).
Context (cv : VDFInfo.t) (cp : VDFProof.t) (rv : VDFInfo.t) (rp : VDFProof.t) (iv : option VDFInfo.t) (ipf : option VDFProof.t).
Context (slots : list EndOfSubSlotBundle.t).
Context (Hfull : unfinished_block_to_full_block blocks fuel ub cv cp rv rp iv ipf slots prev sp d = Ok fb).

Lemma heights_agree : (0 <? block_height_after prev) = (0 <? block_height_after prev_sp).
Proof.
  unfold prev_since in Hsince. destruct prev as [b|], prev_sp as [b0|]; try done. cbn.
  pose proof (cl_height (blocks := blocks) _ _ (Hon b eq_refl)). pose proof (cl_height (blocks := blocks) _ _ (Hon_sp b0 eq_refl)).
  rewrite !(proj2 (Z.ltb_lt _ _)) by lia. done.
Qed.

Lemma filter_same claims : NoDup claims →
  bip158_encoded ((puzzle_hash <$> adds ++ set_iter (remove_dups claims)) ++ (coin_name <$> rems))
  = bip158_encoded ((puzzle_hash <$> adds ++ claims) ++ (coin_name <$> rems)).
Proof.
  intros Hnd. apply Hbip. apply Permutation_app_tail, fmap_Permutation, Permutation_app_head. rewrite set_iter_perm.
  apply NoDup_Permutation; [apply NoDup_remove_dups|done|]. intros c. apply elem_of_remove_dups.
Qed.

(** The transaction part of the finished block *)
Lemma finished_tx_part ftb : FullBlock.foliage_transaction_block fb = Some ftb →
  ∃ ptb ti fh, tx_parent prev sp = Ok (Some ptb) ∧ tx_parent prev_sp sp = Ok (Some ptb)
    ∧ FullBlock.transactions_info fb = Some ti ∧ hash_of ftb = Ok fh
    ∧ Foliage.foliage_transaction_block_hash (FullBlock.foliage fb) = Some fh
    ∧ FullBlock.transactions_generator fb = program <$> gen
    ∧ FullBlock.transactions_generator_ref_list fb = match gen with Some g => block_height_list g | None => [] end
    ∧ create_transaction_block constants blocks fuel gen sig adds rems (block_height_after prev_sp) prev_sp ptb ts = Ok (ftb, ti).
Proof.
  intros Eftb. apply finish_inv in Hfull as (i&rh&Ei&Ef&_&_&_&_&_&E1&E2&E3&E4).
  apply infusion_inv in Ei as (p&Ep&Etx&_&_&_&_&_&Eh&_). destruct (in_is_tx i); [|congruence].
  destruct p as [ptb|]; [|discriminate Etx]. destruct (md_tx _ _ _ _ _ _ _ _ _ _ Hmade) as (p0&Ep0&Ht).
  pose proof (tx_parent_since _ _ _ _ _ Hsince Ep0 Ep). subst p0.
  destruct Ht as (ftb'&ti&fh&F1&F2&F3&F4&_&F5). destruct (md_gen _ _ _ _ _ _ _ _ _ _ Hmade) as [G1 G2].
  rewrite F1 in E1. assert (ftb' = ftb) as -> by congruence.
  exists ptb, ti, fh. rewrite Ef, E2, E3, E4, G1, G2. cbn. rewrite Eh. by split_and!.
Qed.

Lemma made_header_checks time_time check_filter c : hc_prev_b c = prev → hc_height c = block_height_after prev →
  pool_fits target farmer (RewardChainBlockUnfinished.proof_of_space (UnfinishedBlock.reward_chain_block ub)) prev →
  timely time_time ts prev → (prev = None → d = DIFFICULTY_STARTING constants) →
  get_block_header set_iter fb adds (coin_name <$> rems) = Ok hb → header_checks time_time check_filter c sp d hb.
Proof.
  intros Hc Hh Hpool Htime Hd Ehb.
  assert (Hhb : header_of_block fb hb ∧ HeaderBlock.transactions_filter hb
    = bip158_encoded (if FullBlock.is_transaction_block fb then (puzzle_hash <$> adds ++ set_iter
        (match FullBlock.transactions_info fb with Some ti => remove_dups (TransactionsInfo.reward_claims_incorporated ti)
         | None => [] end)) ++ (coin_name <$> rems) else [])).
  { unfold get_block_header, FullBlock.get_included_reward_coins in Ehb. apply bind_Ok in Ehb as (rw&Erw&Ehb). injection Ehb as <-.
    split; [done|]. cbn. destruct (FullBlock.is_transaction_block fb); cbn in Erw; [|done].
    destruct (FullBlock.transactions_info fb); cbn in Erw; [|done]. by injection Erw as <-. }
  destruct Hhb as [Hhb Hfilter]. pose proof Hfull as Hfull'.
  apply finish_inv in Hfull' as (i&rh&Ei&Ef&Erh&Eu&Ew&Eh&Eflag&Eftb&Eti&_).
  apply infusion_inv in Ei as (p&Ep&Etx&Hih&Hiw&_&_&Hprev&Hfh&_).
  pose proof (finished_header_of _ _ _ _ _ _ _ _ _ _ _ _ _ _ _ _ _ _ _ _ _ _ Hmade Hsince Ep Hfull Hhb) as Hfin.
  destruct Hhb as (_&E1&E2&E3). split.
  - by eapply is_tx_accepted.
  - by eapply foliage_accepted.
  - eapply transaction_foliage_accepted; [exact Ep|exact Hfin|done|done|done|done|].
    intros ftb Hftb. cbn in Hftb |- *. rewrite E3 in Hftb. destruct (finished_tx_part ftb Hftb) as (ptb&ti&fh&_&Ep'&Eti'&_&_&_&_&Ec).
    rewrite Hfilter, Eti'. unfold FullBlock.is_transaction_block. rewrite Hftb.
    apply tx_block_inv in Ec as (claims&cost&fees&ar&rr&refs&Ecl&_&_&_&_&->&_&Hpt&_&->&_).
    destruct (claims_expected _ _ _ _ _ Hon_sp Ep' Ecl Hpt) as [Hnd _]. cbn. by rewrite (filter_same claims Hnd).
  - unfold check_height_weight. rewrite Hc. unfold HeaderBlock.height, HeaderBlock.weight, HeaderBlock.prev_header_hash.
    rewrite E1, E2, Ew, Eh, Hih, Hiw, Ef. cbn [Foliage.prev_block_hash with_reward_block_hash]. rewrite Hprev.
    destruct prev as [b|]; cbn [block_height_after is_None]; rewrite !Z.eqb_refl; cbn [negb]; [done|].
    rewrite Hd, Z.eqb_refl by done. cbn [negb]. rewrite (md_prev _ _ _ _ _ _ _ _ _ _ Hmade).
    unfold prev_since in Hsince. destruct prev_sp; [done|]. cbn [hash_after]. by rewrite neq_refl_false.
  - rewrite E1, E2, Ef. done.
  - rewrite E1, E2, Ef, Eflag. cbn. rewrite Hfh, Etx. destruct p as [ptb|]; [|done]. cbn [is_None negb].
    destruct (md_tx _ _ _ _ _ _ _ _ _ _ Hmade) as (p0&Ep0&Ht). rewrite (tx_parent_since _ _ _ _ _ Hsince Ep0 Ep) in Ht.
    by destruct Ht as (?&?&?&_&_&_&->&_).
Qed.

Lemma made_body_checks time_time : refs_fit gen (FullBlock.height fb) → timely time_time ts prev →
  strict_runs_same → spends_fit gen adds rems (FullBlock.height fb) →
  Forall (λ c, hash32 (puzzle_hash c)) adds → body_checks fb gen rems.
Proof.
  intros Hrefs [_ Htime] Hlaw Hspends Hadds. unfold body_checks.
  pose proof Hfull as Hfull'. apply finish_inv in Hfull' as (i&rh&Ei&Ef&_&_&_&Eh&_&Eftb&Eti&Eg&Er).
  apply infusion_inv in Ei as (p&Ep&Etx&Hih&_&_&_&Hprev&Hfh&_).
  destruct (Foliage.foliage_transaction_block_hash (FullBlock.foliage fb)) as [fh|] eqn:Ehash; rewrite Ef in Ehash; cbn in Ehash;
    rewrite Hfh in Ehash.
  - destruct (in_is_tx i); [|done]. destruct p as [ptb|]; [|done].
    destruct (md_tx _ _ _ _ _ _ _ _ _ _ Hmade) as (p0&Ep0&Ht). rewrite (tx_parent_since _ _ _ _ _ Hsince Ep0 Ep) in Ht.
    destruct Ht as (ftb&ti'&fh'&F1&_). rewrite F1 in Eftb.
    destruct (finished_tx_part ftb Eftb) as (ptb'&ti&fh2&_&Ep'&Eti'&Hfth&Hfth'&G1&G2&Ec). rewrite Ef in Hfth'. cbn in Hfth'.
    rewrite Hfh, Ehash in Hfth'. injection Hfth' as <-.
    apply tx_block_inv in Ec as (claims&cost&fees&ar&rr&refs&Ecl&Ecost&Hfee&Eroots&Erefs&Hti&Hth&Hpt&_&Hfil&<-&<-).
    destruct (claims_expected _ _ _ _ _ Hon_sp Ep' Ecl Hpt) as [Hnd Hexp].
    destruct (Hexp (FullBlock.height fb)) as (th&Eexp).
    { unfold FullBlock.height. rewrite Eh, Hih. apply heights_agree. }
    exists ftb, ti, th.
    assert (TransactionsInfo.reward_claims_incorporated ti = claims ∧ TransactionsInfo.cost ti = cost) as [-> ->] by by rewrite Hti.
    split_and!; try done.
    + eapply generator_roots_valid; [exact Hrefs|exact Erefs|done|done|by rewrite Hti|by rewrite Hti].
    + intros safe_mode.
      destruct (spends_accepted _ _ _ fb ti _ _ safe_mode Hlaw Hspends Ecost ltac:(lia)) as (npcs&vadds&En&Hva&Hvr&Hfees);
        [by rewrite Hti|by rewrite Hti|done|].
      exists npcs, vadds. split_and!; [done| | |done].
      * apply merkle_roots_valid in Eroots.
        destruct (merkle_roots_any_order (FoliageTransactionBlock.additions_root ftb) (FoliageTransactionBlock.removals_root ftb)
          (adds ++ claims) (vadds ++ set_iter claims) (coin_name <$> rems) (npc_coin_name <$> npcs)) as (v&Hv1&Hv2);
          [| |by rewrite set_iter_perm, Hva|done|congruence].
        -- apply Forall_app. split; [done|]. by eapply claims_puzzles.
        -- apply Forall_fmap, Forall_true. intros c. split; [apply std_hash_length|apply std_hash_bytes].
      * rewrite Hfil. f_equal. apply Hbip. by rewrite set_iter_perm, Hva, Hvr.
  - assert (in_is_tx i = false) as Hno.
    { destruct (in_is_tx i); [|done]. destruct p as [ptb|]; [|done]. destruct (md_tx _ _ _ _ _ _ _ _ _ _ Hmade) as (p0&Ep0&Ht).
      rewrite (tx_parent_since _ _ _ _ _ Hsince Ep0 Ep) in Ht. destruct Ht as (?&?&?&_&_&_&Hx&_). congruence. }
    rewrite Hno in *. destruct prev as [b|]; cbn in Ep; [|by injection Ep as <-].
    apply bind_Ok in Ep as (tx&Etx'&_). unfold check_no_body, AnyBlock.prev_header_hash. cbn. rewrite Eftb, Eti, Eg, Er, Ef. cbn.
    rewrite Hprev. cbn. rewrite (Hon b eq_refl). cbn. unfold walk_back in Etx'.
    change (prev_tb_body blocks) with (walk_back_body blocks is_transaction_block). rewrite Etx'. cbn.
    destruct (Htime b tx eq_refl Etx') as (t&Et&_). rewrite Et. cbn. done.
Qed.
End Whole.
End Made.


(** ** A sample: the child of a genesis block, with one spend *)
#[local] Instance toy_sha256 : Sha256 := {| sha256 := std_hash; sha256_length := std_hash_length; sha256_bytes := std_hash_bytes |}.
(** A filter that does not depend on the order of its elements: their number *)
#[local] Instance counting_runner : ClvmRunner := {|
  STRICT_MODE := 1; run_as_generator := λ _ _ p _, Ok (None, sample_spends (length p) (tail p), 0);
  bip158_encoded := λ l, [Z.of_nat (length l)] |}.

Definition paid_genesis : FullBlock.t := with_info genesis_block_sample.
Definition paid_record : BlockRecord :=
  ok_or (sample_block 0 0) (block_to_block_record DEFAULT_CONSTANTS (BlockCache_interface empty_cache) 3 1 paid_genesis).
Definition paid_cache : BlockCache := bc_add_block_record empty_cache paid_record.
Definition paid_blocks : BlockchainInterface := BlockCache_interface paid_cache.
Definition spend_generator : BlockGenerator := {| program := fork_program; generator_args := [] |}.
Definition spend_adds : list Coin := ok_or [] (additions_for_npc (npc_list fork_npc)).
Definition spend_rems : list Coin := [sample_coin 21 3 60].
Definition made_target : PoolTarget.t := {| PoolTarget.puzzle_hash := replicate 32 9; PoolTarget.max_height := 0 |}.
Definition made_pos : ProofOfSpace.t := header_sample_pos (GENESIS_CHALLENGE DEFAULT_CONSTANTS).
Definition made_sp : SignagePoint.t :=
  {| SignagePoint.cc_vdf := Some (vdf_at (GENESIS_CHALLENGE DEFAULT_CONSTANTS) (5 * 2 ^ 21));
     SignagePoint.cc_proof := Some sample_vdf_proof;
     SignagePoint.rc_vdf := Some (vdf_at (GENESIS_CHALLENGE DEFAULT_CONSTANTS) (5 * 2 ^ 21));
     SignagePoint.rc_proof := Some sample_vdf_proof |}.
Definition made_run : res UnfinishedBlock.t :=
  create_unfinished_block DEFAULT_CONSTANTS paid_blocks 3 (λ _, 7) (λ _ _, replicate 96 1) (λ _ _, None) 0 (2 ^ 27) 5
    (5 * 2 ^ 21) (9 * 2 ^ 21) made_pos (GENESIS_CHALLENGE DEFAULT_CONSTANTS) (replicate 32 8) made_target
    made_sp 2000 [] (Some spend_generator) (replicate 96 0)
    (Some spend_adds) (Some spend_rems) (Some paid_record) None.
Definition made_cc : VDFInfo.t := vdf_at (GENESIS_CHALLENGE DEFAULT_CONSTANTS) (9 * 2 ^ 21).
Definition made_rc : VDFInfo.t := vdf_at (GENESIS_CHALLENGE DEFAULT_CONSTANTS) 1.
(** Making the block, finishing it on the same parent, and its header *)
Definition finish_run (ub : UnfinishedBlock.t) : res FullBlock.t :=
  unfinished_block_to_full_block paid_blocks 3 ub made_cc sample_vdf_proof made_rc sample_vdf_proof None None []
    (Some paid_record) (0 + 5 * 2 ^ 21) 7.
Definition header_run (fb : FullBlock.t) : res HeaderBlock.t := get_block_header set_iter fb spend_adds (coin_name <$> spend_rems).
Definition pool_right (ub : UnfinishedBlock.t) : bool :=
  let pos := RewardChainBlockUnfinished.proof_of_space (UnfinishedBlock.reward_chain_block ub) in
  is_None (ProofOfSpace.pool_public_key pos)
  && bool_decide (ProofOfSpace.pool_contract_puzzle_hash pos = Some (PoolTarget.puzzle_hash made_target)).
Lemma runs_ok : ∃ ub fb hb, made_run = Ok ub ∧ finish_run ub = Ok fb ∧ header_run fb = Ok hb ∧ pool_right ub = true.
Proof.
  assert (is_Ok (ub ← made_run; fb ← finish_run ub; hb ← header_run fb; assert_ (pool_right ub)) = true) as E
    by (vm_compute; reflexivity).
  destruct (ub ← made_run; _) as [[]| |] eqn:Er; [|discriminate E..]. apply bind_Ok in Er as (ub&Eu&Er).
  apply bind_Ok in Er as (fb&Ef&Er). apply bind_Ok in Er as (hb&Eh&Er). apply assert_Ok in Er.
  exists ub, fb, hb. exact (conj Eu (conj Ef (conj Eh Er))).
Qed.

Lemma paid_lookup h b : block_record paid_blocks h = Ok b → b = paid_record.
Proof.
  cbn. unfold bc_block_record, paid_cache. generalize paid_record. intros r E. apply of_opt_Ok in E. cbn in E.
  apply lookup_insert_Some in E as [[_ ->]|[_ E]]; [done|]. by rewrite lookup_empty in E.
Qed.
Lemma paid_on_chain : on_chain paid_blocks paid_record.
Proof.
  unfold on_chain, paid_blocks, paid_cache. generalize paid_record. intros r. cbn. unfold bc_block_record. cbn.
  by rewrite lookup_insert_eq.
Qed.
Lemma paid_laws : ChainLaws paid_blocks.
Proof. apply BlockCache_laws. apply (bool_decide_unpack _). vm_compute. exact I. Qed.
Lemma paid_facts : is_transaction_block paid_record = true ∧ timestamp paid_record = Some 1000 ∧ height paid_record = 0
  ∧ hash32 (pool_puzzle_hash paid_record) ∧ hash32 (farmer_puzzle_hash paid_record).
Proof. apply (bool_decide_unpack _). vm_compute. exact I. Qed.
Lemma paid_timely : timely DEFAULT_CONSTANTS paid_blocks 3 sample_now 2000 (Some paid_record).
Proof.
  split.
  - eexists _, _. split; [vm_compute; reflexivity|]. split; [vm_compute; reflexivity|]. vm_compute. discriminate.
  - intros b tx [= <-] E. exists 1000. destruct paid_facts as (Htx&Hts&_). revert Htx Hts E. generalize paid_record.
    intros r Htx Hts E. unfold walk_back, walk_back_body in E. cbn in E. rewrite Htx in E. cbn in E. injection E as <-. by split.
Qed.
Definition made_context : HeaderContext := {|
  hc_prev_b := Some paid_record; hc_overflow := false; hc_skip_last := false; hc_finished := 0;
  hc_height := block_height_after (Some paid_record); hc_can_finish_se := false; hc_can_finish_epoch := false |}.

Lemma counting_strict : strict_runs_same.
Proof. intros m p args l c E m' flags _ _. exact E. Qed.
Lemma made_height : is_Ok (ub ← made_run; fb ← finish_run ub; assert_ (FullBlock.height fb =? 1)) = true.
Proof. vm_compute. reflexivity. Qed.
Lemma finished_height ub fb : made_run = Ok ub → finish_run ub = Ok fb → FullBlock.height fb = 1.
Proof.
  intros Eu Ef. pose proof made_height as E. rewrite Eu in E. cbn [mbind res_bind] in E. rewrite Ef in E. cbn [mbind res_bind] in E.
  destruct (Z.eqb_spec (FullBlock.height fb) 1) as [Eh|]; [exact Eh|discriminate E].
Qed.
Lemma spend_fits : spends_fit DEFAULT_CONSTANTS (Some spend_generator) spend_adds spend_rems 1.
Proof.
  split; [eexists; split; [vm_compute; reflexivity|vm_compute; discriminate]|].
  split; [vm_compute; reflexivity|]. split; [eexists; split; [vm_compute; reflexivity|vm_compute; reflexivity]|].
  split; [vm_compute; reflexivity|]. split; eexists; (split; [vm_compute; reflexivity|vm_compute; discriminate]).
Qed.

