(* ===== verification/WeightProof.v ===== *)
(** * Weight proofs: the data and their validation

    Models [chia/types/weight_proof.py] and, of [chia/full_node/weight_proof.py], the
    sampling of sub-epochs, the validation of the three parts of a proof (sub-epoch
    summaries, challenge segments of sampled sub-epochs, recent blocks), and the fork
    point it leads to.

    A proof says how heavy the chain of a peer is without its blocks: the summaries of
    all sub-epochs, committed to by the recent blocks, give the weight; sampled
    sub-epochs show that the work was done.

    Parameters: [PyMath], the C library's logarithm and power on floats, and [Rng], the
    generator of [random.Random].  The worker processes get their arguments as bytes;
    here they get the values, the conversions being inverse ([Streamable]). *)
From S2P Require Import Prelude PyInt PyFloat PyDecimal Consensus ChainView Difficulty Errors Streamable BlockTypes.
From S2P Require Import BlockToRecord HeaderValidation Chain.
From Stdlib Require Import SpecFloat.

(** ** [chia/types/weight_proof.py] *)
Module SubEpochData.
Record t := {
  reward_chain_hash : bytes;
  num_blocks_overflow : Z;
  new_sub_slot_iters : option Z;
  new_difficulty : option Z;
}.
#[global] Instance F : Fields t.
Proof.
  refine {| code := fields [B32; U8; TOptional U64; TOptional U64];
            to_val := λ x, (reward_chain_hash x, (num_blocks_overflow x, (new_sub_slot_iters x, (new_difficulty x, tt))));
            of_val := λ '(a, (b, (c, (d, _)))),
              {| reward_chain_hash := a; num_blocks_overflow := b; new_sub_slot_iters := c; new_difficulty := d |} |}.
  fields_inverse.
Defined.
End SubEpochData.

Module SubSlotData.
Record t := {
  proof_of_space : option ProofOfSpace.t;
  cc_signage_point : option VDFProof.t;
  cc_infusion_point : option VDFProof.t;
  icc_infusion_point : option VDFProof.t;
  cc_sp_vdf_info : option VDFInfo.t;
  signage_point_index : option Z;
  cc_slot_end : option VDFProof.t;
  icc_slot_end : option VDFProof.t;
  cc_slot_end_info : option VDFInfo.t;
  icc_slot_end_info : option VDFInfo.t;
  cc_ip_vdf_info : option VDFInfo.t;
  icc_ip_vdf_info : option VDFInfo.t;
  total_iters : option Z;
}.
#[global] Instance F : Fields t.
Proof.
  refine {| code := fields [TOptional (code ProofOfSpace.t); TOptional (code VDFProof.t); TOptional (code VDFProof.t);
                            TOptional (code VDFProof.t); TOptional (code VDFInfo.t); TOptional U8;
                            TOptional (code VDFProof.t); TOptional (code VDFProof.t); TOptional (code VDFInfo.t);
                            TOptional (code VDFInfo.t); TOptional (code VDFInfo.t); TOptional (code VDFInfo.t);
                            TOptional TUint128];
            to_val := λ x, (map_opt (proof_of_space x), (map_opt (cc_signage_point x), (map_opt (cc_infusion_point x),
              (map_opt (icc_infusion_point x), (map_opt (cc_sp_vdf_info x), (signage_point_index x,
              (map_opt (cc_slot_end x), (map_opt (icc_slot_end x), (map_opt (cc_slot_end_info x),
              (map_opt (icc_slot_end_info x), (map_opt (cc_ip_vdf_info x), (map_opt (icc_ip_vdf_info x),
              (total_iters x, tt)))))))))))));
            of_val := λ '(a0, (a1, (a2, (a3, (a4, (a5, (a6, (a7, (a8, (a9, (a10, (a11, (a12, _))))))))))))),
              {| proof_of_space := unmap_opt a0; cc_signage_point := unmap_opt a1; cc_infusion_point := unmap_opt a2;
                 icc_infusion_point := unmap_opt a3; cc_sp_vdf_info := unmap_opt a4; signage_point_index := a5;
                 cc_slot_end := unmap_opt a6; icc_slot_end := unmap_opt a7; cc_slot_end_info := unmap_opt a8;
                 icc_slot_end_info := unmap_opt a9; cc_ip_vdf_info := unmap_opt a10;
                 icc_ip_vdf_info := unmap_opt a11; total_iters := a12 |} |}.
  fields_inverse.
Defined.
Definition is_challenge (s : t) : bool := negb (is_None (proof_of_space s)).
Definition is_end_of_slot (s : t) : bool := negb (is_None (cc_slot_end_info s)).
End SubSlotData.

Module SubEpochChallengeSegment.
Record t := {
  sub_epoch_n : Z;
  sub_slots : list SubSlotData.t;
  rc_slot_end_info : option VDFInfo.t;
}.
#[global] Instance F : Fields t.
Proof.
  refine {| code := fields [U32; TList (code SubSlotData.t); TOptional (code VDFInfo.t)];
            to_val := λ x, (sub_epoch_n x, (map_list (sub_slots x), (map_opt (rc_slot_end_info x), tt)));
            of_val := λ '(a, (b, (c, _))),
              {| sub_epoch_n := a; sub_slots := unmap_list b; rc_slot_end_info := unmap_opt c |} |}.
  fields_inverse.
Defined.
End SubEpochChallengeSegment.

Module WeightProof.
Record t := {
  sub_epochs : list SubEpochData.t;
  sub_epoch_segments : list SubEpochChallengeSegment.t;
  recent_chain_data : list HeaderBlock.t;
}.
#[global] Instance F : Fields t.
Proof.
  refine {| code := fields [TList (code SubEpochData.t); TList (code SubEpochChallengeSegment.t);
                            TList (code HeaderBlock.t)];
            to_val := λ x, (map_list (sub_epochs x), (map_list (sub_epoch_segments x),
              (map_list (recent_chain_data x), tt)));
            of_val := λ '(a, (b, (c, _))),
              {| sub_epochs := unmap_list a; sub_epoch_segments := unmap_list b; recent_chain_data := unmap_list c |} |}.
  fields_inverse.
Defined.
End WeightProof.

(** ** Python *)
Class PyMath := {
  (** [math.log(x, base)] *)
  math_log : float → float → res float;
  (** [x ** y] *)
  float_pow : float → float → res float;
}.
Class Rng := {
  rng : Type;
  (** [random.Random(seed)] *)
  rng_new : bytes → rng;
  (** [rng.random()] *)
  rng_random : rng → float * rng;
  (** [rng.choice(range(n))] *)
  rng_choice : rng → Z → res (Z * rng);
}.

(** [enumerate(l)] *)
Definition enumerate {A} (l : list A) : list (Z * A) := imap (λ i x, (Z.of_nat i, x)) l.
(** [assert x] for an optional number *)
Definition assert_truthy (o : option Z) : res Z :=
  n ← of_opt AssertionError o; assert_ (negb (n =? 0)) ;; Ok n.
(** [l[:i]] *)
Definition py_take {A} (l : list A) (i : Z) : list A :=
  take (Z.to_nat (if i <? 0 then i + Z.of_nat (length l) else i)) l.

(** [WeightProofHandler.LAMBDA_L], [C] and [MAX_SAMPLES] *)
Definition LAMBDA_L : Z := 100.
Definition MAX_SAMPLES : nat := 20.
Definition float_C : float := S754_finite false 1 (-1).

(** ** Sampling *)
Section Sampling.
Context `{PyMath} `{Rng}.

(** One sampled weight: [uint128(int(q * float(total_weight)))] *)
Definition sample_weight (delta : float) (total_weight : Z) (r : rng) : res (Z * rng) :=
  let '(u, r) := rng_random r in
  p ← float_pow delta u;
  one ← float_of_int 1;
  total ← float_of_int total_weight;
  w ← int_of_float (float_mul (SFsub prec emax one p) total);
  w ← uint128 w;
  Ok (w, r).
Fixpoint sample_weights (delta : float) (total_weight : Z) (n : nat) (r : rng) : res (list Z * rng) :=
  match n with
  | O => Ok ([], r)
  | S n =>
      '(w, r) ← sample_weight delta total_weight r;
      '(ws, r) ← sample_weights delta total_weight n r;
      Ok (w :: ws, r)
  end.

Definition _get_weights_for_sampling (r : rng) (total_weight : Z) (recent_chain : list HeaderBlock.t) :
    res (option (list Z) * rng) :=
  last ← py_index recent_chain (-1);
  first ← py_index recent_chain 0;
  delta ← int_truediv (HeaderBlock.weight last - HeaderBlock.weight first) total_weight;
  l ← math_log float_C delta;
  one ← float_of_int 1;
  let prob_of_adv_succeeding := SFsub prec emax one l in
  if float_le prob_of_adv_succeeding (S754_zero false) then Ok (None, r)
  else
    two ← float_of_int 2;
    l2 ← math_log two prob_of_adv_succeeding;
    lambda ← float_of_int (- LAMBDA_L);
    queries ← int_of_float (float_mul lambda l2);
    '(ws, r) ← sample_weights delta total_weight (Z.to_nat (queries + 1)) r;
    Ok (Some (merge_sort Z.le ws), r).
End Sampling.

(** [choose] over the weights; [None] as a list of weights asks for every sub-epoch. *)
Fixpoint choose_weight (start_of_epoch_weight end_of_epoch_weight : Z) (weights : list Z) : bool :=
  match weights with
  | [] => false
  | w :: weights =>
      if end_of_epoch_weight <? w then false
      else if (start_of_epoch_weight <? w) && (w <? end_of_epoch_weight) then true
      else choose_weight start_of_epoch_weight end_of_epoch_weight weights
  end.
Definition _sample_sub_epoch (start_of_epoch_weight end_of_epoch_weight : Z) (weight_to_check : option (list Z)) :
    res bool :=
  match weight_to_check with
  | None => Ok true
  | Some ws =>
      last ← py_index ws (-1);
      if last <? start_of_epoch_weight then Ok false
      else
        first ← py_index ws 0;
        if end_of_epoch_weight <? first then Ok false
        else Ok (choose_weight start_of_epoch_weight end_of_epoch_weight ws)
  end.

(** The loop that collects the sampled sub-epochs, up to [MAX_SAMPLES] of them *)
Definition sampling_step (weights : list Z) (weight_to_check : option (list Z)) (sampled : gset Z) (idx : Z) :
    res (gset Z + gset Z) :=
  w0 ← py_index weights (idx - 1);
  w1 ← py_index weights idx;
  b ← _sample_sub_epoch w0 w1 weight_to_check;
  if (b : bool) then
    let sampled := {[idx - 1]} ∪ sampled in
    if bool_decide (size sampled = MAX_SAMPLES) then Ok (inr sampled) else Ok (inl sampled)
  else Ok (inl sampled).
Definition sampled_sub_epochs (weights : list Z) (weight_to_check : option (list Z)) : res (gset Z) :=
  r ← for_early (sampling_step weights weight_to_check) ∅ (seqZ 1 (Z.of_nat (length weights) - 1));
  match r with inl s | inr s => Ok s end.

(** The loop that removes the sub-epochs with segments; the state is
    [curr_sub_epoch_n] and what is left. *)
Definition segment_step (s : Z * gset Z) (segment : SubEpochChallengeSegment.t) : Z * gset Z :=
  let n := SubEpochChallengeSegment.sub_epoch_n segment in
  (n, if s.1 <? n then s.2 ∖ {[n]} else s.2).
Definition validate_sub_epoch_sampling `{PyMath} `{Rng} (r : rng) (sub_epoch_weight_list : list Z)
    (weight_proof : WeightProof.t) : res (bool * rng) :=
  tip ← py_index (WeightProof.recent_chain_data weight_proof) (-1);
  '(weight_to_check, r) ← _get_weights_for_sampling r (HeaderBlock.weight tip) (WeightProof.recent_chain_data weight_proof);
  sampled ← sampled_sub_epochs sub_epoch_weight_list weight_to_check;
  let left := (foldl segment_step (-1, sampled) (WeightProof.sub_epoch_segments weight_proof)).2 in
  Ok (bool_decide (size left = 0%nat), r).

(** [map_segments_by_sub_epoch]; the state is [curr_sub_epoch_n] and the dictionary. *)
Definition map_segment (s : Z * dict Z (list SubEpochChallengeSegment.t)) (segment : SubEpochChallengeSegment.t) :
    res (Z * dict Z (list SubEpochChallengeSegment.t)) :=
  let n := SubEpochChallengeSegment.sub_epoch_n segment in
  let '(curr, segments) := if s.1 <? n then (n, dset n [] s.2) else s in
  l ← dindex curr segments;
  Ok (curr, dset curr (l ++ [segment]) segments).
Definition map_segments_by_sub_epoch (sub_epoch_segments : list SubEpochChallengeSegment.t) :
    res (dict Z (list SubEpochChallengeSegment.t)) :=
  '(_, segments) ← for_fold map_segment (-1, []) sub_epoch_segments;
  Ok segments.

(** ** Sub-epoch summaries *)
Section Summaries.
Context `{Packages} `{StdHash} (constants : ConsensusConstants).

Definition _create_sub_epoch_data (ses : SubEpochSummary) : SubEpochData.t := {|
  SubEpochData.reward_chain_hash := reward_chain_hash ses;
  SubEpochData.num_blocks_overflow := num_blocks_overflow ses;
  SubEpochData.new_sub_slot_iters := ses_new_sub_slot_iters ses;
  SubEpochData.new_difficulty := ses_new_difficulty ses |}.
Definition summary_of (ses_hash : bytes) (data : SubEpochData.t) : SubEpochSummary := {|
  prev_subepoch_summary_hash := ses_hash;
  reward_chain_hash := SubEpochData.reward_chain_hash data;
  num_blocks_overflow := SubEpochData.num_blocks_overflow data;
  ses_new_difficulty := SubEpochData.new_difficulty data;
  ses_new_sub_slot_iters := SubEpochData.new_sub_slot_iters data |}.

(** The rounds of [_map_sub_epoch_summaries] from index [idx] on: the summaries, the
    total weight and the weights at the starts of the sub-epochs *)
Fixpoint map_summaries (sub_blocks_for_se : Z) (idx : Z) (total_weight : Z) (ses_hash : bytes) (curr_difficulty : Z)
    (sub_epoch_data : list SubEpochData.t) : res (list SubEpochSummary * Z * list Z) :=
  match sub_epoch_data with
  | [] => w ← uint128 (total_weight + curr_difficulty); Ok ([], total_weight, [w])
  | data :: rest =>
      let ses := summary_of ses_hash data in
      '(total_weight, ws) ←
        match rest with
        | next :: _ =>
            let delta := if 0 <? idx then SubEpochData.num_blocks_overflow data else 0 in
            w ← uint128 (total_weight + curr_difficulty);
            d ← uint128 (curr_difficulty * (sub_blocks_for_se + SubEpochData.num_blocks_overflow next - delta));
            Ok (total_weight + d, [w])
        | [] => Ok (total_weight, [])
        end;
      let curr_difficulty := match SubEpochData.new_difficulty data with Some d => d | None => curr_difficulty end in
      h ← hash_of ses;
      '(summaries, total, weights) ← map_summaries sub_blocks_for_se (idx + 1) total_weight h curr_difficulty rest;
      Ok (ses :: summaries, total, ws ++ weights)
  end.
Definition _map_sub_epoch_summaries (sub_blocks_for_se : Z) (ses_hash : bytes) (sub_epoch_data : list SubEpochData.t)
    (curr_difficulty : Z) : res (list SubEpochSummary * Z * list Z) :=
  map_summaries sub_blocks_for_se 0 0 ses_hash curr_difficulty sub_epoch_data.

Definition _validate_summaries_weight (sub_epoch_data_weight : Z) (summaries : list SubEpochSummary)
    (weight_proof : WeightProof.t) : res bool :=
  last ← py_index summaries (-1);
  let ses_end_height :=
    (Z.of_nat (length summaries) - 1) * SUB_EPOCH_BLOCKS constants + num_blocks_overflow last - 1 in
  let curr := foldl (λ curr block, if HeaderBlock.height block =? ses_end_height then Some block else curr) None
                (WeightProof.recent_chain_data weight_proof) in
  match curr with
  | None => Ok false
  | Some curr => Ok (HeaderBlock.weight curr =? sub_epoch_data_weight)
  end.

(** The summary hashes in the finished sub slots of a block *)
Definition slot_summary (slot : EndOfSubSlotBundle.t) : option bytes :=
  ChallengeChainSubSlot.subepoch_summary_hash (EndOfSubSlotBundle.challenge_chain slot).
Definition block_summaries (b : HeaderBlock.t) : list bytes := omap slot_summary (HeaderBlock.finished_sub_slots b).
(** The first of them from a block on, with the height of the block that has it *)
Fixpoint first_summary (chain : list HeaderBlock.t) : option (bytes * Z) :=
  match chain with
  | [] => None
  | curr :: chain =>
      match block_summaries curr with
      | h :: _ => Some (h, HeaderBlock.height curr)
      | [] => first_summary chain
      end
  end.
(** [block] is the last block of [before ++ [block]], the blocks after it are [after];
    the list is walked from its end. *)
Fixpoint last_ses_from (reversed after : list HeaderBlock.t) : res (option (bytes * Z)) :=
  match reversed with
  | [] => Ok None
  | block :: reversed =>
      m ← pymod (HeaderBlock.height block) (SUB_EPOCH_BLOCKS constants);
      match (if m =? 0 then first_summary (block :: after) else None) with
      | Some r => Ok (Some r)
      | None => last_ses_from reversed (block :: after)
      end
  end.
Definition _get_last_ses_hash (recent_reward_chain : list HeaderBlock.t) : res (option (bytes * Z)) :=
  last_ses_from (rev recent_reward_chain) [].
Definition _get_ses_idx (recent_reward_chain : list HeaderBlock.t) : list Z :=
  enumerate recent_reward_chain ≫= λ '(idx, curr), (λ _, idx) <$> block_summaries curr.

Definition _validate_sub_epoch_summaries (weight_proof : WeightProof.t) : res (option (list SubEpochSummary * list Z)) :=
  last ← _get_last_ses_hash (WeightProof.recent_chain_data weight_proof);
  match last with
  | None => Ok None
  | Some (last_ses_hash, _) =>
      '(summaries, total, sub_epoch_weight_list) ←
        _map_sub_epoch_summaries (SUB_EPOCH_BLOCKS constants) (GENESIS_CHALLENGE constants)
          (WeightProof.sub_epochs weight_proof) (DIFFICULTY_STARTING constants);
      ok ← _validate_summaries_weight total summaries weight_proof;
      if negb ok then Ok None
      else
        last_ses ← py_index summaries (-1);
        h ← hash_of last_ses;
        if bool_decide (h ≠ last_ses_hash) then Ok None else Ok (Some (summaries, sub_epoch_weight_list))
  end.
End Summaries.

(** ** Challenge segments *)
Section Segments.
Context `{Packages} `{StdHash} `{VDF : Vdf} `{PlotTools} (constants : ConsensusConstants).
Implicit Types (sub_slots : list SubSlotData.t).

Definition get_sp_total_iters (is_overflow : bool) (ssi : Z) (sub_slot_data : SubSlotData.t) : res Z :=
  info ← of_opt AssertionError (SubSlotData.cc_ip_vdf_info sub_slot_data);
  total ← of_opt AssertionError (SubSlotData.total_iters sub_slot_data);
  sp_index ← of_opt AssertionError (SubSlotData.signage_point_index sub_slot_data);
  sp_iters ← calculate_sp_iters constants ssi sp_index;
  start ← uint128 (total - VDFInfo.number_of_iterations info);
  start ← (if is_overflow then uint128 (start - ssi) else Ok start);
  Ok (start + sp_iters).

(** [ssd.total_iters] in a comparison *)
Definition iters_of (ssd : SubSlotData.t) : res Z := of_opt TypeError (SubSlotData.total_iters ssd).

(** [for ssd_idx in reversed(range(0, n))] of the first two cases of
    [sub_slot_data_vdf_input]; the value is [ssd] after the loop. *)
Fixpoint scan_slot (sub_slots : list SubSlotData.t) (sp_total_iters : Z) (n : nat) (ssd : option SubSlotData.t) :
    res (option SubSlotData.t) :=
  match n with
  | O => Ok ssd
  | S i =>
      ssd ← py_index sub_slots (Z.of_nat i);
      if SubSlotData.is_end_of_slot ssd then
        next ← py_index sub_slots (Z.of_nat i + 1); Ok (Some next)
      else
        t ← iters_of ssd;
        if negb (sp_total_iters <? t) then Ok (Some ssd) else scan_slot sub_slots sp_total_iters i (Some ssd)
  end.
(** The loop of the third case; [inr] is the return at the second end of slot. *)
Fixpoint scan_two_slots (sub_slots : list SubSlotData.t) (sp_total_iters : Z) (n : nat) (slots_seen : Z)
    (ssd : option SubSlotData.t) : res (option SubSlotData.t + unit) :=
  match n with
  | O => Ok (inl ssd)
  | S i =>
      ssd ← py_index sub_slots (Z.of_nat i);
      if SubSlotData.is_end_of_slot ssd then
        if slots_seen + 1 =? 2 then Ok (inr tt)
        else scan_two_slots sub_slots sp_total_iters i (slots_seen + 1) (Some ssd)
      else
        t ← iters_of ssd;
        if negb (sp_total_iters <? t) then Ok (inl (Some ssd))
        else scan_two_slots sub_slots sp_total_iters i slots_seen (Some ssd)
  end.
Definition output_before (sp_total_iters : Z) (ssd : SubSlotData.t) : res bytes :=
  match SubSlotData.cc_ip_vdf_info ssd with
  | Some info => t ← iters_of ssd; Ok (if t <? sp_total_iters then output_data info else default_element)
  | None => Ok default_element
  end.
Definition sub_slot_data_vdf_input (sub_slot_data : SubSlotData.t) (sub_slot_idx : Z) (sub_slots : list SubSlotData.t)
    (is_overflow new_sub_slot : bool) (ssi : Z) : res bytes :=
  sp_total_iters ← get_sp_total_iters is_overflow ssi sub_slot_data;
  match is_overflow, new_sub_slot with
  | true, true =>
      if 2 <=? sub_slot_idx then
        s ← py_index sub_slots (sub_slot_idx - 2);
        if SubSlotData.is_end_of_slot s then Ok default_element
        else
          ssd ← scan_slot sub_slots sp_total_iters (Z.to_nat (sub_slot_idx - 1)) None;
          match ssd with Some ssd => output_before sp_total_iters ssd | None => Ok default_element end
      else Ok default_element
  | false, false =>
      ssd ← scan_slot sub_slots sp_total_iters (Z.to_nat sub_slot_idx) None;
      ssd ← of_opt AssertionError ssd;
      output_before sp_total_iters ssd
  | true, false =>
      r ← scan_two_slots sub_slots sp_total_iters (Z.to_nat sub_slot_idx) 0 None;
      match r with
      | inl ssd => ssd ← of_opt AssertionError ssd; output_before sp_total_iters ssd
      | inr _ => Ok default_element
      end
  | false, true => Ok default_element
  end.

(** The input and the iterations of the VDF to the infusion point of [d], from the
    infusion point of [prev_ssd] when [from_prev] holds *)
Definition cc_ip_input (from_prev : bool) (prev_ssd : res SubSlotData.t) (d : SubSlotData.t) (info : VDFInfo.t) :
    res (bytes * VDFInfo.t) :=
  if from_prev then
    prev_ssd ← prev_ssd;
    if is_None (SubSlotData.cc_slot_end prev_ssd) then
      prev_info ← of_opt AssertionError (SubSlotData.cc_ip_vdf_info prev_ssd);
      prev_total ← assert_truthy (SubSlotData.total_iters prev_ssd);
      total ← assert_truthy (SubSlotData.total_iters d);
      ip_vdf_iters ← uint64 (total - prev_total);
      Ok (output_data prev_info, with_output (VDFInfo.challenge info) ip_vdf_iters info)
    else Ok (default_element, info)
  else Ok (default_element, info).

Definition _validate_challenge_block_vdfs (sub_slot_idx : Z) (sub_slots : list SubSlotData.t) (ssi : Z) : res bool :=
  d ← py_index sub_slots sub_slot_idx;
  sp_ok ←
    match SubSlotData.cc_signage_point d, SubSlotData.cc_sp_vdf_info d with
    | Some proof, Some info =>
        sp_index ← assert_truthy (SubSlotData.signage_point_index d);
        sp_input ←
          (if negb (VDFProof.normalized_to_identity proof) && (1 <=? sub_slot_idx) then
             is_overflow ← is_overflow_block constants sp_index;
             prev_ssd ← py_index sub_slots (sub_slot_idx - 1);
             sub_slot_data_vdf_input d sub_slot_idx sub_slots is_overflow (SubSlotData.is_end_of_slot prev_ssd) ssi
           else Ok default_element);
        Ok (is_valid constants proof sp_input info None)
    | _, _ => Ok true
    end;
  if negb sp_ok then Ok false
  else
    proof ← of_opt AssertionError (SubSlotData.cc_infusion_point d);
    info ← of_opt AssertionError (SubSlotData.cc_ip_vdf_info d);
    '(ip_input, info) ← cc_ip_input (negb (VDFProof.normalized_to_identity proof) && (1 <=? sub_slot_idx))
                          (py_index sub_slots (sub_slot_idx - 1)) d info;
    Ok (is_valid constants proof ip_input info None).

(** The end of a slot that is part of the data *)
Definition check_slot_end (prev_ssd d : SubSlotData.t) : res bool :=
  icc_ok ←
    match SubSlotData.icc_slot_end d with
    | Some proof =>
        let input := match SubSlotData.icc_ip_vdf_info prev_ssd with
                     | Some i => if VDFProof.normalized_to_identity proof then default_element else output_data i
                     | None => default_element end in
        info ← of_opt AssertionError (SubSlotData.icc_slot_end_info d);
        Ok (is_valid constants proof input info None)
    | None => Ok true
    end;
  if negb icc_ok then Ok false
  else
    info ← of_opt AssertionError (SubSlotData.cc_slot_end_info d);
    proof ← of_opt AssertionError (SubSlotData.cc_slot_end d);
    input ← (if negb (SubSlotData.is_end_of_slot prev_ssd) && negb (VDFProof.normalized_to_identity proof) then
               prev_info ← of_opt AssertionError (SubSlotData.cc_ip_vdf_info prev_ssd); Ok (output_data prev_info)
             else Ok default_element);
    Ok (is_valid constants proof input info None).

(** The loop that looks for the end of the slot: true when its proof is normalized *)
Fixpoint blue_boxed_slot (l : list SubSlotData.t) : res bool :=
  match l with
  | [] => Ok false
  | curr_slot :: l =>
      if SubSlotData.is_end_of_slot curr_slot then
        proof ← of_opt AssertionError (SubSlotData.cc_slot_end curr_slot);
        Ok (VDFProof.normalized_to_identity proof)
      else blue_boxed_slot l
  end.
(** The VDFs of a block within a slot *)
Definition check_block_vdfs (prev_ssd d : SubSlotData.t) (sub_slot_idx : Z) (sub_slots : list SubSlotData.t) (ssi : Z) :
    res bool :=
  let icc_ok :=
    match SubSlotData.icc_infusion_point d, SubSlotData.icc_ip_vdf_info d with
    | Some proof, Some info =>
        let input := match SubSlotData.icc_ip_vdf_info prev_ssd with
                     | Some i => if SubSlotData.is_challenge prev_ssd then default_element else output_data i
                     | None => default_element end in
        is_valid constants proof input info None
    | _, _ => true
    end in
  if negb icc_ok then Ok false
  else
    sp_index ← of_opt AssertionError (SubSlotData.signage_point_index d);
    sp_ok ←
      match SubSlotData.cc_signage_point d with
      | Some proof =>
          info ← of_opt AssertionError (SubSlotData.cc_sp_vdf_info d);
          input ← (if negb (VDFProof.normalized_to_identity proof) then
                     is_overflow ← is_overflow_block constants sp_index;
                     sub_slot_data_vdf_input d sub_slot_idx sub_slots is_overflow
                       (SubSlotData.is_end_of_slot prev_ssd) ssi
                   else Ok default_element);
          Ok (is_valid constants proof input info None)
      | None => Ok true
      end;
    if negb sp_ok then Ok false
    else
      info ← of_opt AssertionError (SubSlotData.cc_ip_vdf_info d);
      proof ← of_opt AssertionError (SubSlotData.cc_infusion_point d);
      '(input, info) ← cc_ip_input (negb (VDFProof.normalized_to_identity proof)) (Ok prev_ssd) d info;
      Ok (is_valid constants proof input info None).
Definition _validate_sub_slot_data (sub_slot_idx : Z) (sub_slots : list SubSlotData.t) (ssi : Z) : res bool :=
  d ← py_index sub_slots sub_slot_idx;
  assert_ (0 <? sub_slot_idx) ;;
  prev_ssd ← py_index sub_slots (sub_slot_idx - 1);
  if SubSlotData.is_end_of_slot d then check_slot_end prev_ssd d
  else
    boxed ← blue_boxed_slot (drop (Z.to_nat sub_slot_idx) (take (length sub_slots - 1) sub_slots));
    if (boxed : bool) then Ok true else check_block_vdfs prev_ssd d sub_slot_idx sub_slots ssi.

(** ** Proofs of space of segments *)

(** The last end of slot before [idx]: the loop over [reversed(range(0, idx))] *)
Fixpoint slot_end_before (sub_slots : list SubSlotData.t) (n : nat) (sub_slot : option SubSlotData.t) :
    res (option SubSlotData.t) :=
  match n with
  | O => Ok sub_slot
  | S i =>
      s ← py_index sub_slots (Z.of_nat i);
      if SubSlotData.is_end_of_slot s then Ok (Some s) else slot_end_before sub_slots i (Some s)
  end.
Definition __get_cc_sub_slot (sub_slots : list SubSlotData.t) (idx : Z) (ses : option SubEpochSummary) :
    res ChallengeChainSubSlot.t :=
  sub_slot ← slot_end_before sub_slots (Z.to_nat idx) None;
  sub_slot ← of_opt AssertionError sub_slot;
  info ← of_opt AssertionError (SubSlotData.cc_slot_end_info sub_slot);
  icc_hash ← match SubSlotData.icc_slot_end_info sub_slot with
             | Some v => h ← hash_of v; Ok (Some h)
             | None => Ok None end;
  ses_hash ← match ses with Some s => h ← hash_of s; Ok (Some h) | None => Ok None end;
  Ok {| ChallengeChainSubSlot.challenge_chain_end_of_slot_vdf := info;
        ChallengeChainSubSlot.infused_challenge_chain_sub_slot_hash := icc_hash;
        ChallengeChainSubSlot.subepoch_summary_hash := ses_hash;
        ChallengeChainSubSlot.new_sub_slot_iters := ses ≫= ses_new_sub_slot_iters;
        ChallengeChainSubSlot.new_difficulty := ses ≫= ses_new_difficulty |}.

(** [Decimal(int(difficulty) * Decimal(0.5))] as the number of iterations reads it *)
Definition halved_difficulty (difficulty : Z) : Z :=
  int_of_dec (dec_mul (dec_of_int difficulty) {| dcoef := 5; dexp := -1 |}).
Definition quality_iters (pos : ProofOfSpace.t) (challenge cc_sp_hash : bytes) (difficulty : option Z) : res (option Z) :=
  q_str ← verify_and_get_quality_string constants pos challenge cc_sp_hash;
  match q_str with
  | None => Ok None
  | Some q_str =>
      difficulty ← of_opt TypeError difficulty;
      required_iters ← calculate_iterations_quality (DIFFICULTY_CONSTANT_FACTOR constants) q_str (ProofOfSpace.size pos)
                         (halved_difficulty difficulty) cc_sp_hash;
      Ok (Some required_iters)
  end.

Definition __validate_pospace (segment : SubEpochChallengeSegment.t) (idx : Z) (curr_diff : option Z)
    (ses : option SubEpochSummary) (first_in_sub_epoch : bool) : res (option Z) :=
  let sub_slots := SubEpochChallengeSegment.sub_slots segment in
  cc_sub_slot_hash ←
    (if first_in_sub_epoch && (SubEpochChallengeSegment.sub_epoch_n segment =? 0) && (idx =? 0)
     then Ok (GENESIS_CHALLENGE constants)
     else s ← __get_cc_sub_slot sub_slots idx ses; hash_of s);
  d ← py_index sub_slots idx;
  overflow ← match SubSlotData.signage_point_index d with
             | Some i => if i =? 0 then Ok false else is_overflow_block constants i
             | None => Ok false end;
  challenge ←
    (if (overflow : bool) then
       curr_slot ← py_index sub_slots (idx - 1);
       info ← of_opt AssertionError (SubSlotData.cc_slot_end_info curr_slot);
       Ok (VDFInfo.challenge info)
     else Ok cc_sub_slot_hash);
  cc_sp_hash ← match SubSlotData.cc_sp_vdf_info d with
               | None => Ok cc_sub_slot_hash
               | Some info => hash_of (VDFInfo.output info) end;
  pos ← of_opt AssertionError (SubSlotData.proof_of_space d);
  quality_iters pos challenge cc_sp_hash curr_diff.

(** ** [_validate_segment] *)
Record SegmentState := {
  sg_ip_iters : Z;
  sg_slot_iters : Z;
  sg_slots : Z;
  sg_after_challenge : bool;
}.
(** One sub slot; [inr] is the return of [False]. *)
Definition segment_slot (segment : SubEpochChallengeSegment.t) (curr_ssi : Z) (curr_difficulty : option Z)
    (ses : option SubEpochSummary) (first_segment_in_se sampled : bool) (s : SegmentState) (x : Z * SubSlotData.t) :
    res (SegmentState + unit) :=
  let '(idx, d) := x in
  let sub_slots := SubEpochChallengeSegment.sub_slots segment in
  let next ip_iters after := Ok (inl {| sg_ip_iters := ip_iters; sg_slot_iters := sg_slot_iters s + curr_ssi;
                                        sg_slots := sg_slots s + 1; sg_after_challenge := after |}) in
  if sampled && SubSlotData.is_challenge d then
    required_iters ← __validate_pospace segment idx curr_difficulty ses first_segment_in_se;
    match required_iters with
    | None => Ok (inr tt)
    | Some required_iters =>
        sp_index ← of_opt AssertionError (SubSlotData.signage_point_index d);
        ip ← calculate_ip_iters constants curr_ssi sp_index required_iters;
        ok ← _validate_challenge_block_vdfs idx sub_slots curr_ssi;
        if negb ok then Ok (inr tt) else next (sg_ip_iters s + ip) true
    end
  else if sampled && sg_after_challenge s then
    ok ← _validate_sub_slot_data idx sub_slots curr_ssi;
    if negb ok then Ok (inr tt) else next (sg_ip_iters s) (sg_after_challenge s)
  else next (sg_ip_iters s) (sg_after_challenge s).
Definition _validate_segment (segment : SubEpochChallengeSegment.t) (curr_ssi : Z) (curr_difficulty : option Z)
    (ses : option SubEpochSummary) (first_segment_in_se sampled : bool) : res (bool * Z * Z * Z) :=
  r ← for_early (segment_slot segment curr_ssi curr_difficulty ses first_segment_in_se sampled)
        {| sg_ip_iters := 0; sg_slot_iters := 0; sg_slots := 0; sg_after_challenge := false |}
        (enumerate (SubEpochChallengeSegment.sub_slots segment));
  match r with
  | inl s => Ok (true, sg_ip_iters s, sg_slot_iters s, sg_slots s)
  | inr _ => Ok (false, 0, 0, 0)
  end.

(** ** [__get_rc_sub_slot] *)
Definition rc_loop_body (slots : list SubSlotData.t) (s : Z * Z * SubSlotData.t) :
    res (Z * Z * SubSlotData.t + Z * SubSlotData.t) :=
  let '(idx, slots_n, sub_slot) := s in
  let slots_n := if is_None (SubSlotData.cc_slot_end sub_slot) then slots_n else slots_n - 1 in
  if negb (is_None (SubSlotData.cc_slot_end sub_slot)) && (slots_n =? 0) then Ok (inr (idx, sub_slot))
  else
    next ← py_index slots (idx - 1);
    Ok (inl (idx - 1, slots_n, next)).
Definition __get_rc_sub_slot (segment : SubEpochChallengeSegment.t) (summaries : list SubEpochSummary) (curr_ssi : Z) :
    res RewardChainSubSlot.t :=
  let slots := SubEpochChallengeSegment.sub_slots segment in
  i ← uint32 (SubEpochChallengeSegment.sub_epoch_n segment - 1);
  ses ← py_index summaries i;
  '(idx, first) ← of_opt AssertionError
    (head (filter (λ x, is_None (SubSlotData.cc_slot_end x.2) = true) (enumerate slots)));
  assert_ (negb (idx =? 0)) ;;
  sp_index ← of_opt AssertionError (SubSlotData.signage_point_index first);
  overflow ← is_overflow_block constants sp_index;
  two_back ← (if overflow && (2 <=? idx) then s ← py_index slots (idx - 2); Ok (Some s) else Ok None);
  let slots_n := match two_back with
                 | Some s => if is_None (SubSlotData.cc_slot_end s) then 2 else 1
                 | None => 1 end in
  one_back ← py_index slots (idx - 1);
  h ← hash_of ses;
  let '(ses_hash, new_ssi, new_diff) :=
    match two_back with
    | Some s => if negb (is_None (SubSlotData.cc_slot_end s)) && negb (is_None (SubSlotData.cc_slot_end one_back))
                then (None, None, None)
                else (Some h, ses_new_sub_slot_iters ses, ses_new_difficulty ses)
    | None => (Some h, ses_new_sub_slot_iters ses, ses_new_difficulty ses)
    end in
  '(idx, sub_slot) ← loop (2 * length slots + 2) (rc_loop_body slots) (idx, slots_n, first);
  info ← of_opt AssertionError (SubSlotData.cc_slot_end_info sub_slot);
  rc_info ← of_opt AssertionError (SubEpochChallengeSegment.rc_slot_end_info segment);
  let at_ssi (v : VDFInfo.t) := if idx =? 0 then v else with_output (VDFInfo.challenge v) curr_ssi v in
  icc_hash ← match SubSlotData.icc_slot_end_info sub_slot with
             | Some v => h ← hash_of (at_ssi v); Ok (Some h)
             | None => Ok None end;
  cc_hash ← hash_of {|
    ChallengeChainSubSlot.challenge_chain_end_of_slot_vdf := at_ssi info;
    ChallengeChainSubSlot.infused_challenge_chain_sub_slot_hash := icc_hash;
    ChallengeChainSubSlot.subepoch_summary_hash := ses_hash;
    ChallengeChainSubSlot.new_sub_slot_iters := new_ssi;
    ChallengeChainSubSlot.new_difficulty := new_diff |};
  Ok {| RewardChainSubSlot.end_of_slot_vdf := rc_info;
        RewardChainSubSlot.challenge_chain_sub_slot_hash := cc_hash;
        RewardChainSubSlot.infused_challenge_chain_sub_slot_hash := icc_hash;
        RewardChainSubSlot.deficit := MIN_BLOCKS_PER_CHALLENGE_BLOCK constants |}.

Definition _get_curr_diff_ssi (idx : Z) (summaries : list SubEpochSummary) : option Z * Z :=
  match head (filter (λ s, is_None (ses_new_sub_slot_iters s) = false) (rev (py_take summaries idx))) with
  | Some ses => (ses_new_difficulty ses, default 0 (ses_new_sub_slot_iters ses))
  | None => (Some (DIFFICULTY_STARTING constants), SUB_SLOT_ITERS_STARTING constants)
  end.

(** ** [_validate_sub_epoch_segments]

    The sums the source takes over the segments and [prev_ssi] are not used and left
    out. *)
Record SegmentsState `{Rng} := {
  ss_rng : rng;
  ss_rc_sub_slot_hash : bytes;
  ss_prev_ses : option SubEpochSummary;
}.
Definition segment_ok (curr_ssi : Z) (curr_difficulty : option Z) (sampled_seg_index : Z)
    (prev_ses : option SubEpochSummary) (x : Z * SubEpochChallengeSegment.t) : res (option SubEpochSummary + bool) :=
  let '(idx, segment) := x in
  '(valid, _, _, _) ← _validate_segment segment curr_ssi curr_difficulty prev_ses (idx =? 0) (sampled_seg_index =? idx);
  Ok (if (valid : bool) then inl None else inr false).
Definition sub_epoch_ok `{Rng} (summaries : list SubEpochSummary) (s : SegmentsState)
    (x : Z * list SubEpochChallengeSegment.t) : res (SegmentsState + bool) :=
  let '(sub_epoch_n, segments) := x in
  let '(curr_difficulty, curr_ssi) := _get_curr_diff_ssi sub_epoch_n summaries in
  '(sampled_seg_index, r) ← rng_choice (ss_rng s) (Z.of_nat (length segments));
  '(prev_ses, rc_sub_slot_hash) ←
    (if 0 <? sub_epoch_n then
       first ← py_index segments 0;
       rc_sub_slot ← __get_rc_sub_slot first summaries curr_ssi;
       prev_ses ← py_index summaries (sub_epoch_n - 1);
       h ← hash_of rc_sub_slot;
       Ok (Some prev_ses, h)
     else Ok (ss_prev_ses s, ss_rc_sub_slot_hash s));
  summary ← py_index summaries sub_epoch_n;
  if bool_decide (reward_chain_hash summary ≠ rc_sub_slot_hash) then Ok (inr false)
  else
    r' ← for_early (segment_ok curr_ssi curr_difficulty sampled_seg_index) prev_ses (enumerate segments);
    match r' with
    | inl prev_ses => Ok (inl {| ss_rng := r; ss_rc_sub_slot_hash := rc_sub_slot_hash; ss_prev_ses := prev_ses |})
    | inr b => Ok (inr b)
    end.
Definition _validate_sub_epoch_segments `{Rng} (r : rng) (challenge_segments : list SubEpochChallengeSegment.t)
    (summaries : list SubEpochSummary) : res bool :=
  segments_by_sub_epoch ← map_segments_by_sub_epoch challenge_segments;
  r ← for_early (sub_epoch_ok summaries)
        {| ss_rng := r; ss_rc_sub_slot_hash := GENESIS_CHALLENGE constants; ss_prev_ses := None |} segments_by_sub_epoch;
  match r with inl _ => Ok true | inr b => Ok b end.
End Segments.

(** ** Recent blocks *)
Section RecentBlocks.
Context `{Packages} `{StdHash} `{VDF : Vdf} `{PlotTools}.
Context (constants : ConsensusConstants) (fuel : nat) (time_time : float).

(** A header block as [header_block_to_sub_block_record] reads it: the fields the two
    classes share. *)
Definition as_full_block (b : HeaderBlock.t) : FullBlock.t := {|
  FullBlock.finished_sub_slots := HeaderBlock.finished_sub_slots b;
  FullBlock.reward_chain_block := HeaderBlock.reward_chain_block b;
  FullBlock.challenge_chain_sp_proof := HeaderBlock.challenge_chain_sp_proof b;
  FullBlock.challenge_chain_ip_proof := HeaderBlock.challenge_chain_ip_proof b;
  FullBlock.reward_chain_sp_proof := HeaderBlock.reward_chain_sp_proof b;
  FullBlock.reward_chain_ip_proof := HeaderBlock.reward_chain_ip_proof b;
  FullBlock.infused_challenge_chain_ip_proof := HeaderBlock.infused_challenge_chain_ip_proof b;
  FullBlock.foliage := HeaderBlock.foliage b;
  FullBlock.foliage_transaction_block := HeaderBlock.foliage_transaction_block b;
  FullBlock.transactions_info := HeaderBlock.transactions_info b;
  FullBlock.transactions_generator := None;
  FullBlock.transactions_generator_ref_list := [] |}.

(** [BlockCache.get_farmer_difficulty_coeff] of a cache without [inner] *)
Definition no_inner_coeff (farmer_public_key : bytes) (height : option Z) : res decimal := Raise AttributeError.

Definition get_deficit (curr_deficit : Z) (prev_block : option BlockRecord) (overflow : bool)
    (num_finished_sub_slots : Z) : res Z :=
  match prev_block with
  | None =>
      Ok (if (1 <=? curr_deficit) && negb (overflow && (curr_deficit =? MIN_BLOCKS_PER_CHALLENGE_BLOCK constants))
          then curr_deficit - 1 else curr_deficit)
  | Some prev_b =>
      h ← uint32 (height prev_b + 1);
      calculate_deficit constants h prev_block overflow num_finished_sub_slots
  end.

Definition _validate_pospace_recent_chain (block : HeaderBlock.t) (challenge : bytes) (diff : Z) (overflow : bool)
    (prev_challenge : bytes) : res (option Z) :=
  let rcb := HeaderBlock.reward_chain_block block in
  cc_sp_hash ← match RewardChainBlock.challenge_chain_sp_vdf rcb with
               | None => Ok challenge
               | Some vdf => hash_of (VDFInfo.output vdf) end;
  quality_iters constants (RewardChainBlock.proof_of_space rcb) (if overflow then prev_challenge else challenge)
    cc_sp_hash (Some diff).

Record RecentState := {
  rb_sub_blocks : BlockCache;
  rb_ses_idx : Z;
  rb_ssi : Z;
  rb_diff : Z;
  rb_ses_blocks : Z;
  rb_sub_slots : Z;
  rb_transaction_blocks : Z;
  rb_challenge : option bytes;
  rb_prev_challenge : option bytes;
  rb_deficit : Z;
  rb_prev_block_record : option BlockRecord;
}.

(** What the sub slots a block finishes change: [challenge], [prev_challenge],
    [deficit], [ses_idx], [ssi], [diff] and whether there was a summary *)
Definition recent_slot (summaries : list SubEpochSummary) (t : RecentState * bool) (sub_slot : EndOfSubSlotBundle.t) :
    res (RecentState * bool) :=
  let '(s, ses) := t in
  let cc := EndOfSubSlotBundle.challenge_chain sub_slot in
  challenge ← hash_of cc;
  '(ses, ses_idx) ←
    match ChallengeChainSubSlot.subepoch_summary_hash cc with
    | Some summary_hash =>
        summary ← py_index summaries (rb_ses_idx s);
        h ← hash_of summary;
        assert_ (bool_decide (h = summary_hash)) ;;
        Ok (true, rb_ses_idx s + 1)
    | None => Ok (ses, rb_ses_idx s)
    end;
  Ok ({| rb_sub_blocks := rb_sub_blocks s; rb_ses_idx := ses_idx;
         rb_ssi := default (rb_ssi s) (ChallengeChainSubSlot.new_sub_slot_iters cc);
         rb_diff := default (rb_diff s) (ChallengeChainSubSlot.new_difficulty cc);
         rb_ses_blocks := rb_ses_blocks s; rb_sub_slots := rb_sub_slots s;
         rb_transaction_blocks := rb_transaction_blocks s; rb_challenge := Some challenge;
         rb_prev_challenge := rb_challenge s;
         rb_deficit := RewardChainSubSlot.deficit (EndOfSubSlotBundle.reward_chain sub_slot);
         rb_prev_block_record := rb_prev_block_record s |}, ses).

(** Whether a block is validated in full, not only its proof of space *)
Definition validated_fully (tip_height : Z) (s : RecentState) (block : HeaderBlock.t) : bool :=
  (2 <? rb_sub_slots s) && (11 <? rb_transaction_blocks s) && (tip_height - HeaderBlock.height block <? 100).

(** The required iterations, the overflow flag and the deficit of a block; [inr] is the
    return of [False]. *)
Definition recent_check (tip_height : Z) (s : RecentState) (block : HeaderBlock.t) : res (Z * bool * Z + bool) :=
  match rb_challenge s, rb_prev_challenge s with
  | Some challenge, Some prev_challenge =>
      overflow ← is_overflow_block constants (RewardChainBlock.signage_point_index (HeaderBlock.reward_chain_block block));
      deficit ← get_deficit (rb_deficit s) (rb_prev_block_record s) overflow
                  (Z.of_nat (length (HeaderBlock.finished_sub_slots block)));
      if validated_fully tip_height s block then
        r ← validate_finished_header_block constants (BlockCache_interface (rb_sub_blocks s)) fuel no_inner_coeff
              time_time block false (rb_diff s) (rb_ssi s) (2 <? rb_ses_blocks s);
        match r with
        | inl (required_iters, _) => Ok (inl (required_iters, overflow, deficit))
        | inr _ => Ok (inr false)
        end
      else
        required_iters ← _validate_pospace_recent_chain block challenge (rb_diff s) overflow prev_challenge;
        match required_iters with
        | Some required_iters => Ok (inl (required_iters, overflow, deficit))
        | None => Ok (inr false)
        end
  | _, _ => Ok (inl (0, false, rb_deficit s))
  end.

(** One round of the loop over the recent chain *)
Definition recent_block (summaries : list SubEpochSummary) (tip_height : Z) (s : RecentState) (block : HeaderBlock.t) :
    res (RecentState + bool) :=
  '(s, ses) ← for_fold (recent_slot summaries) (s, false) (HeaderBlock.finished_sub_slots block);
  r ← recent_check tip_height s block;
  match r with
  | inr b => Ok (inr b)
  | inl (required_iters, overflow, deficit) =>
      curr_block_ses ← (if (ses : bool) then x ← py_index summaries (rb_ses_idx s - 1); Ok (Some x) else Ok None);
      block_record ← header_block_to_sub_block_record constants required_iters (as_full_block block) (rb_ssi s) overflow
                       deficit (HeaderBlock.height block) curr_block_ses;
      Ok (inl {| rb_sub_blocks := bc_add_block_record (rb_sub_blocks s) block_record; rb_ses_idx := rb_ses_idx s;
                 rb_ssi := rb_ssi s; rb_diff := rb_diff s;
                 rb_ses_blocks := rb_ses_blocks s + (if (ses : bool) then 1 else 0);
                 rb_sub_slots := rb_sub_slots s + (if HeaderBlock.first_in_sub_slot block then 1 else 0);
                 rb_transaction_blocks :=
                   rb_transaction_blocks s + (if HeaderBlock.is_transaction_block block then 1 else 0);
                 rb_challenge := rb_challenge s; rb_prev_challenge := rb_prev_challenge s; rb_deficit := deficit;
                 rb_prev_block_record := Some block_record |})
  end.

(** [ssi] and [diff] before the first summary in the recent chain *)
Definition start_ssi_diff (summaries : list SubEpochSummary) : Z * Z :=
  foldl (λ '(ssi, diff) s, (default ssi (ses_new_sub_slot_iters s), default diff (ses_new_difficulty s)))
    (SUB_SLOT_ITERS_STARTING constants, DIFFICULTY_STARTING constants) summaries.

Definition _validate_recent_blocks (recent_chain_data : list HeaderBlock.t) (summaries : list SubEpochSummary) : res bool :=
  let ses_idx := Z.of_nat (length summaries) - Z.of_nat (length (_get_ses_idx recent_chain_data)) in
  let '(ssi, diff) := start_ssi_diff (py_take summaries ses_idx) in
  tip ← py_index recent_chain_data (-1);
  r ← for_early (recent_block summaries (HeaderBlock.height tip))
        {| rb_sub_blocks := {| bc_block_records := ∅; bc_height_to_hash := ∅ |}; rb_ses_idx := ses_idx; rb_ssi := ssi;
           rb_diff := diff; rb_ses_blocks := 0; rb_sub_slots := 0; rb_transaction_blocks := 0; rb_challenge := None;
           rb_prev_challenge := None; rb_deficit := 0; rb_prev_block_record := None |} recent_chain_data;
  match r with inl _ => Ok true | inr b => Ok b end.
End RecentBlocks.

(** ** The fork point *)
Section ForkPoint.
Context `{Packages} `{StdHash} (constants : ConsensusConstants) (blockchain : Chain).

(** The loop over the local summaries; the state is [fork_point_index]. *)
Definition fork_step (received_summaries : list SubEpochSummary) (fork_point_index : Z) (x : Z * Z) : res (Z + Z) :=
  let '(idx, summary_height) := x in
  local_ses ← get_ses blockchain summary_height;
  if idx =? Z.of_nat (length received_summaries) - 1 then Ok (inr fork_point_index)
  else
    h ← hash_of local_ses;
    received ← py_index received_summaries idx;
    h' ← hash_of received;
    if bool_decide (h ≠ h') then Ok (inr fork_point_index) else Ok (inl idx).
Definition get_fork_point (received_summaries : list SubEpochSummary) : res Z :=
  let ses_heights := get_ses_heights blockchain in
  r ← for_early (fork_step received_summaries) 0 (enumerate ses_heights);
  let fork_point_index := match r with inl i | inr i => i end in
  if 2 <? fork_point_index then py_index ses_heights (fork_point_index - 2) else Ok 0.
Definition get_fork_point_no_validations (weight_proof : WeightProof.t) : res (bool * Z) :=
  assert_ (bool_decide (0 < length (WeightProof.sub_epochs weight_proof))%nat) ;;
  r ← _validate_sub_epoch_summaries constants weight_proof;
  match r with
  | None => Ok (false, 0)
  | Some (summaries, _) => h ← get_fork_point summaries; Ok (true, h)
  end.
End ForkPoint.

(** ** Validation of a proof *)
Section Validate.
Context `{Packages} `{StdHash} `{VDF : Vdf} `{PlotTools} `{PyMath} `{Rng}.
Context (constants : ConsensusConstants) (fuel : nat) (time_time : float) (blockchain : Chain).

(** Up to the two validations that take long: the summaries and the generator after
    the sampling, or [None] for a refused proof *)
Definition validate_sampling (weight_proof : WeightProof.t) : res (option (list SubEpochSummary * rng)) :=
  assert_ (bool_decide (0 < length (WeightProof.sub_epochs weight_proof))%nat) ;;
  _ ← py_index (WeightProof.recent_chain_data weight_proof) (-1);
  r ← _validate_sub_epoch_summaries constants weight_proof;
  match r with
  | None => Ok None
  | Some (summaries, sub_epoch_weight_list) =>
      second_to_last ← py_index summaries (-2);
      seed ← hash_of second_to_last;
      '(ok, r) ← validate_sub_epoch_sampling (rng_new seed) sub_epoch_weight_list weight_proof;
      if negb ok then Ok None else Ok (Some (summaries, r))
  end.

Definition validate_weight_proof_single_proc (weight_proof : WeightProof.t) : res (bool * Z) :=
  s ← validate_sampling weight_proof;
  match s with
  | None => Ok (false, 0)
  | Some (summaries, r) =>
      valid_segments ← _validate_sub_epoch_segments constants r (WeightProof.sub_epoch_segments weight_proof) summaries;
      if negb valid_segments then Ok (false, 0)
      else
        valid_recent ← _validate_recent_blocks constants fuel time_time (WeightProof.recent_chain_data weight_proof)
                         summaries;
        if negb valid_recent then Ok (false, 0)
        else h ← get_fork_point blockchain summaries; Ok (true, h)
  end.

(** The two long validations run in another process; the result of the recent blocks is
    awaited first. *)
Definition validate_weight_proof (weight_proof : WeightProof.t) : res (bool * Z * list SubEpochSummary) :=
  s ← validate_sampling weight_proof;
  match s with
  | None => Ok (false, 0, [])
  | Some (summaries, r) =>
      valid_recent ← _validate_recent_blocks constants fuel time_time (WeightProof.recent_chain_data weight_proof)
                       summaries;
      if negb valid_recent then Ok (false, 0, [])
      else
        valid_segments ← _validate_sub_epoch_segments constants r (WeightProof.sub_epoch_segments weight_proof) summaries;
        if negb valid_segments then Ok (false, 0, [])
        else h ← get_fork_point blockchain summaries; Ok (true, h, summaries)
  end.
End Validate.
