(* ===== verification/WeightProofSound.v ===== *)
(** * What weight proofs guarantee

    The summaries of an accepted proof are bound by the hash the recent chain commits
    to; the sampled sub-epochs have segments; the fork point of a proof is below local
    summaries that agree with the proof; and a finding: no proof with enough recent
    blocks is ever accepted. *)
From S2P Require Import Prelude PyInt PyFloat PyDecimal Consensus ChainView Difficulty Errors Streamable BlockTypes.
From S2P Require Import BlockToRecord HeaderValidation HeaderSound Chain WeightProof.
From Stdlib Require Import SpecFloat.

(** ** Chains of summaries *)
Section Linked.
Context `{Packages} `{StdHash}.

(** Every summary names the hash of the one before it; the first names [g]. *)
Fixpoint linked (g : bytes) (ss : list SubEpochSummary) : Prop :=
  match ss with
  | [] => True
  | s :: ss => prev_subepoch_summary_hash s = g ∧ ∃ h, hash_of s = Ok h ∧ linked h ss
  end.
(** [h] is the hash the next summary has to name. *)
Definition tip_hash (g : bytes) (ss : list SubEpochSummary) (h : bytes) : Prop :=
  match last ss with None => h = g | Some s => hash_of s = Ok h end.
(** Two serialized summaries that collide *)
Definition collide (s s' : SubEpochSummary) : Prop :=
  ∃ b b', to_bytes s = Ok b ∧ to_bytes s' = Ok b' ∧ b ≠ b' ∧ std_hash b = std_hash b'.

Lemma summaries_snoc g ss s :
  linked g (ss ++ [s]) → linked g ss ∧ tip_hash g ss (prev_subepoch_summary_hash s) ∧ ∃ h, hash_of s = Ok h.
Proof.
  revert g. induction ss as [|x ss IH]; intros g; cbn.
  - intros (Hp&h&Hh&_). split_and!; [done|done|by exists h].
  - intros (Hp&h&Hh&Hl). apply IH in Hl as (Hl&Ht&Hs). split_and!; [done|by exists h| |done].
    unfold tip_hash in *. rewrite last_cons. by destruct (last ss); [|subst].
Qed.

Lemma hash_of_bytes (s : SubEpochSummary) h : hash_of s = Ok h → ∃ b, to_bytes s = Ok b ∧ h = std_hash b.
Proof. unfold hash_of, get_hash, to_bytes. intros E. res_inv. eauto. Qed.

Lemma same_hash_collides s s' h :
  well_formed s → well_formed s' → hash_of s = Ok h → hash_of s' = Ok h → s = s' ∨ collide s s'.
Proof.
  intros Hw Hw' E E'. apply hash_of_bytes in E as (b&Eb&->). apply hash_of_bytes in E' as (b'&Eb'&Eh).
  destruct (decide (b = b')) as [->|Hne]; [left|right; by exists b, b'].
  destruct (class_roundtrip s Hw) as (c&Ec&_&Pc), (class_roundtrip s' Hw') as (c'&Ec'&_&Pc'). congruence.
Qed.

(** Two chains of summaries with the same last hash are the same chain. *)
Lemma linked_same_tip g ss ss' h :
  Forall well_formed ss → Forall well_formed ss' → linked g ss → linked g ss' → tip_hash g ss h → tip_hash g ss' h →
  ss = ss' ∨ (∃ s s', s ∈ ss ∧ s' ∈ ss' ∧ collide s s') ∨ (∃ s, s ∈ ss ++ ss' ∧ hash_of s = Ok g).
Proof.
  revert ss' h. induction ss as [|s ss IH] using rev_ind; intros ss' h; induction ss' as [|s' ss' _] using rev_ind;
    intros Hw Hw' Hl Hl' Ht Ht'.
  - by left.
  - right; right. exists s'. unfold tip_hash in *. rewrite last_snoc in Ht'. cbn in Ht. subst. set_solver.
  - right; right. exists s. unfold tip_hash in *. rewrite last_snoc in Ht. cbn in Ht'. subst. set_solver.
  - apply summaries_snoc in Hl as (Hl&Hp&_), Hl' as (Hl'&Hp'&_).
    apply Forall_app in Hw as [Hw Hs], Hw' as [Hw' Hs']. rewrite Forall_singleton in Hs, Hs'.
    unfold tip_hash in Ht, Ht'. rewrite last_snoc in Ht, Ht'.
    destruct (same_hash_collides s s' h Hs Hs' Ht Ht') as [->|Hc].
    + destruct (IH ss' _ Hw Hw' Hl Hl' Hp Hp') as [->|[(x&x'&?&?&?)|(x&?&?)]]; [by left|..].
      * right; left. exists x, x'. set_solver.
      * right; right. exists x. set_solver.
    + right; left. exists s, s'. set_solver.
Qed.

(** [map_summaries] makes a chain out of the data, which it determines. *)
Lemma map_summaries_linked n idx t g d data ss total ws :
  map_summaries n idx t g d data = Ok (ss, total, ws) → linked g ss ∧ _create_sub_epoch_data <$> ss = data.
Proof.
  revert idx t g d ss total ws. induction data as [|x data IH]; intros idx t g d ss total ws E; cbn in E.
  - apply bind_Ok in E as (w&_&E). injection E as <- _ _. done.
  - apply bind_Ok in E as ([t' w]&_&E). apply bind_Ok in E as (h&Eh&E).
    apply bind_Ok in E as ([[ss' total'] ws']&E'&E). injection E as <- _ _.
    apply IH in E' as [Hl <-]. cbn. split; [by eauto|]. f_equal. by destruct x.
Qed.
Lemma summaries_well_formed g ss :
  is_bytes g → length g = 32%nat → linked g ss → Forall well_formed (_create_sub_epoch_data <$> ss) → Forall well_formed ss.
Proof.
  revert g. induction ss as [|s ss IH]; intros g Hb Hlen; cbn; [by constructor|].
  intros (Hp&h&Eh&Hl) [Hw Hws]%Forall_cons. constructor.
  - destruct s; cbn in *; subst. destruct Hw as ([??]&?&?&?&_). cbn. split_and!; first [assumption | exact I].
  - apply hash_of_bytes in Eh as (b&_&->). apply (IH (std_hash b)); auto using std_hash_bytes, std_hash_length.
Qed.
End Linked.

(** ** Accepted summaries *)
Section Accepted.
Context `{Packages} `{StdHash} (constants : ConsensusConstants).

Lemma summaries_inv wp ss ws :
  _validate_sub_epoch_summaries constants wp = Ok (Some (ss, ws)) →
  ∃ h k total, _get_last_ses_hash constants (WeightProof.recent_chain_data wp) = Ok (Some (h, k))
    ∧ _map_sub_epoch_summaries (SUB_EPOCH_BLOCKS constants) (GENESIS_CHALLENGE constants) (WeightProof.sub_epochs wp)
        (DIFFICULTY_STARTING constants) = Ok (ss, total, ws)
    ∧ _validate_summaries_weight constants total ss wp = Ok true
    ∧ linked (GENESIS_CHALLENGE constants) ss ∧ _create_sub_epoch_data <$> ss = WeightProof.sub_epochs wp
    ∧ tip_hash (GENESIS_CHALLENGE constants) ss h ∧ (0 < length ss)%nat.
Proof.
  unfold _validate_sub_epoch_summaries. intros E. apply bind_Ok in E as ([[h k]|]&El&E); [|discriminate E].
  apply bind_Ok in E as ([[ss' total] ws']&Em&E). apply bind_Ok in E as ([]&Ew&E); [|discriminate E]. cbn [negb] in E.
  apply bind_Ok in E as (l&Ei&E). apply bind_Ok in E as (h'&Eh&E).
  case_bool_decide as Hne; [discriminate E|]. injection E as -> ->. subst h'.
  destruct (map_summaries_linked _ _ _ _ _ _ _ _ _ Em) as [Hl Hd].
  exists h, k, total. split_and!; [done|done|done|done|done| |].
  - apply py_index_last in Ei. unfold tip_hash. by rewrite Ei.
  - destruct ss; cbn in *; [discriminate Ei|lia].
Qed.

(** C18. The summaries of a weight proof are bound by its recent chain: two proofs that
    are accepted up to their summaries and whose recent chains commit to the same last
    summary hash have the same sub-epochs, summaries and weights at which sub-epochs
    start, unless two of their summaries collide or one hashes to the genesis
    challenge. *)
Theorem weight_proof_binding wp wp' ss ws ss' ws' h k k' :
  is_bytes (GENESIS_CHALLENGE constants) → length (GENESIS_CHALLENGE constants) = 32%nat →
  Forall well_formed (WeightProof.sub_epochs wp) → Forall well_formed (WeightProof.sub_epochs wp') →
  _validate_sub_epoch_summaries constants wp = Ok (Some (ss, ws)) →
  _validate_sub_epoch_summaries constants wp' = Ok (Some (ss', ws')) →
  _get_last_ses_hash constants (WeightProof.recent_chain_data wp) = Ok (Some (h, k)) →
  _get_last_ses_hash constants (WeightProof.recent_chain_data wp') = Ok (Some (h, k')) →
  (WeightProof.sub_epochs wp = WeightProof.sub_epochs wp' ∧ ss = ss' ∧ ws = ws')
  ∨ (∃ s s', s ∈ ss ∧ s' ∈ ss' ∧ collide s s')
  ∨ (∃ s, s ∈ ss ++ ss' ∧ hash_of s = Ok (GENESIS_CHALLENGE constants)).
Proof.
  intros Hg Hlen Hw Hw' E E' Eh Eh'.
  destruct (summaries_inv _ _ _ E) as (x&y&total&Ex&Em&_&Hl&Hd&Ht&_).
  destruct (summaries_inv _ _ _ E') as (x'&y'&total'&Ex'&Em'&_&Hl'&Hd'&Ht'&_).
  rewrite Eh in Ex. rewrite Eh' in Ex'. injection Ex as <- <-. injection Ex' as <- <-. rewrite <-Hd in Hw. rewrite <-Hd' in Hw'.
  destruct (linked_same_tip (GENESIS_CHALLENGE constants) ss ss' h) as [<-|[Hc|Hc]];
    eauto using summaries_well_formed. left. rewrite <-Hd, <-Hd' in *. rewrite Em in Em'. by injection Em' as _ <-.
Qed.

(** A block of the recent chain carries the weight of the finished sub-epochs. *)
Lemma weight_committed total ss wp :
  _validate_summaries_weight constants total ss wp = Ok true →
  ∃ b s, b ∈ WeightProof.recent_chain_data wp ∧ last ss = Some s ∧ HeaderBlock.weight b = total
    ∧ HeaderBlock.height b = (Z.of_nat (length ss) - 1) * SUB_EPOCH_BLOCKS constants + num_blocks_overflow s - 1.
Proof.
  unfold _validate_summaries_weight. intros E. apply bind_Ok in E as (s&Es&E).
  set (f := λ (curr : option HeaderBlock.t) (block : HeaderBlock.t), _) in E.
  assert (Hf : ∀ l o b, foldl f o l = Some b → o = Some b ∨ (b ∈ l ∧ HeaderBlock.height b
    = (Z.of_nat (length ss) - 1) * SUB_EPOCH_BLOCKS constants + num_blocks_overflow s - 1)).
  { induction l as [|x l IH]; intros o b Hb; cbn in Hb; [by left|]. apply IH in Hb as [Hb|[??]]; [|right; set_solver].
    unfold f in Hb. destruct (Z.eqb_spec (HeaderBlock.height x)
      ((Z.of_nat (length ss) - 1) * SUB_EPOCH_BLOCKS constants + num_blocks_overflow s - 1)); [|by left].
    injection Hb as ->. right. set_solver. }
  destruct (foldl f None _) as [b|] eqn:Eb; [|discriminate E]. injection E as E. zbool.
  destruct (Hf _ _ _ Eb) as [?|[??]]; [done|]. exists b, s. split_and!; [done| |done|done].
  apply py_index_last in Es. done.
Qed.
End Accepted.

(** ** The fork point *)
Section Fork.
Context `{Packages} `{StdHash} (constants : ConsensusConstants) (chain : Chain).

(** The local summary number [j] has the hash of the one received. *)
Definition agree (ss : list SubEpochSummary) (j : nat) : Prop :=
  ∃ hj local received hh, get_ses_heights chain !! j = Some hj ∧ mem_summaries chain !! hj = Some local
    ∧ ss !! j = Some received ∧ hash_of local = Ok hh ∧ hash_of received = Ok hh.

Lemma ses_height_known h : h ∈ get_ses_heights chain → is_Some (mem_summaries chain !! h).
Proof.
  unfold get_ses_heights. rewrite merge_sort_Permutation. intros ([k s]&->&Hin)%list_elem_of_fmap.
  apply elem_of_map_to_list in Hin. by exists s.
Qed.
Lemma linked_hashes g ss s : linked g ss → s ∈ ss → ∃ h, hash_of s = Ok h.
Proof.
  revert g. induction ss as [|x ss IH]; intros g; [by intros _ ?%not_elem_of_nil|].
  intros (_&h&Eh&Hl) [->|Hin]%elem_of_cons; [by exists h|by eapply IH].
Qed.
Lemma well_formed_hash (s : SubEpochSummary) : well_formed s → ∃ h, hash_of s = Ok h.
Proof.
  intros Hs. destruct (class_roundtrip s Hs) as (b&Eb&_). exists (std_hash b). unfold hash_of, get_hash.
  unfold to_bytes in Eb. by rewrite Eb.
Qed.

(** One round of the loop at index [k] of the local summaries *)
Lemma fork_step_ok ss g k hj f :
  linked g ss → map_Forall (λ _ s, well_formed s) (mem_summaries chain) → (k < length ss)%nat →
  get_ses_heights chain !! k = Some hj →
  fork_step chain ss f (Z.of_nat k, hj) = Ok (inr f)
  ∨ (fork_step chain ss f (Z.of_nat k, hj) = Ok (inl (Z.of_nat k)) ∧ agree ss k ∧ (S k < length ss)%nat).
Proof.
  intros Hl Hw Hk Hj. unfold fork_step, get_ses.
  destruct (ses_height_known hj) as [local El]; [by eapply list_elem_of_lookup_2|].
  rewrite El. cbn [of_opt mbind res_bind].
  destruct (Z.eqb_spec (Z.of_nat k) (Z.of_nat (length ss) - 1)); [by left|].
  destruct (well_formed_hash local (Hw _ _ El)) as [hh Ehh]. rewrite Ehh. cbn [mbind res_bind].
  destruct (lookup_lt_is_Some_2 ss k Hk) as [received Er].
  destruct (linked_hashes g ss received Hl) as [hr Ehr]; [by eapply list_elem_of_lookup_2|].
  rewrite (proj2 (py_index_Ok ss (Z.of_nat k) received ltac:(lia))) by by rewrite Nat2Z.id.
  cbn [mbind res_bind]. rewrite Ehr. cbn [mbind res_bind].
  case_bool_decide as Hne; [by left|]. right. split_and!; [done| |lia].
  subst hr. by exists hj, local, received, hh.
Qed.

(** The whole loop from index [k] on: the last index that agrees *)
Lemma fork_loop_ok ss g l k f :
  linked g ss → map_Forall (λ _ s, well_formed s) (mem_summaries chain) → (k < length ss)%nat →
  (∀ i x, l !! i = Some x → get_ses_heights chain !! (k + i)%nat = Some x) →
  (∀ j, (j < k)%nat → agree ss j) → f = Z.of_nat (pred k) →
  ∃ r n, for_early (fork_step chain ss) f (imap (λ i x, (Z.of_nat (k + i), x)) l) = Ok r
    ∧ match r with inl i | inr i => i end = Z.of_nat (pred n) ∧ ∀ j, (j < n)%nat → agree ss j.
Proof.
  revert k f. induction l as [|hj l IH]; intros k f Hl Hw Hk Hat Hag ->; [by exists (inl (Z.of_nat (pred k))), k|].
  cbn [imap for_early]. rewrite Nat.add_0_r.
  destruct (fork_step_ok ss g k hj (Z.of_nat (pred k)) Hl Hw Hk) as [E|(E&Hk'&Hlt)].
  - rewrite <-(Nat.add_0_r k). by apply Hat.
  - exists (inr (Z.of_nat (pred k))), k. rewrite E. done.
  - rewrite E. cbn [mbind res_bind].
    destruct (IH (S k) (Z.of_nat k)) as (r&n&Er&Hr&Hn); [done|done|done| | |done|].
    + intros i x Hx. rewrite Nat.add_succ_comm. by apply Hat.
    + intros j Hj. destruct (decide (j = k)) as [->|]; [done|]. apply Hag. lia.
    + exists r, n. split_and!; [|done|done]. rewrite <-Er. f_equal. apply imap_ext. intros i x _. cbn. f_equal. lia.
Qed.

(** C32. The fork point of a proof whose summaries are accepted is found, and the node
    agrees with the proof around it: it is genesis, or the height of a local summary
    such that this one, all before it and the two after it have the hashes of the
    proof's summaries. *)
Theorem fork_point_agrees wp ss ws :
  _validate_sub_epoch_summaries constants wp = Ok (Some (ss, ws)) →
  map_Forall (λ _ s, well_formed s) (mem_summaries chain) →
  ∃ h, get_fork_point chain ss = Ok h
    ∧ (h = 0 ∨ ∃ i, get_ses_heights chain !! i = Some h ∧ ∀ j, (j <= i + 2)%nat → agree ss j).
Proof.
  intros E Hw. destruct (summaries_inv _ _ _ _ E) as (_&_&_&_&_&_&Hl&_&_&Hpos).
  destruct (fork_loop_ok ss (GENESIS_CHALLENGE constants) (get_ses_heights chain) 0 0) as (r&n&Er&Hr&Hn);
    [done|done|done|done|lia|done|].
  unfold get_fork_point, enumerate. change (λ i x, (Z.of_nat i, x)) with (λ i (x : Z), (Z.of_nat (0 + i), x)).
  rewrite Er. cbn [mbind res_bind]. rewrite Hr. destruct (Z.ltb_spec 2 (Z.of_nat (pred n))); [|by exists 0; eauto].
  destruct (Hn (pred n - 2)%nat) as (hj&_&_&_&Ehj&_); [lia|]. exists hj. split.
  - apply py_index_Ok; [lia|]. by replace (Z.to_nat (Z.of_nat (pred n) - 2)) with (pred n - 2)%nat by lia.
  - right. exists (pred n - 2)%nat. split; [done|]. intros j Hj. apply Hn. lia.
Qed.
End Fork.

(** ** Sampling *)

(** A sub-epoch is due when a weight to check lies strictly inside it. *)
Definition due (checked : option (list Z)) (w0 w1 : Z) : bool :=
  match checked with None => true | Some ws => bool_decide (Exists (λ w, w0 < w < w1) ws) end.
Definition due_at (weights : list Z) (checked : option (list Z)) (n : Z) : bool :=
  match weights !! Z.to_nat n, weights !! Z.to_nat (n + 1) with
  | Some w0, Some w1 => due checked w0 w1
  | _, _ => false
  end.
Definition due_sub_epochs (weights : list Z) (checked : option (list Z)) : list Z :=
  filter (λ n, due_at weights checked n = true) (seqZ 0 (Z.of_nat (length weights) - 1)).
Definition sorted_weights (checked : option (list Z)) : Prop :=
  match checked with None => True | Some ws => StronglySorted Z.le ws end.

Lemma choose_weight_due s e ws :
  StronglySorted Z.le ws → choose_weight s e ws = bool_decide (Exists (λ w, s < w < e) ws).
Proof.
  induction 1 as [|w ws Hs IH Hle]; [done|]. cbn [choose_weight].
  destruct (Z.ltb_spec e w); [|destruct (Z.ltb_spec s w), (Z.ltb_spec w e); cbn [andb]].
  - symmetry. apply bool_decide_eq_false. rewrite Exists_exists. intros (x&[->|Hx]%elem_of_cons&?); [lia|].
    rewrite Forall_forall in Hle. specialize (Hle _ Hx). lia.
  - symmetry. apply bool_decide_eq_true. left. lia.
  - rewrite IH. apply bool_decide_ext. rewrite Exists_cons. split; [by right|intros [?|?]; [lia|done]].
  - rewrite IH. apply bool_decide_ext. rewrite Exists_cons. split; [by right|intros [?|?]; [lia|done]].
  - rewrite IH. apply bool_decide_ext. rewrite Exists_cons. split; [by right|intros [?|?]; [lia|done]].
Qed.

(** The tests of the first and the last weight only shorten the search. *)
Lemma sample_is_due checked w0 w1 b :
  sorted_weights checked → _sample_sub_epoch w0 w1 checked = Ok b → b = due checked w0 w1.
Proof.
  destruct checked as [ws|]; cbn [sorted_weights _sample_sub_epoch due]; [|by intros _ [= <-]].
  intros Hs E. apply bind_Ok in E as (l&El&E). rewrite <-(choose_weight_due _ _ _ Hs).
  destruct (Z.ltb_spec l w0).
  - injection E as <-. symmetry. rewrite choose_weight_due by done. apply bool_decide_eq_false.
    rewrite Exists_exists. intros (x&Hx&?). apply py_index_last in El.
    apply last_Some in El as [l' ->]. apply StronglySorted_app in Hs as (Hs&_&_).
    apply elem_of_app in Hx as [Hx|Hx]; [|apply list_elem_of_singleton in Hx; lia].
    specialize (Hs x l Hx). ospecialize (Hs _); [set_solver|]. lia.
  - apply bind_Ok in E as (f&Ef&E). destruct ws as [|f' ws]; [discriminate Ef|]. injection Ef as ->.
    cbn [choose_weight]. destruct (Z.ltb_spec w1 f); [by injection E|]. injection E as <-. cbn [choose_weight].
    by rewrite (proj2 (Z.ltb_ge w1 f)) by lia.
Qed.

Lemma sampled_loop weights checked k m P r :
  sorted_weights checked → 0 <= k → k + Z.of_nat m = Z.of_nat (length weights) - 1 →
  NoDup P → Forall (λ n, n < k) P → (length P < MAX_SAMPLES)%nat →
  for_early (sampling_step weights checked) (list_to_set P) (seqZ (k + 1) (Z.of_nat m)) = Ok r →
  match r with inl s | inr s => s end
  = list_to_set (take MAX_SAMPLES (P ++ filter (λ n, due_at weights checked n = true) (seqZ k (Z.of_nat m)))).
Proof.
  intros Hs. revert k P r. induction m as [|m IH]; intros k P r Hk Hlen HP Hlt HM E.
  - rewrite seqZ_nil in E by lia. injection E as <-. rewrite seqZ_nil, filter_nil, app_nil_r, take_ge by lia. done.
  - rewrite seqZ_cons in E by lia. cbn [for_early] in E. apply bind_Ok in E as (s&E1&E).
    unfold sampling_step in E1. apply bind_Ok in E1 as (w0&Ew0&E1). apply bind_Ok in E1 as (w1&Ew1&E1).
    apply bind_Ok in E1 as (b&Eb&E1). apply (sample_is_due _ _ _ _ Hs) in Eb.
    apply py_index_Ok in Ew0; [|lia]. apply py_index_Ok in Ew1; [|lia].
    replace (k + 1 - 1) with k in * by lia.
    assert (Hd : due_at weights checked k = b) by (unfold due_at; by rewrite Ew0, Ew1).
    rewrite (seqZ_cons k) by lia. rewrite filter_cons. replace (Z.pred (Z.of_nat (S m))) with (Z.of_nat m) in * by lia.
    rewrite Hd. destruct b.
    + rewrite decide_True by done.
      assert (HP' : NoDup (P ++ [k])).
      { apply NoDup_app. split_and!; [done| |apply NoDup_singleton]. intros x Hx Hxk. apply list_elem_of_singleton in Hxk as ->.
        rewrite Forall_forall in Hlt. specialize (Hlt _ Hx). lia. }
      assert (Hset : {[k]} ∪ list_to_set P =@{gset Z} list_to_set (P ++ [k])) by set_solver.
      rewrite Hset in E1. rewrite (size_list_to_set _ HP') in E1. rewrite length_app in E1. cbn [length] in E1.
      replace (P ++ k :: filter (λ n, due_at weights checked n = true) (seqZ (Z.succ k) (Z.of_nat m)))
        with ((P ++ [k]) ++ filter (λ n, due_at weights checked n = true) (seqZ (Z.succ k) (Z.of_nat m)))
        by by rewrite <-app_assoc.
      case_bool_decide as Hfull; injection E1 as <-.
      * injection E as <-. rewrite take_app_le by (rewrite length_app; cbn; lia).
        rewrite take_ge by (rewrite length_app; cbn; lia). done.
      * apply (IH (Z.succ k)) in E; [|lia|lia|done| |rewrite length_app; cbn; unfold MAX_SAMPLES in *; lia].
        -- by rewrite E.
        -- apply Forall_app. split; [eapply Forall_impl; [done|]; cbn; lia|]. apply Forall_singleton. lia.
    + rewrite decide_False by done. injection E1 as <-.
      apply (IH (Z.succ k)) in E; [by rewrite E|lia|lia|done| |done]. eapply Forall_impl; [done|]. cbn. lia.
Qed.

Lemma sampled_are_due weights checked s :
  sorted_weights checked → sampled_sub_epochs weights checked = Ok s →
  s = list_to_set (take MAX_SAMPLES (due_sub_epochs weights checked)).
Proof.
  intros Hs E. unfold sampled_sub_epochs in E. apply bind_Ok in E as (r&E&Er).
  assert (Hr : match r with inl s | inr s => s end = s) by (destruct r; by injection Er).
  rewrite <-Hr. unfold due_sub_epochs. destruct weights as [|w weights].
  - rewrite seqZ_nil in E by (cbn; lia). injection E as <-. rewrite seqZ_nil by (cbn; lia). done.
  - cbn [length] in *. replace (Z.of_nat (S (length weights)) - 1) with (Z.of_nat (length weights)) in * by lia.
    apply (sampled_loop (w :: weights) checked 0 (length weights) [] r); cbn [length]; try done; try lia.
    + constructor.
    + unfold MAX_SAMPLES. lia.
Qed.

(** What the segments leave over was not among their sub-epochs. *)
Lemma segments_remove segs c s n :
  n ∈ s → n ∉ (foldl segment_step (c, s) segs).2 → ∃ seg, seg ∈ segs ∧ SubEpochChallengeSegment.sub_epoch_n seg = n.
Proof.
  revert c s. induction segs as [|x segs IH]; intros c s Hn Hleft; [done|]. cbn [foldl] in Hleft.
  destruct (decide (SubEpochChallengeSegment.sub_epoch_n x = n)) as [<-|Hne]; [exists x; set_solver|].
  apply IH in Hleft as (seg&?&?); [exists seg; set_solver|]. cbn. destruct (_ <? _); set_solver.
Qed.

Section SamplingTheorem.
Context `{PyMath} `{Rng}.

Lemma sampling_sorted r total chain checked r' :
  _get_weights_for_sampling r total chain = Ok (checked, r') → sorted_weights checked.
Proof.
  unfold _get_weights_for_sampling. intros E.
  do 5 apply bind_Ok in E as (?&_&E). destruct (float_le _ _); [by injection E as <- _|].
  do 4 apply bind_Ok in E as (?&_&E). apply bind_Ok in E as ([ws ?]&_&E). injection E as <- _. cbn.
  apply StronglySorted_merge_sort; [apply _|intros a b; lia].
Qed.

(** C31. Sampling is enforced: a proof that passes it has, for each of the first
    [MAX_SAMPLES] sub-epochs with a sampled weight strictly inside, a segment of that
    sub-epoch; the weights are those drawn from the seed for the weight of the tip. *)
Theorem sampled_sub_epochs_have_segments r weights wp r' :
  validate_sub_epoch_sampling r weights wp = Ok (true, r') →
  ∃ tip checked,
    last (WeightProof.recent_chain_data wp) = Some tip
    ∧ _get_weights_for_sampling r (HeaderBlock.weight tip) (WeightProof.recent_chain_data wp) = Ok (checked, r')
    ∧ ∀ n, n ∈ take MAX_SAMPLES (due_sub_epochs weights checked) →
        ∃ seg, seg ∈ WeightProof.sub_epoch_segments wp ∧ SubEpochChallengeSegment.sub_epoch_n seg = n.
Proof.
  unfold validate_sub_epoch_sampling. intros E. apply bind_Ok in E as (tip&Et&E).
  apply bind_Ok in E as ([checked r1]&Ew&E). apply bind_Ok in E as (s&Es&E). injection E as El <-.
  exists tip, checked. split_and!; [by apply py_index_last|done|]. intros n Hn.
  apply sampled_are_due in Es; [|by eapply sampling_sorted].
  apply bool_decide_eq_true in El. apply size_empty_inv in El.
  apply (segments_remove (WeightProof.sub_epoch_segments wp) (-1) s); [|set_solver].
  subst s. by apply elem_of_list_to_set.
Qed.
End SamplingTheorem.

(** ** Recent blocks *)
Section Recent.
Context `{Packages} `{StdHash} `{VDF : Vdf} `{PlotTools} (constants : ConsensusConstants) (fuel : nat) (time_time : float).

Definition opens_slot (b : HeaderBlock.t) : Z := if HeaderBlock.first_in_sub_slot b then 1 else 0.
Definition is_tx (b : HeaderBlock.t) : Z := if HeaderBlock.is_transaction_block b then 1 else 0.
Definition count_of (f : HeaderBlock.t → Z) (l : list HeaderBlock.t) : Z := foldr (λ b n, f b + n) 0 l.

(** The challenges are known once [m] sub slots were finished. *)
Definition challenges_known (m : Z) (s : RecentState) : Prop :=
  (0 < m → is_Some (rb_challenge s)) ∧ (1 < m → is_Some (rb_prev_challenge s)).

(** Without the inner chain the coefficient of the farmer is not found, and no header is
    accepted. *)
Lemma no_inner_refuses blocks hb check_filter d ssi check_ses x :
  validate_finished_header_block constants blocks fuel no_inner_coeff time_time hb check_filter d ssi check_ses
  ≠ Ok (inl x).
Proof.
  intros E. unfold validate_finished_header_block, v_bind in E. apply bind_Ok in E as ([[required coeff]|]&Eu&E); [|done].
  apply unfinished_inv in Eu as (c&sp_iters&ip_iters&Ha). destruct Ha. destruct ac_pos as (h&Epos).
  unfold check_proof_of_space in Epos. apply bind_Ok in Epos as (ch&_&Epos).
  destruct (bool_decide _); [discriminate Epos|]. apply bind_Ok in Epos as (sp&_&Epos).
  apply bind_Ok in Epos as ([q|]&_&Epos); [|discriminate Epos]. destruct (_ <=? _); discriminate Epos.
Qed.

Lemma recent_slot_ok summaries s ses x s' ses' m :
  recent_slot summaries (s, ses) x = Ok (s', ses') → challenges_known m s →
  rb_sub_slots s' = rb_sub_slots s ∧ rb_transaction_blocks s' = rb_transaction_blocks s ∧ challenges_known (m + 1) s'.
Proof.
  unfold recent_slot. intros E [H0' H1']. apply bind_Ok in E as (ch&_&E). apply bind_Ok in E as ([? ?]&_&E).
  injection E as <- _. cbn. split_and!; [done|done|]. split; cbn; [by eauto|]. intros Hm. apply H0'. lia.
Qed.
Lemma recent_slots_ok summaries slots s ses s' ses' m :
  for_fold (recent_slot summaries) (s, ses) slots = Ok (s', ses') → challenges_known m s →
  rb_sub_slots s' = rb_sub_slots s ∧ rb_transaction_blocks s' = rb_transaction_blocks s
  ∧ challenges_known (m + Z.of_nat (length slots)) s'.
Proof.
  revert s ses m. induction slots as [|x slots IH]; intros s ses m E Hm; cbn [for_fold] in E.
  - injection E as <- <-. by rewrite Z.add_0_r.
  - apply bind_Ok in E as ([s1 ses1]&E1&E). apply (recent_slot_ok _ _ _ _ _ _ m) in E1 as (<-&<-&Hm1); [|done].
    destruct (IH _ _ _ E Hm1) as (->&->&Hm'). split_and!; [done|done|]. cbn [length].
    by replace (m + Z.of_nat (S (length slots))) with (m + 1 + Z.of_nat (length slots)) by lia.
Qed.
Lemma challenges_weaken m m' s : m' <= m → challenges_known m s → challenges_known m' s.
Proof. intros ? [??]. split; intros; auto with lia. Qed.

Lemma recent_check_fails tip_height s block :
  challenges_known 2 s → validated_fully tip_height s block = true →
  ∀ r, recent_check constants fuel time_time tip_height s block = Ok r → r = inr false.
Proof.
  intros [[ch Hch] [pch Hpch]] Hfull r E; [lia|lia|]. unfold recent_check in E. rewrite Hch, Hpch in E.
  apply bind_Ok in E as (ov&_&E). apply bind_Ok in E as (df&_&E). rewrite Hfull in E.
  apply bind_Ok in E as ([[required c]|e]&E1&E); [by apply no_inner_refuses in E1|]. by injection E as <-.
Qed.
Lemma recent_check_false tip_height s block b :
  recent_check constants fuel time_time tip_height s block = Ok (inr b) → b = false.
Proof.
  unfold recent_check. intros E. destruct (rb_challenge s), (rb_prev_challenge s); try discriminate E.
  apply bind_Ok in E as (ov&_&E). apply bind_Ok in E as (df&_&E). destruct (validated_fully _ _ _).
  - apply bind_Ok in E as ([[required c]|e]&_&E); [discriminate E|by injection E].
  - apply bind_Ok in E as ([required|]&_&E); [discriminate E|by injection E].
Qed.

(** A block the loop goes past counts, and its sub slots give challenges. *)
Lemma recent_block_ok summaries tip_height s block r :
  recent_block constants fuel time_time summaries tip_height s block = Ok r → challenges_known (rb_sub_slots s) s →
  match r with
  | inl s' => rb_sub_slots s' = rb_sub_slots s + opens_slot block
              ∧ rb_transaction_blocks s' = rb_transaction_blocks s + is_tx block
              ∧ challenges_known (rb_sub_slots s') s'
  | inr b => b = false
  end.
Proof.
  unfold recent_block. intros E Hc. apply bind_Ok in E as ([s1 ses]&E1&E). apply bind_Ok in E as (rc&E2&E).
  destruct (recent_slots_ok _ _ _ _ _ _ _ E1 Hc) as (Es&Et&Hc1).
  destruct rc as [[[required ov] df]|b]; [|apply recent_check_false in E2; by injection E as <-].
  apply bind_Ok in E as (cs&_&E). apply bind_Ok in E as (rec&_&E). injection E as <-. cbn.
  rewrite Es, Et. split_and!; [done|done|]. eapply challenges_weaken; [|exact Hc1].
  unfold opens_slot, HeaderBlock.first_in_sub_slot. destruct (HeaderBlock.finished_sub_slots block); cbn [length]; lia.
Qed.
Lemma recent_blocks_ok summaries tip_height l s r :
  for_early (recent_block constants fuel time_time summaries tip_height) s l = Ok r →
  challenges_known (rb_sub_slots s) s →
  match r with
  | inl s' => rb_sub_slots s' = rb_sub_slots s + count_of opens_slot l
              ∧ rb_transaction_blocks s' = rb_transaction_blocks s + count_of is_tx l
              ∧ challenges_known (rb_sub_slots s') s'
  | inr b => b = false
  end.
Proof.
  revert s r. induction l as [|x l IH]; intros s r E Hc; cbn [for_early] in E.
  - injection E as <-. cbn. by rewrite !Z.add_0_r.
  - apply bind_Ok in E as (r1&E1&E). apply recent_block_ok in E1; [|done].
    destruct r1 as [s1|b]; [|by injection E as <-]. destruct E1 as (Es&Et&Hc1).
    apply IH in E; [|done]. destruct r as [s'|]; [|done]. destruct E as (?&?&?).
    unfold count_of in *. cbn [foldr]. split_and!; [lia|lia|done].
Qed.

(** The last block of a long enough recent chain is validated in full and refused. *)
Lemma recent_tip_refused summaries l tip :
  2 < count_of opens_slot l → 11 < count_of is_tx l →
  _validate_recent_blocks constants fuel time_time (l ++ [tip]) summaries ≠ Ok true.
Proof.
  intros Hslots Htx E. unfold _validate_recent_blocks in E. destruct (start_ssi_diff _ _) as [ssi diff].
  apply bind_Ok in E as (tip'&Etip&E). apply py_index_last in Etip. rewrite last_snoc in Etip. injection Etip as <-.
  apply bind_Ok in E as (r&E1&E). rewrite for_early_app in E1. apply bind_Ok in E1 as (r1&E1&E2).
  apply recent_blocks_ok in E1; [|split; cbn; lia].
  destruct r1 as [s|b]; [|subst b; injection E2 as <-; discriminate E]. destruct E1 as (Es&Et&Hc). cbn in Es, Et.
  cbn [for_early] in E2. apply bind_Ok in E2 as (r2&E2&E3). unfold recent_block in E2.
  apply bind_Ok in E2 as ([s1 ses]&E4&E2). apply bind_Ok in E2 as (rc&E5&E2).
  destruct (recent_slots_ok _ _ _ _ _ _ _ E4 Hc) as (Es1&Et1&Hc1).
  apply recent_check_fails in E5; [|eapply challenges_weaken; [|exact Hc1]; lia|].
  - subst rc. injection E2 as <-. injection E3 as <-. discriminate E.
  - unfold validated_fully. rewrite Es1, Et1, Es, Et, Z.sub_diag.
    rewrite (proj2 (Z.ltb_lt 2 _)), (proj2 (Z.ltb_lt 11 _)) by lia. done.
Qed.

(** No weight proof with a recent chain of the usual length is accepted: when more
    than two blocks before the tip open a sub slot and more than eleven are transaction
    blocks, the tip is validated in full against a cache that cannot tell the farmer's
    coefficient, and neither validation returns true. *)
Theorem weight_proof_never_accepted `{PyMath} `{Rng} (chain : Chain) wp l tip h ss :
  WeightProof.recent_chain_data wp = l ++ [tip] → 2 < count_of opens_slot l → 11 < count_of is_tx l →
  validate_weight_proof constants fuel time_time chain wp ≠ Ok (true, h, ss)
  ∧ validate_weight_proof_single_proc constants fuel time_time chain wp ≠ Ok (true, h).
Proof.
  intros Hwp Hslots Htx. split; intros E.
  - unfold validate_weight_proof in E. apply bind_Ok in E as ([[ss' r]|]&_&E); [|discriminate E].
    apply bind_Ok in E as ([]&Er&E); [|discriminate E]. rewrite Hwp in Er. exact (recent_tip_refused ss' l tip Hslots Htx Er).
  - unfold validate_weight_proof_single_proc in E. apply bind_Ok in E as ([[ss' r]|]&_&E); [|discriminate E].
    apply bind_Ok in E as ([]&_&E); [|discriminate E]. cbn [negb] in E.
    apply bind_Ok in E as ([]&Er&E); [|discriminate E]. rewrite Hwp in Er. exact (recent_tip_refused ss' l tip Hslots Htx Er).
Qed.
End Recent.

(** ** Challenge segments *)

(** A loop that does not leave early went through every element. *)
Lemma for_early_at {A S R} (f : S → A → res (S + R)) s l s' i x :
  for_early f s l = Ok (inl s') → l !! i = Some x →
  ∃ s1 s2, for_early f s (take i l) = Ok (inl s1) ∧ f s1 x = Ok (inl s2).
Proof.
  intros E Hx. rewrite <-(take_drop_middle l i x Hx), for_early_app in E.
  apply bind_Ok in E as ([s1|]&E1&E); [|discriminate E]. cbn [for_early] in E.
  apply bind_Ok in E as ([s2|]&E2&E); [|discriminate E]. by exists s1, s2.
Qed.
Lemma lookup_enumerate {A} (l : list A) i x : l !! i = Some x → enumerate l !! i = Some (Z.of_nat i, x).
Proof. intros Hx. unfold enumerate. rewrite list_lookup_imap, Hx. done. Qed.

Lemma dset_last {V} (d : dict Z V) k v v' : Forall (λ x, x.1 < k) d → dset k v' (d ++ [(k, v)]) = d ++ [(k, v')].
Proof.
  induction 1 as [|[k' w] d Hk _ IH]; cbn in *; case_decide; [done|done|lia|by rewrite IH].
Qed.
Lemma dget_last {V} (d : dict Z V) k v : Forall (λ x, x.1 < k) d → dget k (d ++ [(k, v)]) = Some v.
Proof.
  induction 1 as [|[k' w] d Hk _ IH]; cbn in *; case_decide; [done|done|lia|done].
Qed.
Lemma dset_new {V} (d : dict Z V) k v : Forall (λ x, x.1 < k) d → dset k v d = d ++ [(k, v)].
Proof. induction 1 as [|[k' w] d Hk _ IH]; cbn in *; [done|]. case_decide; [lia|by rewrite IH]. Qed.

(** The segments in order, grouped under increasing numbers *)
Inductive grouped : Z → dict Z (list SubEpochChallengeSegment.t) → list SubEpochChallengeSegment.t → Prop :=
  | grouped_nil : grouped (-1) [] []
  | grouped_snoc c d segs n l :
      grouped c d segs → c < n → l ≠ [] → grouped n (d ++ [(n, l)]) (segs ++ l).

Lemma grouped_below c d segs n : grouped c d segs → c < n → Forall (λ x, x.1 < n) d.
Proof.
  intros Hg. revert n. induction Hg as [|c d segs m l Hg IH Hlt Hl]; intros n Hn; [constructor|].
  apply Forall_app. split; [apply IH; lia|]. apply Forall_singleton. cbn. lia.
Qed.
Lemma map_segment_ok c d segs x r :
  grouped c d segs → map_segment (c, d) x = Ok r → grouped r.1 r.2 (segs ++ [x]).
Proof.
  intros Hg E. unfold map_segment in E. cbn [fst snd] in E. destruct (Z.ltb_spec c (SubEpochChallengeSegment.sub_epoch_n x)).
  - set (n := SubEpochChallengeSegment.sub_epoch_n x) in *. pose proof (grouped_below _ _ _ n Hg ltac:(lia)) as Hb.
    apply bind_Ok in E as (l&El&E). unfold dindex in El. rewrite dset_new, dget_last in El by done. injection El as <-.
    injection E as <-. cbn [fst snd app]. rewrite (dset_new d), dset_last by done. by apply (grouped_snoc c).
  - apply bind_Ok in E as (l&El&E). injection E as <-. cbn [fst snd]. destruct Hg as [|c d segs n l' Hg Hlt Hl]; [discriminate El|].
    pose proof (grouped_below _ _ _ n Hg Hlt) as Hb. unfold dindex in El. rewrite dget_last in El by done.
    injection El as <-. rewrite dset_last by done. rewrite <-app_assoc. apply (grouped_snoc c); [done|done|].
    by destruct l'.
Qed.
Lemma map_segments_ok segs d : map_segments_by_sub_epoch segs = Ok d → ∃ c, grouped c d segs.
Proof.
  unfold map_segments_by_sub_epoch. intros E. apply bind_Ok in E as ([c d']&E&Ed). injection Ed as ->. exists c.
  assert (Hf : ∀ l c0 d0 segs0, grouped c0 d0 segs0 → for_fold map_segment (c0, d0) l = Ok (c, d) → grouped c d (segs0 ++ l)).
  { induction l as [|x l IH]; intros c0 d0 segs0 Hg E0; cbn [for_fold] in E0.
    - injection E0 as -> ->. by rewrite app_nil_r.
    - apply bind_Ok in E0 as ([c1 d1]&E1&E0). apply (map_segment_ok _ _ _ _ _ Hg) in E1. cbn in E1.
      rewrite (app_assoc segs0 [x] l : segs0 ++ x :: l = _). by apply (IH c1 d1). }
  exact (Hf segs (-1) [] [] grouped_nil E).
Qed.

Section SegmentsTheorem.
Context `{Packages} `{StdHash} `{VDF : Vdf} `{PlotTools} `{Rng} (constants : ConsensusConstants).

(** A sampled segment: every challenge block in it has a proof of space of the quality
    asked for, and valid proofs of time to its signage and infusion points. *)
Definition challenges_proved (segment : SubEpochChallengeSegment.t) (ssi : Z) (diff : option Z)
    (ses : option SubEpochSummary) (first : bool) : Prop :=
  ∀ idx d, SubEpochChallengeSegment.sub_slots segment !! idx = Some d → SubSlotData.is_challenge d = true →
    (∃ required, __validate_pospace constants segment (Z.of_nat idx) diff ses first = Ok (Some required))
    ∧ _validate_challenge_block_vdfs constants (Z.of_nat idx) (SubEpochChallengeSegment.sub_slots segment) ssi = Ok true.
(** What is checked of the sub-epoch [n] with its segments [l] *)
Definition sub_epoch_proved (ss : list SubEpochSummary) (n : Z) (l : list SubEpochChallengeSegment.t) : Prop :=
  ∃ summary ses diff ssi i segment,
    ss !! Z.to_nat n = Some summary ∧ _get_curr_diff_ssi constants n ss = (diff, ssi)
    ∧ (if 0 <? n then
         ∃ first rc prev, head l = Some first ∧ __get_rc_sub_slot constants first ss ssi = Ok rc
           ∧ hash_of rc = Ok (reward_chain_hash summary) ∧ ss !! Z.to_nat (n - 1) = Some prev ∧ ses = Some prev
       else reward_chain_hash summary = GENESIS_CHALLENGE constants ∧ ses = None)
    ∧ l !! i = Some segment
    ∧ challenges_proved segment ssi diff (if bool_decide (i = 0%nat) then ses else None) (bool_decide (i = 0%nat)).

Lemma segment_proved segment ssi diff ses first a b c :
  _validate_segment constants segment ssi diff ses first true = Ok (true, a, b, c) →
  challenges_proved segment ssi diff ses first.
Proof.
  unfold _validate_segment. intros E idx d Hd Hch. apply bind_Ok in E as ([s|]&E&Et); [|discriminate Et].
  destruct (for_early_at _ _ _ _ _ _ E (lookup_enumerate _ _ _ Hd)) as (s1&s2&_&Es).
  unfold segment_slot in Es. rewrite Hch in Es. cbn [andb] in Es.
  apply bind_Ok in Es as ([required|]&Ep&Es); [|discriminate Es]. apply bind_Ok in Es as (spi&_&Es).
  apply bind_Ok in Es as (ip&_&Es). apply bind_Ok in Es as ([]&Ev&Es); [|discriminate Es]. split; [by exists required|done].
Qed.
(** After the first segment the summary is not used any more. *)
Lemma segment_states ssi diff k l prev s :
  for_early (segment_ok constants ssi diff k) prev l = Ok (inl s) → s = match l with [] => prev | _ => None end.
Proof.
  revert prev. induction l as [|[i x] l IH]; intros prev E; cbn [for_early] in E; [by injection E|].
  apply bind_Ok in E as ([p|]&E1&E); [|discriminate E]. unfold segment_ok in E1.
  apply bind_Ok in E1 as ([[[[] ?] ?] ?]&_&E1); [|discriminate E1]. injection E1 as <-. apply IH in E as ->. by destruct l.
Qed.
Lemma sampled_segment_proved ssi diff i l prev s segment :
  for_early (segment_ok constants ssi diff (Z.of_nat i)) prev (enumerate l) = Ok (inl s) → l !! i = Some segment →
  challenges_proved segment ssi diff (if bool_decide (i = 0%nat) then prev else None) (bool_decide (i = 0%nat)).
Proof.
  intros E Hi. destruct (for_early_at _ _ _ _ _ _ E (lookup_enumerate _ _ _ Hi)) as (s1&s2&E1&E2).
  apply segment_states in E1. unfold segment_ok in E2. rewrite Z.eqb_refl in E2.
  apply bind_Ok in E2 as ([[[v ?] ?] ?]&E2&Ev). destruct v; [|discriminate Ev]. apply segment_proved in E2.
  assert (Hlt : (i < length l)%nat) by by eapply lookup_lt_Some.
  replace (Z.of_nat i =? 0) with (bool_decide (i = 0%nat)) in E2
    by (case_bool_decide; subst; [done|symmetry; apply Z.eqb_neq; lia]).
  subst s1. destruct i as [|i]; [done|]. rewrite bool_decide_false in * by done.
  destruct l as [|y l]; [cbn in Hlt; lia|]. done.
Qed.
Lemma sub_epoch_step ss s n l s' :
  (∀ r n i r', rng_choice r n = Ok (i, r') → 0 <= i < n) →
  sub_epoch_ok constants ss s (n, l) = Ok (inl s') → 0 <= n →
  (n = 0 → ss_rc_sub_slot_hash s = GENESIS_CHALLENGE constants ∧ ss_prev_ses s = None) → sub_epoch_proved ss n l.
Proof.
  intros Hrng E Hn Hzero. unfold sub_epoch_ok in E. destruct (_get_curr_diff_ssi constants n ss) as [diff ssi] eqn:Eds.
  apply bind_Ok in E as ([i r]&Ei&E). apply Hrng in Ei. apply bind_Ok in E as ([ses h]&Eh&E).
  apply bind_Ok in E as (summary&Es&E). apply py_index_Ok in Es; [|done].
  case_bool_decide as Hh; [discriminate E|]. apply bind_Ok in E as ([p|]&E&E'); [|discriminate E'].
  destruct (lookup_lt_is_Some_2 l (Z.to_nat i)) as [segment Hseg]; [lia|].
  rewrite <-(Z2Nat.id i) in E by lia. pose proof (sampled_segment_proved _ _ _ _ _ _ _ E Hseg) as Hp.
  exists summary, ses, diff, ssi, (Z.to_nat i), segment. split_and!; [done|done| |done|done].
  destruct (Z.ltb_spec 0 n).
  - apply bind_Ok in Eh as (first&Ef&Eh). apply bind_Ok in Eh as (rc&Erc&Eh). apply bind_Ok in Eh as (prev&Ep&Eh).
    apply bind_Ok in Eh as (h'&Eh'&Eh). injection Eh as <- <-. apply py_index_Ok in Ep; [|lia].
    exists first, rc, prev. split_and!; [|done| |done|done].
    + by destruct l; [discriminate Ef|injection Ef as ->].
    + by rewrite Eh', Hh.
  - destruct (Hzero ltac:(lia)) as [Hg Hse]. injection Eh as <- <-. split; [|done]. congruence.
Qed.
Lemma grouped_nonneg c d segs i n l : grouped c d segs → d !! i = Some (n, l) → 0 <= n ∧ (n = 0 → i = 0%nat).
Proof.
  intros Hg. revert i n l. induction Hg as [|c d segs m l' Hg IH Hlt Hl]; intros i n l Hi; [done|].
  assert (Hc : -1 <= c ∧ (c = -1 → d = [])).
  { clear -Hg. induction Hg as [|c d segs m l' Hg IH Hlt Hl]; [split; [lia|done]|]. split; lia. }
  apply lookup_app_Some in Hi as [Hi|[Hge Hi]]; [by apply IH in Hi|].
  apply list_lookup_singleton_Some in Hi as [Hz [= -> ->]]. split; [lia|]. intros ->.
  destruct Hc as [? Hd]. rewrite Hd in Hz by lia. cbn in Hz. lia.
Qed.
Lemma sub_epochs_false ss s l b : for_early (sub_epoch_ok constants ss) s l = Ok (inr b) → b = false.
Proof.
  revert s. induction l as [|[n segs] l IH]; intros s E; cbn [for_early] in E; [discriminate E|].
  apply bind_Ok in E as ([s1|b1]&E1&E); [by eapply IH|]. injection E as ->. unfold sub_epoch_ok in E1.
  destruct (_get_curr_diff_ssi constants n ss) as [diff ssi]. apply bind_Ok in E1 as ([? ?]&_&E1).
  apply bind_Ok in E1 as ([ses h]&_&E1). apply bind_Ok in E1 as (summary&_&E1).
  destruct (bool_decide _); [by injection E1|]. apply bind_Ok in E1 as ([p|b1]&E2&E1); [discriminate E1|].
  injection E1 as ->. clear -E2. revert ses E2. generalize (enumerate segs). intros l. induction l as [|[i x] l IH];
    intros ses E2; cbn [for_early] in E2; [discriminate E2|]. apply bind_Ok in E2 as ([p|b1]&E3&E2); [by eapply IH|].
  injection E2 as ->. unfold segment_ok in E3. apply bind_Ok in E3 as ([[[[] ?] ?] ?]&_&E3); by injection E3.
Qed.

(** C19. Accepted segments prove work: they are grouped without loss under increasing
    sub-epoch numbers, each sub-epoch's summary commits to the reward chain slot
    recomputed from its first segment (or to genesis), and in one segment of it, the
    one the generator chose, every challenge block has a valid proof of space and
    proofs of time. *)
Theorem accepted_segments_prove_work r segs ss :
  (∀ r n i r', rng_choice r n = Ok (i, r') → 0 <= i < n) →
  _validate_sub_epoch_segments constants r segs ss = Ok true →
  ∃ d, map_segments_by_sub_epoch segs = Ok d ∧ (∃ c, grouped c d segs)
    ∧ ∀ i n l, d !! i = Some (n, l) → sub_epoch_proved ss n l.
Proof.
  intros Hrng E. unfold _validate_sub_epoch_segments in E. apply bind_Ok in E as (d&Ed&E).
  apply bind_Ok in E as ([s|b]&E&Eb); [|apply sub_epochs_false in E as ->; discriminate Eb].
  destruct (map_segments_ok _ _ Ed) as [c Hg]. exists d. split_and!; [done|by exists c|]. intros i n l Hi.
  destruct (for_early_at _ _ _ _ _ _ E Hi) as (s1&s2&E1&E2). destruct (grouped_nonneg _ _ _ _ _ _ Hg Hi) as [Hn Hzero].
  apply (sub_epoch_step ss s1 n l s2 Hrng E2 Hn). intros Hz. rewrite (Hzero Hz) in E1. cbn in E1. by injection E1 as <-.
Qed.
End SegmentsTheorem.

(** ** On concrete proofs

    Six sub-epochs; the recent chain is the last block of the finished ones and the
    block after it, which commits to the last summary.  The node knows the same
    summaries. *)
Definition finished_slot (summary : option bytes) : EndOfSubSlotBundle.t := {|
  EndOfSubSlotBundle.challenge_chain := {|
    ChallengeChainSubSlot.challenge_chain_end_of_slot_vdf := sample_vdf;
    ChallengeChainSubSlot.infused_challenge_chain_sub_slot_hash := None; ChallengeChainSubSlot.subepoch_summary_hash := summary;
    ChallengeChainSubSlot.new_sub_slot_iters := None; ChallengeChainSubSlot.new_difficulty := None |};
  EndOfSubSlotBundle.infused_challenge_chain := None;
  EndOfSubSlotBundle.reward_chain := {|
    RewardChainSubSlot.end_of_slot_vdf := sample_vdf; RewardChainSubSlot.challenge_chain_sub_slot_hash := replicate 32 1;
    RewardChainSubSlot.infused_challenge_chain_sub_slot_hash := None; RewardChainSubSlot.deficit := 16 |};
  EndOfSubSlotBundle.proofs := {|
    SubSlotProofs.challenge_chain_slot_proof := sample_vdf_proof; SubSlotProofs.infused_challenge_chain_slot_proof := None;
    SubSlotProofs.reward_chain_slot_proof := sample_vdf_proof |} |}.
Definition recent_header (h : Z) (slots : list EndOfSubSlotBundle.t) : HeaderBlock.t :=
  let b := sample_full_block 0 h [] (Some []) in {|
  HeaderBlock.finished_sub_slots := slots;
  HeaderBlock.reward_chain_block := FullBlock.reward_chain_block b;
  HeaderBlock.challenge_chain_sp_proof := None; HeaderBlock.challenge_chain_ip_proof := sample_vdf_proof;
  HeaderBlock.reward_chain_sp_proof := None; HeaderBlock.reward_chain_ip_proof := sample_vdf_proof;
  HeaderBlock.infused_challenge_chain_ip_proof := None; HeaderBlock.foliage := FullBlock.foliage b;
  HeaderBlock.foliage_transaction_block := FullBlock.foliage_transaction_block b;
  HeaderBlock.transactions_filter := []; HeaderBlock.transactions_info := None |}.
Definition sample_epoch_data (k : Z) : SubEpochData.t := {|
  SubEpochData.reward_chain_hash := replicate 32 k; SubEpochData.num_blocks_overflow := 0;
  SubEpochData.new_sub_slot_iters := None; SubEpochData.new_difficulty := None |}.
Definition sample_epochs : list SubEpochData.t := sample_epoch_data <$> seqZ 0 6.
Definition sample_summaries : list SubEpochSummary * list Z :=
  match _map_sub_epoch_summaries (SUB_EPOCH_BLOCKS DEFAULT_CONSTANTS) (GENESIS_CHALLENGE DEFAULT_CONSTANTS) sample_epochs
          (DIFFICULTY_STARTING DEFAULT_CONSTANTS) with
  | Ok (ss, _, ws) => (ss, ws)
  | _ => ([], [])
  end.
Definition sample_last_hash : bytes :=
  match last (sample_summaries.1) with Some s => or_nil (hash_of s) | None => [] end.
Definition sample_segment (n : Z) : SubEpochChallengeSegment.t := {|
  SubEpochChallengeSegment.sub_epoch_n := n; SubEpochChallengeSegment.sub_slots := [];
  SubEpochChallengeSegment.rc_slot_end_info := None |}.
(** The proof, with the height of the block that commits to the last summary *)
Definition sample_proof (committed : Z) : WeightProof.t := {|
  WeightProof.sub_epochs := sample_epochs;
  WeightProof.sub_epoch_segments := sample_segment <$> [2; 3; 4];
  WeightProof.recent_chain_data :=
    (λ h, recent_header h (if h =? committed then [finished_slot (Some sample_last_hash)] else [])) <$> [1919; 1920; 1921] |}.
Definition sample_known : Chain := {|
  peak_height := Some 1920; mem_records := ∅; heights_in_cache := ∅; mem_height_to_hash := ∅;
  mem_summaries := list_to_map (imap (λ i s, (384 * (Z.of_nat i + 1), s)) sample_summaries.1) |}.

Lemma sample_summaries_accepted committed :
  committed = 1920 ∨ committed = 1921 →
  _validate_sub_epoch_summaries DEFAULT_CONSTANTS (sample_proof committed) = Ok (Some sample_summaries)
  ∧ _get_last_ses_hash DEFAULT_CONSTANTS (WeightProof.recent_chain_data (sample_proof committed))
    = Ok (Some (sample_last_hash, committed)).
Proof. intros [->| ->]; split; vm_compute; reflexivity. Qed.
Lemma sample_epochs_well_formed : Forall well_formed sample_epochs.
Proof.
  repeat constructor; cbn; unfold is_byte; lia.
Qed.

Lemma weight_proof_binding_witness :
  (WeightProof.sub_epochs (sample_proof 1920) = WeightProof.sub_epochs (sample_proof 1921)
   ∧ sample_summaries.1 = sample_summaries.1 ∧ sample_summaries.2 = sample_summaries.2)
  ∨ (∃ s s', s ∈ sample_summaries.1 ∧ s' ∈ sample_summaries.1 ∧ collide s s')
  ∨ (∃ s, s ∈ sample_summaries.1 ++ sample_summaries.1 ∧ hash_of s = Ok (GENESIS_CHALLENGE DEFAULT_CONSTANTS)).
Proof.
  apply (weight_proof_binding DEFAULT_CONSTANTS (sample_proof 1920) (sample_proof 1921) sample_summaries.1
           sample_summaries.2 sample_summaries.1 sample_summaries.2 sample_last_hash 1920 1921).
  - apply (bool_decide_unpack _). vm_compute. exact I.
  - vm_compute. reflexivity.
  - exact sample_epochs_well_formed.
  - exact sample_epochs_well_formed.
  - rewrite <-surjective_pairing. exact (proj1 (sample_summaries_accepted 1920 (or_introl eq_refl))).
  - rewrite <-surjective_pairing. exact (proj1 (sample_summaries_accepted 1921 (or_intror eq_refl))).
  - exact (proj2 (sample_summaries_accepted 1920 (or_introl eq_refl))).
  - exact (proj2 (sample_summaries_accepted 1921 (or_intror eq_refl))).
Defined.

Lemma sample_inv :
  linked (GENESIS_CHALLENGE DEFAULT_CONSTANTS) sample_summaries.1
  ∧ _create_sub_epoch_data <$> sample_summaries.1 = WeightProof.sub_epochs (sample_proof 1920).
Proof.
  destruct (summaries_inv DEFAULT_CONSTANTS (sample_proof 1920) sample_summaries.1 sample_summaries.2)
    as (?&?&?&_&_&_&Hl&Hd&_); [|by split].
  rewrite <-surjective_pairing. exact (proj1 (sample_summaries_accepted 1920 (or_introl eq_refl))).
Qed.
Lemma sample_linked : linked (GENESIS_CHALLENGE DEFAULT_CONSTANTS) sample_summaries.1.
Proof. exact (proj1 sample_inv). Qed.
Lemma sample_summaries_well_formed : Forall well_formed sample_summaries.1.
Proof.
  apply (summaries_well_formed (GENESIS_CHALLENGE DEFAULT_CONSTANTS)); [|vm_compute; reflexivity|exact sample_linked|].
  - apply (bool_decide_unpack _). vm_compute. exact I.
  - rewrite (proj2 sample_inv). exact sample_epochs_well_formed.
Qed.
Lemma sample_known_well_formed : map_Forall (λ _ s, well_formed s) (mem_summaries sample_known).
Proof.
  intros h s Hs. unfold sample_known in Hs. cbn [mem_summaries] in Hs. apply elem_of_list_to_map_2 in Hs.
  apply elem_of_lookup_imap in Hs as (i&s'&[= _ ->]&Hs).
  eapply (proj1 (Forall_forall _ _) sample_summaries_well_formed). by eapply list_elem_of_lookup_2.
Qed.

Lemma fork_point_agrees_witness :
  (∃ h, get_fork_point sample_known sample_summaries.1 = Ok h
     ∧ (h = 0 ∨ ∃ i, get_ses_heights sample_known !! i = Some h ∧ ∀ j, (j <= i + 2)%nat → agree sample_known sample_summaries.1 j))
  ∧ get_fork_point sample_known sample_summaries.1 = Ok 1152.
Proof.
  split; [|vm_compute; reflexivity].
  apply (fork_point_agrees DEFAULT_CONSTANTS sample_known (sample_proof 1920) sample_summaries.1 sample_summaries.2).
  - rewrite <-surjective_pairing. exact (proj1 (sample_summaries_accepted 1920 (or_introl eq_refl))).
  - exact sample_known_well_formed.
Defined.

(** A logarithm and a generator to evaluate with: four weights, at 7/8, 3/4, 5/8 and
    1/2 of the total *)
Definition sample_math : PyMath := {|
  math_log _ _ := Ok (S754_finite true 1 (-5)); float_pow _ u := Ok u |}.
Definition sample_rng : Rng := {|
  rng := Z; rng_new _ := 0; rng_random r := (S754_finite false (Z.to_pos (r + 1)) (-3), r + 1);
  rng_choice r n := if n <=? 0 then Raise IndexError else Ok (r mod n, r + 1) |}.

Lemma sampled_sub_epochs_have_segments_witness :
  ∃ tip checked,
    last (WeightProof.recent_chain_data (sample_proof 1920)) = Some tip
    ∧ @_get_weights_for_sampling sample_math sample_rng 0 (HeaderBlock.weight tip)
        (WeightProof.recent_chain_data (sample_proof 1920)) = Ok (checked, 4)
    ∧ ∀ n, n ∈ take MAX_SAMPLES (due_sub_epochs sample_summaries.2 checked) →
        ∃ seg, seg ∈ WeightProof.sub_epoch_segments (sample_proof 1920) ∧ SubEpochChallengeSegment.sub_epoch_n seg = n.
Proof.
  apply (@sampled_sub_epochs_have_segments sample_math sample_rng 0 sample_summaries.2 (sample_proof 1920) 4).
  vm_compute. reflexivity.
Defined.

(** The first sub-epoch with one segment: a challenge block of the genesis slot *)
Definition space_of (challenge : bytes) : ProofOfSpace.t := {|
  ProofOfSpace.challenge := challenge; ProofOfSpace.pool_public_key := Some (replicate 48 1);
  ProofOfSpace.pool_contract_puzzle_hash := None; ProofOfSpace.local_public_key := replicate 48 2;
  ProofOfSpace.size := 32; ProofOfSpace.proof := [9; 9]; ProofOfSpace.farmer_public_key := replicate 48 3 |}.
Definition first_space : ProofOfSpace.t :=
  let g := GENESIS_CHALLENGE DEFAULT_CONSTANTS in
  space_of (calculate_pos_challenge (or_nil (get_plot_id (space_of []))) g g).
Definition challenge_slot : SubSlotData.t := {|
  SubSlotData.proof_of_space := Some first_space; SubSlotData.cc_signage_point := None;
  SubSlotData.cc_infusion_point := Some sample_vdf_proof; SubSlotData.icc_infusion_point := None;
  SubSlotData.cc_sp_vdf_info := None; SubSlotData.signage_point_index := Some 1; SubSlotData.cc_slot_end := None;
  SubSlotData.icc_slot_end := None; SubSlotData.cc_slot_end_info := None; SubSlotData.icc_slot_end_info := None;
  SubSlotData.cc_ip_vdf_info := Some sample_vdf; SubSlotData.icc_ip_vdf_info := None;
  SubSlotData.total_iters := Some 1000 |}.
Definition first_segments : list SubEpochChallengeSegment.t := [{|
  SubEpochChallengeSegment.sub_epoch_n := 0; SubEpochChallengeSegment.sub_slots := [challenge_slot];
  SubEpochChallengeSegment.rc_slot_end_info := None |}].
Definition first_summaries : list SubEpochSummary := [{|
  prev_subepoch_summary_hash := GENESIS_CHALLENGE DEFAULT_CONSTANTS;
  reward_chain_hash := GENESIS_CHALLENGE DEFAULT_CONSTANTS; num_blocks_overflow := 0; ses_new_difficulty := None;
  ses_new_sub_slot_iters := None |}].

Lemma sample_rng_choice (r n i r' : Z) : @rng_choice sample_rng r n = Ok (i, r') → 0 <= i < n.
Proof.
  cbn. destruct (Z.leb_spec n 0); [done|]. intros [= <- _]. apply Z.mod_pos_bound. done.
Qed.

Lemma accepted_segments_prove_work_witness :
  ∃ d, map_segments_by_sub_epoch first_segments = Ok d ∧ (∃ c, grouped c d first_segments)
    ∧ ∀ i n l, d !! i = Some (n, l) → sub_epoch_proved DEFAULT_CONSTANTS first_summaries n l.
Proof.
  apply (@accepted_segments_prove_work _ _ _ sample_rng DEFAULT_CONSTANTS 4 first_segments first_summaries
           sample_rng_choice).
  vm_compute. reflexivity.
Defined.
