(* ===== verification/WeightProofCreate.v ===== *)
(** * Creating weight proofs

    Models the methods of [WeightProofHandler] in [chia/full_node/weight_proof.py] that
    build a proof from the chain and keep the challenge segments of finished sub-epochs
    in the database, and the functions next to them that fill in sub slot data.

    The chain is read through [WpBlockchain]; the handler's state is the last proof and
    the stored segments.  Loops take the fuel of the section.  The theorem: what the
    prover sends of its sub-epochs gives the verifier the prover's summaries, and both
    draw their samples from the same seed. *)
From S2P Require Import Prelude PyInt PyFloat PyDecimal Consensus ChainView Difficulty Errors Streamable BlockTypes.
From S2P Require Import BlockToRecord HeaderValidation HeaderSound Chain WeightProof WeightProofSound.

(** What a prover reads of a [BlockchainInterface] *)
Record WpBlockchain := {
  wb_try_block_record : bytes → res (option BlockRecord);
  wb_get_peak_height : option Z;
  wb_get_ses_heights : list Z;
  wb_get_ses : Z → res SubEpochSummary;
  wb_height_to_hash : Z → res (option bytes);
  wb_height_to_block_record : Z → res BlockRecord;
  wb_get_block_record_from_db : option bytes → res (option BlockRecord);
  wb_get_block_records_at : list Z → res (list BlockRecord);
  wb_get_block_records_in_range : Z → Z → res (dict bytes BlockRecord);
  wb_get_header_blocks_in_range : Z → Z → res (dict bytes HeaderBlock.t);
}.
(** [self.proof] and [self.tip], and the table of challenge segments *)
Record WpHandler := {
  wh_proof : option WeightProof.t;
  wh_tip : option bytes;
  wh_segments : gmap bytes (list SubEpochChallengeSegment.t);
}.

(** [d[key]] for a key that may be [None] *)
Definition dindex_opt {V} (d : dict bytes V) (key : option bytes) : res V :=
  match key with Some k => dindex k d | None => Raise KeyError end.
(** [BlockCache(blocks)] *)
Definition cache_of (blocks : dict bytes BlockRecord) : BlockchainInterface :=
  BlockCache_interface {| bc_block_records := list_to_map blocks; bc_height_to_hash := ∅ |}.

(** ** Sub slot data *)
Definition slot_end_data (cc_slot_end : VDFProof.t) (icc_slot_end : option VDFProof.t) (cc_info : VDFInfo.t)
    (icc_info : option VDFInfo.t) : SubSlotData.t := {|
  SubSlotData.proof_of_space := None; SubSlotData.cc_signage_point := None; SubSlotData.cc_infusion_point := None;
  SubSlotData.icc_infusion_point := None; SubSlotData.cc_sp_vdf_info := None; SubSlotData.signage_point_index := None;
  SubSlotData.cc_slot_end := Some cc_slot_end; SubSlotData.icc_slot_end := icc_slot_end;
  SubSlotData.cc_slot_end_info := Some cc_info; SubSlotData.icc_slot_end_info := icc_info;
  SubSlotData.cc_ip_vdf_info := None; SubSlotData.icc_ip_vdf_info := None; SubSlotData.total_iters := None |}.

Definition handle_finished_slots (end_of_slot : EndOfSubSlotBundle.t) (icc_end_of_slot_info : option VDFInfo.t) :
    SubSlotData.t :=
  let proofs := EndOfSubSlotBundle.proofs end_of_slot in
  slot_end_data (SubSlotProofs.challenge_chain_slot_proof proofs) (SubSlotProofs.infused_challenge_chain_slot_proof proofs)
    (ChallengeChainSubSlot.challenge_chain_end_of_slot_vdf (EndOfSubSlotBundle.challenge_chain end_of_slot))
    icc_end_of_slot_info.
(** [curr_icc_info] of a sub slot *)
Definition icc_info_of (sub_slot : EndOfSubSlotBundle.t) : option VDFInfo.t :=
  InfusedChallengeChainSubSlot.infused_challenge_chain_end_of_slot_vdf <$> EndOfSubSlotBundle.infused_challenge_chain sub_slot.
Definition finished_slots_data (slots : list EndOfSubSlotBundle.t) : list SubSlotData.t :=
  (λ s, handle_finished_slots s (icc_info_of s)) <$> slots.

Definition handle_end_of_slot (sub_slot : EndOfSubSlotBundle.t) (eos_vdf_iters : Z) : res SubSlotData.t :=
  let proofs := EndOfSubSlotBundle.proofs sub_slot in
  icc ← of_opt AssertionError (EndOfSubSlotBundle.infused_challenge_chain sub_slot);
  icc_proof ← of_opt AssertionError (SubSlotProofs.infused_challenge_chain_slot_proof proofs);
  let icc_vdf := InfusedChallengeChainSubSlot.infused_challenge_chain_end_of_slot_vdf icc in
  let cc_vdf := ChallengeChainSubSlot.challenge_chain_end_of_slot_vdf (EndOfSubSlotBundle.challenge_chain sub_slot) in
  let cc_proof := SubSlotProofs.challenge_chain_slot_proof proofs in
  let info (proof : VDFProof.t) (vdf : VDFInfo.t) :=
    if VDFProof.normalized_to_identity proof then vdf else with_output (VDFInfo.challenge vdf) eos_vdf_iters vdf in
  Ok (slot_end_data cc_proof (Some icc_proof) (info cc_proof cc_vdf) (Some (info icc_proof icc_vdf))).

Definition blue_boxed_end_of_slot (sub_slot : EndOfSubSlotBundle.t) : bool :=
  let proofs := EndOfSubSlotBundle.proofs sub_slot in
  VDFProof.normalized_to_identity (SubSlotProofs.challenge_chain_slot_proof proofs)
  && match SubSlotProofs.infused_challenge_chain_slot_proof proofs with
     | Some p => VDFProof.normalized_to_identity p
     | None => true
     end.

(** The source collects the slots up to the challenge and returns the whole segment. *)
Definition compress_segment (segment : SubEpochChallengeSegment.t) : SubEpochChallengeSegment.t := segment.
Definition compress_segments (full_segment_index : Z) (segments : list SubEpochChallengeSegment.t) :
    res (list SubEpochChallengeSegment.t) :=
  first ← py_index segments 0;
  Ok (first :: ((λ '(idx, segment), if idx =? full_segment_index then segment else compress_segment segment)
                <$> enumerate (tail segments))).

Definition validate_total_iters (segment : SubEpochChallengeSegment.t) (sub_slot_data_idx expected_sub_slot_iters
    finished_sub_slots_since_prev : Z) (prev_b : SubSlotData.t) (prev_sub_slot_data_iters : Z) (genesis : bool) : res bool :=
  let sub_slots := SubEpochChallengeSegment.sub_slots segment in
  d ← py_index sub_slots sub_slot_data_idx;
  total ←
    (if genesis then uint128 (expected_sub_slot_iters * finished_sub_slots_since_prev)
     else
       before ← py_index sub_slots (sub_slot_data_idx - 1);
       prev_total ← assert_truthy (SubSlotData.total_iters prev_b);
       prev_info ← of_opt AssertionError (SubSlotData.cc_ip_vdf_info prev_b);
       if SubSlotData.is_end_of_slot before then
         t ← uint128 (prev_total + prev_sub_slot_data_iters - VDFInfo.number_of_iterations prev_info);
         uint128 (t + expected_sub_slot_iters * (finished_sub_slots_since_prev - 1))
       else uint128 (prev_total - VDFInfo.number_of_iterations prev_info));
  info ← of_opt AttributeError (SubSlotData.cc_ip_vdf_info d);
  total ← uint128 (total + VDFInfo.number_of_iterations info);
  Ok (bool_decide (Some total = SubSlotData.total_iters d)).

Section BlockData.
Context `{Packages} `{StdHash} (constants : ConsensusConstants) (fuel : nat).

(** [header_block.header_hash] *)
Definition header_hash_of (b : HeaderBlock.t) : res bytes := hash_of (HeaderBlock.foliage b).

(** The VDF to the signage point from the last infusion before it *)
Definition sp_vdf_from_infusion (header_block : HeaderBlock.t) (block_rec : BlockRecord) (blocks : dict bytes BlockRecord) :
    res Z :=
  prev_b ← (if HeaderBlock.height header_block =? 0 then Ok None
            else b ← dindex (HeaderBlock.prev_header_hash header_block) blocks; Ok (Some b));
  sp_total ← sp_total_iters constants block_rec;
  sp ← br_sp_iters constants block_rec;
  v ← get_signage_point_vdf_info constants (cache_of blocks) fuel (HeaderBlock.finished_sub_slots header_block)
        (overflow block_rec) prev_b sp_total sp;
  Ok (sv_iters v).

Definition _challenge_block_vdfs (header_block : HeaderBlock.t) (block_rec : BlockRecord)
    (sub_blocks : dict bytes BlockRecord) : res SubSlotData.t :=
  let rcb := HeaderBlock.reward_chain_block header_block in
  cc_vdf_iters ← sp_vdf_from_infusion header_block block_rec sub_blocks;
  cc_sp_info ←
    match RewardChainBlock.challenge_chain_sp_vdf rcb with
    | Some vdf =>
        proof ← of_opt AssertionError (HeaderBlock.challenge_chain_sp_proof header_block);
        Ok (Some (if VDFProof.normalized_to_identity proof then vdf
                  else with_output (VDFInfo.challenge vdf) cc_vdf_iters vdf))
    | None => Ok None
    end;
  Ok {| SubSlotData.proof_of_space := Some (RewardChainBlock.proof_of_space rcb);
        SubSlotData.cc_signage_point := HeaderBlock.challenge_chain_sp_proof header_block;
        SubSlotData.cc_infusion_point := Some (HeaderBlock.challenge_chain_ip_proof header_block);
        SubSlotData.icc_infusion_point := None; SubSlotData.cc_sp_vdf_info := cc_sp_info;
        SubSlotData.signage_point_index := Some (RewardChainBlock.signage_point_index rcb);
        SubSlotData.cc_slot_end := None; SubSlotData.icc_slot_end := None; SubSlotData.cc_slot_end_info := None;
        SubSlotData.icc_slot_end_info := None;
        SubSlotData.cc_ip_vdf_info := Some (RewardChainBlock.challenge_chain_ip_vdf rcb);
        SubSlotData.icc_ip_vdf_info := RewardChainBlock.infused_challenge_chain_ip_vdf rcb;
        SubSlotData.total_iters := Some (total_iters block_rec) |}.

Definition handle_block_vdfs (curr : HeaderBlock.t) (blocks : dict bytes BlockRecord) : res SubSlotData.t :=
  let rcb := HeaderBlock.reward_chain_block curr in
  hh ← header_hash_of curr;
  block_record ← dindex hh blocks;
  '(icc_ip_proof, icc_ip_info) ←
    match HeaderBlock.infused_challenge_chain_ip_proof curr with
    | Some proof =>
        info ← of_opt AssertionError (RewardChainBlock.infused_challenge_chain_ip_vdf rcb); Ok (Some proof, Some info)
    | None => Ok (None, None)
    end;
  '(cc_sp_proof, cc_sp_info) ←
    match HeaderBlock.challenge_chain_sp_proof curr with
    | Some proof =>
        vdf ← of_opt AssertionError (RewardChainBlock.challenge_chain_sp_vdf rcb);
        vdf ← (if VDFProof.normalized_to_identity proof then Ok vdf
               else i ← sp_vdf_from_infusion curr block_record blocks; Ok (with_output (VDFInfo.challenge vdf) i vdf));
        Ok (Some proof, Some vdf)
    | None => Ok (None, None)
    end;
  Ok {| SubSlotData.proof_of_space := None; SubSlotData.cc_signage_point := cc_sp_proof;
        SubSlotData.cc_infusion_point := Some (HeaderBlock.challenge_chain_ip_proof curr);
        SubSlotData.icc_infusion_point := icc_ip_proof; SubSlotData.cc_sp_vdf_info := cc_sp_info;
        SubSlotData.signage_point_index := Some (RewardChainBlock.signage_point_index rcb);
        SubSlotData.cc_slot_end := None; SubSlotData.icc_slot_end := None; SubSlotData.cc_slot_end_info := None;
        SubSlotData.icc_slot_end_info := None;
        SubSlotData.cc_ip_vdf_info := Some (RewardChainBlock.challenge_chain_ip_vdf rcb);
        SubSlotData.icc_ip_vdf_info := icc_ip_info; SubSlotData.total_iters := Some (HeaderBlock.total_iters curr) |}.
End BlockData.

(** ** Challenge segments *)
Section Segments.
Context `{Packages} `{StdHash} (constants : ConsensusConstants) (fuel : nat) (bc : WpBlockchain).

(** [header_blocks[self.blockchain.height_to_hash(height)]] *)
Definition header_at (header_blocks : dict bytes HeaderBlock.t) (height : Z) : res HeaderBlock.t :=
  hh ← wb_height_to_hash bc height; dindex_opt header_blocks hh.

Definition two_slots_height_body (s : BlockRecord * dict bytes BlockRecord * Z * Z) :
    res (BlockRecord * dict bytes BlockRecord * Z * Z + Z) :=
  let '(curr_rec, blocks, end_, slot) := s in
  if (slot <? 2) && (0 <? height curr_rec) then
    let slot := if first_in_sub_slot curr_rec then slot + 1 else slot in
    '(blocks, end_) ←
      (if end_ - height curr_rec =? 50 - 1 then
         b ← wb_get_block_records_in_range bc (height curr_rec - 50) (height curr_rec); Ok (b, height curr_rec)
       else Ok (blocks, end_));
    h ← uint32 (height curr_rec - 1);
    hh ← wb_height_to_hash bc h;
    prev ← dindex_opt blocks hh;
    Ok (inl (prev, blocks, end_, slot))
  else Ok (inr (height curr_rec)).
Definition get_prev_two_slots_height (se_start : BlockRecord) : res Z :=
  blocks ← wb_get_block_records_in_range bc (height se_start - 50) (height se_start);
  loop fuel two_slots_height_body (se_start, blocks, height se_start, 0).

Definition first_rc_end_of_slot_vdf (header_block : HeaderBlock.t) (blocks : dict bytes BlockRecord)
    (header_blocks : dict bytes HeaderBlock.t) : res VDFInfo.t :=
  hh ← header_hash_of header_block;
  curr ← dindex hh blocks;
  curr ← walk_back (cache_of blocks) fuel
           (λ c, negb ((0 <? height c) && is_None (sub_epoch_summary_included c))) curr;
  header ← dindex (header_hash curr) header_blocks;
  slot ← py_index (HeaderBlock.finished_sub_slots header) (-1);
  Ok (RewardChainSubSlot.end_of_slot_vdf (EndOfSubSlotBundle.reward_chain slot)).

(** The block before which the challenge slot of an overflow block starts: two finished
    sub slots back *)
Definition two_slots_back_body (blocks : dict bytes BlockRecord) (s : Z * BlockRecord) : res (Z * BlockRecord + BlockRecord) :=
  let '(sub_slots_num, curr) := s in
  if (0 <? sub_slots_num) && (0 <? height curr) then
    n ← (if first_in_sub_slot curr then
           l ← of_opt AssertionError (finished_challenge_slot_hashes curr); Ok (sub_slots_num - Z.of_nat (length l))
         else Ok sub_slots_num);
    prev ← dindex (prev_hash curr) blocks;
    Ok (inl (n, prev))
  else Ok (inr curr).

(** The data of a block before the challenge block *)
Definition block_data (curr : HeaderBlock.t) : SubSlotData.t :=
  let rcb := HeaderBlock.reward_chain_block curr in {|
  SubSlotData.proof_of_space := None; SubSlotData.cc_signage_point := None; SubSlotData.cc_infusion_point := None;
  SubSlotData.icc_infusion_point := None; SubSlotData.cc_sp_vdf_info := None;
  SubSlotData.signage_point_index := Some (RewardChainBlock.signage_point_index rcb); SubSlotData.cc_slot_end := None;
  SubSlotData.icc_slot_end := None; SubSlotData.cc_slot_end_info := None; SubSlotData.icc_slot_end_info := None;
  SubSlotData.cc_ip_vdf_info := Some (RewardChainBlock.challenge_chain_ip_vdf rcb);
  SubSlotData.icc_ip_vdf_info := RewardChainBlock.infused_challenge_chain_ip_vdf rcb;
  SubSlotData.total_iters := Some (HeaderBlock.total_iters curr) |}.
Definition first_slots_body (header_blocks : dict bytes HeaderBlock.t) (stop : Z)
    (s : HeaderBlock.t * list SubSlotData.t * list SubSlotData.t) :
    res (HeaderBlock.t * list SubSlotData.t * list SubSlotData.t + list SubSlotData.t * list SubSlotData.t) :=
  let '(curr, data, tmp) := s in
  if HeaderBlock.height curr <? stop then
    '(data, tmp) ←
      (if HeaderBlock.first_in_sub_slot curr then
         slot ← py_index (HeaderBlock.finished_sub_slots curr) 0;
         let data := if blue_boxed_end_of_slot slot then data else data ++ tmp in
         Ok (data ++ finished_slots_data (HeaderBlock.finished_sub_slots curr), [])
       else Ok (data, tmp));
    h ← uint32 (HeaderBlock.height curr + 1);
    next ← header_at header_blocks h;
    Ok (inl (next, data, tmp ++ [block_data curr]))
  else Ok (inr (data, tmp)).
(** [__first_sub_slot_vdfs] *)
Definition first_sub_slot_vdfs (header_block : HeaderBlock.t) (header_blocks : dict bytes HeaderBlock.t)
    (blocks : dict bytes BlockRecord) (first_in_sub_epoch : bool) : res (list SubSlotData.t * option VDFInfo.t) :=
  hh ← header_hash_of header_block;
  rec ← dindex hh blocks;
  '(curr_rec, rc_vdf) ←
    (if first_in_sub_epoch && (0 <? height rec) then
       c ← walk_back (cache_of blocks) fuel (λ c, negb (is_None (sub_epoch_summary_included c))) rec;
       v ← first_rc_end_of_slot_vdf header_block blocks header_blocks;
       Ok (c, Some v)
     else if overflow rec && first_in_sub_slot rec then
       c ← loop fuel (two_slots_back_body blocks) (2, rec); Ok (c, None)
     else
       c ← walk_back (cache_of blocks) fuel (λ c, first_in_sub_slot c || negb (0 <? height c)) rec; Ok (c, None));
  curr ← dindex (header_hash curr_rec) header_blocks;
  '(data, tmp) ← loop fuel (first_slots_body header_blocks (HeaderBlock.height header_block)) (curr, [], []);
  Ok (data ++ tmp ++ finished_slots_data (HeaderBlock.finished_sub_slots header_block), rc_vdf).

(** The ends of the sub slots a block finishes; the iterations of the first count from
    the infusion of the block before. *)
Definition end_of_slots_data (blocks : dict bytes BlockRecord) (curr : HeaderBlock.t) : res (list SubSlotData.t) :=
  for_each (λ '(idx, sub_slot),
    prev_rec ← dindex (HeaderBlock.prev_header_hash curr) blocks;
    eos_vdf_iters ← (if idx =? 0 then ip ← br_ip_iters constants prev_rec; uint64 (sub_slot_iters prev_rec - ip)
                     else Ok (sub_slot_iters prev_rec));
    handle_end_of_slot sub_slot eos_vdf_iters) (enumerate (HeaderBlock.finished_sub_slots curr)).
Definition slot_end_body (header_blocks : dict bytes HeaderBlock.t) (blocks : dict bytes BlockRecord)
    (s : HeaderBlock.t * list SubSlotData.t * list SubSlotData.t) :
    res (HeaderBlock.t * list SubSlotData.t * list SubSlotData.t + list SubSlotData.t * Z) :=
  let '(curr, data, tmp) := s in
  hh ← header_hash_of curr;
  rec ← dindex hh blocks;
  if is_challenge_block constants rec then Ok (inr (data ++ tmp, HeaderBlock.height curr))
  else
    '(data, tmp) ←
      (if HeaderBlock.first_in_sub_slot curr then
         ends ← end_of_slots_data blocks curr; Ok (data ++ tmp ++ ends, [])
       else Ok (data, tmp));
    d ← handle_block_vdfs constants fuel curr blocks;
    h ← uint32 (HeaderBlock.height curr + 1);
    next ← header_at header_blocks h;
    Ok (inl (next, data, tmp ++ [d])).
(** [__slot_end_vdf] *)
Definition slot_end_vdf (start_height : Z) (header_blocks : dict bytes HeaderBlock.t) (blocks : dict bytes BlockRecord) :
    res (list SubSlotData.t * Z) :=
  curr ← header_at header_blocks start_height;
  loop fuel (slot_end_body header_blocks blocks) (curr, [], []).

Definition _create_challenge_segment (header_block : HeaderBlock.t) (sub_epoch_n : Z)
    (header_blocks : dict bytes HeaderBlock.t) (blocks : dict bytes BlockRecord) (first_segment_in_sub_epoch : bool) :
    res (SubEpochChallengeSegment.t * Z) :=
  '(first_sub_slots, rc_vdf) ← first_sub_slot_vdfs header_block header_blocks blocks first_segment_in_sub_epoch;
  hh ← header_hash_of header_block;
  rec ← dindex hh blocks;
  ssd ← _challenge_block_vdfs constants fuel header_block rec blocks;
  h ← uint32 (HeaderBlock.height header_block + 1);
  '(ends, end_height) ← slot_end_vdf h header_blocks blocks;
  Ok ({| SubEpochChallengeSegment.sub_epoch_n := sub_epoch_n;
         SubEpochChallengeSegment.sub_slots := first_sub_slots ++ ssd :: ends;
         SubEpochChallengeSegment.rc_slot_end_info :=
           if first_segment_in_sub_epoch && negb (sub_epoch_n =? 0) then rc_vdf else None |}, end_height).

(** [__create_sub_epoch_segments]; the state is [curr], [height], [first] and the
    segments made. *)
Definition sub_epoch_segments_body (stop sub_epoch_n : Z) (header_blocks : dict bytes HeaderBlock.t)
    (blocks : dict bytes BlockRecord) (s : HeaderBlock.t * Z * bool * list SubEpochChallengeSegment.t) :
    res (HeaderBlock.t * Z * bool * list SubEpochChallengeSegment.t + list SubEpochChallengeSegment.t) :=
  let '(curr, h, first, segments) := s in
  if HeaderBlock.height curr <? stop then
    hh ← header_hash_of curr;
    rec ← dindex hh blocks;
    '(h, first, segments) ←
      (if is_challenge_block constants rec then
         '(seg, h) ← _create_challenge_segment curr sub_epoch_n header_blocks blocks first;
         Ok (h, false, segments ++ [seg])
       else Ok (h + 1, first, segments));
    next ← header_at header_blocks h;
    Ok (inl (next, h, first, segments))
  else Ok (inr segments).
Definition create_sub_epoch_segments_of (ses_block se_start : BlockRecord) (sub_epoch_n : Z) :
    res (list SubEpochChallengeSegment.t) :=
  start_height ← get_prev_two_slots_height se_start;
  let stop := height ses_block + MAX_SUB_SLOT_BLOCKS constants in
  blocks ← wb_get_block_records_in_range bc start_height stop;
  header_blocks ← wb_get_header_blocks_in_range bc start_height stop;
  curr ← dindex (header_hash se_start) header_blocks;
  loop fuel (sub_epoch_segments_body (height ses_block) sub_epoch_n header_blocks blocks) (curr, height se_start, true, []).
End Segments.

(** ** The handler *)
Section Handler.
Context `{Packages} `{StdHash} `{PyMath} `{Rng} (constants : ConsensusConstants) (fuel : nat) (bc : WpBlockchain).

(** [blockchain.persist_sub_epoch_challenge_segments] *)
Definition persist_segments (ses_block_hash : bytes) (segments : list SubEpochChallengeSegment.t) : ST WpHandler unit :=
  st_modify (λ h, {| wh_proof := wh_proof h; wh_tip := wh_tip h;
                     wh_segments := <[ses_block_hash := segments]> (wh_segments h) |}).
(** The stored segments of a sub-epoch, or new ones, which are stored *)
Definition segments_of (ses_block prev_ses_block : BlockRecord) (sub_epoch_n : Z) :
    ST WpHandler (list SubEpochChallengeSegment.t) :=
  h ← st_get;
  match wh_segments h !! header_hash ses_block with
  | Some segments => mret segments
  | None =>
      n ← st_res (uint32 sub_epoch_n);
      segments ← st_res (create_sub_epoch_segments_of constants fuel bc ses_block prev_ses_block n);
      persist_segments (header_hash ses_block) segments ;;
      mret segments
  end.

(** The loop breaks at the first height above the tip. *)
Fixpoint get_sub_epoch_data (tip_height : Z) (summary_heights : list Z) : res (list SubEpochData.t) :=
  match summary_heights with
  | [] => Ok []
  | ses_height :: heights =>
      if tip_height <? ses_height then Ok []
      else
        ses ← wb_get_ses bc ses_height;
        rest ← get_sub_epoch_data tip_height heights;
        Ok (_create_sub_epoch_data ses :: rest)
  end.

(** [get_seed_for_proof] over the reversed heights *)
Fixpoint seed_summary (tip_height : Z) (count : Z) (reversed : list Z) : res (option SubEpochSummary) :=
  match reversed with
  | [] => Ok None
  | ses_height :: heights =>
      let count := if ses_height <=? tip_height then count + 1 else count in
      if count =? 2 then s ← wb_get_ses bc ses_height; Ok (Some s) else seed_summary tip_height count heights
  end.
Definition get_seed_for_proof (summary_heights : list Z) (tip_height : Z) : res bytes :=
  ses ← seed_summary tip_height 0 (rev summary_heights);
  ses ← of_opt AssertionError ses;
  hash_of ses.

(** [min_height] of [_get_recent_chain], over the reversed heights *)
Fixpoint recent_min_height (tip_height : Z) (count_ses : Z) (reversed : list Z) : Z :=
  match reversed with
  | [] => 0
  | ses_height :: heights =>
      let count_ses := if ses_height <=? tip_height then count_ses + 1 else count_ses in
      if count_ses =? 2 then ses_height - 1 else recent_min_height tip_height count_ses heights
  end.
Definition recent_chain_body (headers : dict bytes HeaderBlock.t) (blocks : dict bytes BlockRecord)
    (s : Z * Z * list HeaderBlock.t) : res (Z * Z * list HeaderBlock.t + Z * list HeaderBlock.t) :=
  let '(ses_count, curr_height, recent_chain) := s in
  if (ses_count <? 2) && negb (curr_height =? 0) then
    header_block ← header_at bc headers curr_height;
    hh ← header_hash_of header_block;
    block_rec ← dindex hh blocks;
    h ← uint32 (curr_height - 1);
    Ok (inl (if is_None (sub_epoch_summary_included block_rec) then ses_count else ses_count + 1, h,
             header_block :: recent_chain))
  else Ok (inr (curr_height, recent_chain)).
Definition _get_recent_chain (tip_height : Z) : res (list HeaderBlock.t) :=
  let min_height := recent_min_height tip_height 0 (rev (wb_get_ses_heights bc)) in
  headers ← wb_get_header_blocks_in_range bc min_height tip_height;
  blocks ← wb_get_block_records_in_range bc min_height tip_height;
  '(curr_height, recent_chain) ← loop (S (Z.to_nat tip_height)) (recent_chain_body headers blocks) (0, tip_height, []);
  header_block ← header_at bc headers curr_height;
  Ok (header_block :: recent_chain).

(** One sub-epoch of [_create_proof_of_weight]; the state is [sample_n],
    [prev_ses_block] and the segments, [inr None] the return of [None] and [inr (Some _)]
    the end of the loop. *)
Definition sample_step (tip_height : Z) (weight_to_check : option (list Z)) (ses_blocks : list BlockRecord)
    (t : nat * BlockRecord * list SubEpochChallengeSegment.t) (x : Z * Z) :
    ST WpHandler (nat * BlockRecord * list SubEpochChallengeSegment.t + option (list SubEpochChallengeSegment.t)) :=
  let '(sample_n, prev_ses_block, acc) := t in
  let '(sub_epoch_n, ses_height) := x in
  if tip_height <? ses_height then mret (inr (Some acc))
  else if bool_decide (MAX_SAMPLES <= sample_n)%nat then mret (inr (Some acc))
  else
    ses_block ← st_res (py_index ses_blocks sub_epoch_n);
    if is_None (sub_epoch_summary_included ses_block) then mret (inr None)
    else
      b ← st_res (_sample_sub_epoch (weight prev_ses_block) (weight ses_block) weight_to_check);
      if (b : bool) then
        segments ← segments_of ses_block prev_ses_block sub_epoch_n;
        mret (inl (S sample_n, ses_block, acc ++ segments))
      else mret (inl (sample_n, ses_block, acc)).
Definition _create_proof_of_weight (tip : bytes) : ST WpHandler (option WeightProof.t) :=
  tip_rec ← st_res (wb_try_block_record bc tip);
  match tip_rec with
  | None => mret None
  | Some tip_rec =>
      recent_chain ← st_res (_get_recent_chain (height tip_rec));
      let summary_heights := wb_get_ses_heights bc in
      genesis ← st_res (wb_height_to_hash bc 0);
      prev_ses_block ← st_res (wb_get_block_record_from_db bc genesis);
      match prev_ses_block with
      | None => mret None
      | Some prev_ses_block =>
          sub_epoch_data ← st_res (get_sub_epoch_data (height tip_rec) summary_heights);
          seed ← st_res (get_seed_for_proof summary_heights (height tip_rec));
          '(weight_to_check, _) ← st_res (_get_weights_for_sampling (rng_new seed) (weight tip_rec) recent_chain);
          ses_blocks ← st_res (wb_get_block_records_at bc summary_heights);
          r ← st_early (sample_step (height tip_rec) weight_to_check ses_blocks) (0%nat, prev_ses_block, [])
                (enumerate summary_heights);
          match r with
          | inl (_, _, acc) | inr (Some acc) =>
              mret (Some {| WeightProof.sub_epochs := sub_epoch_data; WeightProof.sub_epoch_segments := acc;
                            WeightProof.recent_chain_data := recent_chain |})
          | inr None => mret None
          end
      end
  end.
Definition get_proof_of_weight (tip : bytes) : ST WpHandler (option WeightProof.t) :=
  tip_rec ← st_res (wb_try_block_record bc tip);
  match tip_rec with
  | None => mret None
  | Some tip_rec =>
      if height tip_rec <? WEIGHT_PROOF_RECENT_BLOCKS constants then mret None
      else
        h ← st_get;
        cached ← st_res match wh_proof h with
                        | Some proof =>
                            last ← py_index (WeightProof.recent_chain_data proof) (-1);
                            hh ← header_hash_of last;
                            Ok (if bool_decide (hh = tip) then Some proof else None)
                        | None => Ok None
                        end;
        match cached with
        | Some proof => mret (Some proof)
        | None =>
            wp ← _create_proof_of_weight tip;
            match wp with
            | None => mret None
            | Some wp =>
                st_modify (λ h, {| wh_proof := Some wp; wh_tip := Some tip; wh_segments := wh_segments h |}) ;;
                mret (Some wp)
            end
        end
  end.

Definition create_prev_sub_epoch_segments : ST WpHandler unit :=
  let heights := wb_get_ses_heights bc in
  if bool_decide (length heights < 3)%nat then mret tt
  else
    h2 ← st_res (py_index heights (-2));
    ses_sub_block ← st_res (wb_height_to_block_record bc h2);
    h3 ← st_res (py_index heights (-3));
    prev_ses_sub_block ← st_res (wb_height_to_block_record bc h3);
    st_res (assert_ (negb (is_None (sub_epoch_summary_included prev_ses_sub_block)))) ;;
    count ← st_res (uint32 (Z.of_nat (length heights) - 2));
    segments ← st_res (create_sub_epoch_segments_of constants fuel bc ses_sub_block prev_ses_sub_block count);
    persist_segments (header_hash ses_sub_block) segments.

Definition create_segments_step (peak_height : Z) (ses_blocks : list BlockRecord) (prev_ses_block : BlockRecord) (x : Z * Z) :
    ST WpHandler (BlockRecord + unit) :=
  let '(sub_epoch_n, ses_height) := x in
  if peak_height <? ses_height then mret (inr tt)
  else
    ses_block ← st_res (py_index ses_blocks sub_epoch_n);
    if is_None (sub_epoch_summary_included ses_block) then mret (inr tt)
    else _ ← segments_of ses_block prev_ses_block sub_epoch_n; mret (inl ses_block).
Definition create_sub_epoch_segments : ST WpHandler unit :=
  match wb_get_peak_height bc with
  | None => mret tt
  | Some peak_height =>
      let summary_heights := wb_get_ses_heights bc in
      genesis ← st_res (wb_height_to_hash bc 0);
      prev_ses_block ← st_res (wb_get_block_record_from_db bc genesis);
      match prev_ses_block with
      | None => mret tt
      | Some prev_ses_block =>
          ses_blocks ← st_res (wb_get_block_records_at bc summary_heights);
          _ ← st_early (create_segments_step peak_height ses_blocks) prev_ses_block (enumerate summary_heights);
          mret tt
      end
  end.
End Handler.

(** ** Prover and verifier *)
Section Agreement.
Context `{Packages} `{StdHash} (constants : ConsensusConstants) (bc : WpBlockchain).

Lemma summary_fields (s : SubEpochSummary) :
  well_formed s → 0 <= num_blocks_overflow s < 256 ∧ ∀ d, ses_new_difficulty s = Some d → 0 <= d < 2 ^ 64.
Proof.
  destruct s as [p r o d i]. cbn [num_blocks_overflow ses_new_difficulty]. intros (_&_&Ho&Hd&_). cbn in Ho, Hd. split.
  - unfold fits in Ho. cbn in Ho. zbool. lia.
  - intros x ->. cbn in Hd. unfold fits in Hd. cbn in Hd. zbool. lia.
Qed.

(** The rounds of the verifier on data the prover took from a chain of summaries *)
Lemma honest_map n idx t g d ls :
  255 <= n < 2 ^ 32 → 0 <= d < 2 ^ 64 → 0 <= t → t + (Z.of_nat (length ls) + 1) * 2 ^ 97 < 2 ^ 128 →
  Forall well_formed ls → linked g ls →
  ∃ total ws, map_summaries n idx t g d (_create_sub_epoch_data <$> ls) = Ok (ls, total, ws).
Proof.
  intros Hn. revert idx t g d. induction ls as [|s ls IH]; intros idx t g d Hd Ht Hfit Hw Hl; cbn [fmap list_fmap map_summaries].
  - rewrite (uint128_in (t + d)) by lia. cbn. eauto.
  - apply Forall_cons in Hw as [Hs Hw]. destruct Hl as (Hp&h&Eh&Hl). destruct (summary_fields s Hs) as [Ho Hdiff].
    assert (Es : summary_of g (_create_sub_epoch_data s) = s) by (destruct s; cbn in *; by subst). rewrite Es, Eh.
    cbn [length] in Hfit. set (d' := match SubEpochData.new_difficulty _ with Some _ => _ | None => _ end).
    assert (Hd' : 0 <= d' < 2 ^ 64).
    { unfold d'. cbn. destruct (ses_new_difficulty s) as [x|] eqn:Ex; [by apply Hdiff|done]. }
    destruct ls as [|s' ls]; cbn [fmap list_fmap mbind res_bind].
    + destruct (IH (idx + 1) t h d' Hd' Ht) as (total&ws&E); [cbn [length] in *; lia|done|done|].
      cbn [fmap list_fmap] in E. rewrite E. cbn. eauto.
    + apply Forall_cons in Hw as Hw'. destruct Hw' as [Hs' _]. destruct (summary_fields s' Hs') as [Ho' _].
      set (delta := if 0 <? idx then _ else _). assert (Hdelta : 0 <= delta < 256) by (unfold delta; cbn; destruct (0 <? idx); lia).
      cbn [_create_sub_epoch_data SubEpochData.num_blocks_overflow].
      assert (Hprod : 0 <= d * (n + num_blocks_overflow s' - delta) < 2 ^ 97) by nia.
      rewrite (uint128_in (t + d)) by nia. cbn [mbind res_bind]. rewrite (uint128_in (d * _)) by lia. cbn [mbind res_bind].
      destruct (IH (idx + 1) (t + d * (n + num_blocks_overflow s' - delta)) h d' Hd') as (total&ws&E); [lia|lia|done|done|].
      cbn [fmap list_fmap] in E. rewrite E. cbn. eauto.
Qed.

Lemma sub_epoch_data_of tip hs rest ls :
  Forall (λ h, h <= tip) hs → Forall (λ h, tip < h) rest → Forall2 (λ h s, wb_get_ses bc h = Ok s) hs ls →
  get_sub_epoch_data bc tip (hs ++ rest) = Ok (_create_sub_epoch_data <$> ls).
Proof.
  intros Hle Hgt Hs. induction Hs as [|h s hs ls Eh _ IH]; cbn [app get_sub_epoch_data].
  - destruct Hgt as [|h rest Hh _]; [done|]. cbn. by rewrite (proj2 (Z.ltb_lt tip h)) by lia.
  - apply Forall_cons in Hle as [Hh Hle]. rewrite (proj2 (Z.ltb_ge tip h)) by lia. rewrite Eh, (IH Hle). done.
Qed.
Lemma seed_skips tip l r : Forall (λ h, tip < h) l → seed_summary bc tip 0 (l ++ r) = seed_summary bc tip 0 r.
Proof.
  induction 1 as [|h l Hh _ IH]; [done|]. cbn [app seed_summary].
  by rewrite (proj2 (Z.leb_gt h tip)) by lia.
Qed.

(** C33. Prover and verifier agree: the sub-epoch data of a chain of summaries, taken up
    to the tip, gives the verifier exactly these summaries, without overflow, and the
    seed the prover samples with is the hash of the second to last, which the verifier
    takes. *)
Theorem honest_sub_epochs_recovered tip hs rest ls :
  Forall (λ h, h <= tip) hs → Forall (λ h, tip < h) rest → Forall2 (λ h s, wb_get_ses bc h = Ok s) hs ls →
  linked (GENESIS_CHALLENGE constants) ls → Forall well_formed ls → (2 <= length ls)%nat → Z.of_nat (length ls) < 2 ^ 30 →
  255 <= SUB_EPOCH_BLOCKS constants < 2 ^ 32 → 0 <= DIFFICULTY_STARTING constants < 2 ^ 64 →
  ∃ data total ws s,
    get_sub_epoch_data bc tip (hs ++ rest) = Ok data
    ∧ _map_sub_epoch_summaries (SUB_EPOCH_BLOCKS constants) (GENESIS_CHALLENGE constants) data
        (DIFFICULTY_STARTING constants) = Ok (ls, total, ws)
    ∧ py_index ls (-2) = Ok s ∧ get_seed_for_proof bc (hs ++ rest) tip = hash_of s.
Proof.
  intros Hle Hgt Hs Hl Hw Hlen Hmax Hn Hd.
  destruct (honest_map (SUB_EPOCH_BLOCKS constants) 0 0 (GENESIS_CHALLENGE constants) (DIFFICULTY_STARTING constants) ls)
    as (total&ws&Em); [done|done|lia|lia|done|done|].
  destruct (exists_last (l := ls)) as (ls1&s1&->); [intros ->; cbn in Hlen; lia|].
  destruct (exists_last (l := ls1)) as (ls2&s2&->); [intros ->; cbn in Hlen; lia|].
  exists (_create_sub_epoch_data <$> (ls2 ++ [s2]) ++ [s1]), total, ws, s2. split_and!; [by apply sub_epoch_data_of|done| |].
  - unfold py_index. cbn [Z.ltb Z.compare]. rewrite !length_app. cbn [length].
    destruct (Z.ltb_spec (-2 + Z.of_nat (length ls2 + 1 + 1)) 0); [lia|].
    replace (Z.to_nat (-2 + Z.of_nat (length ls2 + 1 + 1))) with (length ls2) by lia.
    rewrite <-app_assoc. by rewrite lookup_app_r, Nat.sub_diag by lia.
  - apply Forall2_app_inv_r in Hs as (hs1&t1&Hs1&Ht1&->). apply Forall2_app_inv_r in Hs1 as (hs2&t2&_&Ht2&->).
    inversion Ht1 as [|h1 ? ? ? _ Hn1]; subst. inversion Hn1; subst. inversion Ht2 as [|h2 ? ? ? E2 Hn2]; subst. inversion Hn2; subst.
    apply Forall_app in Hle as [Hle Hh1]. apply Forall_app in Hle as [_ Hh2]. rewrite Forall_singleton in Hh1, Hh2.
    unfold get_seed_for_proof. rewrite rev_app_distr, seed_skips by by apply Forall_rev.
    rewrite !rev_app_distr. cbn [rev app seed_summary]. rewrite (proj2 (Z.leb_le h1 tip)), (proj2 (Z.leb_le h2 tip)) by lia.
    cbn. by rewrite E2.
Qed.
End Agreement.

(** The chain of six summaries, with one more beyond the tip *)
Definition sample_prover : WpBlockchain := {|
  wb_try_block_record _ := Ok None; wb_get_peak_height := Some 2400; wb_get_ses_heights := [384; 768; 1152; 1536; 1920; 2304; 2688];
  wb_get_ses h := of_opt KeyError (mem_summaries sample_known !! h);
  wb_height_to_hash _ := Ok None; wb_height_to_block_record _ := Raise KeyError;
  wb_get_block_record_from_db _ := Ok None; wb_get_block_records_at _ := Ok [];
  wb_get_block_records_in_range _ _ := Ok []; wb_get_header_blocks_in_range _ _ := Ok [] |}.

Lemma honest_sub_epochs_recovered_witness :
  ∃ data total ws s,
    get_sub_epoch_data sample_prover 2400 ([384; 768; 1152; 1536; 1920; 2304] ++ [2688]) = Ok data
    ∧ _map_sub_epoch_summaries (SUB_EPOCH_BLOCKS DEFAULT_CONSTANTS) (GENESIS_CHALLENGE DEFAULT_CONSTANTS) data
        (DIFFICULTY_STARTING DEFAULT_CONSTANTS) = Ok (sample_summaries.1, total, ws)
    ∧ py_index sample_summaries.1 (-2) = Ok s
    ∧ get_seed_for_proof sample_prover ([384; 768; 1152; 1536; 1920; 2304] ++ [2688]) 2400 = hash_of s.
Proof.
  apply (honest_sub_epochs_recovered DEFAULT_CONSTANTS sample_prover 2400 [384; 768; 1152; 1536; 1920; 2304] [2688]
           sample_summaries.1).
  - repeat constructor; lia.
  - repeat constructor; lia.
  - vm_compute. repeat constructor.
  - exact sample_linked.
  - exact sample_summaries_well_formed.
  - vm_compute. lia.
  - vm_compute. reflexivity.
  - vm_compute. split; [discriminate|reflexivity].
  - vm_compute. split; [discriminate|reflexivity].
Defined.
