(* ===== verification/Bech32m.v ===== *)
(** * Addresses: bech32m

    Models [chia/util/bech32m.py]: the checksum, the encoding of a puzzle hash as an
    address and the decoding of an address.  Text is a list of character codes.

    An address made from a puzzle hash decodes to that puzzle hash, and an address in
    which one character of the data part is replaced by another is never accepted. *)
From S2P Require Import Prelude PyInt CoinStore.

(** ["qpzry9x8gf2tvdw0s3jn54khce6mua7l"] *)
Definition CHARSET : text :=
  [113; 112; 122; 114; 121; 57; 120; 56; 103; 102; 50; 116; 118; 100; 119; 48;
   115; 51; 106; 110; 53; 52; 107; 104; 99; 101; 54; 109; 117; 97; 55; 108].

Definition generator : list Z := [0x3B6A57B2; 0x26508E6D; 0x1EA119FA; 0x3D4233DD; 0x2A1462B3].

(** One round of [bech32_polymod] *)
Definition polymod_step (chk value : Z) : Z :=
  let top := Z.shiftr chk 25 in
  let chk := Z.lxor (Z.shiftl (Z.land chk 0x1FFFFFF) 5) value in
  foldl (λ chk '(i, g), Z.lxor chk (if bool_decide (Z.land (Z.shiftr top i) 1 ≠ 0) then g else 0)) chk
    (zip (seqZ 0 5) generator).
Definition bech32_polymod (values : list Z) : Z := foldl polymod_step 1 values.

Definition bech32_hrp_expand (hrp : text) : list Z :=
  ((λ x, Z.shiftr x 5) <$> hrp) ++ [0] ++ ((λ x, Z.land x 31) <$> hrp).

Definition M : Z := 0x2BC830A3.

Definition bech32_verify_checksum (hrp : text) (data : list Z) : bool :=
  bech32_polymod (bech32_hrp_expand hrp ++ data) =? M.

Definition bech32_create_checksum (hrp : text) (data : list Z) : list Z :=
  let values := bech32_hrp_expand hrp ++ data in
  let polymod := Z.lxor (bech32_polymod (values ++ [0; 0; 0; 0; 0; 0])) M in
  (λ i, Z.land (Z.shiftr polymod (5 * (5 - i))) 31) <$> seqZ 0 6.

Definition bech32_encode (hrp : text) (data : list Z) : res text :=
  let combined := data ++ bech32_create_checksum hrp data in
  chars ← for_each (py_index CHARSET) combined;
  Ok (hrp ++ [49] ++ chars).

(** [str.lower] and [str.upper] on printable ASCII characters *)
Definition lower (x : Z) : Z := if (65 <=? x) && (x <=? 90) then x + 32 else x.
Definition upper (x : Z) : Z := if (97 <=? x) && (x <=? 122) then x - 32 else x.

(** [s.rfind(c)] *)
Fixpoint rfind (c : Z) (s : text) : Z :=
  match s with
  | [] => -1
  | x :: s' => let r := rfind c s' in if 0 <=? r then r + 1 else if x =? c then 0 else -1
  end.
(** [s.find(c)] *)
Fixpoint find_char (c : Z) (s : text) : Z :=
  match s with
  | [] => -1
  | x :: s' => if x =? c then 0 else let r := find_char c s' in if 0 <=? r then r + 1 else -1
  end.

Definition bech32_decode (bech : text) : option (text * list Z) :=
  if existsb (λ x, (x <? 33) || (126 <? x)) bech
     || (bool_decide (lower <$> bech ≠ bech) && bool_decide (upper <$> bech ≠ bech)) then None
  else
    let bech := lower <$> bech in
    let pos := rfind 49 bech in
    let len := Z.of_nat (length bech) in
    if (pos <? 1) || (len <? pos + 7) || (90 <? len) then None
    else
      let tail := drop (Z.to_nat (pos + 1)) bech in
      if negb (forallb (λ x, bool_decide (x ∈ CHARSET)) tail) then None
      else
        let hrp := take (Z.to_nat pos) bech in
        let data := (λ x, find_char x CHARSET) <$> tail in
        if negb (bech32_verify_checksum hrp data) then None
        else Some (hrp, take (length data - 6) data).

(** The [while] of [convertbits]: the digits of [tobits] bits that are complete *)
Definition emit_body (tobits maxv acc : Z) (s : Z * list Z) : res (Z * list Z + Z * list Z) :=
  let '(bits, ret) := s in
  if tobits <=? bits then
    let bits := bits - tobits in
    Ok (inl (bits, ret ++ [Z.land (Z.shiftr acc bits) maxv]))
  else Ok (inr (bits, ret)).

Definition convert_step (frombits tobits : Z) (s : Z * Z * list Z) (value : Z) : res (Z * Z * list Z) :=
  let maxv := Z.shiftl 1 tobits - 1 in
  let max_acc := Z.shiftl 1 (frombits + tobits - 1) - 1 in
  let '(acc, bits, ret) := s in
  if (value <? 0) || negb (Z.shiftr value frombits =? 0) then Raise ValueError
  else
    let acc := Z.land (Z.lor (Z.shiftl acc frombits) value) max_acc in
    '(bits, ret) ← loop (S (Z.to_nat (bits + frombits))) (emit_body tobits maxv acc) (bits + frombits, ret);
    Ok (acc, bits, ret).

Definition convertbits (data : list Z) (frombits tobits : Z) (pad : bool) : res (list Z) :=
  let maxv := Z.shiftl 1 tobits - 1 in
  '(acc, bits, ret) ← for_fold (convert_step frombits tobits) (0, 0, []) data;
  if pad then Ok (if bits =? 0 then ret else ret ++ [Z.land (Z.shiftl acc (tobits - bits)) maxv])
  else if (frombits <=? bits) || negb (Z.land (Z.shiftl acc (tobits - bits)) maxv =? 0) then Raise ValueError
  else Ok ret.

Definition encode_puzzle_hash (puzzle_hash : bytes) (prefix : text) : res text :=
  data ← convertbits puzzle_hash 8 5 true;
  bech32_encode prefix data.

Definition decode_puzzle_hash (address : text) : res bytes :=
  match bech32_decode address with
  | None => Raise ValueError
  | Some (_, data) =>
      decoded ← convertbits data 5 8 false;
      if forallb (λ x, (0 <=? x) && (x <=? 255)) decoded then Ok decoded else Raise ValueError
  end.

(** ** The checksum is linear over the field of two elements *)
Definition shift (c : Z) : Z := polymod_step c 0.

Lemma bit_of c i : 0 <= i → bool_decide (Z.land (Z.shiftr c i) 1 ≠ 0) = Z.testbit c i.
Proof.
  intros Hi. change 1 with (Z.ones 1). rewrite Z.land_ones, <- Z.bit0_mod, Z.shiftr_spec, Z.add_0_l by lia.
  by destruct (Z.testbit c i).
Qed.

Definition feedback (c : Z) : Z :=
  Z.lxor (Z.lxor (Z.lxor (Z.lxor (if Z.testbit c 25 then 0x3B6A57B2 else 0) (if Z.testbit c 26 then 0x26508E6D else 0))
    (if Z.testbit c 27 then 0x1EA119FA else 0)) (if Z.testbit c 28 then 0x3D4233DD else 0))
    (if Z.testbit c 29 then 0x2A1462B3 else 0).
Lemma polymod_step_eq c v : polymod_step c v = Z.lxor (Z.lxor (Z.shiftl (Z.land c 0x1FFFFFF) 5) v) (feedback c).
Proof.
  unfold polymod_step, feedback. change (zip (seqZ 0 5) generator) with
    [(0, 0x3B6A57B2); (1, 0x26508E6D); (2, 0x1EA119FA); (3, 0x3D4233DD); (4, 0x2A1462B3)].
  cbn [foldl]. rewrite !bit_of by lia. rewrite !Z.shiftr_spec by lia. cbn [Z.add Pos.add Pos.add_carry Pos.succ].
  by rewrite !Z.lxor_assoc.
Qed.

Lemma lxor_swap a b c d : Z.lxor (Z.lxor a b) (Z.lxor c d) = Z.lxor (Z.lxor a c) (Z.lxor b d).
Proof. rewrite !Z.lxor_assoc. f_equal. rewrite <- !Z.lxor_assoc. f_equal. apply Z.lxor_comm. Qed.
Lemma feedback_lxor a b : feedback (Z.lxor a b) = Z.lxor (feedback a) (feedback b).
Proof.
  unfold feedback. rewrite !Z.lxor_spec.
  destruct (Z.testbit a 25), (Z.testbit a 26), (Z.testbit a 27), (Z.testbit a 28), (Z.testbit a 29),
    (Z.testbit b 25), (Z.testbit b 26), (Z.testbit b 27), (Z.testbit b 28), (Z.testbit b 29); reflexivity.
Qed.
Lemma land_lxor a b m : Z.land (Z.lxor a b) m = Z.lxor (Z.land a m) (Z.land b m).
Proof. apply Z.bits_inj'. intros n _. rewrite !Z.land_spec, !Z.lxor_spec, !Z.land_spec. by destruct (Z.testbit a n), (Z.testbit b n), (Z.testbit m n). Qed.
Lemma step_lxor a b u v : polymod_step (Z.lxor a b) (Z.lxor u v) = Z.lxor (polymod_step a u) (polymod_step b v).
Proof.
  rewrite !polymod_step_eq, feedback_lxor, land_lxor, Z.shiftl_lxor.
  rewrite (lxor_swap (Z.lxor _ u)). f_equal. apply lxor_swap.
Qed.

(** The checksum of the digitwise sum of two words *)
Lemma polymod_lxor us vs a b : length us = length vs →
  foldl polymod_step (Z.lxor a b) (zip_with Z.lxor us vs) = Z.lxor (foldl polymod_step a us) (foldl polymod_step b vs).
Proof.
  revert vs a b. induction us as [|u us IH]; intros [|v vs] a b E; try done. cbn. rewrite step_lxor. apply IH. by injection E.
Qed.

Lemma lxor_bound a b n : 0 <= n → 0 <= a < 2 ^ n → 0 <= b < 2 ^ n → 0 <= Z.lxor a b < 2 ^ n.
Proof.
  intros Hn Ha Hb. assert (E : Z.lxor a b = Z.lxor a b mod 2 ^ n).
  { rewrite <- Z.land_ones, land_lxor, !Z.land_ones, !Z.mod_small; lia. }
  rewrite E. apply Z.mod_pos_bound. lia.
Qed.
Lemma land_bound a n : 0 <= n → 0 <= Z.land a (Z.ones n) < 2 ^ n.
Proof. intros Hn. rewrite Z.land_ones by lia. apply Z.mod_pos_bound. lia. Qed.

Lemma step_bound c v : 0 <= v < 32 → 0 <= polymod_step c v < 2 ^ 30.
Proof.
  intros Hv. rewrite polymod_step_eq. apply lxor_bound; [lia| |].
  - apply lxor_bound; [lia| |lia]. change 0x1FFFFFF with (Z.ones 25). pose proof (land_bound c 25 ltac:(lia)).
    rewrite Z.shiftl_mul_pow2 by lia. lia.
  - unfold feedback. destruct (Z.testbit c 25), (Z.testbit c 26), (Z.testbit c 27), (Z.testbit c 28), (Z.testbit c 29);
      vm_compute; split; congruence.
Qed.
Definition digits (l : list Z) : Prop := Forall (λ v, 0 <= v < 32) l.
Lemma polymod_bound c l : 0 <= c < 2 ^ 30 → digits l → 0 <= foldl polymod_step c l < 2 ^ 30.
Proof. revert c. induction l as [|v l IH]; intros c Hc Hl; [done|]. inversion Hl; subst. apply IH; [by apply step_bound|done]. Qed.

(** As long as nothing leaves the top, a round shifts by one digit. *)
Lemma step_small c v : 0 <= c < 2 ^ 25 → 0 <= v < 32 → polymod_step c v = c * 32 + v.
Proof.
  intros Hc Hv. rewrite polymod_step_eq. assert (Hf : feedback c = 0).
  { unfold feedback. rewrite !(Z.bits_above_log2 c); [reflexivity|lia|..];
      (destruct (decide (c = 0)) as [->|]; [cbn; lia|]; enough (Z.log2 c < 25) by lia; apply Z.log2_lt_pow2; lia). }
  rewrite Hf, Z.lxor_0_r. change 0x1FFFFFF with (Z.ones 25). rewrite Z.land_ones, Z.mod_small by lia.
  rewrite <- Z.add_nocarry_lxor; [rewrite Z.shiftl_mul_pow2 by lia; lia|].
  apply Z.bits_inj'. intros n Hn. rewrite Z.land_spec, Z.bits_0. destruct (Z.ltb_spec n 5).
  - by rewrite Z.shiftl_spec_low.
  - rewrite (Z.bits_above_log2 v), andb_false_r; [done|lia|].
    destruct (decide (v = 0)) as [->|]; [cbn; lia|]. assert (Z.log2 v < 5) by (apply Z.log2_lt_pow2; lia). lia.
Qed.

Lemma six_digits p : 0 <= p < 2 ^ 30 →
  foldl polymod_step 0 ((λ i, Z.land (Z.shiftr p (5 * (5 - i))) 31) <$> seqZ 0 6) = p.
Proof.
  intros Hp. change (seqZ 0 6) with [0; 1; 2; 3; 4; 5]. cbn [fmap list_fmap foldl].
  change 31 with (Z.ones 5). rewrite !Z.land_ones, !Z.shiftr_div_pow2 by lia.
  change (5 * (5 - 0)) with 25. change (5 * (5 - 1)) with 20. change (5 * (5 - 2)) with 15.
  change (5 * (5 - 3)) with 10. change (5 * (5 - 4)) with 5. change (5 * (5 - 5)) with 0.
  set (d := λ k, p / 2 ^ k mod 2 ^ 5).
  assert (Hd : ∀ k, 0 <= d k < 32) by (intros k; apply Z.mod_pos_bound; lia).
  change (p / 2 ^ 25 mod 2 ^ 5) with (d 25). change (p / 2 ^ 20 mod 2 ^ 5) with (d 20).
  change (p / 2 ^ 15 mod 2 ^ 5) with (d 15). change (p / 2 ^ 10 mod 2 ^ 5) with (d 10).
  change (p / 2 ^ 5 mod 2 ^ 5) with (d 5). change (p / 2 ^ 0 mod 2 ^ 5) with (d 0).
  pose proof (Hd 25). pose proof (Hd 20). pose proof (Hd 15). pose proof (Hd 10). pose proof (Hd 5). pose proof (Hd 0).
  rewrite (step_small 0 (d 25)) by lia. rewrite (step_small _ (d 20)) by lia. rewrite (step_small _ (d 15)) by lia.
  rewrite (step_small _ (d 10)) by lia. rewrite (step_small _ (d 5)) by lia. rewrite (step_small _ (d 0)) by lia.
  subst d. cbn beta in *. Z.to_euclidean_division_equations; lia.
Qed.

Lemma create_is_digits hrp data : digits (bech32_create_checksum hrp data) ∧ length (bech32_create_checksum hrp data) = 6%nat.
Proof.
  split; [|done]. unfold bech32_create_checksum, digits. rewrite Forall_fmap. apply Forall_forall. intros i _. cbn.
  change 31 with (Z.ones 5). apply (land_bound _ 5). lia.
Qed.

Lemma zip_0_lxor l : zip_with Z.lxor (replicate (length l) 0) l = l.
Proof. induction l as [|x l IH]; cbn; [done|]. by rewrite IH. Qed.

(** The checksum appended makes the whole word verify. *)
Lemma created_checksum_verifies hrp data : digits (bech32_hrp_expand hrp ++ data) →
  bech32_verify_checksum hrp (data ++ bech32_create_checksum hrp data) = true.
Proof.
  intros Hd. unfold bech32_verify_checksum. apply Z.eqb_eq. rewrite app_assoc.
  set (values := bech32_hrp_expand hrp ++ data) in *. set (cs := bech32_create_checksum hrp data).
  destruct (create_is_digits hrp data) as [Hc Hl]. fold cs in Hc, Hl.
  set (p := bech32_polymod (values ++ [0; 0; 0; 0; 0; 0])).
  assert (Hp : 0 <= p < 2 ^ 30).
  { apply polymod_bound; [lia|]. apply Forall_app. split; [exact Hd|]. repeat constructor; lia. }
  assert (Ecs : foldl polymod_step 0 cs = Z.lxor p M).
  { unfold cs, bech32_create_checksum. fold values. fold p. apply six_digits. apply lxor_bound; [lia|exact Hp|vm_compute; split; congruence]. }
  unfold bech32_polymod. rewrite foldl_app. set (q := foldl polymod_step 1 values).
  assert (Eq : foldl polymod_step q cs = Z.lxor (foldl polymod_step q (replicate 6 0)) (foldl polymod_step 0 cs)).
  { rewrite <- polymod_lxor by (by rewrite Hl). rewrite Z.lxor_0_r. by rewrite <- Hl, zip_0_lxor. }
  assert (E6 : foldl polymod_step q (replicate 6 0) = p).
  { unfold p, q, bech32_polymod. by rewrite foldl_app. }
  rewrite Eq, Ecs, E6, <- Z.lxor_assoc, Z.lxor_nilpotent. reflexivity.
Qed.

(** ** [convertbits] keeps the number the digits write *)
Definition num (w : Z) (l : list Z) : Z := foldl (λ a x, a * 2 ^ w + x) 0 l.
Definition in_base (w : Z) (l : list Z) : Prop := Forall (λ v, 0 <= v < 2 ^ w) l.
Lemma num_snoc w l x : num w (l ++ [x]) = num w l * 2 ^ w + x.
Proof. unfold num. by rewrite foldl_app. Qed.
Lemma digit_split p a b x y : 0 <= x < p → 0 <= y < p → a * p + x = b * p + y → a = b ∧ x = y.
Proof. intros Hx Hy E. assert (a = b) as ->; [|lia]. destruct (Z.lt_trichotomy a b) as [?|[?|?]]; [nia|done|nia]. Qed.
Lemma num_inj w l l' : 0 <= w → length l = length l' → in_base w l → in_base w l' → num w l = num w l' → l = l'.
Proof.
  intros Hw. revert l'. induction l as [|x l IH] using rev_ind; intros l' Hlen Hl Hl' E.
  { by destruct l'. }
  destruct l' as [|y l' _] using rev_ind; [rewrite length_app in Hlen; cbn in Hlen; lia|].
  rewrite !num_snoc in E. apply Forall_app in Hl as [Hl Hx], Hl' as [Hl' Hy].
  inversion Hx; subst. inversion Hy; subst. rewrite !length_app in Hlen. cbn in Hlen.
  apply digit_split in E as [En ->]; [|done|done].
  f_equal. apply IH; [lia|done|done|done].
Qed.

Section Convert.
Context (frombits tobits : Z) (Hfrom : 0 < frombits) (Hto : 0 < tobits).
#[local] Notation maxv := (Z.shiftl 1 tobits - 1).

Lemma ones_eq w : 0 <= w → Z.shiftl 1 w - 1 = Z.ones w.
Proof. intros Hw. rewrite Z.ones_equiv, Z.shiftl_mul_pow2 by lia. lia. Qed.

(** The state after some digits that write [n] and have [total] bits *)
Definition converted (n total acc bits : Z) (ret : list Z) : Prop :=
  0 <= bits ∧ in_base tobits ret ∧ n = num tobits ret * 2 ^ bits + acc mod 2 ^ bits
  ∧ total = Z.of_nat (length ret) * tobits + bits.

Lemma emit_all n total acc bits ret : converted n total acc bits ret →
  ∃ bits' ret', loop (S (Z.to_nat bits)) (emit_body tobits maxv acc) (bits, ret) = Ok (bits', ret')
    ∧ converted n total acc bits' ret' ∧ bits' < tobits.
Proof using Hto.
  intros Hc.
  destruct (loop_total (emit_body tobits maxv acc) (λ s, converted n total acc s.1 s.2)
    (λ s, converted n total acc s.1 s.2 ∧ s.1 < tobits) (λ s, Z.to_nat s.1)) with (fuel := S (Z.to_nat bits)) (s := (bits, ret))
    as ([bits' ret']&E&Hq); [|exact Hc|cbn; lia|exists bits', ret'; split; [exact E|exact Hq]].
  clear bits ret Hc. intros [bits ret] (Hb&Hr&Hn&Ht). cbn [fst snd] in *. unfold emit_body.
  destruct (Z.leb_spec tobits bits) as [Hle|Hgt]; [left|right; eexists; split; [done|]; split; [|cbn; lia]; by split_and!].
  eexists. split; [done|]. cbn [fst snd]. split; [|lia]. set (b := bits - tobits).
  set (d := Z.land (Z.shiftr acc b) maxv).
  assert (Ed : d = acc / 2 ^ b mod 2 ^ tobits) by (unfold d; rewrite ones_eq, Z.land_ones, Z.shiftr_div_pow2 by lia; done).
  assert (Hd : 0 <= d < 2 ^ tobits) by (rewrite Ed; apply Z.mod_pos_bound; lia).
  split_and!; [lia|apply Forall_app; split; [done|by constructor]| |rewrite length_app; cbn; lia].
  rewrite num_snoc, Hn. replace bits with (b + tobits) by lia.
  rewrite Z.pow_add_r by lia. rewrite (Z.rem_mul_r acc (2 ^ b) (2 ^ tobits)) by lia. rewrite <- Ed. lia.
Qed.

Lemma convert_step_ok n total acc bits ret v : converted n total acc bits ret → bits < tobits → 0 <= v < 2 ^ frombits →
  ∃ acc' bits' ret', convert_step frombits tobits (acc, bits, ret) v = Ok (acc', bits', ret')
    ∧ converted (n * 2 ^ frombits + v) (total + frombits) acc' bits' ret' ∧ bits' < tobits.
Proof using Hfrom Hto.
  intros (Hb&Hr&Hn&Ht) Hlt Hv. unfold convert_step.
  rewrite (proj2 (Z.ltb_ge v 0)) by lia. rewrite (Z.shiftr_div_pow2 v) by lia. rewrite (Z.div_small v) by lia.
  cbn [orb negb Z.eqb]. set (acc' := Z.land _ _).
  assert (Ea : acc' = (acc * 2 ^ frombits + v) mod 2 ^ (frombits + tobits - 1)).
  { unfold acc'. rewrite ones_eq, Z.land_ones by lia. f_equal. rewrite <- Z.shiftl_mul_pow2 by lia.
    rewrite <- Z.lxor_lor, Z.add_nocarry_lxor; [done| |]; apply Z.bits_inj'; intros i Hi; rewrite Z.land_spec, Z.bits_0;
      (destruct (Z.ltb_spec i frombits); [by rewrite Z.shiftl_spec_low|];
       rewrite (Z.bits_above_log2 v), andb_false_r; [done|lia|];
       destruct (decide (v = 0)) as [->|]; [cbn; lia|]; assert (Z.log2 v < frombits) by (apply Z.log2_lt_pow2; lia); lia). }
  destruct (emit_all (n * 2 ^ frombits + v) (total + frombits) acc' (bits + frombits) ret) as (bits'&ret'&E&Hc&Hlt').
  - split_and!; [lia|done| |lia].
    assert (Em : acc' mod 2 ^ (bits + frombits) = acc mod 2 ^ bits * 2 ^ frombits + v).
    { rewrite Ea. replace (frombits + tobits - 1) with ((bits + frombits) + (tobits - 1 - bits)) by lia.
      rewrite (Z.pow_add_r 2 (bits + frombits)) by lia. rewrite Z.rem_mul_r by lia.
      rewrite (Z.mul_comm (2 ^ (bits + frombits)) (_ mod _)), Z_mod_plus_full, Z.mod_mod by lia.
      replace (acc * 2 ^ frombits + v) with (v + acc * 2 ^ frombits) by lia.
      replace (bits + frombits) with (frombits + bits) by lia. rewrite (Z.pow_add_r 2 frombits bits) by lia.
      rewrite Z.rem_mul_r by lia. rewrite Z_div_plus_full, Z_mod_plus_full by lia.
      rewrite (Z.mod_small v), (Z.div_small v) by lia. rewrite Z.add_0_l. lia. }
    rewrite Em, Hn, Z.pow_add_r by lia. lia.
  - exists acc', bits', ret'. rewrite E. cbn [mbind res_bind]. by split_and!.
Qed.

Lemma convert_all data : in_base frombits data →
  ∃ acc bits ret, for_fold (convert_step frombits tobits) (0, 0, []) data = Ok (acc, bits, ret)
    ∧ converted (num frombits data) (Z.of_nat (length data) * frombits) acc bits ret ∧ bits < tobits.
Proof using Hfrom Hto.
  induction data as [|v data IH] using rev_ind; intros Hd.
  - exists 0, 0, []. split; [done|]. split; [|lia]. split_and!; [lia|constructor|done|done].
  - apply Forall_app in Hd as [Hd Hv]. inversion Hv; subst. destruct (IH Hd) as (acc&bits&ret&E&Hc&Hlt).
    rewrite for_fold_app, E. cbn [mbind res_bind for_fold].
    destruct (convert_step_ok _ _ _ _ _ v Hc Hlt) as (acc'&bits'&ret'&E'&Hc'&Hlt'); [done|].
    exists acc', bits', ret'. rewrite E'. split; [done|]. split; [|exact Hlt'].
    rewrite num_snoc, length_app. cbn [length]. replace (Z.of_nat (length data + 1) * frombits) with
      (Z.of_nat (length data) * frombits + frombits) by lia. exact Hc'.
Qed.

(** The digit that holds the bits left over *)
Lemma last_digit acc bits : 0 <= bits < tobits →
  Z.land (Z.shiftl acc (tobits - bits)) maxv = acc mod 2 ^ bits * 2 ^ (tobits - bits).
Proof using Hto.
  intros Hb. rewrite ones_eq, Z.land_ones, Z.shiftl_mul_pow2 by lia.
  replace tobits with (bits + (tobits - bits)) at 2 by lia. rewrite Z.pow_add_r by lia. apply Z.mul_mod_distr_r; lia.
Qed.

Lemma convert_padded data : in_base frombits data →
  ∃ out pad, convertbits data frombits tobits true = Ok out ∧ in_base tobits out ∧ 0 <= pad < tobits
    ∧ num tobits out = num frombits data * 2 ^ pad
    ∧ Z.of_nat (length out) * tobits = Z.of_nat (length data) * frombits + pad.
Proof using Hfrom Hto.
  intros Hd. destruct (convert_all data Hd) as (acc&bits&ret&E&(Hb&Hr&Hn&Ht)&Hlt).
  unfold convertbits. rewrite E. cbn [mbind res_bind]. destruct (Z.eqb_spec bits 0) as [->|Hne].
  - exists ret, 0. split_and!; [done|done|lia|lia| |lia]. rewrite Hn, Z.pow_0_r, Z.mod_1_r. lia.
  - rewrite last_digit by lia. pose proof (Z.mod_pos_bound acc (2 ^ bits) ltac:(lia)) as Hm.
    eexists _, (tobits - bits). split; [done|]. split_and!; [|lia|lia| |rewrite length_app; cbn; lia].
    + apply Forall_app. split; [done|]. constructor; [|done].
      replace (2 ^ tobits) with (2 ^ bits * 2 ^ (tobits - bits)) by (rewrite <- Z.pow_add_r by lia; f_equal; lia). nia.
    + rewrite num_snoc, Hn. replace (2 ^ tobits) with (2 ^ bits * 2 ^ (tobits - bits)) by (rewrite <- Z.pow_add_r by lia; f_equal; lia). lia.
Qed.
End Convert.

(** Bytes written in digits of five bits are read back. *)
Lemma convertbits_roundtrip (data : bytes) : is_bytes data →
  ∃ out, convertbits data 8 5 true = Ok out ∧ digits out ∧ Z.of_nat (length out) * 5 < Z.of_nat (length data) * 8 + 5
    ∧ convertbits out 5 8 false = Ok data.
Proof.
  intros Hd. destruct (convert_padded 8 5 ltac:(lia) ltac:(lia) data Hd) as (out&pad&E&Ho&Hp&Hn&Hl).
  exists out. split; [exact E|]. split; [exact Ho|]. split; [lia|].
  destruct (convert_all 5 8 ltac:(lia) ltac:(lia) out Ho) as (acc&bits&ret&E'&(Hb&Hr&Hn'&Ht)&Hlt).
  unfold convertbits. rewrite E'. cbn [mbind res_bind]. assert (bits = pad ∧ length ret = length data) as [-> Hlen] by lia.
  pose proof (Z.mod_pos_bound acc (2 ^ pad) ltac:(lia)) as Hm.
  assert (acc mod 2 ^ pad = 0 ∧ num 8 ret = num 8 data) as [Hz Hr'].
  { rewrite Hn in Hn'. assert (0 < 2 ^ pad) by lia.
    destruct (digit_split (2 ^ pad) (num 8 data) (num 8 ret) 0 (acc mod 2 ^ pad)); [lia|lia|lia|done]. }
  rewrite (last_digit 8 ltac:(lia)) by lia. rewrite Hz. rewrite (proj2 (Z.leb_gt 5 pad)) by lia. cbn [Z.mul Z.eqb negb orb].
  f_equal. apply (num_inj 8); [lia|done|exact Hr|exact Hd|exact Hr'].
Qed.

(** ** Encoding and decoding *)

(** The characters of the data part are printable, in lower case, not the separator, and stand for their place. *)
Definition data_char (d c : Z) : bool :=
  match py_index CHARSET d with Ok c' => c' =? c | _ => false end && (33 <=? c) && (c <=? 126) && (lower c =? c) && negb (c =? 49)
  && (find_char c CHARSET =? d).
Lemma charset_char d : 0 <= d < 32 → ∃ c, data_char d c = true.
Proof.
  intros Hd. assert (H : Forall (λ d, match py_index CHARSET d with Ok c => data_char d c | _ => false end = true) (seqZ 0 32)).
  { apply (bool_decide_unpack _). vm_compute. exact I. }
  rewrite Forall_forall in H. specialize (H d ltac:(apply elem_of_seqZ; lia)). cbn beta in H.
  destruct (py_index CHARSET d) as [c| |]; [eauto|done..].
Qed.
Lemma charset_elem c : c ∈ CHARSET → data_char (find_char c CHARSET) c = true ∧ 0 <= find_char c CHARSET < 32.
Proof.
  intros Hc. assert (H : Forall (λ c, data_char (find_char c CHARSET) c = true ∧ 0 <= find_char c CHARSET < 32) CHARSET).
  { apply (bool_decide_unpack _). vm_compute. exact I. }
  rewrite Forall_forall in H. by apply H.
Qed.
Record char_facts (d c : Z) : Prop := {
  cf_index : py_index CHARSET d = Ok c;
  cf_range : 33 <= c <= 126;
  cf_lower : lower c = c;
  cf_not1 : c ≠ 49;
  cf_find : find_char c CHARSET = d;
  cf_elem : c ∈ CHARSET;
}.
Lemma data_char_facts d c : 0 <= d → data_char d c = true → char_facts d c.
Proof.
  unfold data_char. intros Hd H. zbool. destruct (py_index CHARSET d) as [c'| |] eqn:E; [|done..]. zbool. subst c'.
  split; try done; try lia. apply py_index_Ok in E; [|lia]. by eapply list_elem_of_lookup_2.
Qed.

Lemma encode_chars l : digits l → ∃ chars, for_each (py_index CHARSET) l = Ok chars ∧ Forall2 char_facts l chars.
Proof.
  induction 1 as [|d l Hd _ (chars&E&IH)]; [by exists []|]. destruct (charset_char d Hd) as (c&Hc).
  apply data_char_facts in Hc; [|lia]. exists (c :: chars). cbn [for_each]. rewrite (cf_index _ _ Hc), E. split; [done|by constructor].
Qed.

Lemma chars_find l chars : Forall2 char_facts l chars → (λ x, find_char x CHARSET) <$> chars = l.
Proof. induction 1 as [|d c l chars Hf _ IH]; [done|]. rewrite fmap_cons, IH. f_equal. apply Hf. Qed.
Lemma chars_lower l chars : Forall2 char_facts l chars → lower <$> chars = chars.
Proof. induction 1 as [|d c l chars Hf _ IH]; [done|]. rewrite fmap_cons, IH. f_equal. apply Hf. Qed.

Lemma rfind_absent c s : c ∉ s → rfind c s = -1.
Proof.
  induction s as [|x s IH]; [done|]. rewrite not_elem_of_cons. intros [Hx Hs]. cbn. rewrite IH by done. cbn.
  by rewrite (proj2 (Z.eqb_neq x c)).
Qed.
Lemma rfind_at c l r : c ∉ r → rfind c (l ++ c :: r) = Z.of_nat (length l).
Proof.
  intros Hr. induction l as [|x l IH]; cbn [app rfind length].
  - rewrite rfind_absent by done. cbn. by rewrite Z.eqb_refl.
  - rewrite IH. rewrite (proj2 (Z.leb_le 0 _)) by lia. lia.
Qed.

(** What [bech32_decode] does with a text in lower case, split at the last separator *)
Definition decode_parts (hrp chars : text) : option (text * list Z) :=
  if bool_decide (hrp = []) || (Z.of_nat (length chars) <? 6) || (90 <? Z.of_nat (length hrp + 1 + length chars))
     || existsb (λ x, (x <? 33) || (126 <? x)) hrp then None
  else if negb (forallb (λ x, bool_decide (x ∈ CHARSET)) chars) then None
  else
    let data := (λ x, find_char x CHARSET) <$> chars in
    if negb (bech32_verify_checksum hrp data) then None else Some (hrp, take (length data - 6) data).

Lemma decode_lower hrp chars : lower <$> (hrp ++ 49 :: chars) = hrp ++ 49 :: chars → 49 ∉ chars →
  bech32_decode (hrp ++ 49 :: chars) = decode_parts hrp chars.
Proof.
  intros Hl Hn. unfold bech32_decode, decode_parts. rewrite (bool_decide_eq_false_2 (lower <$> _ ≠ _)) by (by intros []).
  cbn [andb]. rewrite orb_false_r, Hl, (rfind_at _ _ _ Hn), length_app. cbn [length].
  rewrite existsb_app. cbn [existsb]. change (((49 <? 33) || (126 <? 49))%bool) with false. cbn [orb].
  replace (Z.to_nat (Z.of_nat (length hrp) + 1)) with (S (length hrp)) by lia.
  rewrite Nat2Z.id. rewrite take_app_length. change (hrp ++ 49 :: chars) with (hrp ++ [49] ++ chars).
  rewrite app_assoc. replace (S (length hrp)) with (length (hrp ++ [49])) by (rewrite length_app; cbn; lia). rewrite drop_app_length.
  destruct (existsb _ hrp) eqn:Eh; cbn [orb]; [by rewrite orb_true_r|]. rewrite orb_false_r.
  destruct (existsb _ chars) eqn:Ec; cbn [orb].
  { destruct (_ || _); [done|]. apply existsb_exists in Ec as (x&Hx%list_elem_of_In&Hr).
    destruct (forallb _ chars) eqn:Ef; [|done]. exfalso. rewrite forallb_forall in Ef.
    apply list_elem_of_In in Hx. specialize (Ef x Hx). zbool. apply charset_elem in Ef as [Ef ?].
    apply data_char_facts in Ef; [|lia]. pose proof (cf_range _ _ Ef). apply orb_true_iff in Hr as [?|?]; zbool; lia. }
  assert (Eb : (Z.of_nat (length hrp) <? 1) || (Z.of_nat (length hrp + S (length chars)) <? Z.of_nat (length hrp) + 7)
      || (90 <? Z.of_nat (length hrp + S (length chars)))
    = bool_decide (hrp = []) || (Z.of_nat (length chars) <? 6) || (90 <? Z.of_nat (length hrp + 1 + length chars))).
  { replace (length hrp + S (length chars))%nat with (length hrp + 1 + length chars)%nat by lia. f_equal. f_equal.
    - destruct hrp; [done|]. rewrite bool_decide_eq_false_2 by done. apply Z.ltb_ge. cbn. lia.
    - destruct (Z.ltb_spec (Z.of_nat (length chars)) 6); [apply Z.ltb_lt; lia|apply Z.ltb_ge; lia]. }
  by rewrite Eb.
Qed.

(** Prefixes that survive: not empty, printable, no capitals *)
Definition prefix_ok (hrp : text) : Prop := hrp ≠ [] ∧ Forall (λ x, 33 <= x <= 126 ∧ lower x = x) hrp.

Lemma expand_digits hrp : prefix_ok hrp → digits (bech32_hrp_expand hrp).
Proof.
  intros [_ H]. unfold bech32_hrp_expand, digits. rewrite !Forall_app, !Forall_fmap. split_and!.
  - eapply Forall_impl; [exact H|]. intros x [Hx _]. cbn. rewrite Z.shiftr_div_pow2 by lia.
    split; [apply Z.div_pos; lia|apply Z.div_lt_upper_bound; lia].
  - repeat constructor; lia.
  - apply Forall_forall. intros x _. cbn. change 31 with (Z.ones 5). by apply (land_bound x 5).
Qed.

Lemma bech32_roundtrip hrp data : prefix_ok hrp → digits data → (length hrp + 1 + (length data + 6) <= 90)%nat →
  ∃ s, bech32_encode hrp data = Ok s ∧ bech32_decode s = Some (hrp, data).
Proof.
  intros Hp Hd Hlen. unfold bech32_encode. set (cs := bech32_create_checksum hrp data).
  destruct (create_is_digits hrp data) as [Hc Hcl]. fold cs in Hc, Hcl.
  destruct (encode_chars (data ++ cs)) as (chars&E&Hch); [by apply Forall_app|]. rewrite E. cbn [mbind res_bind].
  eexists. split; [done|]. pose proof (Forall2_length _ _ _ Hch) as Hl. rewrite length_app, Hcl in Hl.
  change ([49] ++ chars) with (49 :: chars). rewrite decode_lower.
  - unfold decode_parts. destruct Hp as [Hne Hp]. rewrite bool_decide_eq_false_2 by done.
    rewrite (proj2 (Z.ltb_ge _ 6)) by lia. rewrite (proj2 (Z.ltb_ge 90 _)) by lia. cbn [orb].
    assert (Eh : existsb (λ x, (x <? 33) || (126 <? x)) hrp = false).
    { apply not_true_is_false. intros (x&Hx%list_elem_of_In&Hr)%existsb_exists. rewrite Forall_forall in Hp.
      destruct (Hp x Hx) as [? _]. apply orb_true_iff in Hr as [?|?]; zbool; lia. }
    rewrite Eh. assert (Ef : forallb (λ x, bool_decide (x ∈ CHARSET)) chars = true).
    { apply forallb_forall. intros x Hx%list_elem_of_In. apply bool_decide_eq_true_2.
      apply list_elem_of_lookup in Hx as (i&Hi). destruct (Forall2_lookup_r _ _ _ _ _ Hch Hi) as (d&_&Hf). apply Hf. }
    rewrite Ef. cbn [negb]. assert (Em : (λ x, find_char x CHARSET) <$> chars = data ++ cs).
    { exact (chars_find _ _ Hch). }
    rewrite Em. rewrite created_checksum_verifies by (apply Forall_app; split; [by apply expand_digits|exact Hd]).
    cbn [negb]. rewrite length_app, Hcl. replace (length data + 6 - 6)%nat with (length data) by lia. by rewrite take_app_length.
  - rewrite fmap_app, fmap_cons. f_equal; [|f_equal].
    + destruct Hp as [_ Hp]. clear -Hp. induction Hp as [|x l [_ Hx] _ IH]; [done|]. by rewrite fmap_cons, Hx, IH.
    + exact (chars_lower _ _ Hch).
  - intros (i&Hi)%list_elem_of_lookup. destruct (Forall2_lookup_r _ _ _ _ _ Hch Hi) as (d&_&Hf). by destruct (cf_not1 _ _ Hf).
Qed.

(** C37. The address of a puzzle hash decodes to that puzzle hash, for every printable prefix
    of at most 31 characters without capitals. *)
Theorem address_roundtrip (puzzle_hash : bytes) (prefix : text) :
  is_bytes puzzle_hash → length puzzle_hash = 32%nat → prefix_ok prefix → (length prefix <= 31)%nat →
  ∃ address, encode_puzzle_hash puzzle_hash prefix = Ok address ∧ decode_puzzle_hash address = Ok puzzle_hash.
Proof.
  intros Hb Hl Hp Hlen. destruct (convertbits_roundtrip puzzle_hash Hb) as (data&E&Hd&Hdl&E').
  destruct (bech32_roundtrip prefix data Hp Hd) as (s&Es&Ed); [lia|]. exists s.
  unfold encode_puzzle_hash, decode_puzzle_hash. rewrite E. cbn [mbind res_bind]. split; [exact Es|].
  rewrite Ed, E'. cbn [mbind res_bind]. assert (Ef : forallb (λ x, (0 <=? x) && (x <=? 255)) puzzle_hash = true).
  { apply forallb_forall. intros x Hx%list_elem_of_In. unfold is_bytes in Hb. rewrite Forall_forall in Hb. specialize (Hb x Hx).
    unfold is_byte in Hb. apply andb_true_intro. split; apply Z.leb_le; lia. }
  by rewrite Ef.
Qed.

(** ** One wrong character is detected *)

(** No digit vanishes from the checksum within the length of an address. *)
Fixpoint survives (n : nat) (c : Z) : bool :=
  negb (c =? 0) && match n with O => true | S n => survives n (shift c) end.
Lemma digits_survive e : 0 < e < 32 → survives 90 e = true.
Proof.
  intros He. assert (H : Forall (λ e, survives 90 e = true) (seqZ 1 31)) by (apply (bool_decide_unpack _); vm_compute; exact I).
  rewrite Forall_forall in H. apply H, elem_of_seqZ. lia.
Qed.
Lemma survives_zeros n c m : survives n c = true → (m <= n)%nat → foldl polymod_step c (replicate m 0) ≠ 0.
Proof.
  revert c m. induction n as [|n IH]; intros c [|m] Hs Hm; try lia; cbn in Hs; apply andb_prop in Hs as [Hc Hs]; zbool; cbn; [done|done|].
  apply IH; [exact Hs|lia].
Qed.

Lemma zip_lxor_insert l i x : l !! i = Some x → ∀ y,
  zip_with Z.lxor l (<[i := y]> l) = replicate i 0 ++ Z.lxor x y :: replicate (length l - S i) 0.
Proof.
  revert i. induction l as [|z l IH]; intros [|i] Hi y; try done.
  - injection Hi as ->. cbn. f_equal. rewrite Nat.sub_0_r. clear. induction l as [|z l IH]; [done|]. cbn. by rewrite Z.lxor_nilpotent, IH.
  - change (<[S i := y]> (z :: l)) with (z :: <[i := y]> l). cbn [zip_with]. by rewrite Z.lxor_nilpotent, (IH i Hi y).
Qed.
Lemma step_zeros n : foldl polymod_step 0 (replicate n 0) = 0.
Proof. induction n as [|n IH]; [done|]. exact IH. Qed.

Lemma polymod_differs v l i x y : l !! i = Some x → x ≠ y → 0 <= x < 32 → 0 <= y < 32 → (length l <= 90)%nat →
  foldl polymod_step v l ≠ foldl polymod_step v (<[i := y]> l).
Proof.
  intros Hi Hne Hx Hy Hl E.
  assert (Ez : Z.lxor (foldl polymod_step v l) (foldl polymod_step v (<[i := y]> l)) = 0) by (rewrite E; apply Z.lxor_nilpotent).
  rewrite <- polymod_lxor in Ez by (by rewrite length_insert). rewrite Z.lxor_nilpotent, (zip_lxor_insert _ _ _ Hi), foldl_app in Ez.
  rewrite step_zeros in Ez. cbn [foldl] in Ez. rewrite step_small in Ez; [|lia|by apply (lxor_bound x y 5)].
  revert Ez. cbn [Z.mul Z.add]. apply (survives_zeros 90); [|lia]. apply digits_survive.
  pose proof (lxor_bound x y 5 ltac:(lia) Hx Hy). assert (Z.lxor x y ≠ 0) by (intros ?%Z.lxor_eq; done). lia.
Qed.

(** Replacing one character of the data part of a valid address (in lower case) by another
    one that is not a capital and not the separator gives a text that is refused. *)
Theorem single_error_detected (hrp chars : text) (i : nat) (old new : Z) :
  bech32_decode (hrp ++ 49 :: chars) ≠ None → lower <$> (hrp ++ 49 :: chars) = hrp ++ 49 :: chars → 49 ∉ chars →
  chars !! i = Some old → new ≠ old → lower new = new → new ≠ 49 →
  bech32_decode (hrp ++ 49 :: <[i := new]> chars) = None.
Proof.
  unfold text in *. intros Hd Hl Hn Hi Hne Hnew H49. rewrite decode_lower in Hd by done.
  assert (Hin : <[i := new]> chars !! i = Some new) by (apply list_lookup_insert_eq; by eapply lookup_lt_Some).
  rewrite decode_lower.
  - unfold decode_parts in *. rewrite length_insert. destruct (_ || _) eqn:Eb; [done|].
    apply orb_false_elim in Eb as [Eb _]. apply orb_false_elim in Eb as [_ Eb]. zbool.
    destruct (forallb _ chars) eqn:Ef; [|done]. rewrite forallb_forall in Ef.
    destruct (forallb _ (<[i := new]> chars)) eqn:Ef'; [|done]. rewrite forallb_forall in Ef'. cbn [negb] in *.
    destruct (bech32_verify_checksum hrp _) eqn:Ev; [|done].
    destruct (bech32_verify_checksum hrp ((λ x, find_char x CHARSET) <$> <[i := new]> chars)) eqn:Ev'; [|done].
    exfalso. unfold bech32_verify_checksum, bech32_polymod in Ev, Ev'. zbool. rewrite foldl_app in Ev, Ev'.
    assert (Ho : old ∈ CHARSET) by (eapply bool_decide_eq_true_1, Ef, list_elem_of_In, list_elem_of_lookup_2; exact Hi).
    assert (Hw : new ∈ CHARSET) by (eapply bool_decide_eq_true_1, Ef', list_elem_of_In, list_elem_of_lookup_2; exact Hin).
    apply charset_elem in Ho as [Ho Ro], Hw as [Hw Rw]. apply data_char_facts in Ho, Hw; [|lia|lia].
    revert Ev'. rewrite <- Ev, list_fmap_insert. apply not_eq_sym.
    apply polymod_differs with (x := find_char old CHARSET); [by rewrite list_lookup_fmap, Hi| |done|done|].
    + intros Eq. pose proof (cf_index _ _ Ho) as E1. pose proof (cf_index _ _ Hw) as E2. rewrite Eq in E1. congruence.
    + rewrite length_fmap. lia.
  - rewrite fmap_app, fmap_cons in *. apply app_inj_1 in Hl as [Hh Hc]; [|by rewrite length_fmap]. rewrite Hh. f_equal. injection Hc as Hc.
    f_equal. rewrite list_fmap_insert, Hnew, Hc. done.
  - intros Hx. apply list_elem_of_lookup in Hx as (j&Hj). apply list_lookup_insert_Some in Hj as [(_&?&_)|[_ Hj]]; [congruence|].
    apply Hn. by eapply list_elem_of_lookup_2.
Qed.

(** ["xgl"] and the puzzle hash 1, 2, ..., 32 *)
Definition sample_prefix : text := [120; 103; 108].
Definition sample_puzzle_hash : bytes := seqZ 1 32.
Lemma sample_prefix_ok : prefix_ok sample_prefix.
Proof. split; [done|]. apply (bool_decide_unpack _). vm_compute. exact I. Qed.
Lemma address_roundtrip_witness :
  ∃ address, encode_puzzle_hash sample_puzzle_hash sample_prefix = Ok address ∧ decode_puzzle_hash address = Ok sample_puzzle_hash.
Proof.
  apply (address_roundtrip sample_puzzle_hash sample_prefix); [apply (bool_decide_unpack _); vm_compute; exact I|reflexivity|
    exact sample_prefix_ok|cbn; lia].
Defined.
Definition sample_data : text := match for_each (py_index CHARSET) ([1; 2; 3] ++ bech32_create_checksum sample_prefix [1; 2; 3]) with Ok l => l | _ => [] end.
Lemma single_error_detected_witness :
  bech32_decode (sample_prefix ++ 49 :: sample_data) = Some (sample_prefix, [1; 2; 3])
  ∧ bech32_decode (sample_prefix ++ 49 :: <[1%nat := 113]> sample_data) = None.
Proof.
  assert (E : bech32_decode (sample_prefix ++ 49 :: sample_data) = Some (sample_prefix, [1; 2; 3])) by (vm_compute; reflexivity).
  split; [exact E|].
  apply (single_error_detected sample_prefix sample_data 1 122 113);
    [rewrite E; discriminate|vm_compute; reflexivity|apply (bool_decide_unpack _); vm_compute; exact I|vm_compute; reflexivity|lia|reflexivity|lia].
Defined.
