(* ===== verification/LockQueue.v ===== *)
(** * The lock with priorities

    Models [chia/full_node/lock_queue.py] as a step relation: [LockQueue] runs a task
    that takes the entry with the lowest number out of a priority queue, acquires the
    inner lock for it, calls it, and waits until it releases the lock.  A step is what
    runs between two suspension points of asyncio.

    The tasks that enter the lock are numbered; each goes through [__aenter__] and
    [__aexit__] of [LockClient] with a priority.  The inner lock may also be held by
    code that does not go through the queue.  Which of several entries of one priority
    [asyncio.PriorityQueue] returns first is left open. *)
From S2P Require Import Prelude.

(** The task of a client: in [await called.wait()], resumed but not yet run, inside *)
Inductive ClientState := Waiting | Called | Inside.
#[export] Instance ClientState_eq_dec : EqDecision ClientState.
Proof. solve_decision. Defined.

(** Where [_run] is suspended *)
Inductive RunState :=
  | AtGet
  | AtAcquire (client : nat)
  | AtWait (client : nat).

Inductive Holder := ByQueue | ByOther.

Record LockQueue := {
  task_queue : list (Z * nat);
  run_task : RunState;
  release_event : bool;
  inner_lock : option Holder;
  clients : gmap nat ClientState;
}.
Definition new_queue : LockQueue :=
  {| task_queue := []; run_task := AtGet; release_event := false; inner_lock := None; clients := ∅ |}.

(** [__aenter__] up to [called.wait()]: the callback is put with its priority *)
Definition aenter (c : nat) (priority : Z) (s : LockQueue) : LockQueue := {|
  task_queue := task_queue s ++ [(priority, c)]; run_task := run_task s; release_event := release_event s;
  inner_lock := inner_lock s; clients := <[c := Waiting]> (clients s) |}.
(** [_run] has got the entry of [c] and made a new event *)
Definition run_got (rest : list (Z * nat)) (c : nat) (s : LockQueue) : LockQueue := {|
  task_queue := rest; run_task := AtAcquire c; release_event := false; inner_lock := inner_lock s; clients := clients s |}.
(** [_run] has acquired the lock and called the callback, which sets the event the client waits for *)
Definition run_acquired (c : nat) (s : LockQueue) : LockQueue := {|
  task_queue := task_queue s; run_task := AtWait c; release_event := release_event s; inner_lock := Some ByQueue;
  clients := match clients s !! c with Some Waiting => <[c := Called]> (clients s) | _ => clients s end |}.
(** The client runs on after [called.wait()]. *)
Definition resumed (c : nat) (s : LockQueue) : LockQueue := {|
  task_queue := task_queue s; run_task := run_task s; release_event := release_event s; inner_lock := inner_lock s;
  clients := <[c := Inside]> (clients s) |}.
(** [__aexit__]: [release] *)
Definition aexit (c : nat) (s : LockQueue) : LockQueue := {|
  task_queue := task_queue s; run_task := run_task s; release_event := true; inner_lock := None;
  clients := delete c (clients s) |}.
(** [_run] goes on after [_release_event.wait()]. *)
Definition run_released (s : LockQueue) : LockQueue := {|
  task_queue := task_queue s; run_task := AtGet; release_event := release_event s; inner_lock := inner_lock s;
  clients := clients s |}.
Definition set_lock (l : option Holder) (s : LockQueue) : LockQueue := {|
  task_queue := task_queue s; run_task := run_task s; release_event := release_event s; inner_lock := l; clients := clients s |}.
(** The task of a client that has not entered is cancelled: its entry stays in the queue. *)
Definition cancelled (c : nat) (s : LockQueue) : LockQueue := {|
  task_queue := task_queue s; run_task := run_task s; release_event := release_event s; inner_lock := inner_lock s;
  clients := delete c (clients s) |}.

(** An entry with the lowest number *)
Definition is_first (p : Z) (q : list (Z * nat)) : Prop := Forall (λ x, p <= x.1) q.

(** The steps of the queue and of the clients that are in it *)
Inductive inner_step : LockQueue → LockQueue → Prop :=
  | do_get pre p c post s :
      run_task s = AtGet → task_queue s = pre ++ (p, c) :: post → is_first p (task_queue s) →
      inner_step s (run_got (pre ++ post) c s)
  | do_acquire c s : run_task s = AtAcquire c → inner_lock s = None → inner_step s (run_acquired c s)
  | do_resume c s : clients s !! c = Some Called → inner_step s (resumed c s)
  | do_exit c s : clients s !! c = Some Inside → inner_step s (aexit c s)
  | do_released c s : run_task s = AtWait c → release_event s = true → inner_step s (run_released s).
(** What other tasks may do *)
Inductive outer_step : LockQueue → LockQueue → Prop :=
  | do_enter c p s : clients s !! c = None → Forall (λ x, x.2 ≠ c) (task_queue s) →
      run_task s ≠ AtAcquire c → run_task s ≠ AtWait c → outer_step s (aenter c p s)
  | do_lock s : inner_lock s = None → outer_step s (set_lock (Some ByOther) s)
  | do_unlock s : inner_lock s = Some ByOther → outer_step s (set_lock None s).
Inductive cancel_step : LockQueue → LockQueue → Prop :=
  | do_cancel c st s : clients s !! c = Some st → st ≠ Inside → cancel_step s (cancelled c s).
Definition step (s s' : LockQueue) : Prop := inner_step s s' ∨ outer_step s s'.
Definition any_step (s s' : LockQueue) : Prop := step s s' ∨ cancel_step s s'.

(** ** Mutual exclusion *)

(** A client that was called or is inside is the one [_run] waits for, and the queue holds the lock for it. *)
Record exclusive (s : LockQueue) : Prop := {
  ex_inside : ∀ c st, clients s !! c = Some st → st ≠ Waiting →
    run_task s = AtWait c ∧ inner_lock s = Some ByQueue ∧ release_event s = false;
  ex_held : inner_lock s = Some ByQueue → ∃ c, run_task s = AtWait c ∧ release_event s = false;
  ex_event : ∀ c, run_task s = AtAcquire c → release_event s = false;
}.

Lemma exclusive_inner s s' : inner_step s s' → exclusive s → exclusive s'.
Proof.
  intros Hs [Hi Hh He]; destruct Hs as [pre p c post s Hr Hq Hf|c s Hr Hl|c s Hc|c s Hc|c s Hr Hv]; split; cbn in *; try done.
  - intros c' st Hc Hne. destruct (Hi c' st Hc Hne) as (?&_). congruence.
  - intros Hl. destruct (Hh Hl) as (?&?&_). congruence.
  - intros c' st Hc Hne. specialize (He c Hr). destruct (decide (c' = c)) as [->|Hne']; [done|].
    assert (Hc' : clients s !! c' = Some st) by (destruct (clients s !! c) as [[]|]; [by rewrite lookup_insert_ne in Hc|done..]).
    destruct (Hi c' st Hc' Hne) as (?&_). congruence.
  - intros _. exists c. eauto.
  - intros c' st Hc' Hne. destruct (Hi c Called Hc) as (?&?&?); [done|]. destruct (decide (c' = c)) as [->|Hne']; [done|].
    rewrite lookup_insert_ne in Hc' by done. by apply (Hi c' st).
  - intros c' st Hc' Hne. destruct (Hi c Inside Hc) as (Hr&_); [done|]. apply lookup_delete_Some in Hc' as [Hne' Hc'].
    destruct (Hi c' st Hc' Hne) as (?&_). congruence.
  - intros c' Hr'. destruct (Hi c Inside Hc) as (?&_); [done|]. congruence.
  - intros c' st Hc Hne. destruct (Hi c' st Hc Hne) as (?&?&?). congruence.
  - intros Hl. destruct (Hh Hl) as (?&?&?). congruence.
Qed.
Lemma exclusive_outer s s' : outer_step s s' → exclusive s → exclusive s'.
Proof.
  intros Hs [Hi Hh He]; destruct Hs as [c p s Hc _ _ _|s Hl|s Hl]; split; cbn in *; try done.
  - intros c' st Hc' Hne. destruct (decide (c' = c)) as [->|Hne']; [rewrite lookup_insert_eq in Hc'; congruence|].
    rewrite lookup_insert_ne in Hc' by done. by apply (Hi c' st).
  - intros c st Hc Hne. destruct (Hi c st Hc Hne) as (?&?&?). congruence.
  - intros c st Hc Hne. destruct (Hi c st Hc Hne) as (?&?&?). congruence.
Qed.
Lemma exclusive_cancel s s' : cancel_step s s' → exclusive s → exclusive s'.
Proof.
  intros [c st s0 Hc Hn] [Hi Hh He]; split; cbn in *; try done.
  intros c' st' [Hne Hc']%lookup_delete_Some Hst. by apply (Hi c' st').
Qed.
Lemma exclusive_reachable s : rtc any_step new_queue s → exclusive s.
Proof.
  intros Hr. assert (H0 : exclusive new_queue) by done. revert H0. induction Hr as [s|s1 s2 s3 Hs _ IH]; [done|]. intros H1.
  apply IH. destruct Hs as [[Hs|Hs]|Hs]; eauto using exclusive_inner, exclusive_outer, exclusive_cancel.
Qed.

(** C34. Whatever the tasks do, also when tasks are cancelled, at most one client is inside,
    and while one is, the lock is held for it and nobody else can take it. *)
Theorem lock_exclusive (s : LockQueue) (c1 : nat) :
  rtc any_step new_queue s → clients s !! c1 = Some Inside →
  inner_lock s = Some ByQueue ∧ (∀ c2, clients s !! c2 = Some Inside → c2 = c1)
  ∧ ∀ s', any_step s s' → clients s' !! c1 = Some Inside ∨ s' = aexit c1 s.
Proof.
  intros Hr%exclusive_reachable H1. destruct (ex_inside _ Hr c1 Inside H1) as (Ht&Hl&He); [done|]. split; [exact Hl|]. split.
  - intros c2 H2. destruct (ex_inside _ Hr c2 Inside H2) as (?&_); [done|]. congruence.
  - intros s' [[Hs|Hs]|Hs].
    + destruct Hs as [pre p c post s Hr' _ _|c s Hr' Hl'|c s Hc|c s Hc|c s _ Hv]; [congruence|congruence| | |congruence].
      * left. cbn. destruct (decide (c = c1)) as [->|]; [by rewrite lookup_insert_eq|by rewrite lookup_insert_ne].
      * right. destruct (ex_inside _ Hr c Inside Hc) as (?&_); [done|]. congruence.
    + left. destruct Hs as [c p s Hc _ _ _|s Hl'|s Hl']; [|congruence|congruence].
      cbn. by rewrite lookup_insert_ne by congruence.
    + left. destruct Hs as [c st s Hc Hn]. cbn. rewrite lookup_delete_ne; [done|]. congruence.
Qed.

(** ** Everyone who waits gets in *)

(** The clients that wait are those with an entry, when no task is cancelled. *)
Record accounted (s : LockQueue) : Prop := {
  ac_entries : NoDup ((task_queue s).*2 ++ match run_task s with AtAcquire c => [c] | _ => [] end);
  ac_waiting : ∀ c, clients s !! c = Some Waiting ↔
    c ∈ (task_queue s).*2 ++ match run_task s with AtAcquire c => [c] | _ => [] end;
  ac_called : ∀ c, run_task s = AtWait c → release_event s = false →
    (clients s !! c = Some Called ∨ clients s !! c = Some Inside);
}.

Lemma accounted_inner s s' : inner_step s s' → exclusive s → accounted s → accounted s'.
Proof.
  intros Hs Hx [Hn Hw Hc]. destruct Hs as [pre p c post s Hr Hq Hf|c s Hr Hl|c s Hc1|c s Hc1|c s Hr Hv].
  - rewrite Hr, app_nil_r in *. rewrite Hq in Hn, Hw.
    assert (Hp : (pre ++ post).*2 ++ [c] ≡ₚ (pre ++ (p, c) :: post).*2).
    { rewrite !fmap_app, fmap_cons, <- app_assoc. cbn. apply Permutation_app_head. by rewrite Permutation_app_comm. }
    split; cbn; [by rewrite Hp|intros c'; by rewrite Hp|done].
  - rewrite Hr in *. assert (Hcw : clients s !! c = Some Waiting) by (apply Hw, elem_of_app; right; apply list_elem_of_here).
    apply NoDup_app in Hn as (Hn&Hni&_). split; cbn; rewrite ?Hcw, ?app_nil_r.
    + exact Hn.
    + intros c'. destruct (decide (c' = c)) as [->|Hne].
      * rewrite lookup_insert_eq. split; [done|]. intros Hin. destruct (Hni c Hin). apply list_elem_of_here.
      * rewrite lookup_insert_ne by done. rewrite Hw, elem_of_app, list_elem_of_singleton. naive_solver.
    + intros c' [= <-] _. left. apply lookup_insert_eq.
  - destruct (ex_inside _ Hx c Called Hc1) as (Hr&_&_); [done|]. rewrite Hr in *. split; cbn; rewrite Hr; [done| |].
    + intros c'. rewrite <- Hw. destruct (decide (c' = c)) as [->|]; [rewrite lookup_insert_eq; naive_solver|by rewrite lookup_insert_ne].
    + intros c' [= <-] _. right. apply lookup_insert_eq.
  - destruct (ex_inside _ Hx c Inside Hc1) as (Hr&_&_); [done|]. rewrite Hr in *. split; cbn; rewrite Hr; [done| |done].
    intros c'. rewrite <- Hw. destruct (decide (c' = c)) as [->|]; [rewrite lookup_delete_eq; naive_solver|by rewrite lookup_delete_ne].
  - rewrite Hr in *. split; cbn; [exact Hn|exact Hw|done].
Qed.
Lemma accounted_outer s s' : outer_step s s' → accounted s → accounted s'.
Proof.
  intros Hs [Hn Hw Hc]. destruct Hs as [c p s Hc1 Hq Hr1 Hr2|s Hl|s Hl]; [|by split..].
  set (acq := match run_task s with AtAcquire c => [c] | _ => [] end) in *.
  assert (Hp : (task_queue s ++ [(p, c)]).*2 ++ acq ≡ₚ c :: (task_queue s).*2 ++ acq).
  { rewrite fmap_app. cbn. rewrite <- app_assoc. cbn. symmetry. apply Permutation_middle. }
  assert (Hni : c ∉ (task_queue s).*2 ++ acq) by (rewrite <- Hw; congruence).
  split; cbn; fold acq.
  - rewrite Hp. by apply NoDup_cons.
  - intros c'. rewrite Hp, elem_of_cons, <- Hw.
    destruct (decide (c' = c)) as [->|]; [rewrite lookup_insert_eq; naive_solver|rewrite lookup_insert_ne by done; naive_solver].
  - intros c' Hr He. rewrite lookup_insert_ne by congruence. by apply Hc.
Qed.
Lemma step_reachable s : rtc step new_queue s → exclusive s ∧ accounted s.
Proof.
  intros Hr. assert (H0 : exclusive new_queue ∧ accounted new_queue).
  { split; [done|]. split; [constructor| |done]. intros c. cbn. rewrite lookup_empty. split; [done|]. by intros ?%not_elem_of_nil. }
  revert H0. induction Hr as [s|s1 s2 s3 Hs _ IH]; [done|]. intros [Hx Ha]. apply IH.
  destruct Hs as [Hs|Hs]; eauto using exclusive_inner, exclusive_outer, accounted_inner, accounted_outer.
Qed.

(** The steps left until the queue is empty *)
Definition steps_left (s : LockQueue) : nat :=
  5 * length (task_queue s) +
  match run_task s with
  | AtGet => 0
  | AtAcquire _ => 4
  | AtWait c => if release_event s then 1 else match clients s !! c with Some Called => 3 | Some Inside => 2 | _ => 1 end
  end.

Lemma steps_left_decrease s s' : exclusive s → inner_step s s' → (steps_left s' < steps_left s)%nat.
Proof.
  intros Hx Hs. unfold steps_left. destruct Hs as [pre p c post s Hr Hq Hf|c s Hr Hl|c s Hc|c s Hc|c s Hr Hv]; cbn.
  - rewrite Hr, Hq, !length_app. cbn. lia.
  - rewrite Hr. destruct (release_event s); [lia|]. destruct (clients s !! c) as [[]|] eqn:E; rewrite ?lookup_insert_eq, ?E; lia.
  - destruct (ex_inside _ Hx c Called Hc) as (->&_&->); [done|]. rewrite lookup_insert_eq, Hc. lia.
  - destruct (ex_inside _ Hx c Inside Hc) as (->&_&->); [done|]. rewrite Hc. lia.
  - rewrite Hr, Hv. lia.
Qed.

Lemma first_entry q : q ≠ [] → ∃ pre p c post, q = pre ++ (p, c) :: post ∧ is_first p q.
Proof.
  induction q as [|[p c] q IH]; [done|]. intros _. destruct q as [|x q].
  { exists [], p, c, []. split; [done|]. by repeat constructor. }
  destruct IH as (pre&p'&c'&post&E&Hf); [done|]. destruct (Z.le_gt_cases p p').
  - exists [], p, c, (x :: q). split; [done|]. constructor; [done|]. eapply Forall_impl; [exact Hf|]. cbn. lia.
  - exists ((p, c) :: pre), p', c', post. rewrite E. split; [done|]. constructor; [cbn; lia|]. by rewrite <- E.
Qed.

(** A queue that cannot move has nobody left in it. *)
Lemma stuck_empty s : exclusive s → accounted s → inner_lock s ≠ Some ByOther → (∀ s', ¬ inner_step s s') → clients s = ∅.
Proof.
  intros Hx [_ Hw Hc] Hl Hst. apply map_empty. intros c. destruct (clients s !! c) as [st|] eqn:E; [exfalso|done].
  destruct st; [|by eapply Hst, do_resume|by eapply Hst, do_exit].
  apply Hw in E. destruct (run_task s) as [|c'|c'] eqn:Hr.
  - rewrite app_nil_r in E. destruct (first_entry (task_queue s)) as (pre&p&c'&post&Eq&Hf).
    { intros Eq. rewrite Eq in E. by apply not_elem_of_nil in E. }
    eapply Hst, do_get; [exact Hr|exact Eq|exact Hf].
  - destruct (inner_lock s) as [[]|] eqn:El; [|done|by eapply Hst, do_acquire].
    destruct (ex_held _ Hx El) as (?&?&_). congruence.
  - destruct (release_event s) eqn:Ev; [by eapply Hst, do_released|].
    destruct (Hc c' eq_refl eq_refl) as [?|?]; [by eapply Hst, do_resume|by eapply Hst, do_exit].
Qed.

Lemma inner_lock_kept s s' : inner_step s s' → inner_lock s ≠ Some ByOther → inner_lock s' ≠ Some ByOther.
Proof. by destruct 1. Qed.

(** C35. As long as no waiting task is cancelled and nobody keeps the inner lock, the queue
    serves everyone: without new arrivals it comes to rest after at most [steps_left]
    steps, and at rest nobody is waiting or inside. *)
Theorem lock_queue_drains (s s' : LockQueue) (n : nat) :
  rtc step new_queue s → inner_lock s ≠ Some ByOther → nsteps inner_step n s s' →
  (n <= steps_left s)%nat ∧ ((∀ s'', ¬ inner_step s' s'') → clients s' = ∅).
Proof.
  intros Hr%step_reachable Hl Hn. revert Hr Hl. induction Hn as [s|n s1 s2 s3 Hs _ IH]; intros [Hx Ha] Hl.
  - split; [lia|]. by apply stuck_empty.
  - destruct IH as [IH1 IH2]; [eauto using exclusive_inner, accounted_inner|by eapply inner_lock_kept|].
    pose proof (steps_left_decrease _ _ Hx Hs). split; [lia|exact IH2].
Qed.

(** ** A cancelled task blocks the queue *)
Definition dead (s : LockQueue) : Prop :=
  (∃ c, run_task s = AtWait c) ∧ release_event s = false ∧ inner_lock s = Some ByQueue
  ∧ ∀ c st, clients s !! c = Some st → st = Waiting.
Lemma dead_step s s' : any_step s s' → dead s → dead s'.
Proof.
  intros Hs ((c0&Hr)&He&Hl&Hc). destruct Hs as [[Hs|Hs]|Hs].
  - destruct Hs as [pre p c post s Hr' _ _|c s Hr' _|c s Hc'|c s Hc'|c s _ Hv]; try congruence; by apply Hc in Hc'.
  - destruct Hs as [c p s Hc' _ _ _|s Hl'|s Hl']; [|congruence|congruence].
    split_and!; cbn; [by exists c0|done|done|]. intros c' st. rewrite lookup_insert_Some. naive_solver.
  - destruct Hs as [c st s Hc' _]. split_and!; cbn; [by exists c0|done|done|]. intros c' st' [_ Hd]%lookup_delete_Some. eauto.
Qed.

(** When the task of a client is cancelled while it waits, its entry stays in the queue:
    once [_run] has acquired the lock for it, the lock is never released again and nobody
    gets in, whatever the tasks do. *)
Theorem cancelled_client_blocks (s s' : LockQueue) (c : nat) :
  rtc any_step new_queue s → run_task s = AtAcquire c → clients s !! c = None → inner_lock s = None →
  rtc any_step (run_acquired c s) s' → inner_lock s' = Some ByQueue ∧ ∀ c', clients s' !! c' ≠ Some Inside.
Proof.
  intros Hr%exclusive_reachable Ht Hc Hl Hs.
  assert (Hd : dead (run_acquired c s)).
  { split_and!; cbn; [by exists c|exact (ex_event _ Hr _ Ht)|done|]. rewrite Hc. intros c' st Hst.
    destruct (decide (st = Waiting)) as [|Hne]; [done|]. destruct (ex_inside _ Hr c' st Hst Hne) as (?&_). congruence. }
  assert (Hd' : dead s') by (revert Hd; induction Hs as [|x y z Hxy _ IH]; [done|]; intros; apply IH; by eapply dead_step).
  destruct Hd' as (_&_&Hl'&Hw). split; [exact Hl'|]. intros c' Hin. by apply Hw in Hin.
Qed.

(** ** Two clients *)
Definition two_queued : LockQueue := aenter 1 1 (aenter 0 2 new_queue).
Lemma two_queued_reachable : rtc step new_queue two_queued.
Proof.
  apply rtc_l with (aenter 0 2 new_queue); [right; by apply do_enter|]. apply rtc_once. right.
  apply (do_enter 1 1); [done|by repeat constructor|done|done].
Qed.
Lemma two_got : inner_step two_queued (run_got [(2, 0%nat)] 1 two_queued).
Proof. eapply (do_get [(2, 0%nat)] 1 1 []); [done|done|]. cbn. repeat constructor; cbn; lia. Qed.
Lemma two_inside : rtc any_step new_queue (resumed 1 (run_acquired 1 (run_got [(2, 0%nat)] 1 two_queued))).
Proof.
  assert (Hs : rtc any_step new_queue two_queued) by (eapply rtc_subrel; [|exact two_queued_reachable]; by left).
  etrans; [exact Hs|]. eapply rtc_l; [left; left; exact two_got|].
  eapply rtc_l; [left; left; by apply do_acquire|]. apply rtc_once. left; left. by apply do_resume.
Qed.
Lemma lock_exclusive_witness :
  inner_lock (resumed 1 (run_acquired 1 (run_got [(2, 0%nat)] 1 two_queued))) = Some ByQueue.
Proof. apply (lock_exclusive _ 1 two_inside). apply lookup_insert_eq. Defined.
Lemma lock_queue_drains_witness : (1 <= steps_left two_queued)%nat.
Proof.
  apply (lock_queue_drains two_queued (run_got [(2, 0%nat)] 1 two_queued) 1 two_queued_reachable); [discriminate|].
  apply nsteps_once. exact two_got.
Defined.
Definition blocked : LockQueue := cancelled 1 (run_got [(2, 0%nat)] 1 two_queued).
Lemma blocked_reachable : rtc any_step new_queue blocked.
Proof.
  etrans; [eapply rtc_subrel; [|exact two_queued_reachable]; by left|]. eapply rtc_l; [left; left; exact two_got|].
  apply rtc_once. right. by apply do_cancel with Waiting.
Qed.
Lemma cancelled_client_blocks_witness :
  inner_lock (aenter 5 0 (run_acquired 1 blocked)) = Some ByQueue ∧ clients (aenter 5 0 (run_acquired 1 blocked)) !! 0%nat = Some Waiting.
Proof.
  split; [|reflexivity].
  apply (cancelled_client_blocks blocked (aenter 5 0 (run_acquired 1 blocked)) 1 blocked_reachable); [reflexivity|reflexivity|reflexivity|].
  apply rtc_once. left; right. apply (do_enter 5 0); [reflexivity|by repeat constructor|discriminate|discriminate].
Defined.
