(* ===== verification/RateLimits.v ===== *)
(** * Rate limits of messages

    Models [chia/server/rate_limits.py] and the message types of
    [chia/protocols/protocol_message_types.py]: the limits of each type of message and the
    counters that decide whether a message may be sent or is accepted.

    The minute a message falls into, [int(time.time() // reset_seconds)], is an argument.
    A limiter for outgoing messages lets through, in each minute and for each type, no
    more messages and bytes than the limits allow, and its counters are exactly those of
    the messages it let through. *)
From S2P Require Import Prelude PyInt PyFloat.

Module ProtocolMessageTypes.
Inductive t :=
  | handshake | harvester_handshake | new_proof_of_space | request_signatures | respond_signatures
  | new_signage_point | declare_proof_of_space | request_signed_values | signed_values | farming_info
  | new_peak_timelord | new_unfinished_block_timelord | new_infusion_point_vdf | new_signage_point_vdf
  | new_end_of_sub_slot_vdf | request_compact_proof_of_time | respond_compact_proof_of_time | new_peak
  | new_transaction | request_transaction | respond_transaction | request_proof_of_weight | respond_proof_of_weight
  | request_block | respond_block | reject_block | request_blocks | respond_blocks | reject_blocks
  | new_unfinished_block | request_unfinished_block | respond_unfinished_block | new_signage_point_or_end_of_sub_slot
  | request_signage_point_or_end_of_sub_slot | respond_signage_point | respond_end_of_sub_slot
  | request_mempool_transactions | request_compact_vdf | respond_compact_vdf | new_compact_vdf | request_peers
  | respond_peers | request_puzzle_solution | respond_puzzle_solution | reject_puzzle_solution | send_transaction
  | transaction_ack | new_peak_wallet | request_block_header | respond_block_header | reject_header_request
  | request_removals | respond_removals | reject_removals_request | request_additions | respond_additions
  | reject_additions_request | request_header_blocks | reject_header_blocks | respond_header_blocks
  | request_peers_introducer | respond_peers_introducer | farm_new_block | new_signage_point_harvester
  | request_plots | respond_plots | coin_state_update | register_interest_in_puzzle_hash | respond_to_ph_update
  | register_interest_in_coin | respond_to_coin_update | request_children | respond_children | request_ses_hashes
  | respond_ses_hashes | request_stakings | respond_stakings.
#[global] Instance eq_dec : EqDecision t.
Proof. solve_decision. Defined.
Definition value (x : t) : Z :=
  match x with
  | handshake => 1 | harvester_handshake => 3 | new_proof_of_space => 5 | request_signatures => 6
  | respond_signatures => 7 | new_signage_point => 8 | declare_proof_of_space => 9 | request_signed_values => 10
  | signed_values => 11 | farming_info => 12 | new_peak_timelord => 13 | new_unfinished_block_timelord => 14
  | new_infusion_point_vdf => 15 | new_signage_point_vdf => 16 | new_end_of_sub_slot_vdf => 17
  | request_compact_proof_of_time => 18 | respond_compact_proof_of_time => 19 | new_peak => 20
  | new_transaction => 21 | request_transaction => 22 | respond_transaction => 23 | request_proof_of_weight => 24
  | respond_proof_of_weight => 25 | request_block => 26 | respond_block => 27 | reject_block => 28
  | request_blocks => 29 | respond_blocks => 30 | reject_blocks => 31 | new_unfinished_block => 32
  | request_unfinished_block => 33 | respond_unfinished_block => 34 | new_signage_point_or_end_of_sub_slot => 35
  | request_signage_point_or_end_of_sub_slot => 36 | respond_signage_point => 37 | respond_end_of_sub_slot => 38
  | request_mempool_transactions => 39 | request_compact_vdf => 40 | respond_compact_vdf => 41
  | new_compact_vdf => 42 | request_peers => 43 | respond_peers => 44 | request_puzzle_solution => 45
  | respond_puzzle_solution => 46 | reject_puzzle_solution => 47 | send_transaction => 48 | transaction_ack => 49
  | new_peak_wallet => 50 | request_block_header => 51 | respond_block_header => 52 | reject_header_request => 53
  | request_removals => 54 | respond_removals => 55 | reject_removals_request => 56 | request_additions => 57
  | respond_additions => 58 | reject_additions_request => 59 | request_header_blocks => 60
  | reject_header_blocks => 61 | respond_header_blocks => 62 | request_peers_introducer => 63
  | respond_peers_introducer => 64 | farm_new_block => 65 | new_signage_point_harvester => 66 | request_plots => 67
  | respond_plots => 68 | coin_state_update => 69 | register_interest_in_puzzle_hash => 70
  | respond_to_ph_update => 71 | register_interest_in_coin => 72 | respond_to_coin_update => 73
  | request_children => 74 | respond_children => 75 | request_ses_hashes => 76 | respond_ses_hashes => 77
  | request_stakings => 100 | respond_stakings => 101
  end.
Definition all : list t := [
  handshake; harvester_handshake; new_proof_of_space; request_signatures; respond_signatures; new_signage_point;
  declare_proof_of_space; request_signed_values; signed_values; farming_info; new_peak_timelord;
  new_unfinished_block_timelord; new_infusion_point_vdf; new_signage_point_vdf; new_end_of_sub_slot_vdf;
  request_compact_proof_of_time; respond_compact_proof_of_time; new_peak; new_transaction; request_transaction;
  respond_transaction; request_proof_of_weight; respond_proof_of_weight; request_block; respond_block; reject_block;
  request_blocks; respond_blocks; reject_blocks; new_unfinished_block; request_unfinished_block;
  respond_unfinished_block; new_signage_point_or_end_of_sub_slot; request_signage_point_or_end_of_sub_slot;
  respond_signage_point; respond_end_of_sub_slot; request_mempool_transactions; request_compact_vdf;
  respond_compact_vdf; new_compact_vdf; request_peers; respond_peers; request_puzzle_solution;
  respond_puzzle_solution; reject_puzzle_solution; send_transaction; transaction_ack; new_peak_wallet;
  request_block_header; respond_block_header; reject_header_request; request_removals; respond_removals;
  reject_removals_request; request_additions; respond_additions; reject_additions_request; request_header_blocks;
  reject_header_blocks; respond_header_blocks; request_peers_introducer; respond_peers_introducer; farm_new_block;
  new_signage_point_harvester; request_plots; respond_plots; coin_state_update; register_interest_in_puzzle_hash;
  respond_to_ph_update; register_interest_in_coin; respond_to_coin_update; request_children; respond_children;
  request_ses_hashes; respond_ses_hashes; request_stakings; respond_stakings].
#[global] Instance countable : Countable t.
Proof.
  refine (inj_countable value (λ v, find (λ x, value x =? v) all) _). by intros [].
Defined.
(** [ProtocolMessageTypes(v)] *)
Definition of_value (v : Z) : res t := of_opt ValueError (find (λ x, value x =? v) all).
End ProtocolMessageTypes.
Import ProtocolMessageTypes.

Record RLSettings := { frequency : Z; max_size : Z; max_total_size : option Z }.
Definition rl (f m : Z) : RLSettings := {| frequency := f; max_size := m; max_total_size := None |}.
Definition rl3 (f m t : Z) : RLSettings := {| frequency := f; max_size := m; max_total_size := Some t |}.
Definition DEFAULT_SETTINGS : RLSettings := rl3 100 (1024 * 1024) (100 * 1024 * 1024).
Definition NON_TX_FREQ : Z := 1000.
Definition NON_TX_MAX_TOTAL_SIZE : Z := 100 * 1024 * 1024.

Definition rate_limits_tx (x : ProtocolMessageTypes.t) : option RLSettings :=
  match x with
  | new_transaction => Some (rl3 5000 100 (5000 * 100))
  | request_transaction => Some (rl3 5000 100 (5000 * 100))
  | respond_transaction => Some (rl3 5000 (1 * 1024 * 1024) (20 * 1024 * 1024))
  | send_transaction => Some (rl 5000 (1024 * 1024))
  | transaction_ack => Some (rl 5000 2048)
  | _ => None
  end.
Definition rate_limits_other (x : ProtocolMessageTypes.t) : option RLSettings :=
  match x with
  | handshake => Some (rl3 5 (10 * 1024) (5 * 10 * 1024))
  | harvester_handshake => Some (rl 5 (1024 * 1024))
  | new_signage_point_harvester => Some (rl 100 1024)
  | new_proof_of_space => Some (rl 100 2048)
  | request_signatures => Some (rl 100 2048)
  | respond_signatures => Some (rl 100 2048)
  | new_signage_point => Some (rl 200 2048)
  | declare_proof_of_space => Some (rl 100 (10 * 1024))
  | request_signed_values => Some (rl 100 512)
  | farming_info => Some (rl 100 1024)
  | signed_values => Some (rl 100 1024)
  | new_peak_timelord => Some (rl 100 (20 * 1024))
  | new_unfinished_block_timelord => Some (rl 100 (10 * 1024))
  | new_signage_point_vdf => Some (rl 100 (100 * 1024))
  | new_infusion_point_vdf => Some (rl 100 (100 * 1024))
  | new_end_of_sub_slot_vdf => Some (rl 100 (100 * 1024))
  | request_compact_proof_of_time => Some (rl 100 (10 * 1024))
  | respond_compact_proof_of_time => Some (rl 100 (100 * 1024))
  | new_peak => Some (rl 200 512)
  | request_proof_of_weight => Some (rl 5 100)
  | respond_proof_of_weight => Some (rl3 5 (50 * 1024 * 1024) (100 * 1024 * 1024))
  | request_block => Some (rl 200 100)
  | reject_block => Some (rl 200 100)
  | request_blocks => Some (rl 500 100)
  | respond_blocks => Some (rl3 100 (50 * 1024 * 1024) (5 * 50 * 1024 * 1024))
  | reject_blocks => Some (rl 100 100)
  | respond_block => Some (rl3 200 (2 * 1024 * 1024) (10 * 2 * 1024 * 1024))
  | new_unfinished_block => Some (rl 200 100)
  | request_unfinished_block => Some (rl 200 100)
  | respond_unfinished_block => Some (rl3 200 (2 * 1024 * 1024) (10 * 2 * 1024 * 1024))
  | new_signage_point_or_end_of_sub_slot => Some (rl 200 200)
  | request_signage_point_or_end_of_sub_slot => Some (rl 200 200)
  | respond_signage_point => Some (rl 200 (50 * 1024))
  | respond_end_of_sub_slot => Some (rl 100 (50 * 1024))
  | request_mempool_transactions => Some (rl 5 (1024 * 1024))
  | request_compact_vdf => Some (rl 200 1024)
  | respond_compact_vdf => Some (rl 200 (100 * 1024))
  | new_compact_vdf => Some (rl 100 1024)
  | request_peers => Some (rl 10 100)
  | respond_peers => Some (rl 10 (1 * 1024 * 1024))
  | request_puzzle_solution => Some (rl 1000 100)
  | respond_puzzle_solution => Some (rl 1000 (1024 * 1024))
  | reject_puzzle_solution => Some (rl 1000 100)
  | new_peak_wallet => Some (rl 200 300)
  | request_block_header => Some (rl 500 100)
  | respond_block_header => Some (rl 500 (500 * 1024))
  | reject_header_request => Some (rl 500 100)
  | request_removals => Some (rl3 500 (50 * 1024) (10 * 1024 * 1024))
  | respond_removals => Some (rl3 500 (1024 * 1024) (10 * 1024 * 1024))
  | reject_removals_request => Some (rl 500 100)
  | request_additions => Some (rl3 500 (1024 * 1024) (10 * 1024 * 1024))
  | respond_additions => Some (rl3 500 (1024 * 1024) (10 * 1024 * 1024))
  | reject_additions_request => Some (rl 500 100)
  | request_header_blocks => Some (rl 500 100)
  | reject_header_blocks => Some (rl 100 100)
  | respond_header_blocks => Some (rl3 500 (2 * 1024 * 1024) (100 * 1024 * 1024))
  | request_peers_introducer => Some (rl 100 100)
  | respond_peers_introducer => Some (rl 100 (1024 * 1024))
  | farm_new_block => Some (rl 200 200)
  | request_plots => Some (rl 10 (10 * 1024 * 1024))
  | respond_plots => Some (rl 10 (100 * 1024 * 1024))
  | request_stakings => Some (rl 100 2048)
  | respond_stakings => Some (rl 100 2048)
  | coin_state_update => Some (rl 1000 (100 * 1024 * 1024))
  | register_interest_in_puzzle_hash => Some (rl 1000 (100 * 1024 * 1024))
  | respond_to_ph_update => Some (rl 1000 (100 * 1024 * 1024))
  | register_interest_in_coin => Some (rl 1000 (100 * 1024 * 1024))
  | respond_to_coin_update => Some (rl 1000 (100 * 1024 * 1024))
  | request_ses_hashes => Some (rl 2000 (1 * 1024 * 1024))
  | respond_ses_hashes => Some (rl 2000 (1 * 1024 * 1024))
  | request_children => Some (rl 2000 (1024 * 1024))
  | respond_children => Some (rl 2000 (1 * 1024 * 1024))
  | _ => None
  end.

Record RateLimiter := {
  incoming : bool;
  current_minute : Z;
  message_counts : gmap ProtocolMessageTypes.t Z;
  message_cumulative_sizes : gmap ProtocolMessageTypes.t Z;
  percentage_of_limit : Z;
  non_tx_message_counts : Z;
  non_tx_cumulative_size : Z;
}.
Definition new_limiter (incoming : bool) (minute percentage : Z) : RateLimiter := {|
  incoming := incoming; current_minute := minute; message_counts := ∅; message_cumulative_sizes := ∅;
  percentage_of_limit := percentage; non_tx_message_counts := 0; non_tx_cumulative_size := 0 |}.

(** A new minute starts with empty counters. *)
Definition enter_minute (minute : Z) (s : RateLimiter) : RateLimiter :=
  if minute =? current_minute s then s else new_limiter (incoming s) minute (percentage_of_limit s).

(** [Counter]: a missing key counts 0 *)
Definition counter (c : gmap ProtocolMessageTypes.t Z) (x : ProtocolMessageTypes.t) : Z := default 0 (c !! x).

(** [n > limit * proportion_of_limit] *)
Definition over (n limit : Z) (proportion_of_limit : float) : res bool :=
  f ← float_of_int limit; Ok (float_lt_int (float_mul f proportion_of_limit) n).

Definition total_size_of (limits : RLSettings) : Z := default (frequency limits * max_size limits) (max_total_size limits).

(** The counters as they would be with the message, and the verdict *)
Record Verdict := { vd_ok : bool; vd_non_tx_count : Z; vd_non_tx_size : Z }.
Definition check_limits (x : ProtocolMessageTypes.t) (len : Z) (proportion : float) (s : RateLimiter) : res Verdict :=
  let count := counter (message_counts s) x + 1 in
  let size := counter (message_cumulative_sizes s) x + len in
  let check_type (limits : RLSettings) (nc ns : Z) :=
    o ← over count (frequency limits) proportion;
    if (o : bool) then Ok {| vd_ok := false; vd_non_tx_count := nc; vd_non_tx_size := ns |}
    else if max_size limits <? len then Ok {| vd_ok := false; vd_non_tx_count := nc; vd_non_tx_size := ns |}
    else
      o ← over size (total_size_of limits) proportion;
      Ok {| vd_ok := negb o; vd_non_tx_count := nc; vd_non_tx_size := ns |} in
  let nc := non_tx_message_counts s in
  let ns := non_tx_cumulative_size s in
  match rate_limits_tx x with
  | Some limits => check_type limits nc ns
  | None =>
      match rate_limits_other x with
      | Some limits =>
          let nc := nc + 1 in
          let ns := ns + len in
          o ← over nc NON_TX_FREQ proportion;
          if (o : bool) then Ok {| vd_ok := false; vd_non_tx_count := nc; vd_non_tx_size := ns |}
          else
            o ← over ns NON_TX_MAX_TOTAL_SIZE proportion;
            if (o : bool) then Ok {| vd_ok := false; vd_non_tx_count := nc; vd_non_tx_size := ns |}
            else check_type limits nc ns
      | None => check_type DEFAULT_SETTINGS nc ns
      end
  end.

(** The counters once the message counts *)
Definition commit (x : ProtocolMessageTypes.t) (len : Z) (v : Verdict) (s : RateLimiter) : RateLimiter := {|
  incoming := incoming s; current_minute := current_minute s;
  message_counts := <[x := counter (message_counts s) x + 1]> (message_counts s);
  message_cumulative_sizes := <[x := counter (message_cumulative_sizes s) x + len]> (message_cumulative_sizes s);
  percentage_of_limit := percentage_of_limit s;
  non_tx_message_counts := vd_non_tx_count v; non_tx_cumulative_size := vd_non_tx_size v |}.

(** [minute] is when the message is processed, [msg_type] the byte of its type, [len] the length of its data. *)
Definition process_msg_and_check (minute msg_type len : Z) : ST RateLimiter bool :=
  st_modify (enter_minute minute) ;;
  match ProtocolMessageTypes.of_value msg_type with
  | Ok x =>
      s ← st_get;
      proportion ← st_res (int_truediv (percentage_of_limit s) 100);
      v ← st_res (check_limits x len proportion s);
      st_modify (if incoming s || vd_ok v then commit x len v else id) ;;
      mret (vd_ok v)
  | _ => mret true
  end.

(** ** What gets through *)
Record Msg := { m_minute : Z; m_type : Z; m_len : Z }.

(** The messages of known types that count in the current minute: a new minute starts over. *)
Definition note (minute : Z) (counted : bool) (m : ProtocolMessageTypes.t * Z) (w : Z * list (ProtocolMessageTypes.t * Z)) :
    Z * list (ProtocolMessageTypes.t * Z) :=
  let l := if minute =? w.1 then w.2 else [] in (minute, if counted then l ++ [m] else l).

Definition of_type (x : ProtocolMessageTypes.t) (l : list (ProtocolMessageTypes.t * Z)) : list (ProtocolMessageTypes.t * Z) :=
  filter (λ m, m.1 = x) l.
Definition is_other (x : ProtocolMessageTypes.t) : bool :=
  match rate_limits_tx x, rate_limits_other x with None, Some _ => true | _, _ => false end.
Definition others (l : list (ProtocolMessageTypes.t * Z)) : list (ProtocolMessageTypes.t * Z) :=
  filter (λ m, is_other m.1 = true) l.
Definition total (l : list (ProtocolMessageTypes.t * Z)) : Z := foldr (λ m a, m.2 + a) 0 l.
Definition count (l : list (ProtocolMessageTypes.t * Z)) : Z := Z.of_nat (length l).

(** The counters are those of the messages [w]. *)
Record counts (w : Z * list (ProtocolMessageTypes.t * Z)) (s : RateLimiter) : Prop := {
  co_minute : current_minute s = w.1;
  co_type : ∀ x, counter (message_counts s) x = count (of_type x w.2);
  co_size : ∀ x, counter (message_cumulative_sizes s) x = total (of_type x w.2);
  co_other : non_tx_message_counts s = count (others w.2);
  co_other_size : non_tx_cumulative_size s = total (others w.2);
}.

(** [n <= limit * percentage / 100] in the arithmetic of the code *)
Definition within (percentage n limit : Z) : Prop :=
  ∃ p f, int_truediv percentage 100 = Ok p ∧ float_of_int limit = Ok f ∧ float_lt_int (float_mul f p) n = false.
Definition settings_of (x : ProtocolMessageTypes.t) : RLSettings :=
  match rate_limits_tx x with Some l => l | None => default DEFAULT_SETTINGS (rate_limits_other x) end.

(** The messages [l] of one minute respect every limit. *)
Record respected (percentage : Z) (l : list (ProtocolMessageTypes.t * Z)) : Prop := {
  re_count : ∀ x, of_type x l ≠ [] → within percentage (count (of_type x l)) (frequency (settings_of x));
  re_size : ∀ x, of_type x l ≠ [] → within percentage (total (of_type x l)) (total_size_of (settings_of x));
  re_each : ∀ x n, (x, n) ∈ l → n <= max_size (settings_of x);
  re_other : others l ≠ [] → within percentage (count (others l)) NON_TX_FREQ ∧ within percentage (total (others l)) NON_TX_MAX_TOTAL_SIZE;
}.

(** The run of a limiter on a sequence of messages; the log collects what counts. *)
Fixpoint run_limiter (l : list Msg) (w : Z * list (ProtocolMessageTypes.t * Z)) :
    ST RateLimiter (Z * list (ProtocolMessageTypes.t * Z)) :=
  match l with
  | [] => mret w
  | m :: l =>
      ok ← process_msg_and_check (m_minute m) (m_type m) (m_len m);
      s ← st_get;
      run_limiter l (match ProtocolMessageTypes.of_value (m_type m) with
                     | Ok x => note (m_minute m) (incoming s || ok) (x, m_len m) w
                     | _ => note (m_minute m) false (handshake, 0) w
                     end)
  end.

Lemma total_app l l' : total (l ++ l') = total l + total l'.
Proof. unfold total. induction l as [|m l IH]; cbn; [done|]. unfold total in IH. lia. Qed.
Lemma of_type_snoc x l y n : of_type x (l ++ [(y, n)]) = of_type x l ++ (if decide (y = x) then [(y, n)] else []).
Proof. unfold of_type. rewrite filter_app. cbn. by destruct (decide (y = x)). Qed.
Lemma others_snoc l y n : others (l ++ [(y, n)]) = others l ++ (if is_other y then [(y, n)] else []).
Proof. unfold others. rewrite filter_app, filter_cons, filter_nil. cbn [fst]. by destruct (is_other y). Qed.

Lemma counts_empty inc minute p : counts (minute, []) (new_limiter inc minute p).
Proof. by split. Qed.
Lemma counts_enter minute w s : counts w s →
  counts (note minute false (handshake, 0) w) (enter_minute minute s).
Proof.
  intros Hc. unfold note, enter_minute. rewrite (co_minute _ _ Hc). destruct (Z.eqb_spec minute w.1) as [->|]; [|apply counts_empty].
  destruct Hc. by split.
Qed.

(** The verdict counts the message among the others if it is one. *)
Lemma check_limits_other x len p s v : check_limits x len p s = Ok v →
  vd_non_tx_count v = non_tx_message_counts s + (if is_other x then 1 else 0)
  ∧ vd_non_tx_size v = non_tx_cumulative_size s + (if is_other x then len else 0).
Proof.
  unfold check_limits, is_other. intros E. destruct (rate_limits_tx x); [res_inv; cbn; lia|].
  destruct (rate_limits_other x); res_inv; cbn; lia.
Qed.

Lemma counts_commit x len p s w v : counts w s → check_limits x len p s = Ok v →
  counts (w.1, w.2 ++ [(x, len)]) (commit x len v s).
Proof.
  intros [Hm Ht Hs Ho Hos] E. destruct (check_limits_other _ _ _ _ _ E) as [E1 E2].
  split; cbn [fst snd commit current_minute message_counts message_cumulative_sizes non_tx_message_counts non_tx_cumulative_size].
  - exact Hm.
  - intros y. rewrite of_type_snoc. unfold counter at 1. destruct (decide (x = y)) as [->|Hne].
    + rewrite lookup_insert_eq. cbn. rewrite Ht. unfold count. rewrite length_app. cbn. lia.
    + rewrite lookup_insert_ne, app_nil_r by done. apply Ht.
  - intros y. rewrite of_type_snoc, total_app. unfold counter at 1. destruct (decide (x = y)) as [->|Hne].
    + rewrite lookup_insert_eq. cbn. rewrite Hs. lia.
    + rewrite lookup_insert_ne by done. cbn. rewrite Z.add_0_r. apply Hs.
  - rewrite others_snoc, E1, Ho. unfold count. rewrite length_app. destruct (is_other x); cbn; lia.
  - rewrite others_snoc, total_app, E2, Hos. destruct (is_other x); cbn; lia.
Qed.

Lemma check_limits_ok x len p s v : check_limits x len p s = Ok v → vd_ok v = true →
  over (counter (message_counts s) x + 1) (frequency (settings_of x)) p = Ok false ∧ len <= max_size (settings_of x)
  ∧ over (counter (message_cumulative_sizes s) x + len) (total_size_of (settings_of x)) p = Ok false
  ∧ (is_other x = true → over (non_tx_message_counts s + 1) NON_TX_FREQ p = Ok false
       ∧ over (non_tx_cumulative_size s + len) NON_TX_MAX_TOTAL_SIZE p = Ok false).
Proof.
  unfold check_limits, settings_of, is_other. intros E Hv. destruct (rate_limits_tx x) as [l|].
  - apply bind_Ok in E as ([]&E1&E); [apply Ok_inj in E; by subst|]. destruct (Z.ltb_spec (max_size l) len); [apply Ok_inj in E; by subst|].
    apply bind_Ok in E as (o&E2&E). apply Ok_inj in E. subst v. cbn in Hv. by destruct o.
  - destruct (rate_limits_other x) as [l|]; cbn [default].
    + apply bind_Ok in E as ([]&E3&E); [apply Ok_inj in E; by subst|]. apply bind_Ok in E as ([]&E4&E); [apply Ok_inj in E; by subst|].
      apply bind_Ok in E as ([]&E1&E); [apply Ok_inj in E; by subst|]. destruct (Z.ltb_spec (max_size l) len); [apply Ok_inj in E; by subst|].
      apply bind_Ok in E as (o&E2&E). apply Ok_inj in E. subst v. cbn in Hv. by destruct o.
    + apply bind_Ok in E as ([]&E1&E); [apply Ok_inj in E; by subst|].
      destruct (Z.ltb_spec (max_size DEFAULT_SETTINGS) len); [apply Ok_inj in E; by subst|].
      apply bind_Ok in E as (o&E2&E). apply Ok_inj in E. subst v. cbn in Hv. by destruct o.
Qed.
Lemma over_within percentage p n limit : int_truediv percentage 100 = Ok p → over n limit p = Ok false → within percentage n limit.
Proof. intros Hp E. unfold over in E. apply bind_Ok in E as (f&Ef&E). apply Ok_inj in E. by exists p, f. Qed.

Lemma respected_snoc percentage p x len s w v : int_truediv percentage 100 = Ok p → counts w s → respected percentage w.2 →
  check_limits x len p s = Ok v → vd_ok v = true → respected percentage (w.2 ++ [(x, len)]).
Proof.
  intros Hp [_ Ht Hs Ho Hos] [R1 R2 R3 R4] E Hv. destruct (check_limits_ok _ _ _ _ _ E Hv) as (O1&Hl&O2&O3). split.
  - intros y. rewrite of_type_snoc. destruct (decide (x = y)) as [->|]; [intros _|rewrite app_nil_r; apply R1].
    unfold count. rewrite length_app. rewrite Ht in O1. apply (over_within _ _ _ _ Hp) in O1. cbn.
    replace (Z.of_nat _) with (count (of_type y w.2) + 1) by (unfold count; lia). exact O1.
  - intros y. rewrite of_type_snoc, total_app. destruct (decide (x = y)) as [->|]; [intros _|rewrite app_nil_r, Z.add_0_r; apply R2].
    cbn. rewrite Z.add_0_r. rewrite Hs in O2. by apply (over_within _ _ _ _ Hp).
  - intros y n [Hin|Hin]%elem_of_app; [by apply R3|]. apply list_elem_of_singleton in Hin. by simplify_eq.
  - rewrite others_snoc, total_app. destruct (is_other x) eqn:Eo; [intros _|rewrite app_nil_r, Z.add_0_r; apply R4].
    destruct (O3 eq_refl) as [O4 O5]. rewrite Ho in O4. rewrite Hos in O5. unfold count. rewrite length_app. cbn.
    replace (Z.of_nat _) with (count (others w.2) + 1) by (unfold count; lia). rewrite Z.add_0_r.
    split; by apply (over_within _ _ _ _ Hp).
Qed.

Definition settings_same (s s' : RateLimiter) : Prop := incoming s' = incoming s ∧ percentage_of_limit s' = percentage_of_limit s.
Lemma enter_minute_settings minute s : settings_same s (enter_minute minute s).
Proof. unfold enter_minute. by destruct (_ =? _). Qed.

Lemma process_counts m w s ok s' : counts w s → process_msg_and_check (m_minute m) (m_type m) (m_len m) s = (Ok ok, s') →
  let w' := match ProtocolMessageTypes.of_value (m_type m) with
            | Ok x => note (m_minute m) (incoming s' || ok) (x, m_len m) w
            | _ => note (m_minute m) false (handshake, 0) w
            end in
  settings_same s s' ∧ counts w' s'
  ∧ (incoming s = false → respected (percentage_of_limit s) w.2 → respected (percentage_of_limit s) w'.2).
Proof.
  intros Hc E. unfold process_msg_and_check in E. rewrite (st_bind_Ok _ _ _ _ _ (st_modify_eq _ s)) in E.
  pose proof (counts_enter (m_minute m) w s Hc) as Hc1. pose proof (enter_minute_settings (m_minute m) s) as Hst.
  set (s1 := enter_minute (m_minute m) s) in *. set (w1 := note (m_minute m) false (handshake, 0) w) in *.
  assert (Hr1 : respected (percentage_of_limit s) w.2 → respected (percentage_of_limit s) w1.2).
  { unfold w1, note. cbn. destruct (_ =? _); [done|]. intros _. split; [done|done| |done]. by intros x n ?%not_elem_of_nil. }
  destruct (ProtocolMessageTypes.of_value (m_type m)) as [x| |]; cbv zeta; [|by injection E as <- <-..].
  rewrite (st_bind_Ok _ _ _ _ _ (st_get_eq s1)) in E. apply st_bind_inv in E as (p&s2&E1&E). apply st_res_inv in E1 as [Ep ->].
  apply st_bind_inv in E as (v&s2&E1&E). apply st_res_inv in E1 as [Ev ->].
  rewrite (st_bind_Ok _ _ _ _ _ (st_modify_eq _ s1)) in E. apply st_ret_inv in E as [-> ->].
  assert (Hin : incoming ((if incoming s1 || vd_ok v then commit x (m_len m) v else id) s1) = incoming s1)
    by (by destruct (incoming s1 || vd_ok v)).
  assert (Hn : note (m_minute m) (incoming s1 || vd_ok v) (x, m_len m) w
    = if incoming s1 || vd_ok v then (w1.1, w1.2 ++ [(x, m_len m)]) else w1) by (by destruct (incoming s1 || vd_ok v)).
  rewrite Hin, Hn. destruct Hst as [Hs1 Hs2]. split; [|split].
  - split; destruct (incoming s1 || vd_ok v); assumption.
  - destruct (incoming s1 || vd_ok v); [by eapply counts_commit|exact Hc1].
  - intros Hi Hr. rewrite Hs1, Hi. cbn [orb]. destruct (vd_ok v) eqn:Hv; [|by apply Hr1].
    rewrite Hs2 in Ep. exact (respected_snoc _ _ _ _ _ _ _ Ep Hc1 (Hr1 Hr) Ev Hv).
Qed.

Lemma run_limiter_counts l : ∀ w s w' s', counts w s → run_limiter l w s = (Ok w', s') →
  settings_same s s' ∧ counts w' s'
  ∧ (incoming s = false → respected (percentage_of_limit s) w.2 → respected (percentage_of_limit s) w'.2).
Proof.
  induction l as [|m l IH]; intros w s w' s' Hc E; cbn [run_limiter] in E; [by injection E as <- <-|].
  apply st_bind_inv in E as (ok&s1&E1&E). rewrite (st_bind_Ok _ _ _ _ _ (st_get_eq s1)) in E.
  destruct (process_counts _ _ _ _ _ Hc E1) as ([Hs1 Hs2]&Hc1&Hr1).
  destruct (IH _ _ _ _ Hc1 E) as ([Ht1 Ht2]&Hc2&Hr2). rewrite Hs1, Hs2 in *. split; [split; congruence|].
  split; [exact Hc2|]. intros Hi Hr. by apply Hr2; [|apply Hr1].
Qed.

(** At 100 percent the limits are met exactly. *)
Lemma float_lt_int_mono f a b : a <= b → float_lt_int f a = true → float_lt_int f b = true.
Proof.
  intros Hab. destruct f as [s|s| |s m e]; cbn; try done; [intros ?; zbool; apply Z.ltb_lt; lia|].
  destruct (0 <=? e); intros ?; zbool; apply Z.ltb_lt; [lia|]. pose proof (Z.pow_nonneg 2 (- e)). nia.
Qed.
Definition exact_at (limit : Z) : bool :=
  match int_truediv 100 100, float_of_int limit with
  | Ok p, Ok f => float_lt_int (float_mul f p) (limit + 1)
  | _, _ => false
  end.
Lemma within_100 n limit : exact_at limit = true → within 100 n limit → n <= limit.
Proof.
  intros He (p&f&Ep&Ef&Hn). unfold exact_at in He. rewrite Ep, Ef in He. destruct (Z.le_gt_cases n limit) as [|Hgt]; [done|].
  exfalso. apply (float_lt_int_mono _ _ n) in He; [congruence|lia].
Qed.
Lemma limits_exact x : exact_at (frequency (settings_of x)) = true ∧ exact_at (total_size_of (settings_of x)) = true.
Proof. destruct x; split; vm_compute; reflexivity. Qed.

(** C36. In every minute the counters are those of the messages that count (all for incoming
    messages, those let through for outgoing ones), and what a limiter of outgoing
    messages lets through respects the limits of each type and of all types but the
    transactions; at 100 percent these are the numbers of the tables. *)
Theorem outgoing_respects_limits (msgs : list Msg) (inc : bool) (minute percentage : Z)
    (w : Z * list (ProtocolMessageTypes.t * Z)) (s : RateLimiter) :
  run_limiter msgs (minute, []) (new_limiter inc minute percentage) = (Ok w, s) →
  counts w s
  ∧ (inc = false → respected percentage w.2)
  ∧ (inc = false → percentage = 100 → ∀ x,
       count (of_type x w.2) <= frequency (settings_of x) ∧ total (of_type x w.2) <= total_size_of (settings_of x)).
Proof.
  intros E. destruct (run_limiter_counts _ _ _ _ _ (counts_empty inc minute percentage) E) as (_&Hc&Hr). split; [exact Hc|].
  assert (Hr' : inc = false → respected percentage w.2).
  { intros Hi. apply Hr; [exact Hi|]. split; [done|done| |done]. by intros x n ?%not_elem_of_nil. }
  split; [exact Hr'|]. intros Hi -> x. destruct (limits_exact x) as [X1 X2]. destruct (Hr' Hi) as [R1 R2 _ _].
  destruct (decide (of_type x w.2 = [])) as [E0|Hne].
  - rewrite E0. unfold count. cbn. destruct x; vm_compute; split; congruence.
  - split; [by apply (within_100 _ _ X1), R1|by apply (within_100 _ _ X2), R2].
Qed.

(** Six handshakes, of which five may be sent in a minute *)
Definition six_handshakes : list Msg := replicate 6 {| m_minute := 7; m_type := 1; m_len := 100 |}.
Lemma outgoing_respects_limits_witness :
  (run_limiter six_handshakes (7, []) (new_limiter false 7 100)).1 = Ok (7, replicate 5 (handshake, 100))
  ∧ counts (7, replicate 5 (handshake, 100)) (run_limiter six_handshakes (7, []) (new_limiter false 7 100)).2.
Proof.
  assert (E : (run_limiter six_handshakes (7, []) (new_limiter false 7 100)).1 = Ok (7, replicate 5 (handshake, 100)))
    by (vm_compute; reflexivity).
  split; [exact E|].
  apply (outgoing_respects_limits six_handshakes false 7 100 _ _ (run_outcome _ _ E)).
Defined.
