(* ===== verification/SyncStore.v ===== *)
(** * Peers and their peaks during a sync

    Models [chia/full_node/sync_store.py]: which peers announced which blocks, the last
    peak of every peer, and the target of a sync.  The abstract specification is the
    history of what was announced, most recent first. *)
From S2P Require Import Prelude PyInt.

(** header hash, height, weight *)
Definition PeakInfo : Type := bytes * Z * Z.

Record SyncStore := {
  sync_mode : bool;
  long_sync : bool;
  peak_to_peer : dict bytes (gset bytes);
  peer_to_peak : dict bytes PeakInfo;
  sync_target_header_hash : option bytes;
  sync_target_height : option Z;
  peers_changed : bool;
  batch_syncing : gset bytes;
  backtrack_syncing : gmap bytes Z;
}.

Definition create : SyncStore := {|
  sync_mode := false; long_sync := false; peak_to_peer := []; peer_to_peak := [];
  sync_target_header_hash := None; sync_target_height := None; peers_changed := false;
  batch_syncing := ∅; backtrack_syncing := ∅ |}.

Definition set_peak_target (peak_hash : bytes) (target_height : Z) (s : SyncStore) : SyncStore := {|
  sync_mode := sync_mode s; long_sync := long_sync s; peak_to_peer := peak_to_peer s; peer_to_peak := peer_to_peak s;
  sync_target_header_hash := Some peak_hash; sync_target_height := Some target_height;
  peers_changed := peers_changed s; batch_syncing := batch_syncing s; backtrack_syncing := backtrack_syncing s |}.
Definition set_sync_mode (b : bool) (s : SyncStore) : SyncStore := {|
  sync_mode := b; long_sync := long_sync s; peak_to_peer := peak_to_peer s; peer_to_peak := peer_to_peak s;
  sync_target_header_hash := sync_target_header_hash s; sync_target_height := sync_target_height s;
  peers_changed := peers_changed s; batch_syncing := batch_syncing s; backtrack_syncing := backtrack_syncing s |}.
Definition set_long_sync (b : bool) (s : SyncStore) : SyncStore := {|
  sync_mode := sync_mode s; long_sync := b; peak_to_peer := peak_to_peer s; peer_to_peak := peer_to_peak s;
  sync_target_header_hash := sync_target_header_hash s; sync_target_height := sync_target_height s;
  peers_changed := peers_changed s; batch_syncing := batch_syncing s; backtrack_syncing := backtrack_syncing s |}.
(** [peers_changed.set()] and [.clear()] *)
Definition set_changed (b : bool) (s : SyncStore) : SyncStore := {|
  sync_mode := sync_mode s; long_sync := long_sync s; peak_to_peer := peak_to_peer s; peer_to_peak := peer_to_peak s;
  sync_target_header_hash := sync_target_header_hash s; sync_target_height := sync_target_height s;
  peers_changed := b; batch_syncing := batch_syncing s; backtrack_syncing := backtrack_syncing s |}.
Definition set_peaks (peaks : dict bytes (gset bytes)) (peers : dict bytes PeakInfo) (s : SyncStore) : SyncStore := {|
  sync_mode := sync_mode s; long_sync := long_sync s; peak_to_peer := peaks; peer_to_peak := peers;
  sync_target_header_hash := sync_target_header_hash s; sync_target_height := sync_target_height s;
  peers_changed := peers_changed s; batch_syncing := batch_syncing s; backtrack_syncing := backtrack_syncing s |}.

Definition seen_header_hash (header_hash : bytes) (s : SyncStore) : bool := dmem header_hash (peak_to_peer s).

Definition peer_has_block (header_hash peer_id : bytes) (weight height : Z) (new_peak : bool) (s : SyncStore) : SyncStore :=
  let s := if bool_decide (Some header_hash = sync_target_header_hash s) then set_changed true s else s in
  let peaks := match dget header_hash (peak_to_peer s) with
    | Some peers => dset header_hash ({[ peer_id ]} ∪ peers) (peak_to_peer s)
    | None => dset header_hash {[ peer_id ]} (peak_to_peer s)
    end in
  let peers := if new_peak then dset peer_id (header_hash, height, weight) (peer_to_peak s) else peer_to_peak s in
  set_peaks peaks peers s.

Definition get_peers_that_have_peak (header_hashes : list bytes) (s : SyncStore) : gset bytes :=
  foldl (λ node_ids header_hash,
    match dget header_hash (peak_to_peer s) with Some peers => node_ids ∪ peers | None => node_ids end) ∅ header_hashes.

Definition get_peak_of_each_peer (s : SyncStore) : dict bytes PeakInfo :=
  foldl (λ ret '(peer_id, v), if dmem v.1.1 (peak_to_peer s) then dset peer_id v ret else ret) [] (peer_to_peak s).

(** The loop of [get_heaviest_peak], with the three variables as one *)
Definition heavier (peaks : dict bytes (gset bytes)) (heaviest : option PeakInfo) (entry : bytes * PeakInfo) : option PeakInfo :=
  let v := entry.2 in
  if negb (dmem v.1.1 peaks) then heaviest
  else match heaviest with
       | None => Some v
       | Some h => if h.2 <? v.2 then Some v else heaviest
       end.
Definition get_heaviest_peak (s : SyncStore) : res (option PeakInfo) :=
  match peer_to_peak s with
  | [] => Ok None
  | _ => match foldl (heavier (peak_to_peer s)) None (peer_to_peak s) with
         | Some v => Ok (Some v)
         | None => Raise AssertionError
         end
  end.

Definition clear_sync_info (s : SyncStore) : SyncStore := set_peaks [] (peer_to_peak s) s.

(** One turn of the loop of [peer_disconnected] *)
Definition forget_peer (node_id peak : bytes) : ST SyncStore unit :=
  s ← st_get;
  peers ← st_res (dindex peak (peak_to_peer s));
  (if bool_decide (node_id ∈ peers)
   then st_modify (set_peaks (dset peak (peers ∖ {[ node_id ]}) (peak_to_peer s)) (peer_to_peak s)) else mret tt) ;;
  s ← st_get;
  peers ← st_res (dindex peak (peak_to_peer s));
  st_res (assert_ (negb (bool_decide (node_id ∈ peers)))).
Definition peer_disconnected (node_id : bytes) : ST SyncStore unit :=
  st_modify (λ s, set_peaks (peak_to_peer s) (dremove node_id (peer_to_peak s)) s) ;;
  s ← st_get;
  st_for (forget_peer node_id) (peak_to_peer s).*1 ;;
  st_modify (set_changed true).

(** ** The history of a store *)

(** One call of a method that changes the store *)
Inductive Event :=
  | HasBlock (header_hash peer_id : bytes) (weight height : Z) (new_peak : bool)
  | Disconnected (node_id : bytes)
  | Cleared
  | Target (peak_hash : bytes) (target_height : Z)
  | SyncMode (b : bool)
  | LongSync (b : bool)
  | ChangesRead.
Definition perform (e : Event) : ST SyncStore unit :=
  match e with
  | HasBlock h p w ht n => st_modify (peer_has_block h p w ht n)
  | Disconnected p => peer_disconnected p
  | Cleared => st_modify clear_sync_info
  | Target h ht => st_modify (set_peak_target h ht)
  | SyncMode b => st_modify (set_sync_mode b)
  | LongSync b => st_modify (set_long_sync b)
  | ChangesRead => st_modify (set_changed false)
  end.
(** The calls of a history, of which the first was made last *)
Definition run_history (hist : list Event) : ST SyncStore unit := st_for perform (reverse hist).

(** A block was announced since the last clearing. *)
Fixpoint announced (hist : list Event) (h : bytes) : bool :=
  match hist with
  | [] => false
  | HasBlock h' _ _ _ _ :: hist => bool_decide (h' = h) || announced hist h
  | Cleared :: _ => false
  | _ :: hist => announced hist h
  end.
(** A peer announced a block since the last clearing, and has not left since. *)
Fixpoint has_block (hist : list Event) (p h : bytes) : bool :=
  match hist with
  | [] => false
  | HasBlock h' p' _ _ _ :: hist => bool_decide (h' = h ∧ p' = p) || has_block hist p h
  | Disconnected p' :: hist => negb (bool_decide (p' = p)) && has_block hist p h
  | Cleared :: _ => false
  | _ :: hist => has_block hist p h
  end.
(** The last peak a peer announced since it came *)
Fixpoint peak_of (hist : list Event) (p : bytes) : option PeakInfo :=
  match hist with
  | [] => None
  | HasBlock h p' w ht true :: hist => if decide (p' = p) then Some (h, ht, w) else peak_of hist p
  | Disconnected p' :: hist => if decide (p' = p) then None else peak_of hist p
  | _ :: hist => peak_of hist p
  end.

Record tracks (hist : list Event) (s : SyncStore) : Prop := {
  tr_seen : ∀ h, dmem h (peak_to_peer s) = announced hist h;
  tr_peers : ∀ h peers p, dget h (peak_to_peer s) = Some peers → p ∈ peers ↔ has_block hist p h = true;
  tr_peak : ∀ p, dget p (peer_to_peak s) = peak_of hist p;
  tr_wf : dict_wf (peak_to_peer s) ∧ dict_wf (peer_to_peak s);
}.

Lemma has_block_announced hist p h : has_block hist p h = true → announced hist h = true.
Proof.
  induction hist as [|[] hist IH]; cbn; try done; try exact IH.
  - intros [[-> _]%bool_decide_eq_true|H]%orb_true_iff; [by rewrite bool_decide_true by done|].
    rewrite IH by done. apply orb_true_r.
  - intros [_ H]%andb_true_iff. by apply IH.
Qed.

Lemma tracks_create : tracks [] create.
Proof. split; [done|done|done|split; apply dict_wf_nil]. Qed.

Lemma tracks_has_block hist s h p w ht n : tracks hist s →
  tracks (HasBlock h p w ht n :: hist) (peer_has_block h p w ht n s).
Proof.
  intros [Hseen Hpeers Hpeak [Hwf Hwf']]. unfold peer_has_block.
  set (s1 := if bool_decide _ then _ else _).
  assert (peak_to_peer s1 = peak_to_peer s ∧ peer_to_peak s1 = peer_to_peak s) as [-> ->] by (subst s1; by case_bool_decide).
  clearbody s1. set (peers0 := default ∅ (dget h (peak_to_peer s))).
  assert (match dget h (peak_to_peer s) with
    | Some peers => dset h ({[ p ]} ∪ peers) (peak_to_peer s) | None => dset h {[ p ]} (peak_to_peer s) end =
    dset h ({[ p ]} ∪ peers0) (peak_to_peer s)) as ->.
  { subst peers0. destruct (dget _ _); [done|]. cbn. f_equal. set_solver. }
  split; cbn [set_peaks peak_to_peer peer_to_peak announced has_block].
  - intros h'. rewrite <- Hseen. unfold dmem. rewrite dget_dset.
    destruct (decide (h' = h)) as [->|]; [by rewrite bool_decide_true by done|by rewrite bool_decide_false by congruence].
  - intros h' peers p'. rewrite dget_dset. destruct (decide (h' = h)) as [->|Hne].
    + intros [= <-]. rewrite orb_true_iff, bool_decide_eq_true, elem_of_union, elem_of_singleton.
      assert (p' ∈ peers0 ↔ has_block hist p' h = true) as ->; [|naive_solver].
      subst peers0. pose proof (Hseen h) as Hs. unfold dmem in Hs. destruct (dget h (peak_to_peer s)) eqn:E; [by apply Hpeers|].
      cbn. split; [set_solver|]. intros ?%has_block_announced. congruence.
    + intros E. rewrite bool_decide_false by (intros []; congruence). by apply Hpeers.
  - intros p'. destruct n; cbn [peak_of]; [|apply Hpeak]. rewrite dget_dset, Hpeak.
    by repeat case_decide; simplify_eq.
  - split; [by apply dset_wf|]. destruct n; [by apply dset_wf|done].
Qed.

(** Leaving the peers of every peak but the ones already visited *)
Record forgetting (p : bytes) (s0 : SyncStore) (visited : list bytes) (s : SyncStore) : Prop := {
  fg_peers : ∀ h, dget h (peak_to_peer s) =
    (λ peers, if decide (h ∈ visited) then peers ∖ {[ p ]} else peers) <$> dget h (peak_to_peer s0);
  fg_wf : dict_wf (peak_to_peer s);
  fg_peak : peer_to_peak s = peer_to_peak s0;
}.
Lemma forget_peer_step p s0 visited h s : forgetting p s0 visited s → h ∈ (peak_to_peer s0).*1 →
  ∃ s', forget_peer p h s = (Ok tt, s') ∧ forgetting p s0 (visited ++ [h]) s'.
Proof.
  intros [Hpeers Hwf Hpeak] Hin. apply dmem_true in Hin. unfold dmem in Hin.
  pose proof (Hpeers h) as Eh. destruct (dget h (peak_to_peer s0)) as [peers0|] eqn:E0; [clear Hin|done]. cbn in Eh.
  unfold forget_peer. rewrite (st_bind_Ok _ _ _ _ _ (st_get_eq s)).
  set (peers := if decide (h ∈ visited) then peers0 ∖ {[p]} else peers0) in Eh.
  rewrite (st_bind_Ok _ _ _ _ _ (st_res_Ok (dindex h (peak_to_peer s)) peers s ltac:(unfold dindex; by rewrite Eh))).
  set (s' := if bool_decide (p ∈ peers) then set_peaks (dset h (peers ∖ {[p]}) (peak_to_peer s)) (peer_to_peak s) s else s).
  assert (dget h (peak_to_peer s') = Some (peers ∖ {[p]})) as Eh'.
  { subst s'. case_bool_decide; cbn; [by rewrite dget_dset_eq|]. rewrite Eh. f_equal. set_solver. }
  rewrite (st_bind_Ok _ _ s tt s') by (subst s'; by case_bool_decide).
  rewrite (st_bind_Ok _ _ _ _ _ (st_get_eq s')).
  rewrite (st_bind_Ok _ _ _ _ _ (st_res_Ok (dindex h (peak_to_peer s')) (peers ∖ {[p]}) s' ltac:(unfold dindex; by rewrite Eh'))).
  rewrite bool_decide_false by set_solver. exists s'. split; [done|]. split.
  - intros h'. destruct (decide (h' = h)) as [->|Hne].
    + rewrite Eh', E0. cbn. rewrite decide_True by set_solver. f_equal. subst peers. destruct (decide _); set_solver.
    + assert (dget h' (peak_to_peer s') = dget h' (peak_to_peer s)) as ->
        by (subst s'; case_bool_decide; cbn; [by rewrite dget_dset_ne|done]).
      rewrite Hpeers. destruct (dget h' (peak_to_peer s0)); [cbn|done].
      destruct (decide (h' ∈ visited)), (decide (h' ∈ visited ++ [h])); set_solver.
  - subst s'. case_bool_decide; [by apply dset_wf|done].
  - subst s'. by case_bool_decide.
Qed.

Lemma tracks_disconnected hist s p : tracks hist s →
  ∃ s', peer_disconnected p s = (Ok tt, s') ∧ tracks (Disconnected p :: hist) s'.
Proof.
  intros [Hseen Hpeers Hpeak [Hwf Hwf']]. unfold peer_disconnected.
  rewrite (st_bind_Ok _ _ _ _ _ (st_modify_eq _ s)). set (s0 := set_peaks _ _ s).
  rewrite (st_bind_Ok _ _ _ _ _ (st_get_eq s0)).
  destruct (st_for_total (forget_peer p) (forgetting p s0) (peak_to_peer s0).*1 s0) as (s1&E1&[Hp1 Hw1 Hk1]).
  - intros l1 h l2 s' El Hf. apply forget_peer_step; [done|]. rewrite El. set_solver.
  - split; [|done|done]. intros h. by destruct (dget h (peak_to_peer s0)).
  - rewrite (st_bind_Ok _ _ _ _ _ E1). eexists; split; [done|].
    split; cbn [set_changed peak_to_peer peer_to_peak announced has_block peak_of].
    + intros h. rewrite <- Hseen. unfold dmem. rewrite Hp1. by destruct (dget h (peak_to_peer s)) eqn:E; cbn; rewrite E.
    + intros h peers q. rewrite Hp1. change (peak_to_peer s0) with (peak_to_peer s).
      destruct (dget h (peak_to_peer s)) as [peers0|] eqn:E; [|done]. cbn.
      rewrite decide_True by (apply dmem_true; unfold dmem; by rewrite E). intros [= <-].
      rewrite andb_true_iff, negb_true_iff, bool_decide_eq_false, elem_of_difference, elem_of_singleton, (Hpeers h) by done.
      naive_solver.
    + intros q. rewrite Hk1. cbn. rewrite dget_dremove by done. rewrite Hpeak.
      by repeat case_decide; simplify_eq.
    + split; [done|]. rewrite Hk1. by apply dremove_wf.
Qed.

Lemma tracks_perform hist s e : tracks hist s → ∃ s', perform e s = (Ok tt, s') ∧ tracks (e :: hist) s'.
Proof.
  intros T. destruct e; cbn [perform]; try (eexists; split; [done|]).
  - by apply tracks_has_block.
  - by apply tracks_disconnected.
  - destruct T as [_ _ Hpeak [_ Hwf]]. split; [done|done|exact Hpeak|split; [apply dict_wf_nil|done]].
  - by destruct T; split.
  - by destruct T; split.
  - by destruct T; split.
  - by destruct T; split.
Qed.

Lemma tracks_run hist : ∃ s, run_history hist create = (Ok tt, s) ∧ tracks hist s.
Proof.
  unfold run_history. destruct (st_for_total perform (λ done s, tracks (reverse done) s) (reverse hist) create) as (s&E&T).
  - intros l1 e l2 s _ T. rewrite reverse_app, reverse_singleton. by apply tracks_perform.
  - apply tracks_create.
  - rewrite reverse_involutive in T. by exists s.
Qed.

(** ** What the queries answer *)

Lemma peers_fold s p hs acc :
  p ∈ foldl (λ ids h, match dget h (peak_to_peer s) with Some peers => ids ∪ peers | None => ids end) acc hs ↔
  p ∈ acc ∨ ∃ h peers, h ∈ hs ∧ dget h (peak_to_peer s) = Some peers ∧ p ∈ peers.
Proof.
  revert acc. induction hs as [|h hs IH]; intros acc; cbn [foldl]; [set_solver|].
  rewrite IH. setoid_rewrite elem_of_cons. destruct (dget h (peak_to_peer s)) eqn:E; set_solver.
Qed.

Lemma peaks_fold (live : PeakInfo → bool) (p : bytes) v l acc : NoDup (acc ++ l).*1 →
  dget p (foldl (λ ret '(k, v), if live v then dset k v ret else ret) acc l) = Some v ↔
  dget p acc = Some v ∨ (p, v) ∈ l ∧ live v = true.
Proof.
  revert acc. induction l as [|[k w] l IH]; intros acc Hnd; cbn [foldl]; [set_solver|].
  assert (k ∉ acc.*1) as Hk.
  { rewrite fmap_app in Hnd. apply NoDup_app in Hnd as (_&Hd&_). cbn in Hd. set_solver. }
  apply dget_None in Hk as Hg. rewrite elem_of_cons. destruct (live w) eqn:Hl.
  - rewrite dset_fresh by done. rewrite IH by (by rewrite <- app_assoc). rewrite dget_app.
    split.
    + intros [H|H]; [|naive_solver]. destruct (dget p acc) eqn:E; [naive_solver|].
      cbn in H. case_decide; simplify_eq. naive_solver.
    + intros [H|[[[= -> ->]|H] Hv]]; [rewrite H; naive_solver| |naive_solver].
      rewrite Hg. cbn. rewrite decide_True by done. naive_solver.
  - rewrite IH; [split; [tauto|]; intros [?|[[[= -> ->]|?] ?]]; [tauto|congruence|tauto]|]. rewrite fmap_app in *. cbn in Hnd. apply NoDup_app in Hnd as (?&?&[]%NoDup_cons).
    apply NoDup_app. set_solver.
Qed.

Definition is_live (peaks : dict bytes (gset bytes)) (v : PeakInfo) : bool := dmem v.1.1 peaks.
Lemma heavier_fold peaks l :
  match foldl (heavier peaks) None l with
  | Some v => (∃ p, (p, v) ∈ l) ∧ is_live peaks v = true ∧ ∀ p v', (p, v') ∈ l → is_live peaks v' = true → v'.2 <= v.2
  | None => ∀ p v, (p, v) ∈ l → is_live peaks v = false
  end.
Proof.
  induction l as [|[k w] l IH] using rev_ind; [set_solver|].
  rewrite foldl_snoc. unfold heavier at 1. cbn [snd]. change (dmem w.1.1 peaks) with (is_live peaks w).
  assert (∀ p v, (p, v) ∈ l ++ [(k, w)] ↔ (p, v) ∈ l ∨ (p, v) = (k, w)) as Hs by set_solver.
  destruct (foldl (heavier peaks) None l) as [v|]; destruct (is_live peaks w) eqn:Hw; cbn [negb].
  - destruct IH as (Hin&Hv&Hmax). destruct (Z.ltb_spec v.2 w.2) as [Hlt|Hge].
    + split; [exists k; by apply Hs; right|]. split; [done|]. intros p' v' [H|[= -> ->]]%Hs Hl'; [|lia]. specialize (Hmax _ _ H Hl'). lia.
    + split; [destruct Hin as [p Hp]; exists p; apply Hs; by left|]. split; [done|].
      intros p' v' [H|[= -> ->]]%Hs Hl'; [by eapply Hmax|lia].
  - destruct IH as ([p Hp]&Hv&Hmax). split; [exists p; apply Hs; by left|]. split; [done|].
    intros p' v' [H|[= -> ->]]%Hs Hl'; [by eapply Hmax|congruence].
  - split; [exists k; by apply Hs; right|]. split; [done|]. intros p' v' [H|[= -> ->]]%Hs Hl'; [|lia]. by rewrite (IH _ _ H) in Hl'.
  - intros p' v' [H|[= -> ->]]%Hs; [by eapply IH|done].
Qed.

(** A peer's last peak, announced since the last clearing *)
Definition live_peak (hist : list Event) (p : bytes) (v : PeakInfo) : Prop :=
  peak_of hist p = Some v ∧ announced hist v.1.1 = true.

(** C30. Whatever was announced and whoever left, the store answers from the history: a peer
    has a block it announced since the last clearing, the peaks of the peers are their last
    ones that are still known, and the heaviest peak is one of those and as heavy as each;
    it is None only when no peer has a peak, and raises exactly when none is still known. *)
Theorem sync_store_refines (hist : list Event) : ∃ s,
  run_history hist create = (Ok tt, s) ∧
  (∀ hs p, p ∈ get_peers_that_have_peak hs s ↔ ∃ h, h ∈ hs ∧ has_block hist p h = true) ∧
  (∀ p v, dget p (get_peak_of_each_peer s) = Some v ↔ live_peak hist p v) ∧
  match get_heaviest_peak s with
  | Ok None => ∀ p, peak_of hist p = None
  | Ok (Some v) => (∃ p, live_peak hist p v) ∧ ∀ p v', live_peak hist p v' → v'.2 <= v.2
  | Raise e => e = AssertionError ∧ (∃ p, is_Some (peak_of hist p)) ∧ ∀ p v, ¬ live_peak hist p v
  | OutOfFuel => False
  end.
Proof.
  destruct (tracks_run hist) as (s&E&T). exists s. split; [done|]. destruct T as [Hseen Hpeers Hpeak [Hwf Hwf']].
  assert (∀ p v, (p, v) ∈ peer_to_peak s ↔ peak_of hist p = Some v) as Hin.
  { intros p v. rewrite <- Hpeak. split; [by apply dget_in_wf|by apply dget_Some_in]. }
  assert (∀ p v, (p, v) ∈ peer_to_peak s ∧ is_live (peak_to_peer s) v = true ↔ live_peak hist p v) as Hlive.
  { intros p v. unfold live_peak, is_live. by rewrite Hin, Hseen. }
  split; [|split].
  - intros hs p. unfold get_peers_that_have_peak. rewrite peers_fold. split.
    + intros [?|(h&peers&Hh&Eh&Hp)]; [set_solver|]. exists h. split; [done|]. by apply (Hpeers h peers p).
    + intros (h&Hh&Hb). right. pose proof (has_block_announced _ _ _ Hb) as Ha. rewrite <- Hseen in Ha.
      unfold dmem in Ha. destruct (dget h (peak_to_peer s)) as [peers|] eqn:Eh; [|done].
      exists h, peers. split; [done|]. split; [done|]. by apply (Hpeers h).
  - intros p v. unfold get_peak_of_each_peer. rewrite <- Hlive. rewrite (peaks_fold (is_live (peak_to_peer s))) by done.
    cbn. naive_solver.
  - unfold get_heaviest_peak. destruct (peer_to_peak s) as [|[p0 v0] l] eqn:El.
    + intros p. by rewrite <- Hpeak.
    + rewrite <- El in *. pose proof (heavier_fold (peak_to_peer s) (peer_to_peak s)) as Hf.
      destruct (foldl _ None _) as [v|].
      * destruct Hf as ([p Hp]&Hl&Hmax). split; [exists p; by apply Hlive|].
        intros p' v' [H1 H2]%Hlive. by eapply Hmax.
      * split; [done|]. split; [exists p0, v0; apply Hin; rewrite El; set_solver|].
        intros p v [H1 H2]%Hlive. by rewrite (Hf _ _ H1) in H2.
Qed.

(** After the store was cleared, asking for the heaviest peak raises as long as a peer that
    announced its peak before stays connected and announces nothing new. *)
Lemma cleared_peaks_raise h p w ht : ∃ s,
  run_history [Cleared; HasBlock h p w ht true] create = (Ok tt, s) ∧ get_heaviest_peak s = Raise AssertionError.
Proof. by eexists. Qed.
