(* ===== verification/PeerInfo.v ===== *)
(** * Addresses of peers

    Models [chia/types/peer_info.py] and what it uses of Python's [ipaddress]: reading an
    IPv4 or IPv6 address (with the strict octets and the scope identifiers of Python 3.9).
    Which ranges are private changes with the release of Python (it follows the IANA
    registries), so [is_private] is a parameter. *)
From S2P Require Import Prelude PyInt CoinStore.

Class IpRegistry := {
  ipv4_is_private : Z → bool;
  ipv6_is_private : Z → bool;
}.

(** ** [ipaddress] *)

(** [s.split(c)] *)
Fixpoint split_on (c : Z) (s : text) : list text :=
  match s with
  | [] => [[]]
  | x :: s =>
      if x =? c then [] :: split_on c s
      else match split_on c s with [] => [[x]] | part :: parts => (x :: part) :: parts end
  end.

Definition is_digit (x : Z) : bool := (48 <=? x) && (x <=? 57).
Definition int_of_digits (s : text) : Z := foldl (λ n x, 10 * n + (x - 48)) 0 s.
Definition parse_octet (s : text) : option Z :=
  if bool_decide (s = []) || negb (forallb is_digit s) || (3 <? length s)%nat
     || negb (bool_decide (s = [48])) && bool_decide (head s = Some 48) then None
  else let octet := int_of_digits s in if 255 <? octet then None else Some octet.
(** [IPv4Address(s)._ip], or [None] where it raises [ValueError] *)
Definition IPv4Address (s : text) : option Z :=
  if bool_decide (47 ∈ s) then None
  else let octets := split_on 46 s in
       if negb (length octets =? 4)%nat then None
       else foldl (λ n o, n ← n; d ← parse_octet o; Some (256 * n + d)) (Some 0) octets.

Definition hex_value (x : Z) : option Z :=
  if is_digit x then Some (x - 48)
  else if (65 <=? x) && (x <=? 70) then Some (x - 55)
  else if (97 <=? x) && (x <=? 102) then Some (x - 87) else None.
(** A part between colons: as written, or one of the two made from an IPv4 suffix *)
Inductive Part := Written (s : text) | Computed (n : Z).
Definition is_empty_part (p : Part) : bool := match p with Written [] => true | _ => false end.
Definition parse_hextet (p : Part) : option Z :=
  match p with
  | Computed n => Some n
  | Written s =>
      if bool_decide (s = []) || (4 <? length s)%nat then None
      else foldl (λ n x, n ← n; d ← hex_value x; Some (16 * n + d)) (Some 0) s
  end.
Definition parse_hextets (start : Z) (parts : list Part) : option Z :=
  foldl (λ n p, n ← n; h ← parse_hextet p; Some (Z.lor (Z.shiftl n 16) h)) (Some start) parts.

(** The parts of an address, an IPv4 suffix as two *)
Definition address_parts (s : text) : option (list Part) :=
  let parts := split_on 58 s in
  if (length parts <? 3)%nat then None
  else match last parts with
       | Some suffix =>
           if bool_decide (46 ∈ suffix) then
             ip ← IPv4Address suffix;
             Some ((Written <$> removelast parts) ++ [Computed (Z.land (Z.shiftr ip 16) 0xFFFF); Computed (Z.land ip 0xFFFF)])
           else Some (Written <$> parts)
       | None => None
       end.
(** The places of the empty parts other than the first and the last *)
Definition skips (parts : list Part) : list nat :=
  filter (λ i, (1 <= i)%nat ∧ (S i < length parts)%nat ∧
    match parts !! i with Some p => is_empty_part p | None => false end = true) (seq 0 (length parts)).
Definition first_empty (parts : list Part) : bool := match head parts with Some p => is_empty_part p | None => false end.
Definition last_empty (parts : list Part) : bool := match last parts with Some p => is_empty_part p | None => false end.
Definition ipv6_int (s : text) : option Z :=
  parts ← address_parts s;
  if (9 <? length parts)%nat then None
  else match skips parts with
       | [] =>
           if negb (length parts =? 8)%nat || first_empty parts || last_empty parts then None
           else parse_hextets 0 parts
       | [skip_index] =>
           let hi := Z.of_nat skip_index - (if first_empty parts then 1 else 0) in
           let lo := Z.of_nat (length parts) - Z.of_nat skip_index - 1 - (if last_empty parts then 1 else 0) in
           if first_empty parts && negb (hi =? 0) || last_empty parts && negb (lo =? 0) then None
           else let skipped := 8 - (hi + lo) in
                if skipped <? 1 then None
                else n ← parse_hextets 0 (take (Z.to_nat hi) parts);
                     parse_hextets (Z.shiftl n (16 * skipped)) (drop (length parts - Z.to_nat lo) parts)
       | _ => None
       end.
(** [addr, sep, scope_id = s.partition('%')] *)
Fixpoint partition_at (c : Z) (s : text) : text * option text :=
  match s with
  | [] => ([], None)
  | x :: s => if x =? c then ([], Some s) else let '(a, r) := partition_at c s in (x :: a, r)
  end.
(** [IPv6Address(s)._ip] *)
Definition IPv6Address (s : text) : option Z :=
  if bool_decide (47 ∈ s) then None
  else match partition_at 37 s with
       | (addr, None) => ipv6_int addr
       | (addr, Some scope_id) =>
           if bool_decide (scope_id = []) || bool_decide (37 ∈ scope_id) then None else ipv6_int addr
       end.

(** ** [PeerInfo] *)

Record PeerInfo := { host : text; port : Z }.
Record TimestampedPeerInfo := { ts_host : text; ts_port : Z; timestamp : Z }.
#[export] Instance PeerInfo_eq_dec : EqDecision PeerInfo.
Proof. solve_decision. Defined.

Definition is_valid `{IpRegistry} (p : PeerInfo) (allow_private_subnets : bool) : bool :=
  match IPv6Address (host p) with
  | Some ip => negb (ipv6_is_private ip && negb allow_private_subnets)
  | None => match IPv4Address (host p) with
            | Some ip => negb (ipv4_is_private ip && negb allow_private_subnets)
            | None => false
            end
  end.

(** [int(ipaddress.IPv6Address("2002::"))] *)
Definition sixtofour : Z := Z.shiftl 0x2002 112.
Definition get_key (p : PeerInfo) : res bytes :=
  ip ← match IPv6Address (host p) with
       | Some ip => Ok ip
       | None => ip_v4 ← of_opt ValueError (IPv4Address (host p)); Ok (Z.lor sixtofour (Z.shiftl ip_v4 80))
       end;
  packed ← py_to_bytes 16 false ip;
  _ ← check (bool_decide (is_byte (port p / 0x100))) ValueError;
  Ok (packed ++ [port p / 0x100; Z.land (port p) 0x0FF]).
Definition get_group (p : PeerInfo) : res bytes :=
  match IPv4Address (host p) with
  | Some ip => packed ← py_to_bytes 4 false ip; Ok (1 :: take 2 packed)
  | None => ip ← of_opt ValueError (IPv6Address (host p)); packed ← py_to_bytes 16 false ip; Ok (0 :: take 4 packed)
  end.

(** ** The addresses read are in range *)

Lemma int_of_digits_nonneg s : forallb is_digit s = true → 0 <= int_of_digits s.
Proof.
  unfold int_of_digits. intros Hd. assert (∀ n, 0 <= n → 0 <= foldl (λ n x, 10 * n + (x - 48)) n s) as H; [|by apply H].
  induction s as [|x s IH]; intros n Hn; [done|]. cbn in *. apply andb_true_iff in Hd as [Hx Hd].
  apply andb_true_iff in Hx as [Hx _]. apply Z.leb_le in Hx. apply IH; [done|lia].
Qed.
Lemma parse_octet_byte s n : parse_octet s = Some n → is_byte n.
Proof.
  unfold parse_octet. destruct (forallb is_digit s) eqn:Hd; [|by rewrite orb_true_r].
  pose proof (int_of_digits_nonneg s Hd) as Hn. case_match; [done|]. destruct (Z.ltb_spec 255 (int_of_digits s)); [done|].
  intros [= <-]. unfold is_byte. lia.
Qed.

Lemma ipv4_range s n : IPv4Address s = Some n → 0 <= n < 2 ^ 32.
Proof.
  unfold IPv4Address. destruct (bool_decide (47 ∈ s)); [done|]. destruct (Nat.eqb_spec (length (split_on 46 s)) 4) as [El|]; [|done]. cbn [negb].
  destruct (split_on 46 s) as [|a [|b [|c [|d [|]]]]]; cbn in El; try lia. cbn.
  destruct (parse_octet a) eqn:Ea; [cbn|done]. destruct (parse_octet b) eqn:Eb; [cbn|done].
  destruct (parse_octet c) eqn:Ec; [cbn|done]. destruct (parse_octet d) eqn:Ed; [cbn|done]. intros [= <-].
  apply parse_octet_byte in Ea, Eb, Ec, Ed. unfold is_byte in *. lia.
Qed.

(** Parts that parse to sixteen bits *)
Definition short_part (p : Part) : Prop := match p with Written _ => True | Computed n => 0 <= n < 2 ^ 16 end.
Lemma hex_value_range x d : hex_value x = Some d → 0 <= d < 16.
Proof.
  unfold hex_value, is_digit. repeat case_match; intros [= <-];
    repeat match goal with E : _ && _ = true |- _ => apply andb_true_iff in E as [] end; zbool; lia.
Qed.
Lemma parse_hextet_range p n : short_part p → parse_hextet p = Some n → 0 <= n < 2 ^ 16.
Proof.
  destruct p as [s|m]; cbn [short_part parse_hextet]; [|by intros ? [= ->]]. intros _.
  destruct (bool_decide (s = [])); [done|]. destruct (Nat.ltb_spec 4 (length s)) as [|Hl]; [done|]. cbn [orb].
  assert (∀ s k acc, (length s <= k)%nat → (∀ a, acc = Some a → 0 <= a < 16 ^ (4 - Z.of_nat k)) → (k <= 4)%nat →
    foldl (λ n x, n ← n; d ← hex_value x; Some (16 * n + d)) acc s = Some n → 0 <= n < 2 ^ 16) as H.
  { clear s Hl. induction s as [|x s IH]; intros k acc Hk Ha H4 E.
    - apply Ha in E. assert (16 ^ (4 - Z.of_nat k) <= 16 ^ 4) by (apply Z.pow_le_mono_r; lia). lia.
    - cbn in Hk, E. eapply (IH (k - 1)%nat); [lia| |lia|exact E]. intros a Ea.
      destruct acc as [b|]; [|done]. cbn in Ea. destruct (hex_value x) as [d|] eqn:Ed; [|done]. cbn in Ea. injection Ea as <-.
      specialize (Ha b eq_refl). apply hex_value_range in Ed.
      replace (4 - Z.of_nat (k - 1)) with (Z.succ (4 - Z.of_nat k)) by lia. rewrite Z.pow_succ_r by lia. lia. }
  intros E. eapply (H s 4%nat (Some 0)); [lia| |lia|exact E]. intros a [= <-]. done.
Qed.
Lemma lor_shift_range a b k : 0 <= k → 0 <= a < 2 ^ k → 0 <= b < 2 ^ 16 → 0 <= Z.lor (Z.shiftl a 16) b < 2 ^ (k + 16).
Proof.
  intros Hk Ha Hb.
  rewrite Z.shiftl_mul_pow2 by lia. assert (Z.land (a * 2 ^ 16) b = 0) as Hland.
  { apply Z.bits_inj'. intros n Hn. rewrite Z.land_spec, Z.bits_0. destruct (Z.lt_ge_cases n 16) as [Hlt|Hge].
    - by rewrite Z.mul_pow2_bits_low by lia.
    - rewrite (Z.bits_above_log2 b n), andb_false_r; [done|lia|]. destruct (Z.eq_dec b 0) as [->|]; [cbn; lia|].
      apply Z.log2_lt_pow2; [lia|]. assert (2 ^ 16 <= 2 ^ n) by (apply Z.pow_le_mono_r; lia). lia. }
  rewrite <- Z.lxor_lor by done. rewrite <- Z.add_nocarry_lxor by done. rewrite Z.pow_add_r by lia. nia.
Qed.
Lemma parse_hextets_range parts start k n : 0 <= k → 0 <= start < 2 ^ k → Forall short_part parts →
  parse_hextets start parts = Some n → 0 <= n < 2 ^ (k + 16 * Z.of_nat (length parts)).
Proof.
  revert start k. unfold parse_hextets. induction parts as [|p parts IH]; intros start k Hk Hs Hp.
  - cbn. intros [= <-]. by rewrite Z.add_0_r.
  - apply Forall_cons in Hp as [Hp Hps]. cbn [foldl]. cbn [mbind option_bind]. destruct (parse_hextet p) as [h|] eqn:Eh; cbn [mbind option_bind].
    + intros E. eapply (IH _ (k + 16)) in E; [|lia|by apply lor_shift_range; [..|eapply parse_hextet_range]|done].
      cbn [length]. replace (k + 16 * Z.of_nat (S (length parts))) with (k + 16 + 16 * Z.of_nat (length parts)) by lia. done.
    + intros E. exfalso. revert E. clear. induction parts as [|q parts IH]; [done|exact IH].
Qed.

Lemma address_parts_short s parts : address_parts s = Some parts → Forall short_part parts.
Proof.
  unfold address_parts. destruct (Nat.ltb_spec (length (split_on 58 s)) 3); [done|]. destruct (last _) as [suffix|]; [|done].
  assert (∀ l, Forall short_part (Written <$> l)) as Hw by (intros l; apply Forall_fmap, Forall_true; done).
  case_bool_decide; [|by intros [= <-]]. destruct (IPv4Address suffix) as [ip|]; [|done]. cbn [mbind option_bind]. intros [= <-].
  apply Forall_app. split; [done|]. change 0xFFFF with (Z.ones 16).
  repeat apply Forall_cons_2; [..|done]; cbn; rewrite Z.land_ones by lia; apply Z.mod_pos_bound; lia.
Qed.

Lemma ipv6_int_range s n : ipv6_int s = Some n → 0 <= n < 2 ^ 128.
Proof.
  unfold ipv6_int. destruct (address_parts s) as [parts|] eqn:Ep; [|done]. cbn [mbind option_bind].
  apply address_parts_short in Ep. destruct (Nat.ltb_spec 9 (length parts)); [done|].
  destruct (skips parts) as [|i [|]] eqn:Esk; [| |done].
  - destruct (Nat.eqb_spec (length parts) 8) as [E8|]; [|done]. cbn [negb orb]. destruct (_ || _); [done|].
    intros E. apply (parse_hextets_range _ _ 0) in E; [|lia|lia|done]. by rewrite E8 in E.
  - assert (i ∈ skips parts) as Hi by (rewrite Esk; set_solver). unfold skips in Hi. apply list_elem_of_filter in Hi as [(H1&H2&_) _].
    set (hi := _ - _). set (lo := _ - (if last_empty _ then _ else _)). destruct (_ || _); [done|].
    destruct (Z.ltb_spec (8 - (hi + lo)) 1) as [|Hs]; [done|].
    destruct (parse_hextets 0 _) as [m|] eqn:Em; [|done]. cbn [mbind option_bind]. intros E.
    apply (parse_hextets_range _ _ 0) in Em; [|lia|lia|by apply Forall_take].
    set (k1 := length (take (Z.to_nat hi) parts)) in Em.
    apply (parse_hextets_range _ _ (16 * Z.of_nat k1 + 16 * (8 - (hi + lo)))) in E; [|lia| |by apply Forall_drop].
    + split; [lia|]. eapply Z.lt_le_trans; [apply E|]. apply Z.pow_le_mono_r; [lia|].
      rewrite length_drop. subst k1. rewrite length_take.
      assert (0 <= hi ∧ 0 <= lo) as [] by (subst hi lo; destruct (first_empty parts), (last_empty parts); lia). lia.
    + rewrite Z.shiftl_mul_pow2 by lia. rewrite Z.pow_add_r by lia. split; [nia|].
      apply Z.mul_lt_mono_pos_r; [apply Z.pow_pos_nonneg; lia|]. rewrite Z.add_0_l in Em; apply Em.
Qed.

Lemma ipv6_range s n : IPv6Address s = Some n → 0 <= n < 2 ^ 128.
Proof.
  unfold IPv6Address. destruct (bool_decide (47 ∈ s)); [done|].
  destruct (partition_at 37 s) as [a [sc|]]; [destruct (_ || _); [done|]|]; apply ipv6_int_range.
Qed.

(** An address that [ipaddress] reads, and a port *)
Definition peer_ok (p : PeerInfo) : Prop :=
  (is_Some (IPv6Address (host p)) ∨ is_Some (IPv4Address (host p))) ∧ 0 <= port p < 2 ^ 16.
Lemma is_valid_ip `{IpRegistry} p b : is_valid p b = true → is_Some (IPv6Address (host p)) ∨ is_Some (IPv4Address (host p)).
Proof.
  unfold is_valid. destruct (IPv6Address (host p)); [by left|]. destruct (IPv4Address (host p)); [by right|done].
Qed.

Lemma to_bytes_ok n v : 0 <= v < 2 ^ (8 * Z.of_nat n) → py_to_bytes n false v = Ok (encode_be n v).
Proof.
  intros Hv. unfold py_to_bytes, fits. destruct (Z.leb_spec 0 v), (Z.ltb_spec v (2 ^ (8 * Z.of_nat n))); try lia. done.
Qed.
Lemma get_key_ok p : peer_ok p → ∃ k, get_key p = Ok k ∧ is_bytes k.
Proof.
  intros [Hip Hport]. unfold get_key.
  assert (∃ ip, match IPv6Address (host p) with Some ip => Ok ip
    | None => ip_v4 ← of_opt ValueError (IPv4Address (host p)); Ok (Z.lor sixtofour (Z.shiftl ip_v4 80)) end = Ok ip ∧ 0 <= ip < 2 ^ 128) as (ip&->&Hr).
  { destruct (IPv6Address (host p)) as [ip|] eqn:E6; [exists ip; split; [done|by apply ipv6_range in E6]|].
    destruct Hip as [[? ?]|[ip E4]]; [done|]. rewrite E4. cbn. eexists; split; [done|]. apply ipv4_range in E4.
    unfold sixtofour. rewrite !Z.shiftl_mul_pow2 by lia.
    assert (0 <= ip * 2 ^ 80 < 2 ^ 112) by lia.
    assert (0 <= 0x2002 * 2 ^ 112 < 2 ^ 128) by lia.
    split; [apply Z.lor_nonneg; lia|]. destruct (Z.eq_dec (Z.lor (8194 * 2 ^ 112) (ip * 2 ^ 80)) 0) as [->|Hne]; [lia|].
    assert (0 <= Z.lor (8194 * 2 ^ 112) (ip * 2 ^ 80)) by (apply Z.lor_nonneg; lia).
    apply Z.log2_lt_cancel. rewrite Z.log2_lor by lia. rewrite Z.log2_pow2 by lia.
    assert (Z.log2 (8194 * 2 ^ 112) < 128) by (vm_compute; done).
    assert (Z.log2 (ip * 2 ^ 80) < 128); [|lia]. destruct (Z.eq_dec (ip * 2 ^ 80) 0) as [->|]; [cbn; lia|].
    apply Z.log2_lt_pow2; lia. }
  cbn [mbind res_bind]. rewrite (to_bytes_ok 16) by done. cbn [mbind res_bind].
  assert (is_byte (port p / 0x100)) as Hb by (unfold is_byte; split; [apply Z.div_pos; lia|apply Z.div_lt_upper_bound; lia]).
  rewrite bool_decide_true by done. cbn [check mbind res_bind]. eexists; split; [done|].
  apply is_bytes_app. split; [apply encode_be_are_bytes|]. repeat apply Forall_cons_2; [done| |done].
  unfold is_byte. change 0xFF with (Z.ones 8). rewrite Z.land_ones by lia. apply Z.mod_pos_bound. lia.
Qed.
Lemma get_group_ok p : peer_ok p → ∃ k, get_group p = Ok k ∧ is_bytes k.
Proof.
  intros [Hip _]. unfold get_group. destruct (IPv4Address (host p)) as [ip|] eqn:E4.
  - apply ipv4_range in E4. rewrite (to_bytes_ok 4) by done. cbn [mbind res_bind]. eexists; split; [done|].
    apply Forall_cons_2; [unfold is_byte; lia|]. apply is_bytes_take, encode_be_are_bytes.
  - destruct Hip as [[ip E6]|[? ?]]; [|done]. rewrite E6. apply ipv6_range in E6. cbn [of_opt mbind res_bind].
    rewrite (to_bytes_ok 16) by done. cbn [mbind res_bind]. eexists; split; [done|].
    apply Forall_cons_2; [unfold is_byte; lia|]. apply is_bytes_take, encode_be_are_bytes.
Qed.

Example reads_ipv4 : IPv4Address [49; 46; 50; 46; 51; 46; 50; 53; 53] = Some 0x010203FF.
Proof. reflexivity. Qed.
(** [2001:db8::1%x y]: a scope identifier may hold a space *)
Example reads_scoped : IPv6Address ([50; 48; 48; 49; 58; 100; 98; 56; 58; 58; 49] ++ [37; 120; 32; 121]) = Some (Z.shiftl 0x20010db8 96 + 1).
Proof. reflexivity. Qed.
(** [::ffff:1.2.3.4] *)
Example reads_mapped : IPv6Address [58; 58; 102; 102; 102; 102; 58; 49; 46; 50; 46; 51; 46; 52] = Some 0xFFFF01020304.
Proof. reflexivity. Qed.
