(* ===== verification/AddressManager.v ===== *)
(** * The table of peer addresses

    Models [chia/server/address_manager.py], the port of Bitcoin's [CAddrMan]: addresses
    heard of ("new") and addresses connected to ("tried") in two tables of buckets, whose
    place for an address is a hash under a secret key.

    An [ExtendedPeerInfo] object lives in [map_info] under its node id and is passed around
    with it, so the methods below take the id and update the object in the map.  A table is
    a finite map of the positions whose value is not -1 (rows and columns are remainders,
    so they are never negative).  [time_time n] is the [n]-th reading of the clock and
    [rand n k] the [n]-th random number below [k]; the state counts both. *)
From S2P Require Import Prelude PyInt PyFloat Consensus CoinStore PeerInfo.
From Stdlib Require Import SpecFloat.

(** What [time] and [random] give: finite times, and numbers in the range asked for *)
Definition float_floor (f : float) : res Z :=
  match f with
  | S754_zero _ => Ok 0
  | S754_finite s m e =>
      let v := if s then Zneg m else Zpos m in
      Ok (if 0 <=? e then v * 2 ^ e else v / 2 ^ (- e))
  | S754_infinity _ => Raise OverflowError
  | S754_nan => Raise ValueError
  end.
Class World := {
  time_time : nat → float;
  time_floor : ∀ n, ∃ z, float_floor (time_time n) = Ok z ∧ 0 <= z < 2 ^ 63;
  rand : nat → Z → Z;
  rand_range : ∀ n k, 0 < k → 0 <= rand n k < k;
}.

Definition TRIED_BUCKETS_PER_GROUP : Z := 8.
Definition NEW_BUCKETS_PER_SOURCE_GROUP : Z := 64.
Definition TRIED_BUCKET_COUNT : Z := 256.
Definition NEW_BUCKET_COUNT : Z := 1024.
Definition BUCKET_SIZE : Z := 64.
Definition TRIED_COLLISION_SIZE : Z := 10.
Definition NEW_BUCKETS_PER_ADDRESS : Z := 8.
Definition LOG_TRIED_BUCKET_COUNT : Z := 3.
Definition LOG_NEW_BUCKET_COUNT : Z := 10.
Definition LOG_BUCKET_SIZE : Z := 6.
Definition HORIZON_DAYS : Z := 30.
Definition MAX_RETRIES : Z := 3.
Definition MIN_FAIL_DAYS : Z := 7.
Definition MAX_FAILURES : Z := 10.

(** ** Float expressions of the file *)

Definition float_sub (x y : float) : float := SFsub prec emax x y.
Definition int_lt_float (z : Z) (f : float) : bool :=
  match f with
  | S754_zero _ => z <? 0
  | S754_finite s m e =>
      let v := if s then Zneg m else Zpos m in
      if 0 <=? e then z <? v * 2 ^ e else z * 2 ^ (- e) <? v
  | S754_infinity s => negb s
  | S754_nan => false
  end.
Definition lit (a b : Z) : float := match int_truediv a b with Ok f => f | _ => S754_nan end.
(** [pow(f, k)] for an integer [k >= 0], rounded once *)
Definition float_pow (f : float) (k : Z) : float :=
  match f with
  | S754_finite s m e => binary_normalize prec emax ((if s then Zneg m else Zpos m) ^ k) (e * k) false
  | _ => f
  end.
Definition float_ceil (f : float) : res Z :=
  match f with
  | S754_zero _ => Ok 0
  | S754_finite s m e =>
      let v := if s then Zneg m else Zpos m in
      Ok (if 0 <=? e then v * 2 ^ e else - ((- v) / 2 ^ (- e)))
  | S754_infinity _ => Raise OverflowError
  | S754_nan => Raise ValueError
  end.

(** ** [ExtendedPeerInfo] *)
Module ExtendedPeerInfo.
Record t := {
  peer_info : PeerInfo;
  timestamp : Z;
  src : option PeerInfo;
  random_pos : option Z;
  is_tried : bool;
  ref_count : Z;
  last_success : Z;
  last_try : Z;
  num_attempts : Z;
  last_count_attempt : Z;
}.
Definition new (addr : TimestampedPeerInfo) (src_peer : option PeerInfo) : t :=
  let peer_info := {| host := ts_host addr; port := ts_port addr |} in {|
  peer_info := peer_info; timestamp := PeerInfo.timestamp addr;
  src := Some (default peer_info src_peer);
  random_pos := None; is_tried := false; ref_count := 0; last_success := 0; last_try := 0;
  num_attempts := 0; last_count_attempt := 0 |}.
Definition set_timestamp (v : Z) (i : t) : t := {|
  peer_info := peer_info i; timestamp := v; src := src i; random_pos := random_pos i; is_tried := is_tried i;
  ref_count := ref_count i; last_success := last_success i; last_try := last_try i;
  num_attempts := num_attempts i; last_count_attempt := last_count_attempt i |}.
Definition set_random_pos (v : Z) (i : t) : t := {|
  peer_info := peer_info i; timestamp := timestamp i; src := src i; random_pos := Some v; is_tried := is_tried i;
  ref_count := ref_count i; last_success := last_success i; last_try := last_try i;
  num_attempts := num_attempts i; last_count_attempt := last_count_attempt i |}.
Definition set_tried (v : bool) (i : t) : t := {|
  peer_info := peer_info i; timestamp := timestamp i; src := src i; random_pos := random_pos i; is_tried := v;
  ref_count := ref_count i; last_success := last_success i; last_try := last_try i;
  num_attempts := num_attempts i; last_count_attempt := last_count_attempt i |}.
Definition set_ref_count (v : Z) (i : t) : t := {|
  peer_info := peer_info i; timestamp := timestamp i; src := src i; random_pos := random_pos i; is_tried := is_tried i;
  ref_count := v; last_success := last_success i; last_try := last_try i;
  num_attempts := num_attempts i; last_count_attempt := last_count_attempt i |}.
Definition add_ref (v : Z) (i : t) : t := set_ref_count (ref_count i + v) i.
Definition note_success (timestamp : Z) (i : t) : t := {|
  peer_info := peer_info i; timestamp := ExtendedPeerInfo.timestamp i; src := src i; random_pos := random_pos i;
  is_tried := is_tried i; ref_count := ref_count i; last_success := timestamp; last_try := timestamp;
  num_attempts := 0; last_count_attempt := last_count_attempt i |}.
Definition note_try (timestamp : Z) (counted : bool) (i : t) : t := {|
  peer_info := peer_info i; timestamp := ExtendedPeerInfo.timestamp i; src := src i; random_pos := random_pos i;
  is_tried := is_tried i; ref_count := ref_count i; last_success := last_success i; last_try := timestamp;
  num_attempts := if counted then num_attempts i + 1 else num_attempts i;
  last_count_attempt := if counted then timestamp else last_count_attempt i |}.

Section Hashed.
Context `{StdHash}.
(** [int.from_bytes(bytes(std_hash(b)[:8]), byteorder="big")] *)
Definition hash8 (b : bytes) : Z := decode_be false (take 8 (std_hash b)).

Definition get_tried_bucket (key : Z) (i : t) : res Z :=
  k ← py_to_bytes 32 false key;
  peer_key ← get_key (peer_info i);
  let hash1 := hash8 (k ++ peer_key) mod TRIED_BUCKETS_PER_GROUP in
  group ← get_group (peer_info i);
  let hash2 := hash8 (k ++ group ++ [hash1]) in
  Ok (hash2 mod TRIED_BUCKET_COUNT).

Definition get_new_bucket (key : Z) (src_peer : option PeerInfo) (i : t) : res Z :=
  let src_peer := match src_peer with None => src i | _ => src_peer end in
  src_peer ← of_opt AssertionError src_peer;
  k ← py_to_bytes 32 false key;
  group ← get_group (peer_info i);
  src_group ← get_group src_peer;
  let hash1 := hash8 (k ++ group ++ src_group) mod NEW_BUCKETS_PER_SOURCE_GROUP in
  let hash2 := hash8 (k ++ src_group ++ [hash1]) in
  Ok (hash2 mod NEW_BUCKET_COUNT).

(** ["N"] or ["K"], the bucket as three bytes *)
Definition get_bucket_position (key : Z) (is_new : bool) (nBucket : Z) (i : t) : res Z :=
  k ← py_to_bytes 32 false key;
  b ← py_to_bytes 3 false nBucket;
  peer_key ← get_key (peer_info i);
  Ok (hash8 (k ++ [if is_new then 78 else 75] ++ b ++ peer_key) mod BUCKET_SIZE).
End Hashed.

Definition is_terrible (now : Z) (i : t) : bool :=
  if (0 <? last_try i) && (now - 60 <=? last_try i) then false
  else if now + 10 * 60 <? timestamp i then true
  else if (timestamp i =? 0) || (HORIZON_DAYS * 24 * 60 * 60 <? now - timestamp i) then true
  else if (last_success i =? 0) && (MAX_RETRIES <=? num_attempts i) then true
  else if (MIN_FAIL_DAYS * 24 * 60 * 60 <? now - last_success i) && (MAX_FAILURES <=? num_attempts i) then true
  else false.

Definition get_selection_chance (now : Z) (i : t) : float :=
  let chance := lit 1 1 in
  let since_last_try := Z.max (now - last_try i) 0 in
  let chance := if since_last_try <? 60 * 10 then float_mul chance (lit 1 100) else chance in
  float_mul chance (float_pow (lit 66 100) (Z.min (num_attempts i) 8)).
End ExtendedPeerInfo.
#[local] Notation Info := ExtendedPeerInfo.t.

(** ** The manager *)

Notation matrix := (gmap (Z * Z) Z) (only parsing).
Record AddressManager := {
  id_count : Z;
  key : Z;
  random_pos : list Z;
  tried_matrix : matrix;
  new_matrix : matrix;
  tried_count : Z;
  new_count : Z;
  map_addr : gmap text Z;
  map_info : gmap Z Info;
  last_good : Z;
  tried_collisions : list Z;
  used_new_matrix_positions : gset (Z * Z);
  used_tried_matrix_positions : gset (Z * Z);
  allow_private_subnets : bool;
  clock_reads : nat;
  draws : nat;
}.

(** [clear]: an empty manager with a random key *)
Definition clear `{World} (s : AddressManager) : AddressManager := {|
  id_count := 0; key := rand (draws s) (2 ^ 256); random_pos := []; tried_matrix := ∅; new_matrix := ∅;
  tried_count := 0; new_count := 0; map_addr := ∅; map_info := ∅; last_good := 1; tried_collisions := [];
  used_new_matrix_positions := ∅; used_tried_matrix_positions := ∅; allow_private_subnets := false;
  clock_reads := clock_reads s; draws := S (draws s) |}.
Definition blank : AddressManager := {|
  id_count := 0; key := 0; random_pos := []; tried_matrix := ∅; new_matrix := ∅; tried_count := 0; new_count := 0;
  map_addr := ∅; map_info := ∅; last_good := 1; tried_collisions := []; used_new_matrix_positions := ∅;
  used_tried_matrix_positions := ∅; allow_private_subnets := false; clock_reads := 0; draws := 0 |}.
Definition new_manager `{World} : AddressManager := clear blank.

Definition make_private_subnets_valid (s : AddressManager) : AddressManager := {|
  id_count := id_count s; key := key s; random_pos := random_pos s; tried_matrix := tried_matrix s;
  new_matrix := new_matrix s; tried_count := tried_count s; new_count := new_count s; map_addr := map_addr s;
  map_info := map_info s; last_good := last_good s; tried_collisions := tried_collisions s;
  used_new_matrix_positions := used_new_matrix_positions s;
  used_tried_matrix_positions := used_tried_matrix_positions s; allow_private_subnets := true;
  clock_reads := clock_reads s; draws := draws s |}.

(** The fields, written by parts *)
Definition set_new (m : matrix) (used : gset (Z * Z)) (s : AddressManager) : AddressManager := {|
  id_count := id_count s; key := key s; random_pos := random_pos s; tried_matrix := tried_matrix s;
  new_matrix := m; tried_count := tried_count s; new_count := new_count s; map_addr := map_addr s;
  map_info := map_info s; last_good := last_good s; tried_collisions := tried_collisions s;
  used_new_matrix_positions := used; used_tried_matrix_positions := used_tried_matrix_positions s;
  allow_private_subnets := allow_private_subnets s; clock_reads := clock_reads s; draws := draws s |}.
Definition set_tried (m : matrix) (used : gset (Z * Z)) (s : AddressManager) : AddressManager := {|
  id_count := id_count s; key := key s; random_pos := random_pos s; tried_matrix := m;
  new_matrix := new_matrix s; tried_count := tried_count s; new_count := new_count s; map_addr := map_addr s;
  map_info := map_info s; last_good := last_good s; tried_collisions := tried_collisions s;
  used_new_matrix_positions := used_new_matrix_positions s; used_tried_matrix_positions := used;
  allow_private_subnets := allow_private_subnets s; clock_reads := clock_reads s; draws := draws s |}.
Definition set_counts (tried new : Z) (s : AddressManager) : AddressManager := {|
  id_count := id_count s; key := key s; random_pos := random_pos s; tried_matrix := tried_matrix s;
  new_matrix := new_matrix s; tried_count := tried; new_count := new; map_addr := map_addr s;
  map_info := map_info s; last_good := last_good s; tried_collisions := tried_collisions s;
  used_new_matrix_positions := used_new_matrix_positions s;
  used_tried_matrix_positions := used_tried_matrix_positions s;
  allow_private_subnets := allow_private_subnets s; clock_reads := clock_reads s; draws := draws s |}.
Definition set_nodes (ids : Z) (positions : list Z) (addr : gmap text Z) (info : gmap Z Info) (s : AddressManager) : AddressManager := {|
  id_count := ids; key := key s; random_pos := positions; tried_matrix := tried_matrix s;
  new_matrix := new_matrix s; tried_count := tried_count s; new_count := new_count s; map_addr := addr;
  map_info := info; last_good := last_good s; tried_collisions := tried_collisions s;
  used_new_matrix_positions := used_new_matrix_positions s;
  used_tried_matrix_positions := used_tried_matrix_positions s;
  allow_private_subnets := allow_private_subnets s; clock_reads := clock_reads s; draws := draws s |}.
Definition set_last_good (v : Z) (s : AddressManager) : AddressManager := {|
  id_count := id_count s; key := key s; random_pos := random_pos s; tried_matrix := tried_matrix s;
  new_matrix := new_matrix s; tried_count := tried_count s; new_count := new_count s; map_addr := map_addr s;
  map_info := map_info s; last_good := v; tried_collisions := tried_collisions s;
  used_new_matrix_positions := used_new_matrix_positions s;
  used_tried_matrix_positions := used_tried_matrix_positions s;
  allow_private_subnets := allow_private_subnets s; clock_reads := clock_reads s; draws := draws s |}.
Definition set_collisions (l : list Z) (s : AddressManager) : AddressManager := {|
  id_count := id_count s; key := key s; random_pos := random_pos s; tried_matrix := tried_matrix s;
  new_matrix := new_matrix s; tried_count := tried_count s; new_count := new_count s; map_addr := map_addr s;
  map_info := map_info s; last_good := last_good s; tried_collisions := l;
  used_new_matrix_positions := used_new_matrix_positions s;
  used_tried_matrix_positions := used_tried_matrix_positions s;
  allow_private_subnets := allow_private_subnets s; clock_reads := clock_reads s; draws := draws s |}.
Definition set_counters (c d : nat) (s : AddressManager) : AddressManager := {|
  id_count := id_count s; key := key s; random_pos := random_pos s; tried_matrix := tried_matrix s;
  new_matrix := new_matrix s; tried_count := tried_count s; new_count := new_count s; map_addr := map_addr s;
  map_info := map_info s; last_good := last_good s; tried_collisions := tried_collisions s;
  used_new_matrix_positions := used_new_matrix_positions s;
  used_tried_matrix_positions := used_tried_matrix_positions s;
  allow_private_subnets := allow_private_subnets s; clock_reads := c; draws := d |}.

(** Reading the clock and the random numbers, [random.randrange(0)] raises *)
Definition time_now `{World} : ST AddressManager float :=
  λ s, (Ok (time_time (clock_reads s)), set_counters (S (clock_reads s)) (draws s) s).
Definition time_int `{World} : ST AddressManager Z := t ← time_now; st_res (float_floor t).
Definition randrange `{World} (k : Z) : ST AddressManager Z :=
  λ s, if 0 <? k then (Ok (rand (draws s) k), set_counters (clock_reads s) (S (draws s)) s) else (Raise ValueError, s).

(** [map_info[node_id]], and an assignment to a field of that object *)
Definition get_info (node_id : Z) : ST AddressManager Info :=
  s ← st_get; st_res (of_opt KeyError (map_info s !! node_id)).
Definition put_info (node_id : Z) (i : Info) (s : AddressManager) : AddressManager :=
  set_nodes (id_count s) (random_pos s) (map_addr s) (<[node_id := i]> (map_info s)) s.
Definition update_info (node_id : Z) (f : Info → Info) : ST AddressManager unit :=
  i ← get_info node_id; st_modify (put_info node_id (f i)).

(** [m[row][col]] of a table with [rows] rows *)
Definition in_table (rows row col : Z) : bool := (0 <=? row) && (row <? rows) && (0 <=? col) && (col <? BUCKET_SIZE).
Definition cell (m : matrix) (row col : Z) : Z := default (-1) (m !! (row, col)).
Definition get_cell (rows : Z) (m : matrix) (row col : Z) : res Z :=
  if in_table rows row col then Ok (cell m row col) else Raise IndexError.
Definition new_cell (row col : Z) : ST AddressManager Z := s ← st_get; st_res (get_cell NEW_BUCKET_COUNT (new_matrix s) row col).
Definition tried_cell (row col : Z) : ST AddressManager Z := s ← st_get; st_res (get_cell TRIED_BUCKET_COUNT (tried_matrix s) row col).
Definition put_cell (m : matrix) (row col value : Z) : matrix :=
  if value =? -1 then delete (row, col) m else <[(row, col) := value]> m.
Definition used_after (used : gset (Z * Z)) (row col value : Z) : gset (Z * Z) :=
  if value =? -1 then used ∖ {[ (row, col) ]} else {[ (row, col) ]} ∪ used.

Definition set_new_matrix (row col value : Z) : ST AddressManager unit :=
  st_res (check (in_table NEW_BUCKET_COUNT row col) IndexError) ;;
  st_modify (λ s, set_new (put_cell (new_matrix s) row col value) (used_after (used_new_matrix_positions s) row col value) s).
Definition set_tried_matrix (row col value : Z) : ST AddressManager unit :=
  st_res (check (in_table TRIED_BUCKET_COUNT row col) IndexError) ;;
  st_modify (λ s, set_tried (put_cell (tried_matrix s) row col value) (used_after (used_tried_matrix_positions s) row col value) s).

(** The scans of both tables find the positions that are not -1. *)
Definition used_positions (rows : Z) (m : matrix) : gset (Z * Z) :=
  list_to_set (filter (λ p, cell m p.1 p.2 ≠ -1) (bucket ← seqZ 0 rows; pair bucket <$> seqZ 0 BUCKET_SIZE)).
Definition load_used_table_positions (s : AddressManager) : AddressManager :=
  set_tried (tried_matrix s) (used_positions TRIED_BUCKET_COUNT (tried_matrix s))
    (set_new (new_matrix s) (used_positions NEW_BUCKET_COUNT (new_matrix s)) s).

(** ** Nodes *)

Definition create_ (addr : TimestampedPeerInfo) (addr_src : option PeerInfo) : ST AddressManager Z :=
  s ← st_get;
  let node_id := id_count s + 1 in
  let info := ExtendedPeerInfo.set_random_pos (Z.of_nat (length (random_pos s))) (ExtendedPeerInfo.new addr addr_src) in
  st_modify (set_nodes node_id (random_pos s ++ [node_id]) (<[ts_host addr := node_id]> (map_addr s))
               (<[node_id := info]> (map_info s))) ;;
  mret node_id.

(** [find_] gives the object by its id; the id alone where the object is missing *)
Definition find_ (addr : PeerInfo) (s : AddressManager) : option Info * option Z :=
  match map_addr s !! host addr with
  | None => (None, None)
  | Some node_id => match map_info s !! node_id with None => (None, Some node_id) | Some i => (Some i, Some node_id) end
  end.

(** [l[i] = v] *)
Definition py_store {A} (l : list A) (i : Z) (v : A) : res (list A) :=
  let i := if i <? 0 then i + Z.of_nat (length l) else i in
  if (0 <=? i) && (i <? Z.of_nat (length l)) then Ok (<[Z.to_nat i := v]> l) else Raise IndexError.
Definition store_position (i v : Z) : ST AddressManager unit :=
  s ← st_get;
  l ← st_res (py_store (random_pos s) i v);
  st_modify (set_nodes (id_count s) l (map_addr s) (map_info s)).

Definition swap_random_ (rand_pos_1 rand_pos_2 : Z) : ST AddressManager unit :=
  if rand_pos_1 =? rand_pos_2 then mret tt
  else
    s ← st_get;
    let n := Z.of_nat (length (random_pos s)) in
    st_res (assert_ ((rand_pos_1 <? n) && (rand_pos_2 <? n))) ;;
    node_id_1 ← st_res (py_index (random_pos s) rand_pos_1);
    node_id_2 ← st_res (py_index (random_pos s) rand_pos_2);
    update_info node_id_1 (ExtendedPeerInfo.set_random_pos rand_pos_2) ;;
    update_info node_id_2 (ExtendedPeerInfo.set_random_pos rand_pos_1) ;;
    store_position rand_pos_1 node_id_2 ;;
    store_position rand_pos_2 node_id_1.

Definition delete_new_entry_ (node_id : Z) : ST AddressManager unit :=
  info ← get_info node_id;
  match ExtendedPeerInfo.random_pos info with
  | None => mret tt
  | Some pos =>
      s ← st_get;
      swap_random_ pos (Z.of_nat (length (random_pos s)) - 1) ;;
      st_modify (λ s, set_nodes (id_count s) (removelast (random_pos s)) (map_addr s) (map_info s) s) ;;
      s ← st_get;
      st_res (check (bool_decide (is_Some (map_addr s !! host (ExtendedPeerInfo.peer_info info)))) KeyError) ;;
      st_modify (λ s, set_nodes (id_count s) (random_pos s) (delete (host (ExtendedPeerInfo.peer_info info)) (map_addr s)) (map_info s) s) ;;
      _ ← get_info node_id;
      st_modify (λ s, set_nodes (id_count s) (random_pos s) (map_addr s) (delete node_id (map_info s)) s) ;;
      st_modify (λ s, set_counts (tried_count s) (new_count s - 1) s)
  end.

Definition clear_new_ (bucket pos : Z) : ST AddressManager unit :=
  delete_id ← new_cell bucket pos;
  if delete_id =? -1 then mret tt
  else
    delete_info ← get_info delete_id;
    st_res (assert_ (0 <? ExtendedPeerInfo.ref_count delete_info)) ;;
    update_info delete_id (ExtendedPeerInfo.add_ref (-1)) ;;
    set_new_matrix bucket pos (-1) ;;
    delete_info ← get_info delete_id;
    if ExtendedPeerInfo.ref_count delete_info =? 0 then delete_new_entry_ delete_id else mret tt.

Section Hashed.
Context `{StdHash}.

(** Positions under the key of the manager *)
Definition bucket_position (info : Info) (is_new : bool) (bucket : Z) : ST AddressManager Z :=
  s ← st_get; st_res (ExtendedPeerInfo.get_bucket_position (key s) is_new bucket info).
Definition tried_bucket_of (info : Info) : ST AddressManager Z :=
  s ← st_get; st_res (ExtendedPeerInfo.get_tried_bucket (key s) info).
Definition new_bucket_of (info : Info) (src : option PeerInfo) : ST AddressManager Z :=
  s ← st_get; st_res (ExtendedPeerInfo.get_new_bucket (key s) src info).

(** One bucket of the first loop of [make_tried_] *)
Definition leave_bucket (node_id bucket : Z) : ST AddressManager unit :=
  info ← get_info node_id;
  pos ← bucket_position info true bucket;
  id ← new_cell bucket pos;
  if id =? node_id then set_new_matrix bucket pos (-1) ;; update_info node_id (ExtendedPeerInfo.add_ref (-1)) else mret tt.

(** The old node at a position of the tried table goes back to the new table. *)
Definition evict_tried (cur_bucket cur_bucket_pos node_id_evict : Z) : ST AddressManager unit :=
  s ← st_get;
  st_res (assert_ (bool_decide (is_Some (map_info s !! node_id_evict)))) ;;
  update_info node_id_evict (ExtendedPeerInfo.set_tried false) ;;
  set_tried_matrix cur_bucket cur_bucket_pos (-1) ;;
  st_modify (λ s, set_counts (tried_count s - 1) (new_count s) s) ;;
  old_info ← get_info node_id_evict;
  new_bucket ← new_bucket_of old_info None;
  new_bucket_pos ← bucket_position old_info true new_bucket;
  clear_new_ new_bucket new_bucket_pos ;;
  update_info node_id_evict (ExtendedPeerInfo.set_ref_count 1) ;;
  set_new_matrix new_bucket new_bucket_pos node_id_evict ;;
  st_modify (λ s, set_counts (tried_count s) (new_count s + 1) s).

Definition make_tried_ (node_id : Z) : ST AddressManager unit :=
  st_for (leave_bucket node_id) (seqZ 0 NEW_BUCKET_COUNT) ;;
  info ← get_info node_id;
  st_res (assert_ (ExtendedPeerInfo.ref_count info =? 0)) ;;
  st_modify (λ s, set_counts (tried_count s) (new_count s - 1) s) ;;
  cur_bucket ← tried_bucket_of info;
  cur_bucket_pos ← bucket_position info false cur_bucket;
  node_id_evict ← tried_cell cur_bucket cur_bucket_pos;
  (if node_id_evict =? -1 then mret tt else evict_tried cur_bucket cur_bucket_pos node_id_evict) ;;
  set_tried_matrix cur_bucket cur_bucket_pos node_id ;;
  st_modify (λ s, set_counts (tried_count s + 1) (new_count s) s) ;;
  update_info node_id (ExtendedPeerInfo.set_tried true).

(** The loop that finds a bucket the node is in now *)
Definition find_bucket (node_id : Z) (info : Info) (bucket_rand : Z) (_ : unit) (n : Z) : ST AddressManager (unit + Z) :=
  let cur_new_bucket := (n + bucket_rand) mod NEW_BUCKET_COUNT in
  pos ← bucket_position info true cur_new_bucket;
  id ← new_cell cur_new_bucket pos;
  mret (if id =? node_id then inr cur_new_bucket else inl tt).

Context `{World} `{IpRegistry}.

Definition mark_good_ (addr : PeerInfo) (test_before_evict : bool) (timestamp : Z) : ST AddressManager unit :=
  st_modify (set_last_good timestamp) ;;
  s ← st_get;
  match find_ addr s with
  | (Some info, Some node_id) =>
      if negb (is_valid addr (allow_private_subnets s)) then mret tt
      else if negb (bool_decide (host (ExtendedPeerInfo.peer_info info) = host addr) && (port (ExtendedPeerInfo.peer_info info) =? port addr))
      then mret tt
      else
        update_info node_id (ExtendedPeerInfo.note_success timestamp) ;;
        if ExtendedPeerInfo.is_tried info then mret tt
        else
          bucket_rand ← randrange NEW_BUCKET_COUNT;
          found ← st_early (find_bucket node_id info bucket_rand) tt (seqZ 0 NEW_BUCKET_COUNT);
          match found with
          | inl _ => mret tt
          | inr _ =>
              tried_bucket ← tried_bucket_of info;
              tried_bucket_pos ← bucket_position info false tried_bucket;
              id ← (if test_before_evict then tried_cell tried_bucket tried_bucket_pos else mret (-1));
              if negb (id =? -1) then
                s ← st_get;
                if (Z.of_nat (length (tried_collisions s)) <? TRIED_COLLISION_SIZE) && bool_decide (node_id ∉ tried_collisions s)
                then st_modify (set_collisions (tried_collisions s ++ [node_id])) else mret tt
              else make_tried_ node_id
          end
  | _ => mret tt
  end.

(** The branch of [add_to_new_table_] for an address that is known: may it get one more
    reference in the new table?  The timestamp is updated on the way. *)
Definition renew (addr : TimestampedPeerInfo) (penalty node_id : Z) : ST AddressManager bool :=
  info ← get_info node_id;
  now ← time_now;
  ts ← st_res (float_of_int (timestamp addr));
  let currently_online := float_lt_int (float_sub now ts) (24 * 60 * 60) in
  let update_interval := if currently_online then 60 * 60 else 24 * 60 * 60 in
  (if (0 <? timestamp addr) &&
      ((0 <? ExtendedPeerInfo.timestamp info) || (ExtendedPeerInfo.timestamp info <? timestamp addr - update_interval - penalty))
   then update_info node_id (ExtendedPeerInfo.set_timestamp (Z.max 0 (timestamp addr - penalty))) else mret tt) ;;
  info ← get_info node_id;
  if (timestamp addr =? 0) || (0 <? ExtendedPeerInfo.timestamp info) && (timestamp addr <=? ExtendedPeerInfo.timestamp info)
  then mret false
  else if ExtendedPeerInfo.is_tried info then mret false
  else if ExtendedPeerInfo.ref_count info =? NEW_BUCKETS_PER_ADDRESS then mret false
  else
    let factor := Z.shiftl 1 (ExtendedPeerInfo.ref_count info) in
    if 1 <? factor then r ← randrange factor; mret (r =? 0) else mret true.

(** The end of [add_to_new_table_]: the node takes its place in the new table, or is dropped *)
Definition place (node_id : Z) (source : option PeerInfo) : ST AddressManager unit :=
  info ← get_info node_id;
  new_bucket ← new_bucket_of info source;
  new_bucket_pos ← bucket_position info true new_bucket;
  existing ← new_cell new_bucket new_bucket_pos;
  if existing =? node_id then mret tt
  else
    add_to_new ←
      (if existing =? -1 then mret true
       else
         info_existing ← get_info existing;
         now ← time_int;
         mret (ExtendedPeerInfo.is_terrible now info_existing
               || (1 <? ExtendedPeerInfo.ref_count info_existing) && (ExtendedPeerInfo.ref_count info =? 0)));
    if (add_to_new : bool) then
      clear_new_ new_bucket new_bucket_pos ;;
      update_info node_id (ExtendedPeerInfo.add_ref 1) ;;
      set_new_matrix new_bucket new_bucket_pos node_id
    else if ExtendedPeerInfo.ref_count info =? 0 then delete_new_entry_ node_id else mret tt.

Definition add_to_new_table_ (addr : TimestampedPeerInfo) (source : option PeerInfo) (penalty : Z) : ST AddressManager bool :=
  let peer_info := {| host := ts_host addr; port := ts_port addr |} in
  s ← st_get;
  if negb (is_valid peer_info (allow_private_subnets s)) then mret false
  else
    match find_ peer_info s with
    | (Some info, Some node_id) =>
        let penalty := if bool_decide (ExtendedPeerInfo.peer_info info = peer_info) then 0 else penalty in
        go ← renew addr penalty node_id;
        if (go : bool) then place node_id source ;; mret false else mret false
    | _ =>
        node_id ← create_ addr source;
        update_info node_id (λ i, ExtendedPeerInfo.set_timestamp (Z.max 0 (ExtendedPeerInfo.timestamp i - penalty)) i) ;;
        st_modify (λ s, set_counts (tried_count s) (new_count s + 1) s) ;;
        place node_id source ;;
        mret true
    end.

Definition attempt_ (addr : PeerInfo) (count_failures : bool) (timestamp : Z) : ST AddressManager unit :=
  s ← st_get;
  match find_ addr s with
  | (Some info, Some node_id) =>
      if negb (bool_decide (host (ExtendedPeerInfo.peer_info info) = host addr) && (port (ExtendedPeerInfo.peer_info info) =? port addr))
      then mret tt
      else update_info node_id (ExtendedPeerInfo.note_try timestamp
             (count_failures && (ExtendedPeerInfo.last_count_attempt info <? last_good s)))
  | _ => mret tt
  end.

(** ** Choosing a peer *)

(** A table as [select_peer_] sees it: its rows, the bits of a random step, the bound below
    which it counts as sparse ([math.sqrt] of its size), and the two fields *)
Record Table := {
  rows : Z;
  step_bits : Z;
  sparse_below : Z;
  cells : AddressManager → matrix;
  used : AddressManager → gset (Z * Z);
}.
Definition tried_table : Table := {|
  rows := TRIED_BUCKET_COUNT; step_bits := LOG_TRIED_BUCKET_COUNT; sparse_below := 128;
  cells := tried_matrix; used := used_tried_matrix_positions |}.
Definition new_table : Table := {|
  rows := NEW_BUCKET_COUNT; step_bits := LOG_NEW_BUCKET_COUNT; sparse_below := 256;
  cells := new_matrix; used := used_new_matrix_positions |}.

Definition is_sparse (tb : Table) (s : AddressManager) : bool := Z.of_nat (size (used tb s)) <? sparse_below tb.
(** [list(...)] of a set of positions; the order does not matter, the index is random *)
Definition cached_positions (tb : Table) (s : AddressManager) : list (Z * Z) :=
  if is_sparse tb s then elements (used tb s) else [].

(** The inner loop: random steps until a position is not -1 *)
Definition step_body (tb : Table) (p : Z * Z) : ST AddressManager ((Z * Z) + (Z * Z)) :=
  s ← st_get;
  v ← st_res (get_cell (rows tb) (cells tb s) p.1 p.2);
  if v =? -1 then
    a ← randrange (2 ^ step_bits tb);
    b ← randrange (2 ^ LOG_BUCKET_SIZE);
    mret (inl ((p.1 + a) mod rows tb, (p.2 + b) mod BUCKET_SIZE))
  else mret (inr p).
(** One round: [None] when the table is empty after all *)
Definition pick_position (fuel : nat) (tb : Table) (cached : list (Z * Z)) : ST AddressManager (option (Z * Z)) :=
  s ← st_get;
  if is_sparse tb s then
    if bool_decide (used tb s = ∅) then mret None
    else
      index ← randrange (Z.of_nat (length cached));
      p ← st_res (py_index cached index);
      mret (Some p)
  else
    row ← randrange (rows tb);
    col ← randrange BUCKET_SIZE;
    p ← st_loop fuel (step_body tb) (row, col);
    mret (Some p).
Definition select_round (fuel : nat) (tb : Table) (cached : list (Z * Z)) (chance : float) : ST AddressManager (float + option Info) :=
  p ← pick_position fuel tb cached;
  match p with
  | None => mret (inr None)
  | Some p =>
      s ← st_get;
      node_id ← st_res (get_cell (rows tb) (cells tb s) p.1 p.2);
      st_res (assert_ (negb (node_id =? -1))) ;;
      info ← get_info node_id;
      r ← randrange (2 ^ 30);
      now ← time_int;
      if int_lt_float r (float_mul (float_mul chance (ExtendedPeerInfo.get_selection_chance now info)) (lit (2 ^ 30) 1))
      then mret (inr (Some info)) else mret (inl (float_mul chance (lit 12 10)))
  end.
Definition select_from (rounds fuel : nat) (tb : Table) : ST AddressManager (option Info) :=
  _ ← time_now;
  s ← st_get;
  st_loop rounds (select_round fuel tb (cached_positions tb s)) (lit 1 1).

Definition select_peer_ (rounds fuel : nat) (new_only : bool) : ST AddressManager (option Info) :=
  s ← st_get;
  if bool_decide (random_pos s = []) then mret None
  else if new_only && (new_count s =? 0) then mret None
  else
    tried ← (if negb new_only && (0 <? tried_count s) then
               if new_count s =? 0 then mret true else r ← randrange 2; mret (r =? 0)
             else mret false);
    select_from rounds fuel (if (tried : bool) then tried_table else new_table).

(** ** Collisions, gossip, cleaning *)

(** Removing the first occurrence, [list.remove]; a missing value raises *)
Fixpoint remove_first (x : Z) (l : list Z) : option (list Z) :=
  match l with
  | [] => None
  | y :: l => if decide (y = x) then Some l else cons y <$> remove_first x l
  end.
Definition drop_collision (node_id : Z) : ST AddressManager unit :=
  s ← st_get; l ← st_res (of_opt ValueError (remove_first node_id (tried_collisions s))); st_modify (set_collisions l).

(** [time.time() - t], for an integer [t] *)
Definition elapsed (t : Z) : ST AddressManager float :=
  now ← time_now; t ← st_res (float_of_int t); mret (float_sub now t).
Definition mark_now (peer : PeerInfo) : ST AddressManager unit := now ← time_int; mark_good_ peer false now.

Definition resolve_one (node_id : Z) : ST AddressManager unit :=
  s ← st_get;
  resolved ←
    match map_info s !! node_id with
    | None => mret true
    | Some info =>
        let peer := ExtendedPeerInfo.peer_info info in
        tried_bucket ← tried_bucket_of info;
        tried_bucket_pos ← bucket_position info false tried_bucket;
        old_id ← tried_cell tried_bucket tried_bucket_pos;
        if old_id =? -1 then mark_now peer ;; mret true
        else
          old_info ← get_info old_id;
          since_success ← elapsed (ExtendedPeerInfo.last_success old_info);
          if float_lt_int since_success (4 * 60 * 60) then mret true
          else
            since_try ← elapsed (ExtendedPeerInfo.last_try old_info);
            if float_lt_int since_try (4 * 60 * 60) then
              since_try ← elapsed (ExtendedPeerInfo.last_try old_info);
              if int_lt_float 60 since_try then mark_now peer ;; mret true else mret false
            else
              since_own ← elapsed (ExtendedPeerInfo.last_success info);
              if int_lt_float (40 * 60) since_own then mark_now peer ;; mret true else mret false
    end;
  if (resolved : bool) then drop_collision node_id else mret tt.
Definition resolve_tried_collisions_ : ST AddressManager unit :=
  s ← st_get; st_for resolve_one (tried_collisions s).

Definition select_tried_collision_ : ST AddressManager (option Info) :=
  s ← st_get;
  if bool_decide (tried_collisions s = []) then mret None
  else
    i ← randrange (Z.of_nat (length (tried_collisions s)));
    new_id ← st_res (py_index (tried_collisions s) i);
    match map_info s !! new_id with
    | None => drop_collision new_id ;; mret None
    | Some new_info =>
        tried_bucket ← tried_bucket_of new_info;
        tried_bucket_pos ← bucket_position new_info false tried_bucket;
        old_id ← tried_cell tried_bucket tried_bucket_pos;
        info ← get_info old_id;
        mret (Some info)
    end.

(** One turn of [get_peers_] *)
Definition gossip_one (num_nodes : Z) (addr : list TimestampedPeerInfo) (n : Z) :
    ST AddressManager (list TimestampedPeerInfo + list TimestampedPeerInfo) :=
  if num_nodes <=? Z.of_nat (length addr) then mret (inr addr)
  else
    s ← st_get;
    r ← randrange (Z.of_nat (length (random_pos s)) - n);
    swap_random_ n (r + n) ;;
    s ← st_get;
    id ← st_res (py_index (random_pos s) n);
    info ← get_info id;
    if negb (is_valid (ExtendedPeerInfo.peer_info info) (allow_private_subnets s)) then mret (inl addr)
    else
      now ← time_int;
      if ExtendedPeerInfo.is_terrible now info then mret (inl addr)
      else
        p ← st_res (uint16 (port (ExtendedPeerInfo.peer_info info)));
        ts ← st_res (uint64 (ExtendedPeerInfo.timestamp info));
        mret (inl (addr ++ [{| ts_host := host (ExtendedPeerInfo.peer_info info); ts_port := p; timestamp := ts |}])).
Definition get_peers_ : ST AddressManager (list TimestampedPeerInfo) :=
  s ← st_get;
  let n := Z.of_nat (length (random_pos s)) in
  q ← st_res (int_truediv (23 * n) 100);
  num_nodes ← st_res (float_ceil q);
  let num_nodes := if 1000 <? num_nodes then 1000 else num_nodes in
  r ← st_early (gossip_one num_nodes) [] (seqZ 0 n);
  mret (match r with inl addr | inr addr => addr end).

Definition clean_cell (now max_timestamp_difference max_consecutive_failures : Z) (p : Z * Z) : ST AddressManager unit :=
  node_id ← new_cell p.1 p.2;
  if node_id =? -1 then mret tt
  else
    cur_info ← get_info node_id;
    if (ExtendedPeerInfo.timestamp cur_info <? now - max_timestamp_difference)
       && (max_consecutive_failures <=? ExtendedPeerInfo.num_attempts cur_info)
    then clear_new_ p.1 p.2 else mret tt.
Definition cleanup (max_timestamp_difference max_consecutive_failures : Z) : ST AddressManager unit :=
  now ← time_int;
  st_for (clean_cell now max_timestamp_difference max_consecutive_failures)
    (bucket ← seqZ 0 NEW_BUCKET_COUNT; pair bucket <$> seqZ 0 BUCKET_SIZE).

Definition connect_ (addr : PeerInfo) (timestamp : Z) : ST AddressManager unit :=
  s ← st_get;
  match find_ addr s with
  | (Some info, Some node_id) =>
      if negb (bool_decide (host (ExtendedPeerInfo.peer_info info) = host addr) && (port (ExtendedPeerInfo.peer_info info) =? port addr))
      then mret tt
      else if 20 * 60 <? timestamp - ExtendedPeerInfo.timestamp info
           then update_info node_id (ExtendedPeerInfo.set_timestamp timestamp) else mret tt
  | _ => mret tt
  end.

(** ** The methods under the lock *)

Definition add_to_new_table (addresses : list TimestampedPeerInfo) (source : option PeerInfo) (penalty : Z) : ST AddressManager bool :=
  st_fold (λ is_added addr, cur ← add_to_new_table_ addr source penalty; mret (is_added || cur)) false addresses.
(** [timestamp == -1] stands for the current time *)
Definition given_time (timestamp : Z) : ST AddressManager Z := if timestamp =? -1 then time_int else mret timestamp.
Definition mark_good (addr : PeerInfo) (test_before_evict : bool) (timestamp : Z) : ST AddressManager unit :=
  timestamp ← given_time timestamp; mark_good_ addr test_before_evict timestamp.
Definition attempt (addr : PeerInfo) (count_failures : bool) (timestamp : Z) : ST AddressManager unit :=
  timestamp ← given_time timestamp; attempt_ addr count_failures timestamp.
Definition connect (addr : PeerInfo) (timestamp : Z) : ST AddressManager unit :=
  timestamp ← given_time timestamp; connect_ addr timestamp.
Definition manager_size (s : AddressManager) : Z := Z.of_nat (length (random_pos s)).
End Hashed.
