(* ===== verification/AddressInv.v ===== *)
(** * The invariant of the tables of addresses

    The invariant of [AddressManager] (what Bitcoin's [CAddrMan] checks of itself): the
    indexes by host and by random position agree with the nodes, every node is in the
    tried table exactly once or in the new table as often as its reference count says, at
    the positions its hash gives, and the counters count.  Each single change of the state
    the methods are made of keeps it. *)
From S2P Require Import Prelude PyInt PyFloat Consensus CoinStore PeerInfo AddressManager.
From Stdlib Require Import SpecFloat.

#[local] Notation Info := ExtendedPeerInfo.t.
#[local] Notation ref_count := ExtendedPeerInfo.ref_count.
#[local] Notation is_tried := ExtendedPeerInfo.is_tried.
#[local] Notation peer_info := ExtendedPeerInfo.peer_info.

(** ** An integer of 64 bits converts to a float *)
Lemma digits2_bounds p : Zpos p < 2 ^ Zpos (digits2_pos p) <= 2 * Zpos p.
Proof.
  induction p as [p IH|p IH|]; cbn [digits2_pos]; [| |done]; rewrite Pos2Z.inj_succ, Z.pow_succ_r by lia; lia.
Qed.
Lemma Zdigits2_le m k : 0 <= m < 2 ^ k → 0 <= k → Zdigits2 m <= k.
Proof.
  intros Hm Hk. destruct m as [|p|p]; cbn; [lia| |lia]. pose proof (digits2_bounds p) as [_ Hd].
  destruct (Z.le_gt_cases (Zpos (digits2_pos p)) k) as [|Hgt]; [done|].
  assert (2 ^ (k + 1) <= 2 ^ Zpos (digits2_pos p)) as Hp by (apply Z.pow_le_mono_r; lia). rewrite Z.pow_add_r in Hp by lia. lia.
Qed.
Lemma shr_1_le r : 0 <= shr_m r → shr_m (shr_1 r) <= shr_m r.
Proof. destruct r as [[|[]|[]] ? ?]; cbn; lia. Qed.
Lemma iter_shr_1_le p r : 0 <= shr_m r → shr_m (iter_pos shr_1 p r) <= shr_m r.
Proof.
  revert r. induction p as [p IH|p IH|]; intros r Hr; cbn; [| |by apply shr_1_le].
  - pose proof (shr_1_nonneg r Hr) as Hn. pose proof (iter_shr_1_nonneg p _ Hn) as Hn'.
    pose proof (IH _ Hn'). pose proof (IH _ Hn). pose proof (shr_1_le r Hr). lia.
  - pose proof (iter_shr_1_nonneg p _ Hr) as Hn. pose proof (IH _ Hn). pose proof (IH _ Hr). lia.
Qed.
Lemma shr_fexp_bound m e l k : 0 <= m < 2 ^ k → 0 <= k →
  shr_m (shr_fexp prec emax m e l).1 <= m ∧ (shr_fexp prec emax m e l).2 <= Z.max e (Z.max (k + e - prec) (-1074)).
Proof.
  intros Hm Hk. pose proof (Zdigits2_le m k Hm Hk) as Hd. unfold shr_fexp, shr.
  assert (shr_m (shr_record_of_loc m l) = m) as Er by (destruct l as [|[]]; done).
  assert (fexp prec emax (Zdigits2 m + e) <= Z.max (k + e - prec) (-1074)) as Hf.
  { unfold fexp, SpecFloat.emin. change (3 - emax - prec) with (-1074). lia. }
  destruct (fexp prec emax (Zdigits2 m + e) - e) eqn:En; cbn [fst snd].
  - rewrite Er. lia.
  - split; [|lia]. rewrite <- Er at 2. apply iter_shr_1_le. lia.
  - rewrite Er. lia.
Qed.
Lemma round_aux_finite m e l k : 0 <= m < 2 ^ k → 0 <= k <= 300 → e <= 0 → is_inf (binary_round_aux prec emax false m e l) = false.
Proof.
  intros Hm Hk He. unfold binary_round_aux. destruct (shr_fexp_bound m e l k Hm ltac:(lia)) as [Hm1 He1].
  pose proof (shr_fexp_nonneg m e l ltac:(lia)) as Hm0. destruct (shr_fexp prec emax m e l) as [r1 e1]. cbn [fst snd] in *.
  assert (0 <= round_nearest_even (shr_m r1) (loc_of_shr_record r1) <= shr_m r1 + 1) as Hr.
  { unfold round_nearest_even. destruct (loc_of_shr_record r1) as [|[]]; [lia| |lia|lia]. destruct (Z.even _); lia. }
  assert (2 ^ (k + 1) = 2 * 2 ^ k) as Ek by (rewrite Z.pow_add_r; lia).
  destruct (shr_fexp_bound (round_nearest_even (shr_m r1) (loc_of_shr_record r1)) e1 loc_Exact (k + 1) ltac:(lia) ltac:(lia)) as [_ He2].
  destruct (shr_fexp prec emax _ e1 loc_Exact) as [r2 e2]. cbn [fst snd] in *. unfold prec in *.
  destruct (shr_m r2); [done| |done]. destruct (Z.leb_spec e2 (emax - 53)) as [|Hgt]; [done|]. unfold emax in Hgt. lia.
Qed.
Lemma float_of_int_ok z : 0 <= z < 2 ^ 64 → ∃ f, float_of_int z = Ok f.
Proof.
  intros Hz. unfold float_of_int. enough (is_inf (binary_normalize prec emax z 0 false) = false) as -> by by eexists.
  destruct z as [|m|m]; [done| |lia]. cbn [binary_normalize]. unfold binary_round.
  pose proof (digits2_bounds m) as [Hm _]. pose proof (Zdigits2_le (Zpos m) 64 ltac:(lia) ltac:(lia)) as Hd. cbn [Zdigits2] in Hd.
  assert (∃ mz ez k, shl_align m 0 (fexp prec emax (Zpos (digits2_pos m) + 0)) = (mz, ez) ∧ Zpos mz < 2 ^ k ∧ 0 <= k <= 64 ∧ ez <= 0)
    as (mz&ez&k&->&Hmz&Hk&Hez).
  { unfold shl_align. set (ex := fexp _ _ _). assert (ex = Zpos (digits2_pos m) - 53) as Eex.
    { subst ex. unfold fexp, SpecFloat.emin, prec, emax. lia. }
    destruct (ex - 0) as [|q|q] eqn:Eq.
    - exists m, 0, 64. split; [done|]. lia.
    - exists m, 0, 64. split; [done|]. lia.
    - exists (shift_pos q m), ex, 53. split; [done|]. split; [|lia].
      rewrite shift_pos_correct. change (Z.pow_pos 2 q) with (2 ^ Zpos q).
      replace 53 with (Zpos q + Zpos (digits2_pos m)) by lia. rewrite Z.pow_add_r by lia.
      apply Z.mul_lt_mono_pos_l; lia. }
  apply (round_aux_finite _ _ _ k); lia.
Qed.
Lemma truediv_ok a b : 0 <= a < 2 ^ 64 → 0 < b < 2 ^ 64 → ∃ q, int_truediv a b = Ok q.
Proof.
  intros Ha Hb. unfold int_truediv. destruct b as [|b|b]; [lia| |lia]. destruct a as [|a|a]; [by eexists| |lia].
  enough (is_inf (SFdiv prec emax (S754_finite false a 0) (S754_finite false b 0)) = false) as -> by by eexists.
  unfold SFdiv. destruct (SFdiv_core_binary prec emax (Zpos a) 0 (Zpos b) 0) as [[q e] l] eqn:E.
  pose proof (Zdigits2_le (Zpos a) 64 ltac:(lia) ltac:(lia)) as Hda. pose proof (Zdigits2_le (Zpos b) 64 ltac:(lia) ltac:(lia)) as Hdb.
  unfold SFdiv_core_binary in E. set (e' := Z.min _ _) in E. cbn [Zdigits2] in *.
  assert (-200 <= e' <= 0) as He by (subst e'; unfold fexp, SpecFloat.emin, prec, emax; lia).
  set (m' := match 0 - 0 - e' with Z0 => _ | Zpos _ => _ | Zneg _ => _ end) in E.
  assert (0 <= m' < 2 ^ 264) as Hm.
  { subst m'. destruct (0 - 0 - e') as [|s|s] eqn:Es; [lia| |lia]. rewrite Z.shiftl_mul_pow2 by lia.
    assert (0 < 2 ^ Zpos s <= 2 ^ 200) by (split; [lia|apply Z.pow_le_mono_r; lia]). change (2 ^ 264) with (2 ^ 64 * 2 ^ 200). nia. }
  pose proof (Z_div_mod m' (Zpos b) ltac:(lia)) as Hd. destruct (Z.div_eucl m' (Zpos b)) as [q' r']. injection E as <- <- _.
  apply (round_aux_finite _ _ _ 264); [|lia|lia]. split; nia.
Qed.

(** ** Counting the entries of a map *)
Section Count.
Context {K V : Type} `{Countable K}.
Implicit Types (m : gmap K V) (P : V → bool).

Definition count P m : Z := Z.of_nat (size (filter (λ kv, P kv.2 = true) m)).
Definition one (b : bool) : Z := if b then 1 else 0.

Lemma count_empty P : count P ∅ = 0.
Proof. unfold count. by rewrite map_filter_empty, map_size_empty. Qed.
Lemma count_fresh P m k v : m !! k = None → count P (<[k := v]> m) = count P m + one (P v).
Proof.
  intros Hk. unfold count, one. rewrite map_filter_insert. cbn. destruct (decide (P v = true)) as [E|E].
  - rewrite E, map_size_insert_None by (apply map_lookup_filter_None; by left). lia.
  - apply not_true_iff_false in E. rewrite E, delete_id by done. lia.
Qed.
Lemma count_delete P m k v : m !! k = Some v → count P (delete k m) = count P m - one (P v).
Proof.
  intros Hk. rewrite <- (insert_delete_id m k v) at 2 by done. rewrite count_fresh by apply lookup_delete_eq. lia.
Qed.
Lemma count_change P m k v w : m !! k = Some v → count P (<[k := w]> m) = count P m + one (P w) - one (P v).
Proof.
  intros Hk. rewrite <- insert_delete_eq, count_fresh by apply lookup_delete_eq. rewrite (count_delete P m k v) by done. lia.
Qed.
Lemma count_nonneg P m : 0 <= count P m.
Proof. unfold count. lia. Qed.
Lemma count_pos P m k v : m !! k = Some v → P v = true → 0 < count P m.
Proof.
  intros Hk Hv. pose proof (count_nonneg P (delete k m)). rewrite (count_delete P m k v) in * by done. rewrite Hv in *. cbn in *. lia.
Qed.
Lemma count_zero P m : (∀ k v, m !! k = Some v → P v = false) → count P m = 0.
Proof.
  intros Hn. unfold count. enough (filter (λ kv : K * V, P kv.2 = true) m = ∅) as -> by by rewrite map_size_empty.
  apply map_empty. intros k. apply map_lookup_filter_None. right. intros v Hk. cbn. by rewrite (Hn k v Hk).
Qed.
End Count.

(** The number of cells a node fills *)
Definition occurrences (m : matrix) (id : Z) : Z := count (λ v, bool_decide (v = id)) m.

(** ** The invariant *)

(** What the code relies on of one node: an address, times of 64 bits *)
Record info_ok (i : Info) : Prop := {
  io_peer : peer_ok (peer_info i);
  io_src : ∃ src, ExtendedPeerInfo.src i = Some src ∧ peer_ok src;
  io_timestamp : 0 <= ExtendedPeerInfo.timestamp i < 2 ^ 64;
  io_success : 0 <= ExtendedPeerInfo.last_success i < 2 ^ 64;
  io_try : 0 <= ExtendedPeerInfo.last_try i < 2 ^ 64;
  io_attempts : 0 <= ExtendedPeerInfo.num_attempts i;
}.

(** Reduces the fields of a state written by parts. *)
Ltac fields :=
  cbn [put_info set_nodes set_counts set_new set_tried set_collisions map_info map_addr random_pos id_count key new_matrix
    tried_matrix tried_count new_count used_new_matrix_positions used_tried_matrix_positions tried_collisions
    allow_private_subnets last_good] in *.

Section Invariant.
Context `{StdHash}.

Definition value_of (r : res Z) : Z := match r with Ok v => v | _ => 0 end.
(** The position of a node in a bucket of the new table, and its cell in the tried table *)
Definition new_pos (key : Z) (p : PeerInfo) (bucket : Z) : Z :=
  value_of (k ← py_to_bytes 32 false key; b ← py_to_bytes 3 false bucket; peer_key ← get_key p;
            Ok (ExtendedPeerInfo.hash8 (k ++ [78] ++ b ++ peer_key) mod BUCKET_SIZE)).
Definition tried_row (key : Z) (p : PeerInfo) : Z :=
  value_of (k ← py_to_bytes 32 false key; peer_key ← get_key p; group ← get_group p;
            Ok (ExtendedPeerInfo.hash8 (k ++ group ++ [ExtendedPeerInfo.hash8 (k ++ peer_key) mod TRIED_BUCKETS_PER_GROUP]) mod TRIED_BUCKET_COUNT)).
Definition tried_col (key : Z) (p : PeerInfo) : Z :=
  value_of (k ← py_to_bytes 32 false key; b ← py_to_bytes 3 false (tried_row key p); peer_key ← get_key p;
            Ok (ExtendedPeerInfo.hash8 (k ++ [75] ++ b ++ peer_key) mod BUCKET_SIZE)).
Definition tried_pos (key : Z) (p : PeerInfo) : Z * Z := (tried_row key p, tried_col key p).

(** [L]: nodes that may be in no table; [c]: nodes of the new table not counted yet;
    [hole]: cells of the tried table emptied for the moment *)
Record am_inv (L : gset Z) (c : Z) (hole : gset (Z * Z)) (s : AddressManager) : Prop := {
  am_key : 0 <= key s < 2 ^ 256;
  am_id_count : 0 <= id_count s;
  am_ids : ∀ id i, map_info s !! id = Some i → 0 <= id <= id_count s;
  am_info : ∀ id i, map_info s !! id = Some i → info_ok i;
  am_addr : ∀ h id, map_addr s !! h = Some id ↔ ∃ i, map_info s !! id = Some i ∧ host (peer_info i) = h;
  am_pos : ∀ id i, map_info s !! id = Some i →
    ∃ p, ExtendedPeerInfo.random_pos i = Some (Z.of_nat p) ∧ random_pos s !! p = Some id;
  am_at : ∀ p id, random_pos s !! p = Some id →
    ∃ i, map_info s !! id = Some i ∧ ExtendedPeerInfo.random_pos i = Some (Z.of_nat p);
  am_new : ∀ b p id, new_matrix s !! (b, p) = Some id →
    ∃ i, map_info s !! id = Some i ∧ 0 <= b < NEW_BUCKET_COUNT ∧ p = new_pos (key s) (peer_info i) b;
  am_ref : ∀ id i, map_info s !! id = Some i → ref_count i = occurrences (new_matrix s) id;
  am_tried : ∀ b p id, tried_matrix s !! (b, p) = Some id ↔
    ∃ i, map_info s !! id = Some i ∧ is_tried i = true ∧ (b, p) = tried_pos (key s) (peer_info i);
  am_state : ∀ id i, map_info s !! id = Some i →
    if is_tried i then ref_count i = 0 else ref_count i <= NEW_BUCKETS_PER_ADDRESS ∧ (id ∉ L → 0 < ref_count i);
  am_tried_count : tried_count s = count is_tried (map_info s);
  am_new_count : new_count s = count (λ i, negb (is_tried i)) (map_info s) - c;
  am_used_new : used_new_matrix_positions s = dom (new_matrix s);
  am_used_tried : used_tried_matrix_positions s = dom (tried_matrix s);
  am_collisions : NoDup (tried_collisions s) ∧ Z.of_nat (length (tried_collisions s)) <= TRIED_COLLISION_SIZE;
  am_collision_ids : ∀ id, id ∈ tried_collisions s → id <= id_count s;
  am_collided : ∀ id i, id ∈ tried_collisions s → map_info s !! id = Some i →
    tried_pos (key s) (peer_info i) ∈ dom (tried_matrix s) ∪ hole;
}.

(** *** Positions are what the methods compute, and lie in the tables *)
Lemma mod_range a b : 0 < b → 0 <= a mod b < b.
Proof. apply Z.mod_pos_bound. Qed.
Lemma key_bytes key : 0 <= key < 2 ^ 256 → py_to_bytes 32 false key = Ok (encode_be 32 key).
Proof. intros Hk. by apply to_bytes_ok. Qed.
Lemma bucket_bytes b : 0 <= b < NEW_BUCKET_COUNT → py_to_bytes 3 false b = Ok (encode_be 3 b).
Proof. intros Hb. apply to_bytes_ok. unfold NEW_BUCKET_COUNT in Hb. lia. Qed.

Lemma new_pos_ok key i b : 0 <= key < 2 ^ 256 → 0 <= b < NEW_BUCKET_COUNT → peer_ok (peer_info i) →
  ExtendedPeerInfo.get_bucket_position key true b i = Ok (new_pos key (peer_info i) b) ∧
  in_table NEW_BUCKET_COUNT b (new_pos key (peer_info i) b) = true.
Proof.
  intros Hk Hb Hp. destruct (get_key_ok _ Hp) as (pk&Ek&_). unfold ExtendedPeerInfo.get_bucket_position, new_pos.
  rewrite key_bytes, bucket_bytes, Ek by done. cbn [mbind res_bind value_of]. split; [done|].
  pose proof (mod_range (ExtendedPeerInfo.hash8 (encode_be 32 key ++ [78] ++ encode_be 3 b ++ pk)) BUCKET_SIZE eq_refl).
  unfold in_table. repeat (apply andb_true_iff; split); first [apply Z.leb_le|apply Z.ltb_lt]; lia.
Qed.
Lemma tried_row_ok key i : 0 <= key < 2 ^ 256 → peer_ok (peer_info i) →
  ExtendedPeerInfo.get_tried_bucket key i = Ok (tried_row key (peer_info i)) ∧ 0 <= tried_row key (peer_info i) < TRIED_BUCKET_COUNT.
Proof.
  intros Hk Hp. destruct (get_key_ok _ Hp) as (pk&Ek&_). destruct (get_group_ok _ Hp) as (g&Eg&_).
  unfold ExtendedPeerInfo.get_tried_bucket, tried_row. rewrite key_bytes, Ek, Eg by done. cbn [mbind res_bind value_of].
  split; [done|]. by apply mod_range.
Qed.
Lemma tried_col_ok key i : 0 <= key < 2 ^ 256 → peer_ok (peer_info i) →
  ExtendedPeerInfo.get_bucket_position key false (tried_row key (peer_info i)) i = Ok (tried_col key (peer_info i)) ∧
  in_table TRIED_BUCKET_COUNT (tried_row key (peer_info i)) (tried_col key (peer_info i)) = true.
Proof.
  intros Hk Hp. destruct (get_key_ok _ Hp) as (pk&Ek&_). destruct (tried_row_ok key i Hk Hp) as [_ Hr].
  assert (TRIED_BUCKET_COUNT = 256 ∧ NEW_BUCKET_COUNT = 1024) as [E1 E2] by done.
  unfold ExtendedPeerInfo.get_bucket_position, tried_col. rewrite key_bytes, bucket_bytes, Ek by (done || lia).
  cbn [mbind res_bind value_of]. split; [done|].
  set (h := ExtendedPeerInfo.hash8 _). pose proof (mod_range h BUCKET_SIZE eq_refl).
  unfold in_table. repeat (apply andb_true_iff; split); first [apply Z.leb_le|apply Z.ltb_lt]; lia.
Qed.
Lemma new_bucket_ok key src i : 0 <= key < 2 ^ 256 → info_ok i → (∀ p, src = Some p → peer_ok p) →
  ∃ b, ExtendedPeerInfo.get_new_bucket key src i = Ok b ∧ 0 <= b < NEW_BUCKET_COUNT.
Proof.
  intros Hk Hi Hs. destruct (io_src i Hi) as (p0&Ep0&Hp0). destruct (get_group_ok _ (io_peer i Hi)) as (g&Eg&_).
  assert (∃ p, match src with None => ExtendedPeerInfo.src i | _ => src end = Some p ∧ peer_ok p) as (p&Ep&Hp).
  { destruct src as [p|]; [exists p; split; [done|by apply Hs]|by exists p0]. }
  destruct (get_group_ok _ Hp) as (g'&Eg'&_).
  unfold ExtendedPeerInfo.get_new_bucket. rewrite Ep, key_bytes, Eg by done. cbn [mbind res_bind of_opt]. rewrite Eg'.
  cbn [mbind res_bind]. eexists; split; [done|]. by apply mod_range.
Qed.

(** *** Single changes of the state *)

(** A node replaced by one that differs in its times only *)
Definition same_place (i j : Info) : Prop :=
  peer_info j = peer_info i ∧ ExtendedPeerInfo.random_pos j = ExtendedPeerInfo.random_pos i ∧
  is_tried j = is_tried i ∧ ref_count j = ref_count i.

Lemma insert_back (M : gmap Z Info) id i j id' k : M !! id = Some i → <[id := j]> M !! id' = Some k →
  ∃ k0, M !! id' = Some k0 ∧ (id' = id ∧ k0 = i ∧ k = j ∨ id' ≠ id ∧ k = k0).
Proof. intros Hi [[<- <-]|[Hne Hk]]%lookup_insert_Some; [exists i; naive_solver|exists k; naive_solver]. Qed.
Lemma insert_on (M : gmap Z Info) id i j id' k : M !! id = Some i → M !! id' = Some k →
  ∃ k', <[id := j]> M !! id' = Some k' ∧ (id' = id ∧ k = i ∧ k' = j ∨ id' ≠ id ∧ k' = k).
Proof.
  intros Hi Hk. destruct (decide (id' = id)) as [->|Hne].
  - exists j. rewrite lookup_insert_eq. naive_solver.
  - exists k. rewrite lookup_insert_ne by done. naive_solver.
Qed.

(** The facts about hosts and random positions only depend on these two fields. *)
Definition same_index (i j : Info) : Prop :=
  peer_info j = peer_info i ∧ ExtendedPeerInfo.random_pos j = ExtendedPeerInfo.random_pos i.
Lemma insert_index (M : gmap Z Info) id i j : M !! id = Some i → same_index i j →
  (∀ id' k, <[id := j]> M !! id' = Some k → ∃ k0, M !! id' = Some k0 ∧ same_index k0 k) ∧
  (∀ id' k0, M !! id' = Some k0 → ∃ k, <[id := j]> M !! id' = Some k ∧ same_index k0 k).
Proof.
  intros Hi Hs. split; intros id' k Hk.
  - destruct (insert_back _ _ _ _ _ _ Hi Hk) as (k0&E&Hc). exists k0. split; [done|].
    destruct Hc as [(->&->&->)|[_ ->]]; [done|by unfold same_index].
  - destruct (insert_on M id i j _ _ Hi Hk) as (k'&E&[(->&->&->)|[_ ->]]); eexists; (split; [done|]); [done|].
    by unfold same_index.
Qed.

Record indexed (M : gmap Z Info) (addr : gmap text Z) (positions : list Z) : Prop := {
  ix_addr : ∀ h id, addr !! h = Some id ↔ ∃ i, M !! id = Some i ∧ host (peer_info i) = h;
  ix_pos : ∀ id i, M !! id = Some i → ∃ p, ExtendedPeerInfo.random_pos i = Some (Z.of_nat p) ∧ positions !! p = Some id;
  ix_at : ∀ p id, positions !! p = Some id → ∃ i, M !! id = Some i ∧ ExtendedPeerInfo.random_pos i = Some (Z.of_nat p);
}.
Lemma inv_indexed L c hole s : am_inv L c hole s → indexed (map_info s) (map_addr s) (random_pos s).
Proof. intros I. split; apply I. Qed.
Lemma indexed_insert M addr positions id i j : indexed M addr positions → M !! id = Some i → same_index i j →
  indexed (<[id := j]> M) addr positions.
Proof.
  intros [Ha Hp Hat] Hi Hs. destruct (insert_index M id i j Hi Hs) as [Hb Hf]. split.
  - intros h id'. rewrite Ha. split.
    + intros (k0&E&Eh). destruct (Hf _ _ E) as (k&Ek&Epi&_). exists k. by rewrite Epi.
    + intros (k&E&Eh). destruct (Hb _ _ E) as (k0&Ek&Epi&_). exists k0. by rewrite <- Epi.
  - intros id' k E. destruct (Hb _ _ E) as (k0&Ek&_&Er). rewrite Er. by apply Hp.
  - intros p id' E. destruct (Hat p id' E) as (k0&Ek&Er). destruct (Hf _ _ Ek) as (k&Ek'&_&Er'). exists k. by rewrite Er'.
Qed.

Lemma inv_touch L c hole s id i j : am_inv L c hole s → map_info s !! id = Some i → same_place i j → info_ok j →
  am_inv L c hole (put_info id j s).
Proof.
  intros I Hi (Hpi&Hrp&Htr&Href) Hok. pose proof (indexed_insert _ _ _ _ _ j (inv_indexed _ _ _ _ I) Hi (conj Hpi Hrp)) as [Ha Hp Hat].
  assert (∀ id' k, <[id := j]> (map_info s) !! id' = Some k → ∃ k0, map_info s !! id' = Some k0 ∧ same_place k0 k) as Hb.
  { intros id' k Hk. destruct (insert_back _ _ _ _ _ _ Hi Hk) as (k0&E&Hc). exists k0. split; [done|].
    destruct Hc as [(->&->&->)|[_ ->]]; by unfold same_place. }
  assert (∀ id' k0, map_info s !! id' = Some k0 → ∃ k, <[id := j]> (map_info s) !! id' = Some k ∧ same_place k0 k) as Hf.
  { intros id' k Hk. destruct (insert_on _ _ _ j _ _ Hi Hk) as (k'&E&[(->&->&->)|[_ ->]]); eexists; (split; [done|]); by unfold same_place. }
  destruct I. split; fields; try done.
  - intros id' k E. destruct (Hb _ _ E) as (k0&E0&_). eauto.
  - intros id' k E. destruct (insert_back _ _ _ _ _ _ Hi E) as (k0&E0&[(->&->&->)|[_ ->]]); [done|]. eauto.
  - intros b p id' E. destruct (am_new0 _ _ _ E) as (k0&E0&Hbk&->). destruct (Hf _ _ E0) as (k&Ek&Epi&_). exists k. by rewrite Epi.
  - intros id' k E. destruct (Hb _ _ E) as (k0&E0&_&_&_&->). eauto.
  - intros b p id'. rewrite am_tried0. split.
    + intros (k0&E0&Et&Ep). destruct (Hf _ _ E0) as (k&Ek&Epi&_&Ht&_). exists k. by rewrite Epi, Ht.
    + intros (k&E&Et&Ep). destruct (Hb _ _ E) as (k0&E0&Epi&_&Ht&_). exists k0. by rewrite <- Epi, <- Ht.
  - intros id' k E. destruct (Hb _ _ E) as (k0&E0&_&_&Ht&->). rewrite Ht. by apply am_state0.
  - rewrite (count_change _ _ _ i) by done. rewrite Htr. lia.
  - rewrite (count_change _ _ _ i) by done. rewrite Htr. lia.
  - intros id' k Hin E. destruct (Hb _ _ E) as (k0&E0&Epi&_). rewrite Epi. eauto.
Qed.

(** Counters and other fields the invariant does not mention *)
Lemma inv_counters L c hole a d s : am_inv L c hole s → am_inv L c hole (set_counters a d s).
Proof. intros []. by split. Qed.
Lemma inv_last_good L c hole v s : am_inv L c hole s → am_inv L c hole (set_last_good v s).
Proof. intros []. by split. Qed.
Lemma inv_more L L' c hole s : L ⊆ L' → am_inv L c hole s → am_inv L' c hole s.
Proof.
  intros HL []. split; try done. intros id i E. specialize (am_state0 id i E). destruct (is_tried i); [done|].
  destruct am_state0 as [? Hs]. split; [done|]. intros ?. apply Hs. set_solver.
Qed.
Lemma inv_new_count L c hole n s : am_inv L c hole s → am_inv L (c - n) hole (set_counts (tried_count s) (new_count s + n) s).
Proof. intros []. split; try done. cbn. lia. Qed.

(** The references of an untried node change: the cells of the new table with them. *)
Lemma inv_ref L L' c hole s m' r id i : am_inv L c hole s → map_info s !! id = Some i → is_tried i = false →
  (∀ id', occurrences m' id' = if decide (id' = id) then r else occurrences (new_matrix s) id') →
  (∀ b p id', m' !! (b, p) = Some id' → new_matrix s !! (b, p) = Some id' ∨
     id' = id ∧ 0 <= b < NEW_BUCKET_COUNT ∧ p = new_pos (key s) (peer_info i) b) →
  r <= NEW_BUCKETS_PER_ADDRESS → (id ∉ L' → 0 < r) → L ⊆ L' ∪ {[ id ]} →
  am_inv L' c hole (set_new m' (dom m') (put_info id (ExtendedPeerInfo.set_ref_count r i) s)).
Proof.
  intros I Hi Ht Hocc Hcells Hr Hpos HL. set (j := ExtendedPeerInfo.set_ref_count r i).
  pose proof (indexed_insert _ _ _ _ _ j (inv_indexed _ _ _ _ I) Hi (conj eq_refl eq_refl)) as [Ha Hp Hat].
  destruct I. split; fields; try done.
  - intros id' k E. destruct (insert_back _ _ _ _ _ _ Hi E) as (k0&E0&_). eauto.
  - intros id' k E. destruct (insert_back _ _ _ _ _ _ Hi E) as (k0&E0&[(->&->&->)|[_ ->]]); [|eauto]. by destruct (am_info0 _ _ Hi).
  - intros b p id' [E|(->&Hb&->)]%Hcells; [|exists j; by rewrite lookup_insert_eq].
    destruct (am_new0 _ _ _ E) as (k0&E0&Hbk&->).
    destruct (insert_on _ _ _ j _ _ Hi E0) as (k&Ek&[(->&->&->)|[_ ->]]); eauto 6.
  - intros id' k E. rewrite Hocc. destruct (insert_back _ _ _ _ _ _ Hi E) as (k0&E0&[(->&->&->)|[Hne ->]]).
    + by rewrite decide_True by done.
    + rewrite decide_False by done. by apply am_ref0.
  - intros b' p' id'. rewrite am_tried0. split.
    + intros (k0&E0&Et&Ep). destruct (insert_on _ _ _ j _ _ Hi E0) as (k&Ek&[(->&->&->)|[_ ->]]); eauto 6.
    + intros (k&E&Et&Ep). destruct (insert_back _ _ _ _ _ _ Hi E) as (k0&E0&[(->&->&->)|[_ ->]]); eauto.
  - intros id' k E. destruct (insert_back _ _ _ _ _ _ Hi E) as (k0&E0&[(->&->&->)|[Hne ->]]).
    + cbn. by rewrite Ht.
    + pose proof (am_state0 id' k0 E0) as Hs. destruct (is_tried k0); [done|]. split; [lia|]. intros ?. apply Hs. set_solver.
  - rewrite (count_change _ _ _ i) by done. cbn. lia.
  - rewrite (count_change _ _ _ i) by done. cbn. lia.
  - intros id' k Hin E. by destruct (insert_back _ _ _ _ _ _ Hi E) as (k0&E0&[(->&->&->)|[Hne ->]]); apply (am_collided0 _ _ Hin E0).
Qed.

(** A node leaves a cell of the new table. *)
Definition unplace (id b p : Z) (i : Info) (s : AddressManager) : AddressManager :=
  set_new (delete (b, p) (new_matrix s)) (used_new_matrix_positions s ∖ {[ (b, p) ]})
    (put_info id (ExtendedPeerInfo.add_ref (-1) i) s).
Lemma occurrences_pos m k id : m !! k = Some id → 0 < occurrences m id.
Proof. intros Hk. apply (count_pos _ _ _ _ Hk). by apply bool_decide_eq_true. Qed.
Lemma placed_untried L c hole s b p id i : am_inv L c hole s → new_matrix s !! (b, p) = Some id → map_info s !! id = Some i →
  is_tried i = false ∧ 0 < ref_count i.
Proof.
  intros I Hm Hi. pose proof (am_ref _ _ _ _ I _ _ Hi) as Hr. pose proof (occurrences_pos _ _ _ Hm).
  pose proof (am_state _ _ _ _ I _ _ Hi) as Hs. destruct (is_tried i); [lia|]. split; [done|lia].
Qed.
Lemma inv_unplace L c hole s b p id i : am_inv L c hole s → new_matrix s !! (b, p) = Some id → map_info s !! id = Some i →
  am_inv ({[ id ]} ∪ L) c hole (unplace id b p i s).
Proof.
  intros I Hm Hi. destruct (placed_untried _ _ _ _ _ _ _ _ I Hm Hi) as [Ht Hr]. unfold unplace.
  rewrite (am_used_new _ _ _ _ I).
  assert (dom (new_matrix s) ∖ {[ (b, p) ]} =@{gset (Z * Z)} dom (delete (b, p) (new_matrix s))) as -> by by rewrite dom_delete_L.
  apply (inv_ref L); try done.
  - intros id'. unfold occurrences. rewrite (count_delete (λ v, bool_decide (v = id')) _ _ id) by done.
    case_decide as Hd; [subst id'; rewrite bool_decide_true by done|rewrite bool_decide_false by done; cbn; lia].
    by rewrite (am_ref _ _ _ _ I id i) by done.
  - intros b' p' id' [_ E]%lookup_delete_Some. by left.
  - pose proof (am_state _ _ _ _ I _ _ Hi) as Hs. rewrite Ht in Hs. lia.
  - set_solver.
  - set_solver.
Qed.

(** A node takes an empty cell of the new table. *)
Definition place_at (id b p : Z) (i : Info) (s : AddressManager) : AddressManager :=
  set_new (<[(b, p) := id]> (new_matrix s)) ({[ (b, p) ]} ∪ used_new_matrix_positions s)
    (put_info id (ExtendedPeerInfo.add_ref 1 i) s).
Lemma inv_place L c hole s b p id i : am_inv L c hole s → new_matrix s !! (b, p) = None → map_info s !! id = Some i →
  is_tried i = false → ref_count i < NEW_BUCKETS_PER_ADDRESS → 0 <= b < NEW_BUCKET_COUNT → p = new_pos (key s) (peer_info i) b →
  am_inv (L ∖ {[ id ]}) c hole (place_at id b p i s).
Proof.
  intros I Hm Hi Ht Hr Hb Hpos. unfold place_at.
  rewrite (am_used_new _ _ _ _ I).
  assert ({[ (b, p) ]} ∪ dom (new_matrix s) =@{gset (Z * Z)} dom (<[(b, p) := id]> (new_matrix s))) as -> by by rewrite dom_insert_L.
  apply (inv_ref L); try done.
  - intros id'. unfold occurrences. rewrite (count_fresh (λ v, bool_decide (v = id'))) by done.
    case_decide as Hd; [subst id'; rewrite bool_decide_true by done|rewrite bool_decide_false by done; cbn; lia].
    by rewrite (am_ref _ _ _ _ I id i) by done.
  - intros b' p' id' [[[= <- <-] <-]|[_ E]]%lookup_insert_Some; [by right|by left].
  - lia.
  - intros _. rewrite (am_ref _ _ _ _ I id i Hi). pose proof (count_nonneg (λ v, bool_decide (v = id)) (new_matrix s)).
    unfold occurrences. lia.
  - intros x Hx. destruct (decide (x = id)); set_solver.
Qed.

(** A node changes between the tables: [m'] is the tried table after it. *)
Lemma inv_flip L L' c c' hole hole' s m' t id i : am_inv L c hole s → map_info s !! id = Some i → is_tried i = negb t →
  (∀ b p id', m' !! (b, p) = Some id' ↔
     ∃ k, <[id := ExtendedPeerInfo.set_tried t i]> (map_info s) !! id' = Some k ∧ is_tried k = true ∧
          (b, p) = tried_pos (key s) (peer_info k)) →
  dom (tried_matrix s) ∪ hole ⊆ dom m' ∪ hole' → L ⊆ L' ∪ {[ id ]} →
  (if t then ref_count i = 0 else id ∈ L') → c' = c + (if t then -1 else 1) →
  am_inv L' c' hole' (set_counts (tried_count s + (if t then 1 else -1)) (new_count s)
    (set_tried m' (dom m') (put_info id (ExtendedPeerInfo.set_tried t i) s))).
Proof.
  intros I Hi Ht Hm Hdom HL Href ->. set (j := ExtendedPeerInfo.set_tried t i) in *.
  pose proof (indexed_insert _ _ _ _ _ j (inv_indexed _ _ _ _ I) Hi (conj eq_refl eq_refl)) as [Ha Hp Hat].
  destruct I. split; fields; try done.
  - intros id' k E. destruct (insert_back _ _ _ _ _ _ Hi E) as (k0&E0&_). eauto.
  - intros id' k E. destruct (insert_back _ _ _ _ _ _ Hi E) as (k0&E0&[(->&->&->)|[_ ->]]); [|eauto]. by destruct (am_info0 _ _ Hi).
  - intros b p id' E. destruct (am_new0 _ _ _ E) as (k0&E0&Hbk&->).
    destruct (insert_on _ _ _ j _ _ Hi E0) as (k&Ek&[(->&->&->)|[_ ->]]); eauto 6.
  - intros id' k E. destruct (insert_back _ _ _ _ _ _ Hi E) as (k0&E0&[(->&->&->)|[Hne ->]]); [|by apply am_ref0].
    by apply (am_ref0 id i).
  - intros id' k E. destruct (insert_back _ _ _ _ _ _ Hi E) as (k0&E0&[(->&->&->)|[Hne ->]]).
    + cbn. pose proof (am_state0 id i Hi) as Hs. rewrite Ht in Hs. destruct t; cbn in *; [done|].
      rewrite Hs. unfold NEW_BUCKETS_PER_ADDRESS. split; [lia|done].
    + pose proof (am_state0 id' k0 E0) as Hs. destruct (is_tried k0); [done|]. split; [lia|]. intros ?. apply Hs. set_solver.
  - rewrite (count_change _ _ _ i) by done. rewrite Ht. cbn. destruct t; cbn; lia.
  - rewrite (count_change _ _ _ i) by done. rewrite Ht. cbn. destruct t; cbn; lia.
  - intros id' k Hin E. apply Hdom.
    by destruct (insert_back _ _ _ _ _ _ Hi E) as (k0&E0&[(->&->&->)|[Hne ->]]); apply (am_collided0 _ _ Hin E0).
Qed.

Definition untry (id b p : Z) (i : Info) (s : AddressManager) : AddressManager :=
  set_counts (tried_count s - 1) (new_count s)
    (set_tried (delete (b, p) (tried_matrix s)) (used_tried_matrix_positions s ∖ {[ (b, p) ]})
      (put_info id (ExtendedPeerInfo.set_tried false i) s)).
Lemma inv_untry L c hole s b p id i : am_inv L c hole s → tried_matrix s !! (b, p) = Some id → map_info s !! id = Some i →
  am_inv ({[ id ]} ∪ L) (c + 1) ({[ (b, p) ]} ∪ hole) (untry id b p i s).
Proof.
  intros I Hm Hi. unfold untry. rewrite (am_used_tried _ _ _ _ I).
  assert (dom (tried_matrix s) ∖ {[ (b, p) ]} =@{gset (Z * Z)} dom (delete (b, p) (tried_matrix s))) as -> by by rewrite dom_delete_L.
  pose proof (proj1 (am_tried _ _ _ _ I b p id) Hm) as (i'&Hi'&Ht&Hpos). rewrite Hi in Hi'. injection Hi' as <-.
  apply (inv_flip L _ c _ hole _ s _ false id i); try done.
  - intros b' p' id'. rewrite lookup_delete_Some, (am_tried _ _ _ _ I). split.
    + intros (Hne&k&E&Hk&Hp'). destruct (decide (id' = id)) as [->|Hd].
      * simplify_eq. congruence.
      * exists k. by rewrite lookup_insert_ne.
    + intros (k&E&Hk&Hp'). apply lookup_insert_Some in E as [[<- <-]|[Hd E]]; [done|]. split; [|by eauto].
      intros Heq. rewrite Heq in Hm. assert (tried_matrix s !! (b', p') = Some id') by (apply (am_tried _ _ _ _ I); eauto).
      simplify_eq.
  - rewrite dom_delete_L. intros x. rewrite !elem_of_union, elem_of_difference, elem_of_singleton.
    destruct (decide (x = (b, p))); naive_solver.
  - set_solver.
  - set_solver.
Qed.

Definition retry (id b p : Z) (i : Info) (s : AddressManager) : AddressManager :=
  set_counts (tried_count s + 1) (new_count s)
    (set_tried (<[(b, p) := id]> (tried_matrix s)) ({[ (b, p) ]} ∪ used_tried_matrix_positions s)
      (put_info id (ExtendedPeerInfo.set_tried true i) s)).
Lemma inv_retry L c hole s b p id i : am_inv L c hole s → map_info s !! id = Some i → is_tried i = false → ref_count i = 0 →
  (b, p) = tried_pos (key s) (peer_info i) → tried_matrix s !! (b, p) = None →
  am_inv (L ∖ {[ id ]}) (c - 1) (hole ∖ {[ (b, p) ]}) (retry id b p i s).
Proof.
  intros I Hi Ht Hr Hpos Hm. unfold retry. rewrite (am_used_tried _ _ _ _ I).
  assert ({[ (b, p) ]} ∪ dom (tried_matrix s) =@{gset (Z * Z)} dom (<[(b, p) := id]> (tried_matrix s))) as -> by by rewrite dom_insert_L.
  apply (inv_flip L _ c _ hole _ s _ true id i); try done.
  - intros b' p' id'. rewrite lookup_insert_Some, (am_tried _ _ _ _ I). split.
    + intros [[[= <- <-] <-]|(Hne&k&E&Hk&Hp')].
      * exists (ExtendedPeerInfo.set_tried true i). by rewrite lookup_insert_eq.
      * exists k. rewrite lookup_insert_ne; [done|]. intros <-. congruence.
    + intros (k&E&Hk&Hp'). apply lookup_insert_Some in E as [[<- <-]|[Hd E]]; [left; by rewrite Hpos, Hp'|].
      right. split; [|by eauto]. intros Heq. assert (tried_matrix s !! (b', p') = Some id') by (apply (am_tried _ _ _ _ I); eauto).
      congruence.
  - rewrite dom_insert_L. intros x. rewrite !elem_of_union, elem_of_difference, elem_of_singleton.
    destruct (decide (x = (b, p))); naive_solver.
  - intros x Hx. destruct (decide (x = id)); set_solver.
Qed.

(** *** Random positions *)

Definition moved (i j : Info) : Prop := j = i ∨ ∃ p, j = ExtendedPeerInfo.set_random_pos p i.
(** Two states that differ in the order of the random positions only *)
Record shuffled (s s' : AddressManager) : Prop := {
  sh_eq : s' = set_nodes (id_count s) (random_pos s') (map_addr s) (map_info s') s;
  sh_back : ∀ id k, map_info s' !! id = Some k → ∃ k0, map_info s !! id = Some k0 ∧ moved k0 k;
  sh_on : ∀ id k0, map_info s !! id = Some k0 → ∃ k, map_info s' !! id = Some k ∧ moved k0 k;
  sh_count : ∀ P, (∀ i p, P (ExtendedPeerInfo.set_random_pos p i) = P i) → count P (map_info s') = count P (map_info s);
  sh_perm : random_pos s' ≡ₚ random_pos s;
}.
Lemma shuffled_refl s : shuffled s s.
Proof. split; [by destruct s|unfold moved; eauto|unfold moved; eauto|done|done]. Qed.

Lemma inv_shuffled L c hole s s' : am_inv L c hole s → shuffled s s' → indexed (map_info s') (map_addr s') (random_pos s') → am_inv L c hole s'.
Proof.
  intros I [Heq Hb Hf Hc _] [Ha Hp Hat]. assert (∀ k0 k, moved k0 k → peer_info k = peer_info k0 ∧ is_tried k = is_tried k0 ∧
    ref_count k = ref_count k0 ∧ (info_ok k0 → info_ok k)) as Hmv.
  { intros k0 k [->|[p ->]]; [done|]. split; [done|]. split; [done|]. split; [done|]. intros []. by split. }
  destruct s' as [ids key' rp tm nm tc nc ma mi lg tcol un ut al cr dr]. cbn in *. injection Heq. intros; subst.
  destruct I. split; fields; try done.
  - intros id k E. destruct (Hb _ _ E) as (k0&E0&_). eauto.
  - intros id k E. destruct (Hb _ _ E) as (k0&E0&(_&_&_&Hok)%Hmv). eauto.
  - intros b p id E. destruct (am_new0 _ _ _ E) as (k0&E0&Hbk&->). destruct (Hf _ _ E0) as (k&Ek&(Epi&_)%Hmv). exists k. by rewrite Epi.
  - intros id k E. destruct (Hb _ _ E) as (k0&E0&(_&_&->&_)%Hmv). eauto.
  - intros b p id. rewrite am_tried0. split.
    + intros (k0&E0&Et&Ep). destruct (Hf _ _ E0) as (k&Ek&(Epi&Ht&_)%Hmv). exists k. by rewrite Epi, Ht.
    + intros (k&E&Et&Ep). destruct (Hb _ _ E) as (k0&E0&(Epi&Ht&_)%Hmv). exists k0. by rewrite <- Epi, <- Ht.
  - intros id k E. destruct (Hb _ _ E) as (k0&E0&(_&Ht&->&_)%Hmv). rewrite Ht. by apply am_state0.
  - by rewrite Hc.
  - by rewrite Hc.
  - intros id k Hin E. destruct (Hb _ _ E) as (k0&E0&(Epi&_)%Hmv). rewrite Epi. eauto.
Qed.

Lemma py_index_nat {A} (l : list A) (p : nat) x : l !! p = Some x → py_index l (Z.of_nat p) = Ok x.
Proof.
  intros E. unfold py_index. apply lookup_lt_Some in E as Hl.
  destruct (Z.ltb_spec (Z.of_nat p) 0); [lia|]. cbn zeta. destruct (Z.ltb_spec (Z.of_nat p) 0); [lia|]. by rewrite Nat2Z.id, E.
Qed.
Lemma py_store_nat {A} (l : list A) (p : nat) x : (p < length l)%nat → py_store l (Z.of_nat p) x = Ok (<[p := x]> l).
Proof.
  intros Hl. unfold py_store.
  destruct (Z.ltb_spec (Z.of_nat p) 0); [lia|]. destruct (Z.leb_spec 0 (Z.of_nat p)), (Z.ltb_spec (Z.of_nat p) (Z.of_nat (length l))); try lia.
  cbn. by rewrite Nat2Z.id.
Qed.
Lemma get_info_eq id i s : map_info s !! id = Some i → get_info id s = (Ok i, s).
Proof. intros E. unfold get_info. rewrite (st_bind_Ok _ _ _ _ _ (st_get_eq s)), E. done. Qed.
Lemma update_info_eq id i f s : map_info s !! id = Some i → update_info id f s = (Ok tt, put_info id (f i) s).
Proof. intros E. unfold update_info. by rewrite (st_bind_Ok _ _ _ _ _ (get_info_eq _ _ _ E)). Qed.

Lemma store_position_eq (p : nat) id s : (p < length (random_pos s))%nat →
  store_position (Z.of_nat p) id s = (Ok tt, set_nodes (id_count s) (<[p := id]> (random_pos s)) (map_addr s) (map_info s) s).
Proof.
  intros Hl. unfold store_position. rewrite (st_bind_Ok _ _ _ _ _ (st_get_eq _)).
  by rewrite (st_bind_Ok _ _ _ _ _ (st_res_Ok _ _ s (py_store_nat _ _ _ Hl))).
Qed.

Lemma indexed_swap M addr l p1 p2 id1 id2 i1 i2 : indexed M addr l → p1 ≠ p2 → l !! p1 = Some id1 → l !! p2 = Some id2 →
  M !! id1 = Some i1 → M !! id2 = Some i2 → id1 ≠ id2 →
  indexed (<[id2 := ExtendedPeerInfo.set_random_pos (Z.of_nat p1) i2]> (<[id1 := ExtendedPeerInfo.set_random_pos (Z.of_nat p2) i1]> M)) addr
    (<[p2 := id1]> (<[p1 := id2]> l)).
Proof.
  intros [Ha Hp Hat] Hne H1 H2 E1 E2 Hid. pose proof (lookup_lt_Some _ _ _ H1). pose proof (lookup_lt_Some _ _ _ H2). split.
  - intros h id. rewrite Ha. split.
    + intros (k&Ek&Eh). destruct (decide (id = id2)) as [->|]; [eexists; rewrite lookup_insert_eq; by simplify_eq|].
      rewrite lookup_insert_ne by done.
      destruct (decide (id = id1)) as [->|]; [eexists; rewrite lookup_insert_eq; by simplify_eq|]. exists k. by rewrite lookup_insert_ne.
    + intros (k&[[<- <-]|[_ [[<- <-]|[_ Ek]]%lookup_insert_Some]]%lookup_insert_Some&Eh); eauto.
  - intros id k [[<- <-]|[Hd2 [[<- <-]|[Hd1 Ek]]%lookup_insert_Some]]%lookup_insert_Some.
    + exists p1. split; [done|]. by rewrite list_lookup_insert_ne, list_lookup_insert_eq.
    + exists p2. split; [done|]. by rewrite list_lookup_insert_eq by by rewrite length_insert.
    + destruct (Hp id k Ek) as (p&Ep&El). exists p. split; [done|]. rewrite !list_lookup_insert_ne; [done|..]; intros <-; simplify_eq.
  - intros p id Ep. destruct (decide (p = p2)) as [->|Hp2].
    { rewrite list_lookup_insert_eq in Ep by by rewrite length_insert. simplify_eq. eexists. by rewrite lookup_insert_ne, lookup_insert_eq. }
    rewrite list_lookup_insert_ne in Ep by done. destruct (decide (p = p1)) as [->|Hp1].
    { rewrite list_lookup_insert_eq in Ep by done. simplify_eq. eexists. by rewrite lookup_insert_eq. }
    rewrite list_lookup_insert_ne in Ep by done. destruct (Hat p id Ep) as (k&Ek&Er). exists k.
    rewrite !lookup_insert_ne; [done|..]; intros <-; simplify_eq; [destruct (Hat _ _ H1) as (?&?&?)|destruct (Hat _ _ H2) as (?&?&?)]; simplify_eq.
Qed.

Lemma swap_random_ok L c hole s (p1 p2 : nat) : am_inv L c hole s → (p1 < length (random_pos s))%nat → (p2 < length (random_pos s))%nat →
  ∃ s', swap_random_ (Z.of_nat p1) (Z.of_nat p2) s = (Ok tt, s') ∧ am_inv L c hole s' ∧ shuffled s s' ∧
    random_pos s' !! p2 = random_pos s !! p1 ∧ random_pos s' !! p1 = random_pos s !! p2 ∧
    (∀ p, p ≠ p1 → p ≠ p2 → random_pos s' !! p = random_pos s !! p).
Proof.
  intros I Hl1 Hl2. unfold swap_random_. destruct (Z.eqb_spec (Z.of_nat p1) (Z.of_nat p2)) as [E|Hne].
  { apply Nat2Z.inj in E as ->. exists s. by split_and!; [| |apply shuffled_refl| | |]. }
  destruct (lookup_lt_is_Some_2 _ _ Hl1) as [id1 H1]. destruct (lookup_lt_is_Some_2 _ _ Hl2) as [id2 H2].
  pose proof (inv_indexed _ _ _ _ I) as X. destruct (ix_at _ _ _ X _ _ H1) as (i1&E1&R1). destruct (ix_at _ _ _ X _ _ H2) as (i2&E2&R2).
  assert (id1 ≠ id2) as Hid by (intros ->; simplify_eq; congruence). assert (p1 ≠ p2) as Hp by congruence.
  rewrite (st_bind_Ok _ _ _ _ _ (st_get_eq s)). cbn zeta.
  destruct (Z.ltb_spec (Z.of_nat p1) (Z.of_nat (length (random_pos s)))), (Z.ltb_spec (Z.of_nat p2) (Z.of_nat (length (random_pos s)))); try lia.
  rewrite (st_bind_Ok _ _ s tt s eq_refl). rewrite (st_bind_Ok _ _ _ _ _ (st_res_Ok _ _ s (py_index_nat _ _ _ H1))).
  rewrite (st_bind_Ok _ _ _ _ _ (st_res_Ok _ _ s (py_index_nat _ _ _ H2))).
  rewrite (st_bind_Ok _ _ _ _ _ (update_info_eq _ _ _ _ E1)).
  rewrite (st_bind_Ok _ _ _ _ _ (update_info_eq id2 i2 _ (put_info id1 _ s) ltac:(by cbn; rewrite lookup_insert_ne))).
  set (s2 := put_info id2 _ _). rewrite (st_bind_Ok _ _ _ _ _ (store_position_eq p1 id2 s2 Hl1)).
  rewrite (store_position_eq p2 id1) by by cbn; rewrite length_insert.
  set (s' := set_nodes _ (<[p2 := id1]> _) _ _ _).
  assert (shuffled s s') as Hsh.
  { split.
    - done.
    - intros id k Ek. cbn in Ek. destruct (insert_back _ id2 i2 _ id k ltac:(by rewrite lookup_insert_ne) Ek) as (k1&Ek1&Hc).
      destruct (insert_back _ id1 i1 _ id k1 E1 Ek1) as (k0&Ek0&Hc0). exists k0. split; [done|].
      unfold moved. naive_solver.
    - intros id k0 Ek0. cbn. destruct (decide (id = id2)) as [->|]; [eexists; rewrite lookup_insert_eq; unfold moved; naive_solver|].
      rewrite lookup_insert_ne by done.
      destruct (decide (id = id1)) as [->|]; [eexists; rewrite lookup_insert_eq; unfold moved; naive_solver|].
      exists k0. rewrite lookup_insert_ne by done. unfold moved. naive_solver.
    - intros P HP. cbn. rewrite (count_change P _ id2 i2) by by rewrite lookup_insert_ne. rewrite (count_change P _ id1 i1) by done.
      rewrite !HP. lia.
    - by apply Permutation_insert_swap. }
  exists s'. split; [done|]. split; [|split; [done|]].
  - apply (inv_shuffled L c hole s); [done..|]. by apply indexed_swap.
  - cbn. rewrite list_lookup_insert_eq by by rewrite length_insert. rewrite list_lookup_insert_ne, list_lookup_insert_eq by done.
    split; [done|]. split; [done|]. intros p Hp1 Hp2. by rewrite !list_lookup_insert_ne.
Qed.

(** *** Nodes come and go *)

Lemma unplaced L c hole s b p id i : am_inv L c hole s → map_info s !! id = Some i → ref_count i = 0 → new_matrix s !! (b, p) ≠ Some id.
Proof. intros I Hi Hr Hm. pose proof (am_ref _ _ _ _ I _ _ Hi). pose proof (occurrences_pos _ _ _ Hm). lia. Qed.

Definition drop_last (id : Z) (i : Info) (s : AddressManager) : AddressManager :=
  set_counts (tried_count s) (new_count s - 1)
    (set_nodes (id_count s) (removelast (random_pos s)) (delete (host (peer_info i)) (map_addr s)) (delete id (map_info s)) s).
Lemma indexed_drop M addr l id i : indexed M addr l → M !! id = Some i → l !! (length l - 1)%nat = Some id →
  indexed (delete id M) (delete (host (peer_info i)) addr) (removelast l).
Proof.
  intros [Ha Hp Hat] Hi Hlast. destruct (Hat _ _ Hlast) as (i'&Hi'&Hr). rewrite Hi in Hi'. injection Hi' as <-.
  rewrite removelast_firstn_len. split.
  - intros h id'. rewrite lookup_delete_Some, Ha. split.
    + intros (Hne&k&Ek&Eh). exists k. split; [|done]. apply lookup_delete_Some. split; [|done]. intros <-. simplify_eq.
    + intros (k&[Hd Ek]%lookup_delete_Some&Eh). split; [|eauto]. intros Heq.
      assert (addr !! h = Some id) by (apply Ha; eauto). assert (addr !! h = Some id') by (apply Ha; eauto). simplify_eq.
  - intros id' k [Hd Ek]%lookup_delete_Some. destruct (Hp _ _ Ek) as (p&Er&El). exists p. split; [done|].
    pose proof (lookup_lt_Some _ _ _ El). destruct (decide (p = length l - 1)%nat) as [->|]; [by simplify_eq|].
    rewrite lookup_take_lt by lia. done.
  - intros p id' El. destruct (decide (p < pred (length l))%nat) as [Hlt|]; [|by rewrite lookup_take_ge in El by lia].
    rewrite lookup_take_lt in El by done. destruct (Hat _ _ El) as (k&Ek&Er). exists k. split; [|done].
    apply lookup_delete_Some. split; [|done]. intros <-. rewrite Hi in Ek. injection Ek as <-. rewrite Hr in Er. injection Er. lia.
Qed.
Lemma inv_drop L c hole s id i : am_inv L c hole s → map_info s !! id = Some i → is_tried i = false → ref_count i = 0 →
  random_pos s !! (length (random_pos s) - 1)%nat = Some id → am_inv (L ∖ {[ id ]}) c hole (drop_last id i s).
Proof.
  intros I Hi Ht Hr Hlast. destruct (indexed_drop _ _ _ _ _ (inv_indexed _ _ _ _ I) Hi Hlast) as [Ha Hp Hat].
  pose proof (λ b p, unplaced _ _ _ _ b p _ _ I Hi Hr) as Hfree.
  destruct I. split; unfold drop_last; fields; try done.
  - intros id' k [_ E]%lookup_delete_Some. eauto.
  - intros id' k [_ E]%lookup_delete_Some. eauto.
  - intros b p id' E. destruct (am_new0 _ _ _ E) as (k&Ek&Hb&Hpos). exists k. split; [|done].
    apply lookup_delete_Some. split; [|done]. intros <-. by apply (Hfree b p).
  - intros id' k [_ E]%lookup_delete_Some. eauto.
  - intros b p id'. rewrite am_tried0. split; intros (k&E&Hk&Hpos); exists k; (split; [|done]).
    + apply lookup_delete_Some. split; [|done]. intros <-. congruence.
    + by apply lookup_delete_Some in E as [_ E].
  - intros id' k [Hd E]%lookup_delete_Some. pose proof (am_state0 _ _ E) as Hs. destruct (is_tried k); [done|].
    split; [lia|]. intros ?. apply Hs. set_solver.
  - rewrite (count_delete _ _ _ i) by done. rewrite Ht. cbn. lia.
  - rewrite (count_delete _ _ _ i) by done. rewrite Ht. cbn. lia.
  - intros id' k Hin [_ E]%lookup_delete_Some. eauto.
Qed.

(** What a method leaves alone: the key, the tried table, and every node but [v] *)
Record spares (v : Z) (s s' : AddressManager) : Prop := {
  sp_key : key s' = key s;
  sp_tried : tried_matrix s' = tried_matrix s;
  sp_collisions : tried_collisions s' = tried_collisions s;
  sp_flag : allow_private_subnets s' = allow_private_subnets s;
  sp_info : ∀ id k0, id ≠ v → map_info s !! id = Some k0 → ∃ k, map_info s' !! id = Some k ∧ moved k0 k;
}.
Lemma moved_same i j : moved i j → peer_info j = peer_info i ∧ is_tried j = is_tried i ∧ ref_count j = ref_count i ∧
  ExtendedPeerInfo.src j = ExtendedPeerInfo.src i ∧ (info_ok i → info_ok j).
Proof. intros [->|[p ->]]; [done|]. do 4 (split; [done|]). intros []. by split. Qed.

Lemma delete_new_entry_ok L c hole s id i : am_inv L c hole s → map_info s !! id = Some i → is_tried i = false → ref_count i = 0 →
  ∃ s', delete_new_entry_ id s = (Ok tt, s') ∧ am_inv (L ∖ {[ id ]}) c hole s' ∧ spares id s s' ∧ new_matrix s' = new_matrix s.
Proof.
  intros I Hi Ht Hr. unfold delete_new_entry_. rewrite (st_bind_Ok _ _ _ _ _ (get_info_eq _ _ _ Hi)).
  destruct (am_pos _ _ _ _ I _ _ Hi) as (p&Ep&El). rewrite Ep. rewrite (st_bind_Ok _ _ _ _ _ (st_get_eq s)).
  pose proof (lookup_lt_Some _ _ _ El) as Hl.
  replace (Z.of_nat (length (random_pos s)) - 1) with (Z.of_nat (length (random_pos s) - 1)) by lia.
  destruct (swap_random_ok L c hole s p (length (random_pos s) - 1) I Hl ltac:(lia)) as (s1&E1&I1&Hsh&Hat&_).
  rewrite (st_bind_Ok _ _ _ _ _ E1). destruct (sh_on _ _ Hsh _ _ Hi) as (i1&Hi1&Hmv). destruct (moved_same _ _ Hmv) as (Epi&Et1&Er1&_).
  assert (length (random_pos s1) = length (random_pos s)) as Hlen by by rewrite (sh_perm _ _ Hsh).
  assert (map_addr s1 !! host (peer_info i) = Some id) as Haddr by (apply (am_addr _ _ _ _ I1); exists i1; by rewrite Epi).
  rewrite (st_bind_Ok _ _ _ _ _ (st_modify_eq _ s1)). set (s2 := set_nodes _ _ _ _ s1). rewrite (st_bind_Ok _ _ _ _ _ (st_get_eq s2)).
  rewrite bool_decide_true by (subst s2; cbn; by rewrite Haddr). rewrite (st_bind_Ok _ _ s2 tt s2 eq_refl).
  rewrite (st_bind_Ok _ _ _ _ _ (st_modify_eq _ s2)). set (s3 := set_nodes _ _ _ _ s2).
  rewrite (st_bind_Ok _ _ _ _ _ (get_info_eq id i1 s3 Hi1)). rewrite (st_bind_Ok _ _ _ _ _ (st_modify_eq _ _)). rewrite st_modify_eq.
  exists (drop_last id i1 s1). split; [subst s3 s2; unfold drop_last; by rewrite Epi|]. split; [|split].
  - apply inv_drop; [done|done|congruence|congruence|]. by rewrite Hlen, Hat.
  - pose proof (sh_eq _ _ Hsh) as Heq. split; cbn; try by rewrite Heq.
    intros id' k0 Hne E0. destruct (sh_on _ _ Hsh _ _ E0) as (k&Ek&Hk). exists k. by rewrite lookup_delete_ne.
  - cbn. by rewrite (sh_eq _ _ Hsh).
Qed.

Lemma inv_settle L c hole s id i : am_inv ({[ id ]} ∪ L) c hole s → map_info s !! id = Some i → 0 < ref_count i → am_inv L c hole s.
Proof.
  intros [] Hi Hr. split; try done. intros id' k E. pose proof (am_state0 _ _ E) as Hs. destruct (is_tried k); [done|].
  split; [lia|]. intros Hn. destruct (decide (id' = id)) as [->|]; [by simplify_eq|]. apply Hs. set_solver.
Qed.
Lemma inv_fewer L L' c hole s : am_inv L c hole s → (∀ id, id ∈ L → id ∈ L' ∨ map_info s !! id = None) → am_inv L' c hole s.
Proof.
  intros [] Hn. split; try done. intros id k E. pose proof (am_state0 _ _ E) as Hs. destruct (is_tried k); [done|].
  split; [lia|]. intros Hid. apply Hs. intros [?|?]%Hn; [done|congruence].
Qed.
End Invariant.
