(* ===== verification/AddressManagerSound.v ===== *)
(** * The tables of addresses stay consistent

    Every method of [AddressManager] keeps the invariant and fails neither on an assertion
    nor on a missing key; choosing a peer from a sparse table ends; gossip is bounded. *)
From S2P Require Import Prelude PyInt PyFloat Consensus CoinStore PeerInfo AddressManager AddressInv.

#[local] Notation Info := ExtendedPeerInfo.t.
#[local] Notation ref_count := ExtendedPeerInfo.ref_count.
#[local] Notation is_tried := ExtendedPeerInfo.is_tried.
#[local] Notation peer_info := ExtendedPeerInfo.peer_info.

Section Methods.
Context `{StdHash}.

Lemma new_cell_eq s b p : in_table NEW_BUCKET_COUNT b p = true → new_cell b p s = (Ok (cell (new_matrix s) b p), s).
Proof. intros Hin. unfold new_cell, get_cell. by rewrite (st_bind_Ok _ _ _ _ _ (st_get_eq s)), Hin. Qed.
Lemma tried_cell_eq s b p : in_table TRIED_BUCKET_COUNT b p = true → tried_cell b p s = (Ok (cell (tried_matrix s) b p), s).
Proof. intros Hin. unfold tried_cell, get_cell. by rewrite (st_bind_Ok _ _ _ _ _ (st_get_eq s)), Hin. Qed.
Lemma set_new_matrix_eq s b p v : in_table NEW_BUCKET_COUNT b p = true →
  set_new_matrix b p v s = (Ok tt, set_new (put_cell (new_matrix s) b p v) (used_after (used_new_matrix_positions s) b p v) s).
Proof. intros Hin. unfold set_new_matrix. by rewrite Hin. Qed.
Lemma set_tried_matrix_eq s b p v : in_table TRIED_BUCKET_COUNT b p = true →
  set_tried_matrix b p v s = (Ok tt, set_tried (put_cell (tried_matrix s) b p v) (used_after (used_tried_matrix_positions s) b p v) s).
Proof. intros Hin. unfold set_tried_matrix. by rewrite Hin. Qed.

(** A cell holds -1 or a node; nodes have ids from 0. *)
Lemma cell_Some m b p id : m !! (b, p) = Some id → cell m b p = id.
Proof. intros E. unfold cell. by rewrite E. Qed.
Lemma new_cell_node L c hole s b p : am_inv L c hole s →
  if decide (cell (new_matrix s) b p = -1) then new_matrix s !! (b, p) = None
  else ∃ i, new_matrix s !! (b, p) = Some (cell (new_matrix s) b p) ∧ map_info s !! cell (new_matrix s) b p = Some i.
Proof.
  intros I. unfold cell. destruct (new_matrix s !! (b, p)) as [id|] eqn:E; cbn; [|by rewrite decide_True].
  destruct (am_new _ _ _ _ I _ _ _ E) as (i&Ei&_). pose proof (am_ids _ _ _ _ I _ _ Ei). rewrite decide_False by lia. eauto.
Qed.
Lemma tried_cell_node L c hole s b p : am_inv L c hole s →
  if decide (cell (tried_matrix s) b p = -1) then tried_matrix s !! (b, p) = None
  else ∃ i, tried_matrix s !! (b, p) = Some (cell (tried_matrix s) b p) ∧ map_info s !! cell (tried_matrix s) b p = Some i.
Proof.
  intros I. unfold cell. destruct (tried_matrix s !! (b, p)) as [id|] eqn:E; cbn; [|by rewrite decide_True].
  apply (am_tried _ _ _ _ I) in E as (i&Ei&_). pose proof (am_ids _ _ _ _ I _ _ Ei). rewrite decide_False by lia. eauto.
Qed.

Lemma clear_new_ok L c hole s b p : am_inv L c hole s → in_table NEW_BUCKET_COUNT b p = true →
  ∃ s', clear_new_ b p s = (Ok tt, s') ∧ am_inv L c hole s' ∧ spares (cell (new_matrix s) b p) s s' ∧ new_matrix s' !! (b, p) = None.
Proof.
  intros I Hin. unfold clear_new_. rewrite (st_bind_Ok _ _ _ _ _ (new_cell_eq _ _ _ Hin)).
  pose proof (new_cell_node _ _ _ _ b p I) as Hc. set (id := cell (new_matrix s) b p) in *.
  destruct (Z.eqb_spec id (-1)) as [E|Hne].
  { rewrite decide_True in Hc by done. exists s. split_and!; [done|done|by split; eauto; unfold moved; eauto|done]. }
  rewrite decide_False in Hc by done. destruct Hc as (i&Em&Ei). destruct (placed_untried _ _ _ _ _ _ _ _ I Em Ei) as [Ht Hr].
  rewrite (st_bind_Ok _ _ _ _ _ (get_info_eq _ _ _ Ei)). destruct (Z.ltb_spec 0 (ref_count i)); [|lia].
  rewrite (st_bind_Ok _ _ s tt s eq_refl). rewrite (st_bind_Ok _ _ _ _ _ (update_info_eq _ _ _ _ Ei)).
  rewrite (st_bind_Ok _ _ _ _ _ (set_new_matrix_eq _ _ _ (-1) Hin)). pose proof (inv_unplace _ _ _ _ _ _ _ _ I Em Ei) as I1.
  change (set_new _ _ _) with (unplace id b p i s). set (s1 := unplace id b p i s) in *.
  assert (map_info s1 !! id = Some (ExtendedPeerInfo.add_ref (-1) i)) as Ei1 by (cbn; by rewrite lookup_insert_eq).
  rewrite (st_bind_Ok _ _ _ _ _ (get_info_eq _ _ _ Ei1)).
  assert (new_matrix s1 !! (b, p) = None) as Hm1 by apply lookup_delete_eq.
  assert (spares id s s1) as Hs1.
  { split; try done. intros id' k0 Hd E0. exists k0. cbn. rewrite lookup_insert_ne by done. unfold moved. eauto. }
  destruct (Z.eqb_spec (ref_count (ExtendedPeerInfo.add_ref (-1) i)) 0) as [Hz|Hnz].
  - destruct (delete_new_entry_ok _ _ _ _ _ _ I1 Ei1 Ht Hz) as (s2&E2&I2&Hs2&Hm2). exists s2. split; [done|]. split_and!.
    + eapply inv_more; [|done]. set_solver.
    + destruct Hs1, Hs2. split; try congruence. intros id' k0 Hd E0. destruct (sp_info _ _ Hd E0) as (k1&E1&M1).
      destruct (sp_info0 _ _ Hd E1) as (k2&E2'&M2). exists k2. split; [done|]. destruct M1 as [->|[? ->]]; [done|].
      destruct M2 as [->|[q ->]]; right; [eauto|]. by exists q.
    + by rewrite Hm2.
  - exists s1. split; [done|]. split_and!; [|done|done]. eapply inv_settle; [done|done|].
    pose proof (am_ref _ _ _ _ I1 _ _ Ei1). pose proof (count_nonneg (λ v, bool_decide (v = id)) (new_matrix s1)). unfold occurrences in *. lia.
Qed.

Lemma bucket_position_new L c hole s i b : am_inv L c hole s → peer_ok (peer_info i) → 0 <= b < NEW_BUCKET_COUNT →
  bucket_position i true b s = (Ok (new_pos (key s) (peer_info i) b), s) ∧ in_table NEW_BUCKET_COUNT b (new_pos (key s) (peer_info i) b) = true.
Proof.
  intros I Hp Hb. destruct (new_pos_ok (key s) i b (am_key _ _ _ _ I) Hb Hp) as [E Hin]. split; [|done].
  unfold bucket_position. by rewrite (st_bind_Ok _ _ _ _ _ (st_get_eq s)), E.
Qed.
Lemma tried_place L c hole s i : am_inv L c hole s → peer_ok (peer_info i) →
  tried_bucket_of i s = (Ok (tried_row (key s) (peer_info i)), s) ∧
  bucket_position i false (tried_row (key s) (peer_info i)) s = (Ok (tried_col (key s) (peer_info i)), s) ∧
  in_table TRIED_BUCKET_COUNT (tried_row (key s) (peer_info i)) (tried_col (key s) (peer_info i)) = true.
Proof.
  intros I Hp. destruct (tried_row_ok (key s) i (am_key _ _ _ _ I) Hp) as [Er _]. destruct (tried_col_ok (key s) i (am_key _ _ _ _ I) Hp) as [Ec Hin].
  unfold tried_bucket_of, bucket_position. by rewrite !(st_bind_Ok _ _ _ _ _ (st_get_eq s)), Er, Ec.
Qed.

(** *** Becoming tried *)

(** The node has left the buckets below [n]. *)
Lemma leave_buckets L c hole s id i : am_inv L c hole s → map_info s !! id = Some i → is_tried i = false →
  ∃ s' i', st_for (leave_bucket id) (seqZ 0 NEW_BUCKET_COUNT) s = (Ok tt, s') ∧ am_inv ({[ id ]} ∪ L) c hole s' ∧
    map_info s' !! id = Some i' ∧ peer_info i' = peer_info i ∧ is_tried i' = false ∧ ref_count i' = 0 ∧
    key s' = key s ∧ tried_matrix s' = tried_matrix s ∧ tried_collisions s' = tried_collisions s ∧ allow_private_subnets s' = allow_private_subnets s.
Proof.
  intros I Hi Ht.
  destruct (st_for_total (leave_bucket id) (λ done s', am_inv ({[ id ]} ∪ L) c hole s' ∧ (∃ i', map_info s' !! id = Some i' ∧
    peer_info i' = peer_info i ∧ is_tried i' = false) ∧ key s' = key s ∧ tried_matrix s' = tried_matrix s ∧ tried_collisions s' = tried_collisions s ∧
    allow_private_subnets s' = allow_private_subnets s ∧ ∀ b p, b ∈ done → new_matrix s' !! (b, p) ≠ Some id) (seqZ 0 NEW_BUCKET_COUNT) s)
    as (s'&E&I'&(i'&Ei'&Epi&Et')&Hk&Htm&Htc&Hfl&Hgone).
  - intros l1 b l2 s1 El (I1&(i1&Ei1&Epi&Et1)&Hk&Htm&Htc&Hfl&Hgone).
    assert (b ∈ seqZ 0 NEW_BUCKET_COUNT) as Hb by (rewrite El; apply elem_of_app; right; left). apply elem_of_seqZ in Hb. rewrite Z.add_0_l in Hb.
    unfold leave_bucket. rewrite (st_bind_Ok _ _ _ _ _ (get_info_eq _ _ _ Ei1)).
    destruct (bucket_position_new _ _ _ _ _ _ I1 (io_peer _ (am_info _ _ _ _ I1 _ _ Ei1)) Hb) as [Ep Hin].
    rewrite (st_bind_Ok _ _ _ _ _ Ep). set (pos := new_pos _ _ _) in *. rewrite (st_bind_Ok _ _ _ _ _ (new_cell_eq _ _ _ Hin)).
    assert (∀ p, new_matrix s1 !! (b, p) = Some id → p = pos) as Honly.
    { intros p Em. destruct (am_new _ _ _ _ I1 _ _ _ Em) as (k&Ek&_&->). by rewrite Ei1 in Ek; injection Ek as <-. }
    pose proof (new_cell_node _ _ _ _ b pos I1) as Hc.
    destruct (Z.eqb_spec (cell (new_matrix s1) b pos) id) as [Ec|Hne].
    + rewrite Ec in Hc. pose proof (am_ids _ _ _ _ I1 _ _ Ei1). rewrite decide_False in Hc by lia. destruct Hc as (k&Em&_).
      rewrite (st_bind_Ok _ _ _ _ _ (set_new_matrix_eq _ _ _ (-1) Hin)). rewrite (update_info_eq id i1) by done.
      pose proof (inv_unplace _ _ _ _ _ _ _ _ I1 Em Ei1) as I2. change (put_info id _ _) with (unplace id b pos i1 s1).
      eexists; split; [done|]. split_and!; try done.
      * eapply inv_more; [|done]. set_solver.
      * eexists. cbn. rewrite lookup_insert_eq. done.
      * intros b' p' [Hb'| ->%list_elem_of_singleton]%elem_of_app Em'; cbn in Em'; apply lookup_delete_Some in Em' as [Hd Em'].
        -- by eapply Hgone.
        -- apply Honly in Em' as ->. done.
    + exists s1. split; [done|]. split_and!; try done; [by eauto|].
      intros b' p' [Hb'| ->%list_elem_of_singleton]%elem_of_app Em'; [by eapply Hgone|]. apply Honly in Em' as Hpos. subst p'.
      apply Hne. by apply cell_Some.
  - split_and!; try done; [eapply inv_more; [|done]; set_solver|by eauto|]. intros b p Hb. by apply elem_of_nil in Hb.
  - exists s', i'. split_and!; try done. rewrite (am_ref _ _ _ _ I' _ _ Ei'). apply count_zero. intros [b p] v Em.
    apply bool_decide_eq_false. intros ->. eapply Hgone; [|done]. apply elem_of_seqZ. rewrite Z.add_0_l.
    by destruct (am_new _ _ _ _ I' _ _ _ Em) as (_&_&?&_).
Qed.

Lemma new_bucket_of_ok L c hole s src i : am_inv L c hole s → info_ok i → (∀ p, src = Some p → peer_ok p) →
  ∃ b, new_bucket_of i src s = (Ok b, s) ∧ 0 <= b < NEW_BUCKET_COUNT.
Proof.
  intros I Hi Hs. destruct (new_bucket_ok (key s) src i (am_key _ _ _ _ I) Hi Hs) as (b&E&Hb). exists b. split; [|done].
  unfold new_bucket_of. by rewrite (st_bind_Ok _ _ _ _ _ (st_get_eq s)), E.
Qed.

(** A node of no reference is in no cell, so clearing one does not touch it. *)
Lemma unreferenced_spared L c hole s b p id i : am_inv L c hole s → map_info s !! id = Some i → ref_count i = 0 →
  id ≠ cell (new_matrix s) b p.
Proof.
  intros I Hi Hr Heq. pose proof (am_ids _ _ _ _ I _ _ Hi) as Hid. pose proof (new_cell_node _ _ _ _ b p I) as Hc.
  rewrite decide_False in Hc by lia. destruct Hc as (k&Em&_). rewrite <- Heq in Em. by apply (unplaced _ _ _ _ b p _ _ I Hi Hr).
Qed.

Lemma evict_tried_ok L c hole s b p old : am_inv L c hole s → in_table TRIED_BUCKET_COUNT b p = true → tried_matrix s !! (b, p) = Some old →
  ∃ s', evict_tried b p old s = (Ok tt, s') ∧ am_inv L c ({[ (b, p) ]} ∪ hole) s' ∧ tried_matrix s' = delete (b, p) (tried_matrix s) ∧
    key s' = key s ∧ tried_collisions s' = tried_collisions s ∧ allow_private_subnets s' = allow_private_subnets s ∧
    ∀ id k, map_info s !! id = Some k → is_tried k = false → ref_count k = 0 → ∃ k', map_info s' !! id = Some k' ∧ moved k k'.
Proof.
  intros I Hin Hm. destruct (proj1 (am_tried _ _ _ _ I _ _ _) Hm) as (i&Hi&Ht&_).
  pose proof (am_state _ _ _ _ I _ _ Hi) as Hr. rewrite Ht in Hr.
  unfold evict_tried. rewrite (st_bind_Ok _ _ _ _ _ (st_get_eq s)). rewrite bool_decide_true by by rewrite Hi.
  rewrite (st_bind_Ok _ _ s tt s eq_refl), (st_bind_Ok _ _ _ _ _ (update_info_eq _ _ _ _ Hi)).
  rewrite (st_bind_Ok _ _ _ _ _ (set_tried_matrix_eq _ _ _ (-1) Hin)).
  rewrite (st_bind_Ok _ _ _ _ _ (st_modify_eq _ _)). cbn beta. change (set_counts _ _ (set_tried _ _ _)) with (untry old b p i s). pose proof (inv_untry _ _ _ _ _ _ _ _ I Hm Hi) as I1.
  set (s1 := untry old b p i s) in *. set (i1 := ExtendedPeerInfo.set_tried false i).
  assert (map_info s1 !! old = Some i1) as Hi1 by (cbn; by rewrite lookup_insert_eq).
  rewrite (st_bind_Ok _ _ _ _ _ (get_info_eq _ _ _ Hi1)). pose proof (am_info _ _ _ _ I1 _ _ Hi1) as Hok1.
  destruct (new_bucket_of_ok _ _ _ _ None i1 I1 Hok1 ltac:(done)) as (b'&Eb&Hb). rewrite (st_bind_Ok _ _ _ _ _ Eb).
  destruct (bucket_position_new _ _ _ _ _ _ I1 (io_peer _ Hok1) Hb) as [Ep Hin']. rewrite (st_bind_Ok _ _ _ _ _ Ep).
  destruct (clear_new_ok _ _ _ _ _ _ I1 Hin') as (s2&E2&I2&Hs2&Hm2). rewrite (st_bind_Ok _ _ _ _ _ E2).
  set (p' := new_pos (key s1) (peer_info i1) b') in *.
  assert (∀ id k, map_info s1 !! id = Some k → ref_count k = 0 → ∃ k', map_info s2 !! id = Some k' ∧ moved k k') as Hsp.
  { intros id k Ek Hk. by apply (sp_info _ _ _ Hs2); [eapply unreferenced_spared|]. }
  destruct (Hsp _ _ Hi1 Hr) as (i2&Hi2&Hmv). destruct (moved_same _ _ Hmv) as (Epi&Et2&Er2&_). cbn in Et2, Er2.
  rewrite (st_bind_Ok _ _ _ _ _ (update_info_eq _ _ _ _ Hi2)). rewrite (st_bind_Ok _ _ _ _ _ (set_new_matrix_eq _ _ _ old Hin')).
  rewrite st_modify_eq. pose proof (am_ids _ _ _ _ I2 _ _ Hi2) as Hid.
  assert (am_inv (({[ old ]} ∪ L) ∖ {[ old ]}) (c + 1) ({[ (b, p) ]} ∪ hole) (place_at old b' p' i2 s2)) as I3.
  { apply inv_place; try done; [by rewrite Er2, Hr|]. subst p'. by rewrite Epi, (sp_key _ _ _ Hs2). }
  set (s3 := set_new _ _ (put_info old _ s2)).
  assert (s3 = place_at old b' p' i2 s2) as Es3.
  { subst s3. unfold place_at, put_cell, used_after, ExtendedPeerInfo.add_ref. cbn [put_info set_nodes new_matrix used_new_matrix_positions].
    destruct (Z.eqb_spec old (-1)); [lia|]. by rewrite Er2, Hr. }
  rewrite Es3. apply (inv_new_count _ _ _ 1) in I3. eexists; split; [done|]. split_and!.
  - eapply inv_more; [|by replace (c + 1 - 1) with c in I3 by lia]. set_solver.
  - cbn. by rewrite (sp_tried _ _ _ Hs2).
  - cbn. by rewrite (sp_key _ _ _ Hs2).
  - cbn. by rewrite (sp_collisions _ _ _ Hs2).
  - cbn. by rewrite (sp_flag _ _ _ Hs2).
  - intros id k Ek Hkt Hkr. assert (id ≠ old) as Hne by congruence.
    destruct (Hsp id k) as (k'&Ek'&Hk'); [by cbn; rewrite lookup_insert_ne|done|]. exists k'. cbn. by rewrite lookup_insert_ne.
Qed.

(** What is the same before and after every method *)
Record same_setup (s s' : AddressManager) : Prop := {
  ss_key : key s' = key s;
  ss_collisions : tried_collisions s' = tried_collisions s;
  ss_flag : allow_private_subnets s' = allow_private_subnets s;
}.

Lemma make_tried_ok s id i : am_inv ∅ 0 ∅ s → map_info s !! id = Some i → is_tried i = false →
  ∃ s', make_tried_ id s = (Ok tt, s') ∧ am_inv ∅ 0 ∅ s' ∧ same_setup s s'.
Proof.
  intros I Hi Ht. unfold make_tried_.
  destruct (leave_buckets _ _ _ _ _ _ I Hi Ht) as (s1&i1&E1&I1&Hi1&Epi1&Et1&Er1&Hk1&Htm1&Htc1&Hfl1).
  rewrite (st_bind_Ok _ _ _ _ _ E1), (st_bind_Ok _ _ _ _ _ (get_info_eq _ _ _ Hi1)). rewrite Er1.
  rewrite (st_bind_Ok _ _ s1 tt s1 eq_refl), (st_bind_Ok _ _ _ _ _ (st_modify_eq _ _)).
  apply (inv_new_count _ _ _ (-1)) in I1. change (new_count s1 + -1) with (new_count s1 - 1) in I1. set (s2 := set_counts _ _ s1) in *.
  assert (map_info s2 !! id = Some i1) as Hi2 by done.
  destruct (tried_place _ _ _ _ _ I1 (io_peer _ (am_info _ _ _ _ I1 _ _ Hi2))) as (Eb&Ep&Hin).
  rewrite (st_bind_Ok _ _ _ _ _ Eb), (st_bind_Ok _ _ _ _ _ Ep), (st_bind_Ok _ _ _ _ _ (tried_cell_eq _ _ _ Hin)).
  set (b := tried_row (key s2) (peer_info i1)) in *. set (p := tried_col (key s2) (peer_info i1)) in *. pose proof (tried_cell_node _ _ _ _ b p I1) as Hc.
  set (old := cell (tried_matrix s2) b p) in *.
  assert (∃ s3 i3 hole, (if old =? -1 then mret tt else evict_tried b p old) s2 = (Ok tt, s3) ∧ am_inv ({[ id ]} ∪ ∅) (0 - -1) hole s3 ∧
    hole ⊆ {[ (b, p) ]} ∧ map_info s3 !! id = Some i3 ∧ moved i1 i3 ∧ key s3 = key s2 ∧ tried_matrix s3 !! (b, p) = None ∧
    tried_collisions s3 = tried_collisions s2 ∧ allow_private_subnets s3 = allow_private_subnets s2)
    as (s3&i3&hole&E3&I3&Hh&Hi3&Hmv&Hk3&Htm3&Htc3&Hfl3).
  { destruct (Z.eqb_spec old (-1)) as [E|Hne].
    - rewrite decide_True in Hc by done. exists s2, i1, ∅. split_and!; try done. by left.
    - rewrite decide_False in Hc by done. destruct Hc as (k&Em&_).
      destruct (evict_tried_ok _ _ _ _ _ _ _ I1 Hin Em) as (s3&E3&I3&Htm3&Hk3&Htc3&Hfl3&Hsp).
      destruct (Hsp _ _ Hi2 Et1 Er1) as (i3&Hi3&Hmv). exists s3, i3, ({[ (b, p) ]} ∪ ∅). 
      split_and!; [exact E3|exact I3|rewrite (right_id_L ∅ (∪)); reflexivity|exact Hi3|exact Hmv|exact Hk3|rewrite Htm3; apply lookup_delete_eq|exact Htc3|exact Hfl3]. }
  rewrite (st_bind_Ok _ _ _ _ _ E3). destruct (moved_same _ _ Hmv) as (Epi&Et3&Er3&_).
  rewrite (st_bind_Ok _ _ _ _ _ (set_tried_matrix_eq _ _ _ id Hin)), (st_bind_Ok _ _ _ _ _ (st_modify_eq _ _)).
  pose proof (am_ids _ _ _ _ I3 _ _ Hi3) as Hid. rewrite (update_info_eq id i3) by done.
  pose proof (inv_retry _ _ _ _ b p id i3 I3 Hi3 ltac:(congruence) ltac:(congruence) ltac:(subst b p; by rewrite Epi, Hk3) Htm3) as I4.
  set (s4 := put_info id _ _). assert (s4 = retry id b p i3 s3) as ->.
  { subst s4. unfold retry, put_cell, used_after. by destruct (Z.eqb_spec id (-1)); [lia|]. }
  exists (retry id b p i3 s3). split; [done|]. split.
  - replace (0 - -1 - 1) with 0 in I4 by lia. assert (hole ∖ {[ (b, p) ]} = ∅) as E4 by (clear -Hh; set_solver). rewrite E4 in I4.
    eapply inv_more; [|done]. clear. set_solver.
  - split; cbn; rewrite ?Hk3, ?Htc3, ?Hfl3; cbn; congruence.
Qed.

(** *** The methods *)

Definition am_ok (s : AddressManager) : Prop := am_inv ∅ 0 ∅ s.
Context `{World} `{IpRegistry}.

Lemma time_now_eq s : time_now s = (Ok (time_time (clock_reads s)), set_counters (S (clock_reads s)) (draws s) s).
Proof. done. Qed.
Lemma time_int_ok s : ∃ z, time_int s = (Ok z, set_counters (S (clock_reads s)) (draws s) s) ∧ 0 <= z < 2 ^ 63.
Proof.
  destruct (time_floor (clock_reads s)) as (z&E&Hz). exists z. split; [|done].
  unfold time_int. rewrite (st_bind_Ok _ _ _ _ _ (time_now_eq s)). unfold st_res. by rewrite E.
Qed.
Lemma randrange_ok k s : 0 < k → ∃ r, randrange k s = (Ok r, set_counters (clock_reads s) (S (draws s)) s) ∧ 0 <= r < k.
Proof.
  intros Hk. unfold randrange. destruct (Z.ltb_spec 0 k); [|lia]. eexists; split; [done|]. by apply rand_range.
Qed.

Lemma find_cases addr s : am_ok s →
  find_ addr s = (None, None) ∧ map_addr s !! host addr = None ∨
  ∃ i id, find_ addr s = (Some i, Some id) ∧ map_info s !! id = Some i ∧ host (peer_info i) = host addr.
Proof.
  intros I. unfold find_. destruct (map_addr s !! host addr) as [id|] eqn:E; [right|by left].
  apply (am_addr _ _ _ _ I) in E as (i&Ei&Eh). exists i, id. by rewrite Ei.
Qed.

Lemma find_bucket_total s id i r l : am_ok s → peer_ok (peer_info i) →
  ∃ v, st_early (find_bucket id i r) tt l s = (Ok v, s).
Proof.
  intros I Hp. induction l as [|n l IH]; [by eexists|]. cbn [st_early]. unfold find_bucket at 1.
  destruct (bucket_position_new _ _ _ _ _ _ I Hp (mod_range (n + r) NEW_BUCKET_COUNT eq_refl)) as [Ep Hin].
  assert (∃ v, find_bucket id i r tt n s = (Ok v, s)) as [v Ev].
  { unfold find_bucket. rewrite (st_bind_Ok _ _ _ _ _ Ep), (st_bind_Ok _ _ _ _ _ (new_cell_eq _ _ _ Hin)). by eexists. }
  unfold find_bucket in Ev. rewrite (st_bind_Ok _ _ _ _ _ Ev). destruct v as [[]|b]; [exact IH|by eexists].
Qed.

Lemma note_success_ok i ts : info_ok i → 0 <= ts < 2 ^ 64 →
  same_place i (ExtendedPeerInfo.note_success ts i) ∧ info_ok (ExtendedPeerInfo.note_success ts i).
Proof. intros [] Hts. split; [done|]. split; try done. Qed.

Lemma collide_ok s id i : am_ok s → map_info s !! id = Some i → id ∉ tried_collisions s →
  Z.of_nat (length (tried_collisions s)) < TRIED_COLLISION_SIZE →
  tried_pos (key s) (peer_info i) ∈ dom (tried_matrix s) → am_ok (set_collisions (tried_collisions s ++ [id]) s).
Proof.
  intros I Hi Hn Hl Hd. destruct I. split; fields; try done.
  - destruct am_collisions. split; [apply NoDup_app; split_and!; [done|set_solver|apply NoDup_singleton]|].
    rewrite length_app. cbn. lia.
  - intros id' [Hin| ->%list_elem_of_singleton]%elem_of_app; [by apply am_collision_ids|]. apply am_ids in Hi. lia.
  - intros id' k [Hin| ->%list_elem_of_singleton]%elem_of_app E; [by eapply am_collided|]. simplify_eq. set_solver.
Qed.

Lemma mark_good_ok s addr test ts : am_ok s → 0 <= ts < 2 ^ 64 →
  ∃ s', mark_good_ addr test ts s = (Ok tt, s') ∧ am_ok s' ∧ (test = false → tried_collisions s' = tried_collisions s).
Proof.
  intros I Hts. unfold mark_good_. rewrite (st_bind_Ok _ _ _ _ _ (st_modify_eq _ s)).
  assert (am_ok (set_last_good ts s)) as I0 by by apply inv_last_good. set (s0 := set_last_good ts s) in *.
  rewrite (st_bind_Ok _ _ _ _ _ (st_get_eq s0)). destruct (find_cases addr s0 I0) as [[-> _]|(i&id&->&Hi&_)]; [by exists s0|].
  destruct (is_valid _ _); cbn [negb]; [|by exists s0]. destruct (_ && _); cbn [negb]; [|by exists s0].
  rewrite (st_bind_Ok _ _ _ _ _ (update_info_eq _ _ _ _ Hi)). destruct (note_success_ok i ts (am_info _ _ _ _ I0 _ _ Hi) Hts) as [Hsp Hok].
  pose proof (inv_touch _ _ _ _ _ _ _ I0 Hi Hsp Hok) as I1. set (i1 := ExtendedPeerInfo.note_success ts i) in *. set (s1 := put_info id i1 s0) in *.
  assert (map_info s1 !! id = Some i1) as Hi1 by (cbn; by rewrite lookup_insert_eq).
  destruct (is_tried i) eqn:Ht; [by exists s1|].
  destruct (randrange_ok NEW_BUCKET_COUNT s1 eq_refl) as (r&Er&_). rewrite (st_bind_Ok _ _ _ _ _ Er).
  apply (inv_counters _ _ _ (clock_reads s1) (S (draws s1))) in I1. set (s2 := set_counters _ _ s1) in *.
  assert (map_info s2 !! id = Some i1) as Hi2 by done. pose proof (io_peer _ (am_info _ _ _ _ I0 _ _ Hi)) as Hp.
  destruct (find_bucket_total s2 id i r (seqZ 0 NEW_BUCKET_COUNT) I1 Hp) as [v Ev]. rewrite (st_bind_Ok _ _ _ _ _ Ev).
  destruct v as [[]|found]; [by exists s2|]. destruct (tried_place _ _ _ _ _ I1 Hp) as (Eb&Ep&Hin).
  rewrite (st_bind_Ok _ _ _ _ _ Eb), (st_bind_Ok _ _ _ _ _ Ep). set (b := tried_row _ _) in *. set (p := tried_col _ _) in *.
  pose proof (tried_cell_node _ _ _ _ b p I1) as Hc.
  rewrite (st_bind_Ok _ _ _ (if test then cell (tried_matrix s2) b p else -1) s2) by (destruct test; [by apply tried_cell_eq|done]).
  destruct (Z.eqb_spec (if test then cell (tried_matrix s2) b p else -1) (-1)) as [E|Hne]; cbn [negb].
  - destruct (make_tried_ok s2 id i1 I1 Hi2 Ht) as (s3&E3&I3&[_ Hcol _]). exists s3. split; [done|]. split; [done|]. by intros _.
  - rewrite (st_bind_Ok _ _ _ _ _ (st_get_eq s2)). destruct (_ && _) eqn:Hg; [|by exists s2; destruct test].
    apply andb_true_iff in Hg as [Hl Hn]. apply Z.ltb_lt in Hl. apply bool_decide_eq_true in Hn. eexists; split; [done|].
    destruct test; [|done]. split; [|done]. eapply collide_ok; [done|done|done|done|].
    rewrite decide_False in Hc by done. destruct Hc as (k&Em&_). apply elem_of_dom. by exists (cell (tried_matrix s2) b p).
Qed.

Lemma place_ok L s id i source : am_inv L 0 ∅ s → L ⊆ {[ id ]} → map_info s !! id = Some i → is_tried i = false →
  ref_count i < NEW_BUCKETS_PER_ADDRESS → (∀ p, source = Some p → peer_ok p) →
  ∃ s', place id source s = (Ok tt, s') ∧ am_ok s'.
Proof.
  intros I HL Hi Ht Hr Hsrc. unfold place. rewrite (st_bind_Ok _ _ _ _ _ (get_info_eq _ _ _ Hi)).
  pose proof (am_info _ _ _ _ I _ _ Hi) as Hok. pose proof (am_ids _ _ _ _ I _ _ Hi) as Hid.
  destruct (new_bucket_of_ok _ _ _ _ _ _ I Hok Hsrc) as (b&Eb&Hb). rewrite (st_bind_Ok _ _ _ _ _ Eb).
  destruct (bucket_position_new _ _ _ _ _ _ I (io_peer _ Hok) Hb) as [Ep Hin]. rewrite (st_bind_Ok _ _ _ _ _ Ep).
  set (p := new_pos (key s) (peer_info i) b) in *. rewrite (st_bind_Ok _ _ _ _ _ (new_cell_eq _ _ _ Hin)).
  pose proof (new_cell_node _ _ _ _ b p I) as Hc.
  assert (0 < ref_count i → am_ok s) as Hsettle.
  { intros Hpos. apply (inv_settle _ _ _ _ id i); [|done|done]. eapply inv_more; [|done]. clear -HL. set_solver. }
  destruct (Z.eqb_spec (cell (new_matrix s) b p) id) as [E|Hne].
  { exists s. split; [done|]. apply Hsettle. rewrite E, decide_False in Hc by lia. destruct Hc as (k&Em&_).
    by destruct (placed_untried _ _ _ _ _ _ _ _ I Em Hi). }
  set (existing := cell (new_matrix s) b p) in *.
  assert (∃ add n, (if existing =? -1 then mret true else
      info_existing ← get_info existing; now ← time_int;
      mret (ExtendedPeerInfo.is_terrible now info_existing || (1 <? ref_count info_existing) && (ref_count i =? 0))) s =
    (Ok add, set_counters n (draws s) s)) as (add&n&Eadd).
  { destruct (Z.eqb_spec existing (-1)) as [E|Hd]; [exists true, (clock_reads s); by destruct s|].
    rewrite decide_False in Hc by done. destruct Hc as (k&_&Ek). rewrite (st_bind_Ok _ _ _ _ _ (get_info_eq _ _ _ Ek)).
    destruct (time_int_ok s) as (now&En&_). rewrite (st_bind_Ok _ _ _ _ _ En). by eexists _, _. }
  rewrite (st_bind_Ok _ _ _ _ _ Eadd). apply (inv_counters _ _ _ n (draws s)) in I as I1. set (s1 := set_counters _ _ s) in *.
  assert (map_info s1 !! id = Some i) as Hi1 by done. destruct add.
  - destruct (clear_new_ok _ _ _ _ _ _ I1 Hin) as (s2&E2&I2&Hs2&Hm2). rewrite (st_bind_Ok _ _ _ _ _ E2).
    destruct (sp_info _ _ _ Hs2 id i ltac:(exact (not_eq_sym Hne)) Hi1) as (i2&Hi2&Hmv). destruct (moved_same _ _ Hmv) as (Epi&Et&Er&_).
    rewrite (st_bind_Ok _ _ _ _ _ (update_info_eq _ _ _ _ Hi2)). rewrite (set_new_matrix_eq _ _ _ id Hin).
    assert (am_inv (L ∖ {[ id ]}) 0 ∅ (place_at id b p i2 s2)) as I3.
    { apply inv_place; [done|done|done|congruence|by rewrite Er|done|]. subst p. by rewrite Epi, (sp_key _ _ _ Hs2). }
    eexists; split; [done|]. unfold put_cell, used_after. destruct (Z.eqb_spec id (-1)); [lia|].
    eapply inv_more; [|exact I3]. clear -HL. set_solver.
  - destruct (Z.eqb_spec (ref_count i) 0) as [Hz|Hnz].
    + destruct (delete_new_entry_ok _ _ _ _ _ _ I1 Hi1 Ht Hz) as (s2&E2&I2&_). exists s2. split; [done|].
      eapply inv_more; [|exact I2]. clear -HL. set_solver.
    + exists s1. split; [done|]. apply inv_counters, Hsettle. pose proof (am_ref _ _ _ _ I _ _ Hi).
      pose proof (count_nonneg (λ v, bool_decide (v = id)) (new_matrix s)). unfold occurrences in *. lia.
Qed.

Lemma create_ok s addr src : am_ok s → map_addr s !! ts_host addr = None → info_ok (ExtendedPeerInfo.new addr src) →
  ∃ s' id i, create_ addr src s = (Ok id, s') ∧ am_inv {[ id ]} 1 ∅ s' ∧ map_info s' !! id = Some i ∧
    info_ok i ∧ is_tried i = false ∧ ref_count i = 0 ∧ ExtendedPeerInfo.timestamp i = timestamp addr.
Proof.
  intros I Hfresh Hok. unfold create_. rewrite (st_bind_Ok _ _ _ _ _ (st_get_eq s)). cbn zeta.
  rewrite (st_bind_Ok _ _ _ _ _ (st_modify_eq _ s)). set (id := id_count s + 1). set (i := ExtendedPeerInfo.set_random_pos _ _).
  assert (map_info s !! id = None) as Hid.
  { destruct (map_info s !! id) as [k|] eqn:E; [|done]. apply (am_ids _ _ _ _ I) in E. lia. }
  eexists _, id, i. split; [done|]. cbn [map_info set_nodes]. rewrite lookup_insert_eq.
  split; [|by split; [|split; [destruct Hok; by split|]]].
  assert (∀ b p, new_matrix s !! (b, p) ≠ Some id) as Hno.
  { intros b p Em. destruct (am_new _ _ _ _ I _ _ _ Em) as (k&Ek&_). congruence. }
  pose proof I as I0. destruct I. split; fields; try done.
  - lia.
  - intros id' k [[<- <-]|[_ E]]%lookup_insert_Some; [lia|]. specialize (am_ids _ _ E). lia.
  - intros id' k [[<- <-]|[_ E]]%lookup_insert_Some; [destruct Hok; by split|eauto].
  - intros h id'. rewrite lookup_insert_Some, am_addr. split.
    + intros [[<- <-]|(Hne&k&Ek&Eh)]; [exists i; by rewrite lookup_insert_eq|]. exists k. rewrite lookup_insert_ne by congruence. done.
    + intros (k&[[<- <-]|[Hd Ek]]%lookup_insert_Some&Eh); [by left|]. right. split; [|by eauto]. intros Heq.
      assert (map_addr s !! h = Some id') by (apply am_addr; eauto). congruence.
  - intros id' k [[<- <-]|[Hd E]]%lookup_insert_Some.
    + exists (length (random_pos s)). split; [done|]. by rewrite lookup_app_r, Nat.sub_diag by lia.
    + destruct (am_pos _ _ E) as (p&Er&El). exists p. split; [done|]. by apply lookup_app_l_Some.
  - intros p id' [El|[Hp El]]%lookup_app_Some.
    + destruct (am_at _ _ El) as (k&Ek&Er). exists k. rewrite lookup_insert_ne by congruence. done.
    + destruct (p - length (random_pos s))%nat eqn:Ep; [|done]. cbn in El. injection El as <-. exists i. rewrite lookup_insert_eq.
      split; [done|]. cbn. do 2 f_equal. lia.
  - intros b p id' E. destruct (am_new _ _ _ E) as (k&Ek&Hb&Hp). exists k. rewrite lookup_insert_ne by congruence. done.
  - intros id' k [[<- <-]|[_ E]]%lookup_insert_Some; [|eauto]. cbn. symmetry. apply count_zero. intros [b p] v Em.
    apply bool_decide_eq_false. intros ->. by apply (Hno b p).
  - intros b p id'. rewrite am_tried. split; intros (k&E&Hk&Hp); exists k; (split; [|done]).
    + rewrite lookup_insert_ne by congruence. done.
    + by apply lookup_insert_Some in E as [[<- <-]|[_ E]].
  - intros id' k [[<- <-]|[Hd E]]%lookup_insert_Some; [cbn; unfold NEW_BUCKETS_PER_ADDRESS; split; [lia|set_solver]|].
    specialize (am_state _ _ E). destruct (is_tried k); [done|]. split; [lia|]. intros _. apply am_state. set_solver.
  - rewrite count_fresh by done. cbn. lia.
  - rewrite count_fresh by done. cbn. lia.
  - intros id' Hin. specialize (am_collision_ids _ Hin). lia.
  - intros id' k Hin [[<- <-]|[Hd E]]%lookup_insert_Some; [specialize (am_collision_ids _ Hin); lia|eauto].
Qed.

(** An address heard of, as the wire formats bound it *)
Record heard_ok (addr : TimestampedPeerInfo) : Prop := {
  ho_port : 0 <= ts_port addr < 2 ^ 16;
  ho_timestamp : 0 <= timestamp addr < 2 ^ 64;
}.

Lemma touch_timestamp i v : info_ok i → 0 <= v < 2 ^ 64 →
  same_place i (ExtendedPeerInfo.set_timestamp v i) ∧ info_ok (ExtendedPeerInfo.set_timestamp v i).
Proof. intros [] Hv. split; [done|by split]. Qed.

Lemma renew_ok s addr penalty id i : am_ok s → map_info s !! id = Some i → heard_ok addr → 0 <= penalty →
  ∃ go s', renew addr penalty id s = (Ok go, s') ∧ am_ok s' ∧
    (go = true → ∃ i', map_info s' !! id = Some i' ∧ is_tried i' = false ∧ ref_count i' < NEW_BUCKETS_PER_ADDRESS).
Proof.
  intros I Hi [_ Hts] Hpen. unfold renew. rewrite (st_bind_Ok _ _ _ _ _ (get_info_eq _ _ _ Hi)), (st_bind_Ok _ _ _ _ _ (time_now_eq s)).
  destruct (float_of_int_ok _ Hts) as [f Ef]. rewrite (st_bind_Ok _ _ _ _ _ (st_res_Ok _ _ _ Ef)). cbn zeta.
  assert (am_ok (set_counters (S (clock_reads s)) (draws s) s)) as I1 by by apply inv_counters. set (s1 := set_counters _ _ s) in *.
  set (fresh := (_ && _)).
  assert (∃ s2 i2, (if fresh then update_info id (ExtendedPeerInfo.set_timestamp (Z.max 0 (timestamp addr - penalty))) else mret tt) s1 = (Ok tt, s2) ∧
    am_ok s2 ∧ map_info s2 !! id = Some i2) as (s2&i2&E2&I2&Hi2).
  { destruct fresh; [|by exists s1, i]. rewrite (update_info_eq _ i) by done.
    destruct (touch_timestamp i (Z.max 0 (timestamp addr - penalty)) (am_info _ _ _ _ I1 _ _ Hi) ltac:(lia)) as [Hsp Hok].
    eexists _, _. split; [done|]. split; [by apply (inv_touch _ _ _ _ _ i)|]. cbn. by rewrite lookup_insert_eq. }
  rewrite (st_bind_Ok _ _ _ _ _ E2), (st_bind_Ok _ _ _ _ _ (get_info_eq _ _ _ Hi2)).
  destruct ((timestamp addr =? 0) || _); [by exists false, s2|]. destruct (is_tried i2) eqn:Ht; [by exists false, s2|].
  destruct (Z.eqb_spec (ref_count i2) NEW_BUCKETS_PER_ADDRESS); [by exists false, s2|].
  pose proof (am_state _ _ _ _ I2 _ _ Hi2) as Hs. rewrite Ht in Hs.
  assert (ref_count i2 < NEW_BUCKETS_PER_ADDRESS) as Hlt by lia.
  destruct (Z.ltb_spec 1 (Z.shiftl 1 (ref_count i2))); [|exists true, s2; split; [done|]; split; [done|]; intros _; by exists i2].
  destruct (randrange_ok (Z.shiftl 1 (ref_count i2)) s2 ltac:(lia)) as (r&Er&_). rewrite (st_bind_Ok _ _ _ _ _ Er).
  eexists _, _. split; [done|]. split; [by apply inv_counters|]. intros _. by exists i2.
Qed.

(** A peer told of again with its port: the timestamp it is told with replaces the one kept,
    also when it is older, and the node gets no further reference. *)
Lemma renew_replaces_timestamp s addr id i : map_info s !! id = Some i → 0 < ExtendedPeerInfo.timestamp i → 0 < timestamp addr < 2 ^ 64 →
  renew addr 0 id s = (Ok false, put_info id (ExtendedPeerInfo.set_timestamp (timestamp addr) i) (set_counters (S (clock_reads s)) (draws s) s)).
Proof.
  intros Hi Ht Ha. unfold renew. rewrite (st_bind_Ok _ _ _ _ _ (get_info_eq _ _ _ Hi)), (st_bind_Ok _ _ _ _ _ (time_now_eq s)).
  destruct (float_of_int_ok (timestamp addr) ltac:(lia)) as [f Ef]. rewrite (st_bind_Ok _ _ _ _ _ (st_res_Ok _ _ _ Ef)). cbn zeta.
  destruct (Z.ltb_spec 0 (timestamp addr)), (Z.ltb_spec 0 (ExtendedPeerInfo.timestamp i)); try lia. cbn [andb orb].
  set (s1 := set_counters _ _ s). rewrite (st_bind_Ok _ _ _ _ _ (update_info_eq id i _ s1 Hi)). rewrite Z.sub_0_r, Z.max_r by lia.
  set (s2 := put_info id _ s1). rewrite (st_bind_Ok _ _ _ _ _ (get_info_eq id (ExtendedPeerInfo.set_timestamp (timestamp addr) i) s2 ltac:(apply lookup_insert_eq))).
  destruct (Z.eqb_spec (timestamp addr) 0), (Z.ltb_spec 0 (timestamp addr)); try lia.
  cbn [ExtendedPeerInfo.set_timestamp ExtendedPeerInfo.timestamp]. rewrite Z.leb_refl. destruct (Z.ltb_spec 0 (timestamp addr)); [done|lia].
Qed.

Lemma add_to_new_table_ok_ s addr source penalty : am_ok s → heard_ok addr → 0 <= penalty → (∀ p, source = Some p → peer_ok p) →
  ∃ added s', add_to_new_table_ addr source penalty s = (Ok added, s') ∧ am_ok s'.
Proof.
  intros I Haddr Hpen Hsrc. unfold add_to_new_table_. rewrite (st_bind_Ok _ _ _ _ _ (st_get_eq s)).
  set (p := {| host := _; port := _ |}). destruct (is_valid p _) eqn:Hv; cbn [negb]; [|by exists false, s]. apply is_valid_ip in Hv.
  destruct (find_cases p s I) as [[-> Hnone]|(i&id&->&Hi&_)].
  - assert (info_ok (ExtendedPeerInfo.new addr source)) as Hok.
    { assert (peer_ok p) as Hp by (split; [done|apply Haddr]). split; try (cbn; lia); try done; [|apply Haddr].
      cbn. eexists; split; [done|]. destruct source; [by apply Hsrc|done]. }
    destruct (create_ok s addr source I Hnone Hok) as (s1&id&i&E1&I1&Hi1&Hok1&Ht1&Hr1&Hts1). rewrite (st_bind_Ok _ _ _ _ _ E1).
    rewrite (st_bind_Ok _ _ _ _ _ (update_info_eq _ _ _ _ Hi1)), (st_bind_Ok _ _ _ _ _ (st_modify_eq _ _)).
    destruct (touch_timestamp i (Z.max 0 (ExtendedPeerInfo.timestamp i - penalty)) Hok1 ltac:(pose proof (ho_timestamp _ Haddr); lia)) as [Hsp Hok2].
    pose proof (inv_touch _ _ _ _ _ _ _ I1 Hi1 Hsp Hok2) as I2. apply (inv_new_count _ _ _ 1) in I2.
    set (i2 := ExtendedPeerInfo.set_timestamp _ i) in *. set (s2 := set_counts _ _ (put_info id i2 s1)) in *.
    destruct (place_ok {[ id ]} s2 id i2 source) as (s3&E3&I3); [done|done|cbn; by rewrite lookup_insert_eq|done|cbn; by rewrite Hr1|done|].
    rewrite (st_bind_Ok _ _ _ _ _ E3). by eexists _, _.
  - set (pen := if bool_decide _ then 0 else penalty). assert (0 <= pen) as Hpen' by (subst pen; by case_bool_decide).
    destruct (renew_ok s addr pen id i I Hi Haddr Hpen') as (go&s1&E1&I1&Hgo). rewrite (st_bind_Ok _ _ _ _ _ E1).
    destruct go; [|by exists false, s1]. destruct (Hgo eq_refl) as (i'&Hi'&Ht&Hr).
    destruct (place_ok ∅ s1 id i' source I1) as (s2&E2&I2); [set_solver|done..|]. rewrite (st_bind_Ok _ _ _ _ _ E2). by exists false, s2.
Qed.

Lemma attempt_ok s addr count ts : am_ok s → 0 <= ts < 2 ^ 64 → ∃ s', attempt_ addr count ts s = (Ok tt, s') ∧ am_ok s'.
Proof.
  intros I Hts. unfold attempt_. rewrite (st_bind_Ok _ _ _ _ _ (st_get_eq s)).
  destruct (find_cases addr s I) as [[-> _]|(i&id&->&Hi&_)]; [by exists s|]. destruct (negb _); [by exists s|].
  rewrite (update_info_eq _ _ _ _ Hi). eexists; split; [done|]. apply (inv_touch _ _ _ _ _ i); [done|done|done|].
  destruct (am_info _ _ _ _ I _ _ Hi). split; try done. cbn. destruct (_ && _); lia.
Qed.
Lemma connect_ok s addr ts : am_ok s → 0 <= ts < 2 ^ 64 → ∃ s', connect_ addr ts s = (Ok tt, s') ∧ am_ok s'.
Proof.
  intros I Hts. unfold connect_. rewrite (st_bind_Ok _ _ _ _ _ (st_get_eq s)).
  destruct (find_cases addr s I) as [[-> _]|(i&id&->&Hi&_)]; [by exists s|]. destruct (negb _); [by exists s|].
  destruct (_ <? _); [|by exists s]. rewrite (update_info_eq _ _ _ _ Hi). eexists; split; [done|].
  destruct (touch_timestamp i ts (am_info _ _ _ _ I _ _ Hi) Hts). by apply (inv_touch _ _ _ _ _ i).
Qed.

Lemma all_cells b p : (b, p) ∈ (bucket ← seqZ 0 NEW_BUCKET_COUNT; pair bucket <$> seqZ 0 BUCKET_SIZE) → in_table NEW_BUCKET_COUNT b p = true.
Proof.
  intros (b'&Hp&Hb)%list_elem_of_bind. apply list_elem_of_fmap in Hp as (p'&[= <- <-]&Hp).
  apply elem_of_seqZ in Hb, Hp. unfold in_table. repeat (apply andb_true_iff; split); first [apply Z.leb_le|apply Z.ltb_lt]; lia.
Qed.
Lemma cleanup_ok s d f : am_ok s → ∃ s', cleanup d f s = (Ok tt, s') ∧ am_ok s'.
Proof.
  intros I. unfold cleanup. destruct (time_int_ok s) as (now&En&_). rewrite (st_bind_Ok _ _ _ _ _ En).
  apply (inv_counters _ _ _ (S (clock_reads s)) (draws s)) in I. set (s1 := set_counters _ _ s) in *. clearbody s1.
  apply (st_for_total (clean_cell now d f) (λ _, am_ok)); [|done]. intros l1 [b p] l2 s2 El I2.
  assert (in_table NEW_BUCKET_COUNT b p = true) as Hin by (apply all_cells; rewrite El; apply elem_of_app; right; left).
  unfold clean_cell. cbn [fst snd]. rewrite (st_bind_Ok _ _ _ _ _ (new_cell_eq _ _ _ Hin)). pose proof (new_cell_node _ _ _ _ b p I2) as Hc.
  destruct (Z.eqb_spec (cell (new_matrix s2) b p) (-1)) as [|Hne]; [by exists s2|]. rewrite decide_False in Hc by done. destruct Hc as (k&_&Ek).
  rewrite (st_bind_Ok _ _ _ _ _ (get_info_eq _ _ _ Ek)). destruct (_ && _); [|by exists s2].
  destruct (clear_new_ok _ _ _ _ _ _ I2 Hin) as (s3&E3&I3&_). by exists s3.
Qed.

(** *** Collisions *)

Lemma remove_first_Some x l : x ∈ l → ∃ l', remove_first x l = Some l' ∧ l' `sublist_of` l ∧ ∀ y, y ≠ x → y ∈ l → y ∈ l'.
Proof.
  induction l as [|z l IH]; [by intros ?%elem_of_nil|]. intros Hx. cbn. destruct (decide (z = x)) as [->|Hne].
  - exists l. split; [done|]. split; [by constructor|]. intros y Hy Hin. apply elem_of_cons in Hin as [->|]; done.
  - apply elem_of_cons in Hx as [->|Hx]; [done|]. destruct (IH Hx) as (l'&->&Hs&Hk). exists (z :: l'). split; [done|].
    split; [by constructor|]. intros y Hy Hin. apply elem_of_cons in Hin as [->|Hin]; apply elem_of_cons; [by left|right; by apply Hk].
Qed.
Lemma drop_collision_ok s id : am_ok s → id ∈ tried_collisions s →
  ∃ s', drop_collision id s = (Ok tt, s') ∧ am_ok s' ∧ ∀ y, y ≠ id → y ∈ tried_collisions s → y ∈ tried_collisions s'.
Proof.
  intros I Hin. unfold drop_collision. rewrite (st_bind_Ok _ _ _ _ _ (st_get_eq s)).
  destruct (remove_first_Some _ _ Hin) as (l'&->&Hs&Hk). eexists; split; [done|]. split; [|done].
  pose proof (sublist_length _ _ Hs) as Hl. assert (∀ y, y ∈ l' → y ∈ tried_collisions s) as Hsub by (intros y Hy; eapply elem_of_submseteq; [exact Hy|by apply sublist_submseteq]).
  destruct I. split; fields; try done; [|by eauto..]. destruct am_collisions. split; [by eapply sublist_NoDup|lia].
Qed.

Lemma elapsed_ok s t : am_ok s → 0 <= t < 2 ^ 64 → ∃ f s', elapsed t s = (Ok f, s') ∧ am_ok s' ∧ s' = set_counters (clock_reads s') (draws s') s.
Proof.
  intros I Ht. unfold elapsed. rewrite (st_bind_Ok _ _ _ _ _ (time_now_eq s)). destruct (float_of_int_ok _ Ht) as [f Ef].
  rewrite (st_bind_Ok _ _ _ _ _ (st_res_Ok _ _ _ Ef)). eexists _, _. split; [done|]. split; [by apply inv_counters|done].
Qed.
Lemma mark_now_ok s peer : am_ok s → ∃ s', mark_now peer s = (Ok tt, s') ∧ am_ok s' ∧ tried_collisions s' = tried_collisions s.
Proof.
  intros I. unfold mark_now. destruct (time_int_ok s) as (now&En&Hn). rewrite (st_bind_Ok _ _ _ _ _ En).
  destruct (mark_good_ok (set_counters (S (clock_reads s)) (draws s) s) peer false now) as (s'&E&I'&Hc); [by apply inv_counters|lia|].
  exists s'. split; [done|]. split; [done|]. by rewrite Hc.
Qed.

(** What [resolve_one] decides: whether the collision is resolved *)
Lemma mark_true_ok s peer : am_ok s → ∃ s', (mark_now peer ;; mret true) s = (Ok true, s') ∧ am_ok s' ∧ tried_collisions s' = tried_collisions s.
Proof. intros I. destruct (mark_now_ok s peer I) as (s'&E&I'&Hc). rewrite (st_bind_Ok _ _ _ _ _ E). by exists s'. Qed.
Lemma resolve_one_ok s id : am_ok s → id ∈ tried_collisions s →
  ∃ s', resolve_one id s = (Ok tt, s') ∧ am_ok s' ∧ ∀ y, y ≠ id → y ∈ tried_collisions s → y ∈ tried_collisions s'.
Proof.
  intros I Hin. unfold resolve_one. rewrite (st_bind_Ok _ _ _ _ _ (st_get_eq s)).
  match goal with |- context [(resolved ← ?m; @?f resolved) s] => set (decision := m) end.
  assert (∃ r s1, decision s = (Ok r, s1) ∧ am_ok s1 ∧ tried_collisions s1 = tried_collisions s) as (r&s1&E1&I1&Hc1).
  { subst decision. destruct (map_info s !! id) as [i|] eqn:Hi; [|by exists true, s].
    pose proof (am_info _ _ _ _ I _ _ Hi) as Hok. destruct (tried_place _ _ _ _ _ I (io_peer _ Hok)) as (Eb&Ep&Hint).
    rewrite (st_bind_Ok _ _ _ _ _ Eb), (st_bind_Ok _ _ _ _ _ Ep), (st_bind_Ok _ _ _ _ _ (tried_cell_eq _ _ _ Hint)).
    set (b := tried_row _ _) in *. set (p := tried_col _ _) in *. pose proof (tried_cell_node _ _ _ _ b p I) as Hc.
    destruct (Z.eqb_spec (cell (tried_matrix s) b p) (-1)) as [|Hne].
    { destruct (mark_true_ok s (peer_info i) I) as (s'&E&I'&Hc'). by exists true, s'. }
    rewrite decide_False in Hc by done. destruct Hc as (k&_&Ek). rewrite (st_bind_Ok _ _ _ _ _ (get_info_eq _ _ _ Ek)).
    pose proof (am_info _ _ _ _ I _ _ Ek) as Hokk.
    destruct (elapsed_ok s _ I (io_success _ Hokk)) as (f1&s2&E2&I2&Es2). rewrite (st_bind_Ok _ _ _ _ _ E2).
    assert (tried_collisions s2 = tried_collisions s) as Hc2 by by rewrite Es2.
    destruct (float_lt_int f1 _); [by exists true, s2|].
    destruct (elapsed_ok s2 _ I2 (io_try _ Hokk)) as (f2&s3&E3&I3&Es3). rewrite (st_bind_Ok _ _ _ _ _ E3).
    assert (tried_collisions s3 = tried_collisions s) as Hc3 by by rewrite Es3, <- Hc2.
    destruct (float_lt_int f2 _); [destruct (elapsed_ok s3 _ I3 (io_try _ Hokk)) as (f3&s4&E4&I4&Es4)|
      destruct (elapsed_ok s3 _ I3 (io_success _ Hok)) as (f3&s4&E4&I4&Es4)]; rewrite (st_bind_Ok _ _ _ _ _ E4);
      (assert (tried_collisions s4 = tried_collisions s) as Hc4 by by rewrite Es4, <- Hc3);
      (destruct (int_lt_float _ f3); [|by exists false, s4]);
      destruct (mark_true_ok s4 (peer_info i) I4) as (s'&E&I'&Hc'); exists true, s'; by rewrite Hc'. }
  rewrite (st_bind_Ok _ _ _ _ _ E1). destruct r.
  - rewrite <- Hc1 in Hin. destruct (drop_collision_ok s1 id I1 Hin) as (s2&E2&I2&Hk). exists s2. by rewrite <- Hc1.
  - exists s1. by rewrite Hc1.
Qed.
Lemma resolve_tried_collisions_ok s : am_ok s → ∃ s', resolve_tried_collisions_ s = (Ok tt, s') ∧ am_ok s'.
Proof.
  intros I. unfold resolve_tried_collisions_. rewrite (st_bind_Ok _ _ _ _ _ (st_get_eq s)).
  destruct (st_for_total resolve_one (λ visited s', am_ok s' ∧ ∀ y, y ∈ tried_collisions s → y ∉ visited → y ∈ tried_collisions s')
    (tried_collisions s) s) as (s'&E&I'&_); [|done|by exists s'].
  intros l1 id l2 s1 El (I1&Hk). destruct (am_collisions _ _ _ _ I) as [Hnd _]. rewrite El in Hnd. apply NoDup_app in Hnd as (_&Hd&_).
  assert (id ∈ tried_collisions s) as Hin by (rewrite El; apply elem_of_app; right; left).
  destruct (resolve_one_ok s1 id I1) as (s2&E2&I2&Hk2); [apply Hk; [done|]; intros Hx; apply (Hd id Hx); left|].
  exists s2. split; [done|]. split; [done|]. intros y Hy Hn. apply Hk2; [set_solver|]. apply Hk; [done|set_solver].
Qed.

Lemma select_tried_collision_ok s : am_ok s → ∃ v s', select_tried_collision_ s = (Ok v, s') ∧ am_ok s'.
Proof.
  intros I. unfold select_tried_collision_. rewrite (st_bind_Ok _ _ _ _ _ (st_get_eq s)). case_bool_decide as Hn; [by eexists _, s|].
  assert (0 < Z.of_nat (length (tried_collisions s))) as Hl by (destruct (tried_collisions s); [done|cbn; lia]).
  destruct (randrange_ok _ s Hl) as (r&Er&Hr). rewrite (st_bind_Ok _ _ _ _ _ Er).
  assert (am_ok (set_counters (clock_reads s) (S (draws s)) s)) as I1 by by apply inv_counters. set (s1 := set_counters _ _ s) in *.
  destruct (lookup_lt_is_Some_2 (tried_collisions s) (Z.to_nat r) ltac:(lia)) as [id Hid]. pose proof (py_index_nat _ _ _ Hid) as Ei.
  rewrite Z2Nat.id in Ei by lia. rewrite (st_bind_Ok _ _ _ _ _ (st_res_Ok _ _ s1 Ei)). apply list_elem_of_lookup_2 in Hid.
  destruct (map_info s !! id) as [i|] eqn:Hi.
  - pose proof (am_info _ _ _ _ I1 _ _ Hi) as Hok. destruct (tried_place _ _ _ _ _ I1 (io_peer _ Hok)) as (Eb&Ep&Hint).
    rewrite (st_bind_Ok _ _ _ _ _ Eb), (st_bind_Ok _ _ _ _ _ Ep), (st_bind_Ok _ _ _ _ _ (tried_cell_eq _ _ _ Hint)).
    pose proof (am_collided _ _ _ _ I1 _ _ Hid Hi) as Hdom. rewrite (right_id_L ∅ (∪)) in Hdom. apply elem_of_dom in Hdom as [old Hold].
    destruct (proj1 (am_tried _ _ _ _ I1 _ _ _) Hold) as (k&Ek&_). unfold tried_pos in Hold. rewrite (cell_Some _ _ _ _ Hold).
    rewrite (st_bind_Ok _ _ _ _ _ (get_info_eq _ _ _ Ek)). by eexists _, s1.
  - destruct (drop_collision_ok s1 id I1 Hid) as (s2&E2&I2&_). rewrite (st_bind_Ok _ _ _ _ _ E2). by eexists _, s2.
Qed.

(** *** Choosing a peer *)

(** Only the counters differ. *)
Definition same_tables (s s' : AddressManager) : Prop := s' = set_counters (clock_reads s') (draws s') s.
Lemma same_tables_refl s : same_tables s s.
Proof. unfold same_tables. by destruct s. Qed.
Lemma same_tables_counters s s' a d : same_tables s s' → same_tables s (set_counters a d s').
Proof. unfold same_tables. intros E. rewrite E. done. Qed.
Lemma same_tables_ok L c hole s s' : am_inv L c hole s → same_tables s s' → am_inv L c hole s'.
Proof. intros I E. rewrite E. by apply inv_counters. Qed.

Lemma table_ok s tb : am_ok s → tb = tried_table ∨ tb = new_table →
  used tb s = dom (cells tb s) ∧
  ∀ b p id, cells tb s !! (b, p) = Some id → in_table (rows tb) b p = true ∧ 0 <= id ∧ ∃ i, map_info s !! id = Some i ∧ is_tried i = bool_decide (rows tb = TRIED_BUCKET_COUNT).
Proof.
  intros I [->| ->]; cbn.
  - split; [apply I|]. intros b p id Hm. destruct (proj1 (am_tried _ _ _ _ I _ _ _) Hm) as (i&Hi&Ht&Hpos).
    destruct (tried_place _ _ _ _ _ I (io_peer _ (am_info _ _ _ _ I _ _ Hi))) as (_&_&Hin). injection Hpos as -> ->.
    split; [done|]. split; [by apply (am_ids _ _ _ _ I) in Hi as [? _]|]. by exists i.
  - split; [apply I|]. intros b p id Hm. destruct (am_new _ _ _ _ I _ _ _ Hm) as (i&Hi&Hb&->).
    destruct (new_pos_ok (key s) i b (am_key _ _ _ _ I) Hb (io_peer _ (am_info _ _ _ _ I _ _ Hi))) as [_ Hin].
    split; [done|]. split; [by apply (am_ids _ _ _ _ I) in Hi as [? _]|]. exists i.
    by destruct (placed_untried _ _ _ _ _ _ _ _ I Hm Hi) as [-> _].
Qed.

(** The chance grows by a fifth from round to round. *)
Definition chance_after (k : nat) : float := Nat.iter k (λ c, float_mul c (lit 12 10)) (lit 1 1).
Definition chances : list float :=
  c ← [lit 1 1; float_mul (lit 1 1) (lit 1 100)]; (λ k, float_mul c (float_pow (lit 66 100) k)) <$> seqZ 0 9.
Lemma selection_chance_cases now i : 0 <= ExtendedPeerInfo.num_attempts i → ExtendedPeerInfo.get_selection_chance now i ∈ chances.
Proof.
  intros Hn. unfold ExtendedPeerInfo.get_selection_chance, chances. apply list_elem_of_bind.
  exists (if Z.max (now - ExtendedPeerInfo.last_try i) 0 <? 60 * 10 then float_mul (lit 1 1) (lit 1 100) else lit 1 1). split.
  - apply list_elem_of_fmap. eexists; split; [done|]. apply elem_of_seqZ. lia.
  - destruct (_ <? _); [right; left|left].
Qed.
Lemma int_lt_float_mono a b f : a <= b → int_lt_float b f = true → int_lt_float a f = true.
Proof.
  intros Hab. unfold int_lt_float. destruct f as [| | |sg m e]; [rewrite !Z.ltb_lt; lia|done|done|].
  destruct (0 <=? e); rewrite !Z.ltb_lt; nia.
Qed.
(** After 44 rounds that failed, the next one succeeds whatever the random number. *)
Definition last_round : nat := 44.
Lemma last_round_succeeds r c : 0 <= r < 2 ^ 30 → c ∈ chances →
  int_lt_float r (float_mul (float_mul (chance_after last_round) c) (lit (2 ^ 30) 1)) = true.
Proof.
  intros Hr Hc. apply (int_lt_float_mono _ (2 ^ 30 - 1)); [lia|].
  assert (Forall (λ c, int_lt_float (2 ^ 30 - 1) (float_mul (float_mul (chance_after last_round) c) (lit (2 ^ 30) 1)) = true) chances) as HF
    by (apply (bool_decide_unpack _); vm_compute; exact I).
  rewrite Forall_forall in HF. by apply HF.
Qed.

(** One round on a sparse table that is not empty *)
Lemma sparse_round s0 s fuel tb k : am_ok s0 → tb = tried_table ∨ tb = new_table → is_sparse tb s0 = true → used tb s0 ≠ ∅ → same_tables s0 s →
  ∃ v s', select_round fuel tb (cached_positions tb s0) (chance_after k) s = (Ok v, s') ∧ same_tables s0 s' ∧
    match v with
    | inl c => c = chance_after (S k) ∧ k ≠ last_round
    | inr o => ∃ i b p, o = Some i ∧ cells tb s0 !! (b, p) = Some (cell (cells tb s0) b p) ∧ map_info s0 !! cell (cells tb s0) b p = Some i
    end.
Proof.
  intros I Htb Hsp Hne Hs. destruct (table_ok _ _ I Htb) as [Hused Hcells].
  assert (∀ s', same_tables s0 s' → used tb s' = used tb s0 ∧ cells tb s' = cells tb s0 ∧ map_info s' = map_info s0) as Hsame
    by (intros s' E; rewrite E; by destruct Htb as [->| ->]).
  destruct (Hsame s Hs) as (Eu&Ec&Em).
  assert (∃ p s1, pick_position fuel tb (cached_positions tb s0) s = (Ok (Some p), s1) ∧ same_tables s0 s1 ∧ p ∈ used tb s0) as (p&s1&E1&Hs1&Hp).
  { unfold pick_position. rewrite (st_bind_Ok _ _ _ _ _ (st_get_eq s)). unfold is_sparse in *. rewrite Eu, Hsp. rewrite bool_decide_false by done.
    unfold cached_positions, is_sparse. rewrite Hsp. assert (elements (used tb s0) ≠ []) as Hel by (intros E; apply Hne; by apply elements_empty_inv in E; apply leibniz_equiv).
    destruct (randrange_ok (Z.of_nat (length (elements (used tb s0)))) s) as (r&Er&Hr); [destruct (elements _); [done|cbn; lia]|].
    rewrite (st_bind_Ok _ _ _ _ _ Er). destruct (lookup_lt_is_Some_2 (elements (used tb s0)) (Z.to_nat r) ltac:(lia)) as [p Hp].
    pose proof (py_index_nat _ _ _ Hp) as Ei. rewrite Z2Nat.id in Ei by lia. rewrite (st_bind_Ok _ _ _ _ _ (st_res_Ok _ _ _ Ei)).
    eexists p, _. split; [done|]. split; [by apply same_tables_counters|]. by apply elem_of_elements, (list_elem_of_lookup_2 _ _ _ Hp). }
  unfold select_round. rewrite (st_bind_Ok _ _ _ _ _ E1). destruct (Hsame s1 Hs1) as (_&Ec1&Em1). destruct p as [b p]. cbn [fst snd].
  rewrite Hused in Hp. apply elem_of_dom in Hp as [id Hid]. destruct (Hcells _ _ _ Hid) as (Hin&Hpos&i&Hi&_).
  rewrite (st_bind_Ok _ _ _ _ _ (st_get_eq s1)), Ec1. unfold get_cell. rewrite Hin, (cell_Some _ _ _ _ Hid).
  rewrite (st_bind_Ok _ _ s1 id s1 eq_refl). destruct (Z.eqb_spec id (-1)); [lia|]. rewrite (st_bind_Ok _ _ s1 tt s1 eq_refl).
  rewrite (st_bind_Ok _ _ _ _ _ (get_info_eq id i s1 ltac:(by rewrite Em1))).
  destruct (randrange_ok (2 ^ 30) s1 eq_refl) as (r&Er&Hr). rewrite (st_bind_Ok _ _ _ _ _ Er). set (s2 := set_counters _ _ s1).
  destruct (time_int_ok s2) as (now&En&_). rewrite (st_bind_Ok _ _ _ _ _ En).
  assert (same_tables s0 (set_counters (S (clock_reads s2)) (draws s2) s2)) as Hs3 by by apply same_tables_counters, same_tables_counters.
  pose proof (selection_chance_cases now i (io_attempts _ (am_info _ _ _ _ I _ _ Hi))) as Hch.
  destruct (int_lt_float r _) eqn:Elt.
  - eexists _, _. split; [done|]. split; [done|]. exists i, b, p. by rewrite (cell_Some _ _ _ _ Hid).
  - eexists _, _. split; [done|]. split; [done|]. split; [done|]. intros ->. by rewrite (last_round_succeeds r _ Hr Hch) in Elt.
Qed.
Lemma sparse_rounds s0 fuel tb n : am_ok s0 → tb = tried_table ∨ tb = new_table → is_sparse tb s0 = true → used tb s0 ≠ ∅ →
  ∀ k s rounds, (last_round = k + n)%nat → (n < rounds)%nat → same_tables s0 s →
  ∃ i b p s', st_loop rounds (select_round fuel tb (cached_positions tb s0)) (chance_after k) s = (Ok (Some i), s') ∧ same_tables s0 s' ∧
    cells tb s0 !! (b, p) = Some (cell (cells tb s0) b p) ∧ map_info s0 !! cell (cells tb s0) b p = Some i.
Proof.
  intros I Htb Hsp Hne. induction n as [|n IH]; intros k s rounds Hk Hr Hs; (destruct rounds as [|rounds]; [lia|]).
  - destruct (sparse_round s0 s fuel tb k I Htb Hsp Hne Hs) as (v&s1&E1&Hs1&Hv). destruct v as [c|o]; [destruct Hv as [_ Hv]; lia|].
    destruct Hv as (i&b&p&->&Hc&Hi). rewrite (st_loop_exit _ _ _ _ _ _ E1). by exists i, b, p, s1.
  - destruct (sparse_round s0 s fuel tb k I Htb Hsp Hne Hs) as (v&s1&E1&Hs1&Hv). destruct v as [c|o].
    + destruct Hv as [-> _]. rewrite (st_loop_step _ _ _ _ _ _ E1). apply IH; [lia|lia|done].
    + destruct Hv as (i&b&p&->&Hc&Hi). rewrite (st_loop_exit _ _ _ _ _ _ E1). by exists i, b, p, s1.
Qed.

Lemma count_inv {V} (P : V → bool) (m : gmap Z V) : 0 < count P m → ∃ k v, m !! k = Some v ∧ P v = true.
Proof.
  unfold count. intros Hc. destruct (map_choose (filter (λ kv : Z * V, P kv.2 = true) m)) as (k&v&Hk).
  - intros E. rewrite E, map_size_empty in Hc. lia.
  - apply map_lookup_filter_Some in Hk as [Hk Hv]. eauto.
Qed.
Lemma occurrences_inv m id : 0 < occurrences m id → ∃ b p, m !! (b, p) = Some id.
Proof.
  unfold occurrences, count. intros Hc. destruct (map_choose (filter (λ kv : Z * Z * Z, bool_decide (kv.2 = id) = true) m)) as ([b p]&v&Hk).
  - intros E. rewrite E, map_size_empty in Hc. lia.
  - apply map_lookup_filter_Some in Hk as [Hk Hv%bool_decide_eq_true]. cbn in Hv. subst v. eauto.
Qed.
Lemma tried_nonempty s : am_ok s → 0 < tried_count s → used tried_table s ≠ ∅.
Proof.
  intros I Hc. rewrite (am_tried_count _ _ _ _ I) in Hc. apply count_inv in Hc as (id&i&Hi&Ht). cbn. rewrite (am_used_tried _ _ _ _ I).
  assert (tried_matrix s !! tried_pos (key s) (peer_info i) = Some id) as Hm by (apply (am_tried _ _ _ _ I); by exists i).
  apply elem_of_dom_2 in Hm. set_solver.
Qed.
Lemma new_nonempty s id i : am_ok s → map_info s !! id = Some i → is_tried i = false → used new_table s ≠ ∅.
Proof.
  intros I Hi Ht. cbn. rewrite (am_used_new _ _ _ _ I). pose proof (am_state _ _ _ _ I _ _ Hi) as Hs. rewrite Ht in Hs.
  destruct Hs as [_ Hs]. specialize (Hs ltac:(set_solver)). rewrite (am_ref _ _ _ _ I _ _ Hi) in Hs.
  apply occurrences_inv in Hs as (b&p&Hm). apply elem_of_dom_2 in Hm. set_solver.
Qed.

Lemma select_from_sparse s fuel rounds tb : am_ok s → tb = tried_table ∨ tb = new_table → is_sparse tb s = true → used tb s ≠ ∅ → (last_round < rounds)%nat →
  ∃ i id s', select_from rounds fuel tb s = (Ok (Some i), s') ∧ same_tables s s' ∧ map_info s !! id = Some i ∧
    is_tried i = bool_decide (rows tb = TRIED_BUCKET_COUNT).
Proof.
  intros I Htb Hsp Hne Hr. unfold select_from. rewrite (st_bind_Ok _ _ _ _ _ (time_now_eq s)), (st_bind_Ok _ _ _ _ _ (st_get_eq _)).
  set (s1 := set_counters _ _ s). assert (cached_positions tb s1 = cached_positions tb s) as -> by by destruct Htb as [->| ->].
  destruct (sparse_rounds s fuel tb last_round I Htb Hsp Hne 0 s1 rounds eq_refl Hr) as (i&b&p&s'&E&Hs'&Hc&Hi).
  { apply same_tables_counters, same_tables_refl. }
  exists i, (cell (cells tb s) b p), s'. split; [done|]. split; [done|]. split; [done|].
  destruct (table_ok _ _ I Htb) as [_ Hcells]. destruct (Hcells _ _ _ Hc) as (_&_&i'&Hi'&Ht). by rewrite Hi in Hi'; injection Hi' as <-.
Qed.

(** While the tables are sparse, choosing a peer ends after at most 45 rounds whatever
    the random numbers are: it gives a node of the manager (one of the new table where only
    those are asked for), and none only when there is none to give. *)
Theorem select_peer_returns (s : AddressManager) (rounds fuel : nat) (new_only : bool) :
  am_ok s → is_sparse tried_table s = true → is_sparse new_table s = true → (45 <= rounds)%nat →
  ∃ o s', select_peer_ rounds fuel new_only s = (Ok o, s') ∧ same_tables s s' ∧
    match o with
    | None => map_info s = ∅ ∨ new_only = true ∧ new_count s = 0
    | Some i => ∃ id, map_info s !! id = Some i ∧ (new_only = true → is_tried i = false)
    end.
Proof.
  intros I Hst Hsn Hr. unfold select_peer_. rewrite (st_bind_Ok _ _ _ _ _ (st_get_eq s)).
  case_bool_decide as Hrp.
  { exists None, s. split; [done|]. split; [apply same_tables_refl|]. left. apply map_empty. intros id. destruct (map_info s !! id) as [i|] eqn:E; [|done].
    apply (am_pos _ _ _ _ I) in E as (p&_&El). by rewrite Hrp in El. }
  destruct (new_only && (new_count s =? 0)) eqn:Hno.
  { apply andb_true_iff in Hno as [-> Hz%Z.eqb_eq]. exists None, s. split; [done|]. split; [apply same_tables_refl|]. by right. }
  pose proof (am_new_count _ _ _ _ I) as Hnc. rewrite Z.sub_0_r in Hnc. pose proof (count_nonneg (λ i, negb (is_tried i)) (map_info s)) as Hnn.
  pose proof (am_tried_count _ _ _ _ I) as Htc. pose proof (count_nonneg is_tried (map_info s)) as Htn.
  assert (0 < new_count s → used new_table s ≠ ∅) as Hnew.
  { intros Hp. rewrite Hnc in Hp. apply count_inv in Hp as (id&i&Hi&Ht%negb_true_iff). by eapply new_nonempty. }
  assert (∃ tried s1, (if negb new_only && (0 <? tried_count s) then
               if new_count s =? 0 then mret true else r ← randrange 2; mret (r =? 0)
             else mret false) s = (Ok tried, s1) ∧ same_tables s s1 ∧ used (if tried then tried_table else new_table) s ≠ ∅ ∧
             (new_only = true → tried = false)) as (tried&s1&E1&Hs1&Hne&Hnt).
  { destruct (negb new_only && (0 <? tried_count s)) eqn:Hg.
    - apply andb_true_iff in Hg as [Hno'%negb_true_iff Ht%Z.ltb_lt]. subst new_only.
      destruct (Z.eqb_spec (new_count s) 0) as [Hz|Hz].
      + exists true, s. split; [done|]. split; [apply same_tables_refl|]. split; [by apply tried_nonempty|done].
      + destruct (randrange_ok 2 s eq_refl) as (r&Er&_). rewrite (st_bind_Ok _ _ _ _ _ Er). eexists _, _. split; [done|].
        split; [apply same_tables_counters, same_tables_refl|]. split; [|done].
        destruct (r =? 0); [by apply tried_nonempty|apply Hnew; lia].
    - exists false, s. split; [done|]. split; [apply same_tables_refl|]. split; [|done]. apply andb_false_iff in Hg as [Hg|Hg].
      + apply negb_false_iff in Hg as ->. cbn in Hno. apply Z.eqb_neq in Hno. apply Hnew. lia.
      + apply Z.ltb_ge in Hg. destruct (random_pos s) as [|id l] eqn:El; [done|].
        destruct (am_at _ _ _ _ I 0%nat id ltac:(by rewrite El)) as (i&Hi&_). apply (new_nonempty s id i I Hi).
        destruct (is_tried i) eqn:Ht; [|done]. pose proof (count_pos is_tried _ _ _ Hi Ht). lia. }
  rewrite (st_bind_Ok _ _ _ _ _ E1). pose proof (same_tables_ok _ _ _ _ _ I Hs1) as I1.
  set (tb := if tried then tried_table else new_table) in *. assert (tb = tried_table ∨ tb = new_table) as Htb by (subst tb; destruct tried; auto).
  destruct (select_from_sparse s1 fuel rounds tb I1 Htb) as (i&id&s2&E2&Hs2&Hi&Ht); [| |unfold last_round; lia|].
  - rewrite Hs1. by destruct Htb as [E|E]; rewrite E.
  - rewrite Hs1. subst tb. by destruct tried.
  - exists (Some i), s2. split; [done|]. split; [rewrite Hs2, Hs1; unfold same_tables; done|]. exists id.
    rewrite Hs1 in Hi. split; [exact Hi|]. intros Hn. rewrite Ht. subst tb. by rewrite (Hnt Hn).
Qed.

(** A method that only counts readings and cannot raise; its fuel may run out *)
Definition runs {A} (s0 : AddressManager) (m : ST AddressManager A) (Q : A → Prop) : Prop :=
  ∀ s, same_tables s0 s → match m s with (Ok a, s') => same_tables s0 s' ∧ Q a | (Raise _, _) => False | (OutOfFuel, s') => same_tables s0 s' end.
Lemma runs_bind {A B} s0 (m : ST AddressManager A) (f : A → ST AddressManager B) Q R :
  runs s0 m Q → (∀ a, Q a → runs s0 (f a) R) → runs s0 (a ← m; f a) R.
Proof.
  intros Hm Hf s Hs. specialize (Hm s Hs). unfold mbind, st_bind. destruct (m s) as [[a|e|] s']; [|done|done].
  destruct Hm as [Hs' Ha]. by apply Hf.
Qed.
Lemma runs_ret {A} s0 (a : A) (Q : A → Prop) : Q a → runs s0 (mret a) Q.
Proof. by intros Ha s Hs. Qed.
Lemma runs_res {A} s0 (r : res A) a (Q : A → Prop) : r = Ok a → Q a → runs s0 (st_res r) Q.
Proof. by intros -> Ha s Hs. Qed.
Lemma runs_get s0 : runs s0 st_get (same_tables s0).
Proof. by intros s Hs. Qed.
Lemma runs_randrange s0 k : 0 < k → runs s0 (randrange k) (λ r, 0 <= r < k).
Proof.
  intros Hk s Hs. destruct (randrange_ok k s Hk) as (r&->&Hr). split; [by apply same_tables_counters|done].
Qed.
Lemma runs_time_now s0 : runs s0 time_now (λ _, True).
Proof. intros s Hs. rewrite time_now_eq. split; [by apply same_tables_counters|done]. Qed.
Lemma runs_time_int s0 : runs s0 time_int (λ _, True).
Proof. intros s Hs. destruct (time_int_ok s) as (z&->&_). split; [by apply same_tables_counters|done]. Qed.
Lemma runs_loop {T R} s0 (body : T → ST AddressManager (T + R)) (P : T → Prop) (Q : R → Prop) n t :
  (∀ t, P t → runs s0 (body t) (λ v, match v with inl t' => P t' | inr r => Q r end)) → P t → runs s0 (st_loop n body t) Q.
Proof.
  intros Hb. revert t. induction n as [|n IH]; intros t Ht; [by intros s Hs|].
  cbn [st_loop]. eapply runs_bind; [by apply Hb|]. intros [t'|r] Hv; [by apply IH|by apply runs_ret].
Qed.

Section Select.
Context (s0 : AddressManager) (I0 : am_ok s0) (tb : Table) (Htb : tb = tried_table ∨ tb = new_table).

Lemma table_same s : same_tables s0 s → used tb s = used tb s0 ∧ cells tb s = cells tb s0 ∧ map_info s = map_info s0.
Proof using Htb. clear I0. intros E. rewrite E. by destruct Htb as [->| ->]. Qed.
Lemma rows_pos : 0 < rows tb ∧ 0 < 2 ^ step_bits tb.
Proof using Htb. by destruct Htb as [->| ->]. Qed.
Definition inside (p : Z * Z) : Prop := in_table (rows tb) p.1 p.2 = true.
Definition filled (p : Z * Z) : Prop := inside p ∧ cell (cells tb s0) p.1 p.2 ≠ -1.

Lemma inside_iff b p : 0 <= b < rows tb → 0 <= p < BUCKET_SIZE → inside (b, p).
Proof. intros Hb Hp. unfold inside, in_table. cbn. repeat (apply andb_true_iff; split); first [apply Z.leb_le|apply Z.ltb_lt]; lia. Qed.
Lemma runs_cell p : inside p → ∀ s, same_tables s0 s → get_cell (rows tb) (cells tb s) p.1 p.2 = Ok (cell (cells tb s0) p.1 p.2).
Proof using Htb. clear I0. intros Hp s Hs. unfold get_cell. rewrite Hp. by destruct (table_same s Hs) as (_&->&_). Qed.

Lemma runs_walk fuel p : inside p → runs s0 (st_loop fuel (step_body tb) p) filled.
Proof using Htb.
  intros Hp. apply (runs_loop s0 (step_body tb) inside); [|done]. clear p Hp fuel I0. intros p Hp. unfold step_body.
  eapply runs_bind; [apply runs_get|]. intros s Hs.
  eapply (runs_bind _ _ _ (λ v, v = cell (cells tb s0) p.1 p.2)); [eapply runs_res; [by apply runs_cell|done]|]. intros v ->.
  destruct rows_pos as [Hr Hb]. destruct (Z.eqb_spec (cell (cells tb s0) p.1 p.2) (-1)) as [|Hne]; [|by apply runs_ret].
  eapply runs_bind; [by apply runs_randrange|]. intros a _. eapply runs_bind; [by apply runs_randrange|]. intros b _.
  apply runs_ret, inside_iff; by apply mod_range.
Qed.

Lemma runs_pick fuel : runs s0 (pick_position fuel tb (cached_positions tb s0)) (λ o, ∀ p, o = Some p → filled p).
Proof using Htb I0.
  unfold pick_position. destruct (table_ok _ _ I0 Htb) as [Hused Hcells]. eapply runs_bind; [apply runs_get|]. intros s Hs.
  destruct (table_same s Hs) as (Eu&_&_). unfold is_sparse. rewrite Eu.
  destruct (Z.of_nat (size (used tb s0)) <? sparse_below tb) eqn:Hsp.
  - destruct (bool_decide (used tb s0 = ∅)) eqn:He; [by apply runs_ret|]. apply bool_decide_eq_false in He. unfold cached_positions, is_sparse. rewrite Hsp.
    assert (elements (used tb s0) ≠ []) as Hel by (intros E; apply He; by apply elements_empty_inv in E; apply leibniz_equiv).
    eapply runs_bind; [apply runs_randrange; destruct (elements _); [done|cbn; lia]|]. intros r Hr. cbn beta in Hr.
    destruct (lookup_lt_is_Some_2 (elements (used tb s0)) (Z.to_nat r) ltac:(lia)) as [p Hp].
    pose proof (py_index_nat _ _ _ Hp) as Ei. rewrite Z2Nat.id in Ei by lia.
    eapply (runs_bind _ _ _ (λ v, v = p)); [by eapply runs_res|]. intros v ->. apply runs_ret. intros p' [= <-].
    apply list_elem_of_lookup_2, elem_of_elements in Hp. rewrite Hused in Hp. apply elem_of_dom in Hp as [id Hid]. destruct p as [b p].
    destruct (Hcells _ _ _ Hid) as (Hin&Hpos&_). split; [done|]. cbn. rewrite (cell_Some _ _ _ _ Hid). lia.
  - destruct rows_pos as [Hr Hb]. eapply runs_bind; [by apply runs_randrange|]. intros row Hrow.
    eapply runs_bind; [by apply runs_randrange|]. intros col Hcol. eapply runs_bind; [by apply runs_walk, inside_iff|].
    intros p Hp. apply runs_ret. by intros p' [= <-].
Qed.

Lemma runs_round fuel c : runs s0 (select_round fuel tb (cached_positions tb s0) c) (λ _, True).
Proof using Htb I0.
  unfold select_round. eapply runs_bind; [apply runs_pick|]. intros [p|] Hp; [|by apply runs_ret]. destruct (Hp p eq_refl) as [Hin Hne].
  eapply runs_bind; [apply runs_get|]. intros s Hs.
  eapply (runs_bind _ _ _ (λ v, v = cell (cells tb s0) p.1 p.2)); [eapply runs_res; [by apply runs_cell|done]|]. intros v ->.
  eapply runs_bind; [eapply (runs_res _ _ tt (λ _, True)); [apply assert_Ok; by apply negb_true_iff, Z.eqb_neq|done]|]. intros _ _.
  assert (∃ i, map_info s0 !! cell (cells tb s0) p.1 p.2 = Some i) as [i Hi].
  { unfold cell in *. destruct (table_ok _ _ I0 Htb) as [_ Hcells]. destruct (cells tb s0 !! (p.1, p.2)) as [id|] eqn:E; [|done].
    destruct (Hcells _ _ _ E) as (_&_&i&Hi&_). by exists i. }
  eapply (runs_bind _ _ _ (λ _, True)).
  { intros s' Hs'. destruct (table_same s' Hs') as (_&_&Em). rewrite (get_info_eq _ i) by by rewrite Em. done. }
  intros j _. eapply runs_bind; [by apply runs_randrange|]. intros r _. eapply runs_bind; [apply runs_time_int|]. intros now _.
  destruct (int_lt_float _ _); by apply runs_ret.
Qed.

Lemma runs_select rounds fuel : runs s0 (select_from rounds fuel tb) (λ _, True).
Proof using Htb I0.
  unfold select_from. eapply runs_bind; [apply runs_time_now|]. intros t _. eapply runs_bind; [apply runs_get|]. intros s Hs.
  assert (cached_positions tb s = cached_positions tb s0) as ->.
  { unfold cached_positions, is_sparse. by destruct (table_same s Hs) as (->&_). }
  apply (runs_loop s0 _ (λ _, True)); [|done]. intros c _. intros s' Hs'. pose proof (runs_round fuel c s' Hs') as Hr.
  destruct (select_round _ _ _ _ s') as [[[]|e|] s'']; naive_solver.
Qed.
End Select.

Lemma select_peer_ok s rounds fuel new_only : am_ok s → runs s (select_peer_ rounds fuel new_only) (λ _, True).
Proof.
  intros I. unfold select_peer_. eapply runs_bind; [apply runs_get|]. intros s1 _. case_bool_decide; [by apply runs_ret|].
  destruct (new_only && _); [by apply runs_ret|]. eapply (runs_bind _ _ _ (λ _, True)).
  - destruct (negb new_only && _); [|by apply runs_ret]. destruct (new_count s1 =? 0); [by apply runs_ret|].
    eapply runs_bind; [by apply runs_randrange|]. intros r _. by apply runs_ret.
  - intros tried _. apply runs_select; [done|]. destruct tried; auto.
Qed.

(** *** Gossip *)

Lemma st_early_total {A S T R} (body : T → A → ST S (T + R)) (P : list A → T → S → Prop) (Q : R → S → Prop) l t s :
  (∀ l1 x l2 t s, l = l1 ++ x :: l2 → P l1 t s →
     ∃ v s', body t x s = (Ok v, s') ∧ match v with inl t' => P (l1 ++ [x]) t' s' | inr r => Q r s' end) →
  P [] t s → ∃ v s', st_early body t l s = (Ok v, s') ∧ match v with inl t' => P l t' s' | inr r => Q r s' end.
Proof.
  intros Hb HP. enough (∀ l2 l1 t s, l = l1 ++ l2 → P l1 t s →
    ∃ v s', st_early body t l2 s = (Ok v, s') ∧ match v with inl t' => P l t' s' | inr r => Q r s' end) as Hx by by apply (Hx l []).
  clear t s HP. induction l2 as [|x l2 IH]; intros l1 t s El HP.
  - rewrite app_nil_r in El. subst l1. by eexists _, _.
  - cbn [st_early]. destruct (Hb l1 x l2 t s El HP) as (v&s'&E&Hv). rewrite (st_bind_Ok _ _ _ _ _ E).
    destruct v as [t'|r]; [|by eexists _, _]. apply (IH (l1 ++ [x])); [by rewrite <- app_assoc|done].
Qed.

Lemma time_int_reading s : ∃ z, time_int s = (Ok z, set_counters (S (clock_reads s)) (draws s) s) ∧ float_floor (time_time (clock_reads s)) = Ok z.
Proof.
  destruct (time_floor (clock_reads s)) as (z&E&_). exists z. split; [|done].
  unfold time_int. rewrite (st_bind_Ok _ _ _ _ _ (time_now_eq s)). unfold st_res. by rewrite E.
Qed.

Lemma uint16_in v : 0 <= v < 2 ^ 16 → uint16 v = Ok v.
Proof. intros Hv. unfold uint16. apply StructStream_new_Ok. cbn. by rewrite andb_true_iff, Z.leb_le, Z.ltb_lt. Qed.
Definition entry (i : Info) : TimestampedPeerInfo :=
  {| ts_host := host (peer_info i); ts_port := port (peer_info i); timestamp := ExtendedPeerInfo.timestamp i |}.
(** A node that may be told to other peers *)
Definition worth_telling (flag : bool) (i : Info) : Prop :=
  is_valid (peer_info i) flag = true ∧ ∃ n now, float_floor (time_time n) = Ok now ∧ ExtendedPeerInfo.is_terrible now i = false.
Lemma moved_telling i j flag : moved i j → entry j = entry i ∧ (worth_telling flag j ↔ worth_telling flag i).
Proof. by intros [->|[p ->]]. Qed.
Lemma moved_trans i j k : moved i j → moved j k → moved i k.
Proof. intros [->|[p ->]] [->|[q ->]]; unfold moved; eauto. Qed.

Record gossip (s0 : AddressManager) (n : nat) (addr : list TimestampedPeerInfo) (s : AddressManager) : Prop := {
  gs_ok : am_ok s;
  gs_length : length (random_pos s) = length (random_pos s0);
  gs_flag : allow_private_subnets s = allow_private_subnets s0;
  gs_back : ∀ id k, map_info s !! id = Some k → ∃ k0, map_info s0 !! id = Some k0 ∧ moved k0 k;
  gs_told : ∀ a, a ∈ addr → ∃ q id i, (q < n)%nat ∧ random_pos s !! q = Some id ∧ map_info s !! id = Some i ∧ a = entry i ∧
    worth_telling (allow_private_subnets s0) i;
  gs_once : NoDup (ts_host <$> addr);
}.
Lemma same_host s p q id id' i i' : am_ok s → random_pos s !! p = Some id → random_pos s !! q = Some id' →
  map_info s !! id = Some i → map_info s !! id' = Some i' → host (peer_info i) = host (peer_info i') → p = q.
Proof.
  intros I Hp Hq Hi Hi' Hh. assert (map_addr s !! host (peer_info i) = Some id) as E1 by (apply (am_addr _ _ _ _ I); by exists i).
  assert (map_addr s !! host (peer_info i) = Some id') as E2 by (apply (am_addr _ _ _ _ I); by exists i').
  rewrite E1 in E2. injection E2 as <-. destruct (am_at _ _ _ _ I _ _ Hp) as (k&Ek&Er). destruct (am_at _ _ _ _ I _ _ Hq) as (k'&Ek'&Er').
  rewrite Ek in Ek'. injection Ek' as <-. rewrite Er in Er'. injection Er'. lia.
Qed.

Lemma gossip_shuffled s0 n addr s s' (r : nat) : gossip s0 n addr s → am_ok s' → shuffled s s' → 
  (∀ p, p ≠ n → p ≠ r → random_pos s' !! p = random_pos s !! p) → (n <= r)%nat → gossip s0 n addr s'.
Proof.
  intros [Hok Hlen Hfl Hback Htold Honce] I' Hsh Hkeep Hr. pose proof (sh_eq _ _ Hsh) as Heq. split; try done.
  - by rewrite (sh_perm _ _ Hsh).
  - by rewrite Heq.
  - intros id k Ek. destruct (sh_back _ _ Hsh _ _ Ek) as (k1&Ek1&M1). destruct (Hback _ _ Ek1) as (k0&Ek0&M0).
    exists k0. split; [done|]. by eapply moved_trans.
  - intros a Ha. destruct (Htold a Ha) as (q&id&i&Hq&Hp&Hi&->&Hw). destruct (sh_on _ _ Hsh _ _ Hi) as (j&Hj&Hm).
    destruct (moved_telling i j (allow_private_subnets s0) Hm) as [Ee Hw']. exists q, id, j. rewrite Hkeep by lia. rewrite <- Ee, Hw'. done.
Qed.
Lemma gossip_counters s0 n addr s a d : gossip s0 n addr s → gossip s0 n addr (set_counters a d s).
Proof. intros []. split; try done. by apply inv_counters. Qed.
Lemma gossip_more s0 n addr s : gossip s0 n addr s → gossip s0 (S n) addr s.
Proof. intros []. split; try done. intros a Ha. destruct (gs_told0 a Ha) as (q&id&i&Hq&Hx). exists q, id, i. split; [lia|done]. Qed.

Lemma gossip_one_ok s0 num addr (n : nat) s : gossip s0 n addr s → (n < length (random_pos s0))%nat → Z.of_nat (length addr) <= num →
  ∃ v s', gossip_one num addr (Z.of_nat n) s = (Ok v, s') ∧
    match v with inl addr' => gossip s0 (S n) addr' s' ∧ Z.of_nat (length addr') <= num | inr addr' => gossip s0 n addr' s' ∧ addr' = addr end.
Proof.
  intros G Hn Hnum. unfold gossip_one. destruct (Z.leb_spec num (Z.of_nat (length addr))); [by eexists _, s|].
  rewrite (st_bind_Ok _ _ _ _ _ (st_get_eq s)). rewrite (gs_length _ _ _ _ G).
  destruct (randrange_ok (Z.of_nat (length (random_pos s0)) - Z.of_nat n) s ltac:(lia)) as (r&Er&Hr). rewrite (st_bind_Ok _ _ _ _ _ Er).
  apply (gossip_counters _ _ _ _ (clock_reads s) (S (draws s))) in G. set (s1 := set_counters _ _ s) in *.
  replace (r + Z.of_nat n) with (Z.of_nat (Z.to_nat r + n)) by lia.
  destruct (swap_random_ok _ _ _ s1 n (Z.to_nat r + n) (gs_ok _ _ _ _ G)) as (s2&E2&I2&Hsh&_&_&Hkeep);
    [rewrite (gs_length _ _ _ _ G); lia..|]. rewrite (st_bind_Ok _ _ _ _ _ E2).
  pose proof (gossip_shuffled _ _ _ _ _ _ G I2 Hsh Hkeep ltac:(lia)) as G2. rewrite (st_bind_Ok _ _ _ _ _ (st_get_eq s2)).
  destruct (lookup_lt_is_Some_2 (random_pos s2) n) as [id Hid]; [by rewrite (gs_length _ _ _ _ G2)|].
  rewrite (st_bind_Ok _ _ _ _ _ (st_res_Ok _ _ s2 (py_index_nat _ _ _ Hid))). destruct (am_at _ _ _ _ I2 _ _ Hid) as (i&Hi&_).
  rewrite (st_bind_Ok _ _ _ _ _ (get_info_eq _ _ _ Hi)). rewrite (gs_flag _ _ _ _ G2).
  destruct (is_valid _ _) eqn:Hv; cbn [negb]; [|eexists _, s2; split; [done|]; split; [by apply gossip_more|lia]].
  destruct (time_int_reading s2) as (now&En&Ef). rewrite (st_bind_Ok _ _ _ _ _ En).
  pose proof (gossip_counters _ _ _ _ (S (clock_reads s2)) (draws s2) G2) as G3. set (s3 := set_counters _ _ s2) in *.
  destruct (ExtendedPeerInfo.is_terrible now i) eqn:Ht; [eexists _, s3; split; [done|]; split; [by apply gossip_more|lia]|].
  destruct (am_info _ _ _ _ I2 _ _ Hi) as [[_ Hport] _ Hts _ _ _].
  rewrite (st_bind_Ok _ _ _ _ _ (st_res_Ok (uint16 (port (peer_info i))) (port (peer_info i)) s3 ltac:(by apply uint16_in))).
  rewrite (st_bind_Ok _ _ _ _ _ (st_res_Ok (uint64 (ExtendedPeerInfo.timestamp i)) (ExtendedPeerInfo.timestamp i) s3 ltac:(by apply uint64_in))).
  eexists _, s3. split; [done|]. split; [|rewrite length_app; cbn; lia]. change {| ts_host := _; ts_port := _; timestamp := _ |} with (entry i).
  destruct (gossip_more _ _ _ _ G3) as [Hok Hlen Hfl Hback Htold Honce]. split; try done.
  - intros a [Ha| ->%list_elem_of_singleton]%elem_of_app; [by apply Htold|]. exists n, id, i. split; [lia|]. split; [done|]. split; [done|].
    split; [done|]. split; [done|]. by exists (clock_reads s2), now.
  - rewrite fmap_app. apply NoDup_app. split; [done|]. split; [|apply NoDup_singleton].
    intros h Hh. cbn. intros Hx%list_elem_of_singleton. apply list_elem_of_fmap in Hh as (a&->&Ha).
    destruct (gs_told _ _ _ _ G3 a Ha) as (q&id'&i'&Hq&Hp&Hi'&->&_). cbn in Hx. pose proof (same_host _ _ _ _ _ _ _ I2 Hp Hid Hi' Hi Hx). lia.
Qed.

(** *** How many addresses the tables hold *)

Definition CAPACITY : Z := (NEW_BUCKET_COUNT + TRIED_BUCKET_COUNT) * BUCKET_SIZE.
Definition grid (rows : Z) : list (Z * Z) := bucket ← seqZ 0 rows; pair bucket <$> seqZ 0 BUCKET_SIZE.
Lemma grid_length rows : 0 <= rows → Z.of_nat (length (grid rows)) = rows * BUCKET_SIZE.
Proof.
  intros Hr. unfold grid.
  assert (∀ l : list Z, length ((bucket ← l; pair bucket <$> seqZ 0 BUCKET_SIZE) : list (Z * Z)) = (length l * 64)%nat) as El.
  { induction l as [|b l IH]; [done|]. rewrite bind_cons, length_app, length_fmap, length_seqZ, IH. change (Z.to_nat BUCKET_SIZE) with 64%nat. cbn [length]. lia. }
  rewrite El, length_seqZ. unfold BUCKET_SIZE. lia.
Qed.
Lemma cells_fit s tb : am_ok s → tb = tried_table ∨ tb = new_table → Z.of_nat (size (cells tb s)) <= rows tb * BUCKET_SIZE.
Proof.
  intros I Htb. destruct (table_ok _ _ I Htb) as [_ Hc]. rewrite <- grid_length by (by destruct Htb as [->| ->]).
  rewrite <- length_map_to_list, <- (length_fmap fst). apply Nat2Z.inj_le, submseteq_length, NoDup_submseteq; [apply NoDup_fst_map_to_list|].
  intros [b p] Hin. apply list_elem_of_fmap in Hin as ([[b' p'] id]&[= <- <-]&Hin%elem_of_map_to_list).
  destruct (Hc _ _ _ Hin) as (Hb&_). unfold in_table in Hb. repeat (apply andb_true_iff in Hb as [Hb ?]). zbool.
  unfold grid. apply list_elem_of_bind. exists b. split; [apply list_elem_of_fmap; exists p; split; [done|]|]; apply elem_of_seqZ; lia.
Qed.
Lemma positions_distinct s : am_ok s → NoDup (random_pos s).
Proof.
  intros I. apply NoDup_alt. intros p q id Hp Hq. destruct (am_at _ _ _ _ I _ _ Hp) as (i&Ei&Er). destruct (am_at _ _ _ _ I _ _ Hq) as (i'&Ei'&Er').
  rewrite Ei in Ei'. injection Ei' as <-. rewrite Er in Er'. injection Er'. lia.
Qed.
Lemma manager_bounded s : am_ok s → Z.of_nat (length (random_pos s)) <= CAPACITY.
Proof.
  intros I. pose proof (cells_fit s tried_table I ltac:(by left)) as Ht. pose proof (cells_fit s new_table I ltac:(by right)) as Hn. cbn [cells tried_table new_table rows] in *.
  assert (length (random_pos s) <= length ((map_to_list (new_matrix s)).*2 ++ (map_to_list (tried_matrix s)).*2))%nat as Hl.
  { apply submseteq_length, NoDup_submseteq; [by apply positions_distinct|]. intros id [p Hp]%list_elem_of_lookup.
    destruct (am_at _ _ _ _ I _ _ Hp) as (i&Hi&_). apply elem_of_app. destruct (is_tried i) eqn:Et.
    - right. apply list_elem_of_fmap. exists (tried_pos (key s) (peer_info i), id). split; [done|]. apply elem_of_map_to_list.
      apply (am_tried _ _ _ _ I). by exists i.
    - left. pose proof (am_state _ _ _ _ I _ _ Hi) as Hs. rewrite Et in Hs. destruct Hs as [_ Hs]. specialize (Hs ltac:(set_solver)).
      rewrite (am_ref _ _ _ _ I _ _ Hi) in Hs. apply occurrences_inv in Hs as (b&q&Hm). apply list_elem_of_fmap.
      exists ((b, q), id). split; [done|]. by apply elem_of_map_to_list. }
  rewrite length_app, !length_fmap, !length_map_to_list in Hl. unfold CAPACITY. lia.
Qed.

Lemma get_peers_ok s : am_ok s → ∃ l s', get_peers_ s = (Ok l, s') ∧ am_ok s' ∧
  Z.of_nat (length l) <= 1000 ∧ NoDup (ts_host <$> l) ∧
  ∀ a, a ∈ l → ∃ id i, map_info s !! id = Some i ∧ a = entry i ∧ worth_telling (allow_private_subnets s) i.
Proof.
  intros I. pose proof (manager_bounded s I) as Hcap. unfold CAPACITY, NEW_BUCKET_COUNT, TRIED_BUCKET_COUNT, BUCKET_SIZE in Hcap.
  unfold get_peers_. rewrite (st_bind_Ok _ _ _ _ _ (st_get_eq s)). cbn zeta.
  destruct (truediv_ok (23 * Z.of_nat (length (random_pos s))) 100 ltac:(lia) ltac:(lia)) as [q Eq]. rewrite (st_bind_Ok _ _ _ _ _ (st_res_Ok _ _ s Eq)).
  pose proof (int_truediv_rate (23 * Z.of_nat (length (random_pos s))) 100 q ltac:(lia) ltac:(lia) Eq) as Hrate.
  assert (∃ z, float_ceil q = Ok z ∧ 0 <= z) as (z&Ez&Hz).
  { destruct q as [sg|sg| |[] m e]; try done; [by exists 0|]. eexists; split; [done|]. destruct (Z.leb_spec 0 e); [apply Z.mul_nonneg_nonneg; lia|].
    assert (Zneg m / 2 ^ (- e) <= 0); [|cbn [Z.opp] in *; lia]. apply Z.div_le_upper_bound; [|lia]. apply Z.pow_pos_nonneg; lia. }
  rewrite (st_bind_Ok _ _ _ _ _ (st_res_Ok _ _ s Ez)). set (num := if 1000 <? z then 1000 else z).
  assert (0 <= num <= 1000) as Hnum by (subst num; destruct (Z.ltb_spec 1000 z); lia). clearbody num.
  destruct (st_early_total (gossip_one num) (λ visited addr s', gossip s (length visited) addr s' ∧ Z.of_nat (length addr) <= num)
    (λ addr s', ∃ n, gossip s n addr s' ∧ Z.of_nat (length addr) <= num) (seqZ 0 (Z.of_nat (length (random_pos s)))) [] s) as (v&s'&E&Hv).
  - intros l1 x l2 addr s1 El [G Hl].
    assert (x = Z.of_nat (length l1) ∧ (length l1 < length (random_pos s))%nat) as [-> Hlt].
    { assert (seqZ 0 (Z.of_nat (length (random_pos s))) !! length l1 = Some x) as Hx by (rewrite El, lookup_app_r, Nat.sub_diag by lia; done).
      apply lookup_seqZ in Hx. lia. }
    destruct (gossip_one_ok s num addr (length l1) s1 G Hlt Hl) as (v&s2&E2&Hv). exists v, s2. split; [done|].
    destruct v as [addr'|addr']; [rewrite length_app; cbn; by rewrite Nat.add_1_r|]. destruct Hv as [G' ->]. by exists (length l1).
  - split; [|cbn; lia]. split; try done; [|by intros a Ha%elem_of_nil|by constructor]. intros id k Ek. exists k. split; [done|by left].
  - rewrite (st_bind_Ok _ _ _ _ _ E). set (l := match v with inl addr | inr addr => addr end).
    assert (∃ n, gossip s n l s' ∧ Z.of_nat (length l) <= num) as (n&G&Hl) by (destruct v; [by eexists|done]).
    exists l, s'. split; [done|]. split; [apply G|]. split; [lia|]. split; [apply G|]. intros a Ha.
    destruct (gs_told _ _ _ _ G a Ha) as (p&id&i&_&_&Hi&->&Hw). destruct (gs_back _ _ _ _ G _ _ Hi) as (i0&Hi0&Hm).
    destruct (moved_telling i0 i (allow_private_subnets s) Hm) as [Ee Hw']. exists id, i0. rewrite <- Ee, <- Hw'. done.
Qed.

(** *** Every sequence of calls *)

Inductive Call :=
  | AddToNewTable (addresses : list TimestampedPeerInfo) (source : option PeerInfo) (penalty : Z)
  | MarkGood (addr : PeerInfo) (test_before_evict : bool) (timestamp : Z)
  | Attempt (addr : PeerInfo) (count_failures : bool) (timestamp : Z)
  | Connect (addr : PeerInfo) (timestamp : Z)
  | ResolveTriedCollisions
  | SelectTriedCollision
  | SelectPeer (rounds fuel : nat) (new_only : bool)
  | GetPeers
  | Cleanup (max_timestamp_difference max_consecutive_failures : Z)
  | MakePrivateSubnetsValid.
Definition call (c : Call) : ST AddressManager unit :=
  match c with
  | AddToNewTable addresses source penalty => _ ← add_to_new_table addresses source penalty; mret tt
  | MarkGood addr test ts => mark_good addr test ts
  | Attempt addr count ts => attempt addr count ts
  | Connect addr ts => connect addr ts
  | ResolveTriedCollisions => resolve_tried_collisions_
  | SelectTriedCollision => _ ← select_tried_collision_; mret tt
  | SelectPeer rounds fuel new_only => _ ← select_peer_ rounds fuel new_only; mret tt
  | GetPeers => _ ← get_peers_; mret tt
  | Cleanup d f => cleanup d f
  | MakePrivateSubnetsValid => st_modify make_private_subnets_valid
  end.
(** Arguments of their types; the source of an address is a peer with an address *)
Definition time_ok (ts : Z) : Prop := ts = -1 ∨ 0 <= ts < 2 ^ 64.
Definition call_ok (c : Call) : Prop :=
  match c with
  | AddToNewTable addresses source penalty => Forall heard_ok addresses ∧ 0 <= penalty ∧ ∀ p, source = Some p → peer_ok p
  | MarkGood _ _ ts | Attempt _ _ ts | Connect _ ts => time_ok ts
  | _ => True
  end.

Lemma given_time_ok s ts : am_ok s → time_ok ts → ∃ z s', given_time ts s = (Ok z, s') ∧ am_ok s' ∧ 0 <= z < 2 ^ 64.
Proof.
  intros I Hts. unfold given_time. destruct (Z.eqb_spec ts (-1)).
  - destruct (time_int_ok s) as (z&E&Hz). eexists z, _. split; [done|]. split; [by apply inv_counters|lia].
  - exists ts, s. split; [done|]. split; [done|]. destruct Hts; [done|lia].
Qed.
Lemma add_all_ok s addresses source penalty acc : am_ok s → Forall heard_ok addresses → 0 <= penalty → (∀ p, source = Some p → peer_ok p) →
  ∃ b s', st_fold (λ is_added addr, cur ← add_to_new_table_ addr source penalty; mret (is_added || cur)) acc addresses s = (Ok b, s') ∧ am_ok s'.
Proof.
  intros I Ha Hp Hs. revert acc s I. induction Ha as [|addr l Haddr Hl IH]; intros acc s I; [by eexists _, _|]. cbn [st_fold].
  destruct (add_to_new_table_ok_ s addr source penalty I Haddr Hp Hs) as (added&s1&E1&I1).
  rewrite (st_bind_Ok _ _ s (acc || added) s1); [by apply IH|]. by rewrite (st_bind_Ok _ _ _ _ _ E1).
Qed.

Lemma call_keeps s c : am_ok s → call_ok c → am_ok (call c s).2 ∧ ∀ e, (call c s).1 ≠ Raise e.
Proof.
  intros I Hc. destruct c as [l src pen|a t ts|a t ts|a ts| | |rounds fuel new_only| |d f|]; cbn [call call_ok] in *.
  - destruct Hc as (Hl&Hp&Hs). destruct (add_all_ok s l src pen false I Hl Hp Hs) as (b&s'&E&I').
    unfold add_to_new_table. by rewrite (st_bind_Ok _ _ _ _ _ E).
  - destruct (given_time_ok s ts I Hc) as (z&s1&E1&I1&Hz). unfold mark_good. rewrite (st_bind_Ok _ _ _ _ _ E1).
    by destruct (mark_good_ok s1 a t z I1 Hz) as (s2&->&I2&_).
  - destruct (given_time_ok s ts I Hc) as (z&s1&E1&I1&Hz). unfold attempt. rewrite (st_bind_Ok _ _ _ _ _ E1).
    by destruct (attempt_ok s1 a t z I1 Hz) as (s2&->&I2).
  - destruct (given_time_ok s ts I Hc) as (z&s1&E1&I1&Hz). unfold connect. rewrite (st_bind_Ok _ _ _ _ _ E1).
    by destruct (connect_ok s1 a z I1 Hz) as (s2&->&I2).
  - by destruct (resolve_tried_collisions_ok s I) as (s2&->&I2).
  - destruct (select_tried_collision_ok s I) as (v&s2&E&I2). by rewrite (st_bind_Ok _ _ _ _ _ E).
  - pose proof (select_peer_ok s rounds fuel new_only I s (same_tables_refl s)) as Hr. unfold mbind, st_bind.
    destruct (select_peer_ rounds fuel new_only s) as [[v|e|] s']; [|done|].
    + split; [by apply (same_tables_ok _ _ _ s); [|apply Hr]|done].
    + split; [by apply (same_tables_ok _ _ _ s)|done].
  - destruct (get_peers_ok s I) as (v&s2&E&I2&_). by rewrite (st_bind_Ok _ _ _ _ _ E).
  - by destruct (cleanup_ok s d f I) as (s2&->&I2).
  - cbn. destruct I. split; [by split|done].
Qed.

Lemma new_manager_ok : am_ok new_manager.
Proof.
  split; cbn; try (by intros *; rewrite ?lookup_empty); try (by rewrite count_empty); try (by rewrite dom_empty_L).
  - by apply rand_range.
  - intros h id. rewrite lookup_empty. split; [done|]. intros (i&Ei&_). by rewrite lookup_empty in Ei.
  - intros b p id. rewrite lookup_empty. split; [done|]. intros (i&Ei&_). by rewrite lookup_empty in Ei.
  - split; [apply NoDup_nil_2|]. unfold TRIED_COLLISION_SIZE. lia.
  - by intros id Hin%elem_of_nil.
Qed.

Lemma calls_keep calls s : am_ok s → Forall call_ok calls → am_ok (st_for call calls s).2 ∧ ∀ e, (st_for call calls s).1 ≠ Raise e.
Proof.
  intros I Hc. revert s I. induction Hc as [|c calls Hc Hcs IH]; intros s I; [done|]. cbn [st_for]. destruct (call_keeps s c I Hc) as [I' Hne].
  unfold mbind, st_bind. destruct (call c s) as [[[]|e|] s']; [by apply IH|by destruct (Hne e)|done].
Qed.

(** C21. Whatever is called in whatever order, and whatever the clock and the random numbers
    give, the tables stay consistent: the indexes by host and position agree with the nodes,
    every node is in the tried table once or in the new table as often as its count says, at
    the positions its hash gives, and the counters are right.  No call fails on an assertion,
    an index or a key, and the tables never hold more addresses than they have cells. *)
Theorem address_tables_consistent (calls : list Call) : Forall call_ok calls →
  let r := st_for call calls new_manager in
  am_ok r.2 ∧ (∀ e, r.1 ≠ Raise e) ∧ manager_size r.2 <= CAPACITY.
Proof.
  intros Hc. destruct (calls_keep calls new_manager new_manager_ok Hc) as [Hok Hne].
  split; [done|]. split; [done|]. by apply manager_bounded.
Qed.

(** Gossip tells at most a thousand addresses, each once, all of nodes the manager has,
    valid under its settings and not terrible at the time; the tables stay consistent. *)
Theorem gossip_bounded (s : AddressManager) : am_ok s → ∃ l s', get_peers_ s = (Ok l, s') ∧ am_ok s' ∧
  Z.of_nat (length l) <= 1000 ∧ NoDup (ts_host <$> l) ∧
  ∀ a, a ∈ l → ∃ id i, map_info s !! id = Some i ∧ a = entry i ∧ worth_telling (allow_private_subnets s) i.
Proof. apply get_peers_ok. Qed.
End Methods.

(** ** Samples *)

#[local] Program Instance sample_world : World := {| time_time := λ _, lit (2 ^ 30) 1; rand := λ n k, (7 * Z.of_nat n + 3) mod k |}.
Next Obligation. exists (2 ^ 30). split; [by vm_compute|lia]. Qed.
Next Obligation. intros n k Hk. by apply Z.mod_pos_bound. Qed.
#[local] Instance sample_registry : IpRegistry := {| ipv4_is_private := λ _, false; ipv6_is_private := λ _, false |}.

#[local] Program Instance spread_hash : StdHash :=
  {| std_hash := λ b, encode_be 8 (foldl (λ a x, (31 * a + x) mod 2 ^ 61) 7 b) ++ replicate 24 0 |}.
Next Obligation. intros b. apply is_bytes_app. split; [apply encode_be_are_bytes|by repeat constructor]. Qed.
Next Obligation. intros b. etrans; [apply length_app|]. by rewrite encode_be_length. Qed.

(** [1.2.3.4] and [5.6.7.8], heard of an hour ago; a connection to the first is attempted *)
Definition sample_hosts : list text := [[49; 46; 50; 46; 51; 46; 52]; [53; 46; 54; 46; 55; 46; 56]].
Definition sample_heard : list TimestampedPeerInfo := (λ h, {| ts_host := h; ts_port := 8444; timestamp := 2 ^ 30 - 3600 |}) <$> sample_hosts.
Definition sample_calls : list Call :=
  [AddToNewTable sample_heard None 0; Attempt {| host := [49; 46; 50; 46; 51; 46; 52]; port := 8444 |} true (-1); GetPeers].
Lemma sample_calls_ok : Forall call_ok sample_calls.
Proof.
  repeat apply Forall_cons_2; [| | |done]; cbn; [|by left|done].
  split; [|by split]. repeat apply Forall_cons_2; [..|done]; split; cbn; lia.
Qed.
Definition sample_manager : AddressManager := (st_for call sample_calls new_manager).2.
Lemma sample_manager_ok : am_ok sample_manager.
Proof. apply (calls_keep sample_calls); [apply new_manager_ok|apply sample_calls_ok]. Qed.

Lemma address_tables_consistent_witness : am_ok sample_manager ∧ manager_size sample_manager = 2 ∧ new_count sample_manager = 2.
Proof.
  split; [|split; by vm_compute]. pose proof (address_tables_consistent sample_calls sample_calls_ok) as Hr.
  cbv zeta in Hr. unfold sample_manager. exact (proj1 Hr).
Defined.
Lemma sample_manager_nodes : size (map_info sample_manager) = 2%nat ∧ new_count sample_manager = 2 ∧
  is_sparse tried_table sample_manager = true ∧ is_sparse new_table sample_manager = true.
Proof. split_and!; by vm_compute. Qed.
Lemma select_peer_returns_witness : ∃ i s', select_peer_ 45 0 true sample_manager = (Ok (Some i), s').
Proof.
  destruct sample_manager_nodes as (Hsize&Hnew&Htried&Hsparse).
  destruct (select_peer_returns sample_manager 45 0 true sample_manager_ok Htried Hsparse (le_n 45)) as ([i|]&s'&E&_&Ho); [exists i, s'; exact E|clear E].
  exfalso. destruct Ho as [Ho|[_ Ho]]; [rewrite Ho, map_size_empty in Hsize; discriminate Hsize|rewrite Hnew in Ho; discriminate Ho].
Defined.
Lemma gossip_bounded_witness : ∃ l s', get_peers_ sample_manager = (Ok l, s') ∧ NoDup (ts_host <$> l).
Proof. destruct (gossip_bounded sample_manager sample_manager_ok) as (l&s'&E&_&_&Hl&_). exists l, s'. exact (conj E Hl). Defined.
